(* ===== verification/_CoqProject ===== *)
-Q . S2P
Prelude.v
Words.v
Atomics.v
Lists.v
LockFree.v
Memory.v
Strings.v
Kalloc.v
Pages.v
PageTable.v
KernelPt.v
Sched.v
Sem.v
Ipc.v
MsgQueue.v
Objects.v
Heap.v
Cache.v
CacheSpec.v
LogCrash.v
LogSpace.v
CacheProps.v
Transaction.v
Bitmap.v
Format.v
Proc.v
ProcSpec.v
ProcProps.v
Mkfs.v
MkfsSpec.v
MkfsFiles.v
MkfsProps.v
RbTree.v
RbRep.v
RbInsert.v
RbErase.v
RbProps.v
Timers.v
TimersSpec.v
TimersProps.v
SchedTimers.v
Traps.v
TrapProps.v
Mmio.v
SdRegs.v
Sd.v
SdSpec.v
SdArith.v
SdProtocol.v
SdProps.v
SdQueue.v
SdTrace.v
SdDisk.v
SdQueueProps.v
Uart.v
Mbox.v
Online.v
Boot.v
BootSpec.v
BootProps.v
PanicProps.v
