(* ===== verification/Prelude.v ===== *)
(** * Verification of the OS-2022Fall-Fudan kernel

    A shallow embedding of the teaching kernel under [src/src/] in Rocq, with the
    theorems that make its parts correct.  C functions become functions with the
    names of the source in the monad [M S] of this file: a computation takes the
    state [S] of its component and answers [Done (a, s)], [Panic] (a failed
    [ASSERT] or [PANIC()]), [Crash] (an access the code has no right to make) or
    [NoFuel] (a loop that did not finish within its fuel).  Integers are [Z] and
    wrap where the code's width makes them ([u64], [u32], [i32] of [Words.v]).

    ** The parts and how they fit

    - Basics. [Words.v] is [common/defines.h].  [Memory.v] is byte memory, on which
      [Strings.v] ([common/string.c]), [LockFree.v] (the [QueueNode]s of
      [common/list.c]), [Kalloc.v] ([kernel/mem.c]) and [PageTable.v]
      ([kernel/pt.c]) run.  [Atomics.v] is [common/spinlock.c] and [common/rc.c].
      [Lists.v] is the circular lists and the [Queue] of [common/list.h] and
      [list.c], on a heap of nodes; every component with linked lists uses it.
      [Bitmap.v] is [common/bitmap.h], [Format.v] is [common/format.c] and
      [kernel/printk.c].
    - Memory. [Kalloc.v] implements the class [PageAllocator] of [Pages.v], which
      is all that [PageTable.v] and [Ipc.v] see of it, and the class [KernelHeap] of
      [Heap.v], which adds [kalloc] and is what [Proc.v] and [Boot.v] see.  A heap
      implements the class [ObjAlloc] of [Objects.v], against which the block cache
      is verified.  [KernelPt.v] is
      the static tables of [aarch64/kernel_pt.c], with the MMU's walk over them.
    - Processes. [Sched.v] ([kernel/sched.c]) implements the class [Scheduler],
      against which [Sem.v] ([common/sem.c]) and [Ipc.v] ([common/ipc.c], proved
      in [MsgQueue.v]) are verified, and uses timers through [CpuTimers].
      [Proc.v] is [kernel/proc.c] and [kernel/container.c]: its [world] puts the
      scheduler, one semaphore per process, the process tree, the page tables and
      the heap together; [ProcSpec.v] and [ProcProps.v] prove it.
    - Timers. [RbTree.v] is [common/rbtree.c] on a heap of nodes.  [RbRep.v] relates
      heaps to trees, [RbInsert.v] and [RbErase.v] prove the two repairs,
      [RbProps.v] the operations.  [Timers.v] is [kernel/cpu.c], [driver/clock.c]
      and the timer of [kernel/sched.c] on one tree per CPU; [TimersSpec.v] and
      [TimersProps.v] prove it, and [SchedTimers.v] shows that it implements the
      class [CpuTimers] that [Sched.v] uses.
    - Traps. [Traps.v] is [aarch64/trap.c], [kernel/syscall.c] and
      [driver/interrupt.c]; [TrapProps.v] proves it.
    - Starting and stopping. [Boot.v] is [main.c], [kernel/init.c],
      [kernel/core.c] and the initialisers of [kernel/sched.c]: the [boot] state
      is the [world] of [Proc.v] over the timers of [Timers.v], with the devices.
      [BootSpec.v] proves the initialisers one by one, [BootProps.v] the boot up
      to the first switch, [PanicProps.v] the panic; [Online.v] says what leaves a
      CPU online.
    - Devices. [Mmio.v] is loads and stores of device registers, the counter and
      the delays ([aarch64/intrinsic.h], [intrinsic.c]) on any [Hardware], with a
      record of every access.  [SdRegs.v] is the constants and the table of
      commands of [driver/sddef.h], [Sd.v] its functions; [SdSpec.v] proves that
      waits and commands end, [SdProtocol.v] says what has to go well for a card to be
      initialised, [SdProps.v] proves the initialisation and [SdArith.v] the
      clock divider and the capacity.  [SdQueue.v] is [driver/sd.c] and
      [fs/block_device.c]: the queue of requests and the interrupt handler.
      [SdTrace.v] gives the accesses of a request as a sequence of events of the
      card, [SdDisk.v] a card as an automaton over those events, a disk, and the
      steps of the processes and the interrupt; [SdQueueProps.v] the refinement.
      [Uart.v] is [driver/uart.c] and [Mbox.v] is [driver/mbox.c], each with a
      class ([Serial], [VideoCore]) for what is behind its registers.
    - Storage. [Cache.v] is [fs/cache.c]: the block cache and the write-ahead log,
      on a device that records its writes and on the class [ObjAlloc] of
      [Objects.v]. [CacheSpec.v] and [CacheProps.v] are about the cache,
      [LogSpace.v] about the room in the log, [LogCrash.v] about recovery and
      [Transaction.v] about a whole operation.  [Mkfs.v] is [user/mkfs/main.c];
      [MkfsSpec.v] proves the growth of one file, [MkfsFiles.v] that of a family
      of files, and [MkfsProps.v] the image as its readers see it.

    ** What the theorems show

    - Storage: a commit interrupted after any write is recovered to the blocks
      before it or to those after it, and so is a whole write operation; the
      log's reservations never overflow it; an acquired block has the contents its
      reader expects, and others change only by the eviction of some that are
      neither pinned nor marked; the cache stays small; the builder's image holds every
      file byte for byte.
    - Disk: requests are sent to the card one at a time in the order of the calls,
      and every finished one has read or written its block of a disk; [sdInit],
      if the mailbox answers it, returns on any card, and marks it in use exactly when
      the protocol of [SdProtocol.v] was carried out;
      the clock divider is in its bounds and the capacity is the one of the
      card's register.
    - Timers: a red-black tree answers as the sorted list of its nodes, and a
      search takes logarithmically many steps; the clock interrupt calls the
      handlers of the expired timers in order, each once; setting a timer
      programs the clock for the first one; the timer of the scheduler is rearmed.
    - Traps: a system call gets its answer, an interrupt serves the clock and
      every pending device, a killed process exits on its way to user space.
    - Processes: the scheduler runs the first runnable process in the order of
      the nested queues; a semaphore hands out as many permits as were posted,
      whatever the interleaving; [exit], [wait] and [kill] keep the tree; a
      message of one page is received as it was sent, and goes to the first sleeping
      receiver that wants its type, if that one has room for it; removing a queue frees
      all pages of its messages.
    - Starting and stopping: whatever the order of the initialisers, the boot ends
      in a kernel that satisfies the invariants of the parts above, and the first
      CPU that idles runs the root process; after a panic by a CPU that does not
      hold the lock of the scheduler, at most two steps of each CPU are left that take a
      process off it or take it offline, one of them is always possible, and the wait of
      the panic ends exactly when all CPUs are offline.
    - Consoles: what [printk] renders comes out of the serial line; the requests to
      the video core are sent and answered through the cache.
    - Memory: [kalloc] answers 0 exactly when there is nothing to take or to ask for;
      blocks are fresh, cleared and disjoint, and come back; page tables
      map what was asked for and nothing else, and their pages are given back
      exactly once; the boot tables map RAM and devices with their attributes.
    - Basics: mutual exclusion of spin locks; lists and queues refine sequences;
      the free list with one consumer loses nothing; [memmove] copies; [printk]
      renders its format; bitmaps are arrays of booleans.
    - Defects: where the code does not do what it means to, the theorem says what
      it does. Examples: [fetch_from_queue] with two consumers, [kalloc] of large
      sizes, page tables without memory, receivers with small buffers, long
      messages (how much of one arrives), blocks freed while held, a panic inside the
      scheduler, containers without a run queue.

    ** Conventions

    Operations that sleep are cut at the call of [sched]: one definition runs up
    to it, another from where the process runs again ([wait_begin]/[wait_end],
    [msgsnd_load]/[msgsnd_try], [msgrcv_start]/[msgrcv_finish],
    [wait_start]/[wait_reap], [idle_entry]/[idle_resume]; [exit] ends in the
    scheduler).  Interleavings are
    step relations ([Atomics.v], [LockFree.v], [LogSpace.v]) or sequences of
    operations ([Sem.v]), or steps of the CPUs in any order ([PanicProps.v],
    [SdDisk.v]).  Addresses the linker chooses are parameters.

    Fuel is an argument of the loops over lists and tables.  Every theorem states
    the fuel that is enough: the length of the list (and one more where the loop
    visits the head), 4 for the levels of a page table, the nesting of containers
    for the scheduler, 126 turns for the 63 entries of the log, one turn per byte
    for [iappend], the number of nodes for the operations of a tree and of timers
    for the clock interrupt.  The waits of the SD driver carry their own bound,
    the counter of polls in the code; a delay needs as many turns as the ticks it
    lasts; those of the serial line and the mailbox take the polls their classes
    bound.  [NoFuel] is otherwise only a process that would sleep inside the
    cache, the endless loop of [pipeline_send], or the wait of a panic that has
    not ended yet.

    Messages are not printed (but by [Format.v]); the device registers that a
    message reads are read.

    ** Not modelled

    Registers of the processor and inline assembly: [swtch] and the entry of a new
    process, barriers ([aarch64/intrinsic.h]), the saving of registers by a trap.
    The answer of the mailbox is a parameter of the SD driver, which calls it once; that
    it returns is a hypothesis of the theorem about [sdInit].  In [Boot.v] the
    initialisers of the devices and of the message queues are a parameter that is
    assumed to return: one that panicked would not boot.
    [sd_test] is a benchmark; [kernel_entry], where the root process starts, runs
    the tests and the remaining initialisers, which the boot leaves to it.
    [kernel/kalloc.c] is disabled by the
    preprocessor; [common/checker.h] leaves no code.  Tests ([src/src/test],
    [fs/test]) are not part of the program. *)

From stdpp Require Export base tactics option numbers list_numbers fin_maps gmap list.

Declare Scope os_scope.
Delimit Scope os_scope with os.
#[global] Open Scope Z_scope.
#[export] Unset Program Cases.

(** ** Outcomes of a kernel routine

    [Panic] is a call of [PANIC()] (a failed [ASSERT] included), [Crash] is an
    access the C code has no right to make (a null or unmapped pointer, an
    index out of an array), [NoFuel] is a loop that did not finish within the
    fuel it was run with. *)
Inductive outcome (A : Type) : Type :=
  | Done (a : A)
  | Panic
  | Crash
  | NoFuel.
Arguments Done {A} a.
Arguments Panic {A}.
Arguments Crash {A}.
Arguments NoFuel {A}.

#[export] Instance outcome_eq_dec `{EqDecision A} : EqDecision (outcome A).
Proof. solve_decision. Defined.

(** The answer of a run, without the state it ends in. *)
Definition answer {A S} (o : outcome (A * S)) : option A :=
  match o with Done (a, _) => Some a | _ => None end.

(** ** The state monad the operations are written in *)
Definition M (S A : Type) : Type := S → outcome (A * S).

#[export] Instance M_ret S : MRet (M S) := λ A a s, Done (a, s).
#[export] Instance M_bind S : MBind (M S) := λ A B k m s,
  match m s with
  | Done (a, s') => k a s'
  | Panic => Panic
  | Crash => Crash
  | NoFuel => NoFuel
  end.

Definition panic {S A} : M S A := λ _, Panic.
Definition crash {S A} : M S A := λ _, Crash.
Definition nofuel {S A} : M S A := λ _, NoFuel.
Definition get {S} : M S S := λ s, Done (s, s).
Definition put {S} (s : S) : M S unit := λ _, Done (tt, s).
Definition gets {S A} (f : S → A) : M S A := λ s, Done (f s, s).
Definition modify {S} (f : S → S) : M S unit := λ s, Done (tt, f s).
(** [ASSERT(expr)] of [common/defines.h]. *)
Definition assert {S} (b : bool) : M S unit := if b then mret tt else panic.
Definition from_option_M {S A} (o : option A) : M S A :=
  match o with Some a => mret a | None => crash end.

(** [loop n body a] runs [body] until it returns [inr]: a C [while]/[do] loop
    whose loop-carried variables are [a], at most [n] iterations. *)
Fixpoint loop {S A B} (n : nat) (body : A → M S (A + B)) (a : A) : M S B :=
  match n with
  | O => nofuel
  | S n' =>
      r ← body a;
      match r with
      | inl a' => loop n' body a'
      | inr b => mret b
      end
  end.

(** [for_each l body] runs [body] on the elements of [l] in order. *)
Fixpoint for_each {S A} (l : list A) (body : A → M S unit) : M S unit :=
  match l with
  | [] => mret tt
  | a :: l' => body a;; for_each l' body
  end.

(** ** Total-correctness triples

    [triple P m Q]: from every state satisfying [P], [m] terminates without
    panic or crash, with a result and a state satisfying [Q]. *)
Definition triple {S A} (P : S → Prop) (m : M S A) (Q : A → S → Prop) : Prop :=
  ∀ s, P s → ∃ a s', m s = Done (a, s') ∧ Q a s'.

Section monad_laws.
Context {S A B : Type}.
Implicit Types (m : M S A) (k : A → M S B) (s : S).

Lemma bind_done m k s a s' : m s = Done (a, s') → (m ≫= k) s = k a s'.
Proof. intros H. unfold mbind, M_bind. by rewrite H. Qed.

Lemma bind_panic m k s : m s = Panic → (m ≫= k) s = Panic.
Proof. intros H. unfold mbind, M_bind. by rewrite H. Qed.

Lemma bind_crash m k s : m s = Crash → (m ≫= k) s = Crash.
Proof. intros H. unfold mbind, M_bind. by rewrite H. Qed.

Lemma bind_inv m k s b s'' :
  (m ≫= k) s = Done (b, s'') →
  ∃ a s', m s = Done (a, s') ∧ k a s' = Done (b, s'').
Proof.
  unfold mbind, M_bind. destruct (m s) as [[a s']| | |] eqn:E; [|done..]. eauto.
Qed.

Lemma ret_done (a : A) s : mret (M := M S) a s = Done (a, s).
Proof. done. Qed.

Lemma triple_ret (Q : A → S → Prop) a : triple (Q a) (mret a) Q.
Proof. intros s H. by exists a, s. Qed.

Lemma triple_bind P m (R : A → S → Prop) k (Q : B → S → Prop) :
  triple P m R → (∀ a, triple (R a) (k a) Q) → triple P (m ≫= k) Q.
Proof.
  intros Hm Hk s HP. destruct (Hm s HP) as (a & s' & E & HR).
  destruct (Hk a s' HR) as (b & s'' & E' & HQ).
  exists b, s''. split; [|done]. by rewrite (bind_done _ _ _ _ _ E).
Qed.

Lemma triple_conseq (P P' : S → Prop) m (Q Q' : A → S → Prop) :
  triple P' m Q' → (∀ s, P s → P' s) → (∀ a s, Q' a s → Q a s) → triple P m Q.
Proof.
  intros H HP HQ s Hs. destruct (H s (HP s Hs)) as (a & s' & E & Hq). eauto.
Qed.
End monad_laws.

Lemma bind_assoc {S A B C} (m : M S A) (k : A → M S B) (k' : B → M S C) s :
  ((m ≫= k) ≫= k') s = (m ≫= (λ a, k a ≫= k')) s.
Proof. unfold mbind, M_bind. by destruct (m s) as [[]| | |]. Qed.

Lemma bind_ext {S A B} (m : M S A) (k k' : A → M S B) s :
  (∀ a s', m s = Done (a, s') → k a s' = k' a s') → (m ≫= k) s = (m ≫= k') s.
Proof. intros H. unfold mbind, M_bind. destruct (m s) as [[]| | |] eqn:E; [by apply H|done..]. Qed.

(** ** Frame rules

    [keeps f m]: when [m] returns, [f] of the state is what it was. *)
Definition keeps {S X A} (f : S → X) (m : M S A) : Prop := ∀ s a s', m s = Done (a, s') → f s' = f s.

Create HintDb keeps.

Section frame.
Context {S X : Type} (f : S → X).

Lemma keeps_ret {A} (a : A) : keeps f (mret a).
Proof. by intros s b s' [= _ ->]. Qed.
Lemma keeps_bind {A B} (m : M S A) (k : A → M S B) : keeps f m → (∀ a, keeps f (k a)) → keeps f (m ≫= k).
Proof. intros Hm Hk s b s' (a & s1 & E & E')%bind_inv. rewrite (Hk _ _ _ _ E'). by eapply Hm. Qed.
Lemma keeps_loop {A B} n (body : A → M S (A + B)) a : (∀ a, keeps f (body a)) → keeps f (loop n body a).
Proof.
  intros Hb. revert a. induction n as [|n IH]; intros a; [done|]. apply keeps_bind; [done|].
  intros [a'|b]; [apply IH|apply keeps_ret].
Qed.
Lemma keeps_modify g : (∀ s, f (g s) = f s) → keeps f (modify g).
Proof. by intros H s a s' [= _ <-]. Qed.
Lemma keeps_gets {A} (g : S → A) : keeps f (gets g).
Proof. by intros s a s' [= _ <-]. Qed.
Lemma keeps_if {A} (P : Prop) `{!Decision P} (m1 m2 : M S A) : keeps f m1 → keeps f m2 →
  keeps f (if decide P then m1 else m2).
Proof. by destruct (decide P). Qed.
Lemma keeps_ifb {A} (b : bool) (m1 m2 : M S A) : keeps f m1 → keeps f m2 → keeps f (if b then m1 else m2).
Proof. by destruct b. Qed.
Lemma keeps_fail {A} (o : outcome (A * S)) : (∀ x, o ≠ Done x) → keeps f (λ _, o).
Proof. intros H s a s' E. by destruct (H _ E). Qed.
End frame.

#[export] Hint Resolve keeps_ret keeps_bind keeps_loop keeps_gets keeps_if keeps_ifb : keeps.

Ltac keeps_tac := repeat (intros; case_match || eauto 2 with keeps || apply keeps_bind || apply keeps_loop ||
  apply keeps_if || apply keeps_ifb || apply keeps_modify; try done).

Lemma assert_true {S} (s : S) b : b = true → assert b s = Done (tt, s).
Proof. by intros ->. Qed.
Lemma assert_false {S} (s : S) b : b = false → assert b s = Panic.
Proof. by intros ->. Qed.

Section loop_facts.
Context {S A B : Type} (body : A → M S (A + B)).

Lemma loop_S n a : loop (Datatypes.S n) body a =
  (r ← body a; match r with inl a' => loop n body a' | inr b => mret b end).
Proof. done. Qed.

(** More fuel never changes the result of a loop that finished. *)
Lemma loop_mono n k a s b s' :
  loop n body a s = Done (b, s') → loop (n + k) body a s = Done (b, s').
Proof.
  revert a s. induction n as [|n IH]; intros a s; [done|].
  rewrite Nat.add_succ_l, !loop_S. intros (r & s1 & E & H)%bind_inv.
  rewrite (bind_done _ _ _ _ _ E). destruct r as [a'|b']; [by apply IH|done].
Qed.

(** A loop whose body preserves [I] and decreases [meas] finishes. *)
Lemma loop_triple (I : A → S → Prop) (meas : A → nat) (Q : B → S → Prop) n a :
  (∀ a, triple (I a) (body a) (λ r s, match r with
      | inl a' => I a' s ∧ (meas a' < meas a)%nat
      | inr b => Q b s end)) →
  (meas a < n)%nat → triple (I a) (loop n body a) Q.
Proof.
  intros Hb. revert a. induction n as [|n IH]; intros a Hn; [lia|].
  rewrite loop_S. eapply triple_bind; [apply Hb|].
  intros [a'|b] s; simpl.
  - intros [HI Hm]. apply (IH a'); [lia|done].
  - intros HQ. exists b, s. done.
Qed.
End loop_facts.

Lemma for_each_app {S A} (l1 l2 : list A) (body : A → M S unit) s :
  for_each (l1 ++ l2) body s = (for_each l1 body;; for_each l2 body) s.
Proof.
  revert s. induction l1 as [|a l1 IH]; intros s; [done|]. simpl.
  unfold mbind, M_bind. destruct (body a s) as [[[] s']| | |]; [|done..].
  rewrite IH. done.
Qed.

(** The C loop [for (i = a; i < n; i++)] with the invariant [I i]. *)
Lemma for_seq_rule {S} (body : Z → M S unit) (I : Z → S → Prop) a n :
  0 ≤ n →
  (∀ i s, a ≤ i < a + n → I i s → ∃ s', body i s = Done (tt, s') ∧ I (i + 1) s') →
  triple (I a) (for_each (seqZ a n) body) (λ _, I (a + n)).
Proof.
  intros Hn Hb. assert (∃ k, n = Z.of_nat k) as [k ->] by (exists (Z.to_nat n); lia). clear Hn.
  revert a Hb. induction k as [|k IH]; intros a Hb s HI.
  - exists tt, s. split; [done|]. by rewrite Z.add_0_r.
  - rewrite seqZ_cons by lia. simpl.
    destruct (Hb a s) as (s1 & E & HI1); [lia|done|].
    destruct (IH (Z.succ a)) with (s := s1) as ([] & s2 & E2 & HI2); [|done|].
    { intros i s' Hi. apply Hb. lia. }
    exists tt, s2. split.
    + rewrite (bind_done _ _ _ _ _ E). replace (Z.pred (Z.of_nat (Datatypes.S k))) with (Z.of_nat k) by lia.
      done.
    + by replace (a + Z.of_nat (Datatypes.S k)) with (Z.succ a + Z.of_nat k) by lia.
Qed.

(** ** Tactics *)

(** Unfold the monad operations in the goal so that it computes. *)
Ltac m_unfold :=
  unfold mbind, M_bind, mret, M_ret, get, put, gets, modify, assert, panic, crash,
    nofuel, from_option_M in *.
(** Run the goal's computation on its concrete prefix. *)
Ltac m_run := m_unfold; simpl; repeat (case_match; simplify_eq/=); try done.
(** Step over the first operation of a bind, given its result. *)
Ltac m_step H := rewrite (bind_done _ _ _ _ _ H).
(** Split a successful bind in the hypotheses. *)
Ltac m_inv H :=
  let a := fresh "r" in let s := fresh "s" in let E := fresh "E" in
  apply bind_inv in H as (a & s & E & H).

(** ** Lists *)

Lemma NoDup_app_cons {A} (l1 l2 : list A) x :
  NoDup (l1 ++ x :: l2) ↔ x ∉ l1 ∧ x ∉ l2 ∧ NoDup (l1 ++ l2).
Proof.
  rewrite <-(Permutation_middle l1 l2 x), NoDup_cons, elem_of_app. naive_solver.
Qed.

Lemma NoDup_rotate {A} (l1 l2 : list A) : NoDup (l1 ++ l2) ↔ NoDup (l2 ++ l1).
Proof. rewrite !NoDup_app. naive_solver. Qed.

Lemma last_cons_default {A} (x d : A) l :
  default d (last (x :: l)) = default x (last l).
Proof. rewrite last_cons. by destruct (last l). Qed.

Lemma snoc_destruct {A} (x : A) l :
  ∃ l' y, x :: l = l' ++ [y] ∧ y = default x (last l).
Proof.
  destruct l as [|z l' _] using rev_ind.
  - by exists [], x.
  - exists (x :: l'), z. rewrite last_snoc. done.
Qed.

(** Decreasing to a position of a list, for loops that search one. *)
Lemma list_find_index {A} (P : A → bool) (l : list A) :
  (∃ i x, l !! i = Some x ∧ P x = true ∧ ∀ j y, (j < i)%nat → l !! j = Some y → P y = false)
  ∨ (∀ x, x ∈ l → P x = false).
Proof.
  induction l as [|x l IH]; [right; by intros x ?%elem_of_nil|].
  destruct (P x) eqn:E.
  - left. exists 0%nat, x. split_and!; [done..|]. intros j y Hj. lia.
  - destruct IH as [(i & y & Hy & HP & Hm)|Hn].
    + left. exists (S i), y. split_and!; [done..|].
      intros [|j] z Hj Hz; simplify_eq/=; [done|]. apply (Hm j); [lia|done].
    + right. intros y [->|Hy]%elem_of_cons; eauto.
Qed.

(** ** Step relations *)

(** A property kept by every step holds in every reachable state. *)
Lemma rtc_invariant {A} (R : relation A) (I : A → Prop) x y :
  (∀ a b, I a → R a b → I b) → I x → rtc R x y → I y.
Proof. intros Hs Hx Hr. induction Hr; eauto. Qed.
