(* ===== verification/Words.v ===== *)
(** * Machine integers ([common/defines.h])

    The C integer types are values of [Z] kept in the range of their width by
    the wrap-around functions below; the file also holds the arithmetic helpers
    of [defines.h] ([round_down], [round_up], [BIT]) with the theorems that
    bound them. *)
From S2P Require Import Prelude.

(** ** Wrap-around *)
Definition wrap (w z : Z) : Z := z mod 2 ^ w.
Definition swrap (w z : Z) : Z := (z + 2 ^ (w - 1)) mod 2 ^ w - 2 ^ (w - 1).

Abbreviation u8 := (wrap 8).
Abbreviation u16 := (wrap 16).
Abbreviation u32 := (wrap 32).
Abbreviation u64 := (wrap 64).
Abbreviation i32 := (swrap 32).
Abbreviation i64 := (swrap 64).

(** A value is in the range of an unsigned [w]-bit type. *)
Definition in_u (w z : Z) : Prop := 0 ≤ z < 2 ^ w.
Definition in_s (w z : Z) : Prop := - 2 ^ (w - 1) ≤ z < 2 ^ (w - 1).

#[export] Instance in_u_dec w z : Decision (in_u w z).
Proof. unfold in_u. apply _. Defined.
#[export] Instance in_s_dec w z : Decision (in_s w z).
Proof. unfold in_s. apply _. Defined.

Create HintDb words.

Lemma wrap_range w z : 0 ≤ w → in_u w (wrap w z).
Proof. intros. apply Z.mod_pos_bound. lia. Qed.
Lemma wrap_small w z : in_u w z → wrap w z = z.
Proof. apply Z.mod_small. Qed.
Lemma swrap_range w z : 0 < w → in_s w (swrap w z).
Proof.
  intros. unfold in_s, swrap.
  pose proof (Z.mod_pos_bound (z + 2 ^ (w - 1)) (2 ^ w) ltac:(lia)).
  replace (2 ^ w) with (2 * 2 ^ (w - 1)) in *; [lia|].
  rewrite <-Z.pow_succ_r by lia. f_equal. lia.
Qed.
Lemma swrap_small w z : 0 < w → in_s w z → swrap w z = z.
Proof.
  intros Hw H. unfold in_s, swrap in *. rewrite Z.mod_small; [lia|].
  replace (2 ^ w) with (2 * 2 ^ (w - 1)); [lia|].
  rewrite <-Z.pow_succ_r by lia. f_equal. lia.
Qed.
Lemma u64_small z : in_u 64 z → u64 z = z.
Proof. apply wrap_small. Qed.
Lemma u32_small z : in_u 32 z → u32 z = z.
Proof. apply wrap_small. Qed.
Lemma i32_small z : in_s 32 z → i32 z = z.
Proof. by apply swrap_small. Qed.
#[export] Hint Resolve wrap_range swrap_range : words.

(** ** [BIT], [round_down], [round_up] *)

(** [BIT(i)] is [1ull << i]; shifting by 64 or more is undefined in C. *)
Definition BIT (i : Z) : Z := u64 (Z.shiftl 1 i).
Definition MIN (a b : Z) : Z := if a <=? b then a else b.
Definition MAX (a b : Z) : Z := if a >=? b then a else b.

Definition round_down (a b : Z) : Z := u64 (a - a mod b).
Definition round_up (a b : Z) : Z := round_down (u64 (u64 (a + b) - 1)) b.

Lemma MIN_min a b : MIN a b = Z.min a b.
Proof. unfold MIN. destruct (Z.leb_spec a b); lia. Qed.
Lemma MAX_max a b : MAX a b = Z.max a b.
Proof. unfold MAX. destruct (Z.geb_spec a b); lia. Qed.

Lemma BIT_pow i : 0 ≤ i < 64 → BIT i = 2 ^ i.
Proof.
  intros. unfold BIT. rewrite Z.shiftl_1_l. apply wrap_small. split; [lia|].
  apply Z.pow_lt_mono_r; lia.
Qed.

Lemma BIT_testbit i j : 0 ≤ i < 64 → 0 ≤ j → Z.testbit (BIT i) j = bool_decide (i = j).
Proof.
  intros. rewrite BIT_pow by done. case_bool_decide as E.
  - subst. apply Z.pow2_bits_true; lia.
  - apply Z.pow2_bits_false; lia.
Qed.

Lemma round_down_eq a b : in_u 64 a → 0 < b → round_down a b = b * (a / b).
Proof.
  intros [??] ?. unfold round_down. pose proof (Z.mod_pos_bound a b ltac:(lia)).
  pose proof (Z.mod_le a b ltac:(lia) ltac:(lia)).
  rewrite wrap_small; [|split; lia]. rewrite Z.mod_eq by lia. lia.
Qed.

(** The comment of [round_down]: the largest multiple of [b] not above [a]. *)
Lemma round_down_spec a b : in_u 64 a → 0 < b →
  (b | round_down a b) ∧ round_down a b ≤ a ∧
  ∀ c, (b | c) → c ≤ a → c ≤ round_down a b.
Proof.
  intros Ha Hb. rewrite round_down_eq by done. split_and!.
  - apply Z.divide_factor_l.
  - by apply Z.mul_div_le.
  - intros c [k ->] Hc. rewrite Z.mul_comm. apply Z.mul_le_mono_nonneg_l; [lia|].
    apply Z.div_le_lower_bound; lia.
Qed.

(** The comment of [round_up]: the smallest multiple of [b] not below [a]; it
    holds as long as [a + b - 1] does not overflow. *)
Lemma round_up_spec a b : in_u 64 a → 0 < b → a + b ≤ 2 ^ 64 →
  (b | round_up a b) ∧ a ≤ round_up a b ∧
  ∀ c, (b | c) → a ≤ c → round_up a b ≤ c.
Proof.
  intros [??] Hb Ho. unfold round_up.
  assert (u64 (u64 (a + b) - 1) = a + b - 1) as ->.
  { destruct (decide (a + b = 2 ^ 64)) as [->|].
    - by vm_compute.
    - rewrite (wrap_small 64 (a + b)) by (split; lia). apply wrap_small. split; lia. }
  rewrite round_down_eq by (done || (split; lia)). split_and!.
  - apply Z.divide_factor_l.
  - pose proof (Z.div_mod (a + b - 1) b ltac:(lia)).
    pose proof (Z.mod_pos_bound (a + b - 1) b ltac:(lia)). lia.
  - intros c [k ->] Hc. rewrite (Z.mul_comm k). apply Z.mul_le_mono_nonneg_l; [lia|].
    apply Z.lt_succ_r. apply Z.div_lt_upper_bound; [lia|]. nia.
Qed.

(** ** Bit-level facts used by the components *)

Lemma in_u_testbit w z : 0 ≤ w → 0 ≤ z →
  (∀ i, w ≤ i → Z.testbit z i = false) → in_u w z.
Proof.
  intros Hw Hz H. split; [done|].
  destruct (Z.eq_dec z 0) as [->|]; [lia|].
  apply Z.log2_lt_pow2; [lia|]. destruct (Z.lt_ge_cases (Z.log2 z) w) as [|Hge]; [done|].
  specialize (H (Z.log2 z) Hge). rewrite Z.bit_log2 in H by lia. done.
Qed.

Lemma testbit_high w z i : in_u w z → w ≤ i → Z.testbit z i = false.
Proof.
  intros [? Hlt] Hi. destruct (Z.neg_nonneg_cases w) as [Hw|Hw].
  { rewrite Z.pow_neg_r in Hlt by done. lia. }
  rewrite <-(Z.mod_small z (2 ^ w)) by done. by apply Z.mod_pow2_bits_high.
Qed.

Lemma in_u_lor w a b : 0 ≤ w → in_u w a → in_u w b → in_u w (Z.lor a b).
Proof.
  intros Hw Ha Hb. apply in_u_testbit; [done| |].
  - apply Z.lor_nonneg. unfold in_u in *. lia.
  - intros i Hi. rewrite Z.lor_spec, !(testbit_high w) by done. done.
Qed.

Lemma in_u_land_l w a b : 0 ≤ w → in_u w a → in_u w (Z.land a b).
Proof.
  intros Hw Ha. apply in_u_testbit; [done| |].
  - apply Z.land_nonneg. unfold in_u in *. lia.
  - intros i Hi. rewrite Z.land_spec, (testbit_high w a) by done. done.
Qed.

(** [~x] of an unsigned [w]-bit value. *)
Definition unot (w z : Z) : Z := Z.lxor z (Z.ones w).

Lemma unot_testbit w z i : 0 ≤ w → 0 ≤ i →
  Z.testbit (unot w z) i = if bool_decide (i < w) then negb (Z.testbit z i) else Z.testbit z i.
Proof.
  intros. unfold unot. rewrite Z.lxor_spec. case_bool_decide.
  - rewrite Z.ones_spec_low by lia. by rewrite xorb_true_r.
  - rewrite Z.ones_spec_high by lia. by rewrite xorb_false_r.
Qed.

Lemma land_unot_testbit w a b i : in_u w a → 0 ≤ w → 0 ≤ i →
  Z.testbit (Z.land a (unot w b)) i = Z.testbit a i && negb (Z.testbit b i).
Proof.
  intros Ha Hw Hi. rewrite Z.land_spec, unot_testbit by done. case_bool_decide; [done|].
  by rewrite (testbit_high w a) by (done || lia).
Qed.

Lemma testbit_b2z z i : 0 ≤ i → Z.land (Z.shiftr z i) 1 = Z.b2z (Z.testbit z i).
Proof.
  intros. change 1 with (Z.ones 1). rewrite Z.land_ones by lia.
  rewrite Z.shiftr_div_pow2 by done. symmetry. apply Z.testbit_spec'. done.
Qed.
