(* ===== verification/Atomics.v ===== *)
(** * Spin locks and reference counts ([common/spinlock.c], [common/rc.c])

    The first part gives the operations as a CPU alone executes them; the
    second interleaves any number of CPUs, one memory access at a time, and
    proves mutual exclusion.  The third part is the atomic counter. *)
From S2P Require Import Prelude Words.

(** ** One CPU *)

(** [struct SpinLock] has the single member [locked]. *)
Definition SpinLock : Type := bool.

Definition init_spinlock : M SpinLock unit := put false.

(** [!lock->locked && !__atomic_test_and_set(&lock->locked)]. *)
Definition _try_acquire_spinlock : M SpinLock bool :=
  locked ← get;
  if (locked : bool) then mret false
  else old ← get; put true;; if (old : bool) then mret false else mret true.

Definition _acquire_spinlock (fuel : nat) : M SpinLock unit :=
  loop fuel (λ _, r ← _try_acquire_spinlock; mret (if (r : bool) then inr tt else inl tt)) tt.

Definition _release_spinlock : M SpinLock unit := put false.

Lemma acquire_free fuel : _acquire_spinlock (S fuel) false = Done (tt, true).
Proof. done. Qed.

(** A CPU that acquires a lock nobody will release spins for ever. *)
Lemma acquire_held fuel : _acquire_spinlock fuel true = NoFuel.
Proof. induction fuel as [|fuel IH]; [done|]. exact IH. Qed.

(** ** Many CPUs *)
Module Spin.
(** Where a CPU is with respect to the lock. *)
Inductive pc :=
  | Outside   (* not using the lock *)
  | Testing   (* about to read [locked] in [_try_acquire_spinlock] *)
  | Swapping  (* has read 0, about to test-and-set *)
  | Holding.  (* [_acquire_spinlock] has returned *)

#[global] Instance pc_eq_dec : EqDecision pc.
Proof. solve_decision. Defined.

Record state := mk { locked : SpinLock; cpus : list pc }.

(** The next state of CPU [i], when it moves. *)
Definition cpu_step (c : pc) (l : SpinLock) : pc * SpinLock :=
  match c with
  | Outside => (Testing, l)
  | Testing => if l then (Testing, l) else (Swapping, l)
  | Swapping => if l then (Testing, true) else (Holding, true)
  | Holding => (Outside, false)
  end.

Inductive step : state → state → Prop :=
  | step_cpu i c c' s l' :
      cpus s !! i = Some c → cpu_step c (locked s) = (c', l') →
      step s (mk l' (<[i := c']> (cpus s))).

Definition init (n : nat) : state := mk false (replicate n Outside).
Definition reachable (n : nat) (s : state) : Prop := rtc step (init n) s.

Definition holders (s : state) : list pc := filter (eq Holding) (cpus s).

(** The lock word is set exactly when one CPU holds the lock. *)
Definition inv (s : state) : Prop :=
  length (holders s) = if locked s then 1%nat else 0%nat.

Lemma filter_insert_length (P : pc → Prop) `{!∀ x, Decision (P x)} l i c c' :
  l !! i = Some c →
  (length (filter P (<[i := c']> l)) + (if decide (P c) then 1 else 0) =
   length (filter P l) + (if decide (P c') then 1 else 0))%nat.
Proof.
  revert i. induction l as [|x l IH]; intros i Hi; [done|].
  destruct i as [|i]; simpl in *; [injection Hi as ->|].
  - rewrite !filter_cons. repeat case_decide; simpl in *; lia.
  - specialize (IH _ Hi). rewrite !filter_cons. repeat case_decide; simpl in *; lia.
Qed.

Lemma spin_inv_step s s' : inv s → step s s' → inv s'.
Proof.
  intros Hi Hst. destruct Hst as [i c c' s l' Hc Hs]. unfold inv, holders in *. simpl.
  pose proof (filter_insert_length (eq Holding) _ _ _ c' Hc) as H.
  destruct s as [l cs]; simpl in *.
  destruct c, l; simplify_eq/=; repeat case_decide; simplify_eq/=; lia.
Qed.

Lemma spin_inv_init n : inv (init n).
Proof. unfold inv, holders. simpl. induction n; simpl; [done|]. by rewrite filter_cons. Qed.

Lemma spin_inv_reachable n s : reachable n s → inv s.
Proof. apply rtc_invariant; [exact spin_inv_step|apply spin_inv_init]. Qed.
End Spin.

(** ** Reference counts *)
Module Rc.
(** [struct RefCount] has the single member [count], an [isize]. *)
Definition init_rc : M Z unit := put 0.
Definition _increment_rc : M Z unit := modify (λ c, i64 (c + 1)).
Definition _decrement_rc : M Z bool :=
  modify (λ c, i64 (c - 1));; r ← get; mret (r <=? 0).

(** The atomic operations of all CPUs, in the order they take effect. *)
Inductive op := Inc | Dec.

#[global] Instance op_eq_dec : EqDecision op.
Proof. solve_decision. Defined.

(** The answers of the decrements of a history, and the final count. *)
Fixpoint run (l : list op) : M Z (list bool) :=
  match l with
  | [] => mret []
  | Inc :: l' => _increment_rc;; run l'
  | Dec :: l' => r ← _decrement_rc; rs ← run l'; mret (r :: rs)
  end.

Fixpoint delta (l : list op) : Z :=
  match l with [] => 0 | Inc :: l' => 1 + delta l' | Dec :: l' => delta l' - 1 end.

(** A history never lets the count leave [0, max]. *)
Fixpoint stays (max c : Z) (l : list op) : Prop :=
  0 ≤ c ≤ max ∧
  match l with
  | [] => True
  | Inc :: l' => stays max (c + 1) l'
  | Dec :: l' => stays max (c - 1) l'
  end.

Lemma delta_app l1 l2 : delta (l1 ++ l2) = delta l1 + delta l2.
Proof. induction l1 as [|[] l1 IH]; simpl; lia. Qed.

Lemma stays_range max c l : stays max c l → 0 ≤ c ≤ max.
Proof. destruct l; by intros [? _]. Qed.

Lemma i64_small z : - 2 ^ 63 ≤ z < 2 ^ 63 → i64 z = z.
Proof. intros. apply swrap_small; [done|]. done. Qed.

Lemma run_count max l c : max < 2 ^ 63 → stays max c l →
  ∃ rs, run l c = Done (rs, c + delta l) ∧
    length rs = length (filter (eq Dec) l) ∧
    ∀ i b, rs !! i = Some b → ∃ l1 l2, l = l1 ++ Dec :: l2 ∧
      length (filter (eq Dec) l1) = i ∧ b = (c + delta l1 - 1 <=? 0).
Proof.
  intros Hm. revert c. induction l as [|o l IH]; intros c Hs.
  { exists []. split_and!; [simpl; unfold mret, M_ret; do 2 f_equal; lia|done|done]. }
  destruct Hs as [Hc Hs].
  destruct o; pose proof (stays_range _ _ _ Hs) as Hr; destruct (IH _ Hs) as (rs & E & Hl & Hi).
  - exists rs. split_and!.
    + simpl. unfold _increment_rc. m_unfold. simpl. rewrite i64_small by lia. rewrite E.
      do 2 f_equal. lia.
    + rewrite filter_cons_False by done. done.
    + intros i b Hb. destruct (Hi i b Hb) as (l1 & l2 & -> & Hf & ->).
      exists (Inc :: l1), l2. split_and!; [done|by rewrite filter_cons_False|].
      simpl. f_equal; lia.
  - exists ((c - 1 <=? 0) :: rs). split_and!.
    + simpl. unfold _decrement_rc. m_unfold. simpl. rewrite i64_small by lia. rewrite E.
      do 2 f_equal. lia.
    + rewrite filter_cons_True by done. simpl. lia.
    + intros [|i] b Hb; simplify_eq/=.
      * exists [], l. split_and!; [done..|]. simpl. f_equal; lia.
      * destruct (Hi i b Hb) as (l1 & l2 & -> & Hf & ->).
        exists (Dec :: l1), l2. split_and!; [done|rewrite filter_cons_True by done; simpl; lia|].
        simpl. f_equal; lia.
Qed.
End Rc.

(** ** Theorems *)

(** C24: mutual exclusion. In every state that any interleaving of any number of
    CPUs calling [_acquire_spinlock] and [_release_spinlock] reaches, two CPUs
    that both are past the acquire are the same CPU, and the lock word is then
    set. *)
Theorem spinlock_mutual_exclusion n s i j :
  Spin.reachable n s → Spin.cpus s !! i = Some Spin.Holding →
  Spin.cpus s !! j = Some Spin.Holding → i = j ∧ Spin.locked s = true.
Proof.
  intros Hr Hi Hj. apply Spin.spin_inv_reachable in Hr. unfold Spin.inv, Spin.holders in Hr.
  pose proof (Spin.filter_insert_length (eq Spin.Holding) _ _ _ Spin.Outside Hi) as H1.
  destruct (decide (i = j)) as [->|Hn].
  - split; [done|]. destruct (Spin.locked s); [done|].
    repeat case_decide; simplify_eq; lia.
  - exfalso. assert (Hj' : <[i:=Spin.Outside]> (Spin.cpus s) !! j = Some Spin.Holding)
      by (by rewrite list_lookup_insert_ne).
    pose proof (Spin.filter_insert_length (eq Spin.Holding) _ _ _ Spin.Outside Hj') as H2.
    destruct (Spin.locked s); repeat case_decide; simplify_eq; lia.
Qed.

Lemma spinlock_mutual_exclusion_witness :
  0%nat = 0%nat ∧ Spin.locked (Spin.mk true [Spin.Holding; Spin.Testing]) = true.
Proof.
  apply (spinlock_mutual_exclusion 2); [|done..].
  eapply rtc_l; [by eapply (Spin.step_cpu 1 Spin.Outside)|].
  eapply rtc_l; [by eapply (Spin.step_cpu 0 Spin.Outside)|].
  eapply rtc_l; [by eapply (Spin.step_cpu 0 Spin.Testing)|].
  eapply rtc_l; [by eapply (Spin.step_cpu 0 Spin.Swapping)|].
  apply rtc_refl.
Defined.
