(* ===== verification/Lists.v ===== *)
(** * Circular lists and the queue built on them ([common/list.h], [list.c])

    [ListNode]s live in a heap indexed by address ([heap]); every operation of
    [list.c] is the sequence of reads and writes the C code performs, so that
    aliasing (a node merged with itself, a detached node still being iterated)
    behaves as in the program.  [ring h l] says that the nodes [l] form one
    circular list in this order.  The operations are specified on rings, and
    [Queue] is refined to a FIFO list. *)
From S2P Require Import Prelude Words Atomics.

(** ** The heap of list nodes *)
Record ListNode := mkNode { prev : Z; next : Z }.

Abbreviation heap := (gmap Z ListNode).

#[export] Instance ListNode_eq_dec : EqDecision ListNode.
Proof. solve_decision. Defined.

(** Dereferencing a null or unmapped pointer is a crash. *)
Definition load_node (p : Z) : M heap ListNode := λ h,
  if decide (p = 0) then Crash
  else match h !! p with Some n => Done (n, h) | None => Crash end.
Definition store_node (p : Z) (n : ListNode) : M heap unit := λ h,
  if decide (p = 0) then Crash
  else match h !! p with Some _ => Done (tt, <[p := n]> h) | None => Crash end.

Definition get_next (p : Z) : M heap Z := n ← load_node p; mret (next n).
Definition get_prev (p : Z) : M heap Z := n ← load_node p; mret (prev n).
Definition set_next (p q : Z) : M heap unit :=
  n ← load_node p; store_node p (mkNode (prev n) q).
Definition set_prev (p q : Z) : M heap unit :=
  n ← load_node p; store_node p (mkNode q (next n)).

(** ** The operations of [list.c] *)
Definition init_list_node (node : Z) : M heap unit :=
  set_prev node node;; set_next node node.

Definition _merge_list (node1 node2 : Z) : M heap Z :=
  if decide (node1 = 0) then mret node2
  else if decide (node2 = 0) then mret node1
  else
    node3 ← get_next node1;
    node4 ← get_prev node2;
    set_next node1 node2;;
    set_prev node2 node1;;
    set_next node4 node3;;
    set_prev node3 node4;;
    mret node1.

(** The macro [_insert_into_list(list, node)]. *)
Definition _insert_into_list (list node : Z) : M heap Z :=
  init_list_node node;; _merge_list list node.

Definition _detach_from_list (node : Z) : M heap Z :=
  prev ← get_prev node;
  p ← get_prev node; n ← get_next node;
  set_next p n;;
  n ← get_next node; p ← get_prev node;
  set_prev n p;;
  init_list_node node;;
  mret (if decide (prev = node) then 0 else prev).

Definition _empty_list (list : Z) : M heap bool :=
  n ← get_next list; mret (bool_decide (n = list)).

(** A component's state that contains a heap of list nodes. *)
Class HasNodes (S : Type) := {
  nodes : S → heap;
  set_nodes : heap → S → S;
  nodes_set h s : nodes (set_nodes h s) = h;
  set_nodes_set h h' s : set_nodes h (set_nodes h' s) = set_nodes h s;
  set_nodes_id s : set_nodes (nodes s) s = s
}.

Definition on_nodes {S} `{!HasNodes S} {A} (m : M heap A) : M S A := λ s,
  match m (nodes s) with
  | Done (a, h) => Done (a, set_nodes h s)
  | Panic => Panic
  | Crash => Crash
  | NoFuel => NoFuel
  end.

(** The macro [_for_in_list(valptr, list)]: [valptr] starts at [list->next];
    after each run of the body it becomes null when it was the flag [list], and
    [valptr->next] otherwise, so that the body also runs on the flag.  The body
    answers [Some b] to leave the loop ([break], [return]). *)
Definition for_in_list_step {S} `{!HasNodes S} {B}
    (flag : Z) (body : Z → M S (option B)) (valptr : Z) : M S (Z + option B) :=
  r ← body valptr;
  match r with
  | Some b => mret (inr (Some b))
  | None =>
      if decide (valptr = flag) then mret (inr None)
      else n ← on_nodes (get_next valptr);
           mret (if decide (n = 0) then inr None else inl n)
  end.

Definition for_in_list {S} `{!HasNodes S} {B} (fuel : nat)
    (list : Z) (body : Z → M S (option B)) : M S (option B) :=
  v ← on_nodes (get_next list);
  if decide (v = 0) then mret None
  else loop fuel (for_in_list_step list body) v.

Lemma on_nodes_done {S} `{!HasNodes S} {A} (m : M heap A) s a h :
  m (nodes s) = Done (a, h) → on_nodes m s = Done (a, set_nodes h s).
Proof. intros H. unfold on_nodes. by rewrite H. Qed.

(** ** Links and rings *)
Definition nxt (h : heap) (p : Z) : option Z := next <$> h !! p.
Definition prv (h : heap) (p : Z) : option Z := prev <$> h !! p.

(** [seg h a l b]: from [a], following [next], one meets the nodes [l] and then
    [b], and the [prev] pointers lead back. *)
Fixpoint seg (h : heap) (a : Z) (l : list Z) (b : Z) : Prop :=
  match l with
  | [] => nxt h a = Some b ∧ prv h b = Some a
  | c :: l' => nxt h a = Some c ∧ prv h c = Some a ∧ seg h c l' b
  end.

Definition ring (h : heap) (l : list Z) : Prop :=
  match l with
  | [] => False
  | x :: l' => NoDup l ∧ 0 ∉ l ∧ seg h x l' x
  end.

(** [h'] differs from [h] on the nodes of [l] at most, and maps the same
    addresses. *)
Definition only (l : list Z) (h h' : heap) : Prop :=
  (∀ p, p ∉ l → h' !! p = h !! p) ∧ dom h' = dom h.

Create HintDb lists.

Section links.
Implicit Types (h : heap) (l : list Z) (a b c p q : Z).

Lemma seg_app h a l1 c l2 b :
  seg h a (l1 ++ c :: l2) b ↔ seg h a l1 c ∧ seg h c l2 b.
Proof.
  revert a. induction l1 as [|d l1 IH]; intros a; simpl; [tauto|].
  rewrite IH. tauto.
Qed.

Lemma seg_ext h h' a l b :
  (∀ p, p ∈ a :: l → nxt h' p = nxt h p) →
  (∀ p, p ∈ l ++ [b] → prv h' p = prv h p) →
  seg h a l b → seg h' a l b.
Proof.
  revert a. induction l as [|c l IH]; intros a Hn Hp; simpl in *.
  - rewrite Hn, Hp by (set_solver). done.
  - rewrite Hn by set_solver. rewrite Hp by set_solver.
    intros (?&?&?). split_and!; [done..|]. apply IH; [set_solver..|done].
Qed.

Lemma seg_prv h a l b : seg h a l b → prv h b = Some (default a (last l)).
Proof.
  revert a. induction l as [|c l IH]; intros a; [by intros [_ ->]|].
  intros (_&_&H). rewrite last_cons_default. by apply IH.
Qed.

Lemma seg_nxt h a l b : seg h a l b → nxt h a = Some (default b (head l)).
Proof. destruct l; simpl; tauto. Qed.

Lemma seg_dom h a l b p : seg h a l b → p ∈ a :: l → is_Some (h !! p).
Proof.
  revert a. induction l as [|c l IH]; intros a Hs Hp.
  - destruct Hs as [Hn _]. apply list_elem_of_singleton in Hp as ->.
    unfold nxt in Hn. apply fmap_Some in Hn as (n&->&_). eauto.
  - destruct Hs as (Hn&_&Hs). apply elem_of_cons in Hp as [->|Hp]; [|by eapply IH].
    unfold nxt in Hn. apply fmap_Some in Hn as (n&->&_). eauto.
Qed.

Lemma ring_dom h l p : ring h l → p ∈ l → is_Some (h !! p).
Proof. destruct l; [done|]. intros (_&_&?). by eapply seg_dom. Qed.

Lemma ring_nonnull h l p : ring h l → p ∈ l → p ≠ 0.
Proof. destruct l; [done|]. intros (_&?&_) ? ->. done. Qed.

Lemma ring_nodup h l : ring h l → NoDup l.
Proof. destruct l; [done|]. by intros (?&_). Qed.

(** A ring can be read from any of its nodes. *)
Lemma ring_rotate h x l1 y l2 :
  ring h (x :: l1 ++ y :: l2) → ring h (y :: l2 ++ x :: l1).
Proof.
  intros (Hd & H0 & Hs). apply seg_app in Hs as [H1 H2]. split_and!.
  - change (NoDup ((y :: l2) ++ (x :: l1))). by apply NoDup_rotate.
  - set_solver.
  - apply seg_app. done.
Qed.

Lemma ring_ext h h' l :
  (∀ p, p ∈ l → h' !! p = h !! p) → ring h l → ring h' l.
Proof.
  destruct l as [|x l]; [done|]. intros He (?&?&Hs). split_and!; [done..|].
  assert (∀ p, p ∈ x :: l → nxt h' p = nxt h p ∧ prv h' p = prv h p) as He'.
  { intros p Hp. unfold nxt, prv. by rewrite He. }
  eapply seg_ext; [..|done].
  - intros p Hp. by apply He'.
  - intros p Hp. apply He'. set_solver.
Qed.

Lemma only_refl l h : only l h h.
Proof. done. Qed.
Lemma only_trans l h1 h2 h3 : only l h1 h2 → only l h2 h3 → only l h1 h3.
Proof.
  intros [H1 D1] [H2 D2]. split; [|congruence]. intros p Hp. by rewrite H2, H1.
Qed.
Lemma only_mono l l' h h' : l ⊆ l' → only l h h' → only l' h h'.
Proof. intros Hl [H D]. split; [|done]. intros p Hp. apply H. set_solver. Qed.
Lemma only_ring l k h h' : only l h h' → l ## k → ring h k → ring h' k.
Proof. intros [H _] Hd. apply ring_ext. intros p Hp. apply H. set_solver. Qed.
End links.

#[export] Hint Resolve only_refl : lists.

(** ** Field accesses *)
Section accesses.
Implicit Types (h : heap) (p q r : Z).

Lemma get_next_eq h p q : p ≠ 0 → nxt h p = Some q → get_next p h = Done (q, h).
Proof.
  intros Hp (n&Hn&->)%fmap_Some. unfold get_next, load_node. m_unfold.
  rewrite decide_False by done. by rewrite Hn.
Qed.
Lemma get_prev_eq h p q : p ≠ 0 → prv h p = Some q → get_prev p h = Done (q, h).
Proof.
  intros Hp (n&Hn&->)%fmap_Some. unfold get_prev, load_node. m_unfold.
  rewrite decide_False by done. by rewrite Hn.
Qed.

Lemma set_next_eq h p q : p ≠ 0 → is_Some (h !! p) → ∃ h',
  set_next p q h = Done (tt, h') ∧ only [p] h h' ∧
  (∀ r, nxt h' r = if decide (r = p) then Some q else nxt h r) ∧
  (∀ r, prv h' r = prv h r).
Proof.
  intros Hp [n Hn]. exists (<[p := mkNode (prev n) q]> h).
  split_and!; [|split|..].
  - unfold set_next, load_node, store_node. m_unfold.
    rewrite !decide_False by done. by rewrite Hn, decide_False, Hn by done.
  - intros r Hr. rewrite lookup_insert_ne; [done|set_solver].
  - apply dom_insert_lookup_L. eauto.
  - intros r. unfold nxt. case_decide; simplify_map_eq; done.
  - intros r. unfold prv. destruct (decide (r = p)) as [->|]; simplify_map_eq; done.
Qed.
Lemma set_prev_eq h p q : p ≠ 0 → is_Some (h !! p) → ∃ h',
  set_prev p q h = Done (tt, h') ∧ only [p] h h' ∧
  (∀ r, prv h' r = if decide (r = p) then Some q else prv h r) ∧
  (∀ r, nxt h' r = nxt h r).
Proof.
  intros Hp [n Hn]. exists (<[p := mkNode q (next n)]> h).
  split_and!; [|split|..].
  - unfold set_prev, load_node, store_node. m_unfold.
    rewrite !decide_False by done. by rewrite Hn, decide_False, Hn by done.
  - intros r Hr. rewrite lookup_insert_ne; [done|set_solver].
  - apply dom_insert_lookup_L. eauto.
  - intros r. unfold prv. case_decide; simplify_map_eq; done.
  - intros r. unfold nxt. destruct (decide (r = p)) as [->|]; simplify_map_eq; done.
Qed.

Lemma only_dom l h h' p : only l h h' → is_Some (h !! p) → is_Some (h' !! p).
Proof. intros [_ D]. rewrite <-!elem_of_dom, D. done. Qed.
End accesses.

(** ** Specifications of the operations on rings *)
Section ring_operations.
Implicit Types (h : heap) (l : list Z) (x y p q n node list : Z).

Lemma init_list_node_spec h node : node ≠ 0 → is_Some (h !! node) → ∃ h',
  init_list_node node h = Done (tt, h') ∧ only [node] h h' ∧ ring h' [node].
Proof.
  intros Hn Hd. destruct (set_prev_eq h node node Hn Hd) as (h1 & E1 & O1 & P1 & N1).
  destruct (set_next_eq h1 node node Hn) as (h2 & E2 & O2 & N2 & P2).
  { by eapply only_dom. }
  exists h2. split_and!.
  - unfold init_list_node. m_step E1. done.
  - eapply only_trans; done.
  - split; [apply NoDup_singleton|]. split; [by intros ?%list_elem_of_singleton|]. cbn [seg].
    rewrite N2, P2, P1, !decide_True by done. done.
Qed.

(** The effect of [_merge_list] on the links, whatever the shape of the lists. *)
Lemma merge_links h n1 n2 n3 n4 :
  n1 ≠ 0 → n2 ≠ 0 → n3 ≠ 0 → n4 ≠ 0 → n1 ≠ n4 → n2 ≠ n3 →
  nxt h n1 = Some n3 → prv h n2 = Some n4 → is_Some (h !! n3) → is_Some (h !! n4) →
  ∃ h', _merge_list n1 n2 h = Done (n1, h') ∧ only [n1; n2; n3; n4] h h' ∧
    (∀ r, nxt h' r = if decide (r = n4) then Some n3
                     else if decide (r = n1) then Some n2 else nxt h r) ∧
    (∀ r, prv h' r = if decide (r = n3) then Some n4
                     else if decide (r = n2) then Some n1 else prv h r).
Proof.
  intros H1 H2 H3 H4 H14 H23 Hn Hp D3 D4.
  assert (D1 : is_Some (h !! n1)). { apply fmap_Some in Hn as (?&->&_). eauto. }
  assert (D2 : is_Some (h !! n2)). { apply fmap_Some in Hp as (?&->&_). eauto. }
  destruct (set_next_eq h n1 n2 H1 D1) as (ha & Ea & Oa & Na & Pa).
  destruct (set_prev_eq ha n2 n1 H2 (only_dom _ _ _ _ Oa D2)) as (hb & Eb & Ob & Pb & Nb).
  assert (Oab : only [n1; n2] h hb).
  { eapply only_trans; eapply only_mono; [|done| |done]; set_solver. }
  destruct (set_next_eq hb n4 n3 H4 (only_dom _ _ _ _ Oab D4)) as (hc & Ec & Oc & Nc & Pc).
  assert (Oac : only [n1; n2; n4] h hc).
  { eapply only_trans; eapply only_mono; [|done| |done]; set_solver. }
  destruct (set_prev_eq hc n3 n4 H3 (only_dom _ _ _ _ Oac D3)) as (hd & Ed & Od & Pd & Nd).
  exists hd. split_and!.
  - unfold _merge_list. rewrite !decide_False by done.
    m_step (get_next_eq h n1 n3 H1 Hn). m_step (get_prev_eq h n2 n4 H2 Hp).
    m_step Ea. m_step Eb. m_step Ec. by m_step Ed.
  - eapply only_trans; eapply only_mono; [|done| |done]; set_solver.
  - intros r. rewrite Nd, Nc, Nb, Na. done.
  - intros r. rewrite Pd, Pc, Pb, Pa. done.
Qed.

(** [_merge_list] splices the second ring after the first node. *)
Lemma merge_ring h n1 l1 n2 l2 :
  ring h (n1 :: l1) → ring h (n2 :: l2) → NoDup ((n1 :: l1) ++ n2 :: l2) →
  ∃ h', _merge_list n1 n2 h = Done (n1, h') ∧
    only ((n1 :: l1) ++ n2 :: l2) h h' ∧ ring h' (n1 :: n2 :: l2 ++ l1).
Proof.
  intros R1 R2 Hd.
  remember (default n1 (head l1)) as n3 eqn:E3.
  remember (default n2 (last l2)) as n4 eqn:E4.
  assert (I3 : n3 ∈ n1 :: l1) by (subst n3; destruct l1; set_solver).
  assert (I4 : n4 ∈ n2 :: l2).
  { subst n4. destruct (last l2) eqn:E; [|set_solver].
    apply last_Some_elem_of in E. set_solver. }
  pose proof R1 as (D1 & Z1 & S1). pose proof R2 as (D2 & Z2 & S2).
  apply NoDup_app in Hd as (_ & Hx & _).
  destruct (merge_links h n1 n2 n3 n4) as (h' & E & O & N & P).
  { set_solver. } { set_solver. } { intros ->. done. } { intros ->. done. }
  { intros ->. apply (Hx n4); set_solver. }
  { intros ->. apply (Hx n3); set_solver. }
  { rewrite E3. by apply seg_nxt in S1. } { rewrite E4. by apply seg_prv in S2. }
  { by apply (ring_dom _ _ _ R1). } { by apply (ring_dom _ _ _ R2). }
  exists h'. split_and!; [done| |].
  { eapply only_mono; [|done]. set_solver. }
  assert (Hnd : NoDup (n1 :: n2 :: l2 ++ l1)).
  { assert (NoDup ((n1 :: l1) ++ n2 :: l2)) as Hd by (apply NoDup_app; done).
    assert (n1 :: n2 :: l2 ++ l1 ≡ₚ (n1 :: l1) ++ n2 :: l2) as ->; [|done].
    by rewrite (Permutation_app_comm (n1 :: l1)), app_comm_cons, Permutation_middle. }
  split_and!; [done|set_solver|].
  assert (H34 : nxt h' n4 = Some n3 ∧ prv h' n3 = Some n4).
  { rewrite N, P, !decide_True by done. done. }
  assert (H12 : nxt h' n1 = Some n2 ∧ prv h' n2 = Some n1).
  { rewrite N, P. split.
    - rewrite decide_False, decide_True; [done..|].
      intros ->. apply (Hx n4); set_solver.
    - rewrite decide_False, decide_True; [done..|].
      intros ->. apply (Hx n3); set_solver. }
  simpl. split_and!; [apply H12..|].
  assert (T1 : match l1 with [] => True | c :: l => seg h' c l n1 end).
  { destruct l1 as [|c l]; [done|]. destruct S1 as (_&_&S1).
    simpl in E3; subst c.
    eapply seg_ext; [..|exact S1]; intros p Hp; rewrite ?N, ?P; rewrite !decide_False; try done.
    - intros ->. clear -Hp D1. by apply NoDup_cons in D1 as [D1 _].
    - intros ->. clear -Hx Hp I4. apply (Hx n4); set_solver.
    - intros ->. clear -Hx Hp. apply (Hx n2); set_solver.
    - intros ->. clear -Hp D1. apply NoDup_cons in D1 as [D1 D1'].
      apply NoDup_cons in D1' as [D1' _]. set_solver. }
  assert (T2 : ∀ l, l2 = l ++ [n4] → seg h' n2 l n4).
  { intros l ->. apply seg_app in S2 as [S2 _].
    apply NoDup_cons in D2 as [Hn2 D2]. apply NoDup_app in D2 as (_ & Hn4 & _).
    eapply seg_ext; [..|exact S2]; intros p Hp; rewrite ?N, ?P; rewrite !decide_False; try done.
    - intros ->. clear -Hx Hp. apply (Hx n1); set_solver.
    - intros ->. clear -Hp Hn2 Hn4. apply elem_of_cons in Hp as [->|Hp]; [set_solver|].
      apply (Hn4 n4); set_solver.
    - intros ->. clear -Hn2 Hp. set_solver.
    - intros ->. clear -Hx Hp I3. apply (Hx n3); set_solver. }
  destruct l2 as [|y l2' _] using rev_ind.
  - simpl in *. subst n4. destruct l1 as [|c l]; simpl in *; subst n3; tauto.
  - rewrite last_snoc in E4; simpl in E4; subst y.
    rewrite <-app_assoc. apply seg_app. split; [by apply T2|].
    destruct l1 as [|c l]; simpl in *; subst n3; tauto.
Qed.
(** The effect of [_detach_from_list] on the links of a node that has
    neighbours. *)
Lemma detach_links h node p n :
  node ≠ 0 → p ≠ 0 → n ≠ 0 → p ≠ node → n ≠ node →
  nxt h node = Some n → prv h node = Some p → is_Some (h !! p) → is_Some (h !! n) →
  ∃ h', _detach_from_list node h = Done (p, h') ∧ only [node; p; n] h h' ∧
    ring h' [node] ∧
    (∀ r, r ≠ node → nxt h' r = if decide (r = p) then Some n else nxt h r) ∧
    (∀ r, r ≠ node → prv h' r = if decide (r = n) then Some p else prv h r).
Proof.
  intros H0 Hp0 Hn0 Hp Hn Nn Pn Dp Dn.
  assert (D : is_Some (h !! node)). { apply fmap_Some in Nn as (?&->&_). eauto. }
  destruct (set_next_eq h p n Hp0 Dp) as (ha & Ea & Oa & Na & Pa).
  destruct (set_prev_eq ha n p Hn0 (only_dom _ _ _ _ Oa Dn)) as (hb & Eb & Ob & Pb & Nb).
  assert (Oab : only [p; n] h hb).
  { eapply only_trans; eapply only_mono; [|done| |done]; set_solver. }
  destruct (init_list_node_spec hb node H0 (only_dom _ _ _ _ Oab D)) as (hc & Ec & Oc & Rc).
  exists hc. split_and!; [| |done|..].
  - unfold _detach_from_list.
    m_step (get_prev_eq h node p H0 Pn). m_step (get_prev_eq h node p H0 Pn).
    m_step (get_next_eq h node n H0 Nn). m_step Ea.
    rewrite (bind_done _ _ _ n ha) by (apply get_next_eq; [done|]; by rewrite Na, decide_False).
    rewrite (bind_done _ _ _ p ha) by (apply get_prev_eq; [done|]; by rewrite Pa).
    m_step Eb. m_step Ec. by rewrite decide_False.
  - eapply only_trans; eapply only_mono; [|done| |done]; set_solver.
  - intros r Hr. rewrite <-Na, <-Nb. unfold nxt. f_equal. apply Oc. set_solver.
  - intros r Hr. rewrite <-Pa, <-Pb. unfold prv. f_equal. apply Oc. set_solver.
Qed.

(** Detaching the only node of a list leaves it alone and answers NULL. *)
Lemma detach_single h node : ring h [node] →
  ∃ h', _detach_from_list node h = Done (0, h') ∧ only [node] h h' ∧ ring h' [node].
Proof.
  intros R. pose proof R as (_ & H0 & Hs). destruct Hs as [Nn Pn].
  assert (Hn : node ≠ 0) by set_solver.
  assert (D : is_Some (h !! node)). { apply fmap_Some in Nn as (?&->&_). eauto. }
  destruct (set_next_eq h node node Hn D) as (ha & Ea & Oa & Na & Pa).
  assert (Da := only_dom _ _ _ _ Oa D).
  destruct (set_prev_eq ha node node Hn Da) as (hb & Eb & Ob & Pb & Nb).
  destruct (init_list_node_spec hb node Hn (only_dom _ _ _ _ Ob Da)) as (hc & Ec & Oc & Rc).
  exists hc. split_and!; [| |done].
  - unfold _detach_from_list.
    m_step (get_prev_eq h node node Hn Pn). m_step (get_prev_eq h node node Hn Pn).
    m_step (get_next_eq h node node Hn Nn). m_step Ea.
    rewrite (bind_done _ _ _ node ha)
      by (apply get_next_eq; [done|]; by rewrite Na, decide_True).
    rewrite (bind_done _ _ _ node ha) by (apply get_prev_eq; [done|]; by rewrite Pa).
    m_step Eb. m_step Ec. by rewrite decide_True.
  - eapply only_trans; [|done]. eapply only_trans; done.
Qed.

(** [_detach_from_list] takes its node out of the ring and answers the node
    that preceded it. *)
Lemma detach_ring h node c l : ring h (node :: c :: l) →
  ∃ h', _detach_from_list node h = Done (default c (last l), h') ∧
    only (node :: c :: l) h h' ∧ ring h' (c :: l) ∧ ring h' [node].
Proof.
  intros R. pose proof R as (D & H0 & Hn & Hp & S).
  remember (default c (last l)) as p eqn:Ep.
  assert (Ip : p ∈ c :: l).
  { subst p. destruct (last l) eqn:E; [|set_solver].
    apply last_Some_elem_of in E. set_solver. }
  apply NoDup_cons in D as [Dn D].
  destruct (detach_links h node p c) as (h' & E & O & Rn & N & P).
  { set_solver. } { intros ->. set_solver. } { set_solver. } { intros ->. done. }
  { set_solver. } { done. } { rewrite Ep. by apply seg_prv in S. }
  { apply (ring_dom _ _ _ R). set_solver. } { apply (ring_dom _ _ _ R). set_solver. }
  exists h'. split_and!; [done| |split_and!|done].
  { eapply only_mono; [|done]. set_solver. }
  { done. } { set_solver. }
  assert (Hpc : nxt h' p = Some c ∧ prv h' c = Some p).
  { rewrite N, P, !decide_True by set_solver. done. }
  destruct l as [|y l' _] using rev_ind; [simpl in *; by subst p|].
  rewrite last_snoc in Ep. simpl in Ep. subst y.
  apply seg_app. split; [|apply Hpc]. apply seg_app in S as [S _].
  clear -D Dn S N P Hpc. apply NoDup_cons in D as [Dc D].
  apply NoDup_app in D as (_ & Dp & _).
  eapply seg_ext; [..|exact S]; intros r Hr.
  - rewrite N by set_solver. apply decide_False. intros ->.
    apply elem_of_cons in Hr as [->|Hr]; [set_solver|]. apply (Dp p); set_solver.
  - rewrite P by set_solver. apply decide_False. intros ->. set_solver.
Qed.

(** Inserting a node not on the list, after any node of it. *)
Lemma insert_ring h list l node :
  ring h (list :: l) → node ∉ list :: l → node ≠ 0 → is_Some (h !! node) →
  ∃ h', _insert_into_list list node h = Done (list, h') ∧
    only (node :: list :: l) h h' ∧ ring h' (list :: node :: l).
Proof.
  intros R Hn H0 Hd.
  destruct (init_list_node_spec h node H0 Hd) as (h1 & E1 & O1 & R1).
  assert (R' : ring h1 (list :: l)) by (eapply only_ring; [done|set_solver|done]).
  destruct (merge_ring h1 list l node [] R' R1) as (h2 & E2 & O2 & R2).
  { apply NoDup_app. split_and!; [exact (ring_nodup _ _ R)|set_solver|apply NoDup_singleton]. }
  exists h2. split_and!; [|eapply only_trans; eapply only_mono; [|done| |done]; set_solver|done].
  unfold _insert_into_list. by m_step E1.
Qed.
End ring_operations.

(** ** Lists with a head node

    [hlist h hd l]: the list head [hd] is followed by the nodes [l]. *)
Definition hlist (h : heap) (hd : Z) (l : list Z) : Prop := ring h (hd :: l).

Section headed_lists.
Implicit Types (h : heap) (l k : list Z) (hd node p : Z).

Lemma hlist_nodup h hd l : hlist h hd l → NoDup (hd :: l).
Proof. apply ring_nodup. Qed.

Lemma hlist_first h hd l : hlist h hd l → get_next hd h = Done (default hd (head l), h).
Proof.
  intros R. apply get_next_eq; [apply (ring_nonnull _ _ _ R); set_solver|].
  destruct R as (_&_&S). by apply seg_nxt in S.
Qed.
Lemma hlist_last h hd l : hlist h hd l → get_prev hd h = Done (default hd (last l), h).
Proof.
  intros R. apply get_prev_eq; [apply (ring_nonnull _ _ _ R); set_solver|].
  destruct R as (_&_&S). by apply seg_prv in S.
Qed.
Lemma hlist_next h hd l1 p l2 : hlist h hd (l1 ++ p :: l2) →
  get_next p h = Done (default hd (head l2), h).
Proof.
  intros R. apply get_next_eq; [apply (ring_nonnull _ _ _ R); set_solver|].
  destruct R as (_&_&S). apply seg_app in S as [_ S]. by apply seg_nxt in S.
Qed.

Lemma hlist_empty h hd l : hlist h hd l →
  _empty_list hd h = Done (bool_decide (l = []), h).
Proof.
  intros R. unfold _empty_list. m_step (hlist_first _ _ _ R). unfold mret, M_ret. do 2 f_equal.
  apply bool_decide_ext. destruct l as [|x l]; [done|]. simpl. split; [|done].
  intros ->. pose proof (ring_nodup _ _ R) as [D _]%NoDup_cons. set_solver.
Qed.

(** [_insert_into_list(head, node)] pushes at the front. *)
Lemma hlist_push_front h hd l node :
  hlist h hd l → node ∉ hd :: l → node ≠ 0 → is_Some (h !! node) →
  ∃ h', _insert_into_list hd node h = Done (hd, h') ∧
    only (node :: hd :: l) h h' ∧ hlist h' hd (node :: l).
Proof. apply insert_ring. Qed.

(** [_insert_into_list(head->prev, node)] pushes at the back. *)
Lemma hlist_push_back h hd l node :
  hlist h hd l → node ∉ hd :: l → node ≠ 0 → is_Some (h !! node) →
  ∃ h' q, (p ← get_prev hd; _insert_into_list p node) h = Done (q, h') ∧
    only (node :: hd :: l) h h' ∧ hlist h' hd (l ++ [node]).
Proof.
  intros R Hn H0 Hd. m_step (hlist_last _ _ _ R).
  destruct l as [|p l _] using rev_ind.
  - destruct (insert_ring h hd [] node) as (h' & E & O & R'); [done..|]. eauto.
  - rewrite last_snoc. simpl.
    apply ring_rotate in R.
    destruct (insert_ring h p (hd :: l) node) as (h' & E & O & R'); [done|set_solver|done..|].
    exists h', p. split_and!; [done|eapply only_mono; [|done]; set_solver|].
    apply (ring_rotate _ p [node] hd l) in R'. unfold hlist.
    rewrite <-app_assoc. exact R'.
Qed.

Lemma hlist_detach h hd l1 node l2 : hlist h hd (l1 ++ node :: l2) →
  ∃ h', _detach_from_list node h = Done (default hd (last l1), h') ∧
    only (hd :: l1 ++ node :: l2) h h' ∧ hlist h' hd (l1 ++ l2) ∧ ring h' [node].
Proof.
  intros R. apply ring_rotate in R. destruct l2 as [|c l2].
  - destruct (detach_ring h node hd l1 R) as (h' & E & O & R1 & R2).
    exists h'. rewrite app_nil_r. split_and!; [done| |done..].
    eapply only_mono; [|done]. set_solver.
  - destruct (detach_ring h node c (l2 ++ hd :: l1) R) as (h' & E & O & R1 & R2).
    exists h'. split_and!; [| |by apply ring_rotate in R1|done].
    + rewrite E. do 2 f_equal. rewrite last_app_cons. by rewrite last_cons_default.
    + eapply only_mono; [|done]. set_solver.
Qed.
End headed_lists.

(** ** Walking a list

    [I l1] is the invariant after the body has run on the nodes [l1]. *)
Section for_in_list.
Context {S B : Type} `{!HasNodes S}.
Context (hd : Z) (l : list Z) (body : Z → M S (option B)).
Context (I : list Z → S → Prop) (Q : option B → S → Prop).
Hypothesis I_list : ∀ l1 s, I l1 s → hlist (nodes s) hd l.
Hypothesis body_node : ∀ l1 p l2 s, l = l1 ++ p :: l2 → I l1 s →
  ∃ r s', body p s = Done (r, s') ∧
    match r with Some b => Q (Some b) s' | None => I (l1 ++ [p]) s' end.
Hypothesis body_head : ∀ s, I l s → ∃ r s', body hd s = Done (r, s') ∧ Q r s'.

Lemma step_exit p s b s' :
  body p s = Done (Some b, s') → for_in_list_step hd body p s = Done (inr (Some b), s').
Proof. intros E. unfold for_in_list_step. by m_step E. Qed.

Lemma step_flag s s' :
  body hd s = Done (None, s') → for_in_list_step hd body hd s = Done (inr None, s').
Proof. intros E. unfold for_in_list_step. m_step E. by rewrite decide_True. Qed.

Lemma step_next p s s' n : body p s = Done (None, s') → p ≠ hd → n ≠ 0 →
  get_next p (nodes s') = Done (n, nodes s') →
  for_in_list_step hd body p s = Done (inl n, s').
Proof.
  intros E Hp Hn En. unfold for_in_list_step. m_step E. rewrite decide_False by done.
  m_step (on_nodes_done _ _ _ _ En). by rewrite decide_False, set_nodes_id.
Qed.

Lemma for_in_list_loop l1 l2 fuel s :
  l = l1 ++ l2 → I l1 s → (length l2 < fuel)%nat →
  ∃ r s', loop fuel (for_in_list_step hd body) (default hd (head l2)) s = Done (r, s') ∧
    Q r s'.
Proof.
  revert l1 s fuel. induction l2 as [|p l2 IH]; intros l1 s fuel El HI Hf;
    (destruct fuel as [|fuel]; [simpl in Hf; lia|]); rewrite loop_S; simpl.
  - rewrite app_nil_r in El. subst l1. destruct (body_head s HI) as (r & s' & E & HQ).
    exists r, s'. split; [|done].
    destruct r; [by m_step (step_exit _ _ _ _ E)|by m_step (step_flag _ _ E)].
  - destruct (body_node l1 p l2 s El HI) as (r & s' & E & H).
    destruct r as [b|].
    { exists (Some b), s'. split; [by m_step (step_exit _ _ _ _ E)|done]. }
    pose proof (I_list _ _ H) as R.
    assert (Hp : p ≠ hd).
    { intros ->. pose proof (ring_nodup _ _ R) as D. rewrite El in D.
      apply NoDup_cons in D as [D _]. set_solver. }
    assert (Hn : default hd (head l2) ≠ 0).
    { apply (ring_nonnull _ _ _ R). rewrite El. destruct l2; set_solver. }
    rewrite El in R.
    destruct (IH (l1 ++ [p]) s' fuel) as (r & s2 & E2 & HQ).
    { by rewrite <-app_assoc. } { done. } { simpl in Hf. lia. }
    exists r, s2. split; [|done].
    by m_step (step_next _ _ _ _ E Hp Hn (hlist_next _ _ _ _ _ R)).
Qed.

Lemma for_in_list_rule fuel : (length l < fuel)%nat →
  triple (I []) (for_in_list fuel hd body) Q.
Proof.
  intros Hf s HI. pose proof (I_list _ _ HI) as R.
  destruct (for_in_list_loop [] l fuel s eq_refl HI Hf) as (r & s' & E & HQ).
  exists r, s'. split; [|done]. unfold for_in_list.
  m_step (on_nodes_done _ _ _ _ (hlist_first _ _ _ R)). rewrite set_nodes_id.
  rewrite decide_False; [done|].
  apply (ring_nonnull _ _ _ R). destruct l; set_solver.
Qed.
End for_in_list.

(** A body that only looks: the loop answers the first [Some] on the nodes and
    then on the head. *)
Lemma for_in_list_scan {S B} `{!HasNodes S} hd l (body : Z → M S (option B)) f fuel s :
  hlist (nodes s) hd l → (length l < fuel)%nat →
  (∀ p, p ∈ l ++ [hd] → body p s = Done (f p, s)) →
  for_in_list fuel hd body s = Done (head (omap f (l ++ [hd])), s).
Proof.
  intros R Hf Hb.
  destruct (for_in_list_rule hd l body
    (λ l1 s', s' = s ∧ omap f l1 = []) (λ r s', s' = s ∧ r = head (omap f (l ++ [hd]))))
    with (fuel := fuel) (s := s) as (r & s' & E & -> & ->); [..|done].
  - by intros l1 s' [-> _].
  - intros l1 p l2 s' -> [-> Hn]. exists (f p), s. split; [apply Hb; set_solver|].
    destruct (f p) as [b|] eqn:E.
    + split; [done|]. rewrite <-app_assoc, omap_app, Hn. simpl. by rewrite E.
    + split; [done|]. rewrite omap_app, Hn. simpl. by rewrite E.
  - intros s' [-> Hn]. exists (f hd), s. split; [apply Hb; set_solver|]. split; [done|].
    rewrite omap_app, Hn. simpl. by destruct (f hd).
  - done.
  - done.
Qed.

(** The loop passes over the nodes its body has nothing to do with. *)
Lemma for_in_list_skip {S B} `{!HasNodes S} hd l1 p l2 (body : Z → M S (option B)) fuel s :
  hlist (nodes s) hd (l1 ++ p :: l2) → (∀ x, x ∈ l1 → body x s = Done (None, s)) →
  for_in_list fuel hd body s = loop (fuel - length l1) (for_in_list_step hd body) p s.
Proof.
  intros R Hb. unfold for_in_list. m_step (on_nodes_done _ _ _ _ (hlist_first _ _ _ R)).
  rewrite set_nodes_id. pose proof (hlist_nodup _ _ _ R) as [Hhd Hnd]%NoDup_cons.
  rewrite decide_False by (apply (ring_nonnull _ _ _ R); destruct l1; simpl; set_solver).
  assert (G : ∀ l0 l1', l1 = l0 ++ l1' →
    loop (fuel - length l0) (for_in_list_step hd body) (default hd (head (l1' ++ p :: l2))) s =
    loop (fuel - length l1) (for_in_list_step hd body) p s); [|rewrite <-(G [] l1 eq_refl); simpl; by rewrite Nat.sub_0_r].
  intros l0 l1'. revert l0. induction l1' as [|x l1' IH]; intros l0 E.
  { by rewrite app_nil_r in E; subst. }
  rewrite <-(IH (l0 ++ [x])) by (by rewrite <-app_assoc). rewrite length_app. simpl.
  assert (Hx : x ∈ l1) by (subst; set_solver).
  destruct (fuel - length l0)%nat as [|n] eqn:En.
  { by replace (fuel - (length l0 + 1))%nat with 0%nat by lia. }
  replace (fuel - (length l0 + 1))%nat with n by lia. rewrite loop_S.
  assert (R' : hlist (nodes s) hd (l0 ++ x :: (l1' ++ p :: l2))).
  { by rewrite E, <-app_assoc in R. }
  assert (Hn : default hd (head (l1' ++ p :: l2)) ≠ 0).
  { apply (ring_nonnull _ _ _ R'). destruct l1'; simpl; set_solver. }
  m_step (step_next hd body x s s (default hd (head (l1' ++ p :: l2))) (Hb x Hx)
    ltac:(set_solver) Hn (hlist_next _ _ _ _ _ R')). done.
Qed.

(** ** [Queue]: a FIFO of list nodes *)
Module Queue.
(** [struct Queue]; [lk] is its spin lock. *)
Record t := mk { begin_ : Z; end_ : Z; sz : Z; lk : SpinLock }.

Record state := mkState { q : t; qnodes : heap }.

#[global] #[refine] Instance state_nodes : HasNodes state := {
  nodes := qnodes;
  set_nodes h s := mkState (q s) h
}.
Proof. all: by try intros []. Defined.

Definition set_q (f : t → t) : M state unit := modify (λ s, mkState (f (q s)) (qnodes s)).

Definition queue_init : M state unit :=
  set_q (λ x, mk 0 0 (sz x) (lk x));;
  set_q (λ x, mk (begin_ x) (end_ x) 0 (lk x));;
  set_q (λ x, mk (begin_ x) (end_ x) (sz x) false).

Definition on_lk {A} (m : M SpinLock A) : M state A := λ s,
  match m (lk (q s)) with
  | Done (a, l) => Done (a, mkState (mk (begin_ (q s)) (end_ (q s)) (sz (q s)) l) (qnodes s))
  | Panic => Panic | Crash => Crash | NoFuel => NoFuel
  end.
Definition queue_lock (fuel : nat) : M state unit := on_lk (_acquire_spinlock fuel).
Definition queue_unlock : M state unit := on_lk _release_spinlock.

Definition queue_push (item : Z) : M state unit :=
  on_nodes (init_list_node item);;
  x ← gets q;
  (if decide (sz x = 0) then set_q (λ x, mk item item (sz x) (lk x))
   else on_nodes (_merge_list (end_ x) item);;
        set_q (λ x, mk (begin_ x) item (sz x) (lk x)));;
  set_q (λ x, mk (begin_ x) (end_ x) (i32 (sz x + 1)) (lk x)).

Definition queue_pop : M state unit :=
  x ← gets q;
  (if decide (sz x = 0) then panic else mret tt);;
  (if decide (sz x = 1) then set_q (λ x, mk 0 0 (sz x) (lk x))
   else let t := begin_ x in
        n ← on_nodes (get_next (begin_ x));
        set_q (λ x, mk n (end_ x) (sz x) (lk x));;
        on_nodes (_detach_from_list t);; mret tt);;
  set_q (λ x, mk (begin_ x) (end_ x) (i32 (sz x - 1)) (lk x)).

Definition queue_front : M state Z :=
  x ← gets q;
  if decide (begin_ x = 0) then panic else mret (begin_ x).

Definition queue_empty : M state bool :=
  x ← gets q; mret (bool_decide (sz x = 0)).

(** The queue holds the items [l], first in first. *)
Definition rep (l : list Z) (s : state) : Prop :=
  sz (q s) = Z.of_nat (length l) ∧ Z.of_nat (length l) < 2 ^ 31 ∧
  match l with
  | [] => begin_ (q s) = 0 ∧ end_ (q s) = 0
  | x :: l' => begin_ (q s) = x ∧ end_ (q s) = default x (last l') ∧ ring (qnodes s) l
  end.
End Queue.

Section queue_facts.
Import Queue.
Implicit Types (s : state) (l : list Z) (item x : Z).

(** Appending a fresh singleton ring after the last node. *)
Lemma merge_at_end h x l item :
  ring h (x :: l) → ring h [item] → item ∉ x :: l →
  ∃ h' r, _merge_list (default x (last l)) item h = Done (r, h') ∧
    ring h' (x :: l ++ [item]) ∧ only (item :: x :: l) h h'.
Proof.
  intros R Ri Hn. assert (D := ring_nodup _ _ R).
  destruct l as [|e l _] using rev_ind.
  - destruct (merge_ring h x [] item [] R Ri) as (h' & E & O & R').
    { apply NoDup_app. split_and!; [done|set_solver|apply NoDup_singleton]. }
    exists h', x. split; [done|split; [done|]]. eapply only_mono; [|done]. set_solver.
  - rewrite last_snoc. simpl. apply ring_rotate in R.
    destruct (merge_ring h e (x :: l) item [] R Ri) as (h' & E & O & R').
    { apply NoDup_app. split_and!; [exact (ring_nodup _ _ R)|set_solver|apply NoDup_singleton]. }
    exists h', e. split; [done|split].
    + apply (ring_rotate _ e [item] x l) in R'. rewrite <-app_assoc. exact R'.
    + eapply only_mono; [|done]. set_solver.
Qed.

Lemma queue_push_spec s l item :
  rep l s → item ≠ 0 → is_Some (qnodes s !! item) → item ∉ l →
  Z.of_nat (length l) + 1 < 2 ^ 31 →
  ∃ s', queue_push item s = Done (tt, s') ∧ rep (l ++ [item]) s' ∧
    dom (qnodes s') = dom (qnodes s).
Proof.
  intros (Hsz & _ & Hr) H0 Hd Hn Hb. destruct s as [x h]. simpl in *.
  destruct (init_list_node_spec h item H0 Hd) as (h1 & E1 & O1 & R1).
  unfold queue_push.
  m_step (on_nodes_done (init_list_node item) (mkState x h) _ _ E1). simpl.
  unfold gets at 1. unfold mbind at 1, M_bind at 1. simpl.
  assert (Hi : ∀ n, Z.of_nat n + 1 < 2 ^ 31 → i32 (Z.of_nat n + 1) = Z.of_nat n + 1).
  { intros n ?. apply swrap_small; [done|]. unfold in_s. simpl. lia. }
  destruct l as [|y l].
  - rewrite decide_True by done. unfold set_q, modify. m_unfold. simpl.
    eexists. split_and!; [done|split_and!|]; simpl; try done.
    + by rewrite Hsz.
    + apply O1.
  - rewrite decide_False by (simpl in Hsz; lia). destruct Hr as (Hb1 & He & R).
    destruct (merge_at_end h1 y l item) as (h2 & r & E2 & R2 & O2).
    { eapply only_ring; [done|set_solver|done]. } { done. } { done. }
    rewrite <-He in E2. unfold set_q, modify, on_nodes, mbind, M_bind. simpl.
    rewrite E2. simpl.
    eexists. split_and!; [done|split_and!|]; simpl; try done.
    + rewrite Hsz. rewrite Hi by done. rewrite length_app. simpl. lia.
    + rewrite length_app. simpl in *. lia.
    + by rewrite last_snoc.
    + destruct O1 as [_ D1], O2 as [_ D2]. congruence.
Qed.

Lemma queue_pop_spec s x l : rep (x :: l) s →
  ∃ s', queue_pop s = Done (tt, s') ∧ rep l s' ∧ dom (qnodes s') = dom (qnodes s).
Proof.
  intros (Hsz & Hb & Hbg & He & R). destruct s as [t h]. simpl in *.
  change (ring h (x :: l)) in R.
  unfold queue_pop, gets. unfold mbind at 1, M_bind at 1. simpl.
  rewrite (decide_False (P := sz t = 0)) by lia. unfold mbind at 1, M_bind at 1. simpl.
  assert (Hi : i32 (sz t - 1) = Z.of_nat (length l)).
  { rewrite Hsz. rewrite swrap_small; [lia|done|]. unfold in_s. simpl. lia. }
  destruct l as [|y l].
  - rewrite decide_True by (rewrite Hsz; done). unfold set_q, modify. m_unfold. simpl.
    eexists. split_and!; [done|split_and!|]; simpl; done.
  - rewrite decide_False by (simpl in Hsz; lia).
    assert (En : get_next (begin_ t) h = Done (y, h)).
    { rewrite Hbg. apply get_next_eq; [apply (ring_nonnull _ _ _ R); set_solver|].
      destruct R as (_ & _ & Hs). by apply seg_nxt in Hs. }
    destruct (detach_ring h x y l R) as (h2 & E2 & O2 & R2 & _).
    rewrite <-Hbg in E2. unfold set_q, modify, on_nodes, mbind, M_bind. simpl.
    rewrite En. simpl. rewrite E2. simpl.
    eexists. split_and!; [done|split_and!|]; simpl; try done; simpl in *.
    + lia.
    + rewrite He. apply last_cons_default.
    + apply O2.
Qed.

Lemma queue_pop_empty s : rep [] s → queue_pop s = Panic.
Proof.
  intros (Hsz & _). destruct s as [t h]. unfold queue_pop, gets, mbind, M_bind. simpl in *.
  by rewrite decide_True.
Qed.

Lemma queue_front_spec s l : rep l s →
  queue_front s = match l with [] => Panic | x :: _ => Done (x, s) end.
Proof.
  intros (_ & _ & Hr). unfold queue_front, gets, mbind, M_bind. destruct l as [|x l].
  - destruct Hr as [-> _]. done.
  - destruct Hr as (-> & _ & R). rewrite decide_False; [done|].
    apply (ring_nonnull _ _ _ R). set_solver.
Qed.

Lemma queue_empty_spec s l : rep l s →
  queue_empty s = Done (bool_decide (l = []), s).
Proof.
  intros (Hsz & _). unfold queue_empty, gets, mbind, M_bind, mret, M_ret. do 2 f_equal.
  apply bool_decide_ext. rewrite Hsz. destruct l; simpl; split; (done || lia).
Qed.
End queue_facts.

(** *** Refinement to a FIFO list *)
Module QueueSpec.
Import Queue.

Inductive op := Push (item : Z) | Pop | Front | IsEmpty.
Inductive answer := Item (x : Z) | Bool (b : bool) | Unit.

(** What a client of the queue runs, and what a FIFO list answers. *)
Definition exec (o : op) : M state answer :=
  match o with
  | Push i => queue_push i;; mret Unit
  | Pop => queue_pop;; mret Unit
  | Front => x ← queue_front; mret (Item x)
  | IsEmpty => b ← queue_empty; mret (Bool b)
  end.
Fixpoint run (l : list op) : M state (list answer) :=
  match l with
  | [] => mret []
  | o :: l' => a ← exec o; r ← run l'; mret (a :: r)
  end.

Definition fifo_exec (o : op) (l : list Z) : option (answer * list Z) :=
  match o, l with
  | Push i, _ => Some (Unit, l ++ [i])
  | Pop, _ :: l' => Some (Unit, l')
  | Front, x :: _ => Some (Item x, l)
  | IsEmpty, _ => Some (Bool (bool_decide (l = [])), l)
  | _, [] => None
  end.
Fixpoint fifo_run (os : list op) (l : list Z) : option (list answer * list Z) :=
  match os with
  | [] => Some ([], l)
  | o :: os' => '(a, l1) ← fifo_exec o l; '(r, l2) ← fifo_run os' l1; Some (a :: r, l2)
  end.

(** The nodes a client pushes are real nodes, not already queued. *)
Fixpoint client_ok (h : gset Z) (os : list op) (l : list Z) : Prop :=
  match os with
  | [] => True
  | o :: os' =>
      match o with
      | Push i => i ≠ 0 ∧ i ∈ h ∧ i ∉ l ∧ Z.of_nat (length l) + 1 < 2 ^ 31
      | _ => True
      end ∧ match fifo_exec o l with Some (_, l') => client_ok h os' l' | None => True end
  end.

#[global] Instance client_ok_dec h os l : Decision (client_ok h os l).
Proof.
  revert l. induction os as [|o os IH]; intros l; simpl; [apply _|].
  apply and_dec; [destruct o; apply _|]. destruct (fifo_exec o l) as [[??]|]; apply _.
Defined.

Lemma exec_done o s l a l' :
  rep l s → client_ok (dom (qnodes s)) [o] l → fifo_exec o l = Some (a, l') →
  ∃ s', exec o s = Done (a, s') ∧ rep l' s' ∧ dom (qnodes s') = dom (qnodes s).
Proof.
  intros Hr [Hc _] E. destruct o as [i| | |]; simpl in E.
  - simplify_eq. destruct Hc as (?&?&?&?).
    destruct (queue_push_spec s l i) as (s' & E & R & D); [done|done|by apply elem_of_dom|done..|].
    exists s'. simpl. by m_step E.
  - destruct l as [|x l]; simplify_eq. destruct (queue_pop_spec s x _ Hr) as (s' & E & R & D).
    exists s'. simpl. by m_step E.
  - destruct l as [|x l]; simplify_eq. exists s. simpl. by m_step (queue_front_spec s _ Hr).
  - simplify_eq. exists s. simpl. by m_step (queue_empty_spec s _ Hr).
Qed.

Lemma exec_panic o s l : rep l s → fifo_exec o l = None → exec o s = Panic.
Proof.
  intros Hr E. destruct o, l; simplify_eq/=.
  - apply bind_panic. by apply queue_pop_empty.
  - apply bind_panic. apply (queue_front_spec s [] Hr).
Qed.
End QueueSpec.

(** ** Families of lists

    Components keep several lists in one heap; [family h L] says that [L] maps
    the heads of disjoint circular lists to their nodes. *)
Definition family (h : heap) (L : gmap Z (list Z)) : Prop :=
  (∀ hd l, L !! hd = Some l → hlist h hd l) ∧
  (∀ hd1 l1 hd2 l2, L !! hd1 = Some l1 → L !! hd2 = Some l2 → hd1 ≠ hd2 →
    (hd1 :: l1) ## (hd2 :: l2)).

(** A node that may be put on a list: allocated and on none. *)
Definition loose (h : heap) (L : gmap Z (list Z)) (node : Z) : Prop :=
  node ≠ 0 ∧ is_Some (h !! node) ∧ ∀ hd l, L !! hd = Some l → node ∉ hd :: l.

Section families.
Implicit Types (h : heap) (L : gmap Z (list Z)) (hd node : Z) (l : list Z).

Lemma family_hlist h L hd l : family h L → L !! hd = Some l → hlist h hd l.
Proof. intros [H _]. apply H. Qed.

(** On concrete heaps and lists, a family is decided by computation. *)
#[export] Instance seg_dec h a l b : Decision (seg h a l b).
Proof. revert a. induction l as [|x l IH]; intros a; simpl; apply _. Defined.
#[export] Instance hlist_dec h hd l : Decision (hlist h hd l).
Proof. unfold hlist, ring. apply _. Defined.

Lemma family_check h L :
  bool_decide (map_Forall (λ hd l, hlist h hd l) L) &&
  bool_decide (map_Forall (λ hd1 l1, map_Forall (λ hd2 l2,
    hd1 = hd2 ∨ Forall (λ x, x ∉ hd2 :: l2) (hd1 :: l1)) L) L) = true → family h L.
Proof.
  rewrite andb_true_iff, !bool_decide_eq_true. intros [Hl Hd]. split; [exact Hl|].
  intros hd1 l1 hd2 l2 H1 H2 Hne x Hx1 Hx2.
  destruct (Hd _ _ H1 _ _ H2) as [|Hf]; [done|]. rewrite Forall_forall in Hf. by apply (Hf x).
Qed.

Lemma loose_check h L node : bool_decide (node ≠ 0) && bool_decide (is_Some (h !! node)) &&
  bool_decide (map_Forall (λ hd l, node ∉ hd :: l) L) = true → loose h L node.
Proof. rewrite !andb_true_iff, !bool_decide_eq_true. by intros [[H0 Hs] Hn]. Qed.

(** Changing one list of the family within its own nodes and loose ones. *)
Lemma family_update h h' L hd l l' ns : family h L → L !! hd = Some l →
  hlist h' hd l' → only ns h h' → (∀ p, p ∈ ns → p ∈ hd :: l ∨ loose h L p) →
  (∀ p, p ∈ l' → p ∈ l ∨ p ∈ ns) → family h' (<[hd := l']> L).
Proof.
  intros [Hl Hd] HL Hl' O Hns Hin.
  assert (Hoff : ∀ hd2 l2 p, L !! hd2 = Some l2 → hd2 ≠ hd → p ∈ hd2 :: l2 → p ∉ ns).
  { intros hd2 l2 p H2 Hne Hp Hn. destruct (Hns p Hn) as [H|(_ & _ & H)].
    - by eapply (Hd hd l hd2 l2).
    - by eapply H. }
  assert (Hoff' : ∀ hd2 l2, L !! hd2 = Some l2 → hd2 ≠ hd → (hd :: l') ## (hd2 :: l2)).
  { intros hd2 l2 H2 Hne p Hp1 Hp2. apply elem_of_cons in Hp1 as [->|Hp1].
    - eapply (Hd hd l hd2 l2); [done..| |exact Hp2]. by left.
    - destruct (Hin p Hp1) as [H|H]; [|by eapply Hoff].
      eapply (Hd hd l hd2 l2); [done..| |exact Hp2]. by right. }
  split.
  - intros hd2 l2 [[<- <-]|[Hne H2]]%lookup_insert_Some; [done|].
    eapply only_ring; [exact O| |by apply Hl]. intros p Hp Hq. by eapply Hoff.
  - intros hd1 l1 hd2 l2 [[<- <-]|[Hne1 H1]]%lookup_insert_Some
      [[<- <-]|[Hne2 H2]]%lookup_insert_Some Hne; [done|by eapply Hoff'| |by eapply Hd].
    intros p Hp1 Hp2. by eapply (Hoff' hd1 l1).
Qed.

Lemma family_push_front h L hd l node : family h L → L !! hd = Some l → loose h L node →
  ∃ h', _insert_into_list hd node h = Done (hd, h') ∧ family h' (<[hd := node :: l]> L) ∧
    only (node :: hd :: l) h h'.
Proof.
  intros F HL Hn. pose proof Hn as (H0 & Hs & Ho).
  destruct (hlist_push_front h hd l node) as (h' & E & O & H'); [by eapply family_hlist|by eapply Ho|done..|].
  exists h'. split_and!; [done| |done]. eapply family_update; [done..| |].
  - intros p [->|Hp]%elem_of_cons; [by right|by left].
  - intros p [->|Hp]%elem_of_cons; [right; by left|by left].
Qed.

Lemma family_push_back h L hd l node : family h L → L !! hd = Some l → loose h L node →
  ∃ h' q, (p ← get_prev hd; _insert_into_list p node) h = Done (q, h') ∧
    family h' (<[hd := l ++ [node]]> L) ∧ only (node :: hd :: l) h h'.
Proof.
  intros F HL Hn. pose proof Hn as (H0 & Hs & Ho).
  destruct (hlist_push_back h hd l node) as (h' & q & E & O & H');
    [by eapply family_hlist|by eapply Ho|done..|].
  exists h', q. split_and!; [done| |done]. eapply family_update; [done..| |].
  - intros p [->|Hp]%elem_of_cons; [by right|by left].
  - intros p [Hp| ->%list_elem_of_singleton]%elem_of_app; [by left|right; by left].
Qed.

Lemma family_detach h L hd l1 node l2 : family h L → L !! hd = Some (l1 ++ node :: l2) →
  ∃ h', _detach_from_list node h = Done (default hd (last l1), h') ∧
    family h' (<[hd := l1 ++ l2]> L) ∧ ring h' [node] ∧
    loose h' (<[hd := l1 ++ l2]> L) node ∧ only (hd :: l1 ++ node :: l2) h h'.
Proof.
  intros F HL. pose proof (family_hlist _ _ _ _ F HL) as H.
  destruct (hlist_detach h hd l1 node l2 H) as (h' & E & O & H' & R).
  exists h'. split; [done|]. split; [|split; [done|split; [|done]]].
  - eapply family_update; [done..| |].
    + intros p Hp. by left.
    + intros p Hp. left. clear -Hp. set_solver.
  - split; [|split].
    + eapply ring_nonnull; [exact R|by left].
    + eapply ring_dom; [exact R|by left].
    + unfold hlist in H. apply ring_nodup in H. rewrite app_comm_cons, NoDup_app_cons in H.
      destruct H as (N1 & N2 & _). intros hd2 l2' [[<- <-]|[Hne H2]]%lookup_insert_Some.
      * clear -N1 N2. set_solver.
      * intros Hp. destruct F as [_ Fd]. eapply (Fd hd _ hd2 l2'); [done..| |exact Hp].
        clear. set_solver.
Qed.

Lemma family_init h L hd : family h L → loose h L hd →
  ∃ h', init_list_node hd h = Done (tt, h') ∧ family h' (<[hd := []]> L) ∧ only [hd] h h'.
Proof.
  intros [Hl Hd] (H0 & Hs & Ho). destruct (init_list_node_spec h hd H0 Hs) as (h' & E & O & R).
  exists h'. split_and!; [done| |done]. split.
  - intros hd2 l2 [[<- <-]|[Hne H2]]%lookup_insert_Some; [done|].
    eapply only_ring; [exact O| |by apply Hl]. intros p ->%list_elem_of_singleton Hp. by eapply Ho.
  - intros hd1 l1 hd2 l2 [[<- <-]|[Hne1 H1]]%lookup_insert_Some
      [[<- <-]|[Hne2 H2]]%lookup_insert_Some Hne; [done| | |by eapply Hd].
    + intros p ->%list_elem_of_singleton Hp. by eapply Ho.
    + intros p Hp ->%list_elem_of_singleton. by eapply Ho.
Qed.

(** Other loose nodes stay loose. *)
Lemma loose_update h h' L hd l l' p ns : loose h L p → only ns h h' → L !! hd = Some l →
  p ∉ l' → loose h' (<[hd := l']> L) p.
Proof.
  intros (H0 & Hs & Ho) O HL Hp. split; [done|split].
  - by eapply only_dom.
  - intros hd2 l2 [[<- <-]|[Hne H2]]%lookup_insert_Some; [|by eapply Ho].
    intros [->|?]%elem_of_cons; [|done]. eapply (Ho hd l); [done|by left].
Qed.
End families.

(** ** Theorems *)

(** The lists of the kernel. On a circular list with head [hd] and nodes
    [l], [_insert_into_list] at the head and at [hd->prev] pushes a node at the
    front and at the back, [_detach_from_list] removes any node and leaves it
    alone, and no other node of the heap is written. *)
Theorem list_operations h hd l1 node l2 fresh :
  hlist h hd (l1 ++ node :: l2) → fresh ≠ 0 → is_Some (h !! fresh) →
  fresh ∉ hd :: l1 ++ node :: l2 →
  (∃ h' q, _insert_into_list hd fresh h = Done (q, h') ∧
     hlist h' hd (fresh :: l1 ++ node :: l2) ∧ only (fresh :: hd :: l1 ++ node :: l2) h h') ∧
  (∃ h' q, (p ← get_prev hd; _insert_into_list p fresh) h = Done (q, h') ∧
     hlist h' hd (l1 ++ node :: l2 ++ [fresh]) ∧ only (fresh :: hd :: l1 ++ node :: l2) h h') ∧
  (∃ h', _detach_from_list node h = Done (default hd (last l1), h') ∧
     hlist h' hd (l1 ++ l2) ∧ ring h' [node] ∧ only (hd :: l1 ++ node :: l2) h h').
Proof.
  intros R H0 Hd Hn. split_and!.
  - destruct (hlist_push_front _ _ _ _ R Hn H0 Hd) as (h' & E & O & R'). eauto 10.
  - destruct (hlist_push_back _ _ _ _ R Hn H0 Hd) as (h' & q & E & O & R').
    rewrite <-app_assoc in R'. eauto 10.
  - destruct (hlist_detach _ _ _ _ _ R) as (h' & E & O & R1 & R2). eauto 10.
Qed.

(** C17: [Queue] is a FIFO. Whatever sequence of [queue_push], [queue_pop],
    [queue_front] and [queue_empty] a client runs from a queue that holds [l],
    the answers are those of a FIFO list, the panics are exactly its failures
    (popping or reading an empty queue), and the queue represents the list at
    the end. *)
Theorem queue_refines_fifo os s l :
  Queue.rep l s → QueueSpec.client_ok (dom (Queue.qnodes s)) os l →
  match QueueSpec.fifo_run os l with
  | Some (answers, l') => ∃ s', QueueSpec.run os s = Done (answers, s') ∧ Queue.rep l' s'
  | None => QueueSpec.run os s = Panic
  end.
Proof.
  revert s l. induction os as [|o os IH]; intros s l Hr Hc; [by exists s|].
  destruct Hc as [Ho Hc]. simpl.
  destruct (QueueSpec.fifo_exec o l) as [[a l1]|] eqn:E; simpl.
  - destruct (QueueSpec.exec_done o s l a l1 Hr) as (s1 & E1 & R1 & D1); [|done|].
    { simpl. rewrite E. done. }
    rewrite <-D1 in Hc. specialize (IH s1 l1 R1 Hc).
    destruct (QueueSpec.fifo_run os l1) as [[r l2]|]; simpl.
    + destruct IH as (s2 & E2 & R2). exists s2. split; [|done]. m_step E1. by m_step E2.
    + m_step E1. by apply bind_panic.
  - apply bind_panic. by eapply QueueSpec.exec_panic.
Qed.

Definition two_nodes : heap :=
  <[8 := mkNode 16 24]> (<[16 := mkNode 24 8]> (<[24 := mkNode 8 16]>
    (<[32 := mkNode 0 0]> ∅))).

Lemma two_nodes_ring : hlist two_nodes 8 [24; 16].
Proof. split; [|split]; [by apply (bool_decide_unpack _)|set_solver|by vm_compute]. Qed.

Lemma list_operations_witness : ∃ h', _detach_from_list 16 two_nodes = Done (24, h') ∧
  hlist h' 8 [24].
Proof.
  destruct (list_operations two_nodes 8 [24] 16 [] 32) as (_ & _ & h' & E & R & _).
  - exact two_nodes_ring.
  - done.
  - by eexists.
  - set_solver.
  - by exists h'.
Defined.

Definition empty_queue : Queue.state := Queue.mkState (Queue.mk 0 0 0 false) two_nodes.

Lemma queue_refines_fifo_witness :
  ∃ s', QueueSpec.run [QueueSpec.Push 16; QueueSpec.Push 32; QueueSpec.Pop; QueueSpec.Front]
          empty_queue
        = Done ([QueueSpec.Unit; QueueSpec.Unit; QueueSpec.Unit; QueueSpec.Item 32], s')
        ∧ Queue.rep [32] s'.
Proof.
  refine (queue_refines_fifo
    [QueueSpec.Push 16; QueueSpec.Push 32; QueueSpec.Pop; QueueSpec.Front]
    empty_queue [] _ _).
  - by split_and!.
  - by apply (bool_decide_unpack _).
Defined.
