(* ===== verification/LockFree.v ===== *)
(** * The lock-free free lists ([QueueNode] of [common/list.c])

    [add_to_queue] and [fetch_from_queue] as a step relation in which any
    number of CPUs interleave at every access to shared memory.  With a single
    fetching CPU the list never loses or duplicates a node; with two fetching
    CPUs it does ([fetch_is_not_aba_safe]). *)
From S2P Require Import Prelude Words.

(** ** Programs and states *)
Inductive pc :=
  | Idle
  (* add_to_queue(head, node) *)
  | AddLoad (node : Z)              (* about to read [*head] *)
  | AddStore (node v : Z)           (* about to write [node->next = v] *)
  | AddCas (node : Z)               (* about to compare-and-swap [*head] *)
  (* fetch_from_queue(head) *)
  | FetchLoad                       (* about to read [*head] into [node] *)
  | FetchNext (node : Z)            (* [node != NULL], about to read [node->next] *)
  | FetchCas (node n : Z).          (* about to compare-and-swap [*head] to [n] *)

(** A CPU and the nodes it owns outside of the list. *)
Record cpu := mkCpu { at_ : pc; own : list Z }.
Record state := mkState { head : Z; link : gmap Z Z; cpus : list cpu }.

(** [QueueNode.next] of a node. *)
Definition next_of (s : state) (node : Z) : Z := default 0 (link s !! node).

Definition goto (i : nat) (c : cpu) (s : state) : state :=
  mkState (head s) (link s) (<[i := c]> (cpus s)).
Definition set_link (node v : Z) (s : state) : state :=
  mkState (head s) (<[node := v]> (link s)) (cpus s).
Definition set_head (v : Z) (s : state) : state := mkState v (link s) (cpus s).

(** One access of CPU [i].  [may_fetch] says which CPUs call
    [fetch_from_queue].  A weak compare-and-swap may fail spuriously; a failed
    one writes the current [*head] to its expected value, which is
    [node->next] in [add_to_queue] and the local [node] in
    [fetch_from_queue]. *)
Inductive step (may_fetch : nat → Prop) : state → state → Prop :=
  | add_call i node o1 o2 s :
      cpus s !! i = Some (mkCpu Idle (o1 ++ node :: o2)) →
      step may_fetch s (goto i (mkCpu (AddLoad node) (o1 ++ o2)) s)
  | add_load i node o s :
      cpus s !! i = Some (mkCpu (AddLoad node) o) →
      step may_fetch s (goto i (mkCpu (AddStore node (head s)) o) s)
  | add_store i node v o s :
      cpus s !! i = Some (mkCpu (AddStore node v) o) →
      step may_fetch s (goto i (mkCpu (AddCas node) o) (set_link node v s))
  | add_cas_ok i node o s :
      cpus s !! i = Some (mkCpu (AddCas node) o) → head s = next_of s node →
      step may_fetch s (goto i (mkCpu Idle o) (set_head node s))
  | add_cas_fail i node o s :
      cpus s !! i = Some (mkCpu (AddCas node) o) →
      step may_fetch s (goto i (mkCpu (AddLoad node) o) (set_link node (head s) s))
  | fetch_call i o s :
      may_fetch i → cpus s !! i = Some (mkCpu Idle o) →
      step may_fetch s (goto i (mkCpu FetchLoad o) s)
  | fetch_load_null i o s :
      cpus s !! i = Some (mkCpu FetchLoad o) → head s = 0 →
      step may_fetch s (goto i (mkCpu Idle o) s)
  | fetch_load i o s :
      cpus s !! i = Some (mkCpu FetchLoad o) → head s ≠ 0 →
      step may_fetch s (goto i (mkCpu (FetchNext (head s)) o) s)
  | fetch_next i node o s :
      cpus s !! i = Some (mkCpu (FetchNext node) o) →
      step may_fetch s (goto i (mkCpu (FetchCas node (next_of s node)) o) s)
  | fetch_cas_ok i node n o s :
      cpus s !! i = Some (mkCpu (FetchCas node n) o) → head s = node →
      step may_fetch s (goto i (mkCpu Idle (node :: o)) (set_head n s))
  | fetch_cas_fail i node n o s :
      cpus s !! i = Some (mkCpu (FetchCas node n) o) →
      step may_fetch s (goto i (mkCpu FetchLoad o) s).

(** ** Where the nodes are *)

(** The nodes of the list, from the head. *)
Fixpoint chain (nx : Z → Z) (p : Z) (l : list Z) : Prop :=
  match l with
  | [] => p = 0
  | q :: l' => p = q ∧ q ≠ 0 ∧ chain nx (nx q) l'
  end.

(** A node being added is still private to its CPU. *)
Definition in_flight (c : pc) : list Z :=
  match c with AddLoad n | AddStore n _ | AddCas n => [n] | _ => [] end.
Definition cpu_nodes (c : cpu) : list Z := in_flight (at_ c) ++ own c.

(** All the nodes of the system when the list holds [l]. *)
Definition all_nodes (l : list Z) (s : state) : list Z := l ++ (cpus s ≫= cpu_nodes).

(** The nodes [univ] are each in exactly one place: the list, or one CPU. *)
Definition partitioned (univ : list Z) (l : list Z) (s : state) : Prop :=
  chain (next_of s) (head s) l ∧ all_nodes l s ≡ₚ univ ∧ NoDup univ ∧ 0 ∉ univ.

(** What a fetching CPU knows about the list. *)
Definition fetch_ok (l : list Z) (s : state) (c : pc) : Prop :=
  match c with
  | FetchNext node => node ∈ l
  | FetchCas node n => node ∈ l ∧ n = next_of s node
  | _ => True
  end.

Definition inv (univ : list Z) (k : nat) (s : state) : Prop :=
  ∃ l, partitioned univ l s ∧
    ∀ i c, cpus s !! i = Some c →
      fetch_ok l s (at_ c) ∧
      (i ≠ k → match at_ c with FetchLoad | FetchNext _ | FetchCas _ _ => False | _ => True end).

Section lemmas.
Implicit Types (s : state) (l univ : list Z) (c : cpu) (i : nat).

Lemma chain_ext nx nx' p l :
  (∀ q, q ∈ l → nx' q = nx q) → chain nx p l → chain nx' p l.
Proof.
  revert p. induction l as [|q l IH]; intros p He; simpl; [done|].
  intros (?&?&?). split_and!; [done..|]. rewrite He by set_solver.
  apply IH; [set_solver|done].
Qed.

Lemma next_of_set_link s node v q :
  next_of (set_link node v s) q = if decide (q = node) then v else next_of s q.
Proof. unfold next_of. simpl. case_decide; [by subst; rewrite lookup_insert_eq|by rewrite lookup_insert_ne]. Qed.

(** Replacing a CPU replaces its nodes. *)
Lemma bind_insert (f : cpu → list Z) (cs : list cpu) i c c' :
  cs !! i = Some c → ∃ l1 l2, cs ≫= f = l1 ++ f c ++ l2 ∧ <[i := c']> cs ≫= f = l1 ++ f c' ++ l2.
Proof.
  revert i. induction cs as [|d cs IH]; intros [|i] H; simplify_eq/=.
  - by exists [], (cs ≫= f).
  - destruct (IH i H) as (l1 & l2 & -> & ->). exists (f d ++ l1), l2. by rewrite <-!app_assoc.
Qed.

Lemma all_nodes_goto l l' s i c c' hd lk :
  cpus s !! i = Some c → l ++ cpu_nodes c ≡ₚ l' ++ cpu_nodes c' →
  all_nodes l s ≡ₚ all_nodes l' (mkState hd lk (<[i := c']> (cpus s))).
Proof.
  intros Hc Hp. unfold all_nodes. simpl.
  destruct (bind_insert cpu_nodes _ _ _ c' Hc) as (l1 & l2 & -> & ->).
  rewrite (Permutation_app_comm l1), (Permutation_app_comm l1), <-!app_assoc.
  rewrite !(app_assoc l), !(app_assoc l'), Hp. done.
Qed.

(** The node a CPU is adding is on no other CPU and not on the list. *)
Lemma in_flight_private univ l s i c node :
  partitioned univ l s → cpus s !! i = Some c → node ∈ in_flight (at_ c) →
  node ∉ l ∧ node ≠ 0.
Proof.
  intros (_ & Hp & Hd & H0) Hc Hn. rewrite <-Hp in Hd, H0.
  assert (node ∈ cpus s ≫= cpu_nodes) as Hm.
  { apply list_elem_of_bind. exists c. split; [set_solver|by eapply list_elem_of_lookup_2]. }
  unfold all_nodes in *. split; [|set_solver].
  intros Hl. apply NoDup_app in Hd as (_ & Hd & _). by eapply Hd.
Qed.
End lemmas.

Section invariant.
Context (univ : list Z) (k : nat).
Implicit Types (s : state) (l : list Z) (c : cpu) (i : nat).

(** A step that moves CPU [i], keeps the nodes, and keeps the list readable. *)
Lemma inv_move l l' s i c c' hd lk :
  partitioned univ l s → cpus s !! i = Some c →
  (∀ j d, cpus s !! j = Some d → fetch_ok l s (at_ d) ∧
    (j ≠ k → match at_ d with FetchLoad | FetchNext _ | FetchCas _ _ => False | _ => True end)) →
  let s' := mkState hd lk (<[i := c']> (cpus s)) in
  chain (next_of s') hd l' → l ++ cpu_nodes c ≡ₚ l' ++ cpu_nodes c' →
  fetch_ok l' s' (at_ c') →
  (i ≠ k → match at_ c' with FetchLoad | FetchNext _ | FetchCas _ _ => False | _ => True end) →
  (i = k ∨ ∀ node, node ∈ l → node ∈ l' ∧ next_of s' node = next_of s node) →
  inv univ k s'.
Proof.
  intros (Hch & Hp & Hd & H0) Hc Hall s' Hch' Hn Hf Hk Hl. exists l'. split.
  - split_and!; [done| |done|done]. rewrite <-Hp. symmetry. by apply (all_nodes_goto _ _ _ _ c).
  - intros j d. subst s'. simpl. destruct (decide (i = j)) as [->|Hij].
    + rewrite list_lookup_insert_eq by (by eapply lookup_lt_Some). intros; by simplify_eq.
    + rewrite list_lookup_insert_ne by done. intros Hj. destruct (Hall j d Hj) as [Hfj Hkj].
      split; [|done]. destruct Hl as [->|Hl].
      * destruct (at_ d); simpl in *; try done; exfalso; by apply Hkj.
      * destruct (at_ d); simpl in *; try done; [by apply Hl|].
        destruct Hfj as [Hm ->]. destruct (Hl _ Hm) as [? Hx]. by rewrite Hx.
Qed.

Lemma free_list_inv_step s s' : inv univ k s → step (λ i, i = k) s s' → inv univ k s'.
Proof.
  intros (l & Hpart & Hall) Hst. pose proof Hpart as (Hch & Hp & Hd & H0).
  destruct Hst as [i node o1 o2 s Hc|i node o s Hc|i node v o s Hc|i node o s Hc Hh
    |i node o s Hc|i o s Hk Hc|i o s Hc Hh|i o s Hc Hh|i node o s Hc|i node n o s Hc Hh
    |i node n o s Hc]; pose proof (Hall _ _ Hc) as [Hf Hik]; simpl in Hf, Hik;
    unfold goto, set_link, set_head; simpl.
  - eapply (inv_move l l); [done..| | | |]; simpl; try done; [|by right].
    unfold cpu_nodes. simpl. by rewrite Permutation_middle.
  - eapply (inv_move l l); [done..| | | |]; simpl; try done; by right.
  - destruct (in_flight_private univ l s i _ node Hpart Hc) as [Hnl _]; [set_solver|].
    eapply (inv_move l l); [done..| | | | |]; simpl; try done.
    + eapply chain_ext; [|done]. intros q Hq.
      unfold next_of. simpl. rewrite lookup_insert_ne; [done|by intros ->].
    + right. intros q Hq. unfold next_of. simpl. by rewrite lookup_insert_ne by (by intros ->).
  - destruct (in_flight_private univ l s i _ node Hpart Hc) as [Hnl Hn0]; [set_solver|].
    eapply (inv_move l (node :: l)); [done..| | | | |]; simpl; try done.
    + split_and!; [done..|]. rewrite Hh in Hch. done.
    + unfold cpu_nodes. simpl. by rewrite Permutation_middle.
    + right. set_solver.
  - destruct (in_flight_private univ l s i _ node Hpart Hc) as [Hnl _]; [set_solver|].
    eapply (inv_move l l); [done..| | | | |]; simpl; try done.
    + eapply chain_ext; [|done]. intros q Hq.
      unfold next_of. simpl. rewrite lookup_insert_ne; [done|by intros ->].
    + right. intros q Hq. unfold next_of. simpl. by rewrite lookup_insert_ne by (by intros ->).
  - eapply (inv_move l l); [done..| | | |]; simpl; try done; by left.
  - eapply (inv_move l l); [done..| | | |]; simpl; try done; by right.
  - eapply (inv_move l l); [done..| | | |]; simpl; try done; [|by right].
    destruct l; simpl in *; [done|]. destruct Hch as (<- & _). set_solver.
  - eapply (inv_move l l); [done..| | | |]; simpl; try done; by right.
  - destruct Hf as [Hm ->]. destruct l as [|q l]; [set_solver|].
    simpl in Hch. destruct Hch as (Hq & Hq0 & Hch). assert (q = node) as -> by congruence.
    eapply (inv_move (node :: l) l); [done..| | | | |]; simpl; try done.
    + unfold cpu_nodes. simpl. by rewrite Permutation_middle.
    + left. destruct (decide (i = k)); [done|]. by destruct Hik.
  - eapply (inv_move l l); [done..| | | |]; simpl; try done; by right.
Qed.
End invariant.

(** ** Theorems *)

(** The free list [1 -> 2 -> 3] and two idle CPUs. *)
Definition three_free : state :=
  mkState 1 {[1 := 2; 2 := 3; 3 := 0]} [mkCpu Idle []; mkCpu Idle []].

(** C14: the page free list with one allocating CPU. However many CPUs call
    [add_to_queue] and however their accesses interleave with those of the one
    CPU [k] that calls [fetch_from_queue], every node stays in exactly one
    place: on the list, or with one CPU.  No node is lost and none is handed
    out twice. *)
Theorem single_consumer_free_list univ k s0 s :
  inv univ k s0 → rtc (step (λ i, i = k)) s0 s →
  ∃ l, chain (next_of s) (head s) l ∧ l ++ (cpus s ≫= cpu_nodes) ≡ₚ univ ∧
       NoDup (l ++ (cpus s ≫= cpu_nodes)).
Proof.
  intros Hi Hr. assert (inv univ k s) as (l & (Hch & Hp & Hd & H0) & _).
  { revert Hr. apply rtc_invariant; [|done]. apply free_list_inv_step. }
  exists l. split_and!; [done|done|]. unfold all_nodes in Hp. by rewrite Hp.
Qed.

Lemma three_free_inv : inv [1; 2; 3] 0 three_free.
Proof.
  exists [1; 2; 3]. split.
  - split_and!; [by vm_compute|done|by apply (bool_decide_unpack _)|set_solver].
  - intros i c Hc. destruct i as [|[|]]; simplify_eq/=; done.
Qed.

Lemma single_consumer_free_list_witness :
  ∃ l, chain (next_of three_free) 1 l ∧ l ++ (cpus three_free ≫= cpu_nodes) ≡ₚ [1; 2; 3] ∧
       NoDup (l ++ (cpus three_free ≫= cpu_nodes)).
Proof.
  apply (single_consumer_free_list [1; 2; 3] 0%nat three_free three_free).
  - exact three_free_inv.
  - apply rtc_refl.
Defined.

(** C31: the ABA interleaving of the page allocator. When two CPUs may fetch, a
    state is reachable from the free list [1 -> 2 -> 3] in which CPU 1 owns
    node 2 (it fetched it and never gave it back) while node 2 is still the
    head of the free list, so that the next allocation hands it out again. *)
Theorem fetch_is_not_aba_safe :
  ∃ s, rtc (step (λ _, True)) three_free s ∧ head s = 2 ∧
    ∃ c, cpus s !! 1%nat = Some c ∧ 2 ∈ own c.
Proof.
  eexists. split.
  - (* CPU 0 reads head = 1 and next = 2 *)
    eapply rtc_l; [by eapply (fetch_call _ 0)|].
    eapply rtc_l; [by eapply (fetch_load _ 0)|].
    eapply rtc_l; [by eapply (fetch_next _ 0)|].
    (* CPU 1 fetches 1, then 2, and gives 1 back *)
    eapply rtc_l; [by eapply (fetch_call _ 1)|].
    eapply rtc_l; [by eapply (fetch_load _ 1)|].
    eapply rtc_l; [by eapply (fetch_next _ 1)|].
    eapply rtc_l; [by eapply (fetch_cas_ok _ 1)|].
    eapply rtc_l; [by eapply (fetch_call _ 1)|].
    eapply rtc_l; [by eapply (fetch_load _ 1)|].
    eapply rtc_l; [by eapply (fetch_next _ 1)|].
    eapply rtc_l; [by eapply (fetch_cas_ok _ 1)|].
    eapply rtc_l; [by eapply (add_call _ 1 1 [2] [])|].
    eapply rtc_l; [by eapply (add_load _ 1)|].
    eapply rtc_l; [by eapply (add_store _ 1)|].
    eapply rtc_l; [by eapply (add_cas_ok _ 1)|].
    (* CPU 0's compare-and-swap succeeds with the stale next pointer *)
    eapply rtc_l; [by eapply (fetch_cas_ok _ 0)|].
    apply rtc_refl.
  - split; [by vm_compute|]. eexists. split; [by vm_compute|]. set_solver.
Qed.
