(* ===== verification/Memory.v ===== *)
(** * Byte-addressed memory

    Memory is a total map from addresses to bytes; multi-byte values are stored
    little-endian, as on AArch64.  [load n] and [store n] access an [n]-byte
    unsigned integer. *)
From S2P Require Import Prelude Words.

Abbreviation mem := (Z → Z).

Definition upd (p v : Z) (m : mem) : mem := λ a, if decide (a = p) then v else m a.

Fixpoint load (n : nat) (m : mem) (p : Z) : Z :=
  match n with O => 0 | S n' => m p + 256 * load n' m (p + 1) end.
Fixpoint store (n : nat) (p v : Z) (m : mem) : mem :=
  match n with O => m | S n' => store n' (p + 1) (v / 256) (upd p (v mod 256) m) end.

Abbreviation load64 := (load 8).
Abbreviation store64 := (store 8).
Abbreviation load32 := (load 4).
Abbreviation store32 := (store 4).
Abbreviation load16 := (load 2).
Abbreviation store16 := (store 2).

(** Memory holds bytes. *)
Definition bytes (m : mem) : Prop := ∀ a, in_u 8 (m a).

(** [m'] agrees with [m] outside of [[p, p + n)]. *)
Definition outside (p n : Z) (m m' : mem) : Prop :=
  ∀ a, ¬ (p ≤ a < p + n) → m' a = m a.

Definition rd (a : Z) : M mem Z := gets (λ m, m a).
Definition wr (a v : Z) : M mem unit := modify (upd a v).
Definition rd64 (a : Z) : M mem Z := gets (λ m, load64 m a).
Definition wr64 (a v : Z) : M mem unit := modify (store64 a v).

Lemma load_S n m p : load (S n) m p = m p + 256 * load n m (p + 1).
Proof. done. Qed.

Lemma upd_eq p v m : upd p v m p = v.
Proof. unfold upd. by rewrite decide_True. Qed.
Lemma upd_ne p v m a : a ≠ p → upd p v m a = m a.
Proof. intros. unfold upd. by rewrite decide_False. Qed.

Lemma bytes_upd p v m : bytes m → in_u 8 v → bytes (upd p v m).
Proof. intros Hm Hv a. unfold upd. by case_decide. Qed.

Lemma store_outside n p v m : outside p (Z.of_nat n) m (store n p v m).
Proof.
  revert p v m. induction n as [|n IH]; intros p v m a Ha; simpl; [done|].
  rewrite IH by lia. apply upd_ne. lia.
Qed.

Lemma store_bytes n p v m : bytes m → bytes (store n p v m).
Proof.
  revert p v m. induction n as [|n IH]; intros p v m Hm; simpl; [done|].
  apply IH, bytes_upd; [done|]. apply wrap_range. lia.
Qed.

Lemma load_ext n m m' p :
  (∀ a, p ≤ a < p + Z.of_nat n → m' a = m a) → load n m' p = load n m p.
Proof.
  revert p. induction n as [|n IH]; intros p H; simpl; [done|].
  rewrite H by lia. rewrite IH; [done|]. intros a Ha. apply H. lia.
Qed.

Lemma load_outside n q k p m m' :
  outside q k m m' → (p + Z.of_nat n ≤ q ∨ q + k ≤ p) → load n m' p = load n m p.
Proof. intros Ho Hd. apply load_ext. intros a Ha. apply Ho. lia. Qed.

Lemma load_store_eq n p v m : 0 ≤ v < 256 ^ Z.of_nat n → load n (store n p v m) p = v.
Proof.
  revert p v m. induction n as [|n IH]; intros p v m Hv; simpl.
  - simpl in Hv. lia.
  - assert (E := store_outside n (p + 1) (v / 256) (upd p (v mod 256) m)).
    rewrite E by lia. rewrite upd_eq, IH.
    + pose proof (Z.div_mod v 256 ltac:(lia)). lia.
    + rewrite Nat2Z.inj_succ, Z.pow_succ_r in Hv by lia.
      split; [apply Z.div_pos; lia|apply Z.div_lt_upper_bound; lia].
Qed.

Lemma load_store_ne n k p q v m :
  q + Z.of_nat k ≤ p ∨ p + Z.of_nat n ≤ q → load k (store n p v m) q = load k m q.
Proof. intros H. eapply load_outside; [apply store_outside|]. lia. Qed.

Lemma load_bounds n m p : bytes m → 0 ≤ load n m p < 256 ^ Z.of_nat n.
Proof.
  intros Hm. revert p. induction n as [|n IH]; intros p; simpl; [lia|].
  rewrite Nat2Z.inj_succ, Z.pow_succ_r by lia. specialize (IH (p + 1)).
  pose proof (Hm p) as [? Hp]. change (2 ^ 8) with 256 in Hp. nia.
Qed.

Lemma outside_refl p n m : outside p n m m.
Proof. done. Qed.
Lemma outside_trans p n m1 m2 m3 : outside p n m1 m2 → outside p n m2 m3 → outside p n m1 m3.
Proof. intros H1 H2 a Ha. by rewrite H2, H1. Qed.
Lemma outside_mono p n q k m m' :
  q ≤ p → p + n ≤ q + k → outside p n m m' → outside q k m m'.
Proof. intros ?? H a Ha. apply H. lia. Qed.
Lemma outside_upd p n q v m : p ≤ q < p + n → outside p n m (upd q v m).
Proof. intros Hq a Ha. apply upd_ne. lia. Qed.

#[global] Arguments load : simpl never.
#[global] Arguments store : simpl never.
