(* ===== verification/Strings.v ===== *)
(** * Memory and string routines ([common/string.c])

    Each routine is the byte loop of the source on the flat memory of
    [Memory.v]; [for (i = 0; i < n; i++)] is [for_each (seqZ 0 n)].  [char] is
    unsigned, as it is on AArch64. *)
From S2P Require Import Prelude Words Memory.

(** ** The routines *)
Definition memset (s c n : Z) : M mem Z :=
  for_each (seqZ 0 n) (λ i, wr (s + i) (u8 (Z.land c 255)));;
  mret s.

Definition memcpy (dest src n : Z) : M mem Z :=
  for_each (seqZ 0 n) (λ i, v ← rd (src + i); wr (dest + i) v);;
  mret dest.

(** The [for] loop of [memcmp], at index [i] with [k] iterations left. *)
Fixpoint memcmp_from (s1 s2 i : Z) (k : nat) : M mem Z :=
  match k with
  | O => mret 0
  | S k' =>
      c1 ← rd (s1 + i); c2 ← rd (s2 + i);
      if decide (c1 ≠ c2) then mret (c1 - c2) else memcmp_from s1 s2 (i + 1) k'
  end.
Definition memcmp (s1 s2 n : Z) : M mem Z := memcmp_from s1 s2 0 (Z.to_nat n).

(** [while (n-- > 0) *--d = *--s;] *)
Fixpoint move_down (d s : Z) (n : nat) : M mem unit :=
  match n with
  | O => mret tt
  | S n' => v ← rd (s - 1); wr (d - 1) v;; move_down (d - 1) (s - 1) n'
  end.
(** [while (n-- > 0) *d++ = *s++;] *)
Fixpoint move_up (d s : Z) (n : nat) : M mem unit :=
  match n with
  | O => mret tt
  | S n' => v ← rd s; wr d v;; move_up (d + 1) (s + 1) n'
  end.
Definition memmove (dest src n : Z) : M mem Z :=
  (if bool_decide (src < dest) && bool_decide (u64 (dest - src) < n)
   then move_down (dest + n) (src + n) (Z.to_nat n)
   else move_up dest src (Z.to_nat n));;
  mret dest.

(** [for (; i < n && src[i] != '\0'; i++) dest[i] = src[i];], answering [i]. *)
Fixpoint copy_until_nul (dest src i : Z) (k : nat) : M mem Z :=
  match k with
  | O => mret i
  | S k' =>
      c ← rd (src + i);
      if decide (c ≠ 0) then
        v ← rd (src + i); wr (dest + i) v;; copy_until_nul dest src (i + 1) k'
      else mret i
  end.
Definition strncpy (dest src n : Z) : M mem Z :=
  i ← copy_until_nul dest src 0 (Z.to_nat n);
  for_each (seqZ i (n - i)) (λ i, wr (dest + i) 0);;
  mret dest.
Definition strncpy_fast (dest src n : Z) : M mem Z :=
  i ← copy_until_nul dest src 0 (Z.to_nat n);
  (if decide (i < n) then wr (dest + i) 0 else mret tt);;
  mret dest.

Fixpoint strncmp_from (s1 s2 i : Z) (k : nat) : M mem Z :=
  match k with
  | O => mret 0
  | S k' =>
      a ← rd (s1 + i); b ← rd (s2 + i);
      if decide (a ≠ b) then mret (a - b)
      else if decide (a = 0 ∨ b = 0) then mret 0
      else strncmp_from s1 s2 (i + 1) k'
  end.
Definition strncmp (s1 s2 n : Z) : M mem Z := strncmp_from s1 s2 0 (Z.to_nat n).

Definition strlen (fuel : nat) (s : Z) : M mem Z :=
  loop fuel (λ i, c ← rd (s + i); mret (if decide (c ≠ 0) then inl (i + 1) else inr i)) 0.

(** ** What they compute *)
Section facts.
Implicit Types (m : mem) (s dest src n i : Z).

Lemma memset_spec s c n m : 0 ≤ n → ∃ m', memset s c n m = Done (s, m') ∧
  outside s n m m' ∧ ∀ a, s ≤ a < s + n → m' a = Z.land c 255.
Proof.
  intros Hn.
  destruct (for_seq_rule (λ i, wr (s + i) (u8 (Z.land c 255)))
    (λ i m', outside s n m m' ∧ ∀ a, s ≤ a < s + i → m' a = Z.land c 255) 0 n Hn)
    with (s := m) as ([] & m' & E & O & H).
  - intros i m1 Hi [O H]. eexists. split; [done|]. split.
    + eapply outside_trans; [done|]. apply outside_upd. lia.
    + intros a Ha. unfold upd. case_decide; [|apply H; lia].
      apply wrap_small. change 255 with (Z.ones 8). rewrite Z.land_ones by lia.
      apply Z.mod_pos_bound. lia.
  - split; [done|]. lia.
  - exists m'. split_and!; [by unfold memset; rewrite (bind_done _ _ _ _ _ E)|done|].
    intros a Ha. apply H. lia.
Qed.

(** [memset(p, 0, n)] makes every word inside read as zero. *)
Lemma memset_zero_load k s n m m' p : memset s 0 n m = Done (s, m') →
  0 ≤ n → s ≤ p → p + Z.of_nat k ≤ s + n → load k m' p = 0.
Proof.
  intros E Hn Hp Hk. destruct (memset_spec s 0 n m Hn) as (m2 & E2 & _ & H).
  rewrite E in E2. simplify_eq. clear E. revert p Hp Hk.
  induction k as [|k IH]; intros p Hp Hk; [done|].
  rewrite load_S, H, IH by lia. done.
Qed.

(** Copying upwards is right when the destination does not lie inside the
    source, that is unless [src < dest < src + n]. *)
Lemma move_up_spec d s (n : nat) m : (d ≤ s ∨ s + Z.of_nat n ≤ d) →
  ∃ m', move_up d s n m = Done (tt, m') ∧ outside d (Z.of_nat n) m m' ∧
    ∀ i, 0 ≤ i < Z.of_nat n → m' (d + i) = m (s + i).
Proof.
  revert d s m. induction n as [|n IH]; intros d s m Hd.
  { exists m. split_and!; [done|done|lia]. }
  destruct (IH (d + 1) (s + 1) (upd d (m s) m)) as (m' & E & O & H); [lia|].
  exists m'. split_and!; [exact E| |].
  - eapply outside_trans; [apply (outside_upd d (Z.of_nat (S n)) d); lia|].
    eapply outside_mono; [..|done]; lia.
  - intros i Hi. destruct (decide (i = 0)) as [->|].
    + rewrite !Z.add_0_r, O by lia. apply upd_eq.
    + replace (d + i) with (d + 1 + (i - 1)) by lia. rewrite H by lia.
      replace (s + 1 + (i - 1)) with (s + i) by lia. apply upd_ne. lia.
Qed.

Lemma move_down_spec d s (n : nat) m : (s ≤ d ∨ d + Z.of_nat n ≤ s) →
  ∃ m', move_down (d + Z.of_nat n) (s + Z.of_nat n) n m = Done (tt, m') ∧
    outside d (Z.of_nat n) m m' ∧ ∀ i, 0 ≤ i < Z.of_nat n → m' (d + i) = m (s + i).
Proof.
  revert d s m. induction n as [|n IH]; intros d s m Hd.
  { exists m. split_and!; [done|done|lia]. }
  destruct (IH d s (upd (d + Z.of_nat n) (m (s + Z.of_nat n)) m)) as (m' & E & O & H); [lia|].
  exists m'. split_and!.
  - cbn [move_down]. unfold rd, wr. m_unfold.
    replace (d + Z.of_nat (S n) - 1) with (d + Z.of_nat n) by lia.
    replace (s + Z.of_nat (S n) - 1) with (s + Z.of_nat n) by lia. exact E.
  - eapply outside_trans; [apply (outside_upd d (Z.of_nat (S n)) (d + Z.of_nat n)); lia|].
    eapply outside_mono; [..|done]; lia.
  - intros i Hi. destruct (decide (i = Z.of_nat n)) as [->|].
    + rewrite O by lia. apply upd_eq.
    + rewrite H by lia. apply upd_ne. lia.
Qed.

Lemma memcpy_spec dest src n m : 0 ≤ n → (dest + n ≤ src ∨ src + n ≤ dest) →
  ∃ m', memcpy dest src n m = Done (dest, m') ∧ outside dest n m m' ∧
    ∀ i, 0 ≤ i < n → m' (dest + i) = m (src + i).
Proof.
  intros Hn Hd.
  destruct (for_seq_rule (λ i, v ← rd (src + i); wr (dest + i) v)
    (λ i m', outside dest n m m' ∧ ∀ j, 0 ≤ j < i → m' (dest + j) = m (src + j)) 0 n Hn)
    with (s := m) as ([] & m' & E & O & H).
  - intros i m1 Hi [O H]. eexists. split; [done|]. simpl. split.
    + eapply outside_trans; [done|]. apply outside_upd. lia.
    + intros j Hj. destruct (decide (j = i)) as [->|].
      * rewrite upd_eq. apply O. lia.
      * rewrite upd_ne by lia. apply H. lia.
  - split; [done|]. lia.
  - exists m'. split_and!; [by unfold memcpy; rewrite (bind_done _ _ _ _ _ E)|done|].
    intros i Hi. apply H. lia.
Qed.

Lemma memcmp_from_spec s1 s2 i k m :
  (memcmp_from s1 s2 i k m = Done (0, m) ∧
     ∀ j, i ≤ j < i + Z.of_nat k → m (s1 + j) = m (s2 + j)) ∨
  (∃ j, i ≤ j < i + Z.of_nat k ∧ m (s1 + j) ≠ m (s2 + j) ∧
     (∀ j', i ≤ j' < j → m (s1 + j') = m (s2 + j')) ∧
     memcmp_from s1 s2 i k m = Done (m (s1 + j) - m (s2 + j), m)).
Proof.
  revert i. induction k as [|k IH]; intros i; [left; split; [done|lia]|].
  cbn [memcmp_from]. unfold rd, gets, mbind, M_bind. case_decide as E.
  - right. exists i. split_and!; [lia..|done|lia|done].
  - destruct (IH (i + 1)) as [[H1 H2]|(j & Hj & Hne & Hb & H)].
    + left. split; [exact H1|]. intros j Hj.
      destruct (decide (j = i)) as [->|]; [done|]. apply H2. lia.
    + right. exists j. split_and!; [lia..|done| |exact H].
      intros j' Hj'. destruct (decide (j' = i)) as [->|]; [done|]. apply Hb. lia.
Qed.

(** The first nul of the string at [s], at most [n] away, or [n]. *)
Definition first_nul (m : mem) (s n len : Z) : Prop :=
  0 ≤ len ≤ n ∧ (∀ i, 0 ≤ i < len → m (s + i) ≠ 0) ∧ (len < n → m (s + len) = 0).

Lemma copy_until_nul_spec dest src n len i k m0 m :
  (dest + n ≤ src ∨ src + n ≤ dest) → first_nul m0 src n len →
  0 ≤ i ≤ len → Z.of_nat k = n - i → outside dest n m0 m →
  (∀ j, 0 ≤ j < i → m (dest + j) = m0 (src + j)) →
  ∃ m', copy_until_nul dest src i k m = Done (len, m') ∧ outside dest n m0 m' ∧
    ∀ j, 0 ≤ j < len → m' (dest + j) = m0 (src + j).
Proof.
  intros Hd (Hl & Hnz & Hz). revert i m. induction k as [|k IH]; intros i m Hi Hk O H.
  { exists m. simpl. assert (i = len) as -> by lia. done. }
  cbn [copy_until_nul]. unfold rd, wr, gets, modify, mbind, M_bind.
  assert (Hs : m (src + i) = m0 (src + i)) by (apply O; lia). case_decide as E.
  - assert (i ≠ len). { intros ->. apply E. rewrite Hs. apply Hz. lia. }
    apply IH; [lia..| |].
    + eapply outside_trans; [done|]. apply outside_upd. lia.
    + intros j Hj. destruct (decide (j = i)) as [->|]; [by rewrite upd_eq|].
      rewrite upd_ne by lia. apply H. lia.
  - assert (i = len) as ->.
    { destruct (decide (i = len)) as [|]; [done|]. exfalso. apply (Hnz i); [lia|]. congruence. }
    exists m. done.
Qed.

Lemma strncmp_from_refl s1 s2 i k m :
  (∀ j, i ≤ j < i + Z.of_nat k → m (s1 + j) = m (s2 + j)) →
  strncmp_from s1 s2 i k m = Done (0, m).
Proof.
  revert i. induction k as [|k IH]; intros i H; [done|].
  cbn [strncmp_from]. unfold rd, gets, mbind, M_bind.
  rewrite decide_False by (intros Hn; apply Hn, H; lia). case_decide; [done|].
  apply IH. intros j Hj. apply H. lia.
Qed.
End facts.

(** ** Theorems *)

(** C36: [memmove] copies overlapping regions correctly. Wherever the two
    regions lie (addresses below [2^64]), byte [i] of the destination ends up
    with the byte the source held before, nothing outside the destination
    changes, and the destination is answered. *)
Theorem memmove_correct dest src n m :
  0 ≤ n → in_u 64 dest → in_u 64 src →
  ∃ m', memmove dest src n m = Done (dest, m') ∧ outside dest n m m' ∧
    ∀ i, 0 ≤ i < n → m' (dest + i) = m (src + i).
Proof.
  intros Hn [Hd0 Hd] [Hs0 Hs]. unfold memmove.
  assert (∃ k, n = Z.of_nat k) as [k ->] by (exists (Z.to_nat n); lia). rewrite Nat2Z.id.
  destruct (decide (src < dest < src + Z.of_nat k)) as [Hin|Hout].
  - rewrite bool_decide_true by lia. rewrite wrap_small by (split; lia).
    rewrite bool_decide_true by lia. simpl.
    destruct (move_down_spec dest src k m) as (m' & E & O & H1); [lia|].
    exists m'. by m_step E.
  - assert (bool_decide (src < dest) && bool_decide (u64 (dest - src) < Z.of_nat k) = false) as ->.
    { case_bool_decide; [|done]. rewrite wrap_small by (split; lia).
      apply bool_decide_false. lia. }
    destruct (move_up_spec dest src k m) as (m' & E & O & H1); [lia|].
    exists m'. by m_step E.
Qed.

(** The bytes 5, 6, 7 at address 10. *)
Definition sample_mem : mem := upd 10 5 (upd 11 6 (upd 12 7 (λ _, 0))).

Lemma memmove_correct_witness : ∃ m', memmove 11 10 3 sample_mem = Done (11, m') ∧
  m' 13 = 7 ∧ m' 11 = 5.
Proof.
  destruct (memmove_correct 11 10 3 sample_mem) as (m' & E & _ & H); [lia|done..|].
  exists m'. split; [done|]. split; [apply (H 2)|apply (H 0)]; lia.
Defined.

(** [memcmp] compares. It answers 0 exactly when the two regions hold the
    same bytes, and otherwise the difference of the first bytes that differ. *)
Theorem memcmp_correct s1 s2 n m : 0 ≤ n →
  ∃ r, memcmp s1 s2 n m = Done (r, m) ∧
    (r = 0 ↔ ∀ i, 0 ≤ i < n → m (s1 + i) = m (s2 + i)) ∧
    (r ≠ 0 → ∃ i, 0 ≤ i < n ∧ r = m (s1 + i) - m (s2 + i) ∧
       ∀ j, 0 ≤ j < i → m (s1 + j) = m (s2 + j)).
Proof.
  intros Hn. unfold memcmp.
  destruct (memcmp_from_spec s1 s2 0 (Z.to_nat n) m) as [[E H]|(j & Hj & Hne & Hb & E)];
    rewrite Z2Nat.id in * by done; rewrite E; eexists; (split; [done|]).
  - split; [|done]. split; [|done]. intros _ i Hi. apply H. lia.
  - split.
    + split; [lia|]. intros Hall. exfalso. apply Hne, Hall. lia.
    + intros _. exists j. split_and!; [lia..|done|]. intros j' Hj'. apply Hb. lia.
Qed.

Lemma memcmp_correct_witness : ∃ r, memcmp 10 11 2 sample_mem = Done (r, sample_mem) ∧ r = -1.
Proof.
  destruct (memcmp_correct 10 11 2 sample_mem) as (r & E & _); [lia|].
  exists r. split; [exact E|]. vm_compute in E. by injection E.
Defined.

(** [strncpy] and [strlen]. When the string at [src] has its first nul at
    [len] (or no nul in [n] bytes, [len = n]) and the regions are disjoint,
    [strncpy] writes the [len] characters and pads with zeroes up to [n];
    [strlen] answers [len] when the nul is there and it has the fuel. *)
Theorem strncpy_strlen dest src n len fuel m :
  first_nul m src n len → (dest + n ≤ src ∨ src + n ≤ dest) →
  (∃ m', strncpy dest src n m = Done (dest, m') ∧ outside dest n m m' ∧
    (∀ i, 0 ≤ i < len → m' (dest + i) = m (src + i)) ∧
    (∀ i, len ≤ i < n → m' (dest + i) = 0)) ∧
  (len < n → (Z.to_nat len < fuel)%nat → strlen fuel src m = Done (len, m)).
Proof.
  intros Hf Hd. pose proof Hf as (Hl & Hnz & Hz). split.
  - destruct (copy_until_nul_spec dest src n len 0 (Z.to_nat n) m m) as (m1 & E1 & O1 & H1);
      [done|done|lia|lia|done|lia|].
    destruct (for_seq_rule (λ i, wr (dest + i) 0)
      (λ i m', outside dest n m m' ∧ (∀ j, 0 ≤ j < len → m' (dest + j) = m (src + j)) ∧
               ∀ j, len ≤ j < i → m' (dest + j) = 0) len (n - len)) with (s := m1)
      as ([] & m2 & E2 & O2 & H2 & H3).
    + lia.
    + intros i m3 Hi (O & Ha & Hb). eexists. split; [done|]. split_and!.
      * eapply outside_trans; [done|]. apply outside_upd. lia.
      * intros j Hj. rewrite upd_ne by lia. by apply Ha.
      * intros j Hj. unfold upd. case_decide; [done|]. apply Hb. lia.
    + split_and!; [done|done|lia].
    + exists m2. split_and!; [|done|done|intros i Hi; apply H3; lia].
      unfold strncpy. m_step E1. by m_step E2.
  - intros Hlt Hfu. unfold strlen.
    assert (H : ∀ k i, 0 ≤ i ≤ len → (Z.to_nat (len - i) < k)%nat →
      loop k (λ i, c ← rd (src + i); mret (if decide (c ≠ 0) then inl (i + 1) else inr i)) i m
      = Done (len, m)).
    { induction k as [|k IH]; intros i Hi Hk; [lia|]. rewrite loop_S.
      unfold rd, gets, mbind, M_bind, mret, M_ret. case_decide as E.
      - assert (i ≠ len) by (intros ->; apply E, Hz; lia). apply IH; lia.
      - destruct (decide (i = len)) as [->|]; [done|]. exfalso. apply (Hnz i); [lia|done]. }
    apply H; [lia|]. by rewrite Z.sub_0_r.
Qed.

Lemma strncpy_strlen_witness : strlen 4 10 sample_mem = Done (3, sample_mem).
Proof.
  apply (strncpy_strlen 20 10 5 3 4 sample_mem); [|lia|lia|lia].
  split; [lia|]. split; [|done]. intros i Hi.
  assert (i = 0 ∨ i = 1 ∨ i = 2) as [->|[->| ->]] by lia; done.
Defined.
