(* ===== verification/Kalloc.v ===== *)
(** * The page and block allocators ([kernel/mem.c])

    Pages and blocks live in the byte memory; free ones are chained through
    their first word ([QueueNode.next]).  The queue operations are those of
    [common/list.c] run without interference (their interleavings are in
    [LockFree.v]).  The addresses of the globals [free_page] and
    [simple_alloc_pool] are chosen by the linker and are parameters. *)
From S2P Require Import Prelude Words Atomics Memory Strings LockFree.

(** ** Queues of free nodes in memory *)

(** [fetch_from_queue(head)]: the compare-and-swap finds [*head] unchanged. *)
Definition fetch_from_queue (hd : Z) : M mem Z :=
  node ← rd64 hd;
  if decide (node = 0) then mret node
  else n ← rd64 node; wr64 hd n;; mret node.
Definition add_to_queue (hd node : Z) : M mem Z :=
  v ← rd64 hd; wr64 node v;; wr64 hd node;; mret node.
Definition fetch_all_from_queue (hd : Z) : M mem Z :=
  v ← rd64 hd; wr64 hd 0;; mret v.

Definition PAGE_SIZE : Z := 4096.
Definition PHYSTOP : Z := 0x3f000000.
Definition KSPACE_MASK : Z := 0xffff000000000000.
Definition P2K (addr : Z) : Z := u64 (addr + KSPACE_MASK).
Definition K2P (addr : Z) : Z := u64 (addr - KSPACE_MASK).

Record kstate := mkK { kmem : mem; alloc_page_cnt : Z }.

Definition on_mem {A} (m : M mem A) : M kstate A := λ s,
  match m (kmem s) with
  | Done (a, m') => Done (a, mkK m' (alloc_page_cnt s))
  | Panic => Panic | Crash => Crash | NoFuel => NoFuel
  end.
Definition on_cnt {A} (m : M Z A) : M kstate A := λ s,
  match m (alloc_page_cnt s) with
  | Done (a, c) => Done (a, mkK (kmem s) c)
  | Panic => Panic | Crash => Crash | NoFuel => NoFuel
  end.

Lemma on_mem_done {A} (m : M mem A) s a m' : m (kmem s) = Done (a, m') →
  on_mem m s = Done (a, mkK m' (alloc_page_cnt s)).
Proof. intros E. unfold on_mem. by rewrite E. Qed.

(** [__builtin_clz] of a non-zero 32-bit value. *)
Definition clz (x : Z) : Z := 31 - Z.log2 x.

(** The size class of a request and the chunk size of a class. *)
Definition pool_index (size : Z) : Z := u32 (32 - clz (u32 (size + 8 - 1)) - 4).
Definition chunk_size (i : Z) : Z := u32 (Z.shiftl 16 i).

Section allocator.
(** [&free_page] and [simple_alloc_pool]. *)
Context (free_page simple_alloc_pool : Z).

Definition pool (i : Z) : Z := simple_alloc_pool + 8 * i.

Definition kalloc_page : M kstate Z :=
  on_cnt Rc._increment_rc;; on_mem (fetch_from_queue free_page).
Definition kfree_page (p : Z) : M kstate unit :=
  on_cnt Rc._decrement_rc;; on_mem (add_to_queue free_page p);; mret tt.

(** [for (unsigned o = s; o < PAGE_SIZE; o += s) add_to_queue(...)]. *)
Definition carve (i r s : Z) : M kstate unit :=
  loop 257 (λ o,
    if decide (o < PAGE_SIZE) then
      on_mem (add_to_queue (pool i) (r + o));; mret (inl (u32 (o + s)))
    else mret (inr tt)) s.

(** The node taken from pool [i], which is filled from a page when empty. *)
Definition pool_take (i : Z) : M kstate Z :=
  r ← on_mem (fetch_from_queue (pool i));
  if decide (r = 0) then
    r ← kalloc_page;
    if decide (r = 0) then mret 0
    else carve i r (chunk_size i);; mret r
  else mret r.

Definition simple_pool_alloc (size : Z) : M kstate Z :=
  if decide (size > PAGE_SIZE - 8 ∨ size ≤ 0) then mret 0
  else
    (if decide (size > PAGE_SIZE / 2 - 8) then kalloc_page;; mret tt else mret tt);;
    let i := pool_index size in
    r ← pool_take i;
    if decide (r = 0) then mret 0
    else
      on_mem (wr64 r (pool i));;
      on_mem (memset (r + 8) 0 (u32 size));;
      mret (r + 8).

Definition simple_pool_free (p : Z) : M kstate unit :=
  h ← on_mem (rd64 (p - 8)); on_mem (add_to_queue h (p - 8));; mret tt.

(** [define_early_init(mem)]: every page from [end] to [PHYSTOP]. *)
Definition first_page (end_ : Z) : Z := i32 (u64 (u64 (end_ + PAGE_SIZE) - 1) / PAGE_SIZE).
Definition init_mem (end_ : Z) : M kstate unit :=
  for_each (seqZ (first_page end_) (PHYSTOP / PAGE_SIZE - first_page end_))
    (λ i, kfree_page (P2K (i * PAGE_SIZE))).
End allocator.

(** ** Regions *)

(** [(b, n)] is the region of [n] bytes at [b]. *)
Definition apart (r1 r2 : Z * Z) : Prop := r1.1 + r1.2 ≤ r2.1 ∨ r2.1 + r2.2 ≤ r1.1.

Fixpoint no_overlap (rs : list (Z * Z)) : Prop :=
  match rs with [] => True | r :: rs' => Forall (apart r) rs' ∧ no_overlap rs' end.

#[export] Instance apart_dec r1 r2 : Decision (apart r1 r2).
Proof. unfold apart. apply _. Defined.
#[export] Instance no_overlap_dec rs : Decision (no_overlap rs).
Proof. induction rs; simpl; apply _. Defined.

(** [m'] agrees with [m] outside of the regions [rs]. *)
Definition agree_off (rs : list (Z * Z)) (m m' : mem) : Prop :=
  ∀ a, Forall (λ r, ¬ (r.1 ≤ a < r.1 + r.2)) rs → m' a = m a.

Lemma apart_sym r1 r2 : apart r1 r2 → apart r2 r1.
Proof. unfold apart. tauto. Qed.

#[export] Instance no_overlap_perm : Proper ((≡ₚ) ==> iff) no_overlap.
Proof.
  assert (H : ∀ l1 l2, l1 ≡ₚ l2 → no_overlap l1 → no_overlap l2).
  { intros k1 k2 H. induction H as [|r l1 l2 Hp IH|r1 r2 l|l1 l2 l3 H12 IH1 H23 IH2]; simpl;
      [done| | |by auto].
    - intros [H1 H2]. split; [by rewrite <-Hp|auto].
    - rewrite !Forall_cons. intros [[H1 H2] [H3 H4]].
      split_and!; [by apply apart_sym|done..]. }
  intros l1 l2 Hp. split; apply H; [done|by symmetry].
Qed.

Lemma no_overlap_app l1 l2 :
  no_overlap (l1 ++ l2) ↔ no_overlap l1 ∧ no_overlap l2 ∧ ∀ r1 r2, r1 ∈ l1 → r2 ∈ l2 → apart r1 r2.
Proof.
  induction l1 as [|r l1 IH]; simpl.
  - split; [|tauto]. intros H. split_and!; [done|done|by intros ?? ?%elem_of_nil].
  - rewrite Forall_app, IH, !Forall_forall. set_solver.
Qed.

(** Two regions listed at different places are apart. *)
Lemma no_overlap_lookup rs i j r1 r2 :
  no_overlap rs → rs !! i = Some r1 → rs !! j = Some r2 → i ≠ j → apart r1 r2.
Proof.
  revert i j. induction rs as [|r rs IH]; intros i j H Hi Hj Hij; [done|].
  destruct H as [H1 H2].
  rewrite Forall_forall in H1.
  destruct i as [|i], j as [|j]; simplify_eq/=.
  - apply H1. by eapply list_elem_of_lookup_2.
  - apply apart_sym, H1. by eapply list_elem_of_lookup_2.
  - eapply (IH i j); [done..|]. congruence.
Qed.

Lemma agree_off_refl rs m : agree_off rs m m.
Proof. done. Qed.
Lemma agree_off_trans rs m1 m2 m3 : agree_off rs m1 m2 → agree_off rs m2 m3 → agree_off rs m1 m3.
Proof. intros H1 H2 a Ha. by rewrite H2, H1. Qed.
Lemma agree_off_outside rs p n m m' : (p, n) ∈ rs → outside p n m m' → agree_off rs m m'.
Proof. intros Hp H a Ha. apply H. rewrite Forall_forall in Ha. exact (Ha _ Hp). Qed.
Lemma agree_off_load n rs m m' p : agree_off rs m m' →
  Forall (apart (p, Z.of_nat n)) rs → load n m' p = load n m p.
Proof.
  intros H Hd. apply load_ext. intros a Ha. apply H. eapply Forall_impl; [exact Hd|].
  intros [b k]. unfold apart. simpl. lia.
Qed.

(** A region whose bytes all lie in a region of [rs]. *)
Definition inside (r : Z * Z) (rs : list (Z * Z)) : Prop :=
  ∃ r', r' ∈ rs ∧ r'.1 ≤ r.1 ∧ r.1 + r.2 ≤ r'.1 + r'.2.
Lemma agree_off_mono rs rs' m m' :
  (∀ r, r ∈ rs → inside r rs') → agree_off rs m m' → agree_off rs' m m'.
Proof.
  intros Hi H a Ha. apply H, Forall_forall. intros r Hr Hc.
  destruct (Hi r Hr) as (r' & Hr' & ?). rewrite Forall_forall in Ha. apply (Ha r' Hr'). lia.
Qed.

(** ** The allocator's invariant

    A free queue is given by the address of its head, the size of its nodes,
    and its nodes in order; a live region is one handed to a client, with the
    word it must keep in front if any. *)
Abbreviation queue := ((Z * Z) * list Z)%type.
Abbreviation live := ((Z * Z) * option Z)%type.

Definition qrep (m : mem) (hd : Z) (l : list Z) : Prop := chain (load64 m) (load64 m hd) l.

Definition q_regions (q : queue) : list (Z * Z) := (λ p, (p, q.1.2)) <$> q.2.
Definition regions (qs : list queue) (lv : list live) : list (Z * Z) :=
  ((λ q : queue, (q.1.1, 8)) <$> qs) ++ (qs ≫= q_regions) ++ lv.*1.

Definition live_ok (m : mem) (l : live) : Prop :=
  8 ≤ l.1.2 ∧ match l.2 with Some v => load64 m l.1.1 = v | None => True end.

Record wf (m : mem) (qs : list queue) (lv : list live) : Prop := {
  wf_bytes : bytes m;
  wf_apart : no_overlap (regions qs lv);
  wf_range : Forall (λ r, 0 < r.1 ∧ r.1 + r.2 ≤ 2 ^ 64) (regions qs lv);
  wf_queues : Forall (λ q : queue, 8 ≤ q.1.2 ∧ qrep m q.1.1 q.2) qs;
  wf_live : Forall (live_ok m) lv
}.

Section wf_lemmas.
Implicit Types (m : mem) (qs : list queue) (lv : list live) (rs : list (Z * Z)).

Lemma qrep_frame rs m m' hd l : agree_off rs m m' →
  Forall (apart (hd, 8)) rs → (∀ p, p ∈ l → Forall (apart (p, 8)) rs) →
  qrep m hd l → qrep m' hd l.
Proof.
  intros H Hh Hl. unfold qrep. rewrite (agree_off_load 8 rs m m' hd) by done.
  apply chain_ext. intros q Hq. by apply (agree_off_load 8 rs), Hl.
Qed.

(** Isolate one queue of the list. *)
Lemma regions_queue qs lv k h n l l' lv' :
  qs !! k = Some ((h, n), l) →
  ∃ rest, regions qs lv ≡ₚ (h, 8) :: ((λ p, (p, n)) <$> l) ++ lv.*1 ++ rest ∧
    regions (<[k := ((h, n), l')]> qs) lv' ≡ₚ
      (h, 8) :: ((λ p, (p, n)) <$> l') ++ lv'.*1 ++ rest ∧
    (∀ j q, qs !! j = Some q → j ≠ k →
      (q.1.1, 8) ∈ rest ∧ ∀ p, p ∈ q.2 → (p, q.1.2) ∈ rest).
Proof.
  intros Hk. pose proof (take_drop_middle _ _ _ Hk) as E.
  assert (Hlt := lookup_lt_Some _ _ _ Hk).
  assert (E' : <[k := ((h, n), l')]> qs = take k qs ++ ((h, n), l') :: drop (S k) qs).
  { by rewrite insert_take_drop. }
  set (others := take k qs ++ drop (S k) qs).
  exists (((λ q : queue, (q.1.1, 8)) <$> others) ++ (others ≫= q_regions)).
  split_and!.
  - rewrite <-E at 1. unfold regions, others.
    rewrite !fmap_app, !bind_app, fmap_cons, bind_cons. unfold q_regions at 2. simpl.
    solve_Permutation.
  - rewrite E'. unfold regions, others.
    rewrite !fmap_app, !bind_app, fmap_cons, bind_cons. unfold q_regions at 2. simpl.
    solve_Permutation.
  - intros j q Hj Hjk. assert (Hq : q ∈ others).
    { rewrite <-E in Hj. unfold others. apply list_elem_of_lookup_2 in Hj as Hm.
      apply elem_of_app. destruct (decide (j < k)%nat).
      - left. rewrite lookup_app_l in Hj by (rewrite length_take; lia).
        by eapply list_elem_of_lookup_2.
      - right. rewrite lookup_app_r in Hj by (rewrite length_take; lia).
        rewrite length_take, Nat.min_l in Hj by lia.
        destruct (j - k)%nat as [|i] eqn:Ei; [lia|]. by eapply list_elem_of_lookup_2. }
    split.
    + apply elem_of_app. left. apply list_elem_of_fmap. eauto.
    + intros p Hp. apply elem_of_app. right. apply list_elem_of_bind. exists q.
      split; [|done]. apply list_elem_of_fmap. eauto.
Qed.
(** What a free queue and a live region look like from the others. *)
Lemma wf_other_queues m m' qs lv k (q : queue) rs (rest : list (Z * Z)) : wf m qs lv → agree_off rs m m' →
  (∀ r, r ∈ rest → Forall (apart r) rs) →
  (∀ j q', qs !! j = Some q' → j ≠ k →
      (q'.1.1, 8) ∈ rest ∧ ∀ p, p ∈ q'.2 → (p, q'.1.2) ∈ rest) →
  8 ≤ q.1.2 → qrep m' q.1.1 q.2 →
  Forall (λ q : queue, 8 ≤ q.1.2 ∧ qrep m' q.1.1 q.2) (<[k := q]> qs).
Proof.
  intros W A Hrest Hq Hn Hr. apply Forall_lookup. intros j q' Hj.
  destruct (decide (j = k)) as [->|Hjk].
  - assert (k < length qs)%nat by (apply lookup_lt_Some in Hj; by rewrite length_insert in Hj).
    rewrite list_lookup_insert_eq in Hj by done. by simplify_eq.
  - rewrite list_lookup_insert_ne in Hj by done.
    pose proof (wf_queues _ _ _ W) as Wq. rewrite Forall_lookup in Wq.
    destruct (Wq _ _ Hj) as [H8 Hrep]. destruct (Hq j q' Hj Hjk) as [Hh Hp].
    split; [done|]. eapply qrep_frame; [done|by apply Hrest| |done].
    intros p Hm. eapply Forall_impl; [by apply Hrest, Hp|].
    intros r. unfold apart. simpl. lia.
Qed.

Lemma live_frame m m' rs l : live_ok m l → agree_off rs m m' →
  Forall (apart l.1) rs → live_ok m' l.
Proof.
  intros [H8 Hv] A Hd. split; [done|]. destruct (l.2) as [v|]; [|done].
  rewrite <-Hv. apply (agree_off_load 8 rs); [done|].
  eapply Forall_impl; [exact Hd|]. intros r. unfold apart. simpl. lia.
Qed.

(** The regions apart from some of them, read off a permutation. *)
Lemma no_overlap_split rs1 rs2 rs : no_overlap rs → rs ≡ₚ rs1 ++ rs2 →
  ∀ r, r ∈ rs2 → Forall (apart r) rs1.
Proof.
  intros H Hp r Hr. rewrite Hp in H. apply no_overlap_app in H as (_ & _ & H).
  apply Forall_forall. intros r1 Hr1. by apply apart_sym, H.
Qed.

(** The bytes of the live regions are kept. *)
Definition kept (lv : list live) (m m' : mem) : Prop :=
  ∀ x a, x ∈ lv → x.1.1 ≤ a < x.1.1 + x.1.2 → m' a = m a.

Lemma kept_intro rs lv m m' : agree_off rs m m' →
  (∀ x, x ∈ lv → Forall (apart x.1) rs) → kept lv m m'.
Proof.
  intros H Hd x a Hx Ha. apply H. eapply Forall_impl; [by apply Hd|].
  intros r. unfold apart. simpl. lia.
Qed.
Lemma kept_trans lv m1 m2 m3 : kept lv m1 m2 → kept lv m2 m3 → kept lv m1 m3.
Proof. intros H1 H2 x a Hx Ha. by rewrite (H2 x), (H1 x). Qed.
Lemma kept_cons x lv m m' : kept (x :: lv) m m' → kept lv m m'.
Proof. intros H y a Hy. apply H. by right. Qed.
Lemma kept_mono lv lv' m m' : lv ⊆ lv' → kept lv' m m' → kept lv m m'.
Proof. intros Hs H x a Hx. by apply H, Hs. Qed.

(** [fetch_from_queue] on a non-empty queue takes its first node, which
    becomes a live region. *)
Lemma fetch_wf m qs lv k h n p l : wf m qs lv → qs !! k = Some ((h, n), p :: l) →
  ∃ m', fetch_from_queue h m = Done (p, m') ∧ kept lv m m' ∧
    wf m' (<[k := ((h, n), l)]> qs) (((p, n), None) :: lv).
Proof.
  intros W Hk. pose proof (wf_queues _ _ _ W) as Wq. rewrite Forall_lookup in Wq.
  destruct (Wq _ _ Hk) as [H8 (Hp & Hp0 & Hc)]. simpl in *.
  assert (Hb := load_bounds 8 m p (wf_bytes _ _ _ W)).
  set (m' := store64 h (load64 m p) m).
  destruct (regions_queue qs lv k h n (p :: l) l (((p, n), None) :: lv) Hk)
    as (rest & E1 & E2 & Hoth).
  assert (O : agree_off [(h, 8)] m m').
  { apply (agree_off_outside _ h 8); [set_solver|]. apply (store_outside 8). }
  assert (Hap : ∀ r, r ∈ ((λ p, (p, n)) <$> (p :: l)) ++ lv.*1 ++ rest →
    Forall (apart r) [(h, 8)]).
  { apply (no_overlap_split [(h, 8)] _ _ (wf_apart _ _ _ W)). exact E1. }
  assert (Hlv : ∀ x, x ∈ lv → Forall (apart x.1) [(h, 8)]).
  { intros x Hx. apply Hap. apply elem_of_app. right. apply elem_of_app. left.
    apply list_elem_of_fmap. eauto. }
  exists m'. split_and!; [|by eapply kept_intro|].
  { unfold fetch_from_queue, rd64, wr64. m_unfold. rewrite Hp, decide_False by done. done. }
  assert (Hperm : regions (<[k := ((h, n), l)]> qs) (((p, n), None) :: lv) ≡ₚ regions qs lv).
  { rewrite E1, E2. simpl. solve_Permutation. }
  split.
  - apply store_bytes, W.
  - rewrite Hperm. apply W.
  - rewrite Hperm. apply W.
  - eapply (wf_other_queues _ _ _ _ _ _ _ rest); [done|done| |done|done|].
    { intros r Hr. apply Hap. set_solver. }
    simpl. unfold qrep, m'. rewrite load_store_eq by done.
    eapply chain_ext; [|done]. intros q Hq. apply (agree_off_load 8 [(h, 8)]); [done|].
    eapply Forall_impl; [apply (Hap (q, n)); set_solver|].
    intros r. unfold apart. simpl. lia.
  - apply Forall_cons. split; [done|]. apply Forall_forall. intros x Hx.
    pose proof (wf_live _ _ _ W) as Wl. rewrite Forall_forall in Wl.
    eapply live_frame; [by apply Wl|done|]. by apply Hlv.
Qed.

Lemma fetch_empty h n m qs lv k : wf m qs lv → qs !! k = Some ((h, n), []) →
  fetch_from_queue h m = Done (0, m).
Proof.
  intros W Hk. pose proof (wf_queues _ _ _ W) as Wq. rewrite Forall_lookup in Wq.
  destruct (Wq _ _ Hk) as [_ Hp]. unfold qrep in Hp. simpl in Hp.
  unfold fetch_from_queue, rd64. m_unfold. by rewrite Hp, decide_True.
Qed.

(** An address handed out is in no free queue. *)
Lemma live_not_queued m qs lv p n v (q : queue) : wf m qs lv → ((p, n), v) ∈ lv → q ∈ qs → p ∉ q.2.
Proof.
  intros W Hl Hq Hp. pose proof (wf_apart _ _ _ W) as A. unfold regions in A.
  rewrite !no_overlap_app in A. destruct A as (_ & (_ & _ & A) & _).
  pose proof (wf_queues _ _ _ W) as Q. rewrite Forall_forall in Q. destruct (Q q Hq) as [Q8 _].
  pose proof (wf_live _ _ _ W) as L. rewrite Forall_forall in L.
  destruct (L _ Hl) as [L8 _]. simpl in L8.
  assert (B : apart (p, q.1.2) (p, n)).
  { apply A.
    - apply list_elem_of_bind. exists q. split; [|done]. apply list_elem_of_fmap. eauto.
    - apply list_elem_of_fmap. by exists (p, n, v). }
  unfold apart in B. simpl in B. lia.
Qed.

(** [add_to_queue] gives a live region of the right size back to a queue. *)
Lemma add_wf m qs lv k h n p v l : wf m qs (((p, n), v) :: lv) → qs !! k = Some ((h, n), l) →
  ∃ m', add_to_queue h p m = Done (p, m') ∧ kept lv m m' ∧
    wf m' (<[k := ((h, n), p :: l)]> qs) lv.
Proof.
  intros W Hk. pose proof (wf_queues _ _ _ W) as Wq. rewrite Forall_lookup in Wq.
  destruct (Wq _ _ Hk) as [H8 Hc]. simpl in *.
  assert (Hb := load_bounds 8 m h (wf_bytes _ _ _ W)).
  set (m1 := store64 p (load64 m h) m). set (m' := store64 h p m1).
  destruct (regions_queue qs (((p, n), v) :: lv) k h n l (p :: l) lv Hk)
    as (rest & E1 & E2 & Hoth).
  assert (O1 : agree_off [(h, 8); (p, n)] m m1).
  { apply (agree_off_outside _ p n); [set_solver|].
    eapply outside_mono; [..|apply (store_outside 8)]; lia. }
  assert (O : agree_off [(h, 8); (p, n)] m m').
  { eapply agree_off_trans; [exact O1|]. apply (agree_off_outside _ h 8); [set_solver|].
    apply (store_outside 8). }
  assert (Hap : ∀ r, r ∈ ((λ p, (p, n)) <$> l) ++ lv.*1 ++ rest →
    Forall (apart r) [(h, 8); (p, n)]).
  { apply (no_overlap_split [(h, 8); (p, n)] _ _ (wf_apart _ _ _ W)). rewrite E1. simpl.
    solve_Permutation. }
  assert (Hr : 0 < p ∧ p + n ≤ 2 ^ 64).
  { pose proof (wf_range _ _ _ W) as R. rewrite E1, Forall_forall in R.
    apply (R (p, n)). simpl. set_solver. }
  assert (Hph : apart (p, n) (h, 8)).
  { pose proof (wf_apart _ _ _ W) as A. rewrite E1 in A. destruct A as [A _].
    rewrite Forall_forall in A. apply apart_sym, A. simpl. set_solver. }
  assert (Hperm : regions (<[k := ((h, n), p :: l)]> qs) lv ≡ₚ regions qs (((p, n), v) :: lv)).
  { rewrite E1, E2. simpl. solve_Permutation. }
  assert (Hlv : ∀ x, x ∈ lv → Forall (apart x.1) [(h, 8); (p, n)]).
  { intros x Hx. apply Hap. apply elem_of_app. right. apply elem_of_app. left.
    apply list_elem_of_fmap. eauto. }
  exists m'. split_and!; [done|by eapply kept_intro|]. split.
  - by apply store_bytes, store_bytes, W.
  - rewrite Hperm. apply W.
  - rewrite Hperm. apply W.
  - eapply (wf_other_queues _ _ _ _ _ _ _ rest); [done|done| |done|done|].
    { intros r Hr'. apply Hap. set_solver. }
    simpl. unfold qrep. simpl. unfold m' at 1. rewrite load_store_eq by (simpl; lia).
    split_and!; [done|lia|].
    assert (load64 m' p = load64 m h) as ->.
    { unfold m'. rewrite load_store_ne by (unfold apart in Hph; simpl in *; lia).
      unfold m1. by rewrite load_store_eq. }
    eapply chain_ext; [|done]. intros q Hq. eapply agree_off_load; [exact O|].
    eapply Forall_impl; [apply (Hap (q, n)); set_solver|].
    intros r. unfold apart. simpl. lia.
  - pose proof (wf_live _ _ _ W) as Wl. apply Forall_cons in Wl as [_ Wl].
    apply Forall_forall. intros x Hx. rewrite Forall_forall in Wl.
    eapply live_frame; [by apply Wl|done|]. by apply Hlv.
Qed.

(** A client may write anywhere inside a live region. *)
Lemma write_wf m m' qs lv p n v v' : wf m qs (((p, n), v) :: lv) →
  agree_off [(p, n)] m m' → bytes m' → live_ok m' ((p, n), v') →
  wf m' qs (((p, n), v') :: lv) ∧ kept lv m m'.
Proof.
  intros W A Hb Hv.
  assert (E : regions qs (((p, n), v) :: lv) ≡ₚ [(p, n)] ++ regions qs lv).
  { unfold regions. simpl. solve_Permutation. }
  pose proof (no_overlap_split _ _ _ (wf_apart _ _ _ W) E) as Hap.
  assert (Hq : ∀ j q, qs !! j = Some q →
    (q.1.1, 8) ∈ regions qs lv ∧ ∀ p, p ∈ q.2 → (p, q.1.2) ∈ regions qs lv).
  { intros j q Hj. apply list_elem_of_lookup_2 in Hj. unfold regions. split.
    - apply elem_of_app. left. apply list_elem_of_fmap. eauto.
    - intros p' Hp. apply elem_of_app. right. apply elem_of_app. left.
      apply list_elem_of_bind. exists q. split; [|done]. apply list_elem_of_fmap. eauto. }
  assert (Hlv : ∀ x, x ∈ lv → Forall (apart x.1) [(p, n)]).
  { intros x Hx. apply Hap. unfold regions. apply elem_of_app. right.
    apply elem_of_app. right. apply list_elem_of_fmap. eauto. }
  destruct W as [Wb Wa Wr Wq Wl]. split; [|by eapply kept_intro].
  split; [done|done|done| |].
  - apply Forall_lookup. intros j q Hj. rewrite Forall_lookup in Wq.
    destruct (Wq _ _ Hj) as [H8 Hrep]. destruct (Hq j q Hj) as [Hh Hp]. split; [done|].
    eapply qrep_frame; [done|by apply Hap| |done]. intros p' Hm.
    eapply Forall_impl; [by apply Hap, Hp|]. intros r. unfold apart. simpl. lia.
  - apply Forall_cons in Wl as [_ Wl]. apply Forall_cons. split; [done|].
    apply Forall_forall. intros x Hx. rewrite Forall_forall in Wl.
    eapply live_frame; [by apply Wl|done|]. by apply Hlv.
Qed.

(** The chunks of size [n] that fill [k * n] bytes from [p]. *)
Definition chunks (p n : Z) (k : nat) : list live :=
  (λ i, ((p + n * i, n), None)) <$> seqZ 0 (Z.of_nat k).

Lemma chunks_S p n k : chunks p n (S k) = ((p, n), None) :: chunks (p + n) n k.
Proof.
  unfold chunks. rewrite seqZ_cons by lia. rewrite fmap_cons.
  replace (p + n * 0) with p by lia. f_equal.
  replace (Z.pred (Z.of_nat (S k))) with (Z.of_nat k) by lia.
  change (Z.succ 0) with (1 + 0). rewrite <-fmap_add_seqZ, <-list_fmap_compose.
  apply list_fmap_ext. intros i x _. simpl. do 2 f_equal. lia.
Qed.

Lemma split_apart p n k r : 0 < n → apart r (p, n * Z.of_nat k) →
  Forall (apart r) (chunks p n k).*1.
Proof.
  intros Hn Hr. apply Forall_forall. intros r'. unfold chunks.
  rewrite <-list_fmap_compose. intros (i & -> & Hi)%list_elem_of_fmap.
  apply elem_of_seqZ in Hi. revert Hr. unfold apart. simpl. nia.
Qed.

Lemma chunks_no_overlap p n k : 0 < n → no_overlap (chunks p n k).*1.
Proof.
  intros Hn. revert p. induction k as [|k IH]; intros p; [done|].
  rewrite chunks_S. simpl. split; [|apply IH].
  apply split_apart; [done|]. unfold apart. simpl. lia.
Qed.

(** A live region may be seen as the chunks that fill it. *)
Lemma split_wf m qs lv p n k : 8 ≤ n → wf m qs (((p, n * Z.of_nat k), None) :: lv) →
  wf m qs (chunks p n k ++ lv).
Proof.
  intros Hn [Wb Wa Wr Wq Wl].
  assert (E : regions qs (((p, n * Z.of_nat k), None) :: lv) ≡ₚ
              (p, n * Z.of_nat k) :: regions qs lv).
  { unfold regions. simpl. solve_Permutation. }
  assert (E' : regions qs (chunks p n k ++ lv) ≡ₚ (chunks p n k).*1 ++ regions qs lv).
  { unfold regions. rewrite fmap_app. solve_Permutation. }
  rewrite E in Wa, Wr. destruct Wa as [Wa1 Wa2]. apply Forall_cons in Wr as [Wr1 Wr2].
  rewrite Forall_forall in Wa1. split; [done| | |done|].
  - rewrite E'. apply no_overlap_app. split_and!; [apply chunks_no_overlap; lia|done|].
    intros r1 r2 H1 H2. apply apart_sym.
    pose proof (split_apart p n k r2) as Hs. rewrite Forall_forall in Hs.
    apply Hs; [lia| |done]. by apply apart_sym, Wa1.
  - rewrite E'. apply Forall_app. split; [|done]. apply Forall_forall. intros r.
    unfold chunks. rewrite <-list_fmap_compose. intros (i & -> & Hi)%list_elem_of_fmap.
    apply elem_of_seqZ in Hi. simpl in *. nia.
  - apply Forall_cons in Wl as [_ Wl]. apply Forall_app. split; [|done].
    apply Forall_forall. intros x (i & -> & _)%list_elem_of_fmap. by split.
Qed.
End wf_lemmas.

(** ** The operations of [mem.c] under the invariant *)

(** The size classes: for a request of at most a page less the header, the
    class is one of 0..8, and its chunks fit the header and the request, divide
    the page, and are the smallest ones that do (or the smallest there are). *)
Lemma size_class size : 0 < size ≤ 4088 →
  ∃ i : nat, (i ≤ 8)%nat ∧ pool_index size = Z.of_nat i ∧
    chunk_size (pool_index size) = 16 * 2 ^ Z.of_nat i ∧
    size + 8 ≤ 16 * 2 ^ Z.of_nat i ∧ 16 * 2 ^ Z.of_nat i * 2 ^ (8 - Z.of_nat i) = 4096 ∧
    (i = 0%nat ∨ 8 * 2 ^ Z.of_nat i < size + 8).
Proof.
  intros Hs. unfold pool_index, clz, chunk_size.
  rewrite (wrap_small 32 (size + 8 - 1)) by (split; simpl; lia).
  pose proof (Z.log2_spec (size + 8 - 1) ltac:(lia)) as Hl.
  pose proof (Z.log2_le_mono 8 (size + 8 - 1) ltac:(lia)) as H1.
  pose proof (Z.log2_le_mono (size + 8 - 1) 4095 ltac:(lia)) as H2.
  change (Z.log2 8) with 3 in H1. change (Z.log2 4095) with 11 in H2.
  revert Hl H1 H2. generalize (Z.log2 (size + 8 - 1)) as lg. intros lg Hl H1 H2.
  exists (Z.to_nat (lg - 3)).
  rewrite Z2Nat.id by lia.
  assert (lg = 3 ∨ lg = 4 ∨ lg = 5 ∨ lg = 6 ∨ lg = 7 ∨ lg = 8 ∨ lg = 9 ∨ lg = 10 ∨ lg = 11)
    as Hcase by lia.
  destruct Hcase as [->|[->|[->|[->|[->|[->|[->|[->| ->]]]]]]]]; simpl in Hl;
    (split_and!; [lia|by vm_compute|by vm_compute|simpl; lia|by vm_compute|simpl; lia]).
Qed.

Section operations.
Context (free_page simple_alloc_pool : Z).
Abbreviation pool := (pool simple_alloc_pool).
Abbreviation kalloc_page := (kalloc_page free_page).
Abbreviation kfree_page := (kfree_page free_page).
Implicit Types (m : mem) (qs : list queue) (lv : list live) (s : kstate).

(** The size of the nodes of pool [i]. *)
Definition csize (i : nat) : Z := 16 * 2 ^ Z.of_nat i.

(** The queues of [mem.c]: the free pages, then the 16 pools. *)
Definition layout : list (Z * Z) :=
  (free_page, PAGE_SIZE) :: ((λ i, (pool (Z.of_nat i), csize i)) <$> seq 0 16).

(** The allocator's state is well formed and has handed out [lv]. *)
Definition kwf (s : kstate) (qs : list queue) (lv : list live) : Prop :=
  qs.*1 = layout ∧ wf (kmem s) qs lv.

Definition free_pages (qs : list queue) : list Z := default [] (snd <$> qs !! 0%nat).
Definition free_chunks (qs : list queue) (i : nat) : list Z := default [] (snd <$> qs !! S i).

Lemma layout_pages qs : qs.*1 = layout → qs !! 0%nat = Some ((free_page, PAGE_SIZE), free_pages qs).
Proof.
  intros H. unfold free_pages. assert (E : qs.*1 !! 0%nat = Some (free_page, PAGE_SIZE)) by by rewrite H.
  rewrite list_lookup_fmap in E. destruct (qs !! 0%nat) as [[h l]|]; simplify_eq/=; done.
Qed.
Lemma layout_pool qs i : qs.*1 = layout → (i < 16)%nat →
  qs !! S i = Some ((pool (Z.of_nat i), csize i), free_chunks qs i).
Proof.
  intros H Hi. unfold free_chunks.
  assert (E : qs.*1 !! S i = Some (pool (Z.of_nat i), csize i)).
  { rewrite H. change (((λ i : nat, (pool (Z.of_nat i), csize i)) <$> seq 0 16) !! i =
      Some (pool (Z.of_nat i), csize i)).
    rewrite list_lookup_fmap, lookup_seq_lt by done. done. }
  rewrite list_lookup_fmap in E. destruct (qs !! S i) as [[h l]|]; simplify_eq/=; done.
Qed.
Lemma layout_insert qs k h l l' : qs.*1 = layout → qs !! k = Some (h, l) →
  (<[k := (h, l')]> qs).*1 = layout.
Proof.
  intros H Hk. rewrite list_fmap_insert, <-H. simpl. apply list_insert_id.
  by rewrite list_lookup_fmap, Hk.
Qed.

Lemma kalloc_page_some s qs lv p F : kwf s qs lv → free_pages qs = p :: F →
  ∃ s', kalloc_page s = Done (p, s') ∧ kept lv (kmem s) (kmem s') ∧
    kwf s' (<[0%nat := ((free_page, PAGE_SIZE), F)]> qs) (((p, PAGE_SIZE), None) :: lv).
Proof.
  intros [Hl W] HF. pose proof (layout_pages qs Hl) as H0. rewrite HF in H0.
  destruct (fetch_wf _ _ _ _ _ _ _ _ W H0) as (m' & E & K & W').
  exists (mkK m' (i64 (alloc_page_cnt s + 1))). split_and!.
  - unfold Kalloc.kalloc_page, on_mem, on_cnt, mbind, M_bind. simpl. by rewrite E.
  - done.
  - split; [by eapply layout_insert|done].
Qed.

Lemma kalloc_page_none s qs lv : kwf s qs lv → free_pages qs = [] →
  ∃ s', kalloc_page s = Done (0, s') ∧ kmem s' = kmem s.
Proof.
  intros [Hl W] HF. pose proof (layout_pages qs Hl) as H0. rewrite HF in H0.
  exists (mkK (kmem s) (i64 (alloc_page_cnt s + 1))). split; [|done].
  unfold Kalloc.kalloc_page, on_mem, on_cnt, mbind, M_bind. simpl.
  by rewrite (fetch_empty _ _ _ _ _ _ W H0).
Qed.

Lemma kfree_page_spec s qs lv p v : kwf s qs (((p, PAGE_SIZE), v) :: lv) →
  ∃ s', kfree_page p s = Done (tt, s') ∧ kept lv (kmem s) (kmem s') ∧
    kwf s' (<[0%nat := ((free_page, PAGE_SIZE), p :: free_pages qs)]> qs) lv.
Proof.
  intros [Hl W]. pose proof (layout_pages qs Hl) as H0.
  destruct (add_wf _ _ _ _ _ _ _ _ _ W H0) as (m' & E & K & W').
  exists (mkK m' (i64 (alloc_page_cnt s - 1))). split_and!.
  - unfold Kalloc.kfree_page. apply (on_mem_done _ (mkK _ (i64 (alloc_page_cnt s - 1)))) in E.
    erewrite bind_done by done. by m_step E.
  - done.
  - split; [by eapply layout_insert|done].
Qed.

Lemma wf_perm m qs lv lv' : lv ≡ₚ lv' → wf m qs lv → wf m qs lv'.
Proof.
  intros Hp [Wb Wa Wr Wq Wl].
  assert (E : regions qs lv ≡ₚ regions qs lv') by (unfold regions; by rewrite Hp).
  rewrite E in Wa, Wr. rewrite Hp in Wl. by split.
Qed.
Lemma kwf_perm s qs lv lv' : lv ≡ₚ lv' → kwf s qs lv → kwf s qs lv'.
Proof. intros Hp [Hl W]. split; [done|by eapply wf_perm]. Qed.

Lemma free_chunks_insert qs i h l : (S i < length qs)%nat →
  free_chunks (<[S i := (h, l)]> qs) i = l.
Proof. intros H. unfold free_chunks. by rewrite list_lookup_insert_eq. Qed.

(** The loop that puts the rest of a page in its pool. *)
Lemma carve_loop s qs lv i r o c fuel : (i < 9)%nat → 0 ≤ o →
  o + csize i * Z.of_nat c = PAGE_SIZE → (c < fuel)%nat →
  kwf s qs (chunks (r + o) (csize i) c ++ lv) →
  ∃ s' l, loop fuel (λ o,
      if decide (o < PAGE_SIZE) then
        on_mem (add_to_queue (pool (Z.of_nat i)) (r + o));; mret (inl (u32 (o + csize i)))
      else mret (inr tt)) o s = Done (tt, s') ∧ length l = c ∧
    kept lv (kmem s) (kmem s') ∧
    kwf s' (<[S i := ((pool (Z.of_nat i), csize i), l ++ free_chunks qs i)]> qs) lv.
Proof.
  intros Hi. revert s qs o fuel.
  assert (Hc : 16 ≤ csize i) by (unfold csize; lia).
  induction c as [|c IH]; intros s qs o [|fuel] Ho E Hf W; [lia| |lia|]; rewrite loop_S.
  - rewrite decide_False by lia. exists s, []. split_and!; [done|done|done|].
    destruct W as [Hl W]. rewrite list_insert_id; [done|]. by apply layout_pool; [|lia].
  - rewrite decide_True by lia. rewrite chunks_S in W. destruct W as [Hl W].
    pose proof (layout_pool qs i Hl ltac:(lia)) as Hk.
    destruct (add_wf _ _ _ _ _ _ _ _ _ W Hk) as (m' & Ea & Ka & W').
    set (qs1 := <[S i := _]> qs) in W'.
    destruct (IH (mkK m' (alloc_page_cnt s)) qs1 (o + csize i) fuel)
      as (s' & l & El & Hlen & K & W2); [lia|lia|lia| |].
    { split; [by eapply layout_insert|]. by rewrite Z.add_assoc. }
    exists s', (l ++ [r + o]). split_and!.
    + unfold on_mem, mbind, M_bind. rewrite Ea. unfold mret, M_ret. cbv beta iota.
      rewrite wrap_small by (split; [lia|unfold PAGE_SIZE in E; simpl; lia]). exact El.
    + rewrite length_app. simpl. lia.
    + eapply kept_trans; [|exact K]. eapply kept_mono; [|exact Ka]. set_solver.
    + rewrite <-app_assoc. simpl. unfold qs1 in W2.
      rewrite free_chunks_insert in W2 by (apply lookup_lt_Some in Hk; lia).
      by rewrite list_insert_insert_eq in W2.
Qed.

(** What taking a node of pool [i] does to the queues: [q_take qs i] is the
    node with the queues after. *)
Definition taken (qs : list queue) (i : nat) (r : Z) (qs' : list queue) : Prop :=
  match free_chunks qs i, free_pages qs with
  | c :: l, _ => r = c ∧ qs' = <[S i := ((pool (Z.of_nat i), csize i), l)]> qs
  | [], p :: F => r = p ∧ ∃ l, Z.of_nat (length l) = 2 ^ (8 - Z.of_nat i) - 1 ∧
      qs' = <[S i := ((pool (Z.of_nat i), csize i), l)]>
             (<[0%nat := ((free_page, PAGE_SIZE), F)]> qs)
  | [], [] => r = 0 ∧ qs' = qs
  end.

Lemma kwf_node_pos s qs r n v lv : kwf s qs (((r, n), v) :: lv) → 0 < r ∧ r + n ≤ 2 ^ 64.
Proof.
  intros [_ W]. pose proof (wf_range _ _ _ W) as R. rewrite Forall_forall in R.
  apply (R (r, n)). unfold regions. rewrite !elem_of_app. do 2 right. simpl. set_solver.
Qed.

Lemma chunks_app p n k lv : (0 < k)%nat → 
  chunks p n k ++ lv = ((p, n), None) :: (chunks (p + n) n (k - 1) ++ lv).
Proof. intros Hk. destruct k as [|k]; [lia|]. rewrite chunks_S. simpl. by rewrite Nat.sub_0_r. Qed.

Lemma carve_spec s qs lv i r : (i < 9)%nat → kwf s qs (((r, PAGE_SIZE), None) :: lv) →
  ∃ s' l, carve simple_alloc_pool (Z.of_nat i) r (csize i) s = Done (tt, s') ∧
    Z.of_nat (length l) = 2 ^ (8 - Z.of_nat i) - 1 ∧
    kept lv (kmem s) (kmem s') ∧
    kwf s' (<[S i := ((pool (Z.of_nat i), csize i), l ++ free_chunks qs i)]> qs)
      (((r, csize i), None) :: lv).
Proof.
  intros Hi [Hl W].
  set (k := Z.to_nat (2 ^ (8 - Z.of_nat i))).
  assert (Hk : csize i * Z.of_nat k = PAGE_SIZE ∧ (0 < k < 257)%nat).
  { assert (∃ j, (j < 9)%nat ∧ i = j) as (j & Hj & ->) by eauto. unfold k, csize.
    do 9 (destruct j as [|j]; [vm_compute; split; [done|lia]|]). lia. }
  destruct Hk as [Ek Hk]. rewrite <-Ek in W.
  apply split_wf in W; [|unfold csize; lia]. rewrite chunks_app in W by lia.
  destruct (carve_loop s qs (((r, csize i), None) :: lv) i r (csize i) (k - 1) 257)
    as (s' & l & E & Hlen & K & W'); [done|unfold csize; lia| |lia| |].
  { rewrite <-Ek, Nat2Z.inj_sub by lia. lia. }
  { split; [done|]. eapply wf_perm; [|exact W]. apply Permutation_middle. }
  exists s', l. split_and!; [exact E| | |done].
  - rewrite Hlen. clear -Hk. unfold k in *. lia.
  - by eapply kept_cons.
Qed.

Lemma pool_take_spec s qs lv i : (i < 9)%nat → kwf s qs lv → 
  chunk_size (Z.of_nat i) = csize i →
  ∃ r s' qs', pool_take free_page simple_alloc_pool (Z.of_nat i) s = Done (r, s') ∧
    taken qs i r qs' ∧ kept lv (kmem s) (kmem s') ∧
    kwf s' qs' (if decide (r = 0) then lv else ((r, csize i), None) :: lv).
Proof.
  intros Hi W Hc. pose proof W as [Hl W0]. pose proof (layout_pool qs i Hl ltac:(lia)) as Hk.
  unfold pool_take, taken. destruct (free_chunks qs i) as [|c l] eqn:Ec.
  - pose proof (fetch_empty _ _ _ _ _ _ W0 Hk) as E. apply on_mem_done in E. m_step E.
    rewrite decide_True by done. destruct s as [m cnt]; simpl in *.
    destruct (free_pages qs) as [|p F] eqn:EF.
    + destruct (kalloc_page_none _ _ _ W EF) as (s1 & E1 & Em). m_step E1.
      rewrite decide_True by done. exists 0, s1, qs. rewrite Em. simpl.
      split_and!; [done..|]. split; [done|]. by rewrite Em.
    + destruct (kalloc_page_some _ _ _ _ _ W EF) as (s1 & E1 & K1 & W1). m_step E1.
      pose proof (kwf_node_pos _ _ _ _ _ _ W1) as Hp.
      rewrite decide_False by lia.
      destruct (carve_spec _ _ _ _ _ Hi W1) as (s2 & l & E2 & Hlen & K2 & W2).
      rewrite Hc. m_step E2. exists p, s2. eexists. split; [done|]. rewrite decide_False by lia.
      split; [split; [done|]; exists l; split; [done|reflexivity]|].
      split; [by eapply kept_trans|].
      assert (free_chunks (<[0%nat := ((free_page, PAGE_SIZE), F)]> qs) i = []) as En.
      { unfold free_chunks. rewrite list_lookup_insert_ne by done. exact Ec. }
      rewrite En, app_nil_r in W2. exact W2.
  - destruct (fetch_wf _ _ _ _ _ _ _ _ W0 Hk) as (m' & E & K & W').
    apply on_mem_done in E. m_step E.
    assert (W1 : kwf (mkK m' (alloc_page_cnt s)) (<[S i := ((pool (Z.of_nat i), csize i), l)]> qs)
              (((c, csize i), None) :: lv)) by (split; [by eapply layout_insert|done]).
    pose proof (kwf_node_pos _ _ _ _ _ _ W1) as Hp. rewrite decide_False by lia.
    exists c. eexists _, _. split; [done|]. rewrite decide_False by lia. by split_and!.
Qed.

(** For a large request line 32 takes a page that line 34 forgets. *)
Definition lost (size : Z) (qs : list queue) : list live :=
  if decide (size > PAGE_SIZE / 2 - 8) then
    match free_pages qs with p :: _ => [((p, PAGE_SIZE), None)] | [] => [] end
  else [].
Definition after_lost (size : Z) (qs : list queue) : list queue :=
  if decide (size > PAGE_SIZE / 2 - 8) then
    match free_pages qs with
    | _ :: F => <[0%nat := ((free_page, PAGE_SIZE), F)]> qs | [] => qs end
  else qs.

Lemma lost_spec size s qs lv : kwf s qs lv →
  ∃ s', (if decide (size > PAGE_SIZE / 2 - 8) then kalloc_page;; mret tt else mret tt) s
        = Done (tt, s') ∧ kept lv (kmem s) (kmem s') ∧
    kwf s' (after_lost size qs) (lost size qs ++ lv).
Proof.
  intros W. unfold lost, after_lost. destruct (decide _); [|by exists s].
  destruct (free_pages qs) as [|p F] eqn:EF.
  - destruct (kalloc_page_none _ _ _ W EF) as (s1 & E1 & Em). m_step E1.
    exists s1. rewrite Em. split_and!; [done..|]. destruct W. split; [done|]. by rewrite Em.
  - destruct (kalloc_page_some _ _ _ _ _ W EF) as (s1 & E1 & K1 & W1). m_step E1.
    exists s1. by split_and!.
Qed.

(** The header and the zeroed bytes of a node just taken. *)
Lemma fill_spec s qs lv r n i size : kwf s qs (((r, n), None) :: lv) → (i < 16)%nat →
  0 < size → size + 8 ≤ n → size < 2 ^ 32 →
  ∃ s', (on_mem (wr64 r (pool (Z.of_nat i)));; on_mem (memset (r + 8) 0 (u32 size));;
         mret (r + 8)) s = Done (r + 8, s') ∧ kept lv (kmem s) (kmem s') ∧
    kwf s' qs (((r, n), Some (pool (Z.of_nat i))) :: lv) ∧
    ∀ a, r + 8 ≤ a < r + 8 + size → kmem s' a = 0.
Proof.
  intros [Hl W] Hi H0 Hn H32. pose proof (layout_pool qs i Hl Hi) as Hk.
  assert (Hh : 0 < pool (Z.of_nat i) ∧ pool (Z.of_nat i) + 8 ≤ 2 ^ 64).
  { pose proof (wf_range _ _ _ W) as R. rewrite Forall_forall in R.
    apply (R (pool (Z.of_nat i), 8)). unfold regions. apply elem_of_app. left.
    apply list_elem_of_fmap. exists (pool (Z.of_nat i), csize i, free_chunks qs i).
    split; [done|]. by eapply list_elem_of_lookup_2. }
  set (m1 := store64 r (pool (Z.of_nat i)) (kmem s)).
  destruct (memset_spec (r + 8) 0 size m1) as (m2 & E2 & O2 & Z2); [lia|].
  exists (mkK m2 (alloc_page_cnt s)).
  assert (A1 : agree_off [(r, n)] (kmem s) m1).
  { apply (agree_off_outside _ r n); [by left|].
    eapply outside_mono; [..|apply (store_outside 8)]; lia. }
  assert (A2 : agree_off [(r, n)] m1 m2).
  { apply (agree_off_outside _ r n); [by left|]. eapply outside_mono; [..|exact O2]; lia. }
  assert (B1 : bytes m1) by apply store_bytes, W.
  assert (V : load64 m2 r = pool (Z.of_nat i)).
  { transitivity (load64 m1 r).
    - apply load_ext. intros a Ha. apply O2. lia.
    - unfold m1. rewrite load_store_eq; [done|]. split; lia. }
  destruct (write_wf _ m2 _ _ _ _ _ (Some (pool (Z.of_nat i))) W) as [W2 K2].
  { by eapply agree_off_trans. }
  { intros a. destruct (decide (r + 8 ≤ a < r + 8 + size)) as [Ha|Ha].
    - by rewrite (Z2 a Ha).
    - rewrite O2 by lia. apply B1. }
  { split; [simpl; lia|done]. }
  split_and!; [|exact K2|by split|].
  - rewrite (bind_done _ _ s tt (mkK m1 (alloc_page_cnt s))) by done.
    rewrite wrap_small by (split; lia). apply (on_mem_done _ (mkK m1 (alloc_page_cnt s))) in E2.
    by m_step E2.
  - intros a Ha. by apply Z2.
Qed.

Lemma alloc_spec s qs lv size : kwf s qs lv → 0 < size ≤ PAGE_SIZE - 8 →
  ∃ (i : nat) r r' s' qs', simple_pool_alloc free_page simple_alloc_pool size s = Done (r', s') ∧
    pool_index size = Z.of_nat i ∧
    (i < 9)%nat ∧ size + 8 ≤ csize i ∧ (i = 0%nat ∨ csize i < 2 * (size + 8)) ∧
    kept lv (kmem s) (kmem s') ∧ taken (after_lost size qs) i r qs' ∧
    if decide (r = 0) then r' = 0 ∧ kwf s' qs' (lost size qs ++ lv)
    else r' = r + 8 ∧ (∀ a, r' ≤ a < r' + size → kmem s' a = 0) ∧
      kwf s' qs' (((r, csize i), Some (pool (Z.of_nat i))) :: lost size qs ++ lv).
Proof.
  intros W Hs. unfold PAGE_SIZE in Hs.
  destruct (size_class size ltac:(lia)) as (i & Hi & Ei & Ec & Hfit & _ & Hmin).
  destruct (lost_spec size s qs lv W) as (s1 & E1 & K1 & W1).
  assert (Hcs : chunk_size (Z.of_nat i) = csize i) by (rewrite <-Ei; exact Ec).
  destruct (pool_take_spec s1 _ _ i ltac:(lia) W1 Hcs) as (r & s2 & qs' & E2 & T & K2 & W2).
  assert (K : kept lv (kmem s) (kmem s2)).
  { eapply kept_trans; [exact K1|]. eapply kept_mono; [|exact K2].
    apply list_subseteq_app_r. reflexivity. }
  unfold simple_pool_alloc. rewrite decide_False by (unfold PAGE_SIZE; lia).
  cbv zeta. rewrite Ei. m_step E1. m_step E2.
  exists i, r. destruct (decide (r = 0)) as [->|Hr].
  - exists 0, s2, qs'. split_and!; [done|done|lia|done|unfold csize; lia|done..].
  - destruct (fill_spec _ _ _ _ _ i size W2) as (s3 & E3 & K3 & W3 & Z3); [lia|lia|done|lia|].
    exists (r + 8), s3, qs'. split_and!; [done|done|lia|done|unfold csize; lia| |done..].
    eapply kept_trans; [exact K|]. eapply kept_mono; [|exact K3].
    apply list_subseteq_app_r. reflexivity.
Qed.

Lemma free_spec s qs lv r (i : nat) : (i < 9)%nat →
  kwf s qs (((r, csize i), Some (pool (Z.of_nat i))) :: lv) →
  ∃ s', simple_pool_free (r + 8) s = Done (tt, s') ∧ kept lv (kmem s) (kmem s') ∧
    kwf s' (<[S i := ((pool (Z.of_nat i), csize i), r :: free_chunks qs i)]> qs) lv.
Proof.
  intros Hi [Hl W]. pose proof (layout_pool qs i Hl ltac:(lia)) as Hk.
  destruct (add_wf _ _ _ _ _ _ _ _ _ W Hk) as (m' & E & K & W').
  pose proof (wf_live _ _ _ W) as L. apply Forall_cons in L as [[_ L] _]. simpl in L.
  exists (mkK m' (alloc_page_cnt s)). split_and!; [|done|split; [by eapply layout_insert|done]].
  unfold simple_pool_free. replace (r + 8 - 8) with r by lia.
  rewrite (bind_done _ _ s (pool (Z.of_nat i)) s).
  - apply on_mem_done in E. by m_step E.
  - unfold on_mem, rd64, gets. rewrite L. by destruct s.
Qed.

(** The boot loop frees the pages [a .. a + n - 1] of physical memory. *)
Lemma free_pages_loop s qs a n lv : 0 ≤ a → a + Z.of_nat n ≤ 2 ^ 32 →
  kwf s qs (chunks (P2K (a * PAGE_SIZE)) PAGE_SIZE n ++ lv) →
  ∃ s' l, for_each (seqZ a (Z.of_nat n)) (λ i, kfree_page (P2K (i * PAGE_SIZE))) s
      = Done (tt, s') ∧
    l ≡ₚ (λ i, P2K (i * PAGE_SIZE)) <$> seqZ a (Z.of_nat n) ∧
    kwf s' (<[0%nat := ((free_page, PAGE_SIZE), l ++ free_pages qs)]> qs) lv.
Proof.
  revert s qs a. induction n as [|n IH]; intros s qs a Ha Hn W.
  - exists s, []. split_and!; [done|done|]. destruct W as [Hl W].
    split; rewrite list_insert_id; [done|by apply layout_pages|done|by apply layout_pages].
  - rewrite chunks_S in W. cbn [app] in W. destruct (kfree_page_spec _ _ _ _ _ W) as (s1 & E1 & _ & W1).
    assert (P2K (a * PAGE_SIZE) + PAGE_SIZE = P2K (Z.succ a * PAGE_SIZE)) as Ep.
    { unfold P2K, KSPACE_MASK, PAGE_SIZE. rewrite !wrap_small by (split; lia). lia. }
    rewrite Ep in W1. destruct (IH _ _ (Z.succ a) ltac:(lia) ltac:(lia) W1) as (s2 & l & E2 & Hp & W2).
    exists s2, (l ++ [P2K (a * PAGE_SIZE)]). rewrite seqZ_cons by lia.
    replace (Z.pred (Z.of_nat (S n))) with (Z.of_nat n) by lia. split_and!.
    + simpl. by m_step E1.
    + rewrite fmap_cons, Hp. by rewrite <-Permutation_cons_append.
    + rewrite <-app_assoc. destruct W as [Hl _]. pose proof (layout_pages qs Hl) as H0.
      unfold free_pages at 1 in W2. rewrite list_lookup_insert_eq in W2
        by (apply lookup_lt_Some in H0; lia).
      by rewrite list_insert_insert_eq in W2.
Qed.
End operations.

(** ** Theorems *)

(** Nothing is taken exactly when there is nothing to take: no queue holds a null pointer. *)
Lemma taken_none free_page pools s qs lv i r qs' : kwf free_page pools s qs lv → (i < 9)%nat →
  taken free_page pools qs i r qs' → (r = 0 ↔ free_pages qs = [] ∧ free_chunks qs i = []) ∧ (r = 0 → qs' = qs).
Proof.
  intros [Hl W] Hi T. pose proof (wf_queues _ _ _ W) as Q. rewrite Forall_lookup in Q.
  pose proof (Q _ _ (layout_pages _ _ _ Hl)) as [_ Q1]. pose proof (Q _ _ (layout_pool _ _ _ i Hl ltac:(lia))) as [_ Q2].
  unfold taken in T. destruct (free_chunks qs i) as [|c l]; [destruct (free_pages qs) as [|p F]|].
  - by destruct T as [-> ->].
  - destruct T as [-> _], Q1 as (_ & H0 & _). split; [split; [intros ->; done|by intros [[=] _]]|intros ->; done].
  - destruct T as [-> _], Q2 as (_ & H0 & _). split; [split; [intros ->; done|by intros [_ [=]]]|intros ->; done].
Qed.

(** C10: [kalloc] of at most 2040 bytes. It answers 0 exactly for a size that is
    not positive and for one for which both the pool of its class and the free
    pages are empty; the queues are then what they were. Otherwise it answers [r + 8] for a chunk
    [r] of the smallest class that fits the size and the 8-byte header: the
    chunk was free, is not in any queue any more, overlaps no other allocation,
    holds the pool's address in its header and zeroes in the bytes asked for;
    and no byte of another allocation changed. *)
Theorem kalloc_correct free_page pools s qs lv size :
  kwf free_page pools s qs lv → size ≤ 2040 →
  ∃ r s', simple_pool_alloc free_page pools size s = Done (r, s') ∧
    kept lv (kmem s) (kmem s') ∧
    (r = 0 ↔ size ≤ 0 ∨ free_pages qs = [] ∧ free_chunks qs (Z.to_nat (pool_index size)) = []) ∧
    (r = 0 → kwf free_page pools s' qs lv) ∧
    (r ≠ 0 → ∃ (i : nat) qs', size + 8 ≤ csize i ∧ (i = 0%nat ∨ csize i < 2 * (size + 8)) ∧
       kwf free_page pools s' qs' (((r - 8, csize i), Some (pool pools (Z.of_nat i))) :: lv) ∧
       ∀ a, r ≤ a < r + size → kmem s' a = 0).
Proof.
  intros W Hs. destruct (decide (size ≤ 0)).
  { exists 0, s. unfold simple_pool_alloc. rewrite decide_True by lia. split_and!; try done. split; [by left|done]. }
  destruct (alloc_spec _ _ _ _ _ size W) as
    (i & r & r' & s' & qs' & E & Ei & Hi & Hf & Hm & K & T & H); [unfold PAGE_SIZE; lia|].
  assert (lost size qs = [] ∧ after_lost free_page size qs = qs) as [L1 L2].
  { assert (¬ size > PAGE_SIZE / 2 - 8) by (change (PAGE_SIZE / 2 - 8) with 2040; lia).
    unfold lost, after_lost. by rewrite !decide_False by done. }
  rewrite L1 in H. rewrite L2 in T. destruct (taken_none _ _ _ _ _ _ _ _ W Hi T) as [T0 Tq].
  assert (Hr : r' = 0 ↔ r = 0).
  { destruct (decide (r = 0)) as [->|]; [by destruct H as [-> _]|]. destruct H as (-> & _ & H).
    apply kwf_node_pos in H. lia. }
  exists r', s'. split; [done|]. split; [done|]. split; [|split].
  - rewrite Hr, T0, Ei, Nat2Z.id. split; [by right|]. intros [?|?]; [lia|done].
  - intros Hr0%Hr. rewrite decide_True in H by done. destruct H as [_ H]. by rewrite Tq in H.
  - intros Hr0. rewrite decide_False in H by naive_solver. destruct H as (-> & Hz & H). exists i, qs'.
    replace (r + 8 - 8) with r by lia. by split_and!.
Qed.

(** A small memory: the free page 65536, its queue at 256, empty pools at 512. *)
Definition sample_state : kstate := mkK (store64 256 65536 (λ _, 0)) 0.
Definition sample_queues (pages : list Z) : list queue :=
  ((256, PAGE_SIZE), pages) :: ((λ i, ((pool 512 (Z.of_nat i), csize i), [])) <$> seq 0 16).

Lemma sample_kwf : kwf 256 512 sample_state (sample_queues [65536]) [].
Proof.
  split; [done|]. split.
  - apply store_bytes. intros a. split; done.
  - apply (bool_decide_unpack _). by vm_compute.
  - apply (bool_decide_unpack _). by vm_compute.
  - repeat (apply Forall_cons; split; [split; [by vm_compute|]; unfold qrep, chain; by vm_compute|]).
    apply Forall_nil. done.
  - by apply Forall_nil.
Qed.

Lemma kalloc_correct_witness : ∃ r s',
  simple_pool_alloc 256 512 100 sample_state = Done (r, s') ∧ r = 65544 ∧ kmem s' 65643 = 0.
Proof.
  destruct (kalloc_correct 256 512 sample_state (sample_queues [65536]) [] 100 sample_kwf)
    as (r & s' & E & _ & _ & _ & H); [lia|].
  assert (Hr : r = 65544).
  { assert (H' : answer (simple_pool_alloc 256 512 100 sample_state) = Some 65544) by by vm_compute.
    rewrite E in H'. by injection H'. }
  exists r, s'. split; [exact E|]. split; [done|].
  destruct H as (_ & _ & _ & _ & _ & H); [by rewrite Hr|]. apply H. rewrite Hr. lia.
Defined.

(** [kalloc] of 2041 to 4088 bytes takes one page more than it hands out.
    Line 32 takes a page whose address line 34 overwrites: that page is in no
    free queue any more and is not the block answered, so nobody can give it
    back. With one free page left the request even fails although it would
    fit. Above 4088 bytes the request is refused. *)
Theorem kalloc_large_loses_page free_page pools s qs lv size p F :
  kwf free_page pools s qs lv → PAGE_SIZE / 2 - 8 < size → free_pages qs = p :: F →
  ∃ r s' qs', simple_pool_alloc free_page pools size s = Done (r, s') ∧
    if decide (size > PAGE_SIZE - 8) then r = 0 ∧ s' = s
    else
      kwf free_page pools s' qs' (if decide (r = 0) then ((p, PAGE_SIZE), None) :: lv else
        ((r - 8, PAGE_SIZE), Some (pool pools 8)) :: ((p, PAGE_SIZE), None) :: lv) ∧
      (∀ q, q ∈ qs' → p ∉ q.2) ∧ r ≠ p + 8 ∧
      (F = [] → free_chunks qs 8 = [] → r = 0).
Proof.
  intros W Hs HF. change (PAGE_SIZE / 2 - 8) with 2040 in Hs.
  destruct (decide (size > PAGE_SIZE - 8)) as [Hd|Hd].
  { exists 0, s, qs. split; [|done]. unfold simple_pool_alloc. by rewrite decide_True by lia. }
  destruct (alloc_spec _ _ _ _ _ size W) as
    (i & r & r' & s' & qs' & E & Ei & Hi & Hf & Hm & K & T & H); [unfold PAGE_SIZE in *; lia|].
  assert (i = 8%nat) as ->.
  { clear -Hf Hi Hs. unfold csize in Hf. do 8 (destruct i as [|i]; [simpl in Hf; lia|]). lia. }
  assert (lost size qs = [((p, PAGE_SIZE), None)] ∧
          after_lost free_page size qs = <[0%nat := ((free_page, PAGE_SIZE), F)]> qs) as [L1 L2].
  { assert (size > PAGE_SIZE / 2 - 8) by (change (PAGE_SIZE / 2 - 8) with 2040; lia).
    unfold lost, after_lost. by rewrite !decide_True, HF by done. }
  rewrite L1 in H. rewrite L2 in T.
  assert (∃ lv', kwf free_page pools s' qs' lv' ∧ ((p, PAGE_SIZE), None) ∈ lv' ∧
    ((r ≠ 0 ∧ lv' = ((r, PAGE_SIZE), Some (pool pools 8)) :: ((p, PAGE_SIZE), None) :: lv)
      ∨ r = 0)) as (lv' & [Hl' W'] & Hin & Hr).
  { destruct (decide (r = 0)); [destruct H as [_ H]|destruct H as (_ & _ & H)];
      eexists; (split; [exact H|]); (split; [set_solver|]); [by right|by left]. }
  exists r', s', qs'. split; [done|].
  assert (r' ≠ p + 8).
  { destruct (decide (r = 0)) as [->|]; [destruct H as [-> H]|destruct H as (-> & _ & H)].
    - apply kwf_node_pos in H. lia.
    - intros Hc. assert (r = p) as -> by lia.
      destruct H as [_ H]. pose proof (wf_apart _ _ _ H) as A. unfold regions in A.
      rewrite !no_overlap_app in A. destruct A as (_ & (_ & [A _] & _) & _).
      simpl in A. apply Forall_cons in A as [A _]. unfold apart, PAGE_SIZE in A. simpl in A. lia. }
  split_and!; [|intros q Hq; by eapply live_not_queued|done|].
  - destruct (decide (r = 0)) as [->|]; [destruct H as [-> H]|destruct H as (-> & _ & H)].
    + by rewrite decide_True.
    + apply kwf_node_pos in H as ?. rewrite decide_False by lia.
      by replace (r + 8 - 8) with r by lia.
  - intros -> Hc. unfold taken in T.
    assert (free_chunks (<[0%nat := ((free_page, PAGE_SIZE), [])]> qs) 8 = []) as C8.
    { unfold free_chunks. by rewrite list_lookup_insert_ne. }
    assert (free_pages (<[0%nat := ((free_page, PAGE_SIZE), [])]> qs) = []) as P0.
    { unfold free_pages. destruct qs; [done|]. done. }
    rewrite C8, P0 in T. destruct T as [-> _]. by destruct H.
Qed.

Lemma kalloc_large_loses_page_witness : ∃ s',
  simple_pool_alloc 256 512 3000 sample_state = Done (0, s').
Proof.
  destruct (kalloc_large_loses_page 256 512 sample_state (sample_queues [65536]) [] 3000 65536 []
    sample_kwf) as (r & s' & qs' & E & H); [by vm_compute|done|].
  rewrite decide_False in H by (unfold PAGE_SIZE; lia). destruct H as (_ & _ & _ & H).
  exists s'. by rewrite E, H.
Defined.

(** C35: [kfree] undoes [kalloc]. A block [r + 8] that [kalloc] answered (its
    header holds the pool it came from) goes back to exactly that pool, no other
    allocation changes, and the next [kalloc] of a size of its class answers the
    same block again with the queues as they were before. *)
Theorem kfree_kalloc free_page pools s qs lv r (i : nat) size :
  (i < 9)%nat → pool_index size = Z.of_nat i → 0 < size ≤ 2040 →
  kwf free_page pools s qs (((r, csize i), Some (pool pools (Z.of_nat i))) :: lv) →
  ∃ s1 s2, simple_pool_free (r + 8) s = Done (tt, s1) ∧ kept lv (kmem s) (kmem s1) ∧
    kwf free_page pools s1
      (<[S i := ((pool pools (Z.of_nat i), csize i), r :: free_chunks qs i)]> qs) lv ∧
    simple_pool_alloc free_page pools size s1 = Done (r + 8, s2) ∧ kept lv (kmem s1) (kmem s2) ∧
    kwf free_page pools s2 qs (((r, csize i), Some (pool pools (Z.of_nat i))) :: lv).
Proof.
  intros Hi Ei Hs W. pose proof (kwf_node_pos _ _ _ _ _ _ _ _ W) as Hr.
  destruct W as [Hl W]. pose proof (layout_pool _ _ _ i Hl ltac:(lia)) as Hk.
  destruct (free_spec _ _ _ _ _ _ i Hi (conj Hl W)) as (s1 & E1 & K1 & W1).
  destruct (alloc_spec _ _ _ _ _ size W1) as
    (j & r1 & r' & s2 & qs' & E & Ej & Hj & _ & _ & K & T & H); [unfold PAGE_SIZE; lia|].
  assert (j = i) as -> by lia.
  assert (¬ size > PAGE_SIZE / 2 - 8) by (change (PAGE_SIZE / 2 - 8) with 2040; lia).
  unfold lost in H. unfold after_lost in T. 
  rewrite (decide_False (P := size > _)) in H by done.
  rewrite (decide_False (P := size > _)) in T by done.
  unfold taken in T. rewrite free_chunks_insert in T by (apply lookup_lt_Some in Hk; lia).
  destruct T as [-> ->]. rewrite list_insert_insert_eq, list_insert_id in H by done.
  destruct (decide (r = 0)); [lia|]. destruct H as (-> & _ & H).
  exists s1, s2. by split_and!.
Qed.

(** The boot loop of [define_early_init(mem)]. For a kernel image that ends
    at [KSPACE_MASK + e], every page from the first page boundary at or above
    [e] (the [int] cast drops the kernel half of the address) to [PHYSTOP] ends up
    exactly once in the free queue, nothing else does, and other regions stay in use. *)
Theorem init_mem_correct free_page pools s qs lv e :
  0 ≤ e < PHYSTOP → let a := (e + PAGE_SIZE - 1) / PAGE_SIZE in
  let n := Z.to_nat (PHYSTOP / PAGE_SIZE - a) in
  kwf free_page pools s qs (chunks (P2K (a * PAGE_SIZE)) PAGE_SIZE n ++ lv) → free_pages qs = [] →
  ∃ s' l, init_mem free_page (KSPACE_MASK + e) s = Done (tt, s') ∧
    l ≡ₚ (λ i, KSPACE_MASK + i * PAGE_SIZE) <$> seqZ a (PHYSTOP / PAGE_SIZE - a) ∧
    kwf free_page pools s' (<[0%nat := ((free_page, PAGE_SIZE), l)]> qs) lv.
Proof.
  intros He a n W H0. unfold PHYSTOP, PAGE_SIZE in He.
  assert (0 ≤ a ≤ PHYSTOP / PAGE_SIZE).
  { unfold a, PHYSTOP, PAGE_SIZE. change (0x3f000000 / 4096) with 258048. split; [apply Z.div_pos; lia|].
    apply Z.lt_succ_r, Z.div_lt_upper_bound; lia. }
  assert (first_page (KSPACE_MASK + e) = a) as Ef.
  { unfold first_page. rewrite (wrap_small 64 (_ + PAGE_SIZE)), wrap_small
      by (unfold KSPACE_MASK, PAGE_SIZE; split; lia).
    replace (KSPACE_MASK + e + PAGE_SIZE - 1) with
      (e + PAGE_SIZE - 1 + KSPACE_MASK / PAGE_SIZE * PAGE_SIZE)
      by (change (KSPACE_MASK / PAGE_SIZE * PAGE_SIZE) with KSPACE_MASK; lia).
    rewrite Z.div_add by done. fold a. unfold swrap.
    replace (a + KSPACE_MASK / PAGE_SIZE + 2 ^ (32 - 1)) with
      (a + 2 ^ (32 - 1) + 1048560 * 2 ^ 32)
      by (change (KSPACE_MASK / PAGE_SIZE) with (1048560 * 2 ^ 32); lia).
    rewrite Z.mod_add by done. change (PHYSTOP / PAGE_SIZE) with 258048 in *.
    rewrite Z.mod_small; lia. }
  change (PHYSTOP / PAGE_SIZE) with 258048 in *.
  destruct (free_pages_loop free_page pools s qs a n lv) as (s' & l & E & Hp & W'); [lia|lia|done|].
  exists s', l. unfold init_mem. rewrite Ef. change (PHYSTOP / PAGE_SIZE) with 258048.
  unfold n in *. rewrite Z2Nat.id in * by lia. rewrite H0, app_nil_r in W'.
  split; [exact E|split; [|done]]. rewrite Hp. apply reflexive_eq, list_fmap_ext.
  intros j x Hx%list_elem_of_lookup_2%elem_of_seqZ. unfold P2K.
  rewrite wrap_small by (unfold KSPACE_MASK, PAGE_SIZE; split; lia). lia.
Qed.

Lemma kfree_kalloc_witness : ∃ s s1 s2, simple_pool_free 65544 s = Done (tt, s1) ∧
  simple_pool_alloc 256 512 100 s1 = Done (65544, s2).
Proof.
  set (s := mkK (store64 65536 (pool 512 3) (λ _, 0)) 0).
  set (q0 := fun i : nat => ((pool 512 (Z.of_nat i), csize i), @nil Z)).
  assert (W : kwf 256 512 s (((256, PAGE_SIZE), []) :: (q0 <$> seq 0 16))
                [((65536, csize 3), Some (pool 512 (Z.of_nat 3)))]).
  { split; [done|]. split.
    - apply store_bytes. intros a. split; done.
    - apply (bool_decide_unpack _). by vm_compute.
    - apply (bool_decide_unpack _). by vm_compute.
    - repeat (apply Forall_cons; split; [split; [by vm_compute|]; unfold qrep, chain; by vm_compute|]).
      by apply Forall_nil.
    - apply Forall_cons. split; [split; by vm_compute|by apply Forall_nil]. }
  destruct (kfree_kalloc 256 512 s _ [] 65536 3 100 ltac:(lia) eq_refl ltac:(lia) W)
    as (s1 & s2 & E1 & _ & _ & E2 & _). by exists s, s1, s2.
Defined.

(** An image that ends at the last page below [PHYSTOP] leaves that page. *)
Lemma init_mem_correct_witness : ∃ s', init_mem 256 (KSPACE_MASK + 0x3efff000) (mkK (λ _, 0) 0)
  = Done (tt, s') ∧ load64 (kmem s') 256 = KSPACE_MASK + 0x3efff000.
Proof.
  set (s := mkK (λ _, 0) 0).
  assert (W : kwf 256 512 s (sample_queues [])
    [((KSPACE_MASK + 0x3efff000, PAGE_SIZE), None)]).
  { split; [done|]. split.
    - intros a. split; done.
    - apply (bool_decide_unpack _). by vm_compute.
    - apply (bool_decide_unpack _). by vm_compute.
    - repeat (apply Forall_cons; split; [split; [by vm_compute|]; unfold qrep, chain; by vm_compute|]).
      by apply Forall_nil.
    - apply Forall_cons. split; [split; by vm_compute|by apply Forall_nil]. }
  destruct (init_mem_correct 256 512 s _ [] 0x3efff000 ltac:(by vm_compute) W eq_refl)
    as (s' & l & E & Hp & _ & W').
  exists s'. split; [exact E|]. apply Permutation_singleton_r in Hp as ->.
  pose proof (wf_queues _ _ _ W') as Q. apply Forall_cons in Q as [[_ Q] _]. apply Q.
Defined.
