(* ===== verification/Pages.v ===== *)
(** * The interface of the page allocator

    What [kalloc_page] and [kfree_page] promise to their clients, as a class;
    [kernel/mem.c] implements it.  Clients (the page tables) are verified against the
    class and see of the allocator only its memory, its list of free pages and
    the regions it has handed out. *)
From S2P Require Import Prelude Words Memory LockFree Kalloc.

(** A word inside a live region is kept. *)
Lemma kept_load64 (lv : list live) m m' p n v a : kept lv m m' → ((p, n), v) ∈ lv →
  p ≤ a → a + 8 ≤ p + n → load64 m' a = load64 m a.
Proof. intros K Hin H1 H2. apply load_ext. intros b Hb. apply (K _ _ Hin). simpl. lia. Qed.

(** The addresses the boot loop frees: page aligned, in the kernel's half. *)
Definition page_addr (p : Z) : Prop := KSPACE_MASK ≤ p ∧ p + PAGE_SIZE ≤ 2 ^ 64 ∧ p mod PAGE_SIZE = 0.

#[export] Instance page_addr_dec p : Decision (page_addr p).
Proof. unfold page_addr. apply _. Defined.

(** [pa_ok s F lv]: the free pages of [s] are [F] and the regions [lv] are in
    the hands of clients. *)
Class PageAllocator (S : Type) := {
  pa_mem : S → mem;
  pa_set_mem : mem → S → S;
  pa_alloc : M S Z;
  pa_free : Z → M S unit;
  pa_ok : S → list Z → list live → Prop;
  pa_mem_set : ∀ m s, pa_mem (pa_set_mem m s) = m;
  pa_set_id : ∀ s, pa_set_mem (pa_mem s) s = s;
  pa_bytes : ∀ s F lv, pa_ok s F lv → bytes (pa_mem s);
  pa_apart : ∀ s F lv, pa_ok s F lv → no_overlap lv.*1;
  pa_perm : ∀ s F lv lv', lv ≡ₚ lv' → pa_ok s F lv → pa_ok s F lv';
  pa_alloc_some : ∀ s p F lv, pa_ok s (p :: F) lv →
    ∃ s', pa_alloc s = Done (p, s') ∧ page_addr p ∧ kept lv (pa_mem s) (pa_mem s') ∧
      pa_ok s' F (((p, PAGE_SIZE), None) :: lv);
  pa_alloc_none : ∀ s lv, pa_ok s [] lv →
    ∃ s', pa_alloc s = Done (0, s') ∧ pa_ok s' [] lv ∧ pa_mem s' = pa_mem s;
  pa_free_ok : ∀ s p F lv, pa_ok s F (((p, PAGE_SIZE), None) :: lv) → page_addr p →
    ∃ s', pa_free p s = Done (tt, s') ∧ kept lv (pa_mem s) (pa_mem s') ∧ pa_ok s' (p :: F) lv;
  pa_write : ∀ s F lv p n m', pa_ok s F (((p, n), None) :: lv) →
    agree_off [(p, n)] (pa_mem s) m' → bytes m' →
    pa_ok (pa_set_mem m' s) F (((p, n), None) :: lv) ∧ kept lv (pa_mem s) m'
}.

(** A computation on the memory, in a state with an allocator. *)
Definition on_pages {S} `{!PageAllocator S} {A} (m : M mem A) : M S A := λ s,
  match m (pa_mem s) with
  | Done (a, m') => Done (a, pa_set_mem m' s)
  | Panic => Panic | Crash => Crash | NoFuel => NoFuel
  end.

Lemma on_pages_gets {S} `{!PageAllocator S} {A} (f : mem → A) s :
  on_pages (gets f) s = Done (f (pa_mem s), s).
Proof. unfold on_pages, gets. by rewrite pa_set_id. Qed.
Lemma on_pages_rd64 {S} `{!PageAllocator S} s a : on_pages (rd64 a) s = Done (load64 (pa_mem s) a, s).
Proof. exact (on_pages_gets (λ m, load64 m a) s). Qed.

(** ** [kernel/mem.c] implements the interface *)
Section implementation.
Context (free_page pools : Z).

Definition mem_c_ok (s : kstate) (F : list Z) (lv : list live) : Prop :=
  Forall page_addr F ∧ ∃ qs, kwf free_page pools s qs lv ∧ free_pages qs = F.

Lemma mem_c_alloc s p F lv : mem_c_ok s (p :: F) lv →
  ∃ s', kalloc_page free_page s = Done (p, s') ∧ page_addr p ∧ kept lv (kmem s) (kmem s') ∧
    mem_c_ok s' F (((p, PAGE_SIZE), None) :: lv).
Proof.
  intros (HF & qs & W & E). apply Forall_cons in HF as [Hp HF].
  destruct (kalloc_page_some _ _ _ _ _ _ _ W E) as (s' & Ea & K & W').
  exists s'. split_and!; [done..|]. split; [done|]. eexists. split; [exact W'|].
  destruct W as [Hl _]. apply layout_pages in Hl. unfold free_pages.
  by rewrite list_lookup_insert_eq by (apply lookup_lt_Some in Hl; lia).
Qed.

Lemma mem_c_free s p F lv : mem_c_ok s F (((p, PAGE_SIZE), None) :: lv) → page_addr p →
  ∃ s', kfree_page free_page p s = Done (tt, s') ∧ kept lv (kmem s) (kmem s') ∧
    mem_c_ok s' (p :: F) lv.
Proof.
  intros (HF & qs & W & E) Hp.
  destruct (kfree_page_spec _ _ _ _ _ _ _ W) as (s' & Ea & K & W').
  exists s'. split_and!; [done..|]. split; [by constructor|]. eexists. split; [exact W'|].
  destruct W as [Hl _]. apply layout_pages in Hl. unfold free_pages at 1.
  rewrite list_lookup_insert_eq by (apply lookup_lt_Some in Hl; lia). simpl. by rewrite E.
Qed.

Lemma mem_c_none s lv : mem_c_ok s [] lv →
  ∃ s', kalloc_page free_page s = Done (0, s') ∧ mem_c_ok s' [] lv ∧ kmem s' = kmem s.
Proof.
  intros (HF & qs & W & E). destruct (kalloc_page_none _ _ _ _ _ W E) as (s' & Ea & Em).
  exists s'. split_and!; [done| |done]. split; [done|]. exists qs. split; [|done].
  destruct W. split; [done|]. by rewrite Em.
Qed.

Lemma mem_c_write s F lv p n m' : mem_c_ok s F (((p, n), None) :: lv) →
  agree_off [(p, n)] (kmem s) m' → bytes m' →
  mem_c_ok (mkK m' (alloc_page_cnt s)) F (((p, n), None) :: lv) ∧ kept lv (kmem s) m'.
Proof.
  intros (HF & qs & [Hl W] & E) A B.
  destruct (write_wf _ m' _ _ _ _ _ None W A B) as [W' K].
  { pose proof (wf_live _ _ _ W) as L. apply Forall_cons in L as [[L _] _]. done. }
  split; [|done]. split; [done|]. exists qs. by split; [split|].
Qed.

(** The pages that the boot loop frees are pages of the interface. *)
Lemma init_mem_pages s qs lv e : 0 ≤ e < PHYSTOP →
  let a := (e + PAGE_SIZE - 1) / PAGE_SIZE in let n := PHYSTOP / PAGE_SIZE - a in
  kwf free_page pools s qs (chunks (P2K (a * PAGE_SIZE)) PAGE_SIZE (Z.to_nat n) ++ lv) → free_pages qs = [] →
  ∃ s' F, init_mem free_page (KSPACE_MASK + e) s = Done (tt, s') ∧ mem_c_ok s' F lv ∧ length F = Z.to_nat n.
Proof.
  intros He a n W H0. destruct (init_mem_correct free_page pools s qs lv e He W H0) as (s' & l & E & Hp & W').
  exists s', l. split; [exact E|]. split; [|rewrite Hp, length_fmap; apply length_seqZ]. split.
  - rewrite Hp. apply Forall_forall. intros p (i & -> & Hi%elem_of_seqZ)%list_elem_of_fmap. fold a in Hi.
    assert (0 ≤ a) by (apply Z.div_pos; unfold PAGE_SIZE; lia). unfold page_addr, PHYSTOP, PAGE_SIZE, KSPACE_MASK in *.
    change (0x3f000000 / 4096) with 258048 in Hi. split; [lia|]. split; [lia|].
    change 0xffff000000000000 with (0xffff000000000 * 4096). rewrite <-Z.mul_add_distr_r. apply Z.mod_mul. lia.
  - eexists. split; [exact W'|]. destruct W as [Hl _]. apply layout_pages in Hl. unfold free_pages.
    by rewrite list_lookup_insert_eq by (by eapply lookup_lt_Some).
Qed.

#[export, refine] Instance mem_c_pages : PageAllocator kstate := {|
  pa_mem := kmem;
  pa_set_mem := λ m s, mkK m (alloc_page_cnt s);
  pa_alloc := kalloc_page free_page;
  pa_free := kfree_page free_page;
  pa_ok := mem_c_ok;
  pa_alloc_some := mem_c_alloc;
  pa_alloc_none := mem_c_none;
  pa_free_ok := mem_c_free;
  pa_write := mem_c_write
|}.
Proof.
  - done.
  - by intros [].
  - intros s F lv (_ & qs & [_ W] & _). apply W.
  - intros s F lv (_ & qs & [_ W] & _). pose proof (wf_apart _ _ _ W) as A.
    unfold regions in A. rewrite !no_overlap_app in A. tauto.
  - intros s F lv lv' Hp (HF & qs & W & E). split; [done|]. exists qs.
    split; [by eapply kwf_perm|done].
Defined.
End implementation.

(** ** Five free pages in the allocator of [mem.c], for the witnesses *)
Definition sample_page (i : Z) : Z := 0xffff000000010000 + PAGE_SIZE * i.
Definition sample_mem : mem :=
  store64 256 (sample_page 0) (store64 (sample_page 0) (sample_page 1)
    (store64 (sample_page 1) (sample_page 2) (store64 (sample_page 2) (sample_page 3)
    (store64 (sample_page 3) (sample_page 4) (λ _, 0))))).
Definition sample_pages : kstate := mkK sample_mem 0.
Definition sample_free : list Z := sample_page <$> seqZ 0 5.

Definition sample_alloc : PageAllocator kstate := mem_c_pages 256 512.

Lemma sample_bytes : bytes sample_mem.
Proof. do 5 apply store_bytes. intros a. split; done. Qed.
#[local] Instance chain_dec nx p l : Decision (chain nx p l).
Proof. revert p. induction l as [|q l IH]; intros p; cbn [chain]; apply _. Defined.
#[local] Instance qrep_dec m hd l : Decision (qrep m hd l).
Proof. unfold qrep. apply _. Defined.
(** Any memory with these queues. *)
Lemma sample_memory_ok m lv :
  forallb (λ q : queue, bool_decide (8 ≤ q.1.2 ∧ qrep m q.1.1 q.2)) (sample_queues sample_free) = true →
  bool_decide (no_overlap (regions (sample_queues sample_free) lv)) = true →
  bool_decide (Forall (λ r : Z * Z, 0 < r.1 ∧ r.1 + r.2 ≤ 2 ^ 64) (regions (sample_queues sample_free) lv)) = true →
  bytes m → Forall (live_ok m) lv →
  @pa_ok _ sample_alloc (mkK m 0) sample_free lv.
Proof.
  intros Hq Ha Hr Hb Hl. split; [by apply (bool_decide_unpack _); vm_compute|].
  exists (sample_queues sample_free). split; [|done]. split; [done|]. split.
  - exact Hb.
  - by apply bool_decide_eq_true in Ha.
  - by apply bool_decide_eq_true in Hr.
  - apply Forall_forall. intros q Hin. rewrite forallb_forall in Hq. apply (bool_decide_eq_true_1 _), Hq. by apply list_elem_of_In.
  - done.
Qed.
Lemma sample_pages_ok lv :
  bool_decide (no_overlap (regions (sample_queues sample_free) lv)) = true →
  bool_decide (Forall (λ r : Z * Z, 0 < r.1 ∧ r.1 + r.2 ≤ 2 ^ 64) (regions (sample_queues sample_free) lv)) = true →
  Forall (live_ok sample_mem) lv →
  @pa_ok _ sample_alloc sample_pages sample_free lv.
Proof. intros Ha Hr Hl. by apply (sample_memory_ok sample_mem); [vm_compute|..|apply sample_bytes|]. Qed.
