(* ===== verification/PageTable.v ===== *)
(** * Page tables ([kernel/pt.c], the address macros of [aarch64/mmu.h])

    A table is a page of 512 64-bit entries in the byte memory.  The state is
    a [struct pgdir], the translation base register and the state of the page
    allocator, which is used through the interface of [Pages.v].

    The specification describes the tables by a map from paths (the indices on
    the way from the root) to table addresses, and the content of the address
    space by [leaf], the level-3 entry of every virtual address. *)
From S2P Require Import Prelude Words Memory Strings LockFree Kalloc Pages.

Definition PTE_VALID : Z := 0x1.
Definition PTE_TABLE : Z := 0x3.
Definition N_PTE_PER_TABLE : Z := 512.
Definition PTE_ADDRESS (pte : Z) : Z := Z.land pte (unot 64 0xFFFF000000000FFF).
Definition PTE_FLAGS (pte : Z) : Z := Z.land pte 0xFFFF000000000FFF.
Definition VA_OFFSET (va : Z) : Z := Z.land va 0xFFF.
Definition VA_PART0 (va : Z) : Z := Z.shiftr (Z.land va 0xFF8000000000) 39.
Definition VA_PART1 (va : Z) : Z := Z.shiftr (Z.land va 0x7FC0000000) 30.
Definition VA_PART2 (va : Z) : Z := Z.shiftr (Z.land va 0x3FE00000) 21.
Definition VA_PART3 (va : Z) : Z := Z.shiftr (Z.land va 0x1FF000) 12.

(** [pt] is [pgdir->pt], [ttbr0] the last value of [arch_set_ttbr0]. *)
Record pgdir (S : Type) := mkPgdir { pt : Z; ttbr0 : Z; sys : S }.
Arguments mkPgdir {S}.
Arguments pt {S}.
Arguments ttbr0 {S}.
Arguments sys {S}.

Section operations.
Context {S : Type} `{!PageAllocator S}.

Definition on_sys {A} (m : M S A) : M (pgdir S) A := λ g,
  match m (sys g) with
  | Done (a, s') => Done (a, mkPgdir (pt g) (ttbr0 g) s')
  | Panic => Panic | Crash => Crash | NoFuel => NoFuel
  end.

(** [auto p = kalloc_page(); memset(p, 0, PAGE_SIZE);]: when the allocator has
    no page, [memset] writes through the null pointer. The model ends there in [Crash],
    an access the code has no right to make; a machine on which address 0 is mapped
    would go on and link that page. *)
Definition new_table : M S Z :=
  p ← pa_alloc;
  if decide (p = 0) then crash
  else on_pages (memset p 0 PAGE_SIZE);; mret p.

(** One iteration of the loop of [get_pte]. *)
Definition next_table (alloc : bool) (t i : Z) : M S (option Z) :=
  e ← on_pages (rd64 (t + 8 * i));
  ok ← (if decide (Z.land e PTE_VALID = 0) then
          if alloc then
            p ← new_table;
            on_pages (wr64 (t + 8 * i) (u64 (K2P p + PTE_TABLE)));; mret true
          else mret false
        else mret true);
  if ok : bool then
    e ← on_pages (rd64 (t + 8 * i)); mret (Some (P2K (PTE_ADDRESS e)))
  else mret None.

Fixpoint walk (alloc : bool) (t : Z) (ids : list Z) : M S (option Z) :=
  match ids with
  | [] => mret (Some t)
  | i :: ids' =>
      r ← next_table alloc t i;
      match r with Some t' => walk alloc t' ids' | None => mret None end
  end.

(** [if (!pgdir->pt) ...], whatever [alloc] is. *)
Definition root_table : M (pgdir S) unit :=
  t ← gets pt;
  if decide (t = 0) then
    p ← on_sys new_table; modify (λ g, mkPgdir p (ttbr0 g) (sys g))
  else mret tt.

Definition get_pte (va : Z) (alloc : bool) : M (pgdir S) Z :=
  root_table;;
  t ← gets pt;
  r ← on_sys (walk alloc t [VA_PART0 va; VA_PART1 va; VA_PART2 va]);
  match r with
  | Some t => mret (t + 8 * VA_PART3 va)
  | None => mret 0
  end.

Definition init_pgdir : M (pgdir S) unit := modify (λ g, mkPgdir 0 (ttbr0 g) (sys g)).

Fixpoint _free_pt (fuel : nat) (t lv : Z) : M S unit :=
  match fuel with
  | O => nofuel
  | Datatypes.S fuel' =>
      for_each (seqZ 0 N_PTE_PER_TABLE) (λ i,
        e ← on_pages (rd64 (t + 8 * i));
        if decide (Z.land e PTE_VALID ≠ 0) then
          if decide (lv < 3) then _free_pt fuel' (P2K (PTE_ADDRESS e)) (lv + 1) else mret tt
        else mret tt);;
      pa_free t
  end.

Definition free_pgdir (fuel : nat) : M (pgdir S) unit :=
  t ← gets pt;
  (if decide (t ≠ 0) then on_sys (_free_pt fuel t 0) else mret tt);;
  modify (λ g, mkPgdir 0 (ttbr0 g) (sys g)).

(** [invalid_pt] is the address of the table of that name of [kernel_pt.c]. *)
Definition attach_pgdir (invalid_pt : Z) : M (pgdir S) unit :=
  modify (λ g, mkPgdir (pt g) (if decide (pt g ≠ 0) then K2P (pt g) else K2P invalid_pt) (sys g)).
End operations.

(** ** Address arithmetic *)

Lemma land_field va k n : 0 ≤ k → 0 ≤ n →
  Z.shiftr (Z.land va (Z.shiftl (Z.ones n) k)) k = (va / 2 ^ k) mod 2 ^ n.
Proof.
  intros Hk Hn. rewrite Z.shiftr_land, Z.shiftr_shiftl_l, Z.sub_diag, Z.shiftl_0_r by lia.
  by rewrite Z.land_ones, Z.shiftr_div_pow2.
Qed.

Lemma va_parts va : VA_PART0 va = (va / 2 ^ 39) mod 512 ∧ VA_PART1 va = (va / 2 ^ 30) mod 512 ∧
  VA_PART2 va = (va / 2 ^ 21) mod 512 ∧ VA_PART3 va = (va / 2 ^ 12) mod 512.
Proof.
  split_and!; [apply (land_field va 39 9)|apply (land_field va 30 9)|
    apply (land_field va 21 9)|apply (land_field va 12 9)]; lia.
Qed.

(** The number of the page of a virtual address, in 48 bits. *)
Definition vpn (va : Z) : Z := (va / 2 ^ 12) mod 2 ^ 36.

Definition path (va : Z) : list Z := [VA_PART0 va; VA_PART1 va; VA_PART2 va].

Lemma parts_range va : (0 ≤ VA_PART0 va < 512) ∧ (0 ≤ VA_PART1 va < 512) ∧
  (0 ≤ VA_PART2 va < 512) ∧ (0 ≤ VA_PART3 va < 512).
Proof.
  destruct (va_parts va) as (-> & -> & -> & ->).
  split_and!; by apply Z.mod_pos_bound.
Qed.

(** The four indices and the page number determine each other. *)
Lemma parts_vpn va : vpn va =
  ((VA_PART0 va * 512 + VA_PART1 va) * 512 + VA_PART2 va) * 512 + VA_PART3 va.
Proof.
  destruct (va_parts va) as (-> & -> & -> & ->). unfold vpn.
  replace (2 ^ 39) with (2 ^ 12 * 512 * 512 * 512) by done.
  replace (2 ^ 30) with (2 ^ 12 * 512 * 512) by done.
  replace (2 ^ 21) with (2 ^ 12 * 512) by done.
  rewrite <-(Z.div_div va (2 ^ 12 * 512 * 512) 512), <-(Z.div_div va (2 ^ 12 * 512) 512),
    <-(Z.div_div va (2 ^ 12) 512) by lia.
  generalize (va / 2 ^ 12). intros x. change (2 ^ 36) with (512 * 512 * 512 * 512).
  rewrite (Z.mul_comm _ 512), Z.rem_mul_r by lia. rewrite (Z.mul_comm _ 512), Z.rem_mul_r by lia.
  rewrite Z.rem_mul_r by lia. lia.
Qed.

Lemma same_page va va' : vpn va = vpn va' ↔ path va = path va' ∧ VA_PART3 va = VA_PART3 va'.
Proof.
  rewrite !parts_vpn. unfold path. pose proof (parts_range va). pose proof (parts_range va').
  split; [intros; split; [f_equal; [lia|f_equal; [lia|f_equal; lia]]|lia]|].
  intros [Hp H3]. injection Hp as -> -> ->. by rewrite H3.
Qed.

(** [PTE_ADDRESS] of an aligned 48-bit address with flags in its low 12 bits. *)
Lemma pte_address y f : 0 ≤ y < 2 ^ 36 → 0 ≤ f < 2 ^ 12 → PTE_ADDRESS (4096 * y + f) = 4096 * y.
Proof.
  intros Hy Hf. unfold PTE_ADDRESS. change (unot 64 _) with (Z.shiftl (Z.ones 36) 12).
  assert (E : Z.land (4096 * y + f) (Z.shiftl (Z.ones 36) 12) =
              Z.shiftl (Z.shiftr (Z.land (4096 * y + f) (Z.shiftl (Z.ones 36) 12)) 12) 12).
  { apply Z.bits_inj'. intros j Hj. rewrite (Z.shiftl_spec _ 12) by done.
    destruct (decide (j < 12)).
    - rewrite Z.land_spec, Z.shiftl_spec, !(Z.testbit_neg_r _ (j - 12)) by lia.
      by rewrite andb_false_r.
    - rewrite Z.shiftr_spec by lia. by replace (j - 12 + 12) with j by lia. }
  rewrite E, land_field by lia. rewrite Z.shiftl_mul_pow2 by lia.
  replace ((4096 * y + f) / 2 ^ 12) with y
    by (rewrite Z.mul_comm, Z.div_add_l, (Z.div_small f) by lia; lia).
  rewrite Z.mod_small by lia. lia.
Qed.

(** The entry written for a new table leads back to it. *)
Lemma table_entry_bits p : page_addr p → in_u 64 (K2P p + PTE_TABLE) ∧
  PTE_ADDRESS (K2P p + PTE_TABLE) = K2P p ∧ P2K (K2P p) = p ∧
  Z.land (K2P p + PTE_TABLE) PTE_TABLE = PTE_TABLE.
Proof.
  intros (Hlo & Hhi & Hal). unfold K2P, P2K, KSPACE_MASK, PAGE_SIZE, PTE_TABLE in *.
  assert (∃ y, p = 0xffff000000000000 + 4096 * y ∧ 0 ≤ y < 2 ^ 36) as (y & -> & Hy).
  { exists (p / 4096 - 0xffff000000000). pose proof (Z.div_mod p 4096). lia. }
  rewrite (wrap_small 64 (_ - _)) by (split; lia).
  replace (18446462598732840960 + 4096 * y - 18446462598732840960) with (4096 * y) by lia.
  split_and!; [split; lia|by rewrite pte_address by lia|rewrite wrap_small by (split; lia); lia|].
  change 3 with (Z.ones 2). rewrite Z.land_ones by lia. change (2 ^ 2) with 4.
  change (Z.ones 2) with 3. replace (4096 * y + 3) with (3 + (1024 * y) * 4) by lia.
  by rewrite Z.mod_add.
Qed.

Lemma table_entry p : page_addr p →
  u64 (K2P p + PTE_TABLE) = K2P p + PTE_TABLE ∧
  Z.land (K2P p + PTE_TABLE) PTE_VALID ≠ 0 ∧ P2K (PTE_ADDRESS (K2P p + PTE_TABLE)) = p.
Proof.
  intros Hp. destruct (table_entry_bits p Hp) as (Hr & Ha & Hk & Hb).
  split_and!; [by apply wrap_small| |by rewrite Ha].
  intros H. assert (Hx : Z.land (Z.land (K2P p + PTE_TABLE) PTE_TABLE) PTE_VALID = 0).
  { rewrite <-Z.land_assoc, (Z.land_comm PTE_TABLE), Z.land_assoc, H. done. }
  by rewrite Hb in Hx.
Qed.

(** ** The tables as a map from paths *)
Section tables.
Context {S : Type} `{!PageAllocator S}.
Implicit Types (P : gmap (list Z) Z) (m : mem) (s : S) (lv : list live) (F : list Z).

(** What entry [e] at index [i] of the table at path [π] has to be. *)
Definition entry_for P (π : list Z) (i e : Z) : Prop :=
  match P !! (π ++ [i]) with
  | None => Z.land e PTE_VALID = 0
  | Some t => e = K2P t + PTE_TABLE
  end.

Definition tbl m P (π : list Z) (t : Z) : Prop :=
  page_addr t ∧ ((length π < 3)%nat → ∀ i, 0 ≤ i < 512 → entry_for P π i (load64 m (t + 8 * i))).

Definition closed P : Prop := ∀ π i, is_Some (P !! (π ++ [i])) →
  is_Some (P !! π) ∧ 0 ≤ i < 512 ∧ (length π < 3)%nat.

Definition pwf m P : Prop := closed P ∧ ∀ π t, P !! π = Some t → tbl m P π t.

Definition page_of (x : list Z * Z) : live := ((x.2, PAGE_SIZE), None).
Definition pages P : list live := page_of <$> map_to_list P.

Lemma pages_insert P π t : P !! π = None → pages (<[π := t]> P) ≡ₚ page_of (π, t) :: pages P.
Proof. intros H. unfold pages. by rewrite map_to_list_insert. Qed.
Lemma pages_delete P π t : P !! π = Some t → pages P ≡ₚ page_of (π, t) :: pages (delete π P).
Proof. intros H. unfold pages. by rewrite <-(map_to_list_delete _ _ _ H). Qed.
Lemma pages_in P π t lv : P !! π = Some t → page_of (π, t) ∈ pages P ++ lv.
Proof. intros H. rewrite (pages_delete _ _ _ H). by left. Qed.

Lemma pages_apart P π t ρ u : no_overlap (pages P).*1 → P !! π = Some t → P !! ρ = Some u →
  π ≠ ρ → apart (t, PAGE_SIZE) (u, PAGE_SIZE).
Proof.
  intros A Hp Hr Hne. rewrite (pages_delete _ _ _ Hp) in A.
  rewrite (pages_delete (delete π P) ρ u) in A by by rewrite lookup_delete_ne.
  simpl in A. by destruct A as [[A _]%Forall_cons _].
Qed.

Lemma kept_tbl P Q m m' π t lv : kept (pages Q ++ lv) m m' → Q !! π = Some t →
  tbl m P π t → tbl m' P π t.
Proof.
  intros K Hq [Ha He]. split; [done|]. intros Hl i Hi.
  rewrite (kept_load64 _ m m' t PAGE_SIZE None _ K); [by apply He|by apply (pages_in Q π t lv)|lia|].
  unfold PAGE_SIZE. lia.
Qed.

(** Writing one entry of one table. *)
Lemma write_entry s F P lv π t i v : pa_ok s F (pages P ++ lv) → P !! π = Some t → 0 ≤ i < 512 →
  in_u 64 v → let m' := store64 (t + 8 * i) v (pa_mem s) in
  pa_ok (pa_set_mem m' s) F (pages P ++ lv) ∧ kept lv (pa_mem s) m' ∧
  (∀ ρ u j, P !! ρ = Some u → 0 ≤ j < 512 →
    load64 m' (u + 8 * j) = if decide (ρ = π ∧ j = i) then v else load64 (pa_mem s) (u + 8 * j)).
Proof.
  intros Hok Ht Hi Hv m'. pose proof (pa_apart _ _ _ Hok) as A.
  rewrite fmap_app, no_overlap_app in A. destruct A as [A _].
  assert (Hp : pages P ++ lv ≡ₚ page_of (π, t) :: (pages (delete π P) ++ lv)).
  { by rewrite (pages_delete _ _ _ Ht). }
  pose proof (pa_perm _ _ _ _ Hp Hok) as Hok'.
  destruct (pa_write _ _ _ _ _ m' Hok') as [Hw K].
  { apply (agree_off_outside _ t PAGE_SIZE); [by left|].
    eapply outside_mono; [..|apply (store_outside 8)]; unfold PAGE_SIZE; lia. }
  { apply store_bytes. by eapply pa_bytes. }
  split; [|split].
  - eapply pa_perm; [|exact Hw]. by symmetry.
  - eapply kept_mono; [|exact K]. apply list_subseteq_app_r. reflexivity.
  - intros ρ u j Hu Hj. unfold m'. case_decide as E.
    + destruct E as [-> ->]. simplify_eq. by rewrite load_store_eq.
    + apply (load_store_ne 8 8). destruct (decide (ρ = π)) as [->|Hne].
      * simplify_eq. assert (j ≠ i) by tauto. simpl. lia.
      * pose proof (pages_apart _ _ _ _ _ A Hu Ht Hne) as Hap.
        unfold apart, PAGE_SIZE in Hap. simpl in *. lia.
Qed.

Lemma new_table_some s p F lv : pa_ok s (p :: F) lv →
  ∃ s', new_table s = Done (p, s') ∧ page_addr p ∧ pa_ok s' F (((p, PAGE_SIZE), None) :: lv) ∧
    kept lv (pa_mem s) (pa_mem s') ∧ ∀ j, 0 ≤ j < 512 → load64 (pa_mem s') (p + 8 * j) = 0.
Proof.
  intros Hok. destruct (pa_alloc_some _ _ _ _ Hok) as (s1 & E1 & Hp & K1 & Hok1).
  assert (p ≠ 0) by (destruct Hp; unfold KSPACE_MASK in *; lia).
  destruct (memset_spec p 0 PAGE_SIZE (pa_mem s1)) as (m2 & E2 & O2 & Z2); [done|].
  destruct (pa_write _ _ _ _ _ m2 Hok1) as [Hok2 K2].
  { apply (agree_off_outside _ p PAGE_SIZE); [by left|done]. }
  { intros a. destruct (decide (p ≤ a < p + PAGE_SIZE)) as [Ha|Ha].
    - by rewrite (Z2 a Ha).
    - rewrite O2 by lia. by eapply pa_bytes. }
  exists (pa_set_mem m2 s1). rewrite pa_mem_set. split_and!; [|done|done|by eapply kept_trans|].
  - unfold new_table. m_step E1. rewrite decide_False by done.
    unfold on_pages. unfold mbind at 1, M_bind at 1. by rewrite E2.
  - intros j Hj. apply (memset_zero_load 8 p PAGE_SIZE (pa_mem s1)); [done|done|lia|].
    unfold PAGE_SIZE. simpl. lia.
Qed.

Lemma new_table_none s lv : pa_ok s [] lv → new_table s = Crash.
Proof.
  intros Hok. destruct (pa_alloc_none _ _ Hok) as (s1 & E1 & _). unfold new_table. by m_step E1.
Qed.

(** Entry [j] of the table at path [ρ]; a table that is not there is empty. *)
Definition content m P (ρ : list Z) (j : Z) : Z :=
  match P !! ρ with Some u => load64 m (u + 8 * j) | None => 0 end.

(** A new table below [π], at an index that had none. *)
Lemma pwf_insert P m m' π t i p : pwf m P → P !! π = Some t → (length π < 3)%nat →
  0 ≤ i < 512 → P !! (π ++ [i]) = None → page_addr p →
  (∀ j, 0 ≤ j < 512 → load64 m' (p + 8 * j) = 0) →
  (∀ ρ u j, P !! ρ = Some u → 0 ≤ j < 512 →
    load64 m' (u + 8 * j) = if decide (ρ = π ∧ j = i) then K2P p + PTE_TABLE
                            else load64 m (u + 8 * j)) →
  pwf m' (<[π ++ [i] := p]> P).
Proof.
  intros [Hc H] Ht Hl Hi Hn Hp Hz Hm. split.
  - intros ρ j Hj. destruct (decide (ρ ++ [j] = π ++ [i])) as [E|E].
    + apply app_inj_tail in E as [-> ->]. split_and!; [|lia|lia|done].
      rewrite lookup_insert_is_Some. right. split; [|by eexists].
      intros E. apply (f_equal length) in E. rewrite length_app in E. simpl in E. lia.
    + rewrite lookup_insert_ne in Hj by done. destruct (Hc _ _ Hj) as (Hs & ? & ?).
      split_and!; [|lia|lia|done]. rewrite lookup_insert_is_Some'. by right.
  - intros ρ u. rewrite lookup_insert_Some. intros [[<- <-]|[Hne Hu]].
    + split; [done|]. intros Hlen j Hj. unfold entry_for. rewrite Hz by done.
      rewrite lookup_insert_ne; [|intros E; apply (f_equal length) in E;
        rewrite !length_app in E; simpl in E; lia].
      destruct (P !! ((π ++ [i]) ++ [j])) eqn:E; [|done].
      destruct (Hc (π ++ [i]) j) as [[? Hs] _]; [by eexists|]. congruence.
    + destruct (H ρ u Hu) as [Ha He]. split; [done|]. intros Hlen j Hj.
      rewrite (Hm ρ u j Hu Hj). unfold entry_for. case_decide as E.
      * destruct E as [-> ->]. by rewrite lookup_insert_eq.
      * rewrite lookup_insert_ne by (intros E'; apply app_inj_tail in E' as [-> ->]; tauto).
        by apply He.
Qed.

Definition wf_tables (s : S) F P lv : Prop := pa_ok s F (pages P ++ lv) ∧ pwf (pa_mem s) P.

(** A level of the walk finds the next table, makes it, or stops. *)
Lemma next_table_spec s F P lv π t i alloc : wf_tables s F P lv → P !! π = Some t →
  (length π < 3)%nat → 0 ≤ i < 512 →
  match P !! (π ++ [i]), alloc, F with
  | Some t', _, _ => next_table alloc t i s = Done (Some t', s)
  | None, false, _ => next_table alloc t i s = Done (None, s)
  | None, true, [] => next_table alloc t i s = Crash
  | None, true, p :: F' => ∃ s', next_table alloc t i s = Done (Some p, s') ∧
      let P' := <[π ++ [i] := p]> P in wf_tables s' F' P' lv ∧ kept lv (pa_mem s) (pa_mem s') ∧
      ∀ ρ j, length ρ = 3%nat → 0 ≤ j < 512 →
        content (pa_mem s') P' ρ j = content (pa_mem s) P ρ j
  end.
Proof.
  intros [Hok Hw] Ht Hl Hi. pose proof Hw as [Hc H]. destruct (H π t Ht) as [Ha He].
  specialize (He Hl i Hi). unfold entry_for in He. unfold next_table.
  m_step (on_pages_rd64 s (t + 8 * i)).
  destruct (P !! (π ++ [i])) as [t'|] eqn:E.
  - destruct (H _ _ E) as [Ha' _]. destruct (table_entry _ Ha') as (_ & Hv & Hb).
    rewrite He, decide_False by done. rewrite (bind_done _ _ s true s) by done.
    m_step (on_pages_rd64 s (t + 8 * i)). by rewrite He, Hb.
  - rewrite decide_True by done. destruct alloc; [destruct F as [|p F']|].
    + rewrite bind_crash; [done|]. rewrite bind_crash; [done|].
      destruct (new_table_none s (pages P ++ lv)); done.
    + destruct (new_table_some _ _ _ _ Hok) as (s1 & E1 & Hp & Hok1 & K1 & Z1).
      destruct (table_entry _ Hp) as (Hu & Hv & Hb).
      assert (Hpin : pa_ok s1 F' (pages (<[π ++ [i] := p]> P) ++ lv)).
      { eapply pa_perm; [|exact Hok1]. by rewrite pages_insert. }
      assert (Hkp : ∀ ρ u j, P !! ρ = Some u → 0 ≤ j < 512 →
        load64 (pa_mem s1) (u + 8 * j) = load64 (pa_mem s) (u + 8 * j)).
      { intros ρ u j Hu' Hj. eapply (kept_load64 _ _ _ u PAGE_SIZE None); [exact K1| |lia|].
        - by apply (pages_in P ρ u lv).
        - unfold PAGE_SIZE. lia. }
      assert (Hlt : π ++ [i] ≠ π).
      { intros Hx. apply (f_equal length) in Hx. rewrite length_app in Hx. simpl in Hx. lia. }
      assert (HtP : <[π ++ [i] := p]> P !! π = Some t) by by rewrite lookup_insert_ne.
      destruct (write_entry s1 F' _ lv π t i (K2P p + PTE_TABLE) Hpin HtP Hi)
        as (Hok2 & K2 & Hm).
      { rewrite <-Hu. by apply wrap_range. }
      set (m2 := store64 _ _ _) in Hok2, K2, Hm.
      assert (Hm1 : ∀ ρ u j, P !! ρ = Some u → 0 ≤ j < 512 → load64 m2 (u + 8 * j) =
        if decide (ρ = π ∧ j = i) then K2P p + PTE_TABLE else load64 (pa_mem s) (u + 8 * j)).
      { intros ρ u j Hu' Hj. rewrite (Hm ρ u j); [|rewrite lookup_insert_ne; congruence|done].
        case_decide; [done|by apply (Hkp ρ)]. }
      assert (Hz2 : ∀ j, 0 ≤ j < 512 → load64 m2 (p + 8 * j) = 0).
      { intros j Hj. rewrite (Hm (π ++ [i]) p j); [|by rewrite lookup_insert_eq|done].
        rewrite decide_False by (intros [? _]; done). by apply Z1. }
      exists (pa_set_mem m2 s1). split; [|split; [|split]].
      * rewrite (bind_done _ _ _ true (pa_set_mem m2 s1)).
        { m_step (on_pages_rd64 (pa_set_mem m2 s1) (t + 8 * i)).
          rewrite pa_mem_set, (Hm1 π t i Ht Hi), decide_True by done. by rewrite Hb. }
        m_step E1. unfold on_pages, wr64, modify, mbind, M_bind. by rewrite Hu.
      * split; [done|]. rewrite pa_mem_set. by eapply (pwf_insert P (pa_mem s)).
      * rewrite pa_mem_set. eapply kept_trans; [|exact K2]. eapply kept_mono; [|exact K1].
        apply list_subseteq_app_r. reflexivity.
      * rewrite pa_mem_set. intros ρ j Hρ Hj. unfold content.
        destruct (decide (ρ = π ++ [i])) as [->|Hne].
        { rewrite lookup_insert_eq, E. by apply Hz2. }
        rewrite lookup_insert_ne by done. destruct (P !! ρ) as [u|] eqn:Eu; [|done].
        rewrite (Hm1 ρ u j) by done. apply decide_False. intros [-> _]. lia.
    + by rewrite (bind_done _ _ s false s).
Qed.

Lemma closed_prefix P π ρ : closed P → is_Some (P !! (π ++ ρ)) → is_Some (P !! π).
Proof.
  intros Hc. induction ρ as [|i ρ IH] using rev_ind; [by rewrite app_nil_r|].
  rewrite app_assoc. intros Hs. apply IH. by apply Hc in Hs as [? _].
Qed.

(** The addresses that [F] holds after [n] pages were taken. *)
Lemma walk_alloc s F P lv π t ids : wf_tables s F P lv → P !! π = Some t →
  (length π + length ids ≤ 3)%nat → Forall (λ i, 0 ≤ i < 512) ids → (length ids ≤ length F)%nat →
  ∃ t' s' F' P', walk true t ids s = Done (Some t', s') ∧ wf_tables s' F' P' lv ∧
    P ⊆ P' ∧ P' !! (π ++ ids) = Some t' ∧ kept lv (pa_mem s) (pa_mem s') ∧
    (length F ≤ length F' + length ids)%nat ∧
    ∀ ρ j, length ρ = 3%nat → 0 ≤ j < 512 →
      content (pa_mem s') P' ρ j = content (pa_mem s) P ρ j.
Proof.
  revert s F P π t. induction ids as [|i ids IH]; intros s F P π t W Ht Hl Hi HF; simpl in *.
  { exists t, s, F, P. rewrite app_nil_r. split_and!; [done..|lia|done]. }
  apply Forall_cons in Hi as [Hi Hids].
  pose proof (next_table_spec s F P lv π t i true W Ht ltac:(lia) Hi) as N.
  destruct (P !! (π ++ [i])) as [u|] eqn:E; [|destruct F as [|p F]; [simpl in HF; lia|]].
  - m_step N. destruct (IH s F P (π ++ [i]) u) as (t' & s' & F' & P' & Ew & W' & Hs & Hp & K & HF' & C);
      [done|done|rewrite length_app; simpl; lia|done|lia|].
    rewrite <-app_assoc in Hp. exists t', s', F', P'. split_and!; [done..|lia|done].
  - destruct N as (s1 & E1 & W1 & K1 & C1). m_step E1.
    destruct (IH s1 F _ (π ++ [i]) p W1) as (t' & s' & F' & P' & Ew & W' & Hs & Hp & K & HF' & C);
      [by rewrite lookup_insert_eq|rewrite length_app; simpl; lia|done|simpl in HF; lia|].
    rewrite <-app_assoc in Hp. exists t', s', F', P'.
    split_and!; [done|done| |done|by eapply kept_trans|simpl; lia|].
    + etrans; [|exact Hs]. by apply insert_subseteq.
    + intros ρ j Hρ Hj. rewrite C, C1; done.
Qed.

Lemma walk_lookup s F P lv π t ids : wf_tables s F P lv → P !! π = Some t →
  (length π + length ids ≤ 3)%nat → Forall (λ i, 0 ≤ i < 512) ids →
  walk false t ids s = Done (P !! (π ++ ids), s).
Proof.
  revert π t. induction ids as [|i ids IH]; intros π t W Ht Hl Hi; simpl in *.
  { by rewrite app_nil_r, Ht. }
  apply Forall_cons in Hi as [Hi Hids].
  pose proof (next_table_spec s F P lv π t i false W Ht ltac:(lia) Hi) as N.
  destruct (P !! (π ++ [i])) as [u|] eqn:E; m_step N.
  - rewrite (IH (π ++ [i]) u) by (done || (rewrite length_app; simpl; lia)). by rewrite <-app_assoc.
  - destruct (P !! (π ++ i :: ids)) as [u|] eqn:Eu; [|done].
    destruct W as [_ [Hc _]]. destruct (closed_prefix P (π ++ [i]) ids Hc) as [? ?]; [|congruence].
    rewrite <-app_assoc. by eexists.
Qed.

Lemma walk_no_memory s P lv π t ids : wf_tables s [] P lv → P !! π = Some t →
  (length π + length ids ≤ 3)%nat → Forall (λ i, 0 ≤ i < 512) ids → P !! (π ++ ids) = None →
  walk true t ids s = Crash.
Proof.
  revert π t. induction ids as [|i ids IH]; intros π t W Ht Hl Hi Hn; simpl in *.
  { rewrite app_nil_r in Hn. congruence. }
  apply Forall_cons in Hi as [Hi Hids].
  pose proof (next_table_spec s [] P lv π t i true W Ht ltac:(lia) Hi) as N.
  destruct (P !! (π ++ [i])) as [u|] eqn:E.
  - m_step N. apply (IH (π ++ [i])); [done|done|rewrite length_app; simpl; lia|done|].
    by rewrite <-app_assoc.
  - by rewrite bind_crash.
Qed.

(** ** The address space *)

(** [g] holds the tables [P]; the regions [lv] belong to others. *)
Definition space (g : pgdir S) F P lv : Prop :=
  wf_tables (sys g) F P lv ∧ pt g = default 0 (P !! []).

(** The level-3 entry of a virtual address, 0 when there is no table for it. *)
Definition leaf (g : pgdir S) P (va : Z) : Z := content (pa_mem (sys g)) P (path va) (VA_PART3 va).

Lemma closed_no_root P : closed P → P !! [] = None → P = ∅.
Proof.
  intros Hc Hn. apply map_empty. intros π. destruct (P !! π) eqn:E; [|done].
  destruct (closed_prefix P [] π Hc) as [? ?]; [by eexists|congruence].
Qed.

Lemma pwf_root m p : page_addr p → (∀ j, 0 ≤ j < 512 → load64 m (p + 8 * j) = 0) →
  pwf m {[ [] := p ]}.
Proof.
  intros Hp Hz. split.
  - intros π i [t Ht]. apply lookup_singleton_Some in Ht as [Ht _]. by destruct π.
  - intros π t [<- <-]%lookup_singleton_Some. split; [done|]. intros _ i Hi. unfold entry_for.
    rewrite Hz by done. by rewrite lookup_singleton_ne.
Qed.

Lemma root_pos g F P lv t : space g F P lv → P !! [] = Some t → pt g = t ∧ t ≠ 0.
Proof.
  intros [[_ [_ H]] E] Ht. rewrite E, Ht. split; [done|].
  destruct (H _ _ Ht) as [(Hlo & _ & _) _]. unfold KSPACE_MASK in Hlo. simpl. lia.
Qed.

(** The first lines of [get_pte]. *)
Lemma get_root g F P lv p : space g (p :: F) P lv → P !! [] = None →
  ∃ s', new_table (sys g) = Done (p, s') ∧ page_addr p ∧
    wf_tables s' F {[ [] := p ]} lv ∧ kept lv (pa_mem (sys g)) (pa_mem s') ∧ pt g = 0 ∧
    ∀ ρ j, length ρ = 3%nat → content (pa_mem s') {[ [] := p ]} ρ j = content (pa_mem (sys g)) P ρ j.
Proof.
  intros [[Hok [Hc Hw]] E] Hn. pose proof (closed_no_root _ Hc Hn) as ->.
  destruct (new_table_some _ _ _ _ Hok) as (s1 & E1 & Hp & Hok1 & K1 & Z1).
  exists s1. split_and!; [done|done| |exact K1|done|].
  - split; [|by apply pwf_root]. unfold pages. by rewrite map_to_list_singleton.
  - intros ρ j Hl. unfold content. rewrite lookup_empty, lookup_singleton_ne; [done|]. by intros <-.
Qed.

Lemma path_ok va : length (path va) = 3%nat ∧ Forall (λ i, 0 ≤ i < 512) (path va).
Proof.
  pose proof (parts_range va) as (? & ? & ? & ?). split; [done|].
  by repeat (apply Forall_cons; split; [done|]).
Qed.

(** [get_pte(pgdir, va, true)]. *)
Lemma get_pte_alloc g F P lv va : space g F P lv → (4 ≤ length F)%nat →
  ∃ t g' F' P', get_pte va true g = Done (t + 8 * VA_PART3 va, g') ∧ space g' F' P' lv ∧
    P' !! path va = Some t ∧ kept lv (pa_mem (sys g)) (pa_mem (sys g')) ∧
    ttbr0 g' = ttbr0 g ∧ ∀ va', leaf g' P' va' = leaf g P va'.
Proof.
  intros Sp HF. destruct (path_ok va) as [Hl Hr].
  assert (∃ g1 F1 P1 t1, root_table g = Done (tt, g1) ∧ space g1 F1 P1 lv ∧ P1 !! [] = Some t1 ∧ (3 ≤ length F1)%nat ∧
      kept lv (pa_mem (sys g)) (pa_mem (sys g1)) ∧ ttbr0 g1 = ttbr0 g ∧
      ∀ ρ j, length ρ = 3%nat →
        content (pa_mem (sys g1)) P1 ρ j = content (pa_mem (sys g)) P ρ j)
    as (g1 & F1 & P1 & t1 & E1 & Sp1 & Ht1 & HF1 & K1 & Htt & C1).
  { destruct (P !! []) as [t|] eqn:E.
    - destruct (root_pos _ _ _ _ _ Sp E) as [Hpt H0].
      exists g, F, P, t. split_and!; [|done|done|lia|done..].
      unfold root_table, gets, mbind, M_bind. by rewrite decide_False by congruence.
    - destruct F as [|p F]; [simpl in HF; lia|].
      destruct (get_root _ _ _ _ _ Sp E) as (s1 & E1 & Hp & W1 & K1 & Hpt & C1).
      exists (mkPgdir p (ttbr0 g) s1), F, {[ [] := p ]}, p.
      split_and!; [|by split|by rewrite lookup_singleton_eq|simpl in HF; lia|done..].
      unfold root_table, gets, on_sys, modify, mbind, M_bind.
      rewrite decide_True by done. by rewrite E1. }
  destruct Sp1 as [W1 Hpt1]. destruct (walk_alloc _ _ _ _ [] t1 (path va) W1 Ht1)
    as (t & s' & F' & P' & Ew & W' & Hs & Hp & K & _ & C); [simpl; lia|done|lia|].
  exists t, (mkPgdir (pt g1) (ttbr0 g1) s'), F', P'. split_and!; [|split; [done|]|done| |done|].
  - unfold get_pte. m_step E1. unfold gets, on_sys, mbind, M_bind.
    rewrite Hpt1, Ht1. change (default 0 (Some t1)) with t1. unfold path in Ew. by rewrite Ew.
  - simpl. rewrite Hpt1, Ht1. by rewrite (lookup_weaken _ _ _ _ Ht1 Hs).
  - by eapply kept_trans.
  - intros va'. unfold leaf. destruct (path_ok va') as [Hl' _].
    rewrite <-C1, <-C; [done|done|apply parts_range|done].
Qed.

(** ** Freeing an address space *)

(** The tables of [Q] that are not below entries [0 .. i-1] of the one at [π]. *)
Definition not_below (π : list Z) (i : Z) (Q : gmap (list Z) Z) : gmap (list Z) Z :=
  filter (λ x, ¬ Exists (λ j, (π ++ [j]) `prefix_of` x.1) (seqZ 0 i)) Q.
Definition without (π : list Z) (Q : gmap (list Z) Z) : gmap (list Z) Z :=
  filter (λ x, ¬ π `prefix_of` x.1) Q.

(** The tables still there ([Q]) lie in the tables as they were ([P]), with
    their contents. *)
Definition remain (s : S) F P (Q : gmap (list Z) Z) lv : Prop :=
  pa_ok s F (pages Q ++ lv) ∧ Q ⊆ P ∧ ∀ ρ u, Q !! ρ = Some u → tbl (pa_mem s) P ρ u.

Lemma pages_sub (Q Q' : gmap (list Z) Z) lv : Q' ⊆ Q → pages Q' ++ lv ⊆ pages Q ++ lv.
Proof.
  intros Hs x. rewrite !elem_of_app. intros [Hx|Hx]; [left|by right]. revert Hx.
  unfold pages. rewrite !list_elem_of_fmap. intros ([ρ u] & -> & Hy). exists (ρ, u).
  split; [done|]. apply elem_of_map_to_list in Hy. apply elem_of_map_to_list.
  by eapply lookup_weaken.
Qed.

Lemma remain_step s s' F F' P Q Q' lv : remain s F P Q lv → Q' ⊆ Q →
  pa_ok s' F' (pages Q' ++ lv) → kept (pages Q' ++ lv) (pa_mem s) (pa_mem s') →
  remain s' F' P Q' lv.
Proof.
  intros (_ & Hs & H) Hq Hok K. split; [done|]. split; [by etrans|].
  intros ρ u Hu. eapply kept_tbl; [exact K|done|]. apply H. by eapply lookup_weaken.
Qed.

Lemma not_below_0 π Q : not_below π 0 Q = Q.
Proof. apply map_filter_id. intros ρ u _. rewrite seqZ_nil by lia. by intros ?%Exists_nil. Qed.

Lemma not_below_step π i Q : 0 ≤ i → without (π ++ [i]) (not_below π i Q) = not_below π (i + 1) Q.
Proof.
  intros Hi. unfold without, not_below. rewrite map_filter_filter. apply map_filter_ext.
  intros ρ u _. simpl. rewrite seqZ_app by lia.
  rewrite (seqZ_cons (0 + i) 1), (seqZ_nil (Z.succ _)) by lia.
  rewrite Exists_app, Exists_cons, Exists_nil, Z.add_0_l. tauto.
Qed.

Lemma not_below_lookup π i Q ρ : ((π ++ [i]) `prefix_of` ρ) → not_below π i Q !! ρ = Q !! ρ.
Proof.
  intros [σ ->]. unfold not_below. destruct (Q !! _) as [u|] eqn:E.
  - apply map_lookup_filter_Some. split; [done|]. rewrite Exists_exists.
    intros (j & Hj & [τ Hτ]). simpl in Hτ. rewrite <-!app_assoc in Hτ.
    apply app_inv_head in Hτ. simpl in Hτ. injection Hτ as -> _.
    apply elem_of_seqZ in Hj. lia.
  - apply map_lookup_filter_None. by left.
Qed.

Lemma not_below_all P Q π t : closed P → Q ⊆ P → Q !! π = Some t →
  not_below π 512 Q !! π = Some t ∧ delete π (not_below π 512 Q) = without π Q.
Proof.
  intros Hc Hs Ht.
  assert (Hπ : ¬ Exists (λ j, (π ++ [j]) `prefix_of` π) (seqZ 0 512)).
  { rewrite Exists_exists. intros (j & _ & Hp). apply prefix_length in Hp.
    rewrite length_app in Hp. simpl in Hp. lia. }
  split; [by apply map_lookup_filter_Some|].
  apply map_eq. intros ρ. unfold without. destruct (decide (π `prefix_of` ρ)) as [Hp|Hp].
  - transitivity (@None Z).
    2:{ symmetry. apply map_lookup_filter_None. right. simpl. intros u _ H. by apply H. }
    destruct (decide (ρ = π)) as [->|Hne]; [by rewrite lookup_delete_eq|].
    rewrite lookup_delete_ne by done. apply map_lookup_filter_None. right. simpl.
    intros u Hu Hn. apply Hn. destruct Hp as [[|j σ] ->]; [by rewrite app_nil_r in Hne|].
    apply Exists_exists. exists j. split; [|by exists σ; rewrite <-app_assoc].
    destruct (closed_prefix P (π ++ [j]) σ Hc) as [v Hv].
    { rewrite <-app_assoc. eexists. by eapply lookup_weaken. }
    destruct (Hc π j) as (_ & Hj & _); [by eexists|]. apply elem_of_seqZ. lia.
  - rewrite lookup_delete_ne by (by intros <-).
    destruct (Q !! ρ) as [u|] eqn:E.
    + transitivity (Some u); [|symmetry]; apply map_lookup_filter_Some; (split; [done|]); [|done].
      simpl. rewrite Exists_exists. intros (j & _ & [σ Hσ]). apply Hp. exists (j :: σ).
      by rewrite Hσ, <-app_assoc.
    + transitivity (@None Z); [|symmetry]; apply map_lookup_filter_None; by left.
Qed.

Lemma without_sub π Q : without π Q ⊆ Q.
Proof. apply map_filter_subseteq. Qed.
Lemma not_below_sub π i Q : not_below π i Q ⊆ Q.
Proof. apply map_filter_subseteq. Qed.

(** The free pages and the tables together stay the same. *)
Definition same_total F (Q : gmap (list Z) Z) F' (Q' : gmap (list Z) Z) : Prop :=
  F' ++ (map_to_list Q').*2 ≡ₚ F ++ (map_to_list Q).*2.

(** The specification of [_free_pt] with [fuel], for the tables [P]. *)
Definition frees P lv fuel : Prop := ∀ s F Q π t, remain s F P Q lv →
  (length π ≤ 3)%nat → (3 - length π < fuel)%nat → P !! π = Some t →
  (∀ ρ, π `prefix_of` ρ → Q !! ρ = P !! ρ) →
  ∃ s' F', _free_pt fuel t (Z.of_nat (length π)) s = Done (tt, s') ∧
    remain s' F' P (without π Q) lv ∧
    kept (pages (without π Q) ++ lv) (pa_mem s) (pa_mem s') ∧ same_total F Q F' (without π Q).

(** The loop of [_free_pt] before entry [i]. *)
Definition freed_to s F P Q lv π i s' : Prop := ∃ F', remain s' F' P (not_below π i Q) lv ∧
  kept (pages (not_below π i Q) ++ lv) (pa_mem s) (pa_mem s') ∧ same_total F Q F' (not_below π i Q).

(** An entry without a table below it. *)
Lemma not_below_skip P Q π i : closed P → Q ⊆ P → 0 ≤ i →
  P !! (π ++ [i]) = None → not_below π (i + 1) Q = not_below π i Q.
Proof.
  intros Hc Hs Hi Hn. rewrite <-not_below_step by lia. apply map_filter_id.
  intros ρ v Hv [σ Hσ]. simpl in Hσ. subst ρ.
  destruct (closed_prefix P (π ++ [i]) σ Hc) as [? ?]; [|congruence].
  eexists. eapply lookup_weaken; [exact Hv|]. etrans; [apply not_below_sub|done].
Qed.

Lemma free_entry s F P Q lv π t fuel i s1 : closed P → frees P lv fuel → Q ⊆ P →
  (length π ≤ 3)%nat → (3 - length π < Datatypes.S fuel)%nat → Q !! π = Some t →
  (∀ ρ, π `prefix_of` ρ → Q !! ρ = P !! ρ) → 0 ≤ i < 512 →
  freed_to s F P Q lv π i s1 →
  ∃ s2, (e ← on_pages (rd64 (t + 8 * i));
        if decide (Z.land e PTE_VALID ≠ 0) then
          if decide (Z.of_nat (length π) < 3)
          then _free_pt fuel (P2K (PTE_ADDRESS e)) (Z.of_nat (length π) + 1) else mret tt
        else mret tt) s1 = Done (tt, s2) ∧ freed_to s F P Q lv π (i + 1) s2.
Proof.
  intros Hc IH Hs Hl Hf Hq Hu Hi (F1 & R1 & K1 & T1). m_step (on_pages_rd64 s1 (t + 8 * i)).
  assert (Hn : not_below π i Q !! π = Some t).
  { apply map_lookup_filter_Some. split; [done|]. rewrite Exists_exists.
    intros (j & _ & Hp). apply prefix_length in Hp. rewrite length_app in Hp. simpl in Hp. lia. }
  destruct (R1) as (Hok1 & Hs1 & Ht1). destruct (Ht1 _ _ Hn) as [_ He].
  destruct (P !! (π ++ [i])) as [u|] eqn:Eu.
  - destruct (Hc π i) as (_ & _ & Hlt); [by eexists|]. specialize (He Hlt i Hi).
    unfold entry_for in He. rewrite Eu in He.
    assert (Hin : not_below π i Q !! (π ++ [i]) = Some u).
    { rewrite not_below_lookup by done. rewrite Hu; [done|]. by exists [i]. }
    destruct (Ht1 _ _ Hin) as [Hpa _]. destruct (table_entry _ Hpa) as (_ & Hv & Hb).
    rewrite He, Hb, decide_True, decide_True by (done || lia).
    assert (Hlen : Z.of_nat (length π) + 1 = Z.of_nat (length (π ++ [i])))
      by (rewrite length_app; simpl; lia).
    rewrite Hlen. destruct (IH s1 F1 (not_below π i Q) (π ++ [i]) u)
      as (s2 & F2 & E2 & R2 & K2 & T2); [done|rewrite length_app; simpl; lia| |done| |].
    { rewrite length_app. simpl. lia. }
    { intros ρ Hρ. rewrite not_below_lookup by done. apply Hu. etrans; [|exact Hρ]. by exists [i]. }
    exists s2. split; [done|]. rewrite not_below_step in R2, K2, T2 by lia.
    exists F2. split_and!; [done| |unfold same_total in *; by rewrite T2, T1].
    eapply kept_trans; [|exact K2]. eapply kept_mono; [|exact K1]. apply pages_sub.
    rewrite <-not_below_step by lia. apply without_sub.
  - exists s1. split.
    + destruct (decide (length π < 3)%nat) as [Hlt|]; [|by repeat case_decide; try lia].
      specialize (He Hlt i Hi). unfold entry_for in He. rewrite Eu in He.
      by rewrite He, decide_False by (intros H; by apply H).
    + exists F1. by rewrite (not_below_skip P) by (done || lia).
Qed.

Lemma free_pt_spec P lv fuel : closed P → frees P lv fuel.
Proof.
  intros Hc. induction fuel as [|fuel IH]; intros s F Q π t R Hl Hf Ht Hu; [lia|].
  assert (Hq : Q !! π = Some t) by by rewrite Hu.
  destruct (for_seq_rule _ (freed_to s F P Q lv π) 0 512 ltac:(lia)
    (λ i s1 Hi, free_entry s F P Q lv π t fuel i s1 Hc IH (proj1 (proj2 R)) Hl Hf Hq Hu Hi)
    s) as ([] & s1 & E1 & F1 & R1 & K1 & T1).
  { exists F. rewrite not_below_0. split; [exact R|split; [done|]]. unfold same_total. reflexivity. }
  change (0 + 512) with 512 in *.
  destruct (not_below_all P Q π t Hc) as [Hn Hd]; [by destruct R as (_ & ? & _)|done|].
  destruct (R1) as (Hok1 & Hs1 & Ht1). destruct (Ht1 _ _ Hn) as [Hpa _].
  assert (Hok2 : pa_ok s1 F1 (((t, PAGE_SIZE), None) :: pages (without π Q) ++ lv)).
  { eapply pa_perm; [|exact Hok1]. rewrite (pages_delete _ _ _ Hn), Hd. done. }
  destruct (pa_free_ok _ _ _ _ Hok2 Hpa) as (s2 & E2 & K2 & Hok3).
  exists s2, (t :: F1). split_and!.
  - cbn [_free_pt]. m_step E1. done.
  - eapply (remain_step s1); [exact R1| |done|done]. rewrite <-Hd. apply delete_subseteq.
  - eapply kept_trans; [|exact K2]. intros x a Hx. apply K1.
    rewrite (pages_delete _ _ _ Hn), Hd. by right.
  - unfold same_total in *. rewrite <-T1, <-(map_to_list_delete _ _ _ Hn), Hd. simpl.
    solve_Permutation.
Qed.
End tables.

(** ** Theorems *)
Section theorems.
Context {S : Type} `{!PageAllocator S}.
Implicit Types (P : gmap (list Z) Z) (F : list Z) (lv : list live) (g : pgdir S).

(** A client's [*slot = v]. *)
Definition write_pte (slot v : Z) : M (pgdir S) unit := on_sys (on_pages (wr64 slot v)).

(** C11: [get_pte] with [alloc] and a client's write through it implement a map
    from 48-bit virtual pages to entries. Given four free pages, [get_pte] answers
    the slot of [va]'s page: allocating the missing tables changes no entry of any
    virtual address and no memory of anyone else, and the tables stay well
    formed. Writing [v] to the slot sets the entry of exactly the addresses of the
    same page (bits 12 to 47), again with well-formed tables. *)
Theorem get_pte_maps g F P lv va v : space g F P lv → (4 ≤ length F)%nat → in_u 64 v →
  ∃ slot g1 g2 F' P', get_pte va true g = Done (slot, g1) ∧
    space g1 F' P' lv ∧ (∀ va', leaf g1 P' va' = leaf g P va') ∧
    write_pte slot v g1 = Done (tt, g2) ∧ space g2 F' P' lv ∧
    (∀ va', leaf g2 P' va' = if decide (vpn va' = vpn va) then v else leaf g P va') ∧
    kept lv (pa_mem (sys g)) (pa_mem (sys g2)).
Proof.
  intros Sp HF Hv. destruct (get_pte_alloc g F P lv va Sp HF)
    as (t & g1 & F' & P' & E & Sp1 & Hp & K & Ett & L). pose proof (parts_range va) as (_ & _ & _ & R3).
  destruct Sp1 as [[Hok Hw] Hpt].
  destruct (write_entry _ _ _ _ _ _ _ v Hok Hp R3 Hv) as (Hok2 & K2 & Hm).
  set (m' := store64 _ _ _) in *.
  exists (t + 8 * VA_PART3 va), g1, (mkPgdir (pt g1) (ttbr0 g1) (pa_set_mem m' (sys g1))), F', P'.
  split; [done|]. split; [done|]. split; [done|]. split; [done|]. split; [|split].
  - split; [|done]. split; [done|]. simpl. rewrite pa_mem_set. destruct Hw as [Hc H]. split; [done|].
    intros ρ u Hu. destruct (H ρ u Hu) as [Ha He]. split; [done|]. intros Hl i Hi.
    rewrite (Hm ρ u i Hu Hi), decide_False; [by apply He|]. intros [-> _]. simpl in Hl. lia.
  - intros va'. rewrite <-L. unfold leaf, content. simpl. rewrite pa_mem_set.
    destruct (P' !! path va') as [u|] eqn:Eu.
    + rewrite (Hm _ _ _ Eu) by apply parts_range.
      apply decide_ext. rewrite (same_page va' va). done.
    + rewrite decide_False; [done|]. intros Hx. apply same_page in Hx as [Hx _]. congruence.
  - simpl. rewrite pa_mem_set. by eapply kept_trans.
Qed.

(** [get_pte] without [alloc] on an address space that has a root answers
    the slot if the three tables on the way are there and [NULL] otherwise, and
    changes nothing. *)
Theorem get_pte_lookup g F P lv va : space g F P lv → is_Some (P !! []) →
  get_pte va false g =
    Done (match P !! path va with Some t => t + 8 * VA_PART3 va | None => 0 end, g).
Proof.
  intros Sp [t Ht]. destruct (root_pos _ _ _ _ _ Sp Ht) as [Hpt H0]. destruct (path_ok va) as [Hl Hr].
  pose proof (walk_lookup _ _ _ _ [] t (path va) (proj1 Sp) Ht ltac:(by rewrite Hl) Hr) as W.
  assert (E : root_table g = Done (tt, g)).
  { unfold root_table, gets, mbind, M_bind. by rewrite decide_False by congruence. }
  unfold get_pte. m_step E. unfold gets, on_sys, mbind, M_bind. rewrite Hpt. unfold path in W at 1.
  rewrite W. change ([] ++ path va) with (path va). rewrite <-Hpt. destruct g.
  by destruct (P !! path va).
Qed.

(** [get_pte] never tests what [kalloc_page] answers: when a table is
    missing and no page is free, the kernel faults instead of getting [NULL].
    The same happens without [alloc] when the address space has no root yet. *)
Theorem get_pte_no_memory g P lv va alloc : space g [] P lv →
  match P !! [] with None => True | Some _ => alloc = true ∧ P !! path va = None end →
  get_pte va alloc g = Crash.
Proof.
  intros Sp H. unfold get_pte. destruct (P !! []) as [t|] eqn:Ht.
  - destruct H as [-> Hn]. destruct (root_pos _ _ _ _ _ Sp Ht) as [Hpt H0].
    destruct (path_ok va) as [Hl Hr].
    pose proof (walk_no_memory _ _ _ [] t (path va) (proj1 Sp) Ht ltac:(by rewrite Hl) Hr Hn) as W.
    assert (E : root_table g = Done (tt, g)).
    { unfold root_table, gets, mbind, M_bind. by rewrite decide_False by congruence. }
    m_step E. unfold gets, on_sys, mbind, M_bind. rewrite Hpt. unfold path in W. by rewrite W.
  - rewrite bind_crash; [done|]. destruct Sp as [[Hok _] Hpt]. rewrite Ht in Hpt. simpl in Hpt.
    unfold root_table, gets, on_sys, mbind, M_bind. rewrite decide_True by done.
    by rewrite (new_table_none _ _ Hok).
Qed.

(** [free_pgdir] of a well-formed tree. *)
Lemma free_pgdir_spec g F P lv fuel : space g F P lv → (4 ≤ fuel)%nat →
  ∃ g' F', free_pgdir fuel g = Done (tt, g') ∧ space g' F' ∅ lv ∧
    F' ≡ₚ (map_to_list P).*2 ++ F ∧ kept lv (pa_mem (sys g)) (pa_mem (sys g')).
Proof.
  intros Sp Hfuel. destruct (P !! []) as [t|] eqn:Ht.
  - destruct (root_pos _ _ _ _ _ Sp Ht) as [Hpt H0]. destruct Sp as [[Hok [Hc Hw]] _].
    destruct (free_pt_spec P lv fuel Hc (sys g) F P [] t) as (s' & F' & E & R & K & T);
      [by split|simpl; lia|simpl; lia|done|done|].
    assert (W : without [] P = ∅).
    { apply map_empty. intros ρ. apply map_lookup_filter_None. right.
      intros u _ H. apply H. apply prefix_nil. }
    rewrite W in *. destruct R as (Hok' & _ & _).
    exists (mkPgdir 0 (ttbr0 g) s'), F'. split; [|split; [|split]].
    + unfold free_pgdir, gets, modify, on_sys. unfold mbind, M_bind.
      rewrite Hpt, decide_True by done. change 0 with (Z.of_nat (length (@nil Z))) at 1. by rewrite E.
    + split; [|done]. split; [done|]. split; [by intros ?? [??]|done].
    + unfold same_total in T. rewrite map_to_list_empty, app_nil_r in T. rewrite T. solve_Permutation.
    + eapply kept_mono; [|exact K]. apply list_subseteq_app_r. reflexivity.
  - pose proof Sp as [[Hok [Hc Hw]] Hpt]. pose proof (closed_no_root _ Hc Ht) as ->.
    exists (mkPgdir 0 (ttbr0 g) (sys g)), F. split; [|split; [|split]].
    + unfold free_pgdir, gets, mbind, M_bind. rewrite decide_False; [done|].
      intros Hx. apply Hx. by rewrite Hpt.
    + by split.
    + by rewrite map_to_list_empty.
    + done.
Qed.

(** C23: [free_pgdir] gives every table back to the allocator exactly once, in
    four levels of recursion, touches no memory of anyone else, and leaves an
    address space without a root. The pages mapped by level-3 entries are not
    freed. *)
Theorem free_pgdir_frees g F P lv : space g F P lv →
  ∃ g' F', free_pgdir 4 g = Done (tt, g') ∧ space g' F' ∅ lv ∧
    F' ≡ₚ (map_to_list P).*2 ++ F ∧ kept lv (pa_mem (sys g)) (pa_mem (sys g')).
Proof. intros Sp. exact (free_pgdir_spec g F P lv 4 Sp (le_n 4)). Qed.
End theorems.

#[local] Existing Instance sample_alloc.

(** An empty address space. *)
Lemma sample_space : space (mkPgdir 0 0 sample_pages) sample_free ∅ [].
Proof.
  split; [|done]. split; [|by split; [intros ?? [??]|]].
  apply sample_pages_ok; [by vm_compute..|by apply Forall_nil].
Qed.

Lemma get_pte_maps_witness : ∃ slot g1, get_pte 0x400000 true (mkPgdir 0 0 sample_pages) = Done (slot, g1) ∧
  ∃ g2, write_pte slot 77 g1 = Done (tt, g2).
Proof.
  destruct (get_pte_maps (mkPgdir 0 0 sample_pages) sample_free ∅ [] 0x400000 77 sample_space)
    as (slot & g1 & g2 & F' & P' & E1 & _ & _ & E2 & _); [by vm_compute; lia|done|].
  exists slot, g1. split; [exact E1|]. by exists g2.
Defined.

(** An address space whose root is the only page of the allocator. *)
Definition sample_root : pgdir kstate := mkPgdir (sample_page 0) 0 (mkK (λ _, 0) 0).

Lemma sample_root_space : space sample_root [] {[ [] := sample_page 0 ]} [].
Proof.
  split; [|done]. split; [|apply pwf_root; [by apply (bool_decide_unpack _); vm_compute|done]].
  split; [by apply Forall_nil|]. exists (sample_queues []). split; [|done]. split; [done|].
  unfold pages. rewrite map_to_list_singleton. split.
  - intros a. split; done.
  - apply (bool_decide_unpack _). by vm_compute.
  - apply (bool_decide_unpack _). by vm_compute.
  - repeat (apply Forall_cons; split; [split; [by vm_compute|]; unfold qrep, chain; by vm_compute|]).
    by apply Forall_nil.
  - apply Forall_cons. split; [by split|by apply Forall_nil].
Qed.

Lemma get_pte_lookup_witness : get_pte 0x400000 false sample_root = Done (0, sample_root).
Proof.
  rewrite (get_pte_lookup sample_root [] {[ [] := sample_page 0 ]} [] 0x400000 sample_root_space).
  - by vm_compute.
  - by exists (sample_page 0).
Defined.

Lemma get_pte_no_memory_witness : get_pte 0x400000 true sample_root = Crash.
Proof.
  apply (get_pte_no_memory sample_root {[ [] := sample_page 0 ]} [] 0x400000 true sample_root_space).
  by vm_compute.
Defined.

Lemma free_pgdir_frees_witness : ∃ g', free_pgdir 4 sample_root = Done (tt, g') ∧
  load64 (kmem (sys g')) 256 = sample_page 0.
Proof.
  destruct (free_pgdir_frees sample_root [] {[ [] := sample_page 0 ]} [] sample_root_space)
    as (g' & F' & E & Sp & Hp & _).
  exists g'. split; [exact E|]. rewrite map_to_list_singleton in Hp.
  apply Permutation_singleton_r in Hp as ->.
  destruct Sp as [[(_ & qs & [Hl W] & HF) _] _]. apply layout_pages in Hl. rewrite HF in Hl.
  pose proof (wf_queues _ _ _ W) as Q. rewrite Forall_lookup in Q.
  destruct (Q _ _ Hl) as [_ Hq]. apply Hq.
Defined.
