(* ===== verification/KernelPt.v ===== *)
(** * The kernel's page tables ([aarch64/kernel_pt.c])

    The three static tables, with the memory attributes of [aarch64/mmu.h],
    and the translation the MMU derives from them.  The addresses of the tables
    are chosen by the linker and are parameters; the tables themselves are the
    512 entries of the source. *)
From S2P Require Import Prelude Words Kalloc Pages PageTable.

Definition MT_DEVICE_nGnRnE : Z := 0x0.
Definition MT_NORMAL : Z := 0x1.
Definition SH_OUTER : Z := Z.shiftl 2 8.
Definition AF_USED : Z := Z.shiftl 1 10.
Definition PTE_BLOCK : Z := 0x1.
Definition PTE_KERNEL : Z := Z.shiftl 0 6.
Definition PTE_NORMAL : Z := Z.lor (Z.lor (Z.shiftl MT_NORMAL 2) AF_USED) SH_OUTER.
Definition PTE_DEVICE : Z := Z.lor (Z.shiftl MT_DEVICE_nGnRnE 2) AF_USED.
Definition PTE_KERNEL_DATA : Z := Z.lor (Z.lor PTE_KERNEL PTE_NORMAL) PTE_BLOCK.
Definition PTE_KERNEL_DEVICE : Z := Z.lor (Z.lor PTE_KERNEL PTE_DEVICE) PTE_BLOCK.

#[local] Infix "∣" := Z.lor (at level 50, left associativity).

Definition _kernel_pt_level3 : list Z := [
  0x0 ∣ PTE_KERNEL_DATA; 0x200000 ∣ PTE_KERNEL_DATA; 0x400000 ∣ PTE_KERNEL_DATA;
  0x600000 ∣ PTE_KERNEL_DATA; 0x800000 ∣ PTE_KERNEL_DATA; 0xa00000 ∣ PTE_KERNEL_DATA;
  0xc00000 ∣ PTE_KERNEL_DATA; 0xe00000 ∣ PTE_KERNEL_DATA; 0x1000000 ∣ PTE_KERNEL_DATA;
  0x1200000 ∣ PTE_KERNEL_DATA; 0x1400000 ∣ PTE_KERNEL_DATA; 0x1600000 ∣ PTE_KERNEL_DATA;
  0x1800000 ∣ PTE_KERNEL_DATA; 0x1a00000 ∣ PTE_KERNEL_DATA; 0x1c00000 ∣ PTE_KERNEL_DATA;
  0x1e00000 ∣ PTE_KERNEL_DATA; 0x2000000 ∣ PTE_KERNEL_DATA; 0x2200000 ∣ PTE_KERNEL_DATA;
  0x2400000 ∣ PTE_KERNEL_DATA; 0x2600000 ∣ PTE_KERNEL_DATA; 0x2800000 ∣ PTE_KERNEL_DATA;
  0x2a00000 ∣ PTE_KERNEL_DATA; 0x2c00000 ∣ PTE_KERNEL_DATA; 0x2e00000 ∣ PTE_KERNEL_DATA;
  0x3000000 ∣ PTE_KERNEL_DATA; 0x3200000 ∣ PTE_KERNEL_DATA; 0x3400000 ∣ PTE_KERNEL_DATA;
  0x3600000 ∣ PTE_KERNEL_DATA; 0x3800000 ∣ PTE_KERNEL_DATA; 0x3a00000 ∣ PTE_KERNEL_DATA;
  0x3c00000 ∣ PTE_KERNEL_DATA; 0x3e00000 ∣ PTE_KERNEL_DATA; 0x4000000 ∣ PTE_KERNEL_DATA;
  0x4200000 ∣ PTE_KERNEL_DATA; 0x4400000 ∣ PTE_KERNEL_DATA; 0x4600000 ∣ PTE_KERNEL_DATA;
  0x4800000 ∣ PTE_KERNEL_DATA; 0x4a00000 ∣ PTE_KERNEL_DATA; 0x4c00000 ∣ PTE_KERNEL_DATA;
  0x4e00000 ∣ PTE_KERNEL_DATA; 0x5000000 ∣ PTE_KERNEL_DATA; 0x5200000 ∣ PTE_KERNEL_DATA;
  0x5400000 ∣ PTE_KERNEL_DATA; 0x5600000 ∣ PTE_KERNEL_DATA; 0x5800000 ∣ PTE_KERNEL_DATA;
  0x5a00000 ∣ PTE_KERNEL_DATA; 0x5c00000 ∣ PTE_KERNEL_DATA; 0x5e00000 ∣ PTE_KERNEL_DATA;
  0x6000000 ∣ PTE_KERNEL_DATA; 0x6200000 ∣ PTE_KERNEL_DATA; 0x6400000 ∣ PTE_KERNEL_DATA;
  0x6600000 ∣ PTE_KERNEL_DATA; 0x6800000 ∣ PTE_KERNEL_DATA; 0x6a00000 ∣ PTE_KERNEL_DATA;
  0x6c00000 ∣ PTE_KERNEL_DATA; 0x6e00000 ∣ PTE_KERNEL_DATA; 0x7000000 ∣ PTE_KERNEL_DATA;
  0x7200000 ∣ PTE_KERNEL_DATA; 0x7400000 ∣ PTE_KERNEL_DATA; 0x7600000 ∣ PTE_KERNEL_DATA;
  0x7800000 ∣ PTE_KERNEL_DATA; 0x7a00000 ∣ PTE_KERNEL_DATA; 0x7c00000 ∣ PTE_KERNEL_DATA;
  0x7e00000 ∣ PTE_KERNEL_DATA; 0x8000000 ∣ PTE_KERNEL_DATA; 0x8200000 ∣ PTE_KERNEL_DATA;
  0x8400000 ∣ PTE_KERNEL_DATA; 0x8600000 ∣ PTE_KERNEL_DATA; 0x8800000 ∣ PTE_KERNEL_DATA;
  0x8a00000 ∣ PTE_KERNEL_DATA; 0x8c00000 ∣ PTE_KERNEL_DATA; 0x8e00000 ∣ PTE_KERNEL_DATA;
  0x9000000 ∣ PTE_KERNEL_DATA; 0x9200000 ∣ PTE_KERNEL_DATA; 0x9400000 ∣ PTE_KERNEL_DATA;
  0x9600000 ∣ PTE_KERNEL_DATA; 0x9800000 ∣ PTE_KERNEL_DATA; 0x9a00000 ∣ PTE_KERNEL_DATA;
  0x9c00000 ∣ PTE_KERNEL_DATA; 0x9e00000 ∣ PTE_KERNEL_DATA; 0xa000000 ∣ PTE_KERNEL_DATA;
  0xa200000 ∣ PTE_KERNEL_DATA; 0xa400000 ∣ PTE_KERNEL_DATA; 0xa600000 ∣ PTE_KERNEL_DATA;
  0xa800000 ∣ PTE_KERNEL_DATA; 0xaa00000 ∣ PTE_KERNEL_DATA; 0xac00000 ∣ PTE_KERNEL_DATA;
  0xae00000 ∣ PTE_KERNEL_DATA; 0xb000000 ∣ PTE_KERNEL_DATA; 0xb200000 ∣ PTE_KERNEL_DATA;
  0xb400000 ∣ PTE_KERNEL_DATA; 0xb600000 ∣ PTE_KERNEL_DATA; 0xb800000 ∣ PTE_KERNEL_DATA;
  0xba00000 ∣ PTE_KERNEL_DATA; 0xbc00000 ∣ PTE_KERNEL_DATA; 0xbe00000 ∣ PTE_KERNEL_DATA;
  0xc000000 ∣ PTE_KERNEL_DATA; 0xc200000 ∣ PTE_KERNEL_DATA; 0xc400000 ∣ PTE_KERNEL_DATA;
  0xc600000 ∣ PTE_KERNEL_DATA; 0xc800000 ∣ PTE_KERNEL_DATA; 0xca00000 ∣ PTE_KERNEL_DATA;
  0xcc00000 ∣ PTE_KERNEL_DATA; 0xce00000 ∣ PTE_KERNEL_DATA; 0xd000000 ∣ PTE_KERNEL_DATA;
  0xd200000 ∣ PTE_KERNEL_DATA; 0xd400000 ∣ PTE_KERNEL_DATA; 0xd600000 ∣ PTE_KERNEL_DATA;
  0xd800000 ∣ PTE_KERNEL_DATA; 0xda00000 ∣ PTE_KERNEL_DATA; 0xdc00000 ∣ PTE_KERNEL_DATA;
  0xde00000 ∣ PTE_KERNEL_DATA; 0xe000000 ∣ PTE_KERNEL_DATA; 0xe200000 ∣ PTE_KERNEL_DATA;
  0xe400000 ∣ PTE_KERNEL_DATA; 0xe600000 ∣ PTE_KERNEL_DATA; 0xe800000 ∣ PTE_KERNEL_DATA;
  0xea00000 ∣ PTE_KERNEL_DATA; 0xec00000 ∣ PTE_KERNEL_DATA; 0xee00000 ∣ PTE_KERNEL_DATA;
  0xf000000 ∣ PTE_KERNEL_DATA; 0xf200000 ∣ PTE_KERNEL_DATA; 0xf400000 ∣ PTE_KERNEL_DATA;
  0xf600000 ∣ PTE_KERNEL_DATA; 0xf800000 ∣ PTE_KERNEL_DATA; 0xfa00000 ∣ PTE_KERNEL_DATA;
  0xfc00000 ∣ PTE_KERNEL_DATA; 0xfe00000 ∣ PTE_KERNEL_DATA; 0x10000000 ∣ PTE_KERNEL_DATA;
  0x10200000 ∣ PTE_KERNEL_DATA; 0x10400000 ∣ PTE_KERNEL_DATA; 0x10600000 ∣ PTE_KERNEL_DATA;
  0x10800000 ∣ PTE_KERNEL_DATA; 0x10a00000 ∣ PTE_KERNEL_DATA; 0x10c00000 ∣ PTE_KERNEL_DATA;
  0x10e00000 ∣ PTE_KERNEL_DATA; 0x11000000 ∣ PTE_KERNEL_DATA; 0x11200000 ∣ PTE_KERNEL_DATA;
  0x11400000 ∣ PTE_KERNEL_DATA; 0x11600000 ∣ PTE_KERNEL_DATA; 0x11800000 ∣ PTE_KERNEL_DATA;
  0x11a00000 ∣ PTE_KERNEL_DATA; 0x11c00000 ∣ PTE_KERNEL_DATA; 0x11e00000 ∣ PTE_KERNEL_DATA;
  0x12000000 ∣ PTE_KERNEL_DATA; 0x12200000 ∣ PTE_KERNEL_DATA; 0x12400000 ∣ PTE_KERNEL_DATA;
  0x12600000 ∣ PTE_KERNEL_DATA; 0x12800000 ∣ PTE_KERNEL_DATA; 0x12a00000 ∣ PTE_KERNEL_DATA;
  0x12c00000 ∣ PTE_KERNEL_DATA; 0x12e00000 ∣ PTE_KERNEL_DATA; 0x13000000 ∣ PTE_KERNEL_DATA;
  0x13200000 ∣ PTE_KERNEL_DATA; 0x13400000 ∣ PTE_KERNEL_DATA; 0x13600000 ∣ PTE_KERNEL_DATA;
  0x13800000 ∣ PTE_KERNEL_DATA; 0x13a00000 ∣ PTE_KERNEL_DATA; 0x13c00000 ∣ PTE_KERNEL_DATA;
  0x13e00000 ∣ PTE_KERNEL_DATA; 0x14000000 ∣ PTE_KERNEL_DATA; 0x14200000 ∣ PTE_KERNEL_DATA;
  0x14400000 ∣ PTE_KERNEL_DATA; 0x14600000 ∣ PTE_KERNEL_DATA; 0x14800000 ∣ PTE_KERNEL_DATA;
  0x14a00000 ∣ PTE_KERNEL_DATA; 0x14c00000 ∣ PTE_KERNEL_DATA; 0x14e00000 ∣ PTE_KERNEL_DATA;
  0x15000000 ∣ PTE_KERNEL_DATA; 0x15200000 ∣ PTE_KERNEL_DATA; 0x15400000 ∣ PTE_KERNEL_DATA;
  0x15600000 ∣ PTE_KERNEL_DATA; 0x15800000 ∣ PTE_KERNEL_DATA; 0x15a00000 ∣ PTE_KERNEL_DATA;
  0x15c00000 ∣ PTE_KERNEL_DATA; 0x15e00000 ∣ PTE_KERNEL_DATA; 0x16000000 ∣ PTE_KERNEL_DATA;
  0x16200000 ∣ PTE_KERNEL_DATA; 0x16400000 ∣ PTE_KERNEL_DATA; 0x16600000 ∣ PTE_KERNEL_DATA;
  0x16800000 ∣ PTE_KERNEL_DATA; 0x16a00000 ∣ PTE_KERNEL_DATA; 0x16c00000 ∣ PTE_KERNEL_DATA;
  0x16e00000 ∣ PTE_KERNEL_DATA; 0x17000000 ∣ PTE_KERNEL_DATA; 0x17200000 ∣ PTE_KERNEL_DATA;
  0x17400000 ∣ PTE_KERNEL_DATA; 0x17600000 ∣ PTE_KERNEL_DATA; 0x17800000 ∣ PTE_KERNEL_DATA;
  0x17a00000 ∣ PTE_KERNEL_DATA; 0x17c00000 ∣ PTE_KERNEL_DATA; 0x17e00000 ∣ PTE_KERNEL_DATA;
  0x18000000 ∣ PTE_KERNEL_DATA; 0x18200000 ∣ PTE_KERNEL_DATA; 0x18400000 ∣ PTE_KERNEL_DATA;
  0x18600000 ∣ PTE_KERNEL_DATA; 0x18800000 ∣ PTE_KERNEL_DATA; 0x18a00000 ∣ PTE_KERNEL_DATA;
  0x18c00000 ∣ PTE_KERNEL_DATA; 0x18e00000 ∣ PTE_KERNEL_DATA; 0x19000000 ∣ PTE_KERNEL_DATA;
  0x19200000 ∣ PTE_KERNEL_DATA; 0x19400000 ∣ PTE_KERNEL_DATA; 0x19600000 ∣ PTE_KERNEL_DATA;
  0x19800000 ∣ PTE_KERNEL_DATA; 0x19a00000 ∣ PTE_KERNEL_DATA; 0x19c00000 ∣ PTE_KERNEL_DATA;
  0x19e00000 ∣ PTE_KERNEL_DATA; 0x1a000000 ∣ PTE_KERNEL_DATA; 0x1a200000 ∣ PTE_KERNEL_DATA;
  0x1a400000 ∣ PTE_KERNEL_DATA; 0x1a600000 ∣ PTE_KERNEL_DATA; 0x1a800000 ∣ PTE_KERNEL_DATA;
  0x1aa00000 ∣ PTE_KERNEL_DATA; 0x1ac00000 ∣ PTE_KERNEL_DATA; 0x1ae00000 ∣ PTE_KERNEL_DATA;
  0x1b000000 ∣ PTE_KERNEL_DATA; 0x1b200000 ∣ PTE_KERNEL_DATA; 0x1b400000 ∣ PTE_KERNEL_DATA;
  0x1b600000 ∣ PTE_KERNEL_DATA; 0x1b800000 ∣ PTE_KERNEL_DATA; 0x1ba00000 ∣ PTE_KERNEL_DATA;
  0x1bc00000 ∣ PTE_KERNEL_DATA; 0x1be00000 ∣ PTE_KERNEL_DATA; 0x1c000000 ∣ PTE_KERNEL_DATA;
  0x1c200000 ∣ PTE_KERNEL_DATA; 0x1c400000 ∣ PTE_KERNEL_DATA; 0x1c600000 ∣ PTE_KERNEL_DATA;
  0x1c800000 ∣ PTE_KERNEL_DATA; 0x1ca00000 ∣ PTE_KERNEL_DATA; 0x1cc00000 ∣ PTE_KERNEL_DATA;
  0x1ce00000 ∣ PTE_KERNEL_DATA; 0x1d000000 ∣ PTE_KERNEL_DATA; 0x1d200000 ∣ PTE_KERNEL_DATA;
  0x1d400000 ∣ PTE_KERNEL_DATA; 0x1d600000 ∣ PTE_KERNEL_DATA; 0x1d800000 ∣ PTE_KERNEL_DATA;
  0x1da00000 ∣ PTE_KERNEL_DATA; 0x1dc00000 ∣ PTE_KERNEL_DATA; 0x1de00000 ∣ PTE_KERNEL_DATA;
  0x1e000000 ∣ PTE_KERNEL_DATA; 0x1e200000 ∣ PTE_KERNEL_DATA; 0x1e400000 ∣ PTE_KERNEL_DATA;
  0x1e600000 ∣ PTE_KERNEL_DATA; 0x1e800000 ∣ PTE_KERNEL_DATA; 0x1ea00000 ∣ PTE_KERNEL_DATA;
  0x1ec00000 ∣ PTE_KERNEL_DATA; 0x1ee00000 ∣ PTE_KERNEL_DATA; 0x1f000000 ∣ PTE_KERNEL_DATA;
  0x1f200000 ∣ PTE_KERNEL_DATA; 0x1f400000 ∣ PTE_KERNEL_DATA; 0x1f600000 ∣ PTE_KERNEL_DATA;
  0x1f800000 ∣ PTE_KERNEL_DATA; 0x1fa00000 ∣ PTE_KERNEL_DATA; 0x1fc00000 ∣ PTE_KERNEL_DATA;
  0x1fe00000 ∣ PTE_KERNEL_DATA; 0x20000000 ∣ PTE_KERNEL_DATA; 0x20200000 ∣ PTE_KERNEL_DATA;
  0x20400000 ∣ PTE_KERNEL_DATA; 0x20600000 ∣ PTE_KERNEL_DATA; 0x20800000 ∣ PTE_KERNEL_DATA;
  0x20a00000 ∣ PTE_KERNEL_DATA; 0x20c00000 ∣ PTE_KERNEL_DATA; 0x20e00000 ∣ PTE_KERNEL_DATA;
  0x21000000 ∣ PTE_KERNEL_DATA; 0x21200000 ∣ PTE_KERNEL_DATA; 0x21400000 ∣ PTE_KERNEL_DATA;
  0x21600000 ∣ PTE_KERNEL_DATA; 0x21800000 ∣ PTE_KERNEL_DATA; 0x21a00000 ∣ PTE_KERNEL_DATA;
  0x21c00000 ∣ PTE_KERNEL_DATA; 0x21e00000 ∣ PTE_KERNEL_DATA; 0x22000000 ∣ PTE_KERNEL_DATA;
  0x22200000 ∣ PTE_KERNEL_DATA; 0x22400000 ∣ PTE_KERNEL_DATA; 0x22600000 ∣ PTE_KERNEL_DATA;
  0x22800000 ∣ PTE_KERNEL_DATA; 0x22a00000 ∣ PTE_KERNEL_DATA; 0x22c00000 ∣ PTE_KERNEL_DATA;
  0x22e00000 ∣ PTE_KERNEL_DATA; 0x23000000 ∣ PTE_KERNEL_DATA; 0x23200000 ∣ PTE_KERNEL_DATA;
  0x23400000 ∣ PTE_KERNEL_DATA; 0x23600000 ∣ PTE_KERNEL_DATA; 0x23800000 ∣ PTE_KERNEL_DATA;
  0x23a00000 ∣ PTE_KERNEL_DATA; 0x23c00000 ∣ PTE_KERNEL_DATA; 0x23e00000 ∣ PTE_KERNEL_DATA;
  0x24000000 ∣ PTE_KERNEL_DATA; 0x24200000 ∣ PTE_KERNEL_DATA; 0x24400000 ∣ PTE_KERNEL_DATA;
  0x24600000 ∣ PTE_KERNEL_DATA; 0x24800000 ∣ PTE_KERNEL_DATA; 0x24a00000 ∣ PTE_KERNEL_DATA;
  0x24c00000 ∣ PTE_KERNEL_DATA; 0x24e00000 ∣ PTE_KERNEL_DATA; 0x25000000 ∣ PTE_KERNEL_DATA;
  0x25200000 ∣ PTE_KERNEL_DATA; 0x25400000 ∣ PTE_KERNEL_DATA; 0x25600000 ∣ PTE_KERNEL_DATA;
  0x25800000 ∣ PTE_KERNEL_DATA; 0x25a00000 ∣ PTE_KERNEL_DATA; 0x25c00000 ∣ PTE_KERNEL_DATA;
  0x25e00000 ∣ PTE_KERNEL_DATA; 0x26000000 ∣ PTE_KERNEL_DATA; 0x26200000 ∣ PTE_KERNEL_DATA;
  0x26400000 ∣ PTE_KERNEL_DATA; 0x26600000 ∣ PTE_KERNEL_DATA; 0x26800000 ∣ PTE_KERNEL_DATA;
  0x26a00000 ∣ PTE_KERNEL_DATA; 0x26c00000 ∣ PTE_KERNEL_DATA; 0x26e00000 ∣ PTE_KERNEL_DATA;
  0x27000000 ∣ PTE_KERNEL_DATA; 0x27200000 ∣ PTE_KERNEL_DATA; 0x27400000 ∣ PTE_KERNEL_DATA;
  0x27600000 ∣ PTE_KERNEL_DATA; 0x27800000 ∣ PTE_KERNEL_DATA; 0x27a00000 ∣ PTE_KERNEL_DATA;
  0x27c00000 ∣ PTE_KERNEL_DATA; 0x27e00000 ∣ PTE_KERNEL_DATA; 0x28000000 ∣ PTE_KERNEL_DATA;
  0x28200000 ∣ PTE_KERNEL_DATA; 0x28400000 ∣ PTE_KERNEL_DATA; 0x28600000 ∣ PTE_KERNEL_DATA;
  0x28800000 ∣ PTE_KERNEL_DATA; 0x28a00000 ∣ PTE_KERNEL_DATA; 0x28c00000 ∣ PTE_KERNEL_DATA;
  0x28e00000 ∣ PTE_KERNEL_DATA; 0x29000000 ∣ PTE_KERNEL_DATA; 0x29200000 ∣ PTE_KERNEL_DATA;
  0x29400000 ∣ PTE_KERNEL_DATA; 0x29600000 ∣ PTE_KERNEL_DATA; 0x29800000 ∣ PTE_KERNEL_DATA;
  0x29a00000 ∣ PTE_KERNEL_DATA; 0x29c00000 ∣ PTE_KERNEL_DATA; 0x29e00000 ∣ PTE_KERNEL_DATA;
  0x2a000000 ∣ PTE_KERNEL_DATA; 0x2a200000 ∣ PTE_KERNEL_DATA; 0x2a400000 ∣ PTE_KERNEL_DATA;
  0x2a600000 ∣ PTE_KERNEL_DATA; 0x2a800000 ∣ PTE_KERNEL_DATA; 0x2aa00000 ∣ PTE_KERNEL_DATA;
  0x2ac00000 ∣ PTE_KERNEL_DATA; 0x2ae00000 ∣ PTE_KERNEL_DATA; 0x2b000000 ∣ PTE_KERNEL_DATA;
  0x2b200000 ∣ PTE_KERNEL_DATA; 0x2b400000 ∣ PTE_KERNEL_DATA; 0x2b600000 ∣ PTE_KERNEL_DATA;
  0x2b800000 ∣ PTE_KERNEL_DATA; 0x2ba00000 ∣ PTE_KERNEL_DATA; 0x2bc00000 ∣ PTE_KERNEL_DATA;
  0x2be00000 ∣ PTE_KERNEL_DATA; 0x2c000000 ∣ PTE_KERNEL_DATA; 0x2c200000 ∣ PTE_KERNEL_DATA;
  0x2c400000 ∣ PTE_KERNEL_DATA; 0x2c600000 ∣ PTE_KERNEL_DATA; 0x2c800000 ∣ PTE_KERNEL_DATA;
  0x2ca00000 ∣ PTE_KERNEL_DATA; 0x2cc00000 ∣ PTE_KERNEL_DATA; 0x2ce00000 ∣ PTE_KERNEL_DATA;
  0x2d000000 ∣ PTE_KERNEL_DATA; 0x2d200000 ∣ PTE_KERNEL_DATA; 0x2d400000 ∣ PTE_KERNEL_DATA;
  0x2d600000 ∣ PTE_KERNEL_DATA; 0x2d800000 ∣ PTE_KERNEL_DATA; 0x2da00000 ∣ PTE_KERNEL_DATA;
  0x2dc00000 ∣ PTE_KERNEL_DATA; 0x2de00000 ∣ PTE_KERNEL_DATA; 0x2e000000 ∣ PTE_KERNEL_DATA;
  0x2e200000 ∣ PTE_KERNEL_DATA; 0x2e400000 ∣ PTE_KERNEL_DATA; 0x2e600000 ∣ PTE_KERNEL_DATA;
  0x2e800000 ∣ PTE_KERNEL_DATA; 0x2ea00000 ∣ PTE_KERNEL_DATA; 0x2ec00000 ∣ PTE_KERNEL_DATA;
  0x2ee00000 ∣ PTE_KERNEL_DATA; 0x2f000000 ∣ PTE_KERNEL_DATA; 0x2f200000 ∣ PTE_KERNEL_DATA;
  0x2f400000 ∣ PTE_KERNEL_DATA; 0x2f600000 ∣ PTE_KERNEL_DATA; 0x2f800000 ∣ PTE_KERNEL_DATA;
  0x2fa00000 ∣ PTE_KERNEL_DATA; 0x2fc00000 ∣ PTE_KERNEL_DATA; 0x2fe00000 ∣ PTE_KERNEL_DATA;
  0x30000000 ∣ PTE_KERNEL_DATA; 0x30200000 ∣ PTE_KERNEL_DATA; 0x30400000 ∣ PTE_KERNEL_DATA;
  0x30600000 ∣ PTE_KERNEL_DATA; 0x30800000 ∣ PTE_KERNEL_DATA; 0x30a00000 ∣ PTE_KERNEL_DATA;
  0x30c00000 ∣ PTE_KERNEL_DATA; 0x30e00000 ∣ PTE_KERNEL_DATA; 0x31000000 ∣ PTE_KERNEL_DATA;
  0x31200000 ∣ PTE_KERNEL_DATA; 0x31400000 ∣ PTE_KERNEL_DATA; 0x31600000 ∣ PTE_KERNEL_DATA;
  0x31800000 ∣ PTE_KERNEL_DATA; 0x31a00000 ∣ PTE_KERNEL_DATA; 0x31c00000 ∣ PTE_KERNEL_DATA;
  0x31e00000 ∣ PTE_KERNEL_DATA; 0x32000000 ∣ PTE_KERNEL_DATA; 0x32200000 ∣ PTE_KERNEL_DATA;
  0x32400000 ∣ PTE_KERNEL_DATA; 0x32600000 ∣ PTE_KERNEL_DATA; 0x32800000 ∣ PTE_KERNEL_DATA;
  0x32a00000 ∣ PTE_KERNEL_DATA; 0x32c00000 ∣ PTE_KERNEL_DATA; 0x32e00000 ∣ PTE_KERNEL_DATA;
  0x33000000 ∣ PTE_KERNEL_DATA; 0x33200000 ∣ PTE_KERNEL_DATA; 0x33400000 ∣ PTE_KERNEL_DATA;
  0x33600000 ∣ PTE_KERNEL_DATA; 0x33800000 ∣ PTE_KERNEL_DATA; 0x33a00000 ∣ PTE_KERNEL_DATA;
  0x33c00000 ∣ PTE_KERNEL_DATA; 0x33e00000 ∣ PTE_KERNEL_DATA; 0x34000000 ∣ PTE_KERNEL_DATA;
  0x34200000 ∣ PTE_KERNEL_DATA; 0x34400000 ∣ PTE_KERNEL_DATA; 0x34600000 ∣ PTE_KERNEL_DATA;
  0x34800000 ∣ PTE_KERNEL_DATA; 0x34a00000 ∣ PTE_KERNEL_DATA; 0x34c00000 ∣ PTE_KERNEL_DATA;
  0x34e00000 ∣ PTE_KERNEL_DATA; 0x35000000 ∣ PTE_KERNEL_DATA; 0x35200000 ∣ PTE_KERNEL_DATA;
  0x35400000 ∣ PTE_KERNEL_DATA; 0x35600000 ∣ PTE_KERNEL_DATA; 0x35800000 ∣ PTE_KERNEL_DATA;
  0x35a00000 ∣ PTE_KERNEL_DATA; 0x35c00000 ∣ PTE_KERNEL_DATA; 0x35e00000 ∣ PTE_KERNEL_DATA;
  0x36000000 ∣ PTE_KERNEL_DATA; 0x36200000 ∣ PTE_KERNEL_DATA; 0x36400000 ∣ PTE_KERNEL_DATA;
  0x36600000 ∣ PTE_KERNEL_DATA; 0x36800000 ∣ PTE_KERNEL_DATA; 0x36a00000 ∣ PTE_KERNEL_DATA;
  0x36c00000 ∣ PTE_KERNEL_DATA; 0x36e00000 ∣ PTE_KERNEL_DATA; 0x37000000 ∣ PTE_KERNEL_DATA;
  0x37200000 ∣ PTE_KERNEL_DATA; 0x37400000 ∣ PTE_KERNEL_DATA; 0x37600000 ∣ PTE_KERNEL_DATA;
  0x37800000 ∣ PTE_KERNEL_DATA; 0x37a00000 ∣ PTE_KERNEL_DATA; 0x37c00000 ∣ PTE_KERNEL_DATA;
  0x37e00000 ∣ PTE_KERNEL_DATA; 0x38000000 ∣ PTE_KERNEL_DATA; 0x38200000 ∣ PTE_KERNEL_DATA;
  0x38400000 ∣ PTE_KERNEL_DATA; 0x38600000 ∣ PTE_KERNEL_DATA; 0x38800000 ∣ PTE_KERNEL_DATA;
  0x38a00000 ∣ PTE_KERNEL_DATA; 0x38c00000 ∣ PTE_KERNEL_DATA; 0x38e00000 ∣ PTE_KERNEL_DATA;
  0x39000000 ∣ PTE_KERNEL_DATA; 0x39200000 ∣ PTE_KERNEL_DATA; 0x39400000 ∣ PTE_KERNEL_DATA;
  0x39600000 ∣ PTE_KERNEL_DATA; 0x39800000 ∣ PTE_KERNEL_DATA; 0x39a00000 ∣ PTE_KERNEL_DATA;
  0x39c00000 ∣ PTE_KERNEL_DATA; 0x39e00000 ∣ PTE_KERNEL_DATA; 0x3a000000 ∣ PTE_KERNEL_DATA;
  0x3a200000 ∣ PTE_KERNEL_DATA; 0x3a400000 ∣ PTE_KERNEL_DATA; 0x3a600000 ∣ PTE_KERNEL_DATA;
  0x3a800000 ∣ PTE_KERNEL_DATA; 0x3aa00000 ∣ PTE_KERNEL_DATA; 0x3ac00000 ∣ PTE_KERNEL_DATA;
  0x3ae00000 ∣ PTE_KERNEL_DATA; 0x3b000000 ∣ PTE_KERNEL_DATA; 0x3b200000 ∣ PTE_KERNEL_DATA;
  0x3b400000 ∣ PTE_KERNEL_DATA; 0x3b600000 ∣ PTE_KERNEL_DATA; 0x3b800000 ∣ PTE_KERNEL_DATA;
  0x3ba00000 ∣ PTE_KERNEL_DATA; 0x3bc00000 ∣ PTE_KERNEL_DATA; 0x3be00000 ∣ PTE_KERNEL_DATA;
  0x3c000000 ∣ PTE_KERNEL_DATA; 0x3c200000 ∣ PTE_KERNEL_DATA; 0x3c400000 ∣ PTE_KERNEL_DATA;
  0x3c600000 ∣ PTE_KERNEL_DATA; 0x3c800000 ∣ PTE_KERNEL_DATA; 0x3ca00000 ∣ PTE_KERNEL_DATA;
  0x3cc00000 ∣ PTE_KERNEL_DATA; 0x3ce00000 ∣ PTE_KERNEL_DATA; 0x3d000000 ∣ PTE_KERNEL_DATA;
  0x3d200000 ∣ PTE_KERNEL_DATA; 0x3d400000 ∣ PTE_KERNEL_DATA; 0x3d600000 ∣ PTE_KERNEL_DATA;
  0x3d800000 ∣ PTE_KERNEL_DATA; 0x3da00000 ∣ PTE_KERNEL_DATA; 0x3dc00000 ∣ PTE_KERNEL_DATA;
  0x3de00000 ∣ PTE_KERNEL_DATA; 0x3e000000 ∣ PTE_KERNEL_DATA; 0x3e200000 ∣ PTE_KERNEL_DATA;
  0x3e400000 ∣ PTE_KERNEL_DATA; 0x3e600000 ∣ PTE_KERNEL_DATA; 0x3e800000 ∣ PTE_KERNEL_DATA;
  0x3ea00000 ∣ PTE_KERNEL_DATA; 0x3ec00000 ∣ PTE_KERNEL_DATA; 0x3ee00000 ∣ PTE_KERNEL_DATA;
  0x3f000000 ∣ PTE_KERNEL_DEVICE; 0x3f200000 ∣ PTE_KERNEL_DEVICE; 0x3f400000 ∣ PTE_KERNEL_DEVICE;
  0x3f600000 ∣ PTE_KERNEL_DEVICE; 0x3f800000 ∣ PTE_KERNEL_DEVICE; 0x3fa00000 ∣ PTE_KERNEL_DEVICE;
  0x3fc00000 ∣ PTE_KERNEL_DEVICE; 0x3fe00000 ∣ PTE_KERNEL_DEVICE].

Section tables.
(** The addresses of [_kernel_pt_level3] and [_kernel_pt_level2]. *)
Context (level3_at level2_at : Z).

Definition _kernel_pt_level2 : list Z := [
  K2P level3_at + PTE_TABLE;
  0x40000000 ∣ PTE_KERNEL_DEVICE;
  0;
  0xC0000000 ∣ PTE_KERNEL_DEVICE] ++ replicate 508 0.
Definition kernel_pt : list Z := (K2P level2_at + PTE_TABLE) :: replicate 511 0.
Definition invalid_pt : list Z := replicate 512 0.

(** The table at a physical address. *)
Definition table_at (a : Z) : option (list Z) :=
  if decide (a = K2P level3_at) then Some _kernel_pt_level3
  else if decide (a = K2P level2_at) then Some _kernel_pt_level2
  else None.

(** The walk of the MMU below a table at level [2 - n] (1 GB entries for
    [n = 1], 2 MB entries for [n = 0]): a block ends it with the physical address
    and the entry's attributes, a table goes on. *)
Fixpoint mmu (n : nat) (t : list Z) (va : Z) : option (Z * Z) :=
  let shift := 21 + 9 * Z.of_nat n in
  e ← t !! Z.to_nat ((va / 2 ^ shift) mod 512);
  if decide (Z.land e PTE_VALID = 0) then None
  else if decide (Z.testbit e 1 = false) then
    Some (PTE_ADDRESS e + va mod 2 ^ shift, PTE_FLAGS e)
  else match n with
    | O => None
    | S n' => t' ← table_at (PTE_ADDRESS e); mmu n' t' va
    end.

(** The translation of an address of the kernel's half, from [root] (entries
    of level 0 are never blocks). *)
Definition translate (root : list Z) (va : Z) : option (Z * Z) :=
  e ← root !! Z.to_nat (VA_PART0 va);
  if decide (Z.land e PTE_TABLE = PTE_TABLE) then
    t ← table_at (PTE_ADDRESS e); mmu 1 t va
  else None.
End tables.

(** ** What the tables map *)

(** Entry [i] of the last level: its address, its attributes, a valid block. *)
Definition entry_ok (i : Z) : bool :=
  match _kernel_pt_level3 !! Z.to_nat i with
  | Some e => bool_decide (PTE_ADDRESS e = i * 2 ^ 21) &&
      bool_decide (PTE_FLAGS e = if decide (i * 2 ^ 21 < PHYSTOP) then PTE_KERNEL_DATA else PTE_KERNEL_DEVICE) &&
      bool_decide (Z.land e PTE_VALID ≠ 0) && negb (Z.testbit e 1)
  | None => false
  end.

Lemma entries_ok : forallb entry_ok (seqZ 0 512) = true.
Proof. by vm_compute. Qed.

Lemma level3_entry i : 0 ≤ i < 512 → ∃ e, _kernel_pt_level3 !! Z.to_nat i = Some e ∧
  PTE_ADDRESS e = i * 2 ^ 21 ∧ Z.land e PTE_VALID ≠ 0 ∧ Z.testbit e 1 = false ∧
  PTE_FLAGS e = if decide (i * 2 ^ 21 < PHYSTOP) then PTE_KERNEL_DATA else PTE_KERNEL_DEVICE.
Proof.
  intros Hi. pose proof entries_ok as H. rewrite forallb_forall in H.
  specialize (H i). unfold entry_ok in H. destruct (_kernel_pt_level3 !! Z.to_nat i) as [e|].
  - exists e. split; [done|]. assert (Hb := H ltac:(apply list_elem_of_In, elem_of_seqZ; lia)).
    rewrite !andb_true_iff, !bool_decide_eq_true, negb_true_iff in Hb. tauto.
  - specialize (H ltac:(apply list_elem_of_In, elem_of_seqZ; lia)). done.
Qed.

(** The index fields of a kernel address are those of the physical address. *)
Lemma kernel_index pa k : 0 ≤ pa < 2 ^ 39 → 0 ≤ k ≤ 39 →
  (P2K pa / 2 ^ k) mod 512 = (pa / 2 ^ k) mod 512 ∧ P2K pa mod 2 ^ k = pa mod 2 ^ k.
Proof.
  intros Hp Hk. unfold P2K, KSPACE_MASK. rewrite wrap_small by (split; lia).
  assert (E : 0xffff000000000000 = (0xffff * 2 ^ (39 - k) * 512) * 2 ^ k).
  { replace 0xffff000000000000 with (0xffff * (2 ^ 39 * 512)) by done.
    replace (2 ^ 39) with (2 ^ (39 - k) * 2 ^ k) by (rewrite <-Z.pow_add_r by lia; f_equal; lia).
    ring. }
  rewrite E. split; [by rewrite Z.div_add, Z.mod_add by lia|by rewrite Z.mod_add by lia].
Qed.

Section maps.
Context (l3 l2 : Z) (H3 : page_addr l3) (H2 : page_addr l2) (Hne : l3 ≠ l2).

Lemma table_at_l2 : table_at l3 l2 (K2P l2) = Some (_kernel_pt_level2 l3).
Proof.
  unfold table_at. rewrite decide_False, decide_True; [done|done|]. intros E. apply Hne.
  destruct (table_entry_bits _ H3) as (_ & _ & E3 & _).
  destruct (table_entry_bits _ H2) as (_ & _ & E2 & _). congruence.
Qed.

Lemma mmu_last pa : 0 ≤ pa < 2 ^ 30 → mmu l3 l2 0 _kernel_pt_level3 (P2K pa) =
  Some (pa, if decide (pa < PHYSTOP) then PTE_KERNEL_DATA else PTE_KERNEL_DEVICE).
Proof.
  intros Hp. cbn [mmu]. cbv zeta. change (21 + 9 * Z.of_nat 0) with 21.
  destruct (kernel_index pa 21) as [-> ->]; [lia|lia|].
  rewrite (Z.mod_small (pa / 2 ^ 21)).
  2:{ split; [apply Z.div_pos; lia|apply Z.div_lt_upper_bound; lia]. }
  destruct (level3_entry (pa / 2 ^ 21)) as (e & E & Ha & Hv & Hb & Hf).
  { split; [apply Z.div_pos; lia|apply Z.div_lt_upper_bound; lia]. }
  rewrite E. cbn [mbind option_bind]. rewrite decide_False, decide_True by done.
  rewrite Ha, Hf. f_equal. f_equal.
  - rewrite Z.mul_comm. symmetry. by apply Z.div_mod.
  - apply decide_ext. unfold PHYSTOP. pose proof (Z.div_mod pa (2 ^ 21) ltac:(lia)).
    pose proof (Z.mod_pos_bound pa (2 ^ 21) ltac:(lia)). change 0x3f000000 with (504 * 2 ^ 21). 
    split; intros; nia.
Qed.

Lemma mmu_first pa : 0 ≤ pa < 2 ^ 39 → mmu l3 l2 1 (_kernel_pt_level2 l3) (P2K pa) =
  if decide (pa < PHYSTOP) then Some (pa, PTE_KERNEL_DATA)
  else if decide (pa < 0x80000000 ∨ 0xC0000000 ≤ pa < 0x100000000)
  then Some (pa, PTE_KERNEL_DEVICE) else None.
Proof.
  intros Hp. cbn [mmu]. cbv zeta. change (21 + 9 * Z.of_nat 1) with 30.
  destruct (kernel_index pa 30) as [-> ->]; [lia|lia|].
  pose proof (Z.div_mod pa (2 ^ 30) ltac:(lia)) as Hdm.
  pose proof (Z.mod_pos_bound pa (2 ^ 30) ltac:(lia)) as Hm.
  assert (Hj : 0 ≤ pa / 2 ^ 30 < 512).
  { split; [apply Z.div_pos; lia|apply Z.div_lt_upper_bound; lia]. }
  rewrite (Z.mod_small (pa / 2 ^ 30)) by lia. revert Hdm Hm Hj.
  generalize (pa / 2 ^ 30), (pa mod 2 ^ 30). intros j r Hdm Hm Hj. unfold PHYSTOP.
  destruct (decide (j = 0)) as [->|]; [|destruct (decide (j = 1)) as [->|];
    [|destruct (decide (j = 3)) as [->|]]].
  - assert (pa < 2 ^ 30) by lia. change (_kernel_pt_level2 l3 !! Z.to_nat 0) with (Some (K2P l3 + PTE_TABLE)).
    cbn [mbind option_bind]. destruct (table_entry _ H3) as (_ & Hv & _).
    destruct (table_entry_bits _ H3) as (_ & Ha & _ & Hb).
    rewrite decide_False by done. rewrite decide_False, Ha.
    + unfold table_at. rewrite decide_True by done. cbn [mbind option_bind].
      etrans; [apply (mmu_last pa); lia|]. unfold PHYSTOP.
      repeat case_decide; first [done|lia].
    + intros Hx. apply (f_equal (λ z, Z.testbit z 1)) in Hb.
      rewrite Z.land_spec, Hx in Hb. done.
  - change (_kernel_pt_level2 l3 !! Z.to_nat 1) with (Some (Z.lor 0x40000000 PTE_KERNEL_DEVICE)).
    cbn [mbind option_bind]. rewrite (decide_False (P := _ = 0)), (decide_True (P := _ = false)) by done.
    change (PTE_ADDRESS _) with (2 ^ 30). change (PTE_FLAGS _) with PTE_KERNEL_DEVICE.
    rewrite (decide_False (P := pa < _)), decide_True by lia. do 2 f_equal. lia.
  - change (_kernel_pt_level2 l3 !! Z.to_nat 3) with (Some (Z.lor 0xC0000000 PTE_KERNEL_DEVICE)).
    cbn [mbind option_bind]. rewrite (decide_False (P := _ = 0)), (decide_True (P := _ = false)) by done.
    change (PTE_ADDRESS _) with (3 * 2 ^ 30). change (PTE_FLAGS _) with PTE_KERNEL_DEVICE.
    rewrite (decide_False (P := pa < _)), decide_True by lia. do 2 f_equal. lia.
  - assert (_kernel_pt_level2 l3 !! Z.to_nat j = Some 0) as ->.
    { unfold _kernel_pt_level2. destruct (decide (j = 2)) as [->|]; [done|].
      rewrite lookup_app_r by (simpl; lia). apply lookup_replicate. split; [done|]. simpl. lia. }
    cbn [mbind option_bind]. rewrite decide_True by done.
    rewrite !decide_False by lia. done.
Qed.
End maps.

(** ** Theorems *)

(** C25: the kernel's address space. Through [kernel_pt] the kernel address of
    every physical address below 512 GB translates to that address: as normal
    memory below [PHYSTOP], as device memory up to 2 GB and from 3 GB to 4 GB,
    and to nothing elsewhere; [invalid_pt] translates nothing. *)
Theorem kernel_pt_maps l3 l2 pa va : page_addr l3 → page_addr l2 → l3 ≠ l2 → 0 ≤ pa < 2 ^ 39 →
  translate l3 l2 (kernel_pt l2) (P2K pa) =
    (if decide (pa < PHYSTOP) then Some (pa, PTE_KERNEL_DATA)
     else if decide (pa < 0x80000000 ∨ 0xC0000000 ≤ pa < 0x100000000)
     then Some (pa, PTE_KERNEL_DEVICE) else None) ∧
  translate l3 l2 invalid_pt va = None.
Proof.
  intros H3 H2 Hne Hp. split.
  - unfold translate. destruct (va_parts (P2K pa)) as (-> & _).
    destruct (kernel_index pa 39) as [-> _]; [lia|lia|].
    rewrite (Z.div_small pa) by lia. change (kernel_pt l2 !! Z.to_nat (0 mod 512)) with
      (Some (K2P l2 + PTE_TABLE)). cbn [mbind option_bind].
    destruct (table_entry_bits _ H2) as (_ & Ha & _ & Hb).
    rewrite decide_True by done. rewrite Ha, table_at_l2 by done. cbn [mbind option_bind].
    by apply mmu_first.
  - unfold translate. pose proof (parts_range va) as (? & _).
    assert (invalid_pt !! Z.to_nat (VA_PART0 va) = Some 0) as ->.
    { apply lookup_replicate. split; [done|lia]. }
    done.
Qed.

Lemma kernel_pt_maps_witness :
  translate 0xffff000000091000 0xffff000000092000 (kernel_pt 0xffff000000092000) (P2K 0x3f201000) =
    Some (0x3f201000, PTE_KERNEL_DEVICE).
Proof.
  destruct (kernel_pt_maps 0xffff000000091000 0xffff000000092000 0x3f201000 0) as [-> _];
    [by apply (bool_decide_unpack _); vm_compute..|lia|lia|done].
Defined.
