(* ===== verification/Sched.v ===== *)
(** * Processes and the scheduler ([kernel/sched.c], [kernel/proc.h],
      [kernel/container.h], [kernel/schinfo.h])

    Processes and containers live at addresses; the list nodes and the
    [schinfo]s embedded in them are at fixed offsets, so that [container_of] is
    address arithmetic as in the source.  The address of [root_container] is
    chosen by the linker and is a parameter.  A CPU's preemption timer is used
    through an interface; [swtch] shows in the model as the process the CPU runs
    afterwards (the answer of [_sched]), which then releases the scheduler's lock,
    at the end of its own [_sched] or in [proc_entry].

    An operation that takes the scheduler's lock is run while nobody holds it
    (a CPU that finds it taken waits). *)
From S2P Require Import Prelude Words Atomics Lists.

(** ** Data *)
Inductive procstate := UNUSED | RUNNABLE | RUNNING | SLEEPING | DEEPSLEEPING | ZOMBIE.

#[export] Instance procstate_eq_dec : EqDecision procstate.
Proof. solve_decision. Defined.

(** [struct proc] without the parts embedded in it that have their own
    address: [childexit] (24), [children] (48), [ptnode] (64) and [schinfo] (88). *)
Record proc := mkProc {
  killed : bool; idle : bool; pid : Z; localpid : Z; exitcode : Z; pstate : procstate;
  parent : Z; pgdir_pt : Z; container_ : Z; kstack : Z; ucontext : Z; kcontext : Z
}.

(** [struct container]: [schinfo] is at 16, [schqueue] at 40. *)
Record container := mkContainer { cparent : Z; rootproc : Z; max_pid : Z }.

(** [struct sched], embedded in a [struct cpu]. *)
Record sched := mkSched { cur : Z; cpu_idle : Z }.

Definition proc_schinfo (p : Z) : Z := p + 88.
Definition cont_schinfo (c : Z) : Z := c + 16.
Definition schinfo_sqnode (i : Z) : Z := i + 8.
Definition sqnode (p : Z) : Z := schinfo_sqnode (proc_schinfo p).
Definition sqhead (c : Z) : Z := c + 40.

(** The preemption timers [sched_timer] with [cancel_cpu_timer] and
    [set_cpu_timer] of [kernel/cpu.c]. *)
Class CpuTimers (T : Type) := {
  reset_sched_timer : nat → Z → M T unit;
  timers_ok : nat → T → Prop;   (* the timers of so many CPUs *)
  reset_sched_timer_ok : ∀ n c t, timers_ok n t → (c < n)%nat →
    ∃ t', reset_sched_timer c 10 t = Done (tt, t') ∧ timers_ok n t'
}.

Record kst (T : Type) := mkKst {
  lnodes : heap;
  procs : gmap Z proc;
  conts : gmap Z container;
  groups : gmap Z bool;   (* [schinfo.group], by the address of the [schinfo] *)
  cpus : list sched;
  sched_lock : SpinLock;
  panic_flag : bool;
  timers : T
}.
Arguments mkKst {T}.
Arguments lnodes {T}.
Arguments procs {T}.
Arguments conts {T}.
Arguments groups {T}.
Arguments cpus {T}.
Arguments sched_lock {T}.
Arguments panic_flag {T}.
Arguments timers {T}.

#[export, refine] Instance kst_nodes T : HasNodes (kst T) := {|
  nodes := lnodes;
  set_nodes := λ h g, mkKst h (procs g) (conts g) (groups g) (cpus g) (sched_lock g) (panic_flag g) (timers g)
|}.
Proof. all: try done. by intros []. Defined.

Section operations.
Context {T : Type} `{!CpuTimers T} (root_container : Z).
Abbreviation M := (M (kst T)).

Definition get_proc (p : Z) : M proc := λ g,
  match procs g !! p with Some pr => Done (pr, g) | None => Crash end.
Definition set_proc (p : Z) (pr : proc) : M unit := modify (λ g,
  mkKst (lnodes g) (<[p := pr]> (procs g)) (conts g) (groups g) (cpus g) (sched_lock g)
    (panic_flag g) (timers g)).
Definition set_pstate (st : procstate) (pr : proc) : proc :=
  mkProc (killed pr) (idle pr) (pid pr) (localpid pr) (exitcode pr) st (parent pr) (pgdir_pt pr)
    (container_ pr) (kstack pr) (ucontext pr) (kcontext pr).
Definition get_cpu (i : nat) : M sched := λ g,
  match cpus g !! i with Some c => Done (c, g) | None => Crash end.
Definition set_cpu (i : nat) (c : sched) : M unit := modify (λ g,
  mkKst (lnodes g) (procs g) (conts g) (groups g) (<[i := c]> (cpus g)) (sched_lock g)
    (panic_flag g) (timers g)).
Definition on_lock {A} (m : Prelude.M SpinLock A) : M A := λ g,
  match m (sched_lock g) with
  | Done (a, l) => Done (a, mkKst (lnodes g) (procs g) (conts g) (groups g) (cpus g) l (panic_flag g) (timers g))
  | Panic => Panic | Crash => Crash | NoFuel => NoFuel
  end.
Definition on_timers {A} (m : Prelude.M T A) : M A := λ g,
  match m (timers g) with
  | Done (a, t) => Done (a, mkKst (lnodes g) (procs g) (conts g) (groups g) (cpus g) (sched_lock g) (panic_flag g) t)
  | Panic => Panic | Crash => Crash | NoFuel => NoFuel
  end.
Definition set_group (i : Z) (b : bool) : M unit := modify (λ g,
  mkKst (lnodes g) (procs g) (conts g) (<[i := b]> (groups g)) (cpus g) (sched_lock g)
    (panic_flag g) (timers g)).
Definition get_group (i : Z) : M bool := λ g,
  match groups g !! i with Some b => Done (b, g) | None => Crash end.

Definition thisproc (cpu : nat) : M Z := c ← get_cpu cpu; mret (cur c).

Definition init_schinfo (p : Z) (group : bool) : M unit :=
  set_group p group;; on_nodes (init_list_node (schinfo_sqnode p)).
Definition init_schqueue (q : Z) : M unit := on_nodes (init_list_node q).

Definition _acquire_sched_lock : M unit := on_lock (_acquire_spinlock 1).
Definition _release_sched_lock : M unit := on_lock _release_spinlock.

Definition is_zombie (p : Z) : M bool :=
  _acquire_sched_lock;;
  pr ← get_proc p;
  _release_sched_lock;;
  mret (bool_decide (pstate pr = ZOMBIE)).
Definition is_unused (p : Z) : M bool :=
  _acquire_sched_lock;;
  pr ← get_proc p;
  _release_sched_lock;;
  mret (bool_decide (pstate pr = UNUSED)).

(** The condition of [_activate_proc]. *)
Definition wakeable (st : procstate) (onalert : bool) : bool :=
  bool_decide (st = UNUSED) || bool_decide (st = SLEEPING) ||
  (bool_decide (st = DEEPSLEEPING) && negb onalert).

Definition _activate_proc (p : Z) (onalert : bool) : M bool :=
  _acquire_sched_lock;;
  pr ← get_proc p;
  assert (negb (idle pr));;
  ret ← (if wakeable (pstate pr) onalert then
           set_proc p (set_pstate RUNNABLE pr);;
           on_nodes (_insert_into_list (sqhead (container_ pr)) (sqnode p));;
           mret true
         else mret false);
  _release_sched_lock;;
  mret ret.

Definition update_this_state (cpu : nat) (new_state : procstate) : M unit :=
  p ← thisproc cpu;
  pr ← get_proc p;
  (match new_state with
   | RUNNABLE =>
       if negb (idle pr) then
         on_nodes (q ← get_prev (sqhead (container_ pr)); _insert_into_list q (sqnode p));; mret tt
       else mret tt
   | SLEEPING | ZOMBIE | DEEPSLEEPING => mret tt
   | _ => panic
   end);;
  p ← thisproc cpu;
  pr ← get_proc p;
  set_proc p (set_pstate new_state pr).

(** [depth] bounds the nesting of containers, [fuel] the length of a queue. *)
Fixpoint _pick_in_queue (depth fuel : nat) (q : Z) : M Z :=
  match depth with
  | O => nofuel
  | S depth' =>
      r ← for_in_list fuel q (λ p,
        if decide (p = q) then mret None
        else
          let info := p - 8 in
          group ← get_group info;
          if group : bool then
            proc ← _pick_in_queue depth' fuel (sqhead (info - 16));
            mret (if decide (proc ≠ 0) then Some proc else None)
          else mret (Some (info - 88)));
      mret (default 0 r)
  end.

Definition pick_next (depth fuel cpu : nat) : M Z :=
  pf ← gets panic_flag;
  if pf : bool then c ← get_cpu cpu; mret (cpu_idle c)
  else
    p ← _pick_in_queue depth fuel (sqhead root_container);
    if decide (p ≠ 0) then
      pr ← get_proc p;
      assert (bool_decide (pstate pr = RUNNABLE));;
      on_nodes (_detach_from_list (sqnode p));;
      mret p
    else c ← get_cpu cpu; mret (cpu_idle c).

Definition update_this_proc (cpu : nat) (p : Z) : M unit :=
  c ← get_cpu cpu;
  set_cpu cpu (mkSched p (cpu_idle c));;
  on_timers (reset_sched_timer cpu 10).

(** [_sched], answering the process the CPU runs afterwards. *)
Definition simple_sched (depth fuel cpu : nat) (new_state : procstate) : M Z :=
  this ← thisproc cpu;
  pr ← get_proc this;
  assert (bool_decide (pstate pr = RUNNING));;
  if killed pr && bool_decide (new_state ≠ ZOMBIE) && bool_decide (new_state ≠ DEEPSLEEPING) then
    _release_sched_lock;; mret this
  else
    update_this_state cpu new_state;;
    next ← pick_next depth fuel cpu;
    update_this_proc cpu next;;
    npr ← get_proc next;
    assert (bool_decide (pstate npr = RUNNABLE));;
    set_proc next (set_pstate RUNNING npr);;
    _release_sched_lock;;
    mret next.
Definition yield_ (depth fuel cpu : nat) : M Z :=
  _acquire_sched_lock;; simple_sched depth fuel cpu RUNNABLE.
End operations.

(** ** The run queues *)
Section queues.
Implicit Types (h : heap) (ps : gmap Z proc) (cs : gmap Z container) (gs : gmap Z bool).
Implicit Types (L : gmap Z (list Z)) (hd n p c : Z) (l : list Z).

(** What may be in the queue at [hd]: the node of a runnable process, or of a
    container, of the container whose queue it is. *)
Definition queued ps cs gs hd n : Prop :=
  (∃ p pr, n = sqnode p ∧ ps !! p = Some pr ∧ idle pr = false ∧ pstate pr = RUNNABLE ∧
     hd = sqhead (container_ pr)) ∨
  (∃ c cr, n = schinfo_sqnode (cont_schinfo c) ∧ cs !! c = Some cr ∧
     gs !! cont_schinfo c = Some true ∧ hd = sqhead (cparent cr)).

(** A process that is not an idle one: it is in the queue of its container
    exactly when it is runnable. *)
Definition proc_ok h cs gs L p (pr : proc) : Prop :=
  p ≠ 0 ∧ sqnode p ≠ 0 ∧ is_Some (h !! sqnode p) ∧ gs !! proc_schinfo p = Some false ∧
  L !! sqnode p = None ∧ (∀ c, is_Some (cs !! c) → sqnode p ≠ schinfo_sqnode (cont_schinfo c)) ∧
  ∃ l, L !! sqhead (container_ pr) = Some l ∧ (sqnode p ∈ l ↔ pstate pr = RUNNABLE).

Record queues_ok h ps cs gs L : Prop := {
  qo_family : family h L;
  qo_queued : ∀ hd l n, L !! hd = Some l → n ∈ l → queued ps cs gs hd n;
  qo_procs : ∀ p pr, ps !! p = Some pr → idle pr = false → proc_ok h cs gs L p pr
}.

Lemma sqnode_inj p p' : sqnode p = sqnode p' → p = p'.
Proof. unfold sqnode, schinfo_sqnode, proc_schinfo. lia. Qed.

Lemma proc_loose h ps cs gs L p pr : queues_ok h ps cs gs L → ps !! p = Some pr →
  idle pr = false → pstate pr ≠ RUNNABLE → loose h L (sqnode p).
Proof.
  intros [F Q P] Hp Hi Hr. destruct (P p pr Hp Hi) as (_ & H0 & Hs & _ & Hn & Hc & _).
  split; [done|split; [done|]]. intros hd l HL [E|Hin]%elem_of_cons; [rewrite E in Hn; congruence|].
  destruct (Q hd l _ HL Hin) as [(p' & pr' & E & Hp' & _ & Hr' & _)|(c & cr & E & Hc' & _)].
  - apply sqnode_inj in E as <-. congruence.
  - by eapply Hc.
Qed.

(** A queue that gains the node of [p] as [p] becomes runnable. *)
Lemma queues_push h h' ps cs gs L p pr hd l l' : queues_ok h ps cs gs L → ps !! p = Some pr →
  idle pr = false → pstate pr ≠ RUNNABLE → hd = sqhead (container_ pr) → L !! hd = Some l →
  (l' = sqnode p :: l ∨ l' = l ++ [sqnode p]) → family h' (<[hd := l']> L) → dom h' = dom h →
  queues_ok h' (<[p := set_pstate RUNNABLE pr]> ps) cs gs (<[hd := l']> L).
Proof.
  intros [F Q P] Hp Hi Hr -> HL Hl' F' Hd. set (hd := sqhead (container_ pr)) in *.
  assert (Hin : ∀ n, n ∈ l' ↔ n = sqnode p ∨ n ∈ l).
  { intros n. destruct Hl' as [-> | ->]; [by rewrite elem_of_cons|].
    rewrite elem_of_app, list_elem_of_singleton. tauto. }
  assert (Hq : ∀ hd2 n, queued ps cs gs hd2 n →
    queued (<[p := set_pstate RUNNABLE pr]> ps) cs gs hd2 n).
  { intros hd2 n [(p' & pr' & -> & Hp' & Hi' & Hr' & Hc)|H]; [left|by right].
    exists p', pr'. rewrite lookup_insert_ne by (intros ->; congruence). done. }
  split; [done| |].
  - intros hd2 l2 n [[<- <-]|[Hne H2]]%lookup_insert_Some Hn; [|by eapply Hq, Q].
    apply Hin in Hn as [->|Hn]; [|by eapply Hq, Q]. left. exists p, (set_pstate RUNNABLE pr).
    by rewrite lookup_insert_eq.
  - intros p2 pr2 Hp2 Hi2.
    assert (∃ pr0, ps !! p2 = Some pr0 ∧ idle pr0 = false ∧ container_ pr0 = container_ pr2 ∧
      ((p2 = p ∧ pstate pr2 = RUNNABLE) ∨ (p2 ≠ p ∧ pr0 = pr2))) as (pr0 & H0 & Hi0 & Hc0 & Hcase).
    { apply lookup_insert_Some in Hp2 as [[<- <-]|[Hne Hp2]]; [exists pr|exists pr2]; naive_solver. }
    destruct (P p2 pr0 H0 Hi0) as (Ha & Hb & Hs & Hg & Hn & Hc & l0 & Hl0 & Hm).
    split; [done|split; [done|split; [|split; [done|split; [|split; [done|]]]]]].
    + apply elem_of_dom. rewrite Hd. by apply elem_of_dom.
    + rewrite lookup_insert_None. split; [done|]. intros E. rewrite E in HL. congruence.
    + rewrite <-Hc0. destruct (decide (sqhead (container_ pr0) = hd)) as [E|E].
      * rewrite E in *. exists l'. rewrite lookup_insert_eq. split; [done|]. rewrite Hin.
        assert (l0 = l) as -> by congruence.
        destruct Hcase as [[-> Hr2]|[Hne ->]]; [naive_solver|].
        rewrite Hm. split; [|by right]. intros [E2|]; [|done]. by apply sqnode_inj in E2.
      * exists l0. rewrite lookup_insert_ne by done. split; [done|].
        destruct Hcase as [[-> Hr2]|[Hne ->]]; [|done]. exfalso. apply E. unfold hd. congruence.
Qed.

(** A queue that loses the node of [p], which is not runnable any more. *)
Lemma queues_pop h h' ps cs gs L p pr st hd l1 l2 : queues_ok h ps cs gs L → ps !! p = Some pr →
  idle pr = false → st ≠ RUNNABLE → hd = sqhead (container_ pr) →
  L !! hd = Some (l1 ++ sqnode p :: l2) → family h' (<[hd := l1 ++ l2]> L) → dom h' = dom h →
  queues_ok h' (<[p := set_pstate st pr]> ps) cs gs (<[hd := l1 ++ l2]> L).
Proof.
  intros [F Q P] Hp Hi Hst -> HL F' Hd. set (hd := sqhead (container_ pr)) in *.
  assert (Hnd : sqnode p ∉ l1 ++ l2).
  { pose proof (family_hlist _ _ _ _ F HL) as R. unfold hlist in R. apply ring_nodup in R.
    apply NoDup_cons in R as [_ R]. rewrite NoDup_app_cons in R. set_solver. }
  assert (Hq : ∀ hd2 l3 n, L !! hd2 = Some l3 → n ∈ l3 → n ≠ sqnode p →
    queued (<[p := set_pstate st pr]> ps) cs gs hd2 n).
  { intros hd2 l3 n H3 Hn Hne.
    destruct (Q hd2 l3 n H3 Hn) as [(p' & pr' & -> & Hp' & Hi' & Hr' & Hc)|H]; [left|by right].
    exists p', pr'. rewrite lookup_insert_ne by (intros ->; done). done. }
  split; [done| |].
  - intros hd2 l3 n [[<- <-]|[Hne H2]]%lookup_insert_Some Hn.
    + eapply Hq; [exact HL|clear -Hn; set_solver|]. by intros ->.
    + eapply Hq; [done..|]. intros ->.
      destruct (Q hd2 l3 _ H2 Hn) as [(p' & pr' & E & Hp' & _ & _ & ->)|(c & cr & E & Hc & _)].
      * apply sqnode_inj in E as <-. apply Hne. unfold hd. congruence.
      * destruct (P p pr Hp Hi) as (_ & _ & _ & _ & _ & Hx & _). by eapply Hx.
  - intros p2 pr2 Hp2 Hi2.
    assert (∃ pr0, ps !! p2 = Some pr0 ∧ idle pr0 = false ∧ container_ pr0 = container_ pr2 ∧
      ((p2 = p ∧ pstate pr2 = st) ∨ (p2 ≠ p ∧ pr0 = pr2))) as (pr0 & H0 & Hi0 & Hc0 & Hcase).
    { apply lookup_insert_Some in Hp2 as [[<- <-]|[Hne Hp2]]; [exists pr|exists pr2]; naive_solver. }
    destruct (P p2 pr0 H0 Hi0) as (Ha & Hb & Hs & Hg & Hn & Hc & l0 & Hl0 & Hm).
    split; [done|split; [done|split; [|split; [done|split; [|split; [done|]]]]]].
    + apply elem_of_dom. rewrite Hd. by apply elem_of_dom.
    + rewrite lookup_insert_None. split; [done|]. intros E. rewrite E in HL. congruence.
    + rewrite <-Hc0. destruct (decide (sqhead (container_ pr0) = hd)) as [E|E].
      * rewrite E in *. exists (l1 ++ l2). rewrite lookup_insert_eq. split; [done|].
        assert (l0 = l1 ++ sqnode p :: l2) as -> by congruence.
        destruct Hcase as [[-> Hr2]|[Hne ->]]; [by rewrite Hr2|].
        rewrite <-Hm, !elem_of_app, elem_of_cons. split; [tauto|].
        intros [?|[E2|?]]; [by left| |by right]. by apply sqnode_inj in E2.
      * exists l0. rewrite lookup_insert_ne by done. split; [done|].
        destruct Hcase as [[-> Hr2]|[Hne ->]]; [|done]. exfalso. apply E. unfold hd. congruence.
Qed.

(** Changes of state that concern no queue. *)
Lemma queues_state h ps cs gs L p pr st : queues_ok h ps cs gs L → ps !! p = Some pr →
  (idle pr = true ∨ pstate pr ≠ RUNNABLE ∧ st ≠ RUNNABLE) →
  queues_ok h (<[p := set_pstate st pr]> ps) cs gs L.
Proof.
  intros [F Q P] Hp Hcase. split; [done| |].
  - intros hd l n HL Hn.
    destruct (Q hd l n HL Hn) as [(p' & pr' & -> & Hp' & Hi' & Hr' & Hc)|H]; [left|by right].
    exists p', pr'. rewrite lookup_insert_ne; [done|]. intros ->.
    destruct Hcase as [?|[? _]]; congruence.
  - intros p2 pr2 [[<- <-]|[Hne Hp2]]%lookup_insert_Some Hi2; [|by apply P].
    destruct Hcase as [Hx|[Hx Hy]]; [simpl in Hi2; congruence|].
    destruct (P p pr Hp Hi2) as (Ha & Hb & Hs & Hg & Hn & Hc & l0 & Hl0 & Hm).
    do 6 (split; [done|]). exists l0. split; [done|]. rewrite Hm. simpl. tauto.
Qed.
End queues.

(** ** Picking the next process *)

(** The processes of the queue at [hd] and of the containers in it, in the
    order in which [_pick_in_queue] meets them. *)
Fixpoint in_order (d : nat) (L : gmap Z (list Z)) (gs : gmap Z bool) (hd : Z) : list Z :=
  default [] (L !! hd) ≫= λ n,
    match gs !! (n - 8) with
    | Some false => [n - 96]
    | Some true => match d with S d' => in_order d' L gs (sqhead (n - 24)) | O => [] end
    | None => []
    end.

(** Containers are nested at most [d] deep below [hd], every queue has fewer than
    [fuel] nodes, and no node belongs to a process at 0. *)
Fixpoint nested (d fuel : nat) (L : gmap Z (list Z)) (gs : gmap Z bool) (hd : Z) : Prop :=
  ∃ l, L !! hd = Some l ∧ (length l < fuel)%nat ∧ ∀ n, n ∈ l →
    (gs !! (n - 8) = Some false ∧ n ≠ 96) ∨
    (gs !! (n - 8) = Some true ∧ match d with S d' => nested d' fuel L gs (sqhead (n - 24)) | O => False end).

Lemma head_bind {A B} (f : A → list B) (g : A → option B) l : (∀ x, x ∈ l → head (f x) = g x) →
  head (l ≫= f) = head (omap g l).
Proof.
  induction l as [|x l IH]; intros H; [done|]. simpl. rewrite <-(H x) by by left.
  destruct (f x) as [|y k]; simpl; [|done]. apply IH. intros z Hz. apply H. by right.
Qed.

Section facts.
Context {T : Type} `{!CpuTimers T} (root_container : Z).
Implicit Types (g : kst T) (L : gmap Z (list Z)) (p hd : Z) (pr : proc).

Lemma in_order_nonzero d fuel L gs hd p : nested d fuel L gs hd → p ∈ in_order d L gs hd → p ≠ 0.
Proof.
  revert hd. induction d as [|d IH]; intros hd (l & HL & _ & Hn) Hp; simpl in Hp; rewrite HL in Hp;
    apply list_elem_of_bind in Hp as (n & Hp & Hin);
    destruct (Hn n Hin) as [[E H0]|[E H]]; rewrite E in Hp;
    try (apply list_elem_of_singleton in Hp; lia); [done|by eapply IH].
Qed.

Lemma pick_in_queue_spec d fuel L g hd : family (lnodes g) L → nested d fuel L (groups g) hd →
  _pick_in_queue (S d) fuel hd g = Done (default 0 (head (in_order d L (groups g) hd)), g).
Proof.
  intros F. revert hd. induction d as [|d IH]; intros hd Hnest;
    pose proof Hnest as (l & HL & Hf & Hn); pose proof (family_hlist _ _ _ _ F HL) as R;
    cbn [_pick_in_queue]; cbn [in_order]; rewrite HL; cbn [default from_option];
    (assert (Hd : hd ∉ l) by (by apply hlist_nodup, NoDup_cons in R as [? _])).
  - set (f := λ n, if decide (n = hd) then None else Some (n - 96)).
    erewrite bind_done; [|apply (for_in_list_scan (S := kst T) hd l _ f); [exact R|exact Hf|]].
    + unfold mret, M_ret. do 2 f_equal. rewrite omap_app. simpl. unfold f at 2.
      rewrite decide_True, app_nil_r by done. f_equal. symmetry. apply head_bind.
      intros n Hin. unfold f. rewrite decide_False by (by intros ->).
      destruct (Hn n Hin) as [[-> _]|[_ []]]. done.
    + intros n Hin. unfold f. case_decide as E; [done|].
      apply elem_of_app in Hin as [Hin|?%list_elem_of_singleton]; [|done].
      destruct (Hn n Hin) as [[Eg _]|[_ []]]. unfold get_group, mbind, M_bind. rewrite Eg.
      unfold mret, M_ret. do 3 f_equal. lia.
  - set (f := λ n, if decide (n = hd) then None else
      match groups g !! (n - 8) with Some true => head (in_order d L (groups g) (sqhead (n - 24)))
      | _ => Some (n - 96) end).
    erewrite bind_done; [|apply (for_in_list_scan (S := kst T) hd l _ f); [exact R|exact Hf|]].
    + unfold mret, M_ret. do 2 f_equal. rewrite omap_app. simpl. unfold f at 2.
      rewrite decide_True, app_nil_r by done. f_equal. symmetry. apply head_bind.
      intros n Hin. unfold f. rewrite decide_False by (by intros ->).
      by destruct (Hn n Hin) as [[-> _]|[-> _]].
    + intros n Hin. unfold f. case_decide as E; [done|].
      apply elem_of_app in Hin as [Hin|?%list_elem_of_singleton]; [|done].
      unfold get_group. unfold mbind at 1, M_bind at 1.
      destruct (Hn n Hin) as [[-> _]|[-> Hd2]]; [unfold mret, M_ret; do 3 f_equal; lia|].
      replace (n - 8 - 16) with (n - 24) by lia. m_step (IH _ Hd2). unfold mret, M_ret.
      destruct (in_order d L (groups g) (sqhead (n - 24))) as [|p ps] eqn:Eo; [done|].
      cbn [head default from_option]. rewrite decide_True; [done|].
      eapply in_order_nonzero; [exact Hd2|]. rewrite Eo. by left.
Qed.

(** The queues of a state. *)
Definition qok g L : Prop := queues_ok (lnodes g) (procs g) (conts g) (groups g) L.

Lemma activate_spec g L p pr onalert : qok g L → sched_lock g = false → procs g !! p = Some pr →
  idle pr = false →
  ∃ h' L', let ps' := if wakeable (pstate pr) onalert
                      then <[p := set_pstate RUNNABLE pr]> (procs g) else procs g in
    let g' := mkKst h' ps' (conts g) (groups g) (cpus g) false (panic_flag g) (timers g) in
    _activate_proc p onalert g = Done (wakeable (pstate pr) onalert, g') ∧ qok g' L' ∧
    (∃ l, L !! sqhead (container_ pr) = Some l ∧
      only (sqnode p :: sqhead (container_ pr) :: l) (lnodes g) h' ∧
      L' = if wakeable (pstate pr) onalert
           then <[sqhead (container_ pr) := sqnode p :: l]> L else L).
Proof.
  intros Q Hlk Hp Hi. destruct g as [h ps cs gs cp lk pf t]. unfold qok in *. simpl in *. subst lk.
  destruct (qo_procs _ _ _ _ _ Q p pr Hp Hi) as (_ & _ & _ & _ & _ & _ & l & HL & _).
  destruct (wakeable (pstate pr) onalert) eqn:Ew.
  - assert (Hr : pstate pr ≠ RUNNABLE) by (intros E; by rewrite E in Ew).
    destruct (family_push_front h L _ l (sqnode p) (qo_family _ _ _ _ _ Q) HL) as (h' & E & F' & O).
    { by eapply proc_loose. }
    exists h', (<[sqhead (container_ pr) := sqnode p :: l]> L). cbv zeta. split; [|split].
    + unfold _activate_proc, _acquire_sched_lock, on_lock, get_proc, set_proc.
      m_unfold. simpl. rewrite Hp, Hi, Ew. simpl. unfold on_nodes. simpl. by rewrite E.
    + eapply queues_push; [done..|by left|done|]. apply O.
    + by exists l.
  - exists h, L. cbv zeta. split; [|split; [done|by exists l]].
    unfold _activate_proc, _acquire_sched_lock, on_lock, get_proc. m_unfold. simpl.
    by rewrite Hp, Hi, Ew.
Qed.

(** The CPUs: each runs a process that is [RUNNING], an idle process only when
    it is its own; an idle process that does not run is [RUNNABLE]. *)
Record cpus_ok (ps : gmap Z proc) (cp : list sched) : Prop := {
  co_cur : ∀ i c, cp !! i = Some c → ∃ pr, ps !! cur c = Some pr ∧ pstate pr = RUNNING ∧
    (idle pr = true → cur c = cpu_idle c);
  co_idle : ∀ i c, cp !! i = Some c → ∃ pr, ps !! cpu_idle c = Some pr ∧ idle pr = true ∧
    (cur c ≠ cpu_idle c → pstate pr = RUNNABLE);
  co_distinct : ∀ i j ci cj, cp !! i = Some ci → cp !! j = Some cj → i ≠ j →
    cur ci ≠ cur cj ∧ cpu_idle ci ≠ cpu_idle cj;
  co_running : ∀ p pr, ps !! p = Some pr → pstate pr = RUNNING → ∃ i c, cp !! i = Some c ∧ cur c = p
}.

Definition sched_ok g L : Prop := qok g L ∧ cpus_ok (procs g) (cpus g) ∧ timers_ok (length (cpus g)) (timers g).

(** The queues after the running process [p] has put itself in one. *)
Definition enqueued L p pr (st : procstate) : gmap Z (list Z) :=
  if bool_decide (st = RUNNABLE) && negb (idle pr)
  then alter (λ l, l ++ [sqnode p]) (sqhead (container_ pr)) L else L.

Lemma alter_insert L hd l f : L !! hd = Some l → alter f hd L = <[hd := f l]> L.
Proof.
  intros H. apply map_eq. intros k. destruct (decide (k = hd)) as [->|].
  - by rewrite lookup_alter_eq, lookup_insert_eq, H.
  - by rewrite lookup_alter_ne, lookup_insert_ne.
Qed.

Definition switchable (st : procstate) : Prop :=
  st = RUNNABLE ∨ st = SLEEPING ∨ st = DEEPSLEEPING ∨ st = ZOMBIE.

Lemma update_this_state_spec g L cpu c pr st : qok g L → cpus g !! cpu = Some c →
  procs g !! cur c = Some pr → pstate pr = RUNNING → switchable st → (idle pr = true → st = RUNNABLE) →
  ∃ h', let g' := mkKst h' (<[cur c := set_pstate st pr]> (procs g)) (conts g) (groups g) (cpus g)
                    (sched_lock g) (panic_flag g) (timers g) in
    update_this_state cpu st g = Done (tt, g') ∧ qok g' (enqueued L (cur c) pr st).
Proof.
  intros Q Hc Hp Hr Hst Hi. destruct g as [h ps cs gs cp lk pf t]. unfold qok in *. simpl in *.
  unfold enqueued. destruct (decide (st = RUNNABLE ∧ idle pr = false)) as [[-> Hid]|Hn].
  - destruct (qo_procs _ _ _ _ _ Q _ _ Hp Hid) as (_ & _ & _ & _ & _ & _ & l & HL & _).
    destruct (family_push_back h L _ l (sqnode (cur c)) (qo_family _ _ _ _ _ Q) HL)
      as (h' & q & E & F' & O). { eapply proc_loose; [done..|]. by rewrite Hr. }
    exists h'. rewrite Hid. simpl. rewrite (alter_insert _ _ _ _ HL). split.
    + unfold update_this_state, thisproc, get_cpu, get_proc, set_proc. m_unfold. simpl.
      rewrite Hc. simpl. rewrite Hp. rewrite Hid. simpl. unfold on_nodes. simpl. rewrite E. simpl.
      rewrite ?Hc. simpl. by rewrite ?Hp.
    + eapply queues_push; [done..|by rewrite Hr|done|done|by right|done|apply O].
  - assert (bool_decide (st = RUNNABLE) && negb (idle pr) = false) as Eb.
    { case_bool_decide; [|done]. subst. destruct (idle pr); [done|]. exfalso. by apply Hn. }
    rewrite Eb. exists h. split.
    + unfold update_this_state, thisproc, get_cpu, get_proc, set_proc. m_unfold. simpl.
      rewrite Hc. simpl. rewrite Hp.
      destruct Hst as [->|[->|[->| ->]]]; simpl in Eb; try (rewrite Eb); simpl; rewrite ?Hc; simpl; by rewrite ?Hp.
    + apply queues_state; [done..|]. destruct (idle pr) eqn:Hid; [by left|right].
      split; [by rewrite Hr|]. intros ->. by apply Hn.
Qed.

(** What [_pick_in_queue] may answer. *)
Lemma in_order_runnable g L d hd p : qok g L → p ∈ in_order d L (groups g) hd →
  ∃ pr l1 l2, procs g !! p = Some pr ∧ idle pr = false ∧ pstate pr = RUNNABLE ∧
    L !! sqhead (container_ pr) = Some (l1 ++ sqnode p :: l2).
Proof.
  intros [F Q P]. assert (Hq : ∀ hd l n, L !! hd = Some l → n ∈ l → groups g !! (n - 8) = Some false →
    p = n - 96 → ∃ pr l1 l2, procs g !! p = Some pr ∧ idle pr = false ∧ pstate pr = RUNNABLE ∧
      L !! sqhead (container_ pr) = Some (l1 ++ sqnode p :: l2)).
  { intros hd2 l n HL Hn Hg ->.
    destruct (Q hd2 l n HL Hn) as [(p' & pr & -> & Hp & Hi & Hr & ->)|(c & cr & -> & _ & Hg' & _)].
    - replace (sqnode p' - 96) with p' by (unfold sqnode, schinfo_sqnode, proc_schinfo; lia).
      apply list_elem_of_split in Hn as (l1 & l2 & ->). by exists pr, l1, l2.
    - unfold schinfo_sqnode in Hg. replace (cont_schinfo c + 8 - 8) with (cont_schinfo c) in Hg by lia.
      congruence. }
  revert hd. induction d as [|d IH]; intros hd Hp; simpl in Hp;
    apply list_elem_of_bind in Hp as (n & Hp & Hin);
    (destruct (L !! hd) as [l|] eqn:HL; [|by apply elem_of_nil in Hin]); simpl in Hin;
    destruct (groups g !! (n - 8)) as [[]|] eqn:Hg; try (by apply elem_of_nil in Hp);
    try (apply list_elem_of_singleton in Hp; by eapply Hq).
  by eapply IH.
Qed.

(** The process [pick_next] chooses. *)
Definition chosen d g L c : Z :=
  if panic_flag g then cpu_idle c
  else default (cpu_idle c) (head (in_order d L (groups g) (sqhead root_container))).

(** [pick_next] answers the chosen process, which is runnable; a process taken
    from a queue leaves it. *)
Lemma pick_next_spec g L d fuel cpu c : qok g L → cpus g !! cpu = Some c →
  (panic_flag g = false → nested d fuel L (groups g) (sqhead root_container)) →
  (∃ ir, procs g !! cpu_idle c = Some ir ∧ idle ir = true ∧ pstate ir = RUNNABLE) →
  ∃ h' npr L', let g' := mkKst h' (procs g) (conts g) (groups g) (cpus g)
                    (sched_lock g) (panic_flag g) (timers g) in
    pick_next root_container (S d) fuel cpu g = Done (chosen d g L c, g') ∧
    procs g !! chosen d g L c = Some npr ∧ pstate npr = RUNNABLE ∧
    (idle npr = true → chosen d g L c = cpu_idle c) ∧
    queues_ok h' (<[chosen d g L c := set_pstate RUNNING npr]> (procs g)) (conts g) (groups g) L'.
Proof.
  intros Q Hc Hnest (ir & Hir & Hidle & Hrun). pose proof (qo_family _ _ _ _ _ Q) as F.
  destruct g as [h ps cs gs cp lk pf t]. unfold chosen, qok in *. simpl in *.
  assert (Hidle_case : queues_ok h (<[cpu_idle c := set_pstate RUNNING ir]> ps) cs gs L).
  { apply queues_state; [done..|by left]. }
  unfold pick_next. destruct pf.
  { exists h, ir, L. split_and!; [|done..]. unfold gets, get_cpu. m_unfold. simpl. by rewrite Hc. }
  specialize (Hnest eq_refl). unfold gets. unfold mbind at 1, M_bind at 1. cbn [panic_flag].
  pose proof (pick_in_queue_spec d fuel L (mkKst h ps cs gs cp lk false t) _ F Hnest) as Pk.
  m_step Pk. cbn [groups]. destruct (in_order d L gs (sqhead root_container)) as [|p k] eqn:Eo; simpl.
  { exists h, ir, L. split_and!; [|done..]. unfold get_cpu. m_unfold. simpl. by rewrite Hc. }
  assert (Hin : p ∈ in_order d L gs (sqhead root_container)) by (rewrite Eo; by left).
  pose proof (in_order_nonzero _ _ _ _ _ _ Hnest Hin) as H0.
  destruct (in_order_runnable (mkKst h ps cs gs cp lk false t) L d _ p Q Hin)
    as (pr & l1 & l2 & Hp & Hi & Hr & HL). simpl in Hp.
  destruct (family_detach _ _ _ _ _ _ F HL) as (h' & E & F' & _ & _ & O).
  exists h', pr, (<[sqhead (container_ pr) := l1 ++ l2]> L). split_and!; [|done..|by rewrite Hi|].
  - rewrite decide_True by done. unfold get_proc. m_unfold. simpl. rewrite Hp. rewrite bool_decide_true by done.
    simpl. unfold on_nodes. simpl. by rewrite E.
  - eapply queues_pop; [done..|apply O].
Qed.

Lemma cpus_switch ps cp cpu c pr next npr st : cpus_ok ps cp → cp !! cpu = Some c →
  ps !! cur c = Some pr → switchable st → (idle pr = true → st = RUNNABLE) →
  <[cur c := set_pstate st pr]> ps !! next = Some npr → pstate npr = RUNNABLE →
  (idle npr = true → next = cpu_idle c) →
  cpus_ok (<[next := set_pstate RUNNING npr]> (<[cur c := set_pstate st pr]> ps))
    (<[cpu := mkSched next (cpu_idle c)]> cp).
Proof.
  intros [Hcur Hidle Hdist Hrun] Hc Hp Hst Hi Hn Hnr Hni.
  assert (Hsw : st ≠ RUNNING) by (destruct Hst as [->|[->|[->| ->]]]; done).
  assert (Hlen : (cpu < length cp)%nat) by by eapply lookup_lt_Some.
  (* no other CPU runs [next] *)
  assert (Hother : ∀ j cj, cp !! j = Some cj → j ≠ cpu → cur cj ≠ next ∧ cur cj ≠ cur c ∧
    cpu_idle cj ≠ next ∧ cpu_idle cj ≠ cpu_idle c).
  { intros j cj Hj Hne. destruct (Hdist j cpu cj c Hj Hc Hne) as [D1 D2].
    destruct (Hcur j cj Hj) as (pj & Hpj & Hrj & _). destruct (Hidle j cj Hj) as (ij & Hij & Hii & _).
    split_and!; [|done| |done].
    - intros <-. rewrite lookup_insert_ne in Hn by done. congruence.
    - intros <-. destruct (decide (cpu_idle cj = cur c)) as [E|E].
      + rewrite E in Hn. rewrite lookup_insert_eq in Hn. simplify_eq. rewrite E in Hij.
        assert (ij = pr) as -> by congruence. apply D2. rewrite E.
        destruct (Hcur cpu c Hc) as (pr' & Hp' & _ & Hx). assert (pr' = pr) as -> by congruence. by apply Hx.
      + rewrite lookup_insert_ne in Hn by done. assert (ij = npr) as -> by congruence.
        by apply D2, Hni. }
  split.
  - intros j cj Hj. destruct (decide (j = cpu)) as [->|Hne].
    + rewrite list_lookup_insert_eq in Hj by done. simplify_eq. simpl.
      exists (set_pstate RUNNING npr). by rewrite lookup_insert_eq.
    + rewrite list_lookup_insert_ne in Hj by done. destruct (Hother j cj Hj Hne) as (H1 & H2 & _).
      destruct (Hcur j cj Hj) as (pj & Hpj & ?). exists pj. by rewrite !lookup_insert_ne.
  - assert (Hme : ∀ ir, ps !! cpu_idle c = Some ir → idle ir = true →
      (cur c ≠ cpu_idle c → pstate ir = RUNNABLE) →
      ∃ pr0, <[next := set_pstate RUNNING npr]> (<[cur c := set_pstate st pr]> ps) !! cpu_idle c = Some pr0 ∧
        idle pr0 = true ∧ (next ≠ cpu_idle c → pstate pr0 = RUNNABLE)).
    { intros ir Hir Hii Hir2. destruct (decide (next = cpu_idle c)) as [En|En].
      - exists (set_pstate RUNNING npr). rewrite En, lookup_insert_eq. split_and!; [done| |done].
        rewrite En in Hn. apply lookup_insert_Some in Hn as [[E <-]|[_ Hn]]; simpl; congruence.
      - rewrite lookup_insert_ne by done. destruct (decide (cur c = cpu_idle c)) as [Ec|Ec].
        + exists (set_pstate st pr). rewrite <-Ec, lookup_insert_eq.
          assert (ir = pr) as -> by congruence. split_and!; [done|done|]. intros _. by apply Hi.
        + exists ir. rewrite lookup_insert_ne by done. split_and!; auto. }
    intros j cj Hj. destruct (decide (j = cpu)) as [->|Hne].
    + rewrite list_lookup_insert_eq in Hj by done. simplify_eq. simpl.
      destruct (Hidle cpu c Hc) as (ir & Hir & Hii & Hir2). by eapply Hme.
    + rewrite list_lookup_insert_ne in Hj by done. destruct (Hother j cj Hj Hne) as (_ & H2 & H3 & _).
      destruct (Hidle j cj Hj) as (ij & Hij & Hii & Hir).
      rewrite lookup_insert_ne by done. destruct (decide (cpu_idle cj = cur c)) as [E|E].
      * exfalso. destruct (Hcur cpu c Hc) as (pr' & Hp' & _ & Hx). rewrite E in Hij.
        assert (pr' = ij) as -> by congruence. specialize (Hx Hii).
        destruct (Hother j cj Hj Hne) as (_ & _ & _ & H4). congruence.
      * exists ij. by rewrite lookup_insert_ne.
  - intros i j ci cj Hci Hcj Hij. destruct (decide (i = cpu)) as [->|Hi2], (decide (j = cpu)) as [->|Hj2];
      [done| | |].
    + rewrite list_lookup_insert_eq in Hci by done. rewrite list_lookup_insert_ne in Hcj by done.
      simplify_eq. simpl. destruct (Hother j cj Hcj Hj2) as (? & _ & _ & ?). auto.
    + rewrite list_lookup_insert_eq in Hcj by done. rewrite list_lookup_insert_ne in Hci by done.
      simplify_eq. simpl. destruct (Hother i ci Hci Hi2) as (? & _ & _ & ?). auto.
    + rewrite list_lookup_insert_ne in Hci by done. rewrite list_lookup_insert_ne in Hcj by done.
      by eapply Hdist.
  - intros p pr2 Hp2 Hr2. destruct (decide (p = next)) as [->|Hpn].
    + exists cpu. eexists. by rewrite list_lookup_insert_eq.
    + rewrite lookup_insert_ne in Hp2 by done. destruct (decide (p = cur c)) as [->|Hpc].
      * rewrite lookup_insert_eq in Hp2. injection Hp2 as <-. done.
      * rewrite lookup_insert_ne in Hp2 by done. destruct (Hrun p pr2 Hp2 Hr2) as (i & ci & Hci & Ep).
        exists i, ci. rewrite list_lookup_insert_ne; [done|]. intros ->. congruence.
Qed.

(** Waking a process that does not run concerns no CPU. *)
Lemma cpus_wake ps cp p pr : cpus_ok ps cp → ps !! p = Some pr → idle pr = false →
  pstate pr ≠ RUNNING → cpus_ok (<[p := set_pstate RUNNABLE pr]> ps) cp.
Proof.
  intros [Hcur Hidle Hdist Hrun] Hp Hi Hr. split; [| |done|].
  - intros i c Hc. destruct (Hcur i c Hc) as (pc & Hpc & Hrc & ?). exists pc.
    rewrite lookup_insert_ne; [done|]. intros ->. congruence.
  - intros i c Hc. destruct (Hidle i c Hc) as (pc & Hpc & Hrc & ?). exists pc.
    rewrite lookup_insert_ne; [done|]. intros ->. congruence.
  - intros q pq [[<- <-]|[Hne Hq]]%lookup_insert_Some Hr2; [done|by eapply Hrun].
Qed.
End facts.

(** ** Theorems *)
Section theorems.
Context {T : Type} `{!CpuTimers T} (root_container : Z).
Implicit Types (g : kst T) (L : gmap Z (list Z)).

(** A context switch; the theorem below states it. *)
Lemma sched_spec g L cpu c pr st d fuel :
  sched_ok g L → cpus g !! cpu = Some c → procs g !! cur c = Some pr → switchable st →
  (idle pr = true → st = RUNNABLE) →
  (panic_flag g = false → nested d fuel (enqueued L (cur c) pr st) (groups g) (sqhead root_container)) →
  let next := chosen root_container d g (enqueued L (cur c) pr st) c in
  ∃ g', simple_sched root_container (S d) fuel cpu st g =
      Done (if killed pr && bool_decide (st ≠ ZOMBIE) && bool_decide (st ≠ DEEPSLEEPING)
            then cur c else next, g') ∧
    sched_lock g' = false ∧ (∃ L', sched_ok g' L') ∧ (conts g' = conts g ∧ groups g' = groups g ∧ panic_flag g' = panic_flag g) ∧
    if killed pr && bool_decide (st ≠ ZOMBIE) && bool_decide (st ≠ DEEPSLEEPING)
    then procs g' = procs g ∧ cpus g' = cpus g ∧ lnodes g' = lnodes g
    else cpus g' = <[cpu := mkSched next (cpu_idle c)]> (cpus g) ∧ reset_sched_timer cpu 10 (timers g) = Done (tt, timers g') ∧
      ∃ npr, <[cur c := set_pstate st pr]> (procs g) !! next = Some npr ∧
        procs g' = <[next := set_pstate RUNNING npr]> (<[cur c := set_pstate st pr]> (procs g)).
Proof.
  intros (Q & C & Tm) Hc Hp Hst Hi Hnest next.
  destruct (co_cur _ _ C _ _ Hc) as (pr' & Hp' & Hr & _). assert (pr' = pr) as -> by congruence.
  unfold simple_sched. rewrite (bind_done _ _ g (cur c) g).
  2:{ unfold thisproc, get_cpu. m_unfold. by rewrite Hc. }
  rewrite (bind_done _ _ g pr g) by (unfold get_proc; by rewrite Hp).
  rewrite (bind_done _ _ g tt g) by (by rewrite bool_decide_true by done).
  destruct (killed pr && _ && _) eqn:Ek.
  { eexists. split; [done|]. split; [done|]. split; [exists L|split]; by split_and!. }
  destruct (update_this_state_spec g L cpu c pr st Q Hc Hp Hr Hst Hi) as (h1 & E1 & Q1).
  set (g1 := mkKst h1 _ _ _ _ _ _ _) in *.
  destruct (pick_next_spec root_container g1 _ d fuel cpu c Q1 Hc Hnest)
    as (h2 & npr & L2 & E2 & Hn & Hnr & Hni & Q2).
  { destruct (co_idle _ _ C _ _ Hc) as (ir & Hir & Hii & Hir2).
    simpl. destruct (decide (cur c = cpu_idle c)) as [Ec|Ec].
    - exists (set_pstate st pr). rewrite <-Ec, lookup_insert_eq.
      assert (ir = pr) as -> by congruence. split_and!; [done|done|by apply Hi].
    - exists ir. rewrite lookup_insert_ne by done. auto. }
  change (chosen root_container d g1 (enqueued L (cur c) pr st) c) with next in *.
  destruct (reset_sched_timer_ok _ cpu (timers g) Tm (lookup_lt_Some _ _ _ Hc)) as (t' & E3 & Tm').
  m_step E1. m_step E2. simpl in Hn.
  exists (mkKst h2 (<[next := set_pstate RUNNING npr]> (<[cur c := set_pstate st pr]> (procs g)))
    (conts g) (groups g) (<[cpu := mkSched next (cpu_idle c)]> (cpus g)) false (panic_flag g) t').
  split; [|split; [done|split; [|split; [done|split; [done|split; [exact E3|by exists npr]]]]]].
  - unfold update_this_proc, get_cpu, set_cpu, on_timers, get_proc, set_proc. m_unfold. simpl.
    rewrite Hc. simpl. rewrite E3. simpl. rewrite Hn, bool_decide_true by done. done.
  - exists L2. split; [exact Q2|]. split; [by eapply cpus_switch|simpl; by rewrite length_insert].
Qed.

(** C12: a context switch. From a state where the queues, the CPUs and the states
    of the processes agree, [_sched(st)] on a CPU does not panic. A killed process
    stays on the CPU unless it dies or sleeps deeply, and nothing but the lock
    changes. Otherwise the process takes state [st] (and goes to the back of its
    container's queue when [st] is [RUNNABLE]); the CPU goes on with the first
    process in the order of the queues, or with its idle process when there is none
    or the kernel panicked; that process becomes [RUNNING] and leaves its queue,
    no other process changes its state, and everything agrees again. *)
Theorem sched_switches g L cpu c pr st d fuel :
  sched_ok g L → cpus g !! cpu = Some c → procs g !! cur c = Some pr → switchable st →
  (idle pr = true → st = RUNNABLE) →
  nested d fuel (enqueued L (cur c) pr st) (groups g) (sqhead root_container) →
  let next := chosen root_container d g (enqueued L (cur c) pr st) c in
  ∃ g', simple_sched root_container (S d) fuel cpu st g =
      Done (if killed pr && bool_decide (st ≠ ZOMBIE) && bool_decide (st ≠ DEEPSLEEPING)
            then cur c else next, g') ∧
    sched_lock g' = false ∧ (∃ L', sched_ok g' L') ∧
    if killed pr && bool_decide (st ≠ ZOMBIE) && bool_decide (st ≠ DEEPSLEEPING)
    then procs g' = procs g ∧ cpus g' = cpus g ∧ lnodes g' = lnodes g
    else cpus g' = <[cpu := mkSched next (cpu_idle c)]> (cpus g) ∧
      ∀ p, pstate <$> procs g' !! p = if decide (p = next) then Some RUNNING
                                      else if decide (p = cur c) then Some st
                                      else pstate <$> procs g !! p.
Proof.
  intros S Hc Hp Hst Hi Hnest next.
  destruct (sched_spec g L cpu c pr st d fuel S Hc Hp Hst Hi (λ _, Hnest)) as (g' & E & Hl & Hok & _ & Hcase). fold next in E, Hcase.
  exists g'. split; [exact E|]. split; [done|]. split; [done|]. destruct (killed pr && _ && _); [done|].
  destruct Hcase as (Hcp & _ & npr & Hn & Hps). split; [done|]. intros p. rewrite Hps.
  destruct (decide (p = next)) as [->|Hne]; [by rewrite lookup_insert_eq|]. rewrite lookup_insert_ne by done.
  destruct (decide (p = cur c)) as [->|Hnc]; [by rewrite lookup_insert_eq|by rewrite lookup_insert_ne].
Qed.

(** Waking a process. [activate_proc] makes a process that is unused or
    sleeps [RUNNABLE], puts it at the front of its container's queue and says so;
    [alert_proc] does so too unless the process sleeps deeply; in any other state
    they change nothing. The queues and the CPUs still agree afterwards. *)
Theorem activate_wakes g L p pr onalert : sched_ok g L → sched_lock g = false →
  procs g !! p = Some pr → idle pr = false →
  let woken := bool_decide (pstate pr = UNUSED) || bool_decide (pstate pr = SLEEPING) ||
    (bool_decide (pstate pr = DEEPSLEEPING) && negb onalert) in
  ∃ g' L', _activate_proc p onalert g = Done (woken, g') ∧ sched_lock g' = false ∧ sched_ok g' L' ∧
    procs g' !! p = Some (if woken then set_pstate RUNNABLE pr else pr) ∧
    (∀ q, q ≠ p → procs g' !! q = procs g !! q) ∧ cpus g' = cpus g ∧
    (∀ hd, L' !! hd = if woken && bool_decide (hd = sqhead (container_ pr))
                      then cons (sqnode p) <$> L !! hd else L !! hd).
Proof.
  intros (Q & C & Tm) Hlk Hp Hi woken.
  destruct (activate_spec g L p pr onalert Q Hlk Hp Hi) as (h' & L' & E & Q' & l & HL & _ & EL).
  change (wakeable (pstate pr) onalert) with woken in *. eexists _, L'. split; [exact E|].
  split; [done|]. split; [split; [exact Q'|split; [|exact Tm]]|]; simpl.
  - destruct woken eqn:Ew; [|done]. apply cpus_wake; [done..|]. intros Hr.
    unfold woken in Ew. by rewrite Hr in Ew.
  - split; [|split; [|split; [done|]]].
    + destruct woken; [by rewrite lookup_insert_eq|done].
    + intros q Hq. destruct woken; [by rewrite lookup_insert_ne|done].
    + intros hd. rewrite EL. destruct woken; [|done]. simpl. case_bool_decide as Eh.
      * subst hd. by rewrite lookup_insert_eq, HL.
      * by rewrite lookup_insert_ne by done.
Qed.
End theorems.

(** ** The interface of the scheduler

    What [activate_proc] and [alert_proc] promise to the components that put
    processes to sleep: [sch_state] is the state of a process that is not an
    idle one. *)
Class Scheduler (S : Type) := {
  sch_activate : Z → bool → M S bool;
  sch_ok : S → Prop;
  sch_state : S → Z → option procstate;
  sch_activate_ok : ∀ s p st onalert, sch_ok s → sch_state s p = Some st →
    ∃ s', sch_activate p onalert s = Done (wakeable st onalert, s') ∧ sch_ok s' ∧
      ∀ q, sch_state s' q = if decide (q = p ∧ wakeable st onalert = true) then Some RUNNABLE
                            else sch_state s q
}.

(** [kernel/sched.c] implements it. *)
Section implementation.
Context {T : Type} `{!CpuTimers T}.

Definition sched_state (g : kst T) (p : Z) : option procstate :=
  pr ← procs g !! p; if idle pr then None else Some (pstate pr).

Lemma sched_activate_ok (g : kst T) p st onalert :
  (sched_lock g = false ∧ ∃ L, sched_ok g L) → sched_state g p = Some st →
  ∃ g', _activate_proc p onalert g = Done (wakeable st onalert, g') ∧
    (sched_lock g' = false ∧ ∃ L, sched_ok g' L) ∧
    ∀ q, sched_state g' q = if decide (q = p ∧ wakeable st onalert = true) then Some RUNNABLE
                            else sched_state g q.
Proof.
  intros [Hlk (L & Q & C & Tm)] Hst. unfold sched_state in Hst.
  destruct (procs g !! p) as [pr|] eqn:Hp; [|done]. simpl in Hst.
  destruct (idle pr) eqn:Hi; [done|]. simplify_eq.
  destruct (activate_spec g L p pr onalert Q Hlk Hp Hi) as (h' & L' & E & Q' & _).
  eexists. split; [exact E|]. split; [split; [done|]|].
  - exists L'. split; [exact Q'|]. split; [|exact Tm]. simpl.
    destruct (wakeable (pstate pr) onalert) eqn:Ew; [|done]. apply cpus_wake; [done..|].
    intros Hr. by rewrite Hr in Ew.
  - intros q. unfold sched_state. simpl. destruct (wakeable (pstate pr) onalert).
    + destruct (decide (q = p)) as [->|Hne].
      * rewrite decide_True by done. rewrite lookup_insert_eq. simpl. by rewrite Hi.
      * rewrite decide_False by tauto. by rewrite lookup_insert_ne.
    + rewrite decide_False; [done|]. by intros [_ ?].
Qed.

#[export] Instance sched_scheduler : Scheduler (kst T) := {|
  sch_activate := _activate_proc;
  sch_ok := λ g, sched_lock g = false ∧ ∃ L, sched_ok g L;
  sch_state := sched_state;
  sch_activate_ok := sched_activate_ok
|}.
End implementation.

(** ** Concrete states *)
Definition no_timers : CpuTimers unit :=
  {| reset_sched_timer := λ _ _, mret tt; timers_ok := λ _ _, True;
     reset_sched_timer_ok := λ _ _ t _ _, ex_intro _ t (conj eq_refl I) |}.

#[local] Existing Instance no_timers.

(** The root container at 1000, a running process at 2000, a runnable one at
    3000, and the idle process of the only CPU at 4000. *)
Definition sample_proc (i : bool) (st : procstate) : proc :=
  mkProc false i 1 1 0 st 0 0 1000 0 0 0.
Definition sample_sched (lk : bool) (st : procstate) : kst unit :=
  mkKst {[ 1040 := mkNode 3096 3096; 3096 := mkNode 1040 1040; 2096 := mkNode 2096 2096 ]}
    {[ 2000 := sample_proc false st; 3000 := sample_proc false RUNNABLE;
       4000 := sample_proc true (if decide (st = RUNNING) then RUNNABLE else RUNNING) ]}
    {[ 1000 := mkContainer 1000 0 0 ]} {[ 2088 := false; 3088 := false; 1016 := true ]}
    [mkSched (if decide (st = RUNNING) then 2000 else 4000) 4000] lk false tt.
Abbreviation sample_queue := ({[ 1040 := [3096] ]} : gmap Z (list Z)).

Lemma sample_sched_ok lk st : st = RUNNING ∨ st = SLEEPING → sched_ok (sample_sched lk st) sample_queue.
Proof.
  intros Hst. split; [|split; [|done]].
  - split.
    + split.
      * intros hd l [<- <-]%lookup_singleton_Some. split; [|split; [set_solver|]].
        -- apply (bool_decide_unpack _). by vm_compute.
        -- by vm_compute.
      * intros hd1 l1 hd2 l2 [<- <-]%lookup_singleton_Some [<- <-]%lookup_singleton_Some. done.
    + intros hd l n [<- <-]%lookup_singleton_Some ->%list_elem_of_singleton. left.
      by exists 3000, (sample_proc false RUNNABLE).
    + intros p pr Hp Hi. simpl in Hp.
      assert (∃ st, (p = 2000 ∧ pstate pr ≠ RUNNABLE ∨ p = 3000 ∧ pstate pr = RUNNABLE)
                ∧ pr = sample_proc false st) as (st' & Hcase & ->).
      { apply lookup_insert_Some in Hp as [[<- <-]|[_ Hp]].
        { exists st. split; [left|done]. split; [done|]. by destruct Hst as [-> | ->]. }
        apply lookup_insert_Some in Hp as [[<- <-]|[_ Hp]]; [exists RUNNABLE; tauto|].
        by apply lookup_singleton_Some in Hp as [<- <-]. }
      assert (Hc : ∀ c, is_Some (({[ 1000 := mkContainer 1000 0 0 ]} : gmap Z container) !! c) → c = 1000).
      { intros c [x Hx]. by apply lookup_singleton_Some in Hx as [<- _]. }
      destruct Hcase as [[-> Hr]|[-> Hr]]; (split; [done|split; [done|split; [by eexists|
        split; [done|split; [done|split; [by intros c ->%Hc|]]]]]]); exists [3096]; (split; [done|]).
      * rewrite list_elem_of_singleton. split; [done|]. by intros ?.
      * rewrite list_elem_of_singleton. done.
  - split.
    + intros i c Hc. destruct i; [|done]. simplify_eq/=.
      destruct Hst as [-> | ->]; eexists; (split; [done|]); done.
    + intros i c Hc. destruct i; [|done]. simplify_eq/=.
      destruct Hst as [-> | ->]; eexists; (split; [done|]); done.
    + intros [|i] [|j] ci cj Hi Hj; done.
    + intros p pr Hp Hr. exists 0%nat. eexists. split; [done|]. simpl. unfold sample_sched in Hp. cbn [procs] in Hp.
      apply lookup_insert_Some in Hp as [[<- <-]|[_ Hp]]; [by destruct Hst as [-> | ->]|].
      apply lookup_insert_Some in Hp as [[<- <-]|[_ Hp]]; [done|].
      apply lookup_singleton_Some in Hp as [<- <-]. by destruct Hst as [-> | ->].
Qed.

Lemma sched_switches_witness : ∃ g',
  simple_sched 1000 1 10 0 RUNNABLE (sample_sched true RUNNING) = Done (3000, g').
Proof.
  destruct (sched_switches 1000 (sample_sched true RUNNING) sample_queue 0 (mkSched 2000 4000)
    (sample_proc false RUNNING) RUNNABLE 0 10) as (g' & E & _);
    [by apply sample_sched_ok; left|done|done|by left|done| |].
  - exists [3096; 2096]. split; [by vm_compute|]. split; [simpl; lia|].
    intros n [->| ->%list_elem_of_singleton]%elem_of_cons; by left.
  - exists g'. rewrite E. by vm_compute.
Defined.

Lemma activate_wakes_witness : ∃ g', _activate_proc 2000 true (sample_sched false SLEEPING) = Done (true, g').
Proof.
  destruct (activate_wakes (sample_sched false SLEEPING) sample_queue 2000 (sample_proc false SLEEPING) true)
    as (g' & L' & E & _); [by apply sample_sched_ok; right|done|done|done|].
  by exists g'.
Defined.
