(* ===== verification/Sem.v ===== *)
(** * Semaphores ([common/sem.c], [common/sem.h])

    One semaphore with its sleepers.  [sl] is the address of [sem->sleeplist]; a
    [WaitData] lives at the address [kalloc] answered, its [slnode] at 16 in it.
    [_wait_sem] is cut at its call of [sched]: [wait_begin] runs up to it,
    [wait_end] from where the process runs again.  The scheduler is used through
    the interface of [Sched.v].

    The theorems are about every sequence of operations of any number of
    processes: what happens between the acquisition and the release of the
    semaphore's lock is one step (mutual exclusion is in [Atomics.v]); between two
    steps other processes, the scheduler and [alert_proc] may do anything. *)
From S2P Require Import Prelude Words Atomics Lists Sched.

Record WaitData := mkWait { up : bool; wproc : Z }.

Record sem (S : Type) := mkSem {
  slock : SpinLock; val : Z; snodes : heap; waits : gmap Z WaitData; ssch : S
}.
Arguments mkSem {S}.
Arguments slock {S}.
Arguments val {S}.
Arguments snodes {S}.
Arguments waits {S}.
Arguments ssch {S}.

#[export, refine] Instance sem_nodes S : HasNodes (sem S) := {|
  nodes := snodes;
  set_nodes := λ h s, mkSem (slock s) (val s) h (waits s) (ssch s)
|}.
Proof. all: try done. by intros []. Defined.

Definition slnode (w : Z) : Z := w + 16.

Section operations.
Context {S : Type} `{!Scheduler S} (sl : Z).
Abbreviation M := (M (sem S)).

Definition set_val (v : Z) : M unit := modify (λ s, mkSem (slock s) v (snodes s) (waits s) (ssch s)).
Definition set_waits (f : gmap Z WaitData → gmap Z WaitData) : M unit :=
  modify (λ s, mkSem (slock s) (val s) (snodes s) (f (waits s)) (ssch s)).
Definition get_wait (w : Z) : M WaitData := λ s,
  match waits s !! w with Some wd => Done (wd, s) | None => Crash end.
Definition on_slock {A} (m : Prelude.M SpinLock A) : M A := λ s,
  match m (slock s) with
  | Done (a, l) => Done (a, mkSem l (val s) (snodes s) (waits s) (ssch s))
  | Panic => Panic | Crash => Crash | NoFuel => NoFuel
  end.
Definition on_sch {A} (m : Prelude.M S A) : M A := λ s,
  match m (ssch s) with
  | Done (a, c) => Done (a, mkSem (slock s) (val s) (snodes s) (waits s) c)
  | Panic => Panic | Crash => Crash | NoFuel => NoFuel
  end.

Definition _lock_sem : M unit := on_slock (_acquire_spinlock 1).
Definition _unlock_sem : M unit := on_slock _release_spinlock.

Definition init_sem (v : Z) : M unit :=
  set_val v;; on_slock init_spinlock;; on_nodes (init_list_node sl).

Definition _get_sem : M bool :=
  v ← gets val;
  if decide (v > 0) then set_val (i32 (v - 1));; mret true else mret false.
Definition _query_sem : M Z := gets val.

Definition get_all_sem : M Z :=
  _lock_sem;;
  v ← gets val;
  ret ← (if decide (v > 0) then set_val 0;; mret v else mret 0);
  _unlock_sem;; mret ret.

Definition _post_sem : M unit :=
  v ← gets val;
  set_val (i32 (v + 1));;
  if decide (i32 (v + 1) <= 0) then
    e ← on_nodes (_empty_list sl);
    assert (negb e);;
    n ← on_nodes (get_prev sl);
    let w := n - 16 in
    wd ← get_wait w;
    set_waits (<[w := mkWait true (wproc wd)]>);;
    on_nodes (_detach_from_list (slnode w));;
    on_sch (sch_activate (wproc wd) false);; mret tt
  else mret tt.

(** [do _post_sem(sem), ret++; while (!_get_sem(sem));] *)
Definition post_all_sem (fuel : nat) : M Z :=
  _lock_sem;;
  ret ← loop fuel (λ ret,
    _post_sem;;
    g ← _get_sem;
    mret (if (g : bool) then inr (ret + 1) else inl (ret + 1))) (-1);
  _unlock_sem;; mret ret.

(** [_wait_sem] by the process [p] with the lock held, up to the call of [sched];
    [w] is the address of the new [WaitData]. [true]: it got the semaphore. *)
Definition wait_begin (p w : Z) : M bool :=
  v ← gets val;
  set_val (i32 (v - 1));;
  if decide (i32 (v - 1) >= 0) then _unlock_sem;; mret true
  else
    set_waits (<[w := mkWait false p]>);;
    on_nodes (_insert_into_list sl (slnode w));;
    _unlock_sem;; mret false.

(** The rest of [_wait_sem]. *)
Definition wait_end (w : Z) : M bool :=
  _lock_sem;;
  wd ← get_wait w;
  (if negb (up wd) then
     v ← gets val;
     set_val (i32 (v + 1));;
     assert (bool_decide (i32 (v + 1) <= 0));;
     on_nodes (_detach_from_list (slnode w));; mret tt
   else mret tt);;
  _unlock_sem;;
  wd ← get_wait w;
  set_waits (delete w);;
  mret (up wd).

(** The macros [post_sem], [get_sem] and the first half of [wait_sem]. *)
Definition post_sem : M unit := _lock_sem;; _post_sem;; _unlock_sem.
Definition get_sem : M bool := _lock_sem;; r ← _get_sem; _unlock_sem;; mret r.
Definition wait_sem (p w : Z) : M bool := _lock_sem;; wait_begin p w.
End operations.

(** ** The invariant *)
Section facts.
Context {S : Type} `{!Scheduler S} (sl : Z).
Implicit Types (s : sem S) (l : list Z) (w p n : Z).

(** [l] holds the nodes of the processes that wait, the oldest last: as many as
    [val] is below zero, and exactly those that were not woken. *)
Record sem_ok s l : Prop := {
  sk_range : in_s 32 (val s);
  sk_list : hlist (snodes s) sl l;
  sk_val : Z.of_nat (length l) = Z.max 0 (- val s);
  sk_waits : ∀ w wd, waits s !! w = Some wd →
    (up wd = false ↔ slnode w ∈ l) ∧ is_Some (sch_state (ssch s) (wproc wd));
  sk_nodes : ∀ n, n ∈ l → is_Some (waits s !! (n - 16));
  sk_sch : sch_ok (ssch s)
}.

(** Waits that were woken and have not run again. *)
Definition pending s : Z := Z.of_nat (size (filter (λ x, up x.2 = true) (waits s))).

(** The permits of a semaphore: those free, and those given to a process that
    has not run again. *)
Definition permits s : Z := Z.max 0 (val s) + pending s.

Lemma pending_wake s w p v h c lk : waits s !! w = Some (mkWait false p) →
  pending (mkSem lk v h (<[w := mkWait true p]> (waits s)) c) = pending s + 1.
Proof.
  intros Hw. unfold pending. simpl. rewrite map_filter_insert_True by done.
  rewrite map_size_insert_None; [lia|]. apply map_lookup_filter_None. right. intros x Hx.
  rewrite Hw in Hx. by simplify_eq/=.
Qed.
Lemma pending_sleep s w p v h c lk : waits s !! w = None →
  pending (mkSem lk v h (<[w := mkWait false p]> (waits s)) c) = pending s.
Proof.
  intros Hw. unfold pending. simpl. rewrite map_filter_insert_False by done.
  by rewrite delete_id.
Qed.
Lemma pending_delete s w wd v h c lk : waits s !! w = Some wd →
  pending (mkSem lk v h (delete w (waits s)) c) = pending s - (if up wd then 1 else 0).
Proof.
  intros Hw. unfold pending. simpl. rewrite map_filter_delete. destruct (up wd) eqn:E.
  - rewrite map_size_delete_Some; [|exists wd; by apply map_lookup_filter_Some].
    assert (size (filter (λ x, up x.2 = true) (waits s)) ≠ 0%nat).
    { apply map_size_non_empty_iff. intros He.
      assert (Hx : filter (λ x, up x.2 = true) (waits s) !! w = Some wd) by by apply map_lookup_filter_Some.
      by rewrite He in Hx. }
    lia.
  - rewrite delete_id; [lia|]. apply map_lookup_filter_None. right. intros x Hx. simpl. congruence.
Qed.

(** Waking a process changes no other process, and forgets none. *)
Lemma wake_known (c : S) p : sch_ok c → is_Some (sch_state c p) →
  ∃ b c', sch_activate p false c = Done (b, c') ∧ sch_ok c' ∧
    (sch_state c p = Some SLEEPING ∨ sch_state c p = Some DEEPSLEEPING → sch_state c' p = Some RUNNABLE) ∧
    (∀ q, q ≠ p → sch_state c' q = sch_state c q) ∧
    ∀ q, is_Some (sch_state c q) → is_Some (sch_state c' q).
Proof.
  intros Hok [st Hst]. destruct (sch_activate_ok c p st false Hok Hst) as (c' & E & Hok' & H).
  eexists _, c'. split; [exact E|]. split; [done|]. split; [|split].
  - rewrite H. intros Hs. rewrite decide_True; [done|]. split; [done|].
    by destruct Hs as [Hs|Hs]; rewrite Hst in Hs; injection Hs as ->.
  - intros q Hq. rewrite H. by rewrite decide_False by tauto.
  - intros q Hq. rewrite H. destruct (decide (q = p ∧ wakeable st false = true)); [exists RUNNABLE; reflexivity|exact Hq].
Qed.

Lemma post_spec s l : sem_ok s l → val s < 2 ^ 31 - 1 →
  ∃ s' l', _post_sem sl s = Done (tt, s') ∧ sem_ok s' l' ∧ slock s' = slock s ∧
    val s' = val s + 1 ∧ permits s' = permits s + 1 ∧
    match last l with
    | None => l' = [] ∧ waits s' = waits s ∧ ssch s' = ssch s
    | Some n => ∃ wd, l = l' ++ [n] ∧ waits s !! (n - 16) = Some wd ∧
        waits s' = <[n - 16 := mkWait true (wproc wd)]> (waits s) ∧
        (sch_state (ssch s) (wproc wd) = Some SLEEPING ∨
         sch_state (ssch s) (wproc wd) = Some DEEPSLEEPING →
         sch_state (ssch s') (wproc wd) = Some RUNNABLE)
    end.
Proof.
  intros [Hr Hl Hv Hw Hn Hc] Hmax. destruct s as [lk v h ws c]. simpl in *.
  unfold in_s in Hr. assert (Ev : i32 (v + 1) = v + 1) by (apply swrap_small; [lia|split; lia]).
  unfold _post_sem. unfold gets at 1, set_val, modify. unfold mbind at 1 2, M_bind at 1 2. simpl. rewrite Ev.
  destruct l as [|n l _] using rev_ind.
  - exists (mkSem lk (v + 1) h ws c), []. simpl in Hv. rewrite decide_False by lia.
    split; [done|]. split; [split; simpl; [split; lia|done|lia|done|done|done]|].
    split; [done|]. split; [done|]. split; [unfold permits, pending; simpl; lia|done].
  - rewrite length_app in Hv. simpl in Hv. rewrite last_snoc. rewrite decide_True by lia.
    destruct (Hn n) as [wd Hwd]; [set_solver|]. destruct (Hw _ _ Hwd) as [Hup Hp].
    assert (Hsn : slnode (n - 16) = n) by (unfold slnode; lia).
    assert (Hf : up wd = false) by (apply Hup; rewrite Hsn; set_solver).
    destruct (hlist_detach h sl l n [] Hl) as (h' & E & O & Hl' & _). rewrite app_nil_r in Hl'.
    destruct (wake_known c (wproc wd) Hc Hp) as (b & c' & Ec & Hc' & Hwake & Hoth & Hkn).
    exists (mkSem lk (v + 1) h' (<[n - 16 := mkWait true (wproc wd)]> ws) c'), l.
    split; [|split; [|split; [done|split; [done|split]]]].
    + erewrite bind_done by (apply on_nodes_done; apply (hlist_empty h sl _ Hl)).
      rewrite bool_decide_false by (by destruct l). simpl. unfold mbind at 1, M_bind at 1. simpl.
      erewrite bind_done by (apply on_nodes_done; apply (hlist_last h sl _ Hl)).
      rewrite last_snoc. simpl. unfold get_wait, set_waits, modify, on_sch. m_unfold. simpl.
      rewrite Hwd. simpl. rewrite Hsn. unfold on_nodes. simpl. rewrite E. simpl. by rewrite Ec.
    + pose proof (hlist_nodup _ _ _ Hl) as Hnd. apply NoDup_cons in Hnd as [_ Hnd].
      rewrite NoDup_app_cons in Hnd. destruct Hnd as (Hnl & _ & _).
      split; simpl; [split; lia|done|lia| | |done].
      * intros w wd2 [[<- <-]|[Hne Hw2]]%lookup_insert_Some.
        -- simpl. split; [|by apply Hkn]. split; [done|]. rewrite Hsn. done.
        -- destruct (Hw _ _ Hw2) as [Hu2 Hp2]. split; [|by apply Hkn]. rewrite Hu2.
           rewrite elem_of_app, list_elem_of_singleton. split; [|by left].
           intros [?|E2]; [done|]. exfalso. apply Hne. unfold slnode in E2. lia.
      * intros m Hm. destruct (decide (m = n)) as [->|Hmn]; [done|].
        rewrite lookup_insert_ne by lia. apply Hn. set_solver.
    + unfold permits. assert (Hwd' : ws !! (n - 16) = Some (mkWait false (wproc wd)))
        by (rewrite Hwd; destruct wd; simpl in *; by subst).
      pose proof (pending_wake (mkSem lk v h ws c) (n - 16) (wproc wd) (v + 1) h' c' lk Hwd').
      simpl in *. lia.
    + exists wd. by split_and!.
Qed.

Lemma get_spec s l : sem_ok s l → ∃ s', _get_sem s = Done (bool_decide (val s > 0), s') ∧
  sem_ok s' l ∧ slock s' = slock s ∧ val s' = (if decide (val s > 0) then val s - 1 else val s) ∧
  permits s' = permits s - (if decide (val s > 0) then 1 else 0) ∧
  waits s' = waits s ∧ ssch s' = ssch s.
Proof.
  intros [Hr Hl Hv Hw Hn Hc]. destruct s as [lk v h ws c]. simpl in *. unfold in_s in Hr.
  unfold _get_sem, gets, set_val, modify. m_unfold. simpl. destruct (decide (v > 0)).
  - rewrite bool_decide_true, swrap_small by (lia || (split; lia)).
    exists (mkSem lk (v - 1) h ws c). split; [done|].
    split; [split; simpl; [split; lia|done|lia|done|done|done]|].
    split_and!; [done|done|unfold permits, pending; simpl; lia|done|done].
  - rewrite bool_decide_false by lia. exists (mkSem lk v h ws c). by split_and!; try lia.
Qed.

(** [do _post_sem(sem), ret++; while (!_get_sem(sem));] goes on until nobody
    waits. *)
Lemma post_all_loop l : ∀ s ret fuel, sem_ok s l → val s < 2 ^ 31 - 1 → (length l < fuel)%nat →
  ∃ s', loop fuel (λ ret, _post_sem sl;; g ← _get_sem;
      mret (if (g : bool) then inr (ret + 1) else inl (ret + 1))) ret s
      = Done (ret + Z.of_nat (length l) + 1, s') ∧ sem_ok s' [] ∧ slock s' = slock s ∧
    permits s' = permits s + Z.of_nat (length l) ∧
    ∀ w wd, waits s !! w = Some wd → waits s' !! w = Some (mkWait true (wproc wd)).
Proof.
  induction l as [|n l IH] using rev_ind; intros s ret fuel Hs Hmax Hf;
    (destruct fuel as [|fuel]; [lia|]); rewrite loop_S;
    destruct (post_spec s _ Hs Hmax) as (s1 & l1 & E1 & Hs1 & Hk1 & Hv1 & Hp1 & H1);
    destruct (get_spec s1 l1 Hs1) as (s2 & E2 & Hs2 & Hk2 & Hv2 & Hp2 & Hw2 & _);
    (erewrite bind_done; [|by m_step E1; m_step E2]).
  - destruct H1 as (-> & Hw1 & _). pose proof (sk_val _ _ Hs) as Hv. simpl in Hv.
    rewrite decide_True in Hp2 by lia. rewrite bool_decide_true by lia.
    exists s2. split; [unfold mret, M_ret; simpl; do 2 f_equal; lia|].
    split; [done|]. split; [congruence|]. split; [simpl; lia|].
    intros w wd Hw. rewrite Hw2, Hw1. destruct (sk_waits _ _ Hs _ _ Hw) as [Hu _].
    destruct wd as [[] p]; [done|]. exfalso. destruct Hu as [Hu _]. specialize (Hu eq_refl). set_solver.
  - rewrite last_snoc in H1. destruct H1 as (wd1 & El & Hwd1 & Hw1 & _).
    apply app_inj_tail in El as [<- _]. pose proof (sk_val _ _ Hs) as Hv.
    rewrite length_app in *. simpl in *.
    rewrite decide_False in Hp2 by lia. rewrite decide_False in Hv2 by lia.
    rewrite bool_decide_false by lia.
    destruct (IH s2 (ret + 1) fuel Hs2 ltac:(lia) ltac:(lia)) as (s3 & E3 & Hs3 & Hk3 & Hp3 & Hw3).
    exists s3. split; [|split; [done|split; [congruence|split; [lia|]]]].
    + rewrite E3. do 2 f_equal. lia.
    + intros w wd Hw. destruct (decide (w = n - 16)) as [->|Hne].
      * rewrite (Hw3 _ (mkWait true (wproc wd1))); [simpl; by simplify_eq|].
        rewrite Hw2, Hw1. by rewrite lookup_insert_eq.
      * apply Hw3. rewrite Hw2, Hw1. by rewrite lookup_insert_ne.
Qed.

(** A process may wait with a fresh [WaitData] at [w]. *)
Definition can_wait s p w : Prop :=
  waits s !! w = None ∧ slnode w ≠ 0 ∧ slnode w ≠ sl ∧ is_Some (snodes s !! slnode w) ∧
  is_Some (sch_state (ssch s) p) ∧ - 2 ^ 31 < val s.

Lemma wait_spec s l p w : sem_ok s l → slock s = false → can_wait s p w →
  ∃ s' l', wait_sem sl p w s = Done (bool_decide (val s > 0), s') ∧ sem_ok s' l' ∧ slock s' = false ∧
    permits s' = permits s - (if decide (val s > 0) then 1 else 0) ∧
    val s' = val s - 1 ∧ l' = (if decide (val s > 0) then l else slnode w :: l).
Proof.
  intros [Hr Hl Hv Hw Hn Hc] Hlk (Hw0 & Hn0 & Hsl & Hs & Hp & Hmin).
  destruct s as [lk v h ws c]. simpl in *. subst lk. unfold in_s in Hr.
  assert (Ev : i32 (v - 1) = v - 1) by (apply swrap_small; [lia|split; lia]).
  unfold wait_sem, _lock_sem, _unlock_sem, on_slock, wait_begin, gets, set_val, set_waits, modify.
  unfold mbind, M_bind. simpl. rewrite Ev. destruct (decide (v > 0)) as [Hpos|Hneg].
  - rewrite decide_True, bool_decide_true by lia. exists (mkSem false (v - 1) h ws c), l.
    split; [done|]. split; [split; simpl; [split; lia|done|lia|done|done|done]|].
    split; [done|]. split; [unfold permits, pending; simpl; lia|done].
  - rewrite decide_False, bool_decide_false by lia.
    destruct (hlist_push_front h sl l (slnode w) Hl) as (h' & E & O & Hl'); [|done|done|].
    { intros [?|Hin]%elem_of_cons; [done|]. destruct (Hn _ Hin) as [x Hx].
      unfold slnode in Hx. replace (w + 16 - 16) with w in Hx by lia. congruence. }
    unfold on_nodes. simpl. rewrite E. simpl.
    exists (mkSem false (v - 1) h' (<[w := mkWait false p]> ws) c), (slnode w :: l).
    split; [done|]. split; [split; simpl; [split; lia|done|lia| | |done]|].
    + intros w2 wd2 [[<- <-]|[Hne Hw2]]%lookup_insert_Some.
      * simpl. split; [|done]. split; [by left|done].
      * destruct (Hw _ _ Hw2) as [Hu2 Hp2]. split; [|done]. rewrite Hu2, elem_of_cons.
        split; [by right|]. intros [E2|?]; [|done]. unfold slnode in E2. lia.
    + intros n [->|Hn2]%elem_of_cons.
      * unfold slnode. replace (w + 16 - 16) with w by lia. rewrite lookup_insert_eq. by eexists.
      * destruct (decide (n - 16 = w)) as [->|Hne]; [rewrite lookup_insert_eq; by eexists|].
        rewrite lookup_insert_ne by done. by apply Hn.
    + split; [done|]. split; [|done].
      pose proof (pending_sleep (mkSem false v h ws c) w p (v - 1) h' c false Hw0).
      unfold permits. simpl in *. lia.
Qed.

Lemma wait_end_spec s l w wd : sem_ok s l → slock s = false → waits s !! w = Some wd →
  ∃ s' l', wait_end w s = Done (up wd, s') ∧ sem_ok s' l' ∧ slock s' = false ∧
    permits s' = permits s - (if up wd then 1 else 0) ∧ waits s' = delete w (waits s).
Proof.
  intros [Hr Hl Hv Hw Hn Hc] Hlk Hwd. destruct s as [lk v h ws c]. simpl in *. subst lk.
  unfold in_s in Hr. destruct (Hw _ _ Hwd) as [Hu _].
  unfold wait_end, _lock_sem, _unlock_sem, on_slock, get_wait, gets, set_val, set_waits, modify.
  unfold mbind, M_bind. simpl. rewrite Hwd.
  assert (Hother : ∀ l', (∀ n, n ∈ l' → n ∈ l ∧ n ≠ slnode w) → (∀ n, n ∈ l → n ≠ slnode w → n ∈ l') →
    (∀ w2 wd2, delete w ws !! w2 = Some wd2 →
      (up wd2 = false ↔ slnode w2 ∈ l') ∧ is_Some (sch_state c (wproc wd2))) ∧
    (∀ n, n ∈ l' → is_Some (delete w ws !! (n - 16)))).
  { intros l' H1 H2. split.
    - intros w2 wd2 [Hne Hw2]%lookup_delete_Some. destruct (Hw _ _ Hw2) as [Hu2 Hp2]. split; [|done].
      rewrite Hu2. split; [|by intros [? _]%H1]. intros Hin. apply H2; [done|]. unfold slnode. lia.
    - intros n Hin. destruct (H1 n Hin) as [H3 H4]. rewrite lookup_delete_ne; [by apply Hn|].
      intros ->. unfold slnode in H4. lia. }
  destruct (up wd) eqn:Eu; simpl.
  - exists (mkSem false v h (delete w ws) c), l. rewrite Hwd, Eu.
    destruct (Hother l) as [Ha Hb]; [|done|].
    { intros n Hin. split; [done|]. intros ->. apply Hu in Hin. done. }
    split; [done|]. split; [split; simpl; [split; lia|done..]|]. split; [done|]. split; [|done].
    pose proof (pending_delete (mkSem false v h ws c) w wd v h c false Hwd) as Hp.
    rewrite Eu in Hp. unfold permits. simpl in *. lia.
  - assert (Hin : slnode w ∈ l) by by apply Hu.
    assert (Hlen : (0 < length l)%nat) by (destruct l; [by apply elem_of_nil in Hin|simpl; lia]).
    assert (Ev : i32 (v + 1) = v + 1) by (apply swrap_small; [lia|split; lia]).
    rewrite Ev, bool_decide_true by lia. simpl.
    apply list_elem_of_split in Hin as (l1 & l2 & ->).
    destruct (hlist_detach h sl l1 (slnode w) l2 Hl) as (h' & E & O & Hl' & _).
    unfold on_nodes. simpl. rewrite E. simpl. rewrite Hwd.
    exists (mkSem false (v + 1) h' (delete w ws) c), (l1 ++ l2).
    pose proof (hlist_nodup _ _ _ Hl) as Hnd. apply NoDup_cons in Hnd as [_ Hnd].
    rewrite NoDup_app_cons in Hnd. destruct Hnd as (N1 & N2 & _).
    destruct (Hother (l1 ++ l2)) as [Ha Hb].
    { intros n Hin. split; [set_solver|]. intros ->. set_solver. }
    { intros n Hin Hne. set_solver. }
    rewrite length_app in *. simpl in *.
    split; [by rewrite Eu|]. split; [split; simpl; [split; lia|done|rewrite length_app; lia|done..]|].
    split; [done|]. split; [|done].
    pose proof (pending_delete (mkSem false v h ws c) w wd (v + 1) h' c false Hwd) as Hp.
    rewrite Eu in Hp. unfold permits. simpl in *. lia.
Qed.

Lemma get_all_spec s l : sem_ok s l → slock s = false →
  ∃ s', get_all_sem s = Done (Z.max 0 (val s), s') ∧ sem_ok s' l ∧ slock s' = false ∧
    permits s' = permits s - Z.max 0 (val s).
Proof.
  intros [Hr Hl Hv Hw Hn Hc] Hlk. destruct s as [lk v h ws c]. simpl in *. subst lk.
  unfold in_s in Hr. unfold get_all_sem, _lock_sem, _unlock_sem, on_slock, gets, set_val, modify.
  unfold mbind, M_bind, mret, M_ret. simpl. destruct (decide (v > 0)); simpl.
  - exists (mkSem false 0 h ws c). split; [do 2 f_equal; lia|].
    split; [split; simpl; [split; lia|done|lia|done|done|done]|].
    split; [done|unfold permits, pending; simpl; lia].
  - exists (mkSem false v h ws c). split; [do 2 f_equal; lia|]. by split_and!; try lia.
Qed.
End facts.

(** ** Sequences of operations *)
Section runs.
Context {S : Type} `{!Scheduler S} (sl : Z).

(** [Others c] is anything the rest of the kernel does to the scheduler. *)
Inductive op := Wait (p w : Z) | Resume (w : Z) | Post | Get | GetAll | PostAll (fuel : nat) | Others (c : S).

(** Run an operation and count the permits it hands out (negative) or puts in. *)
Definition exec (o : op) : M (sem S) Z :=
  match o with
  | Wait p w => r ← wait_sem sl p w; mret (if (r : bool) then -1 else 0)
  | Resume w => r ← wait_end w; mret (if (r : bool) then -1 else 0)
  | Post => post_sem sl;; mret 1
  | Get => r ← get_sem; mret (if (r : bool) then -1 else 0)
  | GetAll => r ← get_all_sem; mret (- r)
  | PostAll fuel => post_all_sem sl fuel
  | Others c => modify (λ s, mkSem (slock s) (val s) (snodes s) (waits s) c);; mret 0
  end.

Definition enabled (o : op) (s : sem S) (l : list Z) : Prop :=
  match o with
  | Wait p w => can_wait sl s p w
  | Resume w => is_Some (waits s !! w)
  | Post => val s < 2 ^ 31 - 1
  | PostAll fuel => val s < 2 ^ 31 - 1 ∧ (length l < fuel)%nat
  | Get | GetAll => True
  | Others c => sch_ok c ∧ ∀ w wd, waits s !! w = Some wd → is_Some (sch_state c (wproc wd))
  end.

Fixpoint run (os : list op) : M (sem S) Z :=
  match os with
  | [] => mret 0
  | o :: os' => r ← exec o; t ← run os'; mret (r + t)
  end.

(** Every operation is enabled when its turn comes. *)
Fixpoint can_run (os : list op) (s : sem S) : Prop :=
  match os with
  | [] => True
  | o :: os' => (∀ l, sem_ok sl s l → enabled o s l) ∧ ∀ r s', exec o s = Done (r, s') → can_run os' s'
  end.

Lemma exec_ok o s l : sem_ok sl s l → slock s = false → enabled o s l →
  ∃ r s' l', exec o s = Done (r, s') ∧ sem_ok sl s' l' ∧ slock s' = false ∧
    permits s' = permits s + r.
Proof.
  intros Hs Hlk He. destruct o as [p w|w| | | |fuel|c]; simpl in He.
  - destruct (wait_spec sl s l p w Hs Hlk He) as (s' & l' & E & Hs' & Hk & Hp & _).
    eexists _, s', l'. split; [simpl; m_step E; done|]. split_and!; [done..|].
    rewrite Hp. case_decide; [rewrite bool_decide_true by lia|rewrite bool_decide_false by lia]; lia.
  - destruct He as [wd Hwd]. destruct (wait_end_spec sl s l w wd Hs Hlk Hwd) as (s' & l' & E & Hs' & Hk & Hp & _).
    eexists _, s', l'. split; [simpl; m_step E; done|]. split_and!; [done..|]. rewrite Hp. by destruct (up wd); lia.
  - destruct (post_spec sl (mkSem true (val s) (snodes s) (waits s) (ssch s)) l)
      as (s' & l' & E & Hs' & Hk & Hv & Hp & _); [by destruct Hs|done|].
    exists 1, (mkSem false (val s') (snodes s') (waits s') (ssch s')), l'. split.
    + simpl. unfold post_sem, _lock_sem, _unlock_sem, on_slock. unfold mbind, M_bind. rewrite Hlk.
      simpl. by rewrite E.
    + split; [by destruct Hs'|]. split; [done|]. exact Hp.
  - destruct (get_spec sl (mkSem true (val s) (snodes s) (waits s) (ssch s)) l)
      as (s' & E & Hs' & Hk & Hv & Hp & _); [by destruct Hs|].
    exists (if bool_decide (val s > 0) then -1 else 0),
      (mkSem false (val s') (snodes s') (waits s') (ssch s')), l. split.
    + simpl. unfold get_sem, _lock_sem, _unlock_sem, on_slock. unfold mbind, M_bind. rewrite Hlk.
      simpl. by rewrite E.
    + split; [by destruct Hs'|]. split; [done|].
      change (permits s' = permits s + if bool_decide (val s > 0) then -1 else 0).
      simpl in Hp. unfold permits, pending in *. simpl in *. destruct (decide (val s > 0));
        [rewrite bool_decide_true by lia|rewrite bool_decide_false by lia]; lia.
  - destruct (get_all_spec sl s l Hs Hlk) as (s' & E & Hs' & Hk & Hp).
    eexists _, s', l. split; [simpl; m_step E; done|]. split_and!; [done..|lia].
  - destruct He as [Hmax Hf].
    destruct (post_all_loop sl l (mkSem true (val s) (snodes s) (waits s) (ssch s)) (-1) fuel)
      as (s' & E & Hs' & Hk & Hp & _); [by destruct Hs|done|done|].
    exists (Z.of_nat (length l)), (mkSem false (val s') (snodes s') (waits s') (ssch s')), [].
    split; [|split; [by destruct Hs'|split; [done|exact Hp]]].
    simpl. unfold post_all_sem, _lock_sem, _unlock_sem, on_slock. unfold mbind at 1, M_bind at 1.
    rewrite Hlk. simpl. m_step E. unfold mbind, M_bind, mret, M_ret. simpl. do 2 f_equal. lia.
  - destruct He as [Hc Hw]. exists 0, (mkSem (slock s) (val s) (snodes s) (waits s) c), l.
    split; [done|]. destruct Hs as [Hr Hl Hv Hws Hn _].
    split; [split; simpl; [done..| |done|done]|split; [done|unfold permits, pending; simpl; lia]].
    intros w wd Hwd. split; [by apply Hws|by eapply Hw].
Qed.

(** C13: semaphores keep count. Whatever sequence of waits, resumptions of
    waiting processes (woken or alerted), posts, gets and changes of the scheduler
    happens, no assertion of [sem.c] fails and no operation faults; as many
    processes are on the sleep list as [val] is below zero; and the permits
    (the free ones and those handed to woken processes) are those of the start plus
    the posts minus the successful waits and gets. *)
Theorem semaphore_keeps_count os s l : sem_ok sl s l → slock s = false → can_run os s →
  ∃ total s' l', run os s = Done (total, s') ∧ sem_ok sl s' l' ∧ slock s' = false ∧
    Z.of_nat (length l') = Z.max 0 (- val s') ∧ permits s' = permits s + total.
Proof.
  revert s l. induction os as [|o os IH]; intros s l Hs Hlk Hcan.
  { exists 0, s, l. split_and!; [done..|by destruct Hs|lia]. }
  destruct Hcan as [He Hcan]. destruct (exec_ok o s l Hs Hlk (He l Hs)) as (r & s1 & l1 & E1 & Hs1 & Hk1 & Hp1).
  destruct (IH s1 l1 Hs1 Hk1 (Hcan _ _ E1)) as (t & s2 & l2 & E2 & Hs2 & Hk2 & Hv2 & Hp2).
  exists (r + t), s2, l2. split_and!; [|done..|lia]. simpl. m_step E1. by m_step E2.
Qed.

(** [post_sem] wakes the process that has waited longest. With nobody
    waiting it only adds a permit. Otherwise the oldest [WaitData] is marked, taken
    from the list, the others stay in order, and its process, if it still sleeps,
    becomes [RUNNABLE], so that its [wait_sem] answers [true]. *)
Theorem post_wakes_oldest s l : sem_ok sl s l → slock s = false → val s < 2 ^ 31 - 1 →
  ∃ s' l', post_sem sl s = Done (tt, s') ∧ sem_ok sl s' l' ∧ slock s' = false ∧ val s' = val s + 1 ∧
    match last l with
    | None => l' = [] ∧ waits s' = waits s
    | Some n => ∃ p, l = l' ++ [n] ∧ waits s !! (n - 16) = Some (mkWait false p) ∧
        waits s' = <[n - 16 := mkWait true p]> (waits s) ∧
        (sch_state (ssch s) p = Some SLEEPING ∨ sch_state (ssch s) p = Some DEEPSLEEPING →
         sch_state (ssch s') p = Some RUNNABLE) ∧
        ∃ s'', wait_end (n - 16) s' = Done (true, s'')
    end.
Proof.
  intros Hs Hlk Hmax. destruct (post_spec sl (mkSem true (val s) (snodes s) (waits s) (ssch s)) l)
    as (s' & l' & E & Hs' & Hk & Hv & Hp & H); [by destruct Hs|done|].
  assert (Hs2 : sem_ok sl (mkSem false (val s') (snodes s') (waits s') (ssch s')) l') by by destruct Hs'.
  exists (mkSem false (val s') (snodes s') (waits s') (ssch s')), l'. split; [|split; [done|split; [done|split; [done|]]]].
  - unfold post_sem, _lock_sem, _unlock_sem, on_slock. unfold mbind, M_bind. rewrite Hlk.
    simpl. by rewrite E.
  - destruct (last l) as [n|] eqn:El; [|by destruct H as (-> & ? & _)].
    destruct H as (wd & -> & Hwd & Hw' & Hwake). simpl in *. exists (wproc wd).
    assert (Hf : up wd = false).
    { destruct (sk_waits _ _ _ Hs _ _ Hwd) as [Hu _]. apply Hu. unfold slnode.
      replace (n - 16 + 16) with n by lia. set_solver. }
    split; [done|]. split; [destruct wd; simpl in *; congruence|]. split; [done|]. split; [done|].
    destruct (wait_end_spec sl _ l' (n - 16) (mkWait true (wproc wd)) Hs2 eq_refl) as (s2 & ? & E2 & _).
    { simpl. by rewrite Hw', lookup_insert_eq. }
    by exists s2.
Qed.

(** [post_all_sem] wakes everybody and answers how many there were;
    afterwards nobody waits and the semaphore has the permits it had. *)
Theorem post_all_wakes_all s l fuel : sem_ok sl s l → slock s = false → val s < 2 ^ 31 - 1 →
  (length l < fuel)%nat →
  ∃ s', post_all_sem sl fuel s = Done (Z.of_nat (length l), s') ∧ sem_ok sl s' [] ∧ slock s' = false ∧
    (∀ w wd, waits s !! w = Some wd → waits s' !! w = Some (mkWait true (wproc wd))) ∧
    permits s' = permits s + Z.of_nat (length l).
Proof.
  intros Hs Hlk Hmax Hf.
  destruct (post_all_loop sl l (mkSem true (val s) (snodes s) (waits s) (ssch s)) (-1) fuel)
    as (s' & E & Hs' & Hk & Hp & Hw); [by destruct Hs|done|done|].
  exists (mkSem false (val s') (snodes s') (waits s') (ssch s')).
  split; [|split; [by destruct Hs'|split; [done|split; [exact Hw|exact Hp]]]].
  unfold post_all_sem, _lock_sem, _unlock_sem, on_slock. unfold mbind at 1, M_bind at 1.
  rewrite Hlk. simpl. m_step E. unfold mbind, M_bind, mret, M_ret. simpl. do 2 f_equal. lia.
Qed.
End runs.

(** A semaphore with its list at 500, on which process 2000 sleeps. *)
#[local] Existing Instance no_timers.
Definition sample_sem : sem (kst unit) :=
  mkSem false (-1) {[ 500 := mkNode 616 616; 616 := mkNode 500 500 ]} {[ 600 := mkWait false 2000 ]}
    (sample_sched false SLEEPING).

Lemma sample_sem_ok : sem_ok 500 sample_sem [616].
Proof.
  split; simpl.
  - split; lia.
  - split; [apply (bool_decide_unpack _); by vm_compute|]. split; [set_solver|by vm_compute].
  - done.
  - intros w wd [<- <-]%lookup_singleton_Some. split; [|by eexists].
    rewrite list_elem_of_singleton. done.
  - intros n ->%list_elem_of_singleton. by eexists.
  - split; [done|]. eexists. apply sample_sched_ok. by right.
Qed.

Lemma semaphore_keeps_count_witness : ∃ s', run 500 [Post; Resume 600] sample_sem = Done (0, s').
Proof.
  destruct (semaphore_keeps_count 500 [Post; Resume 600] sample_sem [616] sample_sem_ok)
    as (t & s' & l' & E & _ & _ & _ & Hp); [done| |].
  - split; [intros l _; simpl; lia|]. intros r s' E. split; [|done]. intros l Hs.
    destruct (post_wakes_oldest 500 sample_sem [616] sample_sem_ok) as (s2 & l2 & E2 & _ & _ & _ & H);
      [done|simpl; lia|].
    unfold exec in E. rewrite (bind_done _ _ _ _ _ E2) in E. injection E as _ <-.
    destruct H as (p & _ & _ & Hw & _). simpl. rewrite Hw. by eexists.
  - exists s'. rewrite E. assert (Ha : answer (run 500 [Post; Resume 600] sample_sem) = Some 0) by by vm_compute.
    rewrite E in Ha. by injection Ha as ->.
Defined.

Lemma post_wakes_oldest_witness : ∃ s', post_sem 500 sample_sem = Done (tt, s') ∧ val s' = 0.
Proof.
  destruct (post_wakes_oldest 500 sample_sem [616] sample_sem_ok) as (s' & l' & E & _ & _ & Hv & _);
    [done|simpl; lia|].
  exists s'. split; [exact E|]. rewrite Hv. done.
Defined.

Lemma post_all_wakes_all_witness : ∃ s', post_all_sem 500 2 sample_sem = Done (1, s') ∧
  waits s' !! 600 = Some (mkWait true 2000).
Proof.
  destruct (post_all_wakes_all 500 sample_sem [616] 2 sample_sem_ok) as (s' & E & _ & _ & Hw & _);
    [done|simpl; lia|simpl; lia|].
  exists s'. split; [exact E|]. by apply (Hw 600 (mkWait false 2000)).
Defined.
