(* ===== verification/Ipc.v ===== *)
(** * Message queues ([common/ipc.c], [common/ipc.h])

    The text of messages is in the byte memory, in pages of the allocator of
    [Pages.v]; the nodes of the lists are in a heap of [Lists.v].  A
    [struct msg_queue] is at the address [kalloc] answered for it ([q_message] at
    16, [q_sender] at 32, [q_receiver] at 48 in it); senders and receivers are at
    the addresses of the stack variables; their list nodes come first.

    A system call that sleeps is cut there: [sys_msgsnd] into the part before
    [retry] and the part after it, which is run again, [sys_msgrcv] into the
    parts before and after [_sched]. *)
From S2P Require Import Prelude Words Atomics Lists Memory Strings LockFree Kalloc Pages Sched.

Definition ENOMEM : Z := -1.
Definition ENOSEQ : Z := -2.
Definition ENOENT : Z := -3.
Definition EEXIST : Z := -4.
Definition EINVAL : Z := -5.
Definition EAGAIN : Z := -6.
Definition EIDRM : Z := -7.
Definition E2BIG : Z := -8.
Definition ENOMSG : Z := -9.
Definition IPC_RMID : Z := 0.
Definition SEQ_MULTIPLIER : Z := 16.
Definition IPC_PRIVATE : Z := 0.
Definition IPC_CREATE : Z := 2.
Definition IPC_EXCL : Z := 1.
Definition IPC_NOWAIT : Z := 1.
(** [sizeof(msg_msg)] is 32 and [sizeof(msg_msgseg)] is 8. *)
Definition MSG_MSGSZ : Z := PAGE_SIZE - 32.
Definition MSG_MSGSEGSZ : Z := PAGE_SIZE - 8.
Definition MAX_MSGNUM : Z := 256.

Record msg_queue := mkQueue { key : Z; qseq : Z; max_msg : Z; sum_msg : Z }.
Definition q_message (q : Z) : Z := q + 16.
Definition q_sender (q : Z) : Z := q + 32.
Definition q_receiver (q : Z) : Z := q + 48.

Record ipc_ids := mkIds { ids_size : Z; in_use : Z; ids_seq : Z; ids_lock : SpinLock; entries : list Z }.

(** [struct msg_receiver]; [r_msg] is [None] until somebody writes it (the
    variable is on the stack and not initialised). *)
Record msg_receiver := mkReceiver { rproc : Z; rmtype : Z; rsize : Z; r_msg : option Z }.

(** The offsets in a [struct msg_msg]: [node] 0, [mtype] 16, [size] 20, [nxt] 24,
    [data] 32; in a [struct msg_msgseg]: [nxt] 0, [data] 8; in a
    [struct msgbuf]: [mtype] 0, [data] 4. *)
Record ipc (S K : Type) := mkIpc {
  msg_ids : ipc_ids;
  queues : gmap Z msg_queue;
  inodes : heap;
  senders : gmap Z Z;
  receivers : gmap Z msg_receiver;
  pgs : S;
  isch : K
}.
Arguments mkIpc {S K}.
Arguments msg_ids {S K}.
Arguments queues {S K}.
Arguments inodes {S K}.
Arguments senders {S K}.
Arguments receivers {S K}.
Arguments pgs {S K}.
Arguments isch {S K}.

#[export, refine] Instance ipc_nodes S K : HasNodes (ipc S K) := {|
  nodes := inodes;
  set_nodes := λ h s, mkIpc (msg_ids s) (queues s) h (senders s) (receivers s) (pgs s) (isch s)
|}.
Proof. all: try done. by intros []. Defined.

(** *** Messages in memory *)
Section messages.
Context {S : Type} `{!PageAllocator S}.
Abbreviation M := (M S).

Definition rd32 (a : Z) : Prelude.M mem Z := gets (λ m, i32 (load 4 m a)).
Definition wr32 (a v : Z) : Prelude.M mem unit := modify (store 4 a (u32 v)).

Definition free_msg (fuel : nat) (msg : Z) : M unit :=
  mseg ← on_pages (rd64 (msg + 24));
  loop fuel (λ mseg,
    if decide (mseg ≠ 0) then
      nxtseg ← on_pages (rd64 mseg);
      pa_free mseg;;
      mret (inl nxtseg)
    else mret (inr tt)) mseg;;
  pa_free msg.

(** The [while (len > 0)] loop of [load_msg]; [lst] is the pointer to fill. *)
Definition load_segs (fuel : nat) (msg len src : Z) : M Z :=
  loop fuel (λ '(len, src, lst),
    if decide (len > 0) then
      mseg ← pa_alloc;
      if decide (mseg = 0) then free_msg fuel msg;; mret (inr 0)
      else
        on_pages (memcpy (mseg + 8) src (MIN MSG_MSGSEGSZ len));;
        on_pages (wr64 lst mseg);;
        on_pages (wr64 mseg 0);;
        let len' := len - MIN MSG_MSGSEGSZ len in
        mret (inl (len', src + MIN MSG_MSGSEGSZ len', mseg))
    else mret (inr msg)) (len, src, msg + 24).

Definition load_msg (fuel : nat) (src len : Z) : M Z :=
  msg ← pa_alloc;
  if decide (msg = 0) then mret 0
  else
    on_pages (memcpy (msg + 32) src (MIN MSG_MSGSZ len));;
    let len' := len - MIN MSG_MSGSZ len in
    let src' := src + MIN MSG_MSGSZ len' in
    on_pages (wr64 (msg + 24) 0);;
    load_segs fuel msg len' src'.

Definition store_segs (fuel : nat) (dst sg msgsz : Z) : M unit :=
  loop fuel (λ '(dst, sg, msgsz),
    if decide (msgsz > 0) then
      on_pages (memcpy dst (sg + 8) (MIN msgsz MSG_MSGSEGSZ));;
      let msgsz' := msgsz - MIN msgsz MSG_MSGSEGSZ in
      nxt ← on_pages (rd64 sg);
      mret (inl (dst + MIN msgsz' MSG_MSGSEGSZ, nxt, msgsz'))
    else mret (inr tt)) (dst, sg, msgsz).

Definition store_msg (fuel : nat) (dstg msg msgsz : Z) : M unit :=
  t ← on_pages (rd32 (msg + 16));
  on_pages (wr32 dstg t);;
  on_pages (memcpy (dstg + 4) (msg + 32) (MIN msgsz MSG_MSGSZ));;
  let msgsz' := msgsz - MIN MSG_MSGSZ msgsz in
  let dst := dstg + 4 + MIN MSG_MSGSZ msgsz' in
  sg ← on_pages (rd64 (msg + 24));
  store_segs fuel dst sg msgsz'.
End messages.

Definition testmsg (rqtype type : Z) : bool :=
  if decide (rqtype = 0) then true
  else if decide (rqtype < 0) then bool_decide (rqtype + type <= 0)
  else bool_decide (rqtype = type).

Definition ipc_buildin (id seq : Z) : Z := i32 (seq * SEQ_MULTIPLIER + id).

(** *** The system calls *)
Section calls.
Context {S K : Type} `{!PageAllocator S} `{!Scheduler K}.
Abbreviation M := (M (ipc S K)).

Definition set_ids (f : ipc_ids → ipc_ids) : M unit := modify (λ s,
  mkIpc (f (msg_ids s)) (queues s) (inodes s) (senders s) (receivers s) (pgs s) (isch s)).
Definition set_queues (f : gmap Z msg_queue → gmap Z msg_queue) : M unit := modify (λ s,
  mkIpc (msg_ids s) (f (queues s)) (inodes s) (senders s) (receivers s) (pgs s) (isch s)).
Definition set_senders (f : gmap Z Z → gmap Z Z) : M unit := modify (λ s,
  mkIpc (msg_ids s) (queues s) (inodes s) (f (senders s)) (receivers s) (pgs s) (isch s)).
Definition set_receivers (f : gmap Z msg_receiver → gmap Z msg_receiver) : M unit := modify (λ s,
  mkIpc (msg_ids s) (queues s) (inodes s) (senders s) (f (receivers s)) (pgs s) (isch s)).
Definition on_pgs {A} (m : Prelude.M S A) : M A := λ s,
  match m (pgs s) with
  | Done (a, p) => Done (a, mkIpc (msg_ids s) (queues s) (inodes s) (senders s) (receivers s) p (isch s))
  | Panic => Panic | Crash => Crash | NoFuel => NoFuel
  end.
Definition on_isch {A} (m : Prelude.M K A) : M A := λ s,
  match m (isch s) with
  | Done (a, k) => Done (a, mkIpc (msg_ids s) (queues s) (inodes s) (senders s) (receivers s) (pgs s) k)
  | Panic => Panic | Crash => Crash | NoFuel => NoFuel
  end.
Definition on_ids_lock {A} (m : Prelude.M SpinLock A) : M A := λ s,
  let i := msg_ids s in
  match m (ids_lock i) with
  | Done (a, l) => Done (a, mkIpc (mkIds (ids_size i) (in_use i) (ids_seq i) l (entries i))
      (queues s) (inodes s) (senders s) (receivers s) (pgs s) (isch s))
  | Panic => Panic | Crash => Crash | NoFuel => NoFuel
  end.
Definition get_at {A} (f : ipc S K → gmap Z A) (a : Z) : M A := λ s,
  match f s !! a with Some x => Done (x, s) | None => Crash end.
(** [msg_ids.entries[id]]; an index out of the array is an error. *)
Definition entry (id : Z) : M Z := λ s,
  if decide (0 ≤ id) then
    match entries (msg_ids s) !! Z.to_nat id with Some q => Done (q, s) | None => Crash end
  else Crash.

Definition lock_ids : M unit := on_ids_lock (_acquire_spinlock 1).
Definition unlock_ids : M unit := on_ids_lock _release_spinlock.

Definition init_ipc : M unit := set_ids (λ _, mkIds 16 0 0 false (replicate 16 0)).

(** The search loops of [ipc_addid] and [ipc_findkey], from [id] with [n] to go. *)
Fixpoint find_entry (test : Z → M bool) (id : Z) (n : nat) : M (option Z) :=
  match n with
  | O => mret None
  | Datatypes.S n' =>
      q ← entry id;
      b ← test q;
      if b : bool then mret (Some id) else find_entry test (id + 1) n'
  end.

Definition ipc_addid (que : Z) : M Z :=
  size ← gets (ids_size ∘ msg_ids);
  r ← find_entry (λ q, mret (bool_decide (q = 0))) 0 (Z.to_nat size);
  match r with
  | None => mret (-1)
  | Some id =>
      seq ← gets (ids_seq ∘ msg_ids);
      set_ids (λ i, mkIds (ids_size i) (i32 (in_use i + 1)) (u16 (seq + 1)) (ids_lock i)
                 (<[Z.to_nat id := que]> (entries i)));;
      qr ← get_at queues que;
      set_queues (<[que := mkQueue (key qr) seq (max_msg qr) (sum_msg qr)]>);;
      mret id
  end.

(** [que] is the address [kalloc] answered; its memory is zeroed. *)
Definition newque (k que : Z) : M Z :=
  if decide (que = 0) then mret ENOMEM
  else
    set_queues (<[que := mkQueue 0 0 0 0]>);;
    id ← ipc_addid que;
    if decide (id < 0) then set_queues (delete que);; mret ENOSEQ
    else
      qr ← get_at queues que;
      set_queues (<[que := mkQueue k (qseq qr) MAX_MSGNUM 0]>);;
      on_nodes (init_list_node (q_message que));;
      on_nodes (init_list_node (q_receiver que));;
      on_nodes (init_list_node (q_sender que));;
      mret (ipc_buildin id (qseq qr)).

Definition ipc_findkey (k : Z) : M Z :=
  size ← gets (ids_size ∘ msg_ids);
  r ← find_entry (λ q, if decide (q = 0) then mret false
                       else qr ← get_at queues q; mret (bool_decide (key qr = k))) 0 (Z.to_nat size);
  mret (default (-1) r).

Definition sys_msgget (k msgflg que : Z) : M Z :=
  lock_ids;;
  ret ← (if decide (k = IPC_PRIVATE) then newque k que
         else
           id ← ipc_findkey k;
           if decide (id = -1) then
             if decide (Z.land msgflg IPC_CREATE ≠ 0) then newque k que else mret ENOENT
           else if decide (Z.land msgflg IPC_EXCL ≠ 0) then mret EEXIST
           else q ← entry id; qr ← get_at queues q; mret (ipc_buildin id (qseq qr)));
  unlock_ids;;
  mret ret.

(** The address of the queue, 0 if there is none; [%] and [/] of C truncate. *)
Definition get_msgq (msgid : Z) : M Z :=
  size ← gets (ids_size ∘ msg_ids);
  let id := Z.rem msgid SEQ_MULTIPLIER in
  if decide (id >= size) then mret 0
  else
    q ← entry id;
    if decide (q = 0) then mret 0
    else
      qr ← get_at queues q;
      if decide (Z.quot msgid SEQ_MULTIPLIER ≠ qseq qr) then mret 0 else entry id.

(** [activate_proc]. *)
Definition wake (p : Z) : M unit := on_isch (sch_activate p false);; mret tt.

Definition pipeline_send (fuel : nat) (msgq msg : Z) : M bool :=
  mtype ← on_pgs (on_pages (rd32 (msg + 16)));
  size ← on_pgs (on_pages (rd32 (msg + 20)));
  r ← for_in_list fuel (q_receiver msgq) (λ node,
    if decide (node = q_receiver msgq) then mret (Some false)
    else
      rc ← get_at receivers node;
      if testmsg (rmtype rc) mtype then
        on_nodes (_detach_from_list node);;
        if decide (size > rsize rc) then
          set_receivers (<[node := mkReceiver (rproc rc) (rmtype rc) (rsize rc) (Some 0)]>);;
          wake (rproc rc);; mret None
        else
          set_receivers (<[node := mkReceiver (rproc rc) (rmtype rc) (rsize rc) (Some msg)]>);;
          wake (rproc rc);; mret (Some true)
      else mret None);
  mret (default false r).

(** [sys_msgsnd] up to [retry]: the loaded message, or the error to return. *)
Definition msgsnd_load (fuel : nat) (msgp msgsz : Z) : M (Z + Z) :=
  if decide (msgsz < 0 ∨ msgp = 0) then mret (inr EINVAL)
  else
    mtype ← on_pgs (on_pages (rd32 msgp));
    if decide (mtype < 1) then mret (inr EINVAL)
    else
      msg ← on_pgs (load_msg fuel (msgp + 4) msgsz);
      if decide (msg = 0) then mret (inr ENOMEM)
      else
        t ← on_pgs (on_pages (rd32 msgp));
        on_pgs (on_pages (wr32 (msg + 16) t));;
        on_pgs (on_pages (wr32 (msg + 20) msgsz));;
        mret (inl msg).

(** From [retry]: [Some r] returns [r], [None] has put the process [this] with
    the sender [sender] to sleep and will be run again. *)
Definition msgsnd_try (fuel : nat) (msgid msg msgflg this sender : Z) : M (option Z) :=
  lock_ids;;
  msgq ← get_msgq msgid;
  if decide (msgq = 0) then unlock_ids;; on_pgs (free_msg fuel msg);; mret (Some EIDRM)
  else
    qr ← get_at queues msgq;
    if decide (sum_msg qr + 1 > max_msg qr) then
      if decide (Z.land msgflg IPC_NOWAIT ≠ 0) then
        unlock_ids;; on_pgs (free_msg fuel msg);; mret (Some EAGAIN)
      else
        set_senders (<[sender := this]>);;
        on_nodes (q ← get_prev (q_sender msgq); _insert_into_list q sender);;
        unlock_ids;; mret None
    else
      sent ← pipeline_send fuel msgq msg;
      (if sent : bool then mret tt
       else
         on_nodes (q ← get_prev (q_message msgq); _insert_into_list q msg);;
         set_queues (<[msgq := mkQueue (key qr) (qseq qr) (max_msg qr) (i32 (sum_msg qr + 1))]>));;
      unlock_ids;; mret (Some 0).

Definition ss_wakeup (fuel : nat) (head : Z) : M unit :=
  loop fuel (λ _,
    e ← on_nodes (_empty_list head);
    if e : bool then mret (inr tt)
    else
      node ← on_nodes (get_next head);
      on_nodes (_detach_from_list node);;
      (* [container_of(node, msg_sender, node)->proc]: the same offset as in a receiver *)
      ss ← gets senders; rs ← gets receivers;
      match ss !! node, rs !! node with
      | Some p, _ => wake p
      | None, Some rc => wake (rproc rc)
      | None, None => crash
      end;;
      mret (inl tt)) tt.

(** The search of [sys_msgrcv]: [mtype] changes on the way, [found] is the last
    message that fitted. *)
Definition msgrcv_find (fuel : nat) (msgq mtype : Z) : M Z :=
  let flag := q_message msgq in
  node ← on_nodes (get_next flag);
  r ← loop fuel (λ '(node, mtype, found),
    if decide (node = 0 ∨ node = flag) then mret (inr found)
    else
      t ← on_pgs (on_pages (rd32 (node + 16)));
      if testmsg mtype t then
        if decide (mtype < -1) then
          n ← on_nodes (get_next node); mret (inl (n, mtype + 1, node))
        else mret (inr node)
      else n ← on_nodes (get_next node); mret (inl (n, mtype, found))) (node, mtype, 0);
  mret r.

(** What [sys_msgrcv] does with what it found, up to [_sched]: [inl msg] is a
    message to deliver, [inr (Some err)] an error, [inr None] sleeps with the
    receiver [rcv]. *)
Definition msgrcv_found (fuel : nat) (msgq found_msg msgsz mtype msgflg this rcv : Z) : M (Z + option Z) :=
  if decide (found_msg ≠ 0) then
    size ← on_pgs (on_pages (rd32 (found_msg + 20)));
    if decide (size > msgsz) then unlock_ids;; mret (inr (Some E2BIG))
    else
      on_nodes (_detach_from_list found_msg);;
      qr ← get_at queues msgq;
      set_queues (<[msgq := mkQueue (key qr) (qseq qr) (max_msg qr) (i32 (sum_msg qr - 1))]>);;
      ss_wakeup fuel (q_sender msgq);;
      unlock_ids;; mret (inl found_msg)
  else if decide (Z.land msgflg IPC_NOWAIT ≠ 0) then unlock_ids;; mret (inr (Some ENOMSG))
  else
    on_nodes (q ← get_prev (q_receiver msgq); _insert_into_list q rcv);;
    set_receivers (<[rcv := mkReceiver this mtype msgsz None]>);;
    unlock_ids;; mret (inr None).

(** [sys_msgrcv] up to [_sched]. *)
Definition msgrcv_start (fuel : nat) (msgid msgp msgsz mtype msgflg this rcv : Z) : M (Z + option Z) :=
  if decide (msgsz < 0 ∨ msgp = 0) then mret (inr (Some EINVAL))
  else
    lock_ids;;
    msgq ← get_msgq msgid;
    if decide (msgq = 0) then unlock_ids;; mret (inr (Some EIDRM))
    else
      found_msg ← msgrcv_find fuel msgq mtype;
      msgrcv_found fuel msgq found_msg msgsz mtype msgflg this rcv.

(** [found_msg = receiver.r_msg] after [_sched]; an [r_msg] nobody wrote is an
    indeterminate value. *)
Definition msgrcv_woken (rcv : Z) : M (option Z) :=
  rc ← get_at receivers rcv;
  m ← from_option_M (r_msg rc);
  mret (if decide (m = 0) then None else Some m).

Definition msgrcv_finish (fuel : nat) (msgp msgsz found_msg : Z) : M Z :=
  size ← on_pgs (on_pages (rd32 (found_msg + 20)));
  let n := MIN msgsz size in
  on_pgs (store_msg fuel msgp found_msg n);;
  on_pgs (free_msg fuel found_msg);;
  mret n.

Definition expunge_all (fuel : nat) (que : Z) : M unit :=
  loop fuel (λ _,
    e ← on_nodes (_empty_list (q_receiver que));
    if e : bool then mret (inr tt)
    else
      node ← on_nodes (get_next (q_receiver que));
      on_nodes (_detach_from_list node);;
      rc ← get_at receivers node;
      set_receivers (<[node := mkReceiver (rproc rc) (rmtype rc) (rsize rc) (Some 0)]>);;
      wake (rproc rc);;
      mret (inl tt)) tt.

(** The last loop of [freeque]. *)
Definition free_messages (fuel : nat) (msgq : Z) : M unit :=
  loop fuel (λ _,
    e ← on_nodes (_empty_list (q_message msgq));
    if e : bool then mret (inr tt)
    else
      node ← on_nodes (get_next (q_message msgq));
      on_nodes (_detach_from_list node);;
      on_pgs (free_msg fuel node);;
      mret (inl tt)) tt.

Definition freeque (fuel : nat) (id : Z) : M unit :=
  lock_ids;;
  msgq ← get_msgq id;
  (if decide (msgq ≠ 0) then
     set_ids (λ i, mkIds (ids_size i) (in_use i) (ids_seq i) (ids_lock i)
                (<[Z.to_nat (Z.rem id SEQ_MULTIPLIER) := 0]> (entries i)));;
     ss_wakeup fuel (q_receiver msgq);;
     expunge_all fuel msgq;;
     free_messages fuel msgq;;
     set_ids (λ i, mkIds (ids_size i) (i32 (in_use i - 1)) (ids_seq i) (ids_lock i) (entries i));;
     set_queues (delete msgq)
   else mret tt);;
  unlock_ids.

Definition sys_msgctl (fuel : nat) (msgid cmd : Z) : M Z :=
  if decide (cmd = IPC_RMID) then freeque fuel msgid;; mret 0 else mret EINVAL.
End calls.

(** ** Identifiers *)
Section identifiers.
Context {S K : Type} `{!PageAllocator S} `{!Scheduler K}.
Implicit Types (s : ipc S K) (q : Z).

(** The table of queues is well formed. *)
Definition ids_ok s : Prop :=
  ids_size (msg_ids s) = 16 ∧ length (entries (msg_ids s)) = 16%nat ∧ in_u 16 (ids_seq (msg_ids s)) ∧
  ∀ i q, entries (msg_ids s) !! i = Some q → q ≠ 0 →
    ∃ qr, queues s !! q = Some qr ∧ in_u 16 (qseq qr).

(** The queue a non-negative identifier names, 0 if none. *)
Definition named s (msgid : Z) : Z :=
  match entries (msg_ids s) !! Z.to_nat (msgid mod 16) with
  | Some q => match queues s !! q with
              | Some qr => if decide (q ≠ 0 ∧ qseq qr = msgid / 16) then q else 0
              | None => 0
              end
  | None => 0
  end.

Lemma entry_eq s i q : entries (msg_ids s) !! i = Some q → entry (Z.of_nat i) s = Done (q, s).
Proof. intros H. unfold entry. rewrite decide_True by lia. by rewrite Nat2Z.id, H. Qed.

Lemma get_msgq_named s msgid : ids_ok s → 0 ≤ msgid → get_msgq msgid s = Done (named s msgid, s).
Proof.
  intros (Hsz & Hlen & _ & He) Hm. unfold get_msgq, gets, named, SEQ_MULTIPLIER.
  unfold mbind at 1, M_bind at 1. simpl. rewrite Hsz.
  rewrite Z.rem_mod_nonneg, Z.quot_div_nonneg by lia.
  pose proof (Z.mod_pos_bound msgid 16 ltac:(lia)) as Hb. rewrite decide_False by lia.
  destruct (lookup_lt_is_Some_2 (entries (msg_ids s)) (Z.to_nat (msgid mod 16))) as [q Hq]; [lia|].
  pose proof (entry_eq _ _ _ Hq) as E. rewrite Z2Nat.id in E by lia. m_step E. rewrite Hq.
  destruct (decide (q = 0)) as [->|H0].
  - destruct (queues s !! 0); [|done]. rewrite decide_False; [done|]. by intros [? _].
  - destruct (He _ _ Hq H0) as (qr & Hqr & _). unfold get_at. unfold mbind at 1, M_bind at 1.
    rewrite Hqr. destruct (decide (msgid / 16 ≠ qseq qr)) as [Hne|Heq].
    + rewrite decide_False; [done|]. intros [_ ?]. congruence.
    + rewrite decide_True by (split; [done|]; symmetry; by apply dec_stable). exact E.
Qed.

(** The loop of [ipc_addid] finds the first free entry. *)
Lemma find_free s : ∀ n i, (i + n = length (entries (msg_ids s)))%nat →
  ∃ r, find_entry (λ q, mret (bool_decide (q = 0))) (Z.of_nat i) n s = Done (r, s) ∧
    match r with
    | Some id => ∃ j : nat, id = Z.of_nat j ∧ (i ≤ j)%nat ∧ entries (msg_ids s) !! j = Some 0 ∧
        ∀ k q, (i ≤ k < j)%nat → entries (msg_ids s) !! k = Some q → q ≠ 0
    | None => ∀ k q, (i ≤ k)%nat → entries (msg_ids s) !! k = Some q → q ≠ 0
    end.
Proof.
  induction n as [|n IH]; intros i Hi; simpl.
  { exists None. split; [done|]. intros k q Hk Hq. apply lookup_lt_Some in Hq. lia. }
  destruct (lookup_lt_is_Some_2 (entries (msg_ids s)) i) as [q Hq]; [lia|].
  m_step (entry_eq _ _ _ Hq). unfold mbind at 1, M_bind at 1, mret at 1, M_ret at 1.
  case_bool_decide as H0.
  - exists (Some (Z.of_nat i)). split; [done|]. exists i. subst. split_and!; [done|lia|done|lia].
  - destruct (IH (Datatypes.S i)) as (r & E & H); [lia|]. replace (Z.of_nat i + 1) with (Z.of_nat (Datatypes.S i)) by lia.
    exists r. split; [done|]. destruct r as [id|].
    + destruct H as (j & -> & Hj & He & Hf). exists j. split_and!; [done|lia|done|].
      intros k q' Hk Hq'. destruct (decide (k = i)) as [->|]; [congruence|]. apply (Hf k); [lia|done].
    + intros k q' Hk Hq'. destruct (decide (k = i)) as [->|]; [congruence|]. apply (H k); [lia|done].
Qed.

(** A new queue: its memory is nobody's, its list heads can be initialised. *)
Definition fresh_queue s que : Prop :=
  que ≠ 0 ∧ queues s !! que = None ∧
  (∀ a, a ∈ [q_message que; q_sender que; q_receiver que] → a ≠ 0 ∧ is_Some (inodes s !! a)) ∧
  ∀ i, entries (msg_ids s) !! i ≠ Some que.

Lemma init_node_eq s a : a ≠ 0 → is_Some (inodes s !! a) → ∃ h',
  on_nodes (init_list_node a) s = Done (tt, set_nodes h' s) ∧ dom h' = dom (inodes s).
Proof.
  intros H0 Hs. destruct (init_list_node_spec (inodes s) a H0 Hs) as (h' & E & O & _).
  exists h'. split; [|apply O]. by apply on_nodes_done.
Qed.

Lemma newque_spec s k que : ids_ok s → fresh_queue s que →
  if decide (Forall (λ q, q ≠ 0) (entries (msg_ids s))) then
    ∃ s', newque k que s = Done (ENOSEQ, s') ∧ msg_ids s' = msg_ids s ∧ queues s' = queues s
  else ∃ (i : nat) s', let r := ids_seq (msg_ids s) * 16 + Z.of_nat i in
    newque k que s = Done (r, s') ∧ ids_ok s' ∧ (i < 16)%nat ∧ entries (msg_ids s) !! i = Some 0 ∧
    entries (msg_ids s') = <[i := que]> (entries (msg_ids s)) ∧
    queues s' = <[que := mkQueue k (ids_seq (msg_ids s)) MAX_MSGNUM 0]> (queues s) ∧
    ids_seq (msg_ids s') = (ids_seq (msg_ids s) + 1) mod 2 ^ 16.
Proof.
  intros (Hsz & Hlen & Hseq & He) (H0 & Hq0 & Hn & Hnot).
  set (s1 := mkIpc (msg_ids s) (<[que := mkQueue 0 0 0 0]> (queues s)) (inodes s) (senders s)
    (receivers s) (pgs s) (isch s)).
  destruct (find_free s1 16 0) as (r & E & H); [simpl; lia|].
  unfold newque. rewrite (decide_False (P := que = 0)) by done.
  rewrite (bind_done _ _ s tt s1) by done. change (Z.of_nat 0) with 0 in E.
  destruct r as [id|].
  - destruct H as (i & -> & _ & Hi & _). simpl in Hi.
    assert (Hi16 : (i < 16)%nat) by (apply lookup_lt_Some in Hi; lia).
    rewrite decide_False.
    2:{ rewrite Forall_forall. intros Hall. apply (Hall 0); [|done]. by eapply list_elem_of_lookup_2. }
    set (s2 := mkIpc (mkIds 16 (i32 (in_use (msg_ids s) + 1)) (u16 (ids_seq (msg_ids s) + 1))
        (ids_lock (msg_ids s)) (<[i := que]> (entries (msg_ids s))))
      (<[que := mkQueue 0 (ids_seq (msg_ids s)) 0 0]> (queues s)) (inodes s) (senders s)
      (receivers s) (pgs s) (isch s)).
    rewrite (bind_done _ _ s1 (Z.of_nat i) s2).
    2:{ unfold ipc_addid, gets. unfold mbind at 1, M_bind at 1.
        change ((ids_size ∘ msg_ids) s1) with (ids_size (msg_ids s)). rewrite Hsz.
        change (Z.to_nat 16) with 16%nat.
        m_step E. unfold set_ids, get_at, set_queues, modify, mbind, M_bind. simpl.
        rewrite lookup_insert_eq. simpl. rewrite Nat2Z.id, ?Hsz, insert_insert_eq. done. }
    rewrite decide_False by lia. unfold get_at, set_queues, modify.
    unfold mbind at 1 2, M_bind at 1 2. simpl. rewrite lookup_insert_eq. simpl. rewrite insert_insert_eq.
    set (s3 := mkIpc _ _ _ _ _ _ _).
    destruct (init_node_eq s3 (q_message que)) as (h1 & E1 & D1); [apply Hn; set_solver..|].
    destruct (init_node_eq (set_nodes h1 s3) (q_receiver que)) as (h2 & E2 & D2); [apply Hn; set_solver| |].
    { apply elem_of_dom. simpl. rewrite D1. apply elem_of_dom. apply Hn. set_solver. }
    destruct (init_node_eq (set_nodes h2 s3) (q_sender que)) as (h3 & E3 & D3); [apply Hn; set_solver| |].
    { apply elem_of_dom. simpl. rewrite D2. simpl. rewrite D1. apply elem_of_dom. apply Hn. set_solver. }
    exists i, (set_nodes h3 s3). cbv zeta. m_step E1. m_step E2. m_step E3.
    split; [|split_and!; try done].
    + unfold mret, M_ret, ipc_buildin, SEQ_MULTIPLIER. rewrite swrap_small; [done|lia|].
      unfold in_u, in_s in *. simpl in *. lia.
    + split; [done|]. split; [simpl; by rewrite length_insert|]. split; [simpl; by apply wrap_range|].
      intros j q Hj Hq. simpl in Hj. destruct (decide (j = i)) as [->|Hne].
      * rewrite list_lookup_insert_eq in Hj by lia. simplify_eq. simpl. rewrite lookup_insert_eq.
        by eexists.
      * rewrite list_lookup_insert_ne in Hj by done. destruct (He _ _ Hj Hq) as (qr & Hqr & ?).
        exists qr. simpl. rewrite lookup_insert_ne; [done|]. intros ->. by eapply Hnot.
  - rewrite decide_True.
    2:{ apply Forall_lookup. intros j q Hj. apply (H j); [lia|done]. }
    rewrite (bind_done _ _ s1 (-1) s1).
    2:{ unfold ipc_addid, gets. unfold mbind at 1, M_bind at 1.
        change ((ids_size ∘ msg_ids) s1) with (ids_size (msg_ids s)). rewrite Hsz.
        change (Z.to_nat 16) with 16%nat. by m_step E. }
    rewrite decide_True by lia. eexists. split; [done|]. split; [done|]. simpl.
    by rewrite delete_insert_id.
Qed.
End identifiers.

(** ** Text of messages *)
Section texts.
Context {S : Type} `{!PageAllocator S}.
Implicit Types (s : S) (F : list Z) (lv : list live) (p src dst L : Z).

(** Copying into a live region from bytes outside the part written. *)
Lemma copy_live s F lv p n d src k : pa_ok s F (((p, n), None) :: lv) → p ≤ d → d + k ≤ p + n →
  0 ≤ k → (d + k ≤ src ∨ src + k ≤ d) →
  ∃ m', on_pages (memcpy d src k) s = Done (d, pa_set_mem m' s) ∧
    pa_ok (pa_set_mem m' s) F (((p, n), None) :: lv) ∧ kept lv (pa_mem s) m' ∧
    outside d k (pa_mem s) m' ∧ ∀ i, 0 ≤ i < k → m' (d + i) = pa_mem s (src + i).
Proof.
  intros Hok Hd Hk H0 Hap. destruct (memcpy_spec d src k (pa_mem s) H0 Hap) as (m' & E & O & H).
  destruct (pa_write s F lv p n m' Hok) as [Hok' K].
  { apply (agree_off_outside _ p n); [by left|]. eapply outside_mono; [..|exact O]; lia. }
  { intros a. destruct (decide (d ≤ a < d + k)) as [Ha|Ha].
    - replace a with (d + (a - d)) by lia. rewrite H by lia. by eapply pa_bytes.
    - rewrite O by done. by eapply pa_bytes. }
  exists m'. split; [by unfold on_pages; rewrite E|]. by split_and!.
Qed.

(** Writing a word into a live region. *)
Lemma write_live s F lv p n k a v : pa_ok s F (((p, n), None) :: lv) → p ≤ a → a + Z.of_nat k ≤ p + n →
  let m' := store k a v (pa_mem s) in
  pa_ok (pa_set_mem m' s) F (((p, n), None) :: lv) ∧ kept lv (pa_mem s) m' ∧
  outside a (Z.of_nat k) (pa_mem s) m'.
Proof.
  intros Hok Hp Ha m'. destruct (pa_write s F lv p n m' Hok) as [Hok' K].
  { apply (agree_off_outside _ p n); [by left|].
    eapply outside_mono; [..|apply (store_outside k)]; lia. }
  { by eapply store_bytes, pa_bytes. }
  split; [done|]. split; [done|]. apply store_outside.
Qed.

Lemma alloc_page s p F lv : pa_ok s (p :: F) lv →
  ∃ s', pa_alloc s = Done (p, s') ∧ p ≠ 0 ∧ page_addr p ∧ kept lv (pa_mem s) (pa_mem s') ∧
    pa_ok s' F (((p, PAGE_SIZE), None) :: lv).
Proof.
  intros Hok. destruct (pa_alloc_some _ _ _ _ Hok) as (s' & E & Hp & K & Hok').
  exists s'. split_and!; [done| |done..]. destruct Hp. unfold KSPACE_MASK in *. lia.
Qed.

(** A user's buffer of [n] bytes at [b] is a live region. *)
Abbreviation buffer b n := ((b, n), @None Z).

Lemma live_apart s F lv x y : pa_ok s F lv → x :: [y] ⊆+ lv → apart x.1 y.1.
Proof.
  intros Hok Hs. apply submseteq_Permutation in Hs as [k Hk]. pose proof (pa_apart _ _ _ Hok) as A.
  rewrite Hk in A. simpl in A. destruct A as [A _]. by apply Forall_cons in A as [A _].
Qed.

(** Two regions handed out do not meet. *)
Lemma live_apart2 s F lv p n v q k w : pa_ok s F (((p, n), v) :: ((q, k), w) :: lv) →
  p + n ≤ q ∨ q + k ≤ p.
Proof.
  intros Hok. pose proof (pa_apart _ _ _ Hok) as A. simpl in A. destruct A as [A _].
  by apply Forall_cons in A as [A _].
Qed.

(** [alloc], the copy of the first [k] bytes and [msg->nxt = NULL]. *)
Lemma load_head s F lv p b n src k (cont : Z → M S Z) : pa_ok s (p :: F) (buffer b n :: lv) →
  b ≤ src → src + k ≤ b + n → 0 ≤ k ≤ MSG_MSGSZ →
  ∃ s', (msg ← pa_alloc; if decide (msg = 0) then mret 0 else
      on_pages (memcpy (msg + 32) src k);; on_pages (wr64 (msg + 24) 0);; cont msg) s = cont p s' ∧
    p ≠ 0 ∧ page_addr p ∧
    pa_ok s' F (((p, PAGE_SIZE), None) :: buffer b n :: lv) ∧
    kept (buffer b n :: lv) (pa_mem s) (pa_mem s') ∧ load64 (pa_mem s') (p + 24) = 0 ∧
    ∀ i, 0 ≤ i < k → pa_mem s' (p + 32 + i) = pa_mem s (src + i).
Proof.
  intros Hok HL HL2 HM. unfold MSG_MSGSZ, PAGE_SIZE in HM.
  destruct (alloc_page _ _ _ _ Hok) as (s1 & E1 & H0 & Hp & K1 & Hok1).
  pose proof (live_apart2 _ _ _ _ _ _ _ _ _ Hok1) as Hap. unfold PAGE_SIZE in Hap.
  destruct (copy_live s1 F _ p PAGE_SIZE (p + 32) src k Hok1) as (m2 & E2 & Hok2 & K2 & O2 & H2);
    [lia|unfold PAGE_SIZE; lia|lia|lia|].
  destruct (write_live (pa_set_mem m2 s1) F _ p PAGE_SIZE 8 (p + 24) 0 Hok2) as (Hok3 & K3 & O3);
    [lia|unfold PAGE_SIZE; lia|].
  rewrite pa_mem_set in Hok3, K3, O3. set (m3 := store64 _ _ _) in *.
  exists (pa_set_mem m3 (pa_set_mem m2 s1)). rewrite pa_mem_set.
  split; [|split; [done|split; [done|split; [done|split; [|split]]]]].
  - m_step E1. rewrite decide_False by done. m_step E2. unfold on_pages, wr64, modify, mbind, M_bind.
    by rewrite pa_mem_set.
  - eapply kept_trans; [exact K1|]. eapply kept_trans; [exact K2|exact K3].
  - unfold m3. apply load_store_eq. simpl. lia.
  - intros i Hi. rewrite O3 by lia. rewrite H2 by done.
    apply (K1 (buffer b n)); [by left|]. simpl. lia.
Qed.

Lemma load_msg_short s F lv p b n src L fuel : pa_ok s (p :: F) (buffer b n :: lv) →
  b ≤ src → src + L ≤ b + n → 0 ≤ L ≤ MSG_MSGSZ →
  ∃ s', load_msg (Datatypes.S fuel) src L s = Done (p, s') ∧ p ≠ 0 ∧ page_addr p ∧
    pa_ok s' F (((p, PAGE_SIZE), None) :: buffer b n :: lv) ∧
    kept (buffer b n :: lv) (pa_mem s) (pa_mem s') ∧ load64 (pa_mem s') (p + 24) = 0 ∧
    ∀ i, 0 ≤ i < L → pa_mem s' (p + 32 + i) = pa_mem s (src + i).
Proof.
  intros Hok HL HL2 HM.
  destruct (load_head s F lv p b n src L (λ msg, load_segs (Datatypes.S fuel) msg (L - L) (src + MIN MSG_MSGSZ (L - L)))
    Hok HL HL2 HM) as (s' & E & Hrest).
  exists s'. split; [|done]. unfold load_msg. rewrite MIN_min, Z.min_r by lia. rewrite E.
  unfold load_segs. rewrite loop_S. by rewrite Z.sub_diag.
Qed.

(** *** Segments
    The pages of the segments of a message, linked by their first words from [sg] on. *)
Definition msg_pages (ps : list Z) : list live := (λ p, ((p, PAGE_SIZE), None)) <$> ps.
Fixpoint segments (m : mem) (sg : Z) (qs : list Z) : Prop :=
  match qs with
  | [] => sg = 0
  | q :: qs => sg = q ∧ q ≠ 0 ∧ page_addr q ∧ segments m (load64 m q) qs
  end.

Lemma msg_pages_in p ps : p ∈ ps → ((p, PAGE_SIZE), None) ∈ msg_pages ps.
Proof. intros Hp. apply list_elem_of_fmap. by exists p. Qed.
Lemma segments_kept lv m m' qs : ∀ sg, kept lv m m' → msg_pages qs ⊆ lv → segments m sg qs → segments m' sg qs.
Proof.
  induction qs as [|q qs IH]; intros sg K Hs; [done|]. intros (-> & H0 & Hp & Hseg). split; [done|]. split; [done|]. split; [done|].
  rewrite (kept_load64 lv m m' q PAGE_SIZE None q K) by (try apply Hs; try (unfold PAGE_SIZE; lia); by left).
  apply IH; [done|intros x Hx; apply Hs; by right|done].
Qed.

(** The parts in which the segments take the rest of a text, [len] bytes of it, when the
    pointer is at [pos]: after each part it moves by what the next will copy. *)
Fixpoint parts (n : nat) (pos len : Z) : list (Z * Z) :=
  match n with
  | O => []
  | Datatypes.S n =>
      if decide (len > 0) then
        let len' := len - Z.min MSG_MSGSEGSZ len in
        (pos, Z.min MSG_MSGSEGSZ len) :: parts n (pos + Z.min MSG_MSGSEGSZ len') len'
      else []
  end.
Definition part_at (j : Z) (x : Z * Z) : Prop := x.1 ≤ j < x.1 + x.2.
#[local] Instance part_at_dec j x : Decision (part_at j x).
Proof. unfold part_at. apply _. Defined.
(** The segments hold the parts of the text [f]. *)
Definition holds (m : mem) (f : Z → Z) (q : Z) (x : Z * Z) : Prop := ∀ i, 0 ≤ i < x.2 → m (q + 8 + i) = f (x.1 + i).

Lemma holds_change m m' f f' qs ps : Forall2 (holds m f) qs ps →
  (∀ q x i, q ∈ qs → x ∈ ps → 0 ≤ i < x.2 → m' (q + 8 + i) = m (q + 8 + i) ∧ f (x.1 + i) = f' (x.1 + i)) →
  Forall2 (holds m' f') qs ps.
Proof.
  induction 1 as [|q x qs ps Hh _ IH]; intros Hc; [done|]. apply Forall2_cons. split.
  - intros i Hi. destruct (Hc q x i) as [-> <-]; [by left..|done|by apply Hh].
  - apply IH. intros q' x' i Hq Hx. apply Hc; by right.
Qed.

Lemma parts_len n : ∀ pos len, Forall (λ x, 0 < x.2 ≤ MSG_MSGSEGSZ) (parts n pos len).
Proof.
  induction n as [|n IH]; intros pos len; simpl; [by apply Forall_nil|]. destruct (decide (len > 0)); [|by apply Forall_nil].
  apply Forall_cons. split; [|by apply IH]. cbn [snd]. unfold MSG_MSGSEGSZ, PAGE_SIZE in *. lia.
Qed.
(** No part reaches beyond the text. *)
Lemma parts_bounds n : ∀ pos len e, pos + len ≤ e → Forall (λ x, pos ≤ x.1 ∧ x.1 + x.2 ≤ e) (parts n pos len).
Proof.
  induction n as [|n IH]; intros pos len e He; simpl; [by apply Forall_nil|]. destruct (decide (len > 0)) as [Hl|]; [|by apply Forall_nil].
  unfold MSG_MSGSEGSZ, PAGE_SIZE in *. apply Forall_cons. split; [cbn [fst snd]; lia|].
  eapply Forall_impl; [apply IH|]; [|cbv beta; intros x Hx].
  - instantiate (1 := e). lia.
  - lia.
Qed.
(** How far the parts of [len] bytes reach from where they start: all but the last
    part are in their places, and the last starts too early unless it is a full one. *)
Definition reach (len : Z) : Z :=
  if decide (len <= MSG_MSGSEGSZ) then len
  else let t := (len - 1) mod MSG_MSGSEGSZ + 1 in len - t + Z.max 0 (2 * t - MSG_MSGSEGSZ).
(** The bytes at the beginning of a text of [L] bytes that arrive. *)
Definition arrived (L : Z) : Z :=
  let r := L - MSG_MSGSZ in Z.max MSG_MSGSZ (Z.min MSG_MSGSZ r + reach r).

Lemma reach_step len : MSG_MSGSEGSZ < len → let k := len - MSG_MSGSEGSZ in
  reach len = Z.max MSG_MSGSEGSZ (Z.min MSG_MSGSEGSZ k + reach k).
Proof.
  unfold reach. set (N := MSG_MSGSEGSZ). assert (HN : N = 4088) by done. intros Hl. cbv zeta. rewrite decide_False by lia.
  pose proof (Z.mod_pos_bound (len - 1) N ltac:(lia)) as Hb.
  assert (Hm : (len - N - 1) mod N = (len - 1) mod N).
  { replace (len - N - 1) with (len - 1 + -1 * N) by lia. apply Z.mod_add. lia. }
  case_decide as Hk.
  - assert ((len - 1) mod N = len - N - 1); [|lia]. rewrite <-Hm. apply Z.mod_small. lia.
  - rewrite Hm. pose proof (Z.div_mod (len - 1) N ltac:(lia)). nia.
Qed.
Lemma parts_reach n : ∀ pos len j, 0 < len ≤ Z.of_nat n * MSG_MSGSEGSZ →
  Exists (part_at j) (parts n pos len) ↔ pos ≤ j < pos + reach len.
Proof.
  induction n as [|n IH]; intros pos len j Hl; [lia|]. cbn [parts]. rewrite decide_True by lia. rewrite Exists_cons. unfold part_at at 1. cbn [fst snd].
  destruct (decide (len <= MSG_MSGSEGSZ)) as [Hs|Hs].
  - unfold reach. rewrite decide_True by done. rewrite Z.min_r, Z.sub_diag by lia.
    assert (E : parts n (pos + Z.min MSG_MSGSEGSZ 0) 0 = []) by (destruct n; [done|]; by simpl). rewrite E, Exists_nil. tauto.
  - rewrite Z.min_l by lia. rewrite IH by (unfold MSG_MSGSEGSZ, PAGE_SIZE in *; lia). rewrite (reach_step len) by lia.
    assert (0 < len - MSG_MSGSEGSZ) by lia. unfold MSG_MSGSEGSZ, PAGE_SIZE in *. lia.
Qed.
Lemma arrived_spec L : MSG_MSGSZ < L → let r := L - MSG_MSGSZ in
  arrived L ≤ L ∧ (arrived L = L ↔ MSG_MSGSZ ≤ r ≤ MSG_MSGSEGSZ ∨ r mod MSG_MSGSEGSZ = 0).
Proof.
  intros HL. unfold arrived, reach. cbv zeta. set (r := L - MSG_MSGSZ). set (N := MSG_MSGSEGSZ). set (T := MSG_MSGSZ) in *.
  assert (N = 4088 ∧ T = 4064) as [HN HT] by done. assert (0 < r) by lia.
  pose proof (Z.mod_pos_bound (r - 1) N ltac:(lia)) as Hb. pose proof (Z.div_mod (r - 1) N ltac:(lia)) as Hd.
  pose proof (Z.mod_pos_bound r N ltac:(lia)) as Hb2. pose proof (Z.div_mod r N ltac:(lia)) as Hd2.
  case_decide as Hr.
  - destruct (decide (r = N)) as [E|]; [assert (r mod N = 0) by (rewrite E; by apply Z_mod_same_full); lia|].
    assert (r mod N = r) by (apply Z.mod_small; lia). lia.
  - assert (Hq : (r - 1) mod N = N - 1 ↔ r mod N = 0) by nia. lia.
Qed.

(** A page for a segment, linked at [lst] in the page [r], with [k] bytes from [src]. *)
Lemma load_seg s F lv r lst q x n k : pa_ok s (q :: F) (((r, PAGE_SIZE), None) :: buffer x n :: lv) →
  r ≤ lst → lst + 8 ≤ r + PAGE_SIZE → ∀ src, x ≤ src → src + k ≤ x + n → 0 ≤ k ≤ MSG_MSGSEGSZ →
  ∃ s1 s2 s3 s', pa_alloc s = Done (q, s1) ∧ q ≠ 0 ∧ page_addr q ∧ on_pages (memcpy (q + 8) src k) s1 = Done (q + 8, s2) ∧
    on_pages (wr64 lst q) s2 = Done (tt, s3) ∧ on_pages (wr64 q 0) s3 = Done (tt, s') ∧
    pa_ok s' F (((q, PAGE_SIZE), None) :: ((r, PAGE_SIZE), None) :: buffer x n :: lv) ∧
    kept (buffer x n :: lv) (pa_mem s) (pa_mem s') ∧
    load64 (pa_mem s') lst = q ∧ load64 (pa_mem s') q = 0 ∧
    (∀ a, r ≤ a < r + PAGE_SIZE → ¬ (lst ≤ a < lst + 8) → pa_mem s' a = pa_mem s a) ∧
    ∀ i, 0 ≤ i < k → pa_mem s' (q + 8 + i) = pa_mem s (src + i).
Proof.
  intros Hok Hr Hlst src Hsrc Hend Hk. unfold MSG_MSGSEGSZ in Hk.
  destruct (alloc_page _ _ _ _ Hok) as (s1 & E1 & H0 & Hq & K1 & Hok1).
  assert (Hrq : q + PAGE_SIZE ≤ r ∨ r + PAGE_SIZE ≤ q) by (by eapply live_apart2).
  assert (Hok1' : pa_ok s1 F (((q, PAGE_SIZE), None) :: buffer x n :: ((r, PAGE_SIZE), None) :: lv)).
  { eapply pa_perm; [|exact Hok1]. solve_Permutation. }
  assert (Hqx : q + PAGE_SIZE ≤ x ∨ x + n ≤ q) by (by eapply live_apart2).
  assert (Hrx : r + PAGE_SIZE ≤ x ∨ x + n ≤ r) by (by eapply live_apart2).
  unfold PAGE_SIZE in Hrq, Hqx, Hrx, Hk, Hlst.
  destruct (copy_live s1 F _ q PAGE_SIZE (q + 8) src k Hok1) as (m2 & E2 & Hok2 & K2 & O2 & H2);
    [lia|unfold PAGE_SIZE; lia|lia|lia|].
  set (s2 := pa_set_mem m2 s1) in *.
  assert (Hok2' : pa_ok s2 F (((r, PAGE_SIZE), None) :: ((q, PAGE_SIZE), None) :: buffer x n :: lv)).
  { eapply pa_perm; [|exact Hok2]. solve_Permutation. }
  destruct (write_live s2 F _ r PAGE_SIZE 8 lst q Hok2') as (Hok3 & K3 & O3);
    [lia|unfold PAGE_SIZE; lia|].
  assert (Em2 : pa_mem s2 = m2) by apply pa_mem_set.
  set (m3 := store64 lst q (pa_mem s2)) in *. set (s3 := pa_set_mem m3 s2) in *.
  assert (Hok3' : pa_ok s3 F (((q, PAGE_SIZE), None) :: ((r, PAGE_SIZE), None) :: buffer x n :: lv)).
  { eapply pa_perm; [|exact Hok3]. solve_Permutation. }
  destruct (write_live s3 F _ q PAGE_SIZE 8 q 0 Hok3') as (Hok4 & K4 & O4);
    [lia|unfold PAGE_SIZE; simpl; lia|].
  assert (Em3 : pa_mem s3 = m3) by apply pa_mem_set.
  set (m4 := store64 q 0 (pa_mem s3)) in *. exists s1, s2, s3, (pa_set_mem m4 s3).
  rewrite pa_mem_set. rewrite Em2 in *. rewrite Em3 in *.
  assert (Hin : ∀ a, ¬ (lst ≤ a < lst + 8) → ¬ (q ≤ a < q + 8) → ¬ (q + 8 ≤ a < q + 8 + k) → m4 a = pa_mem s1 a).
  { intros a Ha Hb Hc. rewrite O4 by (simpl; lia). rewrite O3 by (simpl; lia). by rewrite O2 by lia. }
  split; [done|split; [done|split; [done|split; [done|split; [done|split; [done|split; [done|]]]]]]].
  split; [|split; [|split; [|split]]].
  - eapply kept_trans; [eapply kept_cons; exact K1|].
    eapply kept_trans; [eapply kept_cons; exact K2|].
    eapply kept_trans; [eapply kept_cons; exact K3|]. eapply kept_cons. exact K4.
  - unfold m4. rewrite (load_store_ne 8 8) by (simpl; lia). rewrite Em3. unfold m3. apply load_store_eq.
    destruct Hq. unfold KSPACE_MASK, PAGE_SIZE in *. simpl. lia.
  - unfold m4. apply load_store_eq. simpl. lia.
  - intros a Ha Hl. unfold PAGE_SIZE in Ha. rewrite Hin by lia.
    apply (K1 ((r, PAGE_SIZE), None)); [by left|]. simpl. unfold PAGE_SIZE. lia.
  - intros i Hi. rewrite O4 by (simpl; lia). rewrite O3 by (simpl; lia). rewrite H2 by lia.
    apply (K1 (buffer x n)); [by right; left|]. simpl. lia.
Qed.

(** The loop of [load_msg]: a segment for each part. *)
Lemma load_segs_loop nf msg b n base qs : ∀ s F lv r lst pos len np fuel,
  pa_ok s (qs ++ F) (((r, PAGE_SIZE), None) :: buffer b n :: lv) → r ≤ lst → lst + 8 ≤ r + PAGE_SIZE →
  load64 (pa_mem s) lst = 0 → b ≤ base + pos → base + pos + len ≤ b + n →
  0 ≤ len ≤ Z.of_nat np * MSG_MSGSEGSZ → length qs = length (parts np pos len) → (length qs < fuel)%nat →
  ∃ s', loop fuel (λ '(len, src, lst),
      if decide (len > 0) then
        mseg ← pa_alloc;
        if decide (mseg = 0) then free_msg nf msg;; mret (inr 0)
        else
          on_pages (memcpy (mseg + 8) src (MIN MSG_MSGSEGSZ len));;
          on_pages (wr64 lst mseg);;
          on_pages (wr64 mseg 0);;
          let len' := len - MIN MSG_MSGSEGSZ len in
          mret (inl (len', src + MIN MSG_MSGSEGSZ len', mseg))
      else mret (inr msg)) (len, base + pos, lst) s = Done (msg, s') ∧
    pa_ok s' F (msg_pages qs ++ ((r, PAGE_SIZE), None) :: buffer b n :: lv) ∧
    kept (buffer b n :: lv) (pa_mem s) (pa_mem s') ∧
    (∀ a, r ≤ a < r + PAGE_SIZE → ¬ (lst ≤ a < lst + 8) → pa_mem s' a = pa_mem s a) ∧
    segments (pa_mem s') (load64 (pa_mem s') lst) qs ∧
    Forall2 (holds (pa_mem s') (λ j, pa_mem s (base + j))) qs (parts np pos len).
Proof.
  induction qs as [|q qs IH]; intros s F lv r lst pos len np fuel Hok Hr Hlst Hz Hb He Hlen Hqs Hf;
    (destruct fuel as [|fuel]; [cbn [length] in Hf; lia|]); rewrite loop_S; cbv beta iota.
  - assert (len = 0) as ->.
    { destruct np as [|np]; [lia|]. cbn [parts] in Hqs. by destruct (decide (len > 0)); [|lia]. }
    exists s. split; [done|]. split; [done|]. split; [done|]. split; [done|]. split; [done|]. by destruct np.
  - destruct np as [|np]; [done|]. cbn [parts] in Hqs |- *. destruct (decide (len > 0)) as [Hl|]; [|done].
    set (k := Z.min MSG_MSGSEGSZ len) in *. assert (Hk : 0 < k ≤ MSG_MSGSEGSZ ∧ k ≤ len) by (unfold k, MSG_MSGSEGSZ, PAGE_SIZE; lia).
    destruct (load_seg s (qs ++ F) lv r lst q b n k Hok Hr Hlst (base + pos))
      as (s1 & s2 & s3 & s4 & Ea & H0 & Hp & Eb & Ec & Ed & Hok4 & K4 & Hn1 & Hn2 & Hrk & Hseg); [lia..|].
    destruct (IH s4 F (((r, PAGE_SIZE), None) :: lv) q q (pos + Z.min MSG_MSGSEGSZ (len - k)) (len - k) np fuel)
      as (s' & E & Hok' & K' & Hqk & Hss & Hht).
    { eapply pa_perm; [|exact Hok4]. solve_Permutation. }
    1-3: try done; unfold PAGE_SIZE; lia.
    1-5: cbn [length] in *; unfold k, MSG_MSGSEGSZ, PAGE_SIZE in *; lia.
    assert (K0 : kept (buffer b n :: lv) (pa_mem s4) (pa_mem s')) by (eapply kept_mono; [|exact K']; set_solver).
    assert (Kr : ∀ a, r ≤ a < r + PAGE_SIZE → pa_mem s' a = pa_mem s4 a).
    { intros a Ha. by apply (K' ((r, PAGE_SIZE), None)); [by right; left|]. }
    exists s'. split; [|split; [|split; [by eapply kept_trans|split; [|split]]]].
    + rewrite !MIN_min. fold k. erewrite bind_done; [|m_step Ea; rewrite decide_False by done; m_step Eb; m_step Ec; m_step Ed; done].
      cbv beta iota zeta. rewrite <-Z.add_assoc. exact E.
    + eapply pa_perm; [|exact Hok']. cbn [msg_pages fmap list_fmap]. fold (msg_pages qs). solve_Permutation.
    + intros a Ha Hl'. rewrite Kr by done. by apply Hrk.
    + assert (El : load64 (pa_mem s') lst = q).
      { rewrite <-Hn1. apply load_ext. intros a Ha. apply Kr. simpl in Ha. lia. }
      rewrite El. split; [done|]. split; [done|]. by split.
    + apply Forall2_cons. split.
      * intros i Hi. cbn [fst snd] in *. rewrite Hqk by (unfold MSG_MSGSEGSZ, PAGE_SIZE in *; lia). rewrite Hseg by done. f_equal. lia.
      * pose proof (parts_bounds np (pos + Z.min MSG_MSGSEGSZ (len - k)) (len - k) (pos + len) ltac:(unfold k, MSG_MSGSEGSZ, PAGE_SIZE in *; lia)) as Hbd.
        rewrite Forall_forall in Hbd. eapply holds_change; [exact Hht|]. intros q' x i _ Hx Hi. split; [done|]. specialize (Hbd _ Hx).
        apply (K4 (buffer b n)); [by left|]. cbn [fst snd]. unfold k, MSG_MSGSEGSZ, PAGE_SIZE in *. lia.
Qed.

(** The number of segments of a text of [L] bytes. *)
Definition nsegs (L : Z) : nat := Z.to_nat ((L - MSG_MSGSZ + MSG_MSGSEGSZ - 1) / MSG_MSGSEGSZ).
(** Where the segments take their parts from. *)
Definition rest_parts (L : Z) : list (Z * Z) := parts (nsegs L) (Z.min MSG_MSGSZ (L - MSG_MSGSZ)) (L - MSG_MSGSZ).

Lemma nsegs_fit L : MSG_MSGSZ < L →
  (Z.of_nat (nsegs L) - 1) * MSG_MSGSEGSZ < L - MSG_MSGSZ ≤ Z.of_nat (nsegs L) * MSG_MSGSEGSZ.
Proof.
  intros HL. unfold nsegs. set (N := MSG_MSGSEGSZ). assert (N = 4088) as HN by done.
  pose proof (Z.div_mod (L - MSG_MSGSZ + N - 1) N ltac:(lia)). pose proof (Z.mod_pos_bound (L - MSG_MSGSZ + N - 1) N ltac:(lia)).
  rewrite Z2Nat.id by (apply Z.div_pos; lia). nia.
Qed.
Lemma parts_length n : ∀ pos len, (Z.of_nat n - 1) * MSG_MSGSEGSZ < len ≤ Z.of_nat n * MSG_MSGSEGSZ → length (parts n pos len) = n.
Proof.
  induction n as [|n IH]; intros pos len Hl; [done|]. cbn [parts]. unfold MSG_MSGSEGSZ, PAGE_SIZE in *. rewrite decide_True by lia. cbn [length]. f_equal.
  destruct n as [|n]; [done|]. apply IH. lia.
Qed.
Lemma rest_parts_length L : MSG_MSGSZ < L → length (rest_parts L) = nsegs L.
Proof. intros HL. by apply parts_length, nsegs_fit. Qed.
Lemma rest_parts_bounds L : MSG_MSGSZ < L → Forall (λ x, 0 ≤ x.1 ∧ 0 < x.2 ≤ MSG_MSGSEGSZ ∧ x.1 + x.2 ≤ L) (rest_parts L).
Proof.
  intros HL. pose proof (parts_len (nsegs L) (Z.min MSG_MSGSZ (L - MSG_MSGSZ)) (L - MSG_MSGSZ)) as H1.
  pose proof (parts_bounds (nsegs L) (Z.min MSG_MSGSZ (L - MSG_MSGSZ)) (L - MSG_MSGSZ) L ltac:(lia)) as H2.
  eapply Forall_impl; [apply Forall_and; split; [exact H1|exact H2]|].
  cbv beta. intros x (Hx & Hy & Hz). unfold MSG_MSGSZ, PAGE_SIZE in *. lia.
Qed.
Lemma arrived_parts L j : MSG_MSGSZ < L → 0 ≤ j → j < arrived L ↔ j < MSG_MSGSZ ∨ Exists (part_at j) (rest_parts L).
Proof.
  intros HL Hj. unfold rest_parts. rewrite parts_reach by (pose proof (nsegs_fit L HL); lia). unfold arrived. cbv zeta.
  unfold MSG_MSGSZ, PAGE_SIZE in *. lia.
Qed.

(** What [load_msg] makes of a text of more than [MSG_MSGSZ] bytes. *)
Lemma load_msg_long s F lv p qs b n src L fuel : pa_ok s (p :: qs ++ F) (buffer b n :: lv) →
  MSG_MSGSZ < L → b ≤ src → src + L ≤ b + n → length qs = nsegs L → (length qs < fuel)%nat →
  ∃ s', load_msg fuel src L s = Done (p, s') ∧
    pa_ok s' F (msg_pages qs ++ ((p, PAGE_SIZE), None) :: buffer b n :: lv) ∧
    kept (buffer b n :: lv) (pa_mem s) (pa_mem s') ∧
    segments (pa_mem s') (load64 (pa_mem s') (p + 24)) qs ∧
    (∀ i, 0 ≤ i < MSG_MSGSZ → pa_mem s' (p + 32 + i) = pa_mem s (src + i)) ∧
    Forall2 (holds (pa_mem s') (λ j, pa_mem s (src + j))) qs (rest_parts L).
Proof.
  intros Hok HL Hb Hn Hqs Hf. set (r := L - MSG_MSGSZ).
  destruct (load_head s (qs ++ F) lv p b n src MSG_MSGSZ
    (λ msg, load_segs fuel msg r (src + Z.min MSG_MSGSZ r)) Hok)
    as (s1 & E & H0 & Hp & Hok1 & K1 & Hz & H1); [lia|unfold MSG_MSGSZ, PAGE_SIZE in *; lia|done|].
  pose proof (nsegs_fit L HL) as Hfit. fold r in Hfit.
  destruct (load_segs_loop fuel p b n src qs s1 F lv p (p + 24) (Z.min MSG_MSGSZ r) r (nsegs L) fuel Hok1)
    as (s' & E' & Hok' & K' & Hpk & Hss & Hht); [lia|unfold PAGE_SIZE; lia|done| | | | |done|].
  1-3: unfold r, MSG_MSGSZ, PAGE_SIZE in *; lia.
  { rewrite Hqs. symmetry. by apply rest_parts_length. }
  exists s'. split; [|split; [done|split; [by eapply kept_trans|split; [done|split]]]].
  - unfold load_msg. rewrite (MIN_min _ L), Z.min_l by lia. fold r. rewrite (MIN_min _ r), E. exact E'.
  - intros i Hi. rewrite Hpk by (unfold MSG_MSGSZ, PAGE_SIZE in *; lia). by apply H1.
  - pose proof (rest_parts_bounds L HL) as Hbd. rewrite Forall_forall in Hbd. eapply holds_change; [exact Hht|].
    intros q' x i _ Hx Hi. split; [done|]. specialize (Hbd _ Hx). apply (K1 (buffer b n)); [by left|]. cbn [fst snd]. lia.
Qed.

Lemma rd32_wr32 a v m : in_s 32 v → i32 (load 4 (store 4 a (u32 v) m) a) = v.
Proof.
  intros Hv. rewrite load_store_eq by (pose proof (wrap_range 32 v ltac:(lia)) as [? ?]; simpl in *; lia).
  unfold swrap, wrap, in_s in *. simpl in *. rewrite Zplus_mod_idemp_l. rewrite Z.mod_small; lia.
Qed.

(** The first part of [store_msg]: the type and at most [MSG_MSGSZ] bytes. *)
Lemma store_head s F lv p dst n k (cont : M S unit) : 
  pa_ok s F (buffer dst n :: ((p, PAGE_SIZE), None) :: lv) → 0 ≤ k ≤ MSG_MSGSZ → 4 + k ≤ n →
  ∃ s', (t ← on_pages (rd32 (p + 16)); on_pages (wr32 dst t);;
         on_pages (memcpy (dst + 4) (p + 32) k);; cont) s = cont s' ∧
    pa_ok s' F (buffer dst n :: ((p, PAGE_SIZE), None) :: lv) ∧
    kept (((p, PAGE_SIZE), None) :: lv) (pa_mem s) (pa_mem s') ∧
    i32 (load 4 (pa_mem s') dst) = i32 (load 4 (pa_mem s) (p + 16)) ∧
    outside dst (4 + k) (pa_mem s) (pa_mem s') ∧
    ∀ i, 0 ≤ i < k → pa_mem s' (dst + 4 + i) = pa_mem s (p + 32 + i).
Proof.
  intros Hok Hk Hn. unfold MSG_MSGSZ, PAGE_SIZE in Hk.
  assert (Hap : dst + n ≤ p ∨ p + PAGE_SIZE ≤ dst) by by eapply live_apart2. unfold PAGE_SIZE in Hap.
  set (t := i32 (load 4 (pa_mem s) (p + 16))).
  destruct (write_live s F _ dst n 4 dst (u32 t) Hok) as (Hok1 & K1 & O1); [lia|simpl; lia|].
  set (s1 := pa_set_mem _ s) in *. assert (Em1 : pa_mem s1 = store 4 dst (u32 t) (pa_mem s)) by apply pa_mem_set.
  destruct (copy_live s1 F _ dst n (dst + 4) (p + 32) k Hok1) as (m2 & E2 & Hok2 & K2 & O2 & H2); [lia..|].
  exists (pa_set_mem m2 s1). rewrite pa_mem_set. rewrite Em1 in *.
  split; [|split; [done|split; [by eapply kept_trans|split; [|split]]]].
  - rewrite (bind_done _ _ s t s) by exact (on_pages_gets (λ m, i32 (load 4 m (p + 16))) s).
    rewrite (bind_done _ _ s tt s1) by done. m_step E2. done.
  - rewrite <-(rd32_wr32 dst t (pa_mem s)) by (apply swrap_range; lia).
    f_equal. apply load_ext. intros a Ha. apply O2. simpl in Ha. lia.
  - intros a Ha. rewrite O2 by lia. apply O1. simpl. lia.
  - intros i Hi. rewrite H2 by done. apply O1. simpl. lia.
Qed.

Lemma store_msg_short s F lv p dst n L fuel :
  pa_ok s F (buffer dst n :: ((p, PAGE_SIZE), None) :: lv) → 0 ≤ L ≤ MSG_MSGSZ → 4 + L ≤ n →
  ∃ s', store_msg (Datatypes.S fuel) dst p L s = Done (tt, s') ∧
    pa_ok s' F (buffer dst n :: ((p, PAGE_SIZE), None) :: lv) ∧
    kept (((p, PAGE_SIZE), None) :: lv) (pa_mem s) (pa_mem s') ∧
    i32 (load 4 (pa_mem s') dst) = i32 (load 4 (pa_mem s) (p + 16)) ∧
    ∀ i, 0 ≤ i < L → pa_mem s' (dst + 4 + i) = pa_mem s (p + 32 + i).
Proof.
  intros Hok HL Hn. destruct (store_head s F lv p dst n L
    (sg ← on_pages (rd64 (p + 24)); store_segs (Datatypes.S fuel) (dst + 4 + MIN MSG_MSGSZ 0) sg 0) Hok HL Hn)
    as (s' & E & Hok' & K & Ht & _ & H).
  exists s'. split; [|by split_and!]. unfold store_msg. rewrite (MIN_min L), Z.min_l by lia.
  rewrite (MIN_min _ L), Z.min_r by lia. rewrite Z.sub_diag, E.
  m_step (on_pages_rd64 s' (p + 24)). unfold store_segs. by rewrite loop_S.
Qed.

(** The loop of [store_msg] writes the parts, each in its place in the text, and nothing else. *)
Lemma store_segs_loop dst n base f qs : ∀ s F lv sg pos len np fuel,
  pa_ok s F (buffer dst n :: msg_pages qs ++ lv) → segments (pa_mem s) sg qs →
  dst ≤ base + pos → base + pos + len ≤ dst + n → 0 ≤ len ≤ Z.of_nat np * MSG_MSGSEGSZ →
  Forall2 (holds (pa_mem s) f) qs (parts np pos len) → (length qs < fuel)%nat →
  ∃ s', store_segs fuel (base + pos) sg len s = Done (tt, s') ∧
    pa_ok s' F (buffer dst n :: msg_pages qs ++ lv) ∧ kept (msg_pages qs ++ lv) (pa_mem s) (pa_mem s') ∧
    ∀ j, pa_mem s' (base + j) = if decide (Exists (part_at j) (parts np pos len)) then f j else pa_mem s (base + j).
Proof.
  induction qs as [|q qs IH]; intros s F lv sg pos len np fuel Hok Hss Hb He Hlen Hht Hf;
    (destruct fuel as [|fuel]; [cbn [length] in Hf; lia|]); unfold store_segs; rewrite loop_S; cbv beta iota.
  - apply Forall2_nil_inv_l in Hht. assert (len = 0) as ->.
    { destruct np as [|np]; [lia|]. cbn [parts] in Hht. by destruct (decide (len > 0)); [|lia]. }
    exists s. split; [done|]. split; [done|]. split; [done|]. intros j. rewrite decide_False; [done|].
    destruct np; exact (proj1 (Exists_nil _)).
  - destruct np as [|np]; [by apply Forall2_cons_nil_inv in Hht|]. cbn [parts] in Hht |- *.
    destruct (decide (len > 0)) as [Hl|]; [|by apply Forall2_cons_nil_inv in Hht].
    set (k := Z.min MSG_MSGSEGSZ len) in *. assert (Hk : 0 < k ≤ MSG_MSGSEGSZ ∧ k ≤ len) by (unfold k, MSG_MSGSEGSZ, PAGE_SIZE; lia).
    destruct Hss as (-> & H0 & Hp & Hss). apply Forall2_cons in Hht as [Hh Hht]. cbn [fst snd] in *.
    assert (Hap : dst + n ≤ q ∨ q + PAGE_SIZE ≤ dst).
    { change (msg_pages (q :: qs) ++ lv) with (((q, PAGE_SIZE), None) :: msg_pages qs ++ lv) in Hok. by eapply live_apart2. }
    destruct (copy_live s F _ dst n (base + pos) (q + 8) k Hok) as (m2 & E2 & Hok2 & K2 & O2 & H2);
      [lia|lia|lia|unfold MSG_MSGSEGSZ, PAGE_SIZE in *; lia|].
    set (s2 := pa_set_mem m2 s) in *. assert (Em : pa_mem s2 = m2) by apply pa_mem_set.
    assert (K2' : kept (msg_pages qs ++ lv) (pa_mem s) m2) by (eapply kept_cons; exact K2).
    assert (Hsg : load64 m2 q = load64 (pa_mem s) q).
    { apply (kept_load64 _ _ _ q PAGE_SIZE None _ K2); [by left|lia|unfold PAGE_SIZE; lia]. }
    destruct (IH s2 F (((q, PAGE_SIZE), None) :: lv) (load64 m2 q) (pos + Z.min MSG_MSGSEGSZ (len - k)) (len - k) np fuel)
      as (s' & E & Hok' & K' & H).
    { eapply pa_perm; [|exact Hok2]. cbn [msg_pages fmap list_fmap]. fold (msg_pages qs). solve_Permutation. }
    { rewrite Em, Hsg. eapply segments_kept; [exact K2'| |done]. intros x Hx. apply elem_of_app. by left. }
    1-3: unfold k, MSG_MSGSEGSZ, PAGE_SIZE in *; lia.
    { pose proof (parts_len np (pos + Z.min MSG_MSGSEGSZ (len - k)) (len - k)) as Hpl. rewrite Forall_forall in Hpl.
      rewrite Em. eapply holds_change; [exact Hht|]. intros q' x i Hq' Hx Hi. split; [|done]. specialize (Hpl _ Hx).
      apply (K2' ((q', PAGE_SIZE), None)); [apply elem_of_app; left; by apply msg_pages_in|].
      cbn [fst snd]. unfold MSG_MSGSEGSZ, PAGE_SIZE in *. lia. }
    { cbn [length] in Hf. lia. }
    exists s'. split; [|split; [|split]].
    + rewrite !(MIN_min len), (Z.min_comm len). fold k.
      erewrite bind_done; [|m_step E2; m_step (on_pages_rd64 s2 q); done].
      cbv beta iota zeta. rewrite MIN_min, (Z.min_comm (len - k)), Em, <-Z.add_assoc. exact E.
    + eapply pa_perm; [|exact Hok']. cbn [msg_pages fmap list_fmap]. fold (msg_pages qs). solve_Permutation.
    + eapply kept_trans; [exact K2|]. rewrite Em in K'. eapply kept_mono; [|exact K']. cbn [msg_pages fmap list_fmap]. fold (msg_pages qs).
      clear. set_solver.
    + intros j. rewrite H, Em. destruct (decide (Exists (part_at j) (parts np _ _))) as [Hx|Hx].
      { by rewrite decide_True by by right. }
      destruct (decide (pos ≤ j < pos + k)) as [Hj|Hj].
      * rewrite decide_True by by left. replace (base + j) with (base + pos + (j - pos)) by lia. rewrite H2 by lia.
        rewrite Hh by (cbn [snd]; lia). cbn [fst]. f_equal. lia.
      * rewrite decide_False by (intros [?|?]%Exists_cons; [|done]; unfold part_at in *; cbn in *; lia). apply O2. lia.
Qed.

(** What [store_msg] makes of a message of more than [MSG_MSGSZ] bytes. *)
Lemma store_msg_long s F lv p qs dst n L f fuel :
  pa_ok s F (buffer dst n :: ((p, PAGE_SIZE), None) :: msg_pages qs ++ lv) →
  segments (pa_mem s) (load64 (pa_mem s) (p + 24)) qs → MSG_MSGSZ < L → 4 + L ≤ n →
  (∀ i, 0 ≤ i < MSG_MSGSZ → pa_mem s (p + 32 + i) = f i) → Forall2 (holds (pa_mem s) f) qs (rest_parts L) → (length qs < fuel)%nat →
  ∃ s', store_msg fuel dst p L s = Done (tt, s') ∧
    pa_ok s' F (buffer dst n :: ((p, PAGE_SIZE), None) :: msg_pages qs ++ lv) ∧
    ∀ j, 0 ≤ j < L → pa_mem s' (dst + 4 + j) = if decide (j < arrived L) then f j else pa_mem s (dst + 4 + j).
Proof.
  intros Hok Hss HL Hn Hfst Hht Hf. set (r := L - MSG_MSGSZ).
  destruct (store_head s F (msg_pages qs ++ lv) p dst n MSG_MSGSZ
    (sg ← on_pages (rd64 (p + 24)); store_segs fuel (dst + 4 + Z.min MSG_MSGSZ r) sg r) Hok)
    as (s1 & E1 & Hok1 & K1 & _ & O1 & H1); [unfold MSG_MSGSZ, PAGE_SIZE in *; lia|lia|].
  assert (K1' : kept (msg_pages qs ++ lv) (pa_mem s) (pa_mem s1)) by (eapply kept_cons; exact K1).
  assert (Hsg : load64 (pa_mem s1) (p + 24) = load64 (pa_mem s) (p + 24)).
  { apply (kept_load64 _ _ _ p PAGE_SIZE None _ K1); [by left|lia|unfold PAGE_SIZE; lia]. }
  pose proof (nsegs_fit L HL) as Hfit. fold r in Hfit.
  destruct (store_segs_loop dst n (dst + 4) f qs s1 F (((p, PAGE_SIZE), None) :: lv) (load64 (pa_mem s1) (p + 24))
    (Z.min MSG_MSGSZ r) r (nsegs L) fuel) as (s' & E & Hok' & K' & H).
  { eapply pa_perm; [|exact Hok1]. solve_Permutation. }
  { rewrite Hsg. eapply segments_kept; [exact K1'| |done]. intros x Hx. apply elem_of_app. by left. }
  1-3: unfold r, MSG_MSGSZ, PAGE_SIZE in *; lia.
  { pose proof (rest_parts_bounds L HL) as Hbd. rewrite Forall_forall in Hbd. eapply holds_change; [exact Hht|].
    intros q' x i Hq' Hx Hi. split; [|done]. specialize (Hbd _ Hx).
    apply (K1' ((q', PAGE_SIZE), None)); [apply elem_of_app; left; by apply msg_pages_in|].
    cbn [fst snd]. unfold MSG_MSGSEGSZ, PAGE_SIZE in *. lia. }
  { done. }
  exists s'. split; [|split].
  - unfold store_msg. rewrite (MIN_min L), Z.min_r by lia. rewrite (MIN_min _ L), Z.min_l by lia. fold r.
    rewrite (MIN_min _ r), E1. m_step (on_pages_rd64 s1 (p + 24)). exact E.
  - eapply pa_perm; [|exact Hok']. solve_Permutation.
  - intros j Hj. change (parts (nsegs L) (Z.min MSG_MSGSZ r) r) with (rest_parts L) in H. rewrite H. pose proof (arrived_parts L j HL ltac:(lia)) as Ha.
    destruct (decide (Exists (part_at j) (rest_parts L))) as [Hx|Hx].
    + rewrite decide_True; [done|]. apply Ha. by right.
    + destruct (decide (j < MSG_MSGSZ)) as [Hj1|Hj1].
      * rewrite decide_True by (apply Ha; by left). rewrite H1 by lia. apply Hfst. lia.
      * rewrite decide_False by tauto. apply O1. lia.
Qed.

(** The message at [p] has type [t], size [L] and one page, whose text is [f]. *)
Definition message (m : mem) p t L (f : Z → Z) : Prop :=
  i32 (load 4 m (p + 16)) = t ∧ i32 (load 4 m (p + 20)) = L ∧ load64 m (p + 24) = 0 ∧
  ∀ i, 0 ≤ i < L → m (p + 32 + i) = f i.

Lemma message_kept lv m m' p t L f v : L ≤ MSG_MSGSZ → kept lv m m' → ((p, PAGE_SIZE), v) ∈ lv →
  message m p t L f → message m' p t L f.
Proof.
  intros HL K Hin (Ht & Hs & Hn & Hf). unfold MSG_MSGSZ, PAGE_SIZE in *.
  assert (Ha : ∀ a, p ≤ a < p + 4096 → m' a = m a) by (intros a Ha; by apply (K _ _ Hin)).
  split_and!.
  - rewrite <-Ht. f_equal. apply load_ext. intros a H. apply Ha. simpl in H. lia.
  - rewrite <-Hs. f_equal. apply load_ext. intros a H. apply Ha. simpl in H. lia.
  - rewrite <-Hn. apply load_ext. intros a H. apply Ha. simpl in H. lia.
  - intros j Hj. rewrite Ha by lia. by apply Hf.
Qed.

(** [free_msg] gives back the page of the message and those of its segments. *)
Lemma free_segs_loop qs : ∀ s F lv sg fuel, pa_ok s F (msg_pages qs ++ lv) → segments (pa_mem s) sg qs → (length qs < fuel)%nat →
  ∃ s', loop fuel (λ mseg,
      if decide (mseg ≠ 0) then
        nxtseg ← on_pages (rd64 mseg);
        pa_free mseg;;
        mret (inl nxtseg)
      else mret (inr tt)) sg s = Done (tt, s') ∧
    pa_ok s' (rev qs ++ F) lv ∧ kept lv (pa_mem s) (pa_mem s').
Proof.
  induction qs as [|q qs IH]; intros s F lv sg fuel Hok Hss Hf; (destruct fuel as [|fuel]; [cbn [length] in Hf; lia|]); rewrite loop_S.
  - exists s. rewrite Hss. by rewrite decide_False by auto.
  - destruct Hss as (-> & H0 & Hp & Hss). destruct (pa_free_ok _ _ _ _ Hok Hp) as (s1 & E & K & Hok1).
    destruct (IH s1 (q :: F) lv (load64 (pa_mem s) q) fuel Hok1) as (s' & E' & Hok' & K').
    { eapply segments_kept; [exact K| |done]. intros x Hx. apply elem_of_app. by left. }
    { cbn [length] in Hf. lia. }
    exists s'. split; [|split].
    + rewrite (bind_done _ _ s (inl (load64 (pa_mem s) q)) s1); [exact E'|]. rewrite decide_True by done.
      m_step (on_pages_rd64 s q). by m_step E.
    + simpl. by rewrite <-app_assoc.
    + eapply kept_trans; [|exact K']. eapply kept_mono; [|exact K]. intros x Hx. apply elem_of_app. by right.
Qed.
Lemma free_msg_spec s F lv p qs fuel : pa_ok s F (msg_pages (p :: qs) ++ lv) → page_addr p →
  segments (pa_mem s) (load64 (pa_mem s) (p + 24)) qs → (length qs < fuel)%nat →
  ∃ s', free_msg fuel p s = Done (tt, s') ∧ pa_ok s' (p :: rev qs ++ F) lv ∧ kept lv (pa_mem s) (pa_mem s').
Proof.
  intros Hok Hp Hss Hf.
  destruct (free_segs_loop qs s F (((p, PAGE_SIZE), None) :: lv) (load64 (pa_mem s) (p + 24)) fuel) as (s1 & E & Hok1 & K1); [|exact Hss|done|].
  { eapply pa_perm; [|exact Hok]. apply Permutation_middle. }
  destruct (pa_free_ok _ _ _ _ Hok1 Hp) as (s' & E' & K' & Hok'). exists s'. split; [|split; [done|]].
  - unfold free_msg. m_step (on_pages_rd64 s (p + 24)). by m_step E.
  - eapply kept_trans; [|exact K']. by eapply kept_cons.
Qed.
Lemma free_msg_short s F lv p fuel : pa_ok s F (((p, PAGE_SIZE), None) :: lv) → page_addr p →
  load64 (pa_mem s) (p + 24) = 0 →
  ∃ s', free_msg (Datatypes.S fuel) p s = Done (tt, s') ∧ pa_ok s' (p :: F) lv ∧
    kept lv (pa_mem s) (pa_mem s').
Proof. intros Hok Hp Hn. apply (free_msg_spec s F lv p []); [done..|cbn [length]; lia]. Qed.

(** Setting [mtype] and [size] of a loaded message. *)
Lemma set_fields s F lv p t L : pa_ok s F (((p, PAGE_SIZE), None) :: lv) → in_s 32 t → in_s 32 L →
  L ≤ MSG_MSGSZ → ∀ f, load64 (pa_mem s) (p + 24) = 0 → (∀ i, 0 ≤ i < L → pa_mem s (p + 32 + i) = f i) →
  ∃ s1 s', on_pages (wr32 (p + 16) t) s = Done (tt, s1) ∧ on_pages (wr32 (p + 20) L) s1 = Done (tt, s') ∧
    pa_ok s' F (((p, PAGE_SIZE), None) :: lv) ∧ kept lv (pa_mem s) (pa_mem s') ∧
    message (pa_mem s') p t L f.
Proof.
  intros Hok Ht HL HM f Hn Hf. unfold MSG_MSGSZ, PAGE_SIZE in HM.
  destruct (write_live s F lv p PAGE_SIZE 4 (p + 16) (u32 t) Hok) as (Hok1 & K1 & O1);
    [lia|unfold PAGE_SIZE; simpl; lia|].
  set (s1 := pa_set_mem _ s) in *. assert (E1 : pa_mem s1 = store 4 (p + 16) (u32 t) (pa_mem s)) by apply pa_mem_set.
  destruct (write_live s1 F lv p PAGE_SIZE 4 (p + 20) (u32 L) Hok1) as (Hok2 & K2 & O2);
    [lia|unfold PAGE_SIZE; simpl; lia|].
  set (s2 := pa_set_mem _ s1) in *. assert (E2 : pa_mem s2 = store 4 (p + 20) (u32 L) (pa_mem s1)) by apply pa_mem_set.
  exists s1, s2. rewrite E1 in K2, O2. split; [done|split; [done|split; [done|split]]].
  - rewrite E2, E1. by eapply kept_trans.
  - rewrite E2, E1. split_and!.
    + etrans; [|by apply (rd32_wr32 (p + 16) t (pa_mem s))]. f_equal. apply load_ext. intros a Ha.
      apply O2. simpl in *. lia.
    + by apply rd32_wr32.
    + rewrite <-Hn. apply load_ext. intros a Ha. rewrite O2 by (simpl in *; lia). apply O1. simpl in *. lia.
    + intros i Hi. rewrite O2 by (simpl; lia). rewrite O1 by (simpl; lia). by apply Hf.
Qed.
End texts.

(** ** Theorems *)
Section theorems.
Context {S K : Type} `{!PageAllocator S} `{!Scheduler K}.
Implicit Types (st : ipc S K) (F : list Z) (lv : list live).

Definition with_pgs (s : S) st : ipc S K :=
  mkIpc (msg_ids st) (queues st) (inodes st) (senders st) (receivers st) s (isch st).

Lemma on_pgs_done {A} (m : M S A) st a s : m (pgs st) = Done (a, s) → on_pgs m st = Done (a, with_pgs s st).
Proof. intros E. unfold on_pgs. by rewrite E. Qed.

Lemma on_pgs_rd32 a st : on_pgs (on_pages (rd32 a)) st = Done (i32 (load 4 (pa_mem (pgs st)) a), st).
Proof.
  unfold on_pgs. rewrite (on_pages_gets (λ m, i32 (load 4 m a)) (pgs st)). by destruct st.
Qed.

(** Identifiers of message queues. [newque] puts a queue in the first free
    place of the table and answers a non-negative identifier, or [ENOSEQ] when the
    table is full; afterwards that identifier names the new queue, every other
    identifier of that place (those of queues removed before) names nothing, and
    the identifiers of the other places name what they named. A negative
    identifier that is not a multiple of 16 reads outside the table. *)
Theorem newque_identifies st k que : ids_ok st → fresh_queue st que →
  ∃ r st', newque k que st = Done (r, st') ∧
    (if decide (Forall (λ q, q ≠ 0) (entries (msg_ids st))) then r = ENOSEQ ∧ queues st' = queues st
     else 0 ≤ r ∧ ids_ok st' ∧ get_msgq r st' = Done (que, st') ∧
      ∀ msgid, 0 ≤ msgid → get_msgq msgid st' =
        Done (if decide (msgid = r) then que else
              if decide (msgid mod 16 = r mod 16) then 0 else named st msgid, st')) ∧
    ∀ msgid, ids_ok st' → Z.rem msgid 16 < 0 → get_msgq msgid st' = Crash.
Proof.
  intros Hok Hf. pose proof (newque_spec st k que Hok Hf) as N.
  assert (Hneg : ∀ st' msgid, ids_ok st' → Z.rem msgid 16 < 0 → get_msgq msgid st' = Crash).
  { intros st' msgid (Hsz & _) Hm. unfold get_msgq, gets, SEQ_MULTIPLIER. unfold mbind at 1, M_bind at 1. simpl.
    rewrite Hsz, decide_False by lia. apply bind_crash. unfold entry. by rewrite decide_False by lia. }
  destruct (decide (Forall _ _)) as [Hfull|Hfree].
  { destruct N as (st' & E & Hi & Hq). exists ENOSEQ, st'. split_and!; [done..|by apply Hneg]. }
  destruct N as (i & st' & E & Hok' & Hi & Hi0 & Hent & Hqs & _). destruct Hok as (_ & Hlen & Hseq & He).
  destruct Hf as (H0 & Hq0 & _ & Hnot).
  set (seq := ids_seq (msg_ids st)) in *. exists (seq * 16 + Z.of_nat i), st'.
  assert (Hr : 0 ≤ seq * 16 + Z.of_nat i) by (unfold in_u in Hseq; lia).
  assert (Hmod : (seq * 16 + Z.of_nat i) mod 16 = Z.of_nat i).
  { rewrite Z.add_comm, Z.mod_add by lia. apply Z.mod_small. lia. }
  assert (Hdiv : (seq * 16 + Z.of_nat i) / 16 = seq).
  { rewrite Z.div_add_l by lia. rewrite (Z.div_small (Z.of_nat i)) by lia. lia. }
  assert (Hall : ∀ msgid, 0 ≤ msgid → named st' msgid =
    if decide (msgid = seq * 16 + Z.of_nat i) then que else
    if decide (msgid mod 16 = Z.of_nat i) then 0 else named st msgid).
  { intros msgid Hm. unfold named. rewrite Hent, Hqs.
    pose proof (Z.mod_pos_bound msgid 16 ltac:(lia)) as Hb.
    destruct (decide (msgid mod 16 = Z.of_nat i)) as [Em|Em].
    - rewrite Em, Nat2Z.id, list_lookup_insert_eq, lookup_insert_eq by lia. simpl.
      pose proof (Z.div_mod msgid 16 ltac:(lia)).
      destruct (decide (msgid = seq * 16 + Z.of_nat i)) as [->|Hne].
      + by rewrite decide_True by (split; [done|lia]).
      + rewrite decide_False; [done|]. intros [_ ?]. lia.
    - rewrite decide_False by (intros ->; lia). rewrite list_lookup_insert_ne by lia.
      destruct (entries (msg_ids st) !! Z.to_nat (msgid mod 16)) as [q|] eqn:Eq; [|done].
      rewrite lookup_insert_ne; [done|]. intros ->. by eapply Hnot. }
  split; [done|]. split; [|by apply Hneg]. split; [done|]. split; [done|].
  split.
  - rewrite get_msgq_named, Hall by done. by rewrite decide_True.
  - intros msgid Hm. rewrite get_msgq_named, Hall, Hmod by done. done.
Qed.

(** C21: a message of up to [MSG_MSGSZ] bytes arrives as it was sent. [sys_msgsnd]
    loads it into a page; whatever happens until it is received, as long as nobody
    writes to that page, [sys_msgrcv] into a buffer that is large enough answers
    its size, leaves its type and exactly its text in the buffer, gives the page
    back, and touches nothing else. *)
Theorem message_roundtrip st F lv p src L fuel t :
  pa_ok (pgs st) (p :: F) (((src, 4 + L), None) :: lv) → src ≠ 0 → 0 ≤ L ≤ MSG_MSGSZ →
  i32 (load 4 (pa_mem (pgs st)) src) = t → 1 ≤ t →
  ∃ st1, msgsnd_load (Datatypes.S fuel) src L st = Done (inl p, st1) ∧
    pa_ok (pgs st1) F (((p, PAGE_SIZE), None) :: ((src, 4 + L), None) :: lv) ∧
    kept (((src, 4 + L), None) :: lv) (pa_mem (pgs st)) (pa_mem (pgs st1)) ∧
    ∀ st2 F2 lv2 dst n N,
      pa_ok (pgs st2) F2 (((dst, n), None) :: ((p, PAGE_SIZE), None) :: lv2) → 4 + L ≤ n → L ≤ N →
      kept [((p, PAGE_SIZE), None)] (pa_mem (pgs st1)) (pa_mem (pgs st2)) →
      ∃ st3, msgrcv_finish (Datatypes.S fuel) dst N p st2 = Done (L, st3) ∧
        pa_ok (pgs st3) (p :: F2) (((dst, n), None) :: lv2) ∧ kept lv2 (pa_mem (pgs st2)) (pa_mem (pgs st3)) ∧
        i32 (load 4 (pa_mem (pgs st3)) dst) = t ∧
        ∀ i, 0 ≤ i < L → pa_mem (pgs st3) (dst + 4 + i) = pa_mem (pgs st) (src + 4 + i).
Proof.
  intros Hok Hsrc HL Ht Ht1.
  assert (HL32 : in_s 32 L) by (unfold in_s, MSG_MSGSZ, PAGE_SIZE in *; lia).
  assert (Ht32 : in_s 32 t) by (rewrite <-Ht; apply swrap_range; lia).
  destruct (load_msg_short (pgs st) F lv p src (4 + L) (src + 4) L fuel Hok)
    as (s1 & E1 & Hp0 & Hp & Hok1 & K1 & Hz1 & H1); [lia|lia|done|].
  destruct (set_fields s1 F _ p t L Hok1 Ht32 HL32 ltac:(lia) _ Hz1 H1) as (s2 & s3 & Ea & Eb & Hok3 & K3 & Hmsg).
  exists (with_pgs s3 st). split; [|split; [done|split; [by eapply kept_trans|]]].
  - unfold msgsnd_load. rewrite decide_False by lia. m_step (on_pgs_rd32 src st).
    rewrite decide_False by lia. apply on_pgs_done in E1. m_step E1. rewrite decide_False by done.
    m_step (on_pgs_rd32 src (with_pgs s1 st)). simpl.
    assert (Et : i32 (load 4 (pa_mem s1) src) = t).
    { rewrite <-Ht. f_equal. apply load_ext. intros a Ha. apply (K1 ((src, 4 + L), None)); [by left|].
      simpl in *. lia. }
    rewrite Et. pose proof (on_pgs_done _ (with_pgs s1 st) _ _ Ea) as Ea'. m_step Ea'.
    pose proof (on_pgs_done _ (with_pgs s2 st) _ _ Eb) as Eb'. by m_step Eb'.
  - simpl. intros st2 F2 lv2 dst n N Hok2 Hn HN K2.
    assert (Hmsg2 : message (pa_mem (pgs st2)) p t L (λ i, pa_mem (pgs st) (src + 4 + i))).
    { eapply (message_kept _ _ _ p); [lia|exact K2|by left|exact Hmsg]. }
    destruct (store_msg_short (pgs st2) F2 lv2 p dst n L fuel Hok2 HL Hn) as (s4 & E4 & Hok4 & K4 & Ht4 & H4).
    assert (Hmsg4 : message (pa_mem s4) p t L (λ i, pa_mem (pgs st) (src + 4 + i))).
    { eapply (message_kept _ _ _ p); [lia|exact K4|by left|exact Hmsg2]. }
    destruct (free_msg_short s4 F2 (((dst, n), None) :: lv2) p fuel) as (s5 & E5 & Hok5 & K5).
    { eapply pa_perm; [|exact Hok4]. solve_Permutation. } { done. } { apply Hmsg4. }
    destruct Hmsg2 as (Ht2 & Hs2 & _ & Hf2).
    exists (with_pgs s5 st2). split; [|split; [done|split; [|split]]].
    + unfold msgrcv_finish. m_step (on_pgs_rd32 (p + 20) st2). rewrite Hs2, MIN_min, Z.min_r by lia.
      apply on_pgs_done in E4. m_step E4. pose proof (on_pgs_done _ (with_pgs s4 st2) _ _ E5) as E5'. by m_step E5'.
    + eapply kept_trans; [by eapply kept_cons|by eapply kept_cons].
    + rewrite <-Ht2, <-Ht4. simpl. f_equal. apply load_ext. intros a Ha.
      apply (K5 ((dst, n), None)); [by left|]. simpl in *. lia.
    + intros i Hi. simpl. rewrite (K5 ((dst, n), None)) by (by left || (simpl; lia)). rewrite H4 by done. by apply Hf2.
Qed.

(** C39: a message of more than one page arrives only in part.  [load_msg] and
    [store_msg] move their pointers by what they will copy next instead of what they
    have just copied, so each part of the text but the last is put in its place, and the
    last part, the rest after full segments, starts too early by what it lacks of a full one.
    A text of [L] bytes, in a page and as many segments as it needs, reaches the
    receiver's buffer up to the byte [arrived L]; the bytes from there to its end are
    never written, whatever was sent.  These are none exactly when what follows the
    first page is [MSG_MSGSZ] to [MSG_MSGSEGSZ] bytes or a multiple of [MSG_MSGSEGSZ]. *)
Theorem long_message_loses_end (s : S) F lv p qs src n dst k L fuel :
  pa_ok s (p :: qs ++ F) (((src, n), None) :: ((dst, k), None) :: lv) →
  MSG_MSGSZ < L → L ≤ n → 4 + L ≤ k → length qs = nsegs L → (nsegs L < fuel)%nat →
  (∃ s1 s2, load_msg fuel src L s = Done (p, s1) ∧ store_msg fuel dst p L s1 = Done (tt, s2) ∧
    ∀ j, 0 ≤ j < L → pa_mem s2 (dst + 4 + j) =
      if decide (j < arrived L) then pa_mem s (src + j) else pa_mem s (dst + 4 + j)) ∧
  arrived L ≤ L ∧
  (arrived L = L ↔ MSG_MSGSZ ≤ L - MSG_MSGSZ ≤ MSG_MSGSEGSZ ∨ (L - MSG_MSGSZ) mod MSG_MSGSEGSZ = 0).
Proof.
  intros Hok HL Hn Hk Hqs Hf. split; [|by apply arrived_spec].
  destruct (load_msg_long s F _ p qs src n src L fuel Hok HL) as (s1 & E1 & Hok1 & K1 & Hss & H1 & Hht); [lia|lia|done|lia|].
  destruct (store_msg_long s1 F (((src, n), None) :: lv) p qs dst k L (λ j, pa_mem s (src + j)) fuel)
    as (s2 & E2 & _ & H2); [|done|done|done|exact H1|exact Hht|lia|].
  { eapply pa_perm; [|exact Hok1]. solve_Permutation. }
  exists s1, s2. split; [done|]. split; [done|]. intros j Hj. rewrite H2 by done. destruct (decide (j < arrived L)); [done|].
  apply (K1 ((dst, k), None)); [by right; left|]. cbn [fst snd]. unfold MSG_MSGSZ, PAGE_SIZE in HL. lia.
Qed.
End theorems.


(** ** Witnesses: the allocator of [mem.c], the scheduler of [sched.c] *)
#[local] Existing Instance sample_alloc.
#[local] Existing Instance no_timers.

(** No queue yet; the memory for one at 1000. *)
Definition sample_ipc (s : kstate) : ipc kstate (kst unit) :=
  mkIpc (mkIds 16 0 0 false (replicate 16 0)) ∅
    {[ 1016 := mkNode 0 0; 1032 := mkNode 0 0; 1048 := mkNode 0 0 ]} ∅ ∅ s (sample_sched false SLEEPING).

Lemma sample_ids_ok s : ids_ok (sample_ipc s).
Proof.
  split; [done|]. split; [done|]. split; [done|]. intros i q Hi Hq. simpl in Hi.
  by apply (lookup_replicate_1 16) in Hi as [-> _].
Qed.

Lemma newque_identifies_witness : ∃ r st', newque 77 1000 (sample_ipc sample_pages) = Done (r, st') ∧
  get_msgq r st' = Done (1000, st') ∧ get_msgq 16 st' = Done (0, st') ∧ get_msgq (-1) st' = Crash.
Proof.
  destruct (newque_identifies (sample_ipc sample_pages) 77 1000 (sample_ids_ok _)) as (r & st' & E & H & Hneg).
  - split; [done|]. split; [done|]. split; [|intros i Hi; by apply (lookup_replicate_1 16) in Hi as [? _]].
    intros a Ha. assert (a = 1016 ∨ a = 1032 ∨ a = 1048) as Hb by (unfold q_message, q_sender, q_receiver in Ha; set_solver).
    destruct Hb as [-> |[-> | ->]]; (split; [done|by eexists]).
  - exists r, st'. rewrite decide_False in H.
    2:{ intros Hall. apply Forall_cons in Hall as [Hall _]. done. }
    destruct H as (Hr & Hok & Hg & Hall). split; [done|]. split; [done|]. split.
    + rewrite Hall by lia. assert (r = 0) as -> by (vm_compute in E; congruence). done.
    + by apply Hneg.
Defined.

(** A user's buffer with a message of type 7 and 12 bytes. *)
Lemma message_roundtrip_witness : ∃ s p st1, msgsnd_load 1 0x9000 12 (sample_ipc s) = Done (inl p, st1) ∧
  ∃ st3, msgrcv_finish 1 0x9000 100 p st1 = Done (12, st3) ∧ i32 (load 4 (pa_mem (pgs st3)) 0x9000) = 7.
Proof.
  set (lv := [((0x9000, 16), None)] : list live).
  assert (Hok : pa_ok sample_pages sample_free lv).
  { apply sample_pages_ok; [by vm_compute..|]. apply Forall_cons. split; [by split|by apply Forall_nil]. }
  destruct (write_live sample_pages sample_free [] 0x9000 16 4 0x9000 7 Hok) as (Hok' & _ & _); [simpl; lia..|].
  set (s := pa_set_mem _ _) in Hok'. exists s, (sample_page 0).
  destruct (message_roundtrip (sample_ipc s) (tail sample_free) [] (sample_page 0) 0x9000 12 0 7)
    as (st1 & E1 & Hok1 & _ & H); [exact Hok'|done|unfold MSG_MSGSZ, PAGE_SIZE; lia|by vm_compute|done|].
  exists st1. split; [exact E1|].
  destruct (H st1 (tail sample_free) [] 0x9000 16 100) as (st3 & E3 & _ & _ & Ht & _);
    [|by vm_compute|by vm_compute|intros ????; reflexivity|].
  - eapply pa_perm; [|exact Hok1]. apply Permutation_swap.
  - exists st3. split; [exact E3|exact Ht].
Defined.

Lemma long_message_loses_end_witness : ∃ p s1 s2, load_msg 2 0x9000 5000 sample_pages = Done (p, s1) ∧
  store_msg 2 0xb000 p 5000 s1 = Done (tt, s2) ∧ pa_mem s2 0xc38b = 0 ∧ arrived 5000 = 4064 ∧ arrived 8140 = 8140.
Proof.
  destruct (long_message_loses_end sample_pages (drop 2 sample_free) [] (sample_page 0) [sample_page 1]
    0x9000 5000 0xb000 5004 5000 2) as [(s1 & s2 & E1 & E2 & H) _];
    [|by vm_compute|by vm_compute|by vm_compute|by vm_compute|by vm_compute; lia|].
  - apply (sample_pages_ok [((0x9000, 5000), None); ((0xb000, 5004), None)]); [by vm_compute..|].
    repeat (apply Forall_cons; split; [by split|]). by apply Forall_nil.
  - exists (sample_page 0), s1, s2. split; [exact E1|]. split; [exact E2|]. split; [|by split; vm_compute].
    etrans; [exact (H 4999 ltac:(lia))|by vm_compute].
Defined.
