(* ===== verification/MsgQueue.v ===== *)
(** * Delivery, reception and removal of messages

    What the system calls of [Ipc.v] do to the lists of a queue: [pipeline_send]
    hands a message to a sleeping receiver, [sys_msgrcv] takes one from the queue
    and wakes the senders, [sys_msgctl] removes a queue. *)
From S2P Require Import Prelude Words Atomics Lists Memory Strings LockFree Kalloc Pages Sched Ipc.

(** ** Waking *)
Section waking.
Context {S K : Type} `{!PageAllocator S} `{!Scheduler K}.
Implicit Types (st : ipc S K) (k : K) (ps ns : list Z).

(** The state of a process after [activate_proc]. *)
Definition rouse (x : procstate) : procstate := if wakeable x false then RUNNABLE else x.

(** [k'] is [k] after the processes [ps] have been woken. *)
Definition woken ps k k' : Prop := ∀ q,
  sch_state k' q = if decide (q ∈ ps) then rouse <$> sch_state k q else sch_state k q.

Definition known k p : Prop := is_Some (sch_state k p).

Definition with_lists (h : heap) k st : ipc S K :=
  mkIpc (msg_ids st) (queues st) h (senders st) (receivers st) (pgs st) k.

(** The process of a node on a list of senders or receivers. *)
Definition waiter st (node : Z) : option Z :=
  match senders st !! node with Some p => Some p | None => rproc <$> receivers st !! node end.

Lemma woken_nil k : woken [] k k.
Proof. intros q. by rewrite decide_False by set_solver. Qed.

Lemma rouse_rouse x : rouse (rouse x) = rouse x.
Proof. by destruct x. Qed.

Lemma woken_app ps qs k k1 k2 : woken ps k k1 → woken qs k1 k2 → woken (ps ++ qs) k k2.
Proof.
  intros H1 H2 q. rewrite H2, H1. destruct (decide (q ∈ qs)) as [Hq|Hq], (decide (q ∈ ps)) as [Hp|Hp].
  - rewrite (decide_True (P := q ∈ ps ++ qs)) by set_solver. destruct (sch_state k q); [|done]. simpl.
    by rewrite rouse_rouse.
  - by rewrite (decide_True (P := q ∈ ps ++ qs)) by set_solver.
  - by rewrite (decide_True (P := q ∈ ps ++ qs)) by set_solver.
  - by rewrite (decide_False (P := q ∈ ps ++ qs)) by set_solver.
Qed.

Lemma woken_known ps k k' p : woken ps k k' → known k p → known k' p.
Proof. intros H. unfold known. rewrite H. destruct (decide (p ∈ ps)); [|done]. by rewrite fmap_is_Some. Qed.

Lemma wake_spec p st : sch_ok (isch st) → known (isch st) p →
  ∃ k', wake p st = Done (tt, with_lists (inodes st) k' st) ∧ sch_ok k' ∧ woken [p] (isch st) k'.
Proof.
  intros Hok [x Hx]. destruct (sch_activate_ok _ p x false Hok Hx) as (k' & E & Hok' & H).
  exists k'. split; [|split; [done|]].
  - unfold wake. erewrite bind_done; [|unfold on_isch; by rewrite E]. done.
  - intros q. rewrite H. destruct (decide (q = p)) as [->|Hne].
    + rewrite (decide_True (P := p ∈ [p])) by set_solver. rewrite Hx. simpl. unfold rouse.
      destruct (wakeable x false); [by rewrite decide_True|]. by rewrite decide_False by naive_solver.
    + rewrite decide_False by naive_solver. by rewrite decide_False by set_solver.
Qed.

(** Taking the first node of a list. *)
Lemma take_first st hd n ns : hlist (inodes st) hd (n :: ns) →
  ∃ h', on_nodes (_empty_list hd) st = Done (false, st) ∧ on_nodes (get_next hd) st = Done (n, st) ∧
    (∃ a, on_nodes (_detach_from_list n) st = Done (a, with_lists h' (isch st) st)) ∧
    hlist h' hd ns ∧ only (hd :: n :: ns) (inodes st) h'.
Proof.
  intros R. destruct (hlist_detach _ hd [] n ns R) as (h' & E & O & R' & _).
  exists h'. split; [|split; [|split; [|done]]].
  - etrans; [by apply on_nodes_done, (hlist_empty _ _ _ R)|]. rewrite bool_decide_false by done. by destruct st.
  - etrans; [by apply on_nodes_done, (hlist_first _ _ _ R)|]. by destruct st.
  - eexists. by etrans; [by apply on_nodes_done, E|].
Qed.

Lemma none_left st hd : hlist (inodes st) hd [] → on_nodes (_empty_list hd) st = Done (true, st).
Proof. intros R. etrans; [by apply on_nodes_done, (hlist_empty _ _ _ R)|]. by destruct st. Qed.

Lemma ss_wakeup_spec hd ns : ∀ st ps fuel, hlist (inodes st) hd ns → sch_ok (isch st) →
  Forall2 (λ n p, waiter st n = Some p ∧ known (isch st) p) ns ps → (length ns < fuel)%nat →
  ∃ h' k', ss_wakeup fuel hd st = Done (tt, with_lists h' k' st) ∧ hlist h' hd [] ∧
    only (hd :: ns) (inodes st) h' ∧ sch_ok k' ∧ woken ps (isch st) k'.
Proof.
  induction ns as [|n ns IH]; intros st ps fuel R Hk HF Hf;
    (destruct fuel as [|fuel]; [simpl in Hf; lia|]); unfold ss_wakeup; rewrite loop_S.
  - apply Forall2_nil_inv_l in HF as ->. exists (inodes st), (isch st).
    split; [|split; [done|split; [apply only_refl|split; [done|apply woken_nil]]]].
    erewrite bind_done; [|m_step (none_left _ _ R); done]. by destruct st.
  - apply Forall2_cons_inv_l in HF as (p & ps' & [Hw Hp] & HF & ->).
    destruct (take_first st hd n ns R) as (h1 & E1 & E2 & (a & E3) & R1 & O1).
    set (st1 := with_lists h1 (isch st) st) in *.
    destruct (wake_spec p st1 Hk Hp) as (k2 & E4 & Hk2 & W2). simpl in E4.
    destruct (IH (with_lists h1 k2 st) ps' fuel) as (h' & k' & E & R' & O & Hk' & W); [done|done| |simpl in Hf; lia|].
    { eapply Forall2_impl; [exact HF|]. intros x y [Hx Hy]. split; [done|]. by eapply woken_known. }
    exists h', k'. split; [|split; [done|split; [|split; [done|]]]].
    + rewrite (bind_done _ _ st (inl tt) (with_lists h1 k2 st)); [exact E|]. m_step E1. m_step E2. m_step E3. unfold gets.
      unfold waiter in Hw. unfold mbind at 1 2, M_bind at 1 2. simpl.
      destruct (senders st !! n) as [p'|]; simplify_eq.
      { by m_step E4. }
      destruct (receivers st !! n) as [rc|]; simplify_eq/=. by m_step E4.
    + eapply only_trans; [exact O1|]. eapply only_mono; [|exact O]. clear. set_solver.
    + by apply (woken_app [p] ps' _ k2).
Qed.
End waking.

(** ** Delivery to a sleeping receiver *)
Section delivery.
Context {S K : Type} `{!PageAllocator S} `{!Scheduler K}.
Implicit Types (st : ipc S K) (q msg node : Z) (rc : msg_receiver).

Definition set_rmsg (m : option Z) rc : msg_receiver := mkReceiver (rproc rc) (rmtype rc) (rsize rc) m.
Definition with_receiver node rc (h : heap) (k : K) st : ipc S K :=
  mkIpc (msg_ids st) (queues st) h (senders st) (<[node := rc]> (receivers st)) (pgs st) k.

(** Every node of [q]'s list of receivers is a receiver. *)
Definition rcv_ok st (ns : list Z) : Prop := ∀ n, n ∈ ns → is_Some (receivers st !! n).
(** The receiver at [n] wants messages of type [t]. *)
Definition wants st (t n : Z) : bool :=
  match receivers st !! n with Some rc => testmsg (rmtype rc) t | None => false end.

(** The type and the size of the message at [msg]. *)
Definition mtype_of st msg : Z := i32 (load 4 (pa_mem (pgs st)) (msg + 16)).
Definition size_of st msg : Z := i32 (load 4 (pa_mem (pgs st)) (msg + 20)).

(** The body of the loop of [pipeline_send]. *)
Definition try_receiver q msg mtype size (node : Z) : M (ipc S K) (option bool) :=
  if decide (node = q_receiver q) then mret (Some false)
  else
    rc ← get_at receivers node;
    if testmsg (rmtype rc) mtype then
      on_nodes (_detach_from_list node);;
      if decide (size > rsize rc) then
        set_receivers (<[node := set_rmsg (Some 0) rc]>);; wake (rproc rc);; mret None
      else
        set_receivers (<[node := set_rmsg (Some msg) rc]>);; wake (rproc rc);; mret (Some true)
    else mret None.

Lemma pipeline_send_eq fuel q msg st : pipeline_send fuel q msg st =
  (r ← for_in_list fuel (q_receiver q) (try_receiver q msg (mtype_of st msg) (size_of st msg));
   mret (default false r)) st.
Proof. unfold pipeline_send. m_step (on_pgs_rd32 (msg + 16) st). by m_step (on_pgs_rd32 (msg + 20) st). Qed.

Lemma try_unwanted q msg t size node st : node ≠ q_receiver q → is_Some (receivers st !! node) →
  wants st t node = false → try_receiver q msg t size node st = Done (None, st).
Proof.
  intros Hn [rc Hrc] Hw. unfold wants in Hw. rewrite Hrc in Hw. unfold try_receiver. rewrite decide_False by done.
  unfold get_at, mbind, M_bind. by rewrite Hrc, Hw.
Qed.

(** The body on a receiver that wants the message, whose list node is on a list
    or alone ([h'] is the heap after detaching it). *)
Lemma try_wanted q msg t size node rc st a h' : node ≠ q_receiver q → receivers st !! node = Some rc →
  testmsg (rmtype rc) t = true → _detach_from_list node (inodes st) = Done (a, h') →
  sch_ok (isch st) → known (isch st) (rproc rc) →
  ∃ k', let fits := bool_decide (size ≤ rsize rc) in
    try_receiver q msg t size node st =
      Done (if fits then Some true else None,
            with_receiver node (set_rmsg (Some (if fits then msg else 0)) rc) h' k' st) ∧
    sch_ok k' ∧ woken [rproc rc] (isch st) k'.
Proof.
  intros Hn Hrc Ht E Hok Hp.
  set (m := if bool_decide (size ≤ rsize rc) then msg else 0).
  destruct (wake_spec (rproc rc) (with_receiver node (set_rmsg (Some m) rc) h' (isch st) st) Hok Hp) as (k' & Ek & Hok' & W).
  exists k'. split; [|done]. unfold try_receiver. rewrite decide_False by done.
  unfold get_at. unfold mbind at 1, M_bind at 1. rewrite Hrc, Ht.
  pose proof (on_nodes_done (S := ipc S K) (_detach_from_list node) st _ _ E) as E'. m_step E'.
  unfold m in *. case_bool_decide as Hs.
  - rewrite decide_False by lia. unfold set_receivers, modify. unfold mbind at 1, M_bind at 1. by m_step Ek.
  - rewrite decide_True by lia. unfold set_receivers, modify. unfold mbind at 1, M_bind at 1. by m_step Ek.
Qed.

Lemma skip_unwanted fuel q msg ns1 n ns2 st t size : hlist (inodes st) (q_receiver q) (ns1 ++ n :: ns2) →
  rcv_ok st ns1 → (∀ x, x ∈ ns1 → wants st t x = false) →
  for_in_list fuel (q_receiver q) (try_receiver q msg t size) st =
  loop (fuel - length ns1) (for_in_list_step (q_receiver q) (try_receiver q msg t size)) n st.
Proof.
  intros R Hok Hw. apply for_in_list_skip with ns2; [done|]. intros x Hx. apply try_unwanted; [|by apply Hok|by apply Hw].
  pose proof (hlist_nodup _ _ _ R) as [Hn _]%NoDup_cons. intros ->. set_solver.
Qed.

(** The loop never ends on a receiver whose buffer is too small: detached, its
    node is its own successor. *)
Lemma spins q msg t size node fuel : ∀ st rc, node ≠ q_receiver q → receivers st !! node = Some rc →
  testmsg (rmtype rc) t = true → size > rsize rc → ring (inodes st) [node] →
  sch_ok (isch st) → known (isch st) (rproc rc) →
  loop fuel (for_in_list_step (q_receiver q) (try_receiver q msg t size)) node st = NoFuel.
Proof.
  induction fuel as [|fuel IH]; intros st rc Hn Hrc Ht Hs R Hok Hp; [done|].
  destruct (detach_single _ _ R) as (h' & E & O & R').
  destruct (try_wanted q msg t size node rc st _ _ Hn Hrc Ht E Hok Hp) as (k' & E' & Hok' & W).
  rewrite bool_decide_false in E' by lia. rewrite loop_S.
  set (st' := with_receiver _ _ _ _ _) in E'.
  assert (Hnx : get_next node (nodes st') = Done (node, nodes st')) by exact (hlist_first h' node [] R').
  assert (H0 : node ≠ 0) by (apply (ring_nonnull _ _ _ R'); by left).
  m_step (step_next (q_receiver q) (try_receiver q msg t size) node st st' node E' Hn H0 Hnx).
  apply (IH st' (set_rmsg (Some 0) rc)); [done| |done|done|done|done|].
  - apply lookup_insert_eq.
  - by eapply woken_known.
Qed.
End delivery.

(** ** Taking a message *)
Section reception.
Context {S K : Type} `{!PageAllocator S} `{!Scheduler K}.
Implicit Types (st : ipc S K) (q m : Z) (ms : list Z).

(** The message the search answers on a list of messages and their types. *)
Fixpoint pick (mtype found : Z) (l : list (Z * Z)) : Z :=
  match l with
  | [] => found
  | (m, t) :: l =>
      if testmsg mtype t then (if decide (mtype < -1) then pick (mtype + 1) m l else m)
      else pick mtype found l
  end.

Definition typed st ms : list (Z * Z) := (λ m, (m, mtype_of st m)) <$> ms.

Lemma msgrcv_find_spec st q ms mtype fuel : hlist (inodes st) (q_message q) ms → (length ms < fuel)%nat →
  msgrcv_find fuel q mtype st = Done (pick mtype 0 (typed st ms), st).
Proof.
  intros R Hf. unfold msgrcv_find.
  assert (Hnx : ∀ l1 p l2, ms = l1 ++ p :: l2 →
    on_nodes (get_next p) st = Done (default (q_message q) (hd_error l2), st)).
  { intros l1 p l2 ->. etrans; [by eapply on_nodes_done, hlist_next|]. by destruct st. }
  assert (E0 : on_nodes (get_next (q_message q)) st = Done (default (q_message q) (hd_error ms), st)).
  { etrans; [by eapply on_nodes_done, hlist_first|]. by destruct st. }
  m_step E0. set (body := λ '(node, mtype, found), _).
  assert (G : ∀ l2 l1 fuel mtype found, ms = l1 ++ l2 → (length l2 < fuel)%nat →
    loop fuel body (default (q_message q) (hd_error l2), mtype, found) st = Done (pick mtype found (typed st l2), st)).
  { clear fuel Hf mtype E0. induction l2 as [|p l2 IH]; intros l1 fuel mtype found El Hf;
      (destruct fuel as [|fuel]; [simpl in Hf; lia|]); rewrite loop_S; simpl.
    - unfold body at 1. rewrite decide_True by (by right). done.
    - assert (Hp : ¬ (p = 0 ∨ p = q_message q)).
      { pose proof (hlist_nodup _ _ _ R) as [Hn _]%NoDup_cons.
        pose proof (ring_nonnull _ _ p R) as H0. rewrite El in Hn, H0. set_solver. }
      assert (El' : ms = (l1 ++ [p]) ++ l2) by (by rewrite <-app_assoc).
      pose proof (Hnx _ _ _ El) as En. pose proof (on_pgs_rd32 (p + 16) st) as Et. fold (mtype_of st p) in Et.
      destruct (testmsg mtype (mtype_of st p)) eqn:Etest; [destruct (decide (mtype < -1)) as [Hm|Hm]|].
      + rewrite (bind_done _ _ st (inl (default (q_message q) (hd_error l2), mtype + 1, p)) st).
        { by apply IH with (l1 ++ [p]); [|simpl in Hf; lia]. }
        unfold body. rewrite decide_False by done. m_step Et. rewrite Etest.
        destruct (decide (mtype < -1)); [by m_step En|done].
      + rewrite (bind_done _ _ st (inr p) st); [done|].
        unfold body. rewrite decide_False by done. m_step Et. rewrite Etest. by destruct (decide (mtype < -1)).
      + rewrite (bind_done _ _ st (inl (default (q_message q) (hd_error l2), mtype, found)) st).
        { by apply IH with (l1 ++ [p]); [|simpl in Hf; lia]. }
        unfold body. rewrite decide_False by done. m_step Et. rewrite Etest. by m_step En. }
  m_step (G ms [] fuel mtype 0 eq_refl Hf). done.
Qed.

Lemma testmsg_weaken mtype t : mtype < -1 → testmsg (mtype + 1) t = true → testmsg mtype t = true.
Proof.
  unfold testmsg. intros Hm. destruct (decide (mtype + 1 = 0)), (decide (mtype = 0)); [lia..|].
  destruct (decide (mtype + 1 < 0)), (decide (mtype < 0)); [|lia..]. rewrite !bool_decide_eq_true. lia.
Qed.

(** What is picked is on the list and fits. *)
Lemma pick_in l : ∀ mtype found, pick mtype found l ≠ found →
  ∃ t, (pick mtype found l, t) ∈ l ∧ testmsg mtype t = true.
Proof.
  induction l as [|[m t] l IH]; intros mtype found Hp; simpl in *; [done|].
  destruct (testmsg mtype t) eqn:Et; [destruct (decide (mtype < -1)) as [Hm|Hm]|].
  - destruct (decide (pick (mtype + 1) m l = m)) as [->|Hne].
    + exists t. split; [by left|done].
    + destruct (IH _ _ Hne) as (t' & Hin & Ht'). exists t'. split; [by right|]. by apply testmsg_weaken.
  - exists t. split; [by left|done].
  - destruct (IH _ _ Hp) as (t' & Hin & Ht'). exists t'. split; [by right|done].
Qed.

(** For [mtype >= -1] it is the first that fits. *)
Lemma pick_first l mtype : -1 ≤ mtype → (∀ m t, (m, t) ∈ l → m ≠ 0) →
  if decide (pick mtype 0 l = 0) then ∀ m t, (m, t) ∈ l → testmsg mtype t = false
  else ∃ l1 t l2, l = l1 ++ (pick mtype 0 l, t) :: l2 ∧ testmsg mtype t = true ∧
    ∀ m' t', (m', t') ∈ l1 → testmsg mtype t' = false.
Proof.
  intros Hm. induction l as [|[m t] l IH]; intros H0; simpl.
  { by intros m t ?%elem_of_nil. }
  destruct (testmsg mtype t) eqn:Et.
  - rewrite (decide_False (P := mtype < -1)) by lia. rewrite decide_False by (apply (H0 m t); by left).
    exists [], t, l. split; [done|]. split; [done|]. by intros ?? ?%elem_of_nil.
  - assert (H0' : ∀ m t, (m, t) ∈ l → m ≠ 0) by (intros m' t' H; apply (H0 m' t'); by right).
    specialize (IH H0'). destruct (decide (pick mtype 0 l = 0)) as [_|_].
    + intros m' t' [[= -> ->]|H]%elem_of_cons; [done|by eapply IH].
    + destruct IH as (l1 & t' & l2 & E & Ht & Hl1). exists ((m, t) :: l1), t', l2.
      split; [by rewrite E at 1|]. split; [done|].
      intros m' t'' [[= -> ->]|H]%elem_of_cons; [done|by eapply Hl1].
Qed.

Lemma pick_split st ms mtype : (∀ x, x ∈ ms → x ≠ 0) → let m := pick mtype 0 (typed st ms) in m ≠ 0 →
  ∃ l1 l2, ms = l1 ++ m :: l2 ∧ testmsg mtype (mtype_of st m) = true ∧
    (-1 ≤ mtype → ∀ m', m' ∈ l1 → testmsg mtype (mtype_of st m') = false).
Proof.
  intros H0 m Hm0.
  assert (Hin : ∀ m' t, (m', t) ∈ typed st ms → m' ∈ ms ∧ t = mtype_of st m').
  { intros m' t (x & [= -> ->] & Hx)%list_elem_of_fmap. done. }
  destruct (pick_in (typed st ms) mtype 0 Hm0) as (t & Ht & Htest). fold m in Ht.
  destruct (Hin _ _ Ht) as [Hmin ->]. destruct (decide (-1 ≤ mtype)) as [Hge|Hlt].
  - pose proof (pick_first (typed st ms) mtype Hge) as P. rewrite decide_False in P by done.
    destruct P as (l1 & t & l2 & E & _ & Hl1).
    { intros m' t' H. apply Hin in H as [H _]. by apply H0. }
    fold m in E. clearbody m. unfold typed in E. apply fmap_app_inv in E as (k1 & k2 & E1 & E2 & ->).
    symmetry in E2. apply fmap_cons_inv in E2 as (x & k2' & [= Ex _] & _ & E3). subst x.
    exists k1, k2'. split; [by rewrite E3|]. split; [done|]. intros _ m' Hm'. eapply Hl1. rewrite E1.
    apply list_elem_of_fmap. by exists m'.
  - apply list_elem_of_split in Hmin as (l1 & l2 & E). exists l1, l2. split; [done|]. split; [done|]. lia.
Qed.
End reception.

(** ** The lock of the table *)
Section locking.
Context {S K : Type} `{!PageAllocator S} `{!Scheduler K}.
Implicit Types (st : ipc S K).

Definition set_lock (b : bool) st : ipc S K :=
  mkIpc (mkIds (ids_size (msg_ids st)) (in_use (msg_ids st)) (ids_seq (msg_ids st)) b (entries (msg_ids st)))
    (queues st) (inodes st) (senders st) (receivers st) (pgs st) (isch st).

Lemma lock_ids_done st : ids_lock (msg_ids st) = false → lock_ids st = Done (tt, set_lock true st).
Proof. intros Hl. unfold lock_ids, on_ids_lock. by rewrite Hl. Qed.

Lemma unlock_ids_done st : unlock_ids st = Done (tt, set_lock false st).
Proof. done. Qed.

Lemma set_lock_id st : ids_lock (msg_ids st) = false → set_lock false (set_lock true st) = st.
Proof. destruct st as [[] ? ? ? ? ? ?]. simpl. by intros ->. Qed.

Lemma get_msgq_locked st msgid : ids_ok st → 0 ≤ msgid →
  get_msgq msgid (set_lock true st) = Done (named st msgid, set_lock true st).
Proof. intros H Hm. by rewrite (get_msgq_named (set_lock true st)). Qed.

Lemma named_queue st msgid : named st msgid ≠ 0 → ∃ qr, queues st !! named st msgid = Some qr ∧
  entries (msg_ids st) !! Z.to_nat (msgid mod 16) = Some (named st msgid).
Proof.
  unfold named. destruct (entries _ !! _) as [q|] eqn:E1; [|done]. destruct (queues st !! q) as [qr|] eqn:E2; [|done].
  destruct (decide (q ≠ 0 ∧ qseq qr = msgid / 16)); [|done]. intros _. by exists qr.
Qed.
End locking.

(** ** Removing a queue *)
Section removal.
Context {S K : Type} `{!PageAllocator S} `{!Scheduler K}.
Implicit Types (st : ipc S K) (q m : Z) (ms : list Z) (F : list Z) (lv : list live).

(** A message with its segments, which may be of any number of pages. *)
Definition msg_ok (m : mem) (x : Z * list Z) : Prop := page_addr x.1 ∧ segments m (load64 m (x.1 + 24)) x.2.
(** Its pages, in the order in which [free_msg] gives them back. *)
Definition pages_of (x : Z * list Z) : list Z := x.2 ++ [x.1].
Definition all_pages (xs : list (Z * list Z)) : list Z := mjoin (pages_of <$> xs).

Lemma msg_ok_kept lv (m m' : mem) x : kept lv m m' → msg_pages (pages_of x) ⊆ lv → msg_ok m x → msg_ok m' x.
Proof.
  intros Hkp Hs [Hp Hseg]. split; [done|]. unfold pages_of, msg_pages in Hs. rewrite fmap_app in Hs.
  rewrite (kept_load64 lv m m' x.1 PAGE_SIZE None _ Hkp); [|apply Hs, elem_of_app; right; by left|lia|unfold PAGE_SIZE; lia].
  eapply segments_kept; [exact Hkp| |done]. intros y Hy. apply Hs, elem_of_app. by left.
Qed.

Definition with_messages (h : heap) (s : S) st : ipc S K :=
  mkIpc (msg_ids st) (queues st) h (senders st) (receivers st) s (isch st).

Lemma free_messages_loop q xs : ∀ st F lv fuel f, hlist (inodes st) (q_message q) xs.*1 →
  pa_ok (pgs st) F (msg_pages (all_pages xs) ++ lv) → Forall (msg_ok (pa_mem (pgs st))) xs →
  (length xs < fuel)%nat → Forall (λ x, length x.2 < f)%nat xs →
  ∃ h' s', loop fuel (λ _,
      e ← on_nodes (_empty_list (q_message q));
      if e : bool then mret (inr tt)
      else
        node ← on_nodes (get_next (q_message q));
        on_nodes (_detach_from_list node);;
        on_pgs (free_msg f node);;
        mret (inl tt)) tt st = Done (tt, with_messages h' s' st) ∧
    pa_ok s' (rev (all_pages xs) ++ F) lv ∧ kept lv (pa_mem (pgs st)) (pa_mem s').
Proof.
  induction xs as [|[m qs] xs IH]; intros st F lv fuel f R Hok Hxs Hf Hfs;
    (destruct fuel as [|fuel]; [simpl in Hf; lia|]); rewrite loop_S.
  - exists (inodes st), (pgs st). split; [|done]. erewrite bind_done; [|m_step (none_left _ _ R); done]. by destruct st.
  - destruct (take_first st _ m xs.*1 R) as (h1 & E1 & E2 & (a & E3) & R1 & _).
    apply Forall_cons in Hxs as [[Hp Hseg] Hxs]. apply Forall_cons in Hfs as [Hfm Hfs]. cbn [fst snd] in *.
    assert (Hok' : pa_ok (pgs st) F (msg_pages (m :: qs) ++ msg_pages (all_pages xs) ++ lv)).
    { eapply pa_perm; [|exact Hok]. change (all_pages ((m, qs) :: xs)) with ((qs ++ [m]) ++ all_pages xs).
      unfold msg_pages. rewrite !fmap_app. cbn [fmap list_fmap]. solve_Permutation. }
    destruct (free_msg_spec (pgs st) F _ m qs f Hok' Hp Hseg Hfm) as (s2 & E4 & Hok2 & K2).
    set (st1 := with_lists h1 (isch st) st) in *.
    pose proof (on_pgs_done (K := K) _ st1 _ _ E4) as E4'.
    destruct (IH (with_messages h1 s2 st) (m :: rev qs ++ F) lv fuel f) as (h' & s' & E & Hok3 & K3);
      [done|done| |simpl in Hf; lia|done|].
    { rewrite Forall_forall in Hxs |- *. intros x Hx. eapply msg_ok_kept; [exact K2| |by apply Hxs].
      intros y Hy. apply elem_of_app. left. unfold msg_pages, all_pages in *. apply list_elem_of_fmap in Hy as (z & -> & Hz).
      apply list_elem_of_fmap. exists z. split; [done|]. apply list_elem_of_join. exists (pages_of x). split; [done|].
      apply list_elem_of_fmap. by exists x. }
    exists h', s'. split; [|split].
    + rewrite (bind_done _ _ st (inl tt) (with_messages h1 s2 st)); [exact E|]. m_step E1. m_step E2. m_step E3.
      by m_step E4'.
    + change (all_pages ((m, qs) :: xs)) with ((qs ++ [m]) ++ all_pages xs). rewrite !rev_app_distr. simpl.
      rewrite <-!app_assoc. exact Hok3.
    + eapply kept_trans; [|exact K3]. eapply kept_mono; [|exact K2]. intros y Hy. apply elem_of_app. by right.
Qed.

Lemma free_messages_spec q xs st F lv f : hlist (inodes st) (q_message q) xs.*1 →
  pa_ok (pgs st) F (msg_pages (all_pages xs) ++ lv) → Forall (msg_ok (pa_mem (pgs st))) xs → (length xs ≤ f)%nat →
  Forall (λ x, length x.2 ≤ f)%nat xs →
  ∃ h' s', free_messages (Datatypes.S f) q st = Done (tt, with_messages h' s' st) ∧
    pa_ok s' (rev (all_pages xs) ++ F) lv ∧ kept lv (pa_mem (pgs st)) (pa_mem s').
Proof.
  intros R Hok Hxs Hf Hfs. apply (free_messages_loop q xs st F lv (Datatypes.S f) (Datatypes.S f)); [done..|lia|].
  eapply Forall_impl; [exact Hfs|]. intros x Hx. cbv beta in *. lia.
Qed.

Lemma get_msgq_none st msgid : ids_size (msg_ids st) = 16 → 0 ≤ msgid →
  entries (msg_ids st) !! Z.to_nat (msgid mod 16) = Some 0 → get_msgq msgid st = Done (0, st).
Proof.
  intros Hs Hm He. unfold get_msgq, gets, SEQ_MULTIPLIER. unfold mbind at 1, M_bind at 1. simpl.
  rewrite Hs, Z.rem_mod_nonneg by lia.
  pose proof (Z.mod_pos_bound msgid 16 ltac:(lia)). rewrite decide_False by lia.
  rewrite (bind_done _ _ st 0 st); [done|]. unfold entry. by rewrite decide_True, He by lia.
Qed.

(** [freeque] on a queue that exists. *)
Lemma freeque_spec st L msgid xs rs ps F lv f : ids_ok st → ids_lock (msg_ids st) = false → 0 ≤ msgid →
  let q := named st msgid in q ≠ 0 → family (inodes st) L →
  L !! q_message q = Some xs.*1 → L !! q_receiver q = Some rs →
  Forall2 (λ n p, waiter st n = Some p ∧ known (isch st) p) rs ps → sch_ok (isch st) →
  pa_ok (pgs st) F (msg_pages (all_pages xs) ++ lv) → Forall (msg_ok (pa_mem (pgs st))) xs →
  (length xs ≤ f)%nat → Forall (λ x, length x.2 ≤ f)%nat xs → (length rs ≤ f)%nat →
  ∃ h' s' k', freeque (Datatypes.S f) msgid st = Done (tt,
      mkIpc (mkIds 16 (i32 (in_use (msg_ids st) - 1)) (ids_seq (msg_ids st)) false
              (<[Z.to_nat (msgid mod 16) := 0]> (entries (msg_ids st))))
        (delete q (queues st)) h' (senders st) (receivers st) s' k') ∧
    pa_ok s' (rev (all_pages xs) ++ F) lv ∧ kept lv (pa_mem (pgs st)) (pa_mem s') ∧ woken ps (isch st) k'.
Proof.
  intros Hids Hlk Hid q Hq Fam Hms Hrs Hps Hk Hok Hmsg Hf Hfs Hf2.
  set (st1 := set_lock true st).
  set (st2 := mkIpc (mkIds (ids_size (msg_ids st)) (in_use (msg_ids st)) (ids_seq (msg_ids st)) true
     (<[Z.to_nat (msgid mod 16) := 0]> (entries (msg_ids st)))) (queues st) (inodes st) (senders st)
     (receivers st) (pgs st) (isch st)).
  assert (Hne : q_message q ≠ q_receiver q) by (unfold q_message, q_receiver; lia).
  destruct (ss_wakeup_spec (q_receiver q) rs st2 ps (Datatypes.S f)) as (h3 & k3 & E3 & R3 & O3 & Hk3 & W3);
    [by apply (family_hlist _ _ _ _ Fam)|done|done|lia|].
  set (st3 := with_lists h3 k3 st2) in *.
  assert (Rm : hlist (inodes st3) (q_message q) xs.*1).
  { apply (only_ring _ _ _ _ O3); [|by apply (family_hlist _ _ _ _ Fam)].
    destruct Fam as [_ Fd]. by apply (Fd _ _ _ _ Hrs Hms). }
  destruct (free_messages_spec q xs st3 F lv f Rm Hok Hmsg Hf Hfs) as (h4 & s4 & E4 & Hok4 & K4).
  exists h4, s4, k3. split; [|done]. unfold freeque. m_step (lock_ids_done st Hlk).
  m_step (get_msgq_locked st msgid Hids Hid). fold q. rewrite decide_True by done.
  set (st5 := mkIpc (mkIds 16 (i32 (in_use (msg_ids st) - 1)) (ids_seq (msg_ids st)) true
      (<[Z.to_nat (msgid mod 16) := 0]> (entries (msg_ids st)))) (delete q (queues st)) h4 (senders st)
      (receivers st) s4 k3).
  rewrite (bind_done _ _ st1 tt st5); [done|].
  rewrite (bind_done (set_ids _) _ st1 tt st2).
  2:{ unfold set_ids, modify, SEQ_MULTIPLIER. by rewrite Z.rem_mod_nonneg by lia. }
  m_step E3. rewrite (bind_done (expunge_all _ _) _ st3 tt st3).
  2:{ unfold expunge_all. rewrite loop_S. erewrite bind_done; [|m_step (none_left st3 _ R3); done]. done. }
  m_step E4. destruct Hids as (Hs & _). unfold set_ids, set_queues, modify, mbind, M_bind. simpl. by rewrite Hs.
Qed.
End removal.

(** ** Theorems *)
Section theorems.
Context {S K : Type} `{!PageAllocator S} `{!Scheduler K}.
Implicit Types (st : ipc S K) (q m msg : Z) (ms ns : list Z) (rc : msg_receiver) (F : list Z) (lv : list live).

(** C22: a message for a sleeping receiver does not go through the queue.
    [pipeline_send] passes over the receivers that want other types.  If that is all
    of them it changes nothing and answers 0.  Else it takes the first other one off
    the list, and no other: when the message fits its buffer it leaves the message in
    its [r_msg], wakes its process and answers 1.  (When it does not fit, the call
    never returns, whoever sleeps behind that receiver: [pipeline_send_spins].) *)
Theorem pipeline_send_delivers st q msg ns1 ns2 fuel :
  rcv_ok st ns1 → (∀ n, n ∈ ns1 → wants st (mtype_of st msg) n = false) → sch_ok (isch st) →
  (length ns1 < fuel)%nat →
  (hlist (inodes st) (q_receiver q) ns1 → pipeline_send fuel q msg st = Done (false, st)) ∧
  ∀ n rc, hlist (inodes st) (q_receiver q) (ns1 ++ n :: ns2) → receivers st !! n = Some rc →
    wants st (mtype_of st msg) n = true → size_of st msg ≤ rsize rc → known (isch st) (rproc rc) →
    ∃ h' k', pipeline_send fuel q msg st = Done (true, with_receiver n (set_rmsg (Some msg) rc) h' k' st) ∧
      hlist h' (q_receiver q) (ns1 ++ ns2) ∧ woken [rproc rc] (isch st) k'.
Proof.
  intros Hrc Hw Hk Hf. split.
  - intros R. rewrite pipeline_send_eq.
    erewrite bind_done; [|apply (for_in_list_scan (q_receiver q) ns1 _
      (λ n, if decide (n = q_receiver q) then Some false else None)); [done|done|]].
    { rewrite omap_app. simpl. rewrite decide_True by done.
      replace (omap _ ns1) with (@nil bool); [done|]. symmetry. clear -R.
      pose proof (hlist_nodup _ _ _ R) as [Hn _]%NoDup_cons. clear R. induction ns1 as [|x ns1 IH]; [done|].
      simpl. rewrite decide_False by set_solver. apply IH. set_solver. }
    intros n [Hn| ->%list_elem_of_singleton]%elem_of_app.
    + pose proof (hlist_nodup _ _ _ R) as [Hq _]%NoDup_cons. assert (n ≠ q_receiver q) by set_solver.
      rewrite decide_False by done. apply try_unwanted; [done|by apply Hrc|by apply Hw].
    + unfold try_receiver. by rewrite !decide_True.
  - intros n rc R Hn Ht Hs Hp. rewrite pipeline_send_eq.
    destruct (hlist_detach _ _ _ _ _ R) as (h' & E & O & R' & _).
    pose proof (hlist_nodup _ _ _ R) as [Hq _]%NoDup_cons.
    unfold wants in Ht. rewrite Hn in Ht.
    destruct (try_wanted q msg (mtype_of st msg) (size_of st msg) n rc st _ _ ltac:(set_solver) Hn Ht E Hk Hp)
      as (k' & E' & Hk' & W). rewrite bool_decide_true in E' by done.
    exists h', k'. split; [|done].
    erewrite bind_done.
    2:{ rewrite (skip_unwanted fuel q msg ns1 n ns2) by done.
        replace (fuel - length ns1)%nat with (Datatypes.S (fuel - length ns1 - 1)) by lia.
        rewrite loop_S. by m_step (step_exit (q_receiver q) _ n st _ _ E'). }
    done.
Qed.

(** C38: a receiver with a small buffer stops the machine. When the first
    receiver that wants a message has no room for it, [pipeline_send] takes its
    node off the list before the loop steps to [node->next]: the node is then its
    own successor, and the sending CPU stays in the loop for ever, with
    [msg_ids.lock] taken. *)
Theorem pipeline_send_spins st q msg ns1 n ns2 rc :
  hlist (inodes st) (q_receiver q) (ns1 ++ n :: ns2) → rcv_ok st ns1 →
  (∀ x, x ∈ ns1 → wants st (mtype_of st msg) x = false) → receivers st !! n = Some rc →
  wants st (mtype_of st msg) n = true → size_of st msg > rsize rc → sch_ok (isch st) → known (isch st) (rproc rc) →
  ∀ fuel, pipeline_send fuel q msg st = NoFuel.
Proof.
  intros R Hrc Hw Hn Ht Hs Hk Hp fuel. rewrite pipeline_send_eq.
  assert (E : for_in_list fuel (q_receiver q) (try_receiver q msg (mtype_of st msg) (size_of st msg)) st = NoFuel).
  2:{ unfold mbind, M_bind. by rewrite E. }
  rewrite (skip_unwanted fuel q msg ns1 n ns2) by done.
  destruct (fuel - length ns1)%nat as [|f]; [done|]. rewrite loop_S.
  destruct (hlist_detach _ _ _ _ _ R) as (h' & E & O & R' & R1).
  pose proof (hlist_nodup _ _ _ R) as [Hq _]%NoDup_cons. assert (Hnq : n ≠ q_receiver q) by set_solver.
  unfold wants in Ht. rewrite Hn in Ht.
  destruct (try_wanted q msg (mtype_of st msg) (size_of st msg) n rc st _ _ Hnq Hn Ht E Hk Hp)
    as (k' & E' & Hk' & W). rewrite bool_decide_false in E' by lia.
  set (st' := with_receiver _ _ _ _ _) in E'.
  assert (Hnx : get_next n (nodes st') = Done (n, nodes st')) by exact (hlist_first h' n [] R1).
  assert (H0 : n ≠ 0) by (apply (ring_nonnull _ _ _ R1); by left).
  m_step (step_next (q_receiver q) (try_receiver q msg (mtype_of st msg) (size_of st msg)) n st st' n E' Hnq H0 Hnx).
  apply (spins _ _ _ _ _ _ st' (set_rmsg (Some 0) rc)); [done| |done|done|done|done|].
  - apply lookup_insert_eq.
  - by eapply woken_known.
Qed.

(** What [sys_msgrcv] does before it sleeps. It looks for a message of the
    type asked for; with none it answers [ENOMSG] or, when it may wait, joins the
    end of the list of receivers with its type and its size.  One that is too
    large is left where it is and [E2BIG] answered.  Any other is taken off the
    queue, the queue's count goes down, and every process waiting to send is
    woken.  The message is one that fits [mtype], and the first of them unless
    [mtype] is less than -1. *)
Theorem msgrcv_takes st L msgid msgp msgsz mtype msgflg this rcv ms ss ps rs fuel :
  ids_ok st → ids_lock (msg_ids st) = false → 0 ≤ msgid → msgp ≠ 0 → 0 ≤ msgsz →
  let q := named st msgid in let m := pick mtype 0 (typed st ms) in q ≠ 0 →
  family (inodes st) L → L !! q_message q = Some ms → L !! q_sender q = Some ss →
  L !! q_receiver q = Some rs → loose (inodes st) L rcv →
  Forall2 (λ n p, waiter st n = Some p ∧ known (isch st) p) ss ps → sch_ok (isch st) →
  (length ms < fuel)%nat → (length ss < fuel)%nat →
  if decide (m = 0) then
    if decide (Z.land msgflg IPC_NOWAIT ≠ 0) then
      msgrcv_start fuel msgid msgp msgsz mtype msgflg this rcv st = Done (inr (Some ENOMSG), st)
    else ∃ st', msgrcv_start fuel msgid msgp msgsz mtype msgflg this rcv st = Done (inr None, st') ∧
      hlist (inodes st') (q_receiver q) (rs ++ [rcv]) ∧ hlist (inodes st') (q_message q) ms ∧
      receivers st' = <[rcv := mkReceiver this mtype msgsz None]> (receivers st)
  else (∃ l1 l2, ms = l1 ++ m :: l2 ∧ testmsg mtype (mtype_of st m) = true ∧
      (-1 ≤ mtype → ∀ m', m' ∈ l1 → testmsg mtype (mtype_of st m') = false)) ∧
    if decide (size_of st m > msgsz) then
      msgrcv_start fuel msgid msgp msgsz mtype msgflg this rcv st = Done (inr (Some E2BIG), st)
    else ∃ qr st' l1 l2, msgrcv_start fuel msgid msgp msgsz mtype msgflg this rcv st = Done (inl m, st') ∧
      queues st !! q = Some qr ∧
      queues st' = <[q := mkQueue (key qr) (qseq qr) (max_msg qr) (i32 (sum_msg qr - 1))]> (queues st) ∧
      ms = l1 ++ m :: l2 ∧ hlist (inodes st') (q_message q) (l1 ++ l2) ∧ hlist (inodes st') (q_sender q) [] ∧
      woken ps (isch st) (isch st') ∧ pgs st' = pgs st ∧ ids_lock (msg_ids st') = false.
Proof.
  intros Hids Hlk Hid Hmp Hsz q m Hq Fam Hms Hss Hrs Hrcv Hps Hk Hf Hf2.
  set (st1 := set_lock true st).
  pose proof (family_hlist _ _ _ _ Fam Hms) as Rm.
  assert (Estart : msgrcv_start fuel msgid msgp msgsz mtype msgflg this rcv st =
    msgrcv_found fuel q m msgsz mtype msgflg this rcv st1).
  { unfold msgrcv_start. rewrite decide_False by lia. m_step (lock_ids_done st Hlk).
    m_step (get_msgq_locked st msgid Hids Hid). rewrite (decide_False (P := named st msgid = 0)) by done.
    m_step (msgrcv_find_spec st1 q ms mtype fuel Rm Hf). done. }
  rewrite Estart. unfold msgrcv_found. destruct (decide (m = 0)) as [Hm0|Hm0].
  - rewrite (decide_False (P := m ≠ 0)) by (intros ?; done).
    destruct (decide (Z.land msgflg IPC_NOWAIT ≠ 0)) as [Hw|Hw].
    { m_step (unlock_ids_done st1). unfold st1. by rewrite set_lock_id. }
    destruct (family_push_back (inodes st) L (q_receiver q) rs rcv Fam Hrs Hrcv) as (h' & a & E & Fam' & O).
    pose proof (on_nodes_done (S := ipc S K) (p ← get_prev (q_receiver q); _insert_into_list p rcv) st1 _ _ E) as E'.
    m_step E'. eexists. split; [done|]. split; [|split; [|done]].
    + by apply (family_hlist _ _ _ _ Fam'), lookup_insert_eq.
    + apply (family_hlist _ _ _ _ Fam'). by rewrite lookup_insert_ne by (unfold q_receiver, q_message; lia).
  - assert (Hsplit := pick_split st ms mtype ltac:(intros x Hx; apply (ring_nonnull _ _ _ Rm); by right) Hm0).
    fold m in Hsplit.
    split; [done|]. destruct Hsplit as (l1 & l2 & El & _).
    rewrite (decide_True (P := m ≠ 0)) by done. m_step (on_pgs_rd32 (m + 20) st1). fold (size_of st m).
    destruct (decide (size_of st m > msgsz)) as [Hbig|Hbig].
    { rewrite decide_True by done. m_step (unlock_ids_done st1). unfold st1. by rewrite set_lock_id. }
    rewrite decide_False by done. rewrite El in Hms.
    destruct (family_detach _ L (q_message q) l1 m l2 Fam Hms) as (h1 & E1 & Fam1 & _ & _ & _).
    pose proof (on_nodes_done (S := ipc S K) (_detach_from_list m) st1 _ _ E1) as E1'. m_step E1'.
    destruct (named_queue st msgid Hq) as (qr & Hqr & _). fold q in Hqr.
    unfold get_at. unfold mbind at 1, M_bind at 1. simpl. rewrite Hqr.
    unfold set_queues, modify. unfold mbind at 1, M_bind at 1. simpl.
    set (st2 := mkIpc _ _ _ _ _ _ _).
    assert (Hne : q_message q ≠ q_sender q) by (unfold q_message, q_sender; lia).
    assert (Hss1 : <[q_message q := l1 ++ l2]> L !! q_sender q = Some ss) by by rewrite lookup_insert_ne.
    destruct (ss_wakeup_spec (q_sender q) ss st2 ps fuel) as (h2 & k2 & E2 & R2 & O2 & Hk2 & W2);
      [by apply (family_hlist _ _ _ _ Fam1)|done|done|done|].
    m_step E2. exists qr. eexists _, l1, l2. split; [done|]. split; [done|]. split; [done|]. split; [done|].
    split; [|done]. eapply (only_ring _ _ _ _ O2); [|apply (family_hlist _ _ _ _ Fam1), lookup_insert_eq].
    destruct Fam1 as [_ Fd]. apply (Fd _ _ _ _ Hss1 (lookup_insert_eq _ _ _)). done.
Qed.

(** C37: removal of a queue. [sys_msgctl(id, IPC_RMID)] gives the pages of the
    queue's messages back, those of all their segments included, and changes no
    other region, takes the queue out of the
    table, so that no identifier of its place names a queue any more, and wakes
    the receivers.  It wakes them through [ss_wakeup(&q_receiver)], which empties
    the list before [expunge_all] could set their [r_msg]: a receiver's [r_msg]
    stays as it was, and reading it is reading an uninitialised variable.  The
    list of senders is not touched: a process that is not one of the receivers
    stays in the state it is in, asleep for ever if it was sending. *)
Theorem msgctl_removes st L msgid xs rs ps F lv f : ids_ok st → ids_lock (msg_ids st) = false → 0 ≤ msgid →
  let q := named st msgid in q ≠ 0 → family (inodes st) L →
  L !! q_message q = Some xs.*1 → L !! q_receiver q = Some rs →
  Forall2 (λ n p, waiter st n = Some p ∧ known (isch st) p) rs ps → sch_ok (isch st) →
  pa_ok (pgs st) F (msg_pages (all_pages xs) ++ lv) → Forall (msg_ok (pa_mem (pgs st))) xs →
  (length xs ≤ f)%nat → Forall (λ x, length x.2 ≤ f)%nat xs → (length rs ≤ f)%nat →
  ∃ st', sys_msgctl (Datatypes.S f) msgid IPC_RMID st = Done (0, st') ∧
    pa_ok (pgs st') (rev (all_pages xs) ++ F) lv ∧ kept lv (pa_mem (pgs st)) (pa_mem (pgs st')) ∧
    queues st' = delete q (queues st) ∧ ids_lock (msg_ids st') = false ∧
    (∀ id, 0 ≤ id → id mod 16 = msgid mod 16 → get_msgq id st' = Done (0, st')) ∧
    woken ps (isch st) (isch st') ∧
    (∀ n rc, receivers st !! n = Some rc → r_msg rc = None → msgrcv_woken n st' = Crash) ∧
    ∀ p, p ∉ ps → sch_state (isch st') p = sch_state (isch st) p.
Proof.
  intros Hids Hlk Hid q Hq Fam Hms Hrs Hps Hk Hok Hmsg Hf Hfs Hf2.
  destruct (freeque_spec st L msgid xs rs ps F lv f Hids Hlk Hid Hq Fam Hms Hrs Hps Hk Hok Hmsg Hf Hfs Hf2)
    as (h' & s' & k' & E & Hok' & Hkept & W). fold q in E.
  destruct (named_queue st msgid Hq) as (_ & _ & He). apply lookup_lt_Some in He.
  eexists. split; [unfold sys_msgctl; rewrite decide_True by done; by m_step E|].
  split; [done|]. split; [done|]. split; [done|]. split; [done|]. split; [|split; [done|split]].
  - intros id Hid' Hm. apply get_msgq_none; [done|done|]. simpl. by rewrite Hm, list_lookup_insert_eq.
  - intros n rc Hn Hr. unfold msgrcv_woken, get_at, from_option_M, mbind, M_bind. simpl. by rewrite Hn, Hr.
  - intros p Hp. simpl. by rewrite W, decide_False.
Qed.

(** [sys_msgrcv] with a type below -1 does not take the lowest type. With
    messages of types 1 and 2 in this order, asking for types up to 3 ([mtype] -3)
    finds the second: [mtype] goes up by one with each message that fits, not to
    the type found. *)
Theorem msgrcv_not_lowest st q m1 m2 fuel : hlist (inodes st) (q_message q) [m1; m2] →
  mtype_of st m1 = 1 → mtype_of st m2 = 2 → (2 < fuel)%nat →
  msgrcv_find fuel q (-3) st = Done (m2, st).
Proof.
  intros R H1 H2 Hf. rewrite (msgrcv_find_spec st q [m1; m2]) by done. unfold typed. simpl.
  by rewrite H1, H2.
Qed.
End theorems.

(** ** Witnesses *)
#[local] Existing Instance sample_alloc.
#[local] Existing Instance no_timers.

(** The queue at 1000 named 0: a message of type 7 and 12 bytes at the first page
    of the sample memory, with a segment at the second, one process (2000, asleep) that sends and one receiver
    at 1300; the list nodes of senders and receivers [rs]. *)
Definition sample_text : mem :=
  store 4 (sample_page 0 + 16) 7 (store 4 (sample_page 0 + 20) 12 (store64 (sample_page 0 + 24) (sample_page 1) (λ _, 0))).
Definition sample_msgs : list (Z * list Z) := [(sample_page 0, [sample_page 1])].
Definition sample_receiver (n : Z) : msg_receiver := mkReceiver 2000 7 n None.
Definition sample_msgq (h : heap) (n : Z) : ipc kstate (kst unit) :=
  mkIpc (mkIds 16 1 1 false (<[0%nat := 1000]> (replicate 16 0))) {[ 1000 := mkQueue 77 0 256 1 ]} h
    {[ 1200 := 2000 ]} {[ 1300 := sample_receiver n ]} (mkK sample_text 0) (sample_sched false SLEEPING).

(** The heap: a message, a sender, a receiver [rs] on the three lists. *)
Definition sample_heap : heap := {[
  1016 := mkNode (sample_page 0) (sample_page 0); sample_page 0 := mkNode 1016 1016;
  1032 := mkNode 1200 1200; 1200 := mkNode 1032 1032;
  1048 := mkNode 1300 1300; 1300 := mkNode 1048 1048; 1400 := mkNode 0 0 ]}.
Definition sample_lists : gmap Z (list Z) :=
  {[ 1016 := [sample_page 0]; 1032 := [1200]; 1048 := [1300] ]}.

Lemma sample_family : family sample_heap sample_lists.
Proof. apply family_check. by vm_compute. Qed.

Lemma sample_text_ok : pa_ok (mkK sample_text 0) [] (msg_pages (all_pages sample_msgs) ++ []).
Proof.
  split; [by apply Forall_nil|]. exists (sample_queues []). split; [|done]. split; [done|]. split.
  - do 3 apply store_bytes. intros a. split; done.
  - apply (bool_decide_unpack _). by vm_compute.
  - apply (bool_decide_unpack _). by vm_compute.
  - repeat (apply Forall_cons; split; [split; [by vm_compute|]; unfold qrep, chain; by vm_compute|]).
    by apply Forall_nil.
  - repeat (apply Forall_cons; split; [by split|]). by apply Forall_nil.
Qed.

Lemma sample_sch_ok : sch_ok (sample_sched false SLEEPING).
Proof. split; [done|]. exists sample_queue. apply sample_sched_ok. by right. Qed.

Lemma sample_hlist hd l : sample_lists !! hd = Some l → hlist sample_heap hd l.
Proof. apply family_hlist, sample_family. Qed.

Lemma sample_msgq_ids h n : ids_ok (sample_msgq h n).
Proof.
  split; [done|]. split; [done|]. split; [done|]. intros i q Hi Hq. simpl in Hi.
  destruct i as [|i]; [simplify_eq/=; by eexists|].
  apply (lookup_replicate_1 15) in Hi as [-> _]. done.
Qed.

Lemma pipeline_send_delivers_witness : ∃ st',
  pipeline_send 1 1000 (sample_page 0) (sample_msgq sample_heap 12) = Done (true, st').
Proof.
  destruct (pipeline_send_delivers (sample_msgq sample_heap 12) 1000 (sample_page 0) [] [] 1) as [_ H];
    [by intros x ?%elem_of_nil|by intros x ?%elem_of_nil|by apply sample_sch_ok|simpl; lia|].
  destruct (H 1300 (sample_receiver 12)) as (h' & k' & E & _); [by apply sample_hlist|done|by vm_compute| |by exists SLEEPING|].
  - apply (bool_decide_unpack _). by vm_compute.
  - eexists. exact E.
Defined.

Lemma pipeline_send_spins_witness : pipeline_send 1000 1000 (sample_page 0) (sample_msgq sample_heap 4) = NoFuel.
Proof.
  apply (pipeline_send_spins (sample_msgq sample_heap 4) 1000 (sample_page 0) [] 1300 [] (sample_receiver 4));
    [by apply sample_hlist|by intros x ?%elem_of_nil|by intros x ?%elem_of_nil|done|by vm_compute|by vm_compute|
     by apply sample_sch_ok|by exists SLEEPING].
Defined.

Lemma msgrcv_takes_witness : ∃ st',
  msgrcv_start 10 0 0x9000 100 (-7) 0 2000 1400 (sample_msgq sample_heap 12) = Done (inl (sample_page 0), st').
Proof.
  assert (H := msgrcv_takes (sample_msgq sample_heap 12) sample_lists 0 0x9000 100 (-7) 0 2000 1400
    [sample_page 0] [1200] [2000] [1300] 10 (sample_msgq_ids _ _) eq_refl ltac:(done) ltac:(done) ltac:(done)
    ltac:(done) sample_family eq_refl eq_refl eq_refl ltac:(apply loose_check; by vm_compute)
    ltac:(by repeat constructor; exists SLEEPING) sample_sch_ok ltac:(simpl; lia) ltac:(simpl; lia)).
  rewrite decide_False in H by by vm_compute. destruct H as [_ H].
  rewrite decide_False in H by by vm_compute. destruct H as (qr & st' & l1 & l2 & E & _).
  exists st'. exact E.
Defined.

Lemma msgctl_removes_witness : ∃ st', sys_msgctl 2 0 IPC_RMID (sample_msgq sample_heap 12) = Done (0, st') ∧
  msgrcv_woken 1300 st' = Crash ∧ get_msgq 0 st' = Done (0, st').
Proof.
  destruct (msgctl_removes (sample_msgq sample_heap 12) sample_lists 0 sample_msgs [1300] [2000] [] [] 1
    (sample_msgq_ids _ _) eq_refl ltac:(done) ltac:(done) sample_family eq_refl eq_refl
    ltac:(by repeat constructor; exists SLEEPING) sample_sch_ok sample_text_ok)
    as (st' & E & _ & _ & _ & _ & Hg & _ & Hr & _); [|simpl; lia| |simpl; lia|].
  - apply Forall_cons. split; [|by apply Forall_nil]. split; [by apply (bool_decide_unpack _); vm_compute|].
    split; [by vm_compute|]. split; [done|]. split; [by apply (bool_decide_unpack _); vm_compute|by vm_compute].
  - apply Forall_cons. split; [simpl; lia|by apply Forall_nil].
  - exists st'. split; [exact E|]. split; [by apply (Hr 1300 (sample_receiver 12))|by apply Hg].
Defined.

(** Two messages, of types 1 and 2. *)
Definition sample_two : ipc kstate (kst unit) :=
  mkIpc (mkIds 16 1 1 false (<[0%nat := 1000]> (replicate 16 0))) {[ 1000 := mkQueue 77 0 256 2 ]}
    {[ 1016 := mkNode 8192 4096; 4096 := mkNode 1016 8192; 8192 := mkNode 4096 1016 ]} ∅ ∅
    (mkK (store 4 4112 1 (store 4 8208 2 (λ _, 0))) 0) (sample_sched false SLEEPING).

Lemma msgrcv_not_lowest_witness : msgrcv_find 3 1000 (-3) sample_two = Done (8192, sample_two).
Proof.
  apply (msgrcv_not_lowest sample_two 1000 4096 8192 3); [|by vm_compute|by vm_compute|lia].
  apply (bool_decide_unpack _). by vm_compute.
Defined.
