(* ===== verification/Objects.v ===== *)
(** * The interface of the object allocator

    What [kalloc(sizeof(T))] and [kfree] promise to a client that allocates
    objects of one type: the block cache is verified against it. *)
From S2P Require Import Prelude.

(** The addresses [X] are in the hands of clients; [obj_room] is a number of
    objects that are certainly available. *)
Class ObjAlloc (K : Type) := {
  obj_alloc : M K Z;
  obj_free : Z → M K unit;
  obj_ok : K → gset Z → Prop;
  obj_room : K → nat;
  obj_alloc_ok : ∀ k X, obj_ok k X → ∃ p k', obj_alloc k = Done (p, k') ∧
    (p = 0 → obj_room k = 0%nat ∧ obj_ok k' X) ∧
    (p ≠ 0 → 0 < p ∧ p ∉ X ∧ obj_ok k' ({[p]} ∪ X) ∧ (obj_room k ≤ S (obj_room k'))%nat);
  obj_free_ok : ∀ k X p, obj_ok k X → p ∈ X → ∃ k', obj_free p k = Done (tt, k') ∧
    obj_ok k' (X ∖ {[p]}) ∧ (obj_room k ≤ obj_room k')%nat
}.

(** ** An allocator for the witnesses: addresses going up *)
#[export, refine] Instance bump_alloc : ObjAlloc Z := {|
  obj_alloc := λ k, Done (k, k + 4096);
  obj_free := λ _ k, Done (tt, k);
  obj_ok := λ k X, 0 < k ∧ ∀ x, x ∈ X → x < k;
  obj_room := λ _, 1000%nat
|}.
Proof.
  - intros k X [Hk HX]. exists k, (k + 4096). split; [done|]. split; [lia|]. intros _. split; [done|].
    split; [intros Hin%HX; lia|]. split; [|lia]. split; [lia|].
    intros x [->%elem_of_singleton|Hx%HX]%elem_of_union; lia.
  - intros k X p [Hk HX] Hp. exists k. split; [done|]. split; [|lia]. split; [done|].
    intros x [Hx _]%elem_of_difference. by apply HX.
Defined.
