(* ===== verification/Heap.v ===== *)
(** * The heap of the kernel

    [kalloc] and [kfree] beside [kalloc_page] and [kfree_page], as a class over the
    class of the page allocator: objects are regions like pages, cut from pages that
    the allocator takes from the same list.  [kernel/mem.c] implements it, and it
    implements the interface [ObjAlloc] of the clients that only see objects. *)
From S2P Require Import Prelude Words Memory LockFree Kalloc Pages Objects.

(** [kh_live size p] is the region of an object of [size] bytes at [p]. *)
Class KernelHeap (S : Type) `{!PageAllocator S} := {
  kh_alloc : Z → M S Z;
  kh_free : Z → M S unit;
  kh_live : Z → Z → live;
  kh_inside : ∀ size p, 0 < size ≤ 2040 → (kh_live size p).1.1 ≤ p ∧ p + size ≤ (kh_live size p).1.1 + (kh_live size p).1.2;
  kh_pos : ∀ s F lv size p, pa_ok s F (kh_live size p :: lv) → 0 < p;
  kh_alloc_ok : ∀ s F lv size, 0 < size ≤ 2040 → pa_ok s F lv →
    ∃ p s', kh_alloc size s = Done (p, s') ∧ kept lv (pa_mem s) (pa_mem s') ∧
      (p = 0 → F = [] ∧ pa_ok s' F lv) ∧
      (p ≠ 0 → (∀ a, p ≤ a < p + size → pa_mem s' a = 0) ∧
         ∃ F', (F' = F ∨ ∃ q, F = q :: F') ∧ pa_ok s' F' (kh_live size p :: lv));
  kh_free_ok : ∀ s F lv size p, 0 < size ≤ 2040 → pa_ok s F (kh_live size p :: lv) →
    ∃ s', kh_free p s = Done (tt, s') ∧ kept lv (pa_mem s) (pa_mem s') ∧ pa_ok s' F lv
}.

(** ** [kernel/mem.c] implements the interface *)
Section implementation.
Context (free_page pools : Z).
#[local] Instance heap_pages : PageAllocator kstate := mem_c_pages free_page pools.
Implicit Types (p : Z) (s : kstate) (qs : list queue) (lv : list live).

Definition class_of (size : Z) : nat := Z.to_nat (pool_index size).
Definition chunk_of (size p : Z) : live := ((p - 8, csize (class_of size)), Some (pool pools (Z.of_nat (class_of size)))).
Lemma class_fits size : 0 < size ≤ 2040 → pool_index size = Z.of_nat (class_of size) ∧ (class_of size < 9)%nat ∧ size + 8 ≤ csize (class_of size).
Proof.
  intros Hs. destruct (size_class size ltac:(lia)) as (i & Hi & Ei & _ & Hfit & _). unfold class_of. rewrite Ei, Nat2Z.id.
  split; [done|]. split; [lia|]. unfold csize. exact Hfit.
Qed.

Lemma node_nonzero s qs lv (k : nat) h n p l : Kalloc.kwf free_page pools s qs lv → qs !! k = Some ((h, n), p :: l) → p ≠ 0.
Proof.
  intros [_ W] Hk ->. pose proof (wf_queues _ _ _ W) as Q. rewrite Forall_lookup in Q. destruct (Q _ _ Hk) as [_ (_ & Q0 & _)]. done.
Qed.
Lemma heap_alloc s F lv size : 0 < size ≤ 2040 → mem_c_ok free_page pools s F lv →
    ∃ p s', simple_pool_alloc free_page pools size s = Done (p, s') ∧ kept lv (kmem s) (kmem s') ∧
      (p = 0 → F = [] ∧ mem_c_ok free_page pools s' F lv) ∧
      (p ≠ 0 → (∀ a, p ≤ a < p + size → kmem s' a = 0) ∧
         ∃ F', (F' = F ∨ ∃ q, F = q :: F') ∧ mem_c_ok free_page pools s' F' (chunk_of size p :: lv)).
Proof.
  intros Hs (HF & qs & W & E). pose proof W as [Hl _]. destruct (class_fits size Hs) as (Ec & Hi & _).
  destruct (alloc_spec _ _ _ _ _ size W) as (i & r & r' & s' & qs' & Ea & Ei & _ & _ & _ & K & T & H); [unfold PAGE_SIZE; lia|].
  rewrite Ec in Ei. apply Nat2Z.inj in Ei as <-. set (i := class_of size) in *.
  assert (El : lost size qs = [] ∧ after_lost free_page size qs = qs).
  { assert (¬ size > PAGE_SIZE / 2 - 8) by (change (PAGE_SIZE / 2 - 8) with 2040; lia). unfold lost, after_lost. by rewrite !decide_False. }
  destruct El as [E1 E2]. rewrite E1 in H. rewrite E2 in T. cbn [app] in H.
  assert (HF' : (r = 0 → F = [] ∧ free_pages qs' = F) ∧ (free_pages qs' = F ∨ ∃ q, F = q :: free_pages qs')).
  { unfold taken in T. destruct (free_chunks qs i) as [|c l] eqn:Ec'; [destruct (free_pages qs) as [|q F'] eqn:EF|].
    - destruct T as [-> ->]. rewrite EF, <-E. split; [done|by left].
    - destruct T as [-> (l & _ & ->)]. pose proof (layout_pages _ _ _ Hl) as H0. rewrite EF in H0.
      assert (E' : free_pages (<[S i := ((pool pools (Z.of_nat i), csize i), l)]> (<[0%nat := ((free_page, PAGE_SIZE), F')]> qs)) = F').
      { unfold free_pages. rewrite list_lookup_insert_ne, list_lookup_insert_eq by (done || by eapply lookup_lt_Some). done. }
      rewrite E', <-E. split; [intros ->; by destruct (node_nonzero _ _ _ _ _ _ _ _ W H0)|right; by exists q].
    - destruct T as [-> ->]. pose proof (layout_pool _ _ qs i Hl ltac:(lia)) as H1. rewrite Ec' in H1.
      split; [intros ->; by destruct (node_nonzero _ _ _ _ _ _ _ _ W H1)|left]. rewrite <-E. unfold free_pages. by rewrite list_lookup_insert_ne. }
  exists r', s'. split; [exact Ea|]. split; [exact K|]. destruct (decide (r = 0)) as [->|Hr].
  - destruct H as [-> W']. split; [|done]. intros _. destruct HF' as [HF' _]. destruct (HF' eq_refl) as [EF Eq]. split; [done|]. split; [done|]. by exists qs'.
  - destruct H as (-> & Hz & W'). pose proof (kwf_node_pos _ _ _ _ _ _ _ _ W') as Hpos. split; [lia|]. intros _. split; [exact Hz|].
    exists (free_pages qs'). split; [apply HF'|]. split.
    + destruct HF' as [_ [->|[q ->]]]; [done|]. by apply Forall_cons in HF as [_ HF].
    + exists qs'. split; [|done]. unfold chunk_of. fold i. by rewrite Z.add_simpl_r.
Qed.
Lemma heap_free s F lv size p : 0 < size ≤ 2040 → mem_c_ok free_page pools s F (chunk_of size p :: lv) →
  ∃ s', simple_pool_free p s = Done (tt, s') ∧ kept lv (kmem s) (kmem s') ∧ mem_c_ok free_page pools s' F lv.
Proof.
  intros Hs (HF & qs & W & E). destruct (class_fits size Hs) as (_ & Hi & _).
  destruct (free_spec _ _ _ _ _ _ _ Hi W) as (s' & Ef & K & W2). rewrite Z.sub_add in Ef.
  exists s'. split; [exact Ef|]. split; [exact K|]. split; [done|]. eexists. split; [exact W2|].
  unfold free_pages. rewrite list_lookup_insert_ne by done. exact E.
Qed.
#[export, refine] Instance mem_c_heap : KernelHeap kstate := {|
  kh_alloc := simple_pool_alloc free_page pools; kh_free := simple_pool_free; kh_live := chunk_of;
  kh_alloc_ok := heap_alloc; kh_free_ok := heap_free
|}.
Proof.
  - intros size p Hs. destruct (class_fits size Hs) as (_ & _ & Hc). unfold chunk_of. cbn [fst snd]. lia.
  - intros s F lv size p (_ & qs & W & _). apply kwf_node_pos in W. lia.
Defined.
End implementation.

(** ** Objects of one size *)
Section objects.
Context {S : Type} `{!PageAllocator S} `{!KernelHeap S} (size : Z) (size_ok : 0 < size ≤ 2040).
Implicit Types (p : Z) (X : gset Z) (lv : list live).

Lemma object_apart s F lv p l : pa_ok s F (kh_live size p :: lv) → l ∈ lv → apart (kh_live size p).1 l.1.
Proof.
  intros Ho Hl. pose proof (pa_apart _ _ _ Ho) as A. cbn [fmap list_fmap] in A. destruct A as [A _]. rewrite Forall_forall in A.
  exact (A _ (list_elem_of_fmap_2 fst _ _ Hl)).
Qed.
Lemma live_fresh s F lv p q : pa_ok s F (kh_live size p :: lv) → kh_live size q ∈ lv → p ≠ q.
Proof.
  intros Ho Hq ->. pose proof (object_apart _ _ _ _ _ Ho Hq) as A. pose proof (kh_inside size q size_ok). unfold apart in A. lia.
Qed.

(** The second component is a number of objects that are certain. *)
Definition objects X : list live := kh_live size <$> elements X.
Definition objects_ok (k : S * nat) X : Prop := ∃ F others, pa_ok k.1 F (objects X ++ others) ∧ (k.2 ≤ length F)%nat.
Definition on_heap {A} (f : nat → nat) (m : M S A) : M (S * nat) A := λ k,
  match m k.1 with
  | Done (a, s) => Done (a, (s, f k.2))
  | Panic => Panic | Crash => Crash | NoFuel => NoFuel
  end.
Lemma objects_add X p : p ∉ X → objects ({[p]} ∪ X) ≡ₚ kh_live size p :: objects X.
Proof. intros Hp. unfold objects. by rewrite elements_union_singleton. Qed.
Lemma objects_remove X p : p ∈ X → objects X ≡ₚ kh_live size p :: objects (X ∖ {[p]}).
Proof.
  intros Hp. rewrite <-objects_add by set_solver. assert (E : {[p]} ∪ X ∖ {[p]} = X) by (rewrite <-union_difference_singleton_L; done). by rewrite E.
Qed.

Definition heap_objects : ObjAlloc (S * nat).
Proof.
  refine {| obj_alloc := on_heap pred (kh_alloc size); obj_free := λ p, on_heap id (kh_free p); obj_ok := objects_ok; obj_room := snd |}.
  - intros [s n] X (F & others & Ho & Hn). cbn [fst snd] in *. destruct (kh_alloc_ok _ _ _ size size_ok Ho) as (p & s' & E & _ & H0 & H1).
    exists p, (s', pred n). split; [unfold on_heap; cbn [fst snd]; by rewrite E|]. cbn [fst snd]. split.
    + intros Hp. destruct (H0 Hp) as [-> Ho']. cbn in Hn. split; [lia|]. exists [], others. split; [exact Ho'|cbn; lia].
    + intros Hp. destruct (H1 Hp) as (_ & F' & HF & Ho'). split; [by eapply kh_pos|].
      assert (Hx : p ∉ X).
      { intros Hin. eapply live_fresh; [exact Ho'| |reflexivity]. apply elem_of_app. left. apply list_elem_of_fmap_2. by apply elem_of_elements. }
      split; [exact Hx|]. split; [|lia]. exists F', others. split.
      * eapply pa_perm; [|exact Ho']. cbn [fst]. rewrite (objects_add X p Hx). done.
      * cbn [snd]. destruct HF as [->|[q ->]]; cbn in Hn; lia.
  - intros [s n] X p (F & others & Ho & Hn) Hp. cbn [fst snd] in *.
    assert (Ho1 : pa_ok s F (kh_live size p :: (objects (X ∖ {[p]}) ++ others))) by (eapply pa_perm; [|exact Ho]; by rewrite (objects_remove X p Hp)).
    destruct (kh_free_ok _ _ _ _ _ size_ok Ho1) as (s' & E & _ & Ho'). exists (s', n). split; [unfold on_heap; cbn [fst snd]; by rewrite E|].
    split; [|done]. by exists F, others.
Defined.
End objects.

Definition sample_heap : @KernelHeap kstate sample_alloc := mem_c_heap 256 512.
