(* ===== verification/Cache.v ===== *)
(** * The block cache and its log ([fs/cache.c], [fs/cache.h], [fs/defines.h])

    A [struct Block] is at the address [kalloc] answered for it, its list node 8
    bytes in; the list [head] is a circular list of [Lists.v], whose head node the
    model puts at address 8.  The block device is behind [fs/block_device.h]: a
    map from block numbers to contents, with the sequence of writes it has been
    asked for.  Semaphores are their values ([Sem.v] verifies what wait and post
    do); a process that has to sleep does not return ([NoFuel]). *)
From S2P Require Import Prelude Words Atomics Lists.
From S2P Require Export Objects.

Definition BLOCK_SIZE : Z := 512.
Definition LOG_MAX_SIZE : Z := (BLOCK_SIZE - 8) / 8.
Definition BIT_PER_BLOCK : Z := BLOCK_SIZE * 8.
Definition OP_MAX_NUM_BLOCKS : Z := 10.
Definition EVICTION_THRESHOLD : Z := 20.

Record SuperBlock := mkSuper {
  num_blocks : Z; num_data_blocks : Z; num_inodes : Z; num_log_blocks : Z;
  log_start : Z; inode_start : Z; bitmap_start : Z
}.

(** [num_blocks] and [block_no] of a [LogHeader]. *)
Record LogHeader := mkHeader { hnum : Z; hblocks : list Z }.

(** [sem] of a [Block] is never used. *)
Record Block := mkBlock {
  block_no : Z; acquired : bool; pinned : bool; lock_val : Z; valid : bool; data : list Z
}.
Record LOG := mkLog {
  llock : SpinLock; lsem : Z; outstandingsem : Z; outstanding : Z; committing : Z; mu : Z; mx : Z
}.

Record device := mkDev { disk : Z → list Z; written : list (Z * list Z) }.

(** Replacing the content of one block. *)
Definition put (n : Z) (d : list Z) (f : Z → list Z) : Z → list Z := λ m, if decide (m = n) then d else f m.

Lemma put_eq n d f : put n d f n = d.
Proof. unfold put. by rewrite decide_True. Qed.
Lemma put_ne n m d f : m ≠ n → put n d f m = f m.
Proof. intros. unfold put. by rewrite decide_False. Qed.

(** ** Words in blocks: little endian *)
Fixpoint le_bytes (n : nat) (v : Z) : list Z :=
  match n with O => [] | S n => v mod 256 :: le_bytes n (v / 256) end.
Fixpoint le_val (l : list Z) : Z :=
  match l with [] => 0 | b :: l => b + 256 * le_val l end.
(** [k] pieces of [n] elements. *)
Fixpoint pieces (n k : nat) (l : list Z) : list (list Z) :=
  match k with O => [] | S k => take n l :: pieces n k (drop n l) end.

Definition header_bytes (h : LogHeader) : list Z := mjoin (le_bytes 8 <$> hnum h :: hblocks h).
Definition header_of (d : list Z) : LogHeader :=
  let ws := le_val <$> pieces 8 64 d in mkHeader (default 0 (ws !! 0%nat)) (drop 1 ws).

Lemma length_le_bytes n v : length (le_bytes n v) = n.
Proof. revert v. induction n as [|n IH]; intros v; [done|]. simpl. by rewrite IH. Qed.

Lemma le_val_bytes n v : 0 ≤ v < 256 ^ Z.of_nat n → le_val (le_bytes n v) = v.
Proof.
  revert v. induction n as [|n IH]; intros v Hv; [simpl in *; lia|].
  assert (256 ^ Z.of_nat (S n) = 256 * 256 ^ Z.of_nat n) as Hp.
  { rewrite Nat2Z.inj_succ, Z.pow_succ_r by lia. done. }
  cbn [le_bytes le_val]. rewrite IH; [pose proof (Z.div_mod v 256 ltac:(lia)); lia|].
  split; [apply Z.div_pos; lia|]. apply Z.div_lt_upper_bound; lia.
Qed.

Lemma pieces_bytes n ws : pieces n (length ws) (mjoin (le_bytes n <$> ws)) = le_bytes n <$> ws.
Proof.
  induction ws as [|w ws IH]; [done|]. rewrite fmap_cons.
  change (mjoin (le_bytes n w :: (le_bytes n <$> ws))) with (le_bytes n w ++ mjoin (le_bytes n <$> ws)). cbn [length pieces].
  rewrite take_app_length', drop_app_length' by (symmetry; apply length_le_bytes). by rewrite IH.
Qed.

Lemma le_val_words n ws : Forall (λ v, 0 ≤ v < 256 ^ Z.of_nat n) ws → le_val <$> (le_bytes n <$> ws) = ws.
Proof.
  induction 1 as [|w ws Hw _ IH]; [done|]. rewrite !fmap_cons, IH. f_equal. by apply le_val_bytes.
Qed.

(** What [write_header] writes, [read_header] reads. *)
Lemma header_of_bytes h : in_u 64 (hnum h) → Forall (in_u 64) (hblocks h) → length (hblocks h) = 63%nat →
  header_of (header_bytes h) = h.
Proof.
  intros Hn Hb Hl. unfold header_of, header_bytes.
  replace 64%nat with (length (hnum h :: hblocks h)) by (simpl; by rewrite Hl).
  rewrite pieces_bytes, le_val_words by by constructor. by destruct h.
Qed.

(** ** The state *)
Record cache (K : Type) := mkCache {
  sblock : SuperBlock; dev : device; lock : SpinLock; header : LogHeader; log : LOG;
  cnodes : heap; cblocks : gmap Z Block; ctxs : gmap Z Z; objs : K
}.
Arguments mkCache {K}.
Arguments sblock {K}.
Arguments dev {K}.
Arguments lock {K}.
Arguments header {K}.
Arguments log {K}.
Arguments cnodes {K}.
Arguments cblocks {K}.
Arguments ctxs {K}.
Arguments objs {K}.

#[export, refine] Instance cache_nodes K : HasNodes (cache K) := {|
  nodes := cnodes;
  set_nodes := λ h s, mkCache (sblock s) (dev s) (lock s) (header s) (log s) h (cblocks s) (ctxs s) (objs s)
|}.
Proof. all: try done. by intros []. Defined.

(** The static variable [head]. *)
Definition cache_head : Z := 8.
(** [&block->node] and [container_of(p, Block, node)]. *)
Definition bnode (b : Z) : Z := b + 8.
Definition block_of (p : Z) : Z := p - 8.

Section operations.
Context {K : Type} `{!ObjAlloc K}.
Abbreviation M := (M (cache K)).

Definition set_dev (d : device) (s : cache K) : cache K :=
  mkCache (sblock s) d (lock s) (header s) (log s) (cnodes s) (cblocks s) (ctxs s) (objs s).
Definition set_header (h : LogHeader) (s : cache K) : cache K :=
  mkCache (sblock s) (dev s) (lock s) h (log s) (cnodes s) (cblocks s) (ctxs s) (objs s).
Definition set_log (l : LOG) (s : cache K) : cache K :=
  mkCache (sblock s) (dev s) (lock s) (header s) l (cnodes s) (cblocks s) (ctxs s) (objs s).
Definition set_blocks (m : gmap Z Block) (s : cache K) : cache K :=
  mkCache (sblock s) (dev s) (lock s) (header s) (log s) (cnodes s) m (ctxs s) (objs s).
Definition set_ctxs (m : gmap Z Z) (s : cache K) : cache K :=
  mkCache (sblock s) (dev s) (lock s) (header s) (log s) (cnodes s) (cblocks s) m (objs s).
Definition set_lock (b : SpinLock) (s : cache K) : cache K :=
  mkCache (sblock s) (dev s) b (header s) (log s) (cnodes s) (cblocks s) (ctxs s) (objs s).
Definition on_objs {A} (m : Prelude.M K A) : M A := λ s,
  match m (objs s) with
  | Done (a, k) => Done (a, mkCache (sblock s) (dev s) (lock s) (header s) (log s) (cnodes s) (cblocks s) (ctxs s) k)
  | Panic => Panic | Crash => Crash | NoFuel => NoFuel
  end.
Definition on_lock {A} (m : Prelude.M SpinLock A) : M A := λ s,
  match m (lock s) with
  | Done (a, l) => Done (a, set_lock l s)
  | Panic => Panic | Crash => Crash | NoFuel => NoFuel
  end.
Definition get_block (b : Z) : M Block := λ s,
  match cblocks s !! b with Some B => Done (B, s) | None => Crash end.
Definition set_block (b : Z) (B : Block) : M unit := modify (λ s, set_blocks (<[b := B]> (cblocks s)) s).
(** The process sleeps: this run does not go on. *)
Definition sleep {A} : M A := nofuel.

Definition device_write_to (no : Z) (d : list Z) : M unit := modify (λ s,
  set_dev (mkDev (put no d (disk (dev s))) (written (dev s) ++ [(no, d)])) s).

Definition device_read (b : Z) : M unit :=
  B ← get_block b;
  d ← gets (λ s, disk (dev s) (block_no B));
  set_block b (mkBlock (block_no B) (acquired B) (pinned B) (lock_val B) (valid B) d).
Definition device_write (b : Z) : M unit :=
  B ← get_block b; device_write_to (block_no B) (data B).
Definition read_header : M unit :=
  modify (λ s, set_header (header_of (disk (dev s) (log_start (sblock s)))) s).
Definition write_header : M unit :=
  s ← get; device_write_to (log_start (sblock s)) (header_bytes (header s)).

(** [kalloc(sizeof(Block))]: the memory of the block appears, with some content. *)
Definition kalloc_block : M Z :=
  b ← on_objs obj_alloc;
  (if decide (b = 0) then mret tt
   else
     set_block b (mkBlock 0 false false 0 false []);;
     on_nodes (modify (<[bnode b := mkNode 0 0]>)));;
  mret b.
Definition kfree_block (b : Z) : M unit :=
  on_objs (obj_free b);;
  modify (λ s, set_blocks (delete b (cblocks s)) s);;
  on_nodes (modify (delete (bnode b))).

Definition init_block (b : Z) : M unit :=
  B ← get_block b;
  set_block b (mkBlock 0 (acquired B) (pinned B) (lock_val B) (valid B) (data B));;
  on_nodes (init_list_node (bnode b));;
  set_block b (mkBlock 0 false false 1 false (replicate 512 0)).

(** [unalertable_acquire_sleeplock] and [release_sleeplock]. *)
Definition acquire_sleeplock (b : Z) : M unit :=
  B ← get_block b;
  set_block b (mkBlock (block_no B) (acquired B) (pinned B) (lock_val B - 1) (valid B) (data B));;
  if decide (lock_val B - 1 >= 0) then mret tt else sleep.
Definition release_sleeplock (b : Z) : M unit :=
  B ← get_block b;
  set_block b (mkBlock (block_no B) (acquired B) (pinned B) (lock_val B + 1) (valid B) (data B)).

Definition get_num_cached_blocks (fuel : nat) : M Z :=
  p ← on_nodes (get_next cache_head);
  loop fuel (λ '(p, ret),
    if decide (p ≠ cache_head) then p' ← on_nodes (get_next p); mret (inl (p', ret + 1))
    else mret (inr ret)) (p, 0).

(** The search at the start of [cache_acquire]. *)
Definition find_block (fuel : nat) (no : Z) : M (option Z) :=
  p ← on_nodes (get_next cache_head);
  loop fuel (λ p,
    if decide (p ≠ cache_head) then
      B ← get_block (block_of p);
      if decide (block_no B = no) then mret (inr (Some p))
      else p' ← on_nodes (get_next p); mret (inl p')
    else mret (inr None)) p.

(** The eviction in [cache_acquire]. *)
Definition evict (fuel : nat) (sz : Z) : M unit :=
  if decide (sz >= EVICTION_THRESHOLD) then
    q ← on_nodes (get_prev cache_head);
    loop fuel (λ '(q, sz),
      if decide (sz >= EVICTION_THRESHOLD ∧ q ≠ cache_head) then
        B ← get_block (block_of q);
        if negb (pinned B) && negb (acquired B) then
          t ← on_nodes (_detach_from_list q);
          kfree_block (block_of q);;
          mret (inl (t, sz - 1))
        else q' ← on_nodes (get_prev q); mret (inl (q', sz))
      else mret (inr tt)) (q, sz)
  else mret tt.

Definition cache_acquire (fuel : nat) (no : Z) : M Z :=
  on_lock (_acquire_spinlock 1);;
  found ← find_block fuel no;
  match found with
  | Some p =>
      on_nodes (_detach_from_list p);;
      on_nodes (_merge_list cache_head p);;
      on_lock _release_spinlock;;
      acquire_sleeplock (block_of p);;
      mret (block_of p)
  | None =>
      sz ← get_num_cached_blocks fuel;
      evict fuel sz;;
      b ← kalloc_block;
      init_block b;;
      on_nodes (_merge_list cache_head (bnode b));;
      d ← gets (λ s, disk (dev s) no);
      B ← get_block b;
      set_block b (mkBlock no true (pinned B) (lock_val B) true d);;
      on_lock _release_spinlock;;
      acquire_sleeplock b;;
      mret b
  end.

Definition cache_release (b : Z) : M unit :=
  B ← get_block b;
  set_block b (mkBlock (block_no B) false (pinned B) (lock_val B) (valid B) (data B));;
  release_sleeplock b.

(** [memmove(to->data, from->data, BLOCK_SIZE)]. *)
Definition copy_data (to from : Z) : M unit :=
  F ← get_block from; T ← get_block to;
  set_block to (mkBlock (block_no T) (acquired T) (pinned T) (lock_val T) (valid T) (data F)).
Definition set_pinned (b : Z) (v : bool) : M unit :=
  B ← get_block b;
  set_block b (mkBlock (block_no B) (acquired B) v (lock_val B) (valid B) (data B)).
(** [header.block_no[i]]; an index out of the array is an error. *)
Definition header_block (i : Z) : M Z := s ← get; from_option_M (hblocks (header s) !! Z.to_nat i).

Definition install_trans (fuel : nat) (recovering : bool) : M unit :=
  loop fuel (λ tail,
    s ← get;
    if decide (tail < hnum (header s)) then
      lbuf ← cache_acquire fuel (u32 (log_start (sblock s) + tail + 1));
      no ← header_block tail;
      dbuf ← cache_acquire fuel no;
      copy_data dbuf lbuf;;
      device_write dbuf;;
      (if recovering then set_pinned dbuf false else mret tt);;
      cache_release lbuf;;
      cache_release dbuf;;
      mret (inl (u32 (tail + 1)))
    else mret (inr tt)) 0.

Definition clear_header : M unit := modify (λ s, set_header (mkHeader 0 (hblocks (header s))) s).

Definition recover_from_log (fuel : nat) : M unit :=
  read_header;; install_trans fuel true;; clear_header;; write_header.

Definition init_bcache (fuel : nat) (sb : SuperBlock) : M unit :=
  modify (λ s, mkCache sb (dev s) (lock s) (header s) (log s) (cnodes s) (cblocks s) (ctxs s) (objs s));;
  on_nodes (init_list_node cache_head);;
  on_lock init_spinlock;;
  modify (λ s, let g := log s in
    set_log (mkLog false 0 0 (outstanding g) (committing g) 0 (MIN (u32 (num_log_blocks sb - 1)) LOG_MAX_SIZE)) s);;
  recover_from_log fuel.

Definition write_log (fuel : nat) : M unit :=
  loop fuel (λ tail,
    s ← get;
    if decide (tail < hnum (header s)) then
      no ← header_block tail;
      from ← cache_acquire fuel no;
      to ← cache_acquire fuel (u32 (log_start (sblock s) + tail + 1));
      copy_data to from;;
      device_write to;;
      cache_release from;;
      cache_release to;;
      mret (inl (u32 (tail + 1)))
    else mret (inr tt)) 0.

Definition commit (fuel : nat) : M unit :=
  s ← get;
  if decide (hnum (header s) > 0) then
    write_log fuel;; write_header;; install_trans fuel false;; clear_header;; write_header
  else mret tt.

(** *** Atomic operations *)
Definition on_log_lock {A} (m : Prelude.M SpinLock A) : M A := λ s,
  let g := log s in
  match m (llock g) with
  | Done (a, l) => Done (a, set_log (mkLog l (lsem g) (outstandingsem g) (outstanding g) (committing g) (mu g) (mx g)) s)
  | Panic => Panic | Crash => Crash | NoFuel => NoFuel
  end.
Definition modify_log (f : LOG → LOG) : M unit := modify (λ s, set_log (f (log s)) s).
(** The value of a semaphore after a wait that may sleep, and after [post_all_sem]. *)
Definition wait_val (v : Z) : Z := v - 1.
Definition post_all_val (v : Z) : Z := Z.max v 0.
Definition get_ctx (c : Z) : M Z := s ← get; from_option_M (ctxs s !! c).
Definition set_ctx (c rm : Z) : M unit := modify (λ s, set_ctxs (<[c := rm]> (ctxs s)) s).

(** One turn of the loop of [cache_begin_op]: [false] when the process waits on
    [log.sem], to come back for another turn. *)
Definition begin_try (ctx : Z) : M bool :=
  on_log_lock (_acquire_spinlock 1);;
  s ← get;
  let g := log s in
  if decide (committing g ≠ 0 ∨ u64 (u64 (hnum (header s) + mu g) + OP_MAX_NUM_BLOCKS) > u64 (mx g)) then
    modify_log (λ g, mkLog (llock g) (wait_val (lsem g)) (outstandingsem g) (outstanding g) (committing g) (mu g) (mx g));;
    on_log_lock _release_spinlock;;
    mret false
  else
    modify_log (λ g, mkLog (llock g) (lsem g) (outstandingsem g) (i32 (outstanding g + 1)) (committing g)
                       (i32 (mu g + OP_MAX_NUM_BLOCKS)) (mx g));;
    set_ctx ctx OP_MAX_NUM_BLOCKS;;
    on_log_lock _release_spinlock;;
    mret true.

(** [cache_begin_op]; a process that has to wait does not return. *)
Definition cache_begin_op (ctx : Z) : M unit :=
  ok ← begin_try ctx;
  if (ok : bool) then mret tt else sleep.

(** The place of a block in the header, [cnt] if it has none. *)
Fixpoint find_logged (bs : list Z) (no : Z) (i : nat) (cnt : nat) : nat :=
  match cnt with
  | O => i
  | S cnt => if decide (bs !! i = Some no) then i else find_logged bs no (S i) cnt
  end.

Definition cache_sync (ctx b : Z) : M unit :=
  if decide (ctx ≠ 0) then
    on_log_lock (_acquire_spinlock 1);;
    s ← get;
    let g := log s in let h := header s in
    assert (negb (bool_decide (hnum h >= u64 (mx g))));;
    assert (negb (bool_decide (outstanding g < 1)));;
    B ← get_block b;
    let i := find_logged (hblocks h) (block_no B) 0 (Z.to_nat (hnum h)) in
    (if decide (i < length (hblocks h))%nat then
       modify (λ s, set_header (mkHeader (hnum (header s)) (<[i := block_no B]> (hblocks (header s)))) s)
     else crash);;
    (if decide (Z.of_nat i = hnum h) then
       modify (λ s, set_header (mkHeader (u64 (hnum (header s) + 1)) (hblocks (header s))) s);;
       set_pinned b true;;
       rm ← get_ctx ctx;
       if decide (rm > 0) then
         set_ctx ctx (rm - 1);;
         modify_log (λ g, mkLog (llock g) (lsem g) (outstandingsem g) (outstanding g) (committing g) (i32 (mu g - 1)) (mx g))
       else panic
     else mret tt);;
    on_log_lock _release_spinlock
  else device_write b.

(** [cache_end_op] up to the commit: [true] if this operation commits, [false]
    if it waits on [outstandingsem] for another one to do so. *)
Definition end_first (ctx : Z) : M bool :=
  on_log_lock (_acquire_spinlock 1);;
  rm ← get_ctx ctx;
  modify_log (λ g, mkLog (llock g) (lsem g) (outstandingsem g) (i32 (outstanding g - 1)) (committing g) (i32 (mu g - rm)) (mx g));;
  s ← get;
  assert (bool_decide (committing (log s) = 0));;
  if decide (outstanding (log s) = 0) then
    modify_log (λ g, mkLog (llock g) (lsem g) (outstandingsem g) (outstanding g) 1 (mu g) (mx g));;
    on_log_lock _release_spinlock;;
    mret true
  else
    modify_log (λ g, mkLog (llock g) (post_all_val (lsem g)) (wait_val (outstandingsem g)) (outstanding g) (committing g) (mu g) (mx g));;
    on_log_lock _release_spinlock;;
    mret false.

Definition end_commit (fuel : nat) : M unit :=
  commit fuel;;
  on_log_lock (_acquire_spinlock 1);;
  modify_log (λ g, mkLog (llock g) (post_all_val (lsem g)) (post_all_val (outstandingsem g)) (outstanding g) 0 (mu g) (mx g));;
  on_log_lock _release_spinlock.

Definition cache_end_op (fuel : nat) (ctx : Z) : M unit :=
  do_commit ← end_first ctx;
  if (do_commit : bool) then end_commit fuel else mret tt.

(** *** Allocation of disk blocks *)
Definition BBLOCK (b : Z) (sb : SuperBlock) : Z := u64 (b / BIT_PER_BLOCK + bitmap_start sb).

Definition set_data (b : Z) (d : list Z) : M unit :=
  B ← get_block b;
  set_block b (mkBlock (block_no B) (acquired B) (pinned B) (lock_val B) (valid B) d).
(** [block->data[i]]; an index out of the array is an error. *)
Definition get_byte (b i : Z) : M Z := B ← get_block b; from_option_M (data B !! Z.to_nat i).
Definition set_byte (b i v : Z) : M unit := B ← get_block b; set_data b (<[Z.to_nat i := v]> (data B)).

Definition bzero (fuel : nat) (ctx no : Z) : M unit :=
  bp ← cache_acquire fuel no;
  set_data bp (replicate 512 0);;
  cache_sync ctx bp;;
  cache_release bp.

(** The inner loop of [cache_alloc], on the bitmap block [bp] that begins with
    the bit of block [b]. *)
Definition alloc_scan (fuel : nat) (ctx b bp : Z) : M (option Z) :=
  loop fuel (λ bi,
    s ← get;
    if decide (bi < BIT_PER_BLOCK ∧ u32 (b + bi) < num_blocks (sblock s)) then
      let m := u32 (Z.shiftl 1 (bi mod 8)) in
      v ← get_byte bp (bi / 8);
      if decide (Z.land v (u8 m) = 0) then
        set_byte bp (bi / 8) (Z.lor v (u8 m));;
        cache_sync ctx bp;;
        cache_release bp;;
        bzero fuel ctx (u32 (b + bi));;
        mret (inr (Some (u32 (b + bi))))
      else mret (inl (u32 (bi + 1)))
    else mret (inr None)) 0.

Definition cache_alloc (fuel : nat) (ctx : Z) : M Z :=
  loop fuel (λ b,
    s ← get;
    if decide (b < num_blocks (sblock s)) then
      bp ← cache_acquire fuel (BBLOCK b (sblock s));
      r ← alloc_scan fuel ctx b bp;
      match r with
      | Some n => mret (inr n)
      | None => cache_release bp;; mret (inl (u32 (b + BIT_PER_BLOCK)))
      end
    else panic) 0.

Definition cache_free (fuel : nat) (ctx no : Z) : M unit :=
  s ← get;
  bp ← cache_acquire fuel (BBLOCK no (sblock s));
  let bi := no mod BIT_PER_BLOCK in
  let m := Z.shiftl 1 (bi mod 8) in
  v ← get_byte bp (bi / 8);
  assert (negb (bool_decide (Z.land v m = 0)));;
  set_byte bp (bi / 8) (u8 (Z.land v (Z.lnot m)));;
  cache_sync ctx bp;;
  cache_release bp.
End operations.

