(* ===== verification/CacheSpec.v ===== *)
(** * What the block cache does

    Specifications of the operations of [Cache.v] in terms of the sequence of
    cached blocks and of the contents of blocks as a reader of the cache sees
    them. *)
From S2P Require Import Prelude Words Atomics Lists Cache.

Section lists.
Context {K : Type} `{!ObjAlloc K}.
Implicit Types (st : cache K) (l pre : list Z) (b p no : Z) (B : Block).

Lemma bnode_inj : Inj (=) (=) bnode.
Proof. intros x y. unfold bnode. lia. Qed.
#[local] Existing Instance bnode_inj.

Lemma block_of_bnode b : block_of (bnode b) = b.
Proof. unfold block_of, bnode. lia. Qed.

(** [l] are the addresses of the cached blocks, in the order of the list. *)
Record rep st l : Prop := {
  r_list : hlist (cnodes st) cache_head (bnode <$> l);
  r_blocks : ∀ b, is_Some (cblocks st !! b) ↔ b ∈ l;
  r_objs : obj_ok (objs st) (list_to_set l)
}.

(** At most one block per number. *)
Definition uniq st : Prop := ∀ b1 b2 B1 B2, cblocks st !! b1 = Some B1 → cblocks st !! b2 = Some B2 →
  block_no B1 = block_no B2 → b1 = b2.

Lemma rep_nodup st l : rep st l → NoDup l.
Proof.
  intros R. pose proof (hlist_nodup _ _ _ (r_list _ _ R)) as [_ N]%NoDup_cons. by apply NoDup_fmap_1 in N.
Qed.

Lemma rep_head st l b : rep st l → b ∈ l → bnode b ≠ cache_head.
Proof.
  intros R Hb E. pose proof (hlist_nodup _ _ _ (r_list _ _ R)) as [N _]%NoDup_cons. apply N.
  rewrite <-E. by apply list_elem_of_fmap_2.
Qed.

Lemma nodes_done {A} (m : M heap A) st a h : m (cnodes st) = Done (a, h) →
  on_nodes m st = Done (a, set_nodes (S := cache K) h st).
Proof. exact (on_nodes_done (S := cache K) m st a h). Qed.

Lemma next_done st p q : get_next p (cnodes st) = Done (q, cnodes st) →
  on_nodes (get_next p) st = Done (q, st).
Proof. intros E. rewrite (nodes_done _ _ _ _ E). by destruct st. Qed.
Lemma prev_done st p q : get_prev p (cnodes st) = Done (q, cnodes st) →
  on_nodes (get_prev p) st = Done (q, st).
Proof. intros E. rewrite (nodes_done _ _ _ _ E). by destruct st. Qed.

Lemma rep_first st l : rep st l → on_nodes (get_next cache_head) st = Done (default cache_head (hd_error (bnode <$> l)), st).
Proof. intros R. apply next_done, hlist_first, R. Qed.
Lemma rep_last st l : rep st l → on_nodes (get_prev cache_head) st = Done (default cache_head (last (bnode <$> l)), st).
Proof. intros R. apply prev_done, hlist_last, R. Qed.
Lemma rep_next st l1 b l2 : rep st (l1 ++ b :: l2) →
  on_nodes (get_next (bnode b)) st = Done (default cache_head (hd_error (bnode <$> l2)), st).
Proof.
  intros R. apply next_done. eapply hlist_next. pose proof (r_list _ _ R) as L.
  rewrite fmap_app, fmap_cons in L. exact L.
Qed.

Lemma rep_prev st l1 b l2 : rep st (l1 ++ b :: l2) →
  on_nodes (get_prev (bnode b)) st = Done (default cache_head (last (bnode <$> l1)), st).
Proof.
  intros R. apply prev_done. pose proof (r_list _ _ R) as L. rewrite fmap_app, fmap_cons in L.
  apply get_prev_eq.
  - apply (ring_nonnull _ _ _ L). right. apply elem_of_app. right. by left.
  - destruct L as (_ & _ & L). apply seg_app in L as [L _]. by apply seg_prv in L.
Qed.

Lemma get_block_done st b B : cblocks st !! b = Some B → get_block b st = Done (B, st).
Proof. intros H. unfold get_block. by rewrite H. Qed.

Lemma rep_block st l b : rep st l → b ∈ l → ∃ B, cblocks st !! b = Some B.
Proof. intros R Hb. by apply (r_blocks _ _ R) in Hb. Qed.

(** ** The search *)
Lemma find_block_spec st l no fuel : rep st l → (length l < fuel)%nat →
  ∃ r, find_block fuel no st = Done (r, st) ∧
    match r with
    | Some p => ∃ l1 b l2 B, l = l1 ++ b :: l2 ∧ p = bnode b ∧ cblocks st !! b = Some B ∧ block_no B = no
    | None => ∀ b B, cblocks st !! b = Some B → block_no B ≠ no
    end.
Proof.
  intros R Hf. unfold find_block. m_step (rep_first st l R). set (body := λ p : Z, _).
  enough (G : ∀ l2 l1 fuel, l = l1 ++ l2 → (length l2 < fuel)%nat →
    (∀ b B, b ∈ l1 → cblocks st !! b = Some B → block_no B ≠ no) →
    ∃ r, loop fuel body (default cache_head (hd_error (bnode <$> l2))) st = Done (r, st) ∧
      match r with
      | Some p => ∃ l1 b l2 B, l = l1 ++ b :: l2 ∧ p = bnode b ∧ cblocks st !! b = Some B ∧ block_no B = no
      | None => ∀ b B, cblocks st !! b = Some B → block_no B ≠ no
      end).
  { apply (G l []); [done..|]. by intros b B ?%elem_of_nil. }
  clear fuel Hf. induction l2 as [|b l2 IH]; intros l1 fuel El Hf Hno;
    (destruct fuel as [|fuel]; [simpl in Hf; lia|]); rewrite loop_S; simpl.
  - exists None. split.
    { rewrite (bind_done _ _ st (inr None) st); [done|]. unfold body. by rewrite decide_False by (intros H; by apply H). }
    intros b B HB. apply (Hno b B); [|done]. rewrite app_nil_r in El. subst l1. apply (r_blocks _ _ R). by exists B.
  - assert (Hb : b ∈ l) by (rewrite El; apply elem_of_app; right; by left).
    destruct (rep_block _ _ _ R Hb) as [B HB].
    destruct (decide (block_no B = no)) as [E|E].
    + exists (Some (bnode b)). split; [|by exists l1, b, l2, B].
      rewrite (bind_done _ _ st (inr (Some (bnode b))) st); [done|].
      unfold body. rewrite decide_True by (by eapply rep_head). rewrite block_of_bnode.
      m_step (get_block_done _ _ _ HB). by rewrite decide_True.
    + destruct (IH (l1 ++ [b]) fuel) as (r & Er & Hr); [by rewrite <-app_assoc|simpl in Hf; lia| |].
      { intros b' B' [Hb'| ->%list_elem_of_singleton]%elem_of_app HB'; [by eapply Hno|congruence]. }
      exists r. split; [|done].
      rewrite (bind_done _ _ st (inl (default cache_head (hd_error (bnode <$> l2)))) st); [done|].
      unfold body. rewrite decide_True by (by eapply rep_head). rewrite block_of_bnode.
      m_step (get_block_done _ _ _ HB). rewrite decide_False by done.
      rewrite El in R. by m_step (rep_next st l1 b l2 R).
Qed.

Lemma get_num_spec st l fuel : rep st l → (length l < fuel)%nat →
  get_num_cached_blocks fuel st = Done (Z.of_nat (length l), st).
Proof.
  intros R Hf. unfold get_num_cached_blocks. m_step (rep_first st l R). set (body := λ '(p, ret), _).
  enough (G : ∀ l2 l1 fuel ret, l = l1 ++ l2 → (length l2 < fuel)%nat →
    loop fuel body (default cache_head (hd_error (bnode <$> l2)), ret) st = Done (ret + Z.of_nat (length l2), st)).
  { by rewrite (G l [] fuel 0). }
  clear fuel Hf. induction l2 as [|b l2 IH]; intros l1 fuel ret El Hf;
    (destruct fuel as [|fuel]; [simpl in Hf; lia|]); rewrite loop_S; simpl.
  - rewrite (bind_done _ _ st (inr ret) st); [by rewrite Z.add_0_r|].
    done.
  - assert (Hb : b ∈ l) by (rewrite El; apply elem_of_app; right; by left).
    rewrite (bind_done _ _ st (inl (default cache_head (hd_error (bnode <$> l2)), ret + 1)) st).
    + rewrite (IH (l1 ++ [b])); [do 2 f_equal; lia|by rewrite <-app_assoc|simpl in Hf; lia].
    + unfold body. cbv beta iota. rewrite decide_True by (by eapply rep_head). rewrite El in R. by m_step (rep_next st l1 b l2 R).
Qed.

(** ** Eviction *)

(** What evicting and loading blocks leaves alone. *)
Record same_rest st st' : Prop := {
  s_sblock : sblock st' = sblock st; s_dev : dev st' = dev st; s_lock : lock st' = lock st;
  s_header : header st' = header st; s_log : log st' = log st; s_ctxs : ctxs st' = ctxs st
}.

Lemma same_refl st : same_rest st st.
Proof. by split. Qed.
Lemma same_trans st1 st2 st3 : same_rest st1 st2 → same_rest st2 st3 → same_rest st1 st3.
Proof. intros [] []. split; congruence. Qed.

(** A block that [evict] must not throw away. *)
Definition busy st b : bool := match cblocks st !! b with Some B => pinned B || acquired B | None => false end.
(** [st'] has the blocks of [st] that are in [l]. *)
Definition restricted l st st' : Prop := ∀ b, cblocks st' !! b = if decide (b ∈ l) then cblocks st !! b else None.

Lemma restricted_trans l1 l2 st1 st2 st3 : l2 ⊆ l1 → restricted l1 st1 st2 → restricted l2 st2 st3 →
  restricted l2 st1 st3.
Proof.
  intros Hs H1 H2 b. rewrite H2. destruct (decide (b ∈ l2)) as [Hb|]; [|done].
  rewrite H1. by rewrite decide_True by by apply Hs.
Qed.

(** Throwing away one block. *)
Lemma drop_block st l1 b l2 : rep st (l1 ++ b :: l2) →
  ∃ st', (t ← on_nodes (_detach_from_list (bnode b)); kfree_block (block_of (bnode b));; mret t) st =
      Done (default cache_head (last (bnode <$> l1)), st') ∧
    rep st' (l1 ++ l2) ∧ same_rest st st' ∧ restricted (l1 ++ l2) st st' ∧ (obj_room (objs st) ≤ obj_room (objs st'))%nat.
Proof.
  intros R. pose proof (rep_nodup _ _ R) as N. apply NoDup_app_cons in N as (N1 & N2 & N).
  pose proof (r_list _ _ R) as L. rewrite fmap_app, fmap_cons in L.
  destruct (hlist_detach _ _ _ _ _ L) as (h1 & E1 & _ & L1 & _).
  destruct (obj_free_ok (objs st) _ b (r_objs _ _ R)) as (k2 & E2 & Hk2 & Hroom).
  { apply elem_of_list_to_set, elem_of_app. right. by left. }
  set (st' := mkCache (sblock st) (dev st) (lock st) (header st) (log st) (delete (bnode b) h1)
    (delete b (cblocks st)) (ctxs st) k2). exists st'.
  split; [|split; [split|split; [by split|split; [|done]]]].
  - m_step (nodes_done _ _ _ _ E1). rewrite !block_of_bnode. unfold kfree_block, on_objs, mbind, M_bind.
    cbn. by rewrite E2.
  - simpl. rewrite fmap_app. apply (ring_ext h1); [|exact L1]. intros p Hp. rewrite lookup_delete_ne; [done|].
    intros <-. pose proof (hlist_nodup _ _ _ L) as D. rewrite app_comm_cons in D. apply NoDup_app_cons in D as (D1 & D2 & _).
    apply elem_of_cons in Hp as [E|[Hp|Hp]%elem_of_app]; [apply D1; rewrite E; by left|apply D1; by right|by apply D2].
  - intros b'. simpl. rewrite lookup_delete_is_Some, (r_blocks _ _ R). split.
    + intros [Hne Hb]. apply elem_of_app in Hb as [|[|]%elem_of_cons]; apply elem_of_app; [by left|congruence|by right].
    + intros Hb. split; [intros ->; by apply elem_of_app in Hb as [|]|].
      apply elem_of_app in Hb as [|]; apply elem_of_app; [by left|right; by right].
  - simpl. replace (list_to_set (l1 ++ l2) : gset Z) with ((list_to_set (l1 ++ b :: l2) : gset Z) ∖ {[b]}); [done|].
    clear -N1 N2. apply set_eq. intros x. rewrite elem_of_difference, !elem_of_list_to_set, elem_of_singleton, !elem_of_app, elem_of_cons.
    split; [naive_solver|]. intros Hx. split; [naive_solver|]. intros ->. naive_solver.
  - intros b'. simpl. destruct (decide (b' ∈ l1 ++ l2)) as [Hb|Hb].
    + rewrite lookup_delete_ne; [done|]. intros <-. by apply elem_of_app in Hb as [|].
    + destruct (decide (b' = b)) as [->|Hne]; [apply lookup_delete_eq|]. rewrite lookup_delete_ne by done.
      apply eq_None_not_Some. rewrite (r_blocks _ _ R). intros Hin. apply Hb.
      apply elem_of_app in Hin as [|[|]%elem_of_cons]; apply elem_of_app; [by left|done|by right].
Qed.

Lemma rep_subset st l b B : rep st l → cblocks st !! b = Some B → b ∈ l.
Proof. intros R H. apply (r_blocks _ _ R). by exists B. Qed.

(** [l'] is what eviction leaves of [l]. *)
Definition evicted st l l' : Prop := sublist l' l ∧ (∀ b, b ∈ l → busy st b = true → b ∈ l').

Lemma evict_loop pre : ∀ kept st fuel, rep st (pre ++ kept) → (length pre < fuel)%nat →
  ∃ l' st', loop fuel (λ '(q, sz),
      if decide (sz >= EVICTION_THRESHOLD ∧ q ≠ cache_head) then
        B ← get_block (block_of q);
        if negb (pinned B) && negb (acquired B) then
          t ← on_nodes (_detach_from_list q);
          kfree_block (block_of q);;
          mret (inl (t, sz - 1))
        else q' ← on_nodes (get_prev q); mret (inl (q', sz))
      else mret (inr tt)) (default cache_head (last (bnode <$> pre)), Z.of_nat (length (pre ++ kept))) st = Done (tt, st') ∧
    rep st' (l' ++ kept) ∧ evicted st pre l' ∧ same_rest st st' ∧ restricted (l' ++ kept) st st' ∧
    (obj_room (objs st) ≤ obj_room (objs st'))%nat ∧
    (Z.of_nat (length (l' ++ kept)) < EVICTION_THRESHOLD ∨ ∀ b, b ∈ l' → busy st b = true).
Proof.
  induction pre as [|b pre IH] using rev_ind; intros kept st fuel R Hf;
    (destruct fuel as [|fuel]; [lia|]); rewrite loop_S.
  - exists [], st. split; [|split; [done|split; [by split|split; [apply same_refl|split; [|split; [done|right; by intros ? ?%elem_of_nil]]]]]].
    + rewrite (bind_done _ _ st (inr tt) st); [done|]. cbv beta iota. rewrite decide_False; [done|]. intros [_ H]. by apply H.
    + intros b'. destruct (decide (b' ∈ [] ++ kept)) as [|Hb]; [done|]. apply eq_None_not_Some. by rewrite (r_blocks _ _ R).
  - rewrite fmap_app. change (bnode <$> [b]) with [bnode b]. rewrite last_snoc.
    change (default cache_head (Some (bnode b))) with (bnode b). rewrite length_app in Hf. simpl in Hf.
    assert (Hb : b ∈ (pre ++ [b]) ++ kept) by (rewrite !elem_of_app; left; right; by left).
    destruct (rep_block _ _ _ R Hb) as [B HB].
    assert (R' : rep st (pre ++ b :: kept)) by (rewrite <-app_assoc in R; exact R).
    destruct (decide (Z.of_nat (length ((pre ++ [b]) ++ kept)) >= EVICTION_THRESHOLD)) as [Hsz|Hsz].
    2:{ exists (pre ++ [b]), st. split.
        { rewrite (bind_done _ _ st (inr tt) st); [done|]. cbv beta iota. by rewrite decide_False by tauto. }
        split; [done|]. split; [by split|]. split; [apply same_refl|]. split; [|split; [done|left; lia]].
        intros b'. destruct (decide (b' ∈ (pre ++ [b]) ++ kept)) as [|Hn]; [done|]. apply eq_None_not_Some.
        by rewrite (r_blocks _ _ R). }
    pose proof (rep_head _ _ _ R Hb) as Hh.
    assert (Hbusy : busy st b = pinned B || acquired B) by (unfold busy; by rewrite HB).
    destruct (negb (pinned B) && negb (acquired B)) eqn:Ebusy.
    + destruct (drop_block st pre b kept R') as (st1 & E1 & R1 & S1 & P1 & Hr1).
      destruct (IH kept st1 fuel R1) as (l' & st' & E & R2 & [Hsub Hkeep] & S2 & P2 & Hr2 & Hend); [lia|].
      assert (Hf1 : ∀ x, x ∈ pre → busy st1 x = busy st x).
      { intros x Hx. unfold busy. rewrite P1. by rewrite decide_True by (apply elem_of_app; by left). }
      exists l', st'. split.
      * rewrite (bind_done _ _ st (inl (default cache_head (last (bnode <$> pre)), Z.of_nat (length (pre ++ kept)))) st1); [exact E|].
        cbv beta iota. rewrite decide_True by done. rewrite !block_of_bnode. m_step (get_block_done _ _ _ HB). rewrite Ebusy.
        apply bind_inv in E1 as (t & s1 & Ea & E1). apply bind_inv in E1 as ([] & s2 & Eb & E1).
        rewrite block_of_bnode in Eb. m_step Ea. m_step Eb. injection E1 as -> ->. unfold mret, M_ret. do 3 f_equal.
        f_equal. rewrite !length_app. simpl. lia.
      * split; [done|]. split; [split|].
        -- by apply sublist_inserts_r.
        -- intros x [Hx| ->%list_elem_of_singleton]%elem_of_app Hxb; [apply Hkeep; [done|]; by rewrite Hf1|].
           rewrite Hbusy in Hxb. by destruct (pinned B), (acquired B).
        -- split; [by eapply same_trans|]. split; [|split; [lia|]].
           ++ eapply restricted_trans; [|exact P1|exact P2]. intros x [Hx|Hx]%elem_of_app; apply elem_of_app; [left|by right].
              by eapply elem_of_sublist.
           ++ destruct Hend as [?|Hend]; [by left|right]. intros x Hx. rewrite <-Hf1; [by apply Hend|].
              by eapply elem_of_sublist.
    + assert (Eb : busy st b = true) by (rewrite Hbusy; by destruct (pinned B), (acquired B)).
      destruct (IH (b :: kept) st fuel R') as (l' & st' & E & R2 & [Hsub Hkeep] & S2 & P2 & Hr2 & Hend); [lia|].
      assert (Ea : (l' ++ [b]) ++ kept = l' ++ b :: kept) by by rewrite <-app_assoc.
      exists (l' ++ [b]), st'. rewrite Ea. split; [|split; [done|split; [split|split; [done|split; [done|split; [done|]]]]]].
      * replace ((pre ++ [b]) ++ kept) with (pre ++ b :: kept) by by rewrite <-app_assoc.
        rewrite (bind_done _ _ st (inl (default cache_head (last (bnode <$> pre)), Z.of_nat (length (pre ++ b :: kept)))) st); [exact E|].
        cbv beta iota. rewrite decide_True by (split; [|done]; rewrite <-app_assoc in Hsz; exact Hsz).
        rewrite block_of_bnode. m_step (get_block_done _ _ _ HB). rewrite Ebusy. by m_step (rep_prev st pre b kept R').
      * by apply sublist_app.
      * intros x [Hx| ->%list_elem_of_singleton]%elem_of_app Hxb; apply elem_of_app; [left; by apply Hkeep|right; by left].
      * destruct Hend as [?|Hend]; [by left|right]. intros x [Hx| ->%list_elem_of_singleton]%elem_of_app; [by apply Hend|done].
Qed.

Lemma evict_spec st l fuel : rep st l → (length l < fuel)%nat →
  ∃ l' st', evict fuel (Z.of_nat (length l)) st = Done (tt, st') ∧
    rep st' l' ∧ evicted st l l' ∧ same_rest st st' ∧ restricted l' st st' ∧
    (obj_room (objs st) ≤ obj_room (objs st'))%nat ∧
    (Z.of_nat (length l') < EVICTION_THRESHOLD ∨ ∀ b, b ∈ l' → busy st b = true) ∧
    (Z.of_nat (length l) < EVICTION_THRESHOLD → l' = l).
Proof.
  intros R Hf. unfold evict. destruct (decide (Z.of_nat (length l) >= EVICTION_THRESHOLD)) as [Hs|Hs].
  - m_step (rep_last st l R). destruct (evict_loop l [] st fuel) as (l' & st' & E & H); rewrite ?app_nil_r; [done|done|].
    rewrite !app_nil_r in E, H. exists l', st'. split; [exact E|]. destruct H as (? & ? & ? & ? & ? & ?). by split_and!.
  - exists l, st. split; [done|]. split; [done|]. split; [by split|]. split; [apply same_refl|]. split; [|split; [done|split; [left; lia|done]]].
    intros b. destruct (decide (b ∈ l)) as [|Hn]; [done|]. apply eq_None_not_Some. by rewrite (r_blocks _ _ R).
Qed.

(** ** Loading *)
Definition with_parts (h : heap) (m : gmap Z Block) (k : K) st : cache K :=
  mkCache (sblock st) (dev st) (lock st) (header st) (log st) h m (ctxs st) k.

Definition loaded no (d : list Z) : Block := mkBlock no true false 1 true d.

(** A node at the front of the list. *)
Lemma push_front st h b l : hlist h cache_head (bnode <$> l) → ring h [bnode b] → b ∉ l → bnode b ≠ cache_head →
  cnodes st = h →
  ∃ h', on_nodes (_merge_list cache_head (bnode b)) st = Done (cache_head, set_nodes (S := cache K) h' st) ∧
    hlist h' cache_head (bnode <$> (b :: l)).
Proof.
  intros L R Hb Hh <-. destruct (merge_ring _ _ _ _ [] L R) as (h' & E & _ & L').
  { apply NoDup_app. split; [exact (ring_nodup _ _ L)|]. split; [|apply NoDup_singleton].
    intros x Hx ->%list_elem_of_singleton. apply elem_of_cons in Hx as [Hx|Hx]; [done|].
    apply list_elem_of_fmap in Hx as (y & Hy%bnode_inj & Hin). congruence. }
  exists h'. split; [by apply nodes_done|exact L'].
Qed.

Definition fresh_block : Block := mkBlock 0 false false 1 false (replicate 512 0).

Lemma set_block_done st b B : set_block b B st = Done (tt, set_blocks (<[b := B]> (cblocks st)) st).
Proof. done. Qed.

Lemma init_block_done st b B h : cblocks st !! b = Some B → init_list_node (bnode b) (cnodes st) = Done (tt, h) →
  init_block b st = Done (tt, with_parts h (<[b := fresh_block]> (cblocks st)) (objs st) st).
Proof.
  intros HB E. unfold init_block. m_step (get_block_done _ _ _ HB). m_step (set_block_done st b
    (mkBlock 0 (acquired B) (pinned B) (lock_val B) (valid B) (data B))).
  rewrite (bind_done _ _ _ tt (set_nodes (S := cache K) h
    (set_blocks (<[b := mkBlock 0 (acquired B) (pinned B) (lock_val B) (valid B) (data B)]> (cblocks st)) st)))
    by (apply nodes_done; exact E).
  rewrite set_block_done. unfold set_blocks, with_parts. simpl. by rewrite insert_insert_eq.
Qed.

Lemma load_block st l no : rep st l → obj_room (objs st) ≠ 0%nat →
  ∃ b st', (b ← kalloc_block;
      init_block b;;
      on_nodes (_merge_list cache_head (bnode b));;
      d ← gets (λ s, disk (dev s) no);
      B ← get_block b;
      set_block b (mkBlock no true (pinned B) (lock_val B) true d);;
      mret b) st = Done (b, st') ∧
    rep st' (b :: l) ∧ same_rest st st' ∧ b ∉ l ∧
    cblocks st' = <[b := loaded no (disk (dev st) no)]> (cblocks st) ∧
    (obj_room (objs st) ≤ S (obj_room (objs st')))%nat.
Proof.
  intros R Hroom. destruct (obj_alloc_ok _ _ (r_objs _ _ R)) as (b & k & E & H0 & H1).
  assert (Hb0 : b ≠ 0) by (intros ->; by destruct (H0 eq_refl)).
  destruct (H1 Hb0) as (Hpos & Hb & Hk & Hr). clear H0 H1. rewrite elem_of_list_to_set in Hb.
  assert (Hh : bnode b ≠ cache_head) by (unfold bnode, cache_head; lia).
  assert (Hz : bnode b ≠ 0) by (unfold bnode; lia).
  assert (Hn : bnode b ∉ cache_head :: (bnode <$> l)).
  { intros [?|Hx]%elem_of_cons; [done|]. apply list_elem_of_fmap in Hx as (y & Hy%bnode_inj & Hin). congruence. }
  set (h1 := <[bnode b := mkNode 0 0]> (cnodes st)).
  assert (L1 : hlist h1 cache_head (bnode <$> l)).
  { apply (ring_ext (cnodes st)); [|apply R]. intros p Hp. unfold h1. rewrite lookup_insert_ne; [done|]. intros Ep. apply Hn. by rewrite Ep. }
  destruct (init_list_node_spec h1 (bnode b) Hz) as (h2 & E2 & O2 & R2); [unfold h1; rewrite lookup_insert_eq; by eexists|].
  assert (L2 : hlist h2 cache_head (bnode <$> l)).
  { eapply only_ring; [exact O2| |exact L1]. intros p ->%list_elem_of_singleton. done. }
  set (m0 := <[b := mkBlock 0 false false 0 false []]> (cblocks st)).
  set (st2 := with_parts h2 (<[b := fresh_block]> m0) k st).
  destruct (push_front st2 h2 b l L2 R2 Hb Hh eq_refl) as (h3 & E3 & L3).
  exists b, (with_parts h3 (<[b := loaded no (disk (dev st) no)]> (cblocks st)) k st).
  split; [|split; [split|split; [by split|split; [done|split; [done|exact Hr]]]]].
  - rewrite (bind_done _ _ st b (with_parts h1 m0 k st)).
    2:{ unfold kalloc_block. unfold mbind at 1, M_bind at 1. unfold on_objs. rewrite E. cbv beta iota.
        rewrite decide_False by done. done. }
    rewrite (bind_done _ _ (with_parts h1 m0 k st) tt st2).
    2:{ rewrite (init_block_done _ _ (mkBlock 0 false false 0 false []) h2); [done|apply lookup_insert_eq|exact E2]. }
    m_step E3. unfold gets. unfold mbind at 1, M_bind at 1. unfold st2, with_parts. cbn.
    unfold get_block. unfold mbind at 1, M_bind at 1. simpl. rewrite lookup_insert_eq. simpl.
    unfold set_block, modify, mbind, M_bind. simpl. unfold m0. by rewrite !insert_insert_eq.
  - exact L3.
  - intros b'. simpl. rewrite lookup_insert_is_Some, elem_of_cons, (r_blocks _ _ R).
    destruct (decide (b = b')) as [->|]; naive_solver.
  - exact Hk.
Qed.

(** ** [cache_acquire] *)
Definition set_lk (v : Z) B : Block := mkBlock (block_no B) (acquired B) (pinned B) v (valid B) (data B).

Definition unlocked st no : Prop := ∀ b B, cblocks st !! b = Some B → block_no B = no → lock_val B = 1.

(** A block in the cache moves to the front. *)
Definition hit st l no b st' : Prop := ∃ l1 l2 B, l = l1 ++ b :: l2 ∧ cblocks st !! b = Some B ∧ block_no B = no ∧
  rep st' (b :: l1 ++ l2) ∧ cblocks st' = <[b := set_lk 0 B]> (cblocks st) ∧ objs st' = objs st.
(** Another is read from the device, after eviction has left the blocks [l']. *)
Definition miss st l no b st' : Prop := (∀ x X, cblocks st !! x = Some X → block_no X ≠ no) ∧
  ∃ l', (evicted st l l' ∧ (Z.of_nat (length l) < EVICTION_THRESHOLD → l' = l)) ∧
    (Z.of_nat (length l') < EVICTION_THRESHOLD ∨ ∀ x, x ∈ l' → busy st x = true) ∧
    b ∉ l' ∧ rep st' (b :: l') ∧ (obj_room (objs st) ≤ S (obj_room (objs st')))%nat ∧
    ∀ x, cblocks st' !! x = if decide (x = b) then Some (mkBlock no true false 0 true (disk (dev st) no))
                            else if decide (x ∈ l') then cblocks st !! x else None.

Lemma acquire_sleeplock_done st b B : cblocks st !! b = Some B → lock_val B = 1 →
  acquire_sleeplock b st = Done (tt, set_blocks (<[b := set_lk 0 B]> (cblocks st)) st).
Proof.
  intros HB Hl. unfold acquire_sleeplock. m_step (get_block_done _ _ _ HB). rewrite Hl.
  change (1 - 1) with 0. fold (set_lk 0 B). m_step (set_block_done st b (set_lk 0 B)). done.
Qed.

Lemma acquire_sleeplock_sleeps st b B : cblocks st !! b = Some B → lock_val B ≤ 0 → acquire_sleeplock b st = NoFuel.
Proof.
  intros HB Hl. unfold acquire_sleeplock. m_step (get_block_done _ _ _ HB).
  rewrite decide_False by lia. done.
Qed.

Lemma rep_blocks_ext st st' l : rep st l → cnodes st' = cnodes st → objs st' = objs st →
  (∀ b, is_Some (cblocks st' !! b) ↔ is_Some (cblocks st !! b)) → rep st' l.
Proof. intros [L B O] H1 H2 H3. split; [by rewrite H1| |by rewrite H2]. intros b. by rewrite H3. Qed.

Lemma rep_insert st l b B B' : rep st l → cblocks st !! b = Some B →
  rep (set_blocks (<[b := B']> (cblocks st)) st) l.
Proof.
  intros R H. eapply rep_blocks_ext; [exact R|done|done|]. intros x. simpl. rewrite lookup_insert_is_Some.
  destruct (decide (b = x)) as [<-|]; [|naive_solver]. split; [intros _; by exists B|by left].
Qed.

Lemma lock_done st : lock st = false → on_lock (_acquire_spinlock 1) st = Done (tt, set_lock true st).
Proof. intros H. unfold on_lock. by rewrite H. Qed.
Lemma rep_lock st l (v : bool) : rep st l → rep (set_lock v st) l.
Proof. by intros []. Qed.

Lemma acquire_hit st l1 b l2 B no fuel : rep st (l1 ++ b :: l2) → lock st = false → (length (l1 ++ b :: l2) < fuel)%nat →
  find_block fuel no (set_lock true st) = Done (Some (bnode b), set_lock true st) →
  cblocks st !! b = Some B → ∃ st1, lock st1 = false ∧ same_rest st st1 ∧ cblocks st1 = cblocks st ∧ objs st1 = objs st ∧
    rep st1 (b :: l1 ++ l2) ∧ cache_acquire fuel no st = (acquire_sleeplock b;; mret b) st1.
Proof.
  intros R Hlk Hf Ef HB.
  pose proof (r_list _ _ R) as L. rewrite fmap_app, fmap_cons in L.
  destruct (hlist_detach _ _ _ _ _ L) as (h1 & E1 & _ & L1 & R1). rewrite <-fmap_app in L1.
  pose proof (rep_nodup _ _ R) as N. apply NoDup_app_cons in N as (N1 & N2 & _).
  set (st1 := set_nodes (S := cache K) h1 (set_lock true st)).
  destruct (push_front st1 h1 b (l1 ++ l2) L1 R1) as (h2 & E2 & L2);
    [by intros [|]%elem_of_app|eapply rep_head; [exact R|]; apply elem_of_app; right; by left|done|].
  set (st2 := set_nodes (S := cache K) h2 st1) in E2. exists (set_lock false st2).
  split; [done|]. split; [by split; rewrite ?Hlk|]. split; [done|]. split; [done|]. split; [split|].
  - exact L2.
  - intros x. simpl. rewrite (r_blocks _ _ R), !elem_of_cons, !elem_of_app, elem_of_cons. naive_solver.
  - simpl. replace ({[b]} ∪ list_to_set (l1 ++ l2) : gset Z) with (list_to_set (l1 ++ b :: l2) : gset Z); [apply R|].
    apply set_eq. intros x. rewrite elem_of_union, !elem_of_list_to_set, elem_of_singleton, !elem_of_app, elem_of_cons. naive_solver.
  - unfold cache_acquire. m_step (lock_done st Hlk). m_step Ef.
    rewrite (bind_done _ _ (set_lock true st) (default cache_head (last (bnode <$> l1))) st1) by (by apply nodes_done).
    m_step E2. rewrite block_of_bnode. done.
Qed.

Lemma cache_acquire_spec st l no fuel : rep st l → lock st = false → (length l < fuel)%nat →
  unlocked st no → obj_room (objs st) ≠ 0%nat →
  ∃ b st', cache_acquire fuel no st = Done (b, st') ∧ same_rest st st' ∧ (hit st l no b st' ∨ miss st l no b st').
Proof.
  intros R Hlk Hf Hun Hroom.
  destruct (find_block_spec (set_lock true st) l no fuel (rep_lock _ _ _ R) Hf) as (r & Ef & Hr).
  destruct r as [p|].
  - destruct Hr as (l1 & b & l2 & B & -> & -> & HB & Hno). simpl in HB.
    destruct (acquire_hit st l1 b l2 B no fuel R Hlk Hf Ef HB) as (st1 & Hlk1 & S1 & B1 & O1 & R1 & E).
    assert (HB1 : cblocks st1 !! b = Some B) by (by rewrite B1).
    exists b, (set_blocks (<[b := set_lk 0 B]> (cblocks st1)) st1). split; [|split; [by destruct S1|left]].
    + rewrite E. by m_step (acquire_sleeplock_done _ _ _ HB1 (Hun _ _ HB Hno)).
    + exists l1, l2, B. split; [done|]. split; [done|]. split; [done|].
      split; [by eapply rep_insert|]. split; [simpl; by rewrite B1|done].
  - set (st0 := set_lock true st) in *.
    destruct (evict_spec st0 l fuel (rep_lock _ _ _ R) Hf) as (l' & st1 & E1 & R1 & Hev & S1 & P1 & Hr1 & Hend & Hall).
    destruct (load_block st1 l' no R1) as (b & st2 & E2 & R2 & S2 & Hb & B2 & Hr2); [simpl in Hr1; lia|].
    destruct S1 as [S1a S1b S1c S1d S1e S1f], S2 as [S2a S2b S2c S2d S2e S2f].
    set (st3 := set_lock false st2).
    assert (HB3 : cblocks st3 !! b = Some (loaded no (disk (dev st1) no))).
    { simpl. by rewrite B2, lookup_insert_eq. }
    exists b, (set_blocks (<[b := set_lk 0 (loaded no (disk (dev st1) no))]> (cblocks st3)) st3).
    split; [|split; [|right; split; [exact Hr|]]].
    + unfold cache_acquire. m_step (lock_done st Hlk). fold st0. m_step Ef.
      m_step (get_num_spec st0 l fuel (rep_lock _ _ _ R) Hf). m_step E1.
      apply bind_inv in E2 as (b' & s1 & Ea & E2). apply bind_inv in E2 as ([] & s2 & Eb & E2).
      apply bind_inv in E2 as (a3 & s3 & Ec & E2). apply bind_inv in E2 as (a4 & s4 & Ed & E2).
      apply bind_inv in E2 as (a5 & s5 & Ee & E2). apply bind_inv in E2 as ([] & s6 & Eg & E2).
      injection E2 as -> ->. m_step Ea. m_step Eb. m_step Ec. m_step Ed. m_step Ee. m_step Eg.
      rewrite (bind_done _ _ st2 tt st3) by done. by m_step (acquire_sleeplock_done _ _ _ HB3 eq_refl).
    + unfold st0 in *. split; simpl in *; congruence.
    + exists l'. split; [done|]. split; [done|]. split; [done|].
      split; [eapply rep_insert; [by apply rep_lock|exact HB3]|]. split; [simpl in *; lia|].
      intros x. simpl. rewrite B2, insert_insert_eq. destruct (decide (x = b)) as [->|Hne].
      * rewrite lookup_insert_eq. unfold set_lk, loaded. simpl. by rewrite S1b.
      * rewrite lookup_insert_ne by done. apply P1.
Qed.

(** ** The state of the log

    No operation on blocks touches the header and the counters of the log. *)
Definition logpart (s : cache K) : LogHeader * LOG * gmap Z Z := (header s, log s, ctxs s).

Lemma keeps_nodes {A} (m : M heap A) : keeps logpart (on_nodes (S := cache K) m).
Proof. intros s a s' E. unfold on_nodes in E. by destruct (m (nodes s)) as [[]| | |]; simplify_eq. Qed.
Lemma keeps_objs {A} (m : M K A) : keeps logpart (on_objs m).
Proof. intros s a s' E. unfold on_objs in E. by destruct (m (objs s)) as [[]| | |]; simplify_eq. Qed.
Lemma keeps_lock {A} (m : M SpinLock A) : keeps logpart (on_lock (K := K) m).
Proof. intros s a s' E. unfold on_lock in E. by destruct (m (lock s)) as [[]| | |]; simplify_eq. Qed.
Lemma keeps_get_block b : keeps logpart (get_block (K := K) b).
Proof. intros s a s' E. unfold get_block in E. by destruct (cblocks s !! b); simplify_eq. Qed.
Lemma keeps_set_block b B : keeps logpart (set_block (K := K) b B).
Proof. by apply keeps_modify. Qed.
Lemma keeps_nofuel {A} : keeps logpart (nofuel (S := cache K) (A := A)).
Proof. by apply keeps_fail. Qed.
Hint Resolve keeps_nodes keeps_objs keeps_lock keeps_get_block keeps_set_block keeps_nofuel : keeps.

Lemma acquire_keeps fuel no : keeps logpart (cache_acquire (K := K) fuel no).
Proof.
  unfold cache_acquire, find_block, get_num_cached_blocks, evict, kalloc_block, kfree_block, init_block,
    acquire_sleeplock, sleep. keeps_tac.
Qed.

Lemma acquire_keeps_header fuel no st b st' : cache_acquire fuel no st = Done (b, st') → header st' = header st.
Proof. intros E. pose proof (acquire_keeps _ _ _ _ _ E) as H. unfold logpart in H. congruence. Qed.
End lists.
