(* ===== verification/LogCrash.v ===== *)
(** * The log survives crashes

    [commit] and [recover_from_log] of [Cache.v]: what they write to the device,
    in which order, and that a crash between two of those writes leaves either
    the blocks before the transaction or those after it. *)
From S2P Require Import Prelude Words Atomics Lists Cache CacheSpec.

(** ** The contents of blocks as readers of the cache see them *)
Section view.
Context {K : Type} `{!ObjAlloc K}.
Implicit Types (st : cache K) (l H : list Z) (b n : Z) (B : Block) (V : Z → list Z).

Definition cached st n : Prop := ∃ b B, cblocks st !! b = Some B ∧ block_no B = n.
Definition pin st n : Prop := ∃ b B, cblocks st !! b = Some B ∧ block_no B = n ∧ pinned B = true.

(** [V] are the contents; [H] are the blocks that are locked. *)
Record inv st l V H : Prop := {
  i_rep : rep st l;
  i_lock : lock st = false;
  i_uniq : uniq st;
  i_data : ∀ b B, cblocks st !! b = Some B → data B = V (block_no B);
  i_disk : ∀ n, V n = disk (dev st) n ∨ pin st n;
  i_lk : ∀ b B, cblocks st !! b = Some B → lock_val B = if decide (b ∈ H) then 0 else 1
}.

Lemma unpinned_clean st l V H n : inv st l V H → ¬ pin st n → V n = disk (dev st) n.
Proof. intros I Hn. by destruct (i_disk _ _ _ _ I n). Qed.

(** Changing a block without touching its number. *)
Lemma change_inv st l V V' H H' b B B' d : inv st l V H → cblocks st !! b = Some B → block_no B' = block_no B →
  data B' = V' (block_no B) → (∀ n, n ≠ block_no B → V' n = V n) →
  (∀ n, n ≠ block_no B → disk d n = disk (dev st) n) →
  (pinned B' = pinned B ∧ V' (block_no B) = V (block_no B) ∧ disk d (block_no B) = disk (dev st) (block_no B) ∨
   V' (block_no B) = disk d (block_no B) ∨ pinned B' = true) →
  (∀ x, x ≠ b → x ∈ H' ↔ x ∈ H) → lock_val B' = (if decide (b ∈ H') then 0 else 1) →
  inv (set_dev d (set_blocks (<[b := B']> (cblocks st)) st)) l V' H'.
Proof.
  intros [R Hlk Hu Hd Hc Hl] HB Hno Hdata HV HD Hcase HH Hlv. split; [| |intros b1 b2 B1 B2|intros x X|intros n|intros x X]; simpl.
  - destruct (rep_insert _ _ _ _ B' R HB) as [H1 H2 H3]. by split.
  - done.
  - intros [[<- <-]|[Hne1 H1]]%lookup_insert_Some [[<- <-]|[Hne2 H2]]%lookup_insert_Some; [done| | |by eapply Hu].
    + intros Eq. eapply Hu; [exact HB|exact H2|congruence].
    + intros Eq. eapply Hu; [exact H1|exact HB|congruence].
  - intros [[<- <-]|[Hne Hx]]%lookup_insert_Some; [by rewrite Hno|]. rewrite HV; [by apply (Hd x)|].
    intros E. apply Hne. symmetry. by eapply Hu.
  - destruct (decide (n = block_no B)) as [->|Hn].
    + destruct Hcase as [(Hp & HVb & Hdb)|[Hcase|Hp]]; [|by left|].
      2:{ right. exists b, B'. simpl. by rewrite lookup_insert_eq. }
      destruct (Hc (block_no B)) as [E|(x & X & Hx & Hxn & Hxp)].
      * left. congruence.
      * right. assert (x = b) as -> by (by eapply Hu). simplify_eq. exists b, B'. simpl.
        rewrite lookup_insert_eq. split; [done|]. split; congruence.
    + destruct (Hc n) as [E|(x & X & Hx & Hxn & Hxp)]; [left; rewrite HV, HD by done; done|]. right. exists x, X. simpl.
      rewrite lookup_insert_ne; [done|]. intros ->. congruence.
  - intros [[<- <-]|[Hne Hx]]%lookup_insert_Some; [done|]. rewrite (Hl _ _ Hx). destruct (decide (x ∈ H)) as [Hi|Hi], (decide (x ∈ H')) as [Hi'|Hi']; try done; exfalso;
      naive_solver.
Qed.

Lemma pin_insert st b B B' n d : cblocks st !! b = Some B → block_no B' = block_no B → pin st n →
  (n = block_no B → pinned B' = true) → uniq st → pin (set_dev d (set_blocks (<[b := B']> (cblocks st)) st)) n.
Proof.
  intros HB Hno (x & X & Hx & Hn & Hp) Hb Hu. destruct (decide (x = b)) as [->|Hne].
  - simplify_eq. exists b, B'. simpl. rewrite lookup_insert_eq. split; [done|]. split; [done|by apply Hb].
  - exists x, X. simpl. by rewrite lookup_insert_ne.
Qed.

Lemma cached_insert st b B B' n d : cblocks st !! b = Some B → block_no B' = block_no B →
  cached (set_dev d (set_blocks (<[b := B']> (cblocks st)) st)) n → cached st n.
Proof.
  intros HB Hno (x & X & Hx & Hn). simpl in Hx. apply lookup_insert_Some in Hx as [[<- <-]|[_ Hx]].
  - exists b, B. split; [done|congruence].
  - by exists x, X.
Qed.

(** Acquiring a block does not change the contents. *)
(** The block at [x] may be thrown away to make room for [n]. *)
Definition freeable st l n x : Prop := ¬ cached st n ∧ EVICTION_THRESHOLD ≤ Z.of_nat (length l) ∧ busy st x = false.

(** [cache_acquire], whatever is held. *)
Lemma acquire_general st l V H n fuel : inv st l V H →
  (∀ b B, b ∈ H → cblocks st !! b = Some B → block_no B ≠ n) → (length l < fuel)%nat → obj_room (objs st) ≠ 0%nat →
  ∃ b B st' l', cache_acquire fuel n st = Done (b, st') ∧ inv st' l' V (b :: H) ∧ same_rest st st' ∧
    cblocks st' !! b = Some B ∧ block_no B = n ∧ (cached st n → is_Some (cblocks st !! b)) ∧ (¬ cached st n → acquired B = true) ∧
    (∀ x X, x ≠ b → cblocks st' !! x = Some X → cblocks st !! x = Some X) ∧
    (∀ x X, cblocks st !! x = Some X → ¬ freeable st l n x → x = b ∧ block_no X = n ∨ x ≠ b ∧ cblocks st' !! x = Some X) ∧
    (length l' ≤ S (length l))%nat ∧ (obj_room (objs st) ≤ S (obj_room (objs st')))%nat ∧
    (∀ n', pin st n' → pin st' n') ∧ (∀ n', cached st' n' → cached st n' ∨ n' = n) ∧ (cached st n → pinned B = true ↔ pin st n).
Proof.
  intros I HH Hf Hroom. pose proof I as [R Hlk Hu Hd Hdisk Hl].
  assert (Hun : unlocked st n).
  { intros b B HB Hno. rewrite (Hl _ _ HB). rewrite decide_False; [done|]. intros Hb. by eapply HH. }
  destruct (cache_acquire_spec st l n fuel R Hlk Hf Hun Hroom) as (b & st' & E & Hs & [Hhit|Hmiss]).
  - destruct Hhit as (l1 & l2 & B & -> & HB & Hno & R' & HB' & Ho).
    assert (Hpin : ∀ n', pin st n' → pin st' n').
    { intros n' (x & X & Hx & Hn & Hp). destruct (decide (x = b)) as [->|Hne].
      - simplify_eq. exists b, (set_lk 0 B). rewrite HB', lookup_insert_eq. done.
      - exists x, X. by rewrite HB', lookup_insert_ne. }
    exists b, (set_lk 0 B), st', (b :: l1 ++ l2). split; [done|]. split; [|split; [done|split; [by rewrite HB', lookup_insert_eq|split; [done|split; [done|]]]]].
    { split; [done|by rewrite (s_lock _ _ Hs)|..].
      - intros b1 b2 B1 B2. rewrite HB'.
        intros [[<- <-]|[Hne1 H1]]%lookup_insert_Some [[<- <-]|[Hne2 H2]]%lookup_insert_Some; simpl; [done| | |by eapply Hu];
          intros Eq; by eapply Hu.
      - intros x X. rewrite HB'. intros [[<- <-]|[Hne Hx]]%lookup_insert_Some; [exact (Hd _ _ HB)|by apply (Hd x)].
      - intros n'. rewrite (s_dev _ _ Hs). destruct (Hdisk n'); [by left|right; by apply Hpin].
      - intros x X. rewrite HB'. intros [[<- <-]|[Hne Hx]]%lookup_insert_Some; [by rewrite decide_True by by left|].
        rewrite (Hl _ _ Hx). destruct (decide (x ∈ H)) as [Hi|Hi].
        + by rewrite decide_True by by right.
        + rewrite decide_False; [done|]. by intros [->|]%elem_of_cons. }
    split; [intros Hnc; exfalso; apply Hnc; by exists b, B|].
    split; [|split; [|split; [|split; [|split; [done|split]]]]].
    + intros x X Hx. by rewrite HB', lookup_insert_ne by auto.
    + intros x X HX _. destruct (decide (x = b)) as [->|Hne]; [left; split; [done|congruence]|right; split; [done|]].
      by rewrite HB', lookup_insert_ne by auto.
    + rewrite !length_app. simpl. rewrite length_app. lia.
    + rewrite Ho. lia.
    + intros n' (x & X & Hx & Hn). left. rewrite HB' in Hx. apply lookup_insert_Some in Hx as [[<- <-]|[_ Hx]]; [by exists b, B|by exists x, X].
    + intros _. simpl. split; [by exists b, B|]. intros (x & X & Hx & Hn & Hp). assert (x = b) as -> by (eapply Hu; [done..|congruence]). congruence.
  - destruct Hmiss as (Hnone & l' & [[Hsub Hkeep] Hall] & _ & Hb & R' & Hr & HB').
    assert (Hnc : ¬ cached st n) by (intros (x & X & Hx & Hn); by eapply Hnone).
    assert (Hstay : ∀ x X, cblocks st !! x = Some X → ¬ freeable st l n x → x ∈ l').
    { intros x X HX Hfr. destruct (decide (EVICTION_THRESHOLD ≤ Z.of_nat (length l))) as [Ht|Ht].
      - apply Hkeep; [by eapply rep_subset|]. destruct (busy st x) eqn:Eb; [done|]. by destruct Hfr.
      - rewrite Hall by lia. by eapply rep_subset. }
    set (B := mkBlock n true false 0 true (disk (dev st) n)).
    assert (HBb : cblocks st' !! b = Some B) by (rewrite HB'; by rewrite decide_True).
    assert (Hold : ∀ x X, cblocks st' !! x = Some X → x = b ∧ X = B ∨ x ≠ b ∧ x ∈ l' ∧ cblocks st !! x = Some X).
    { intros x X. rewrite HB'. destruct (decide (x = b)); [intros [= <-]; by left|]. destruct (decide (x ∈ l')); [|done]. by right. }
    assert (Hpin : ∀ n', pin st n' → pin st' n').
    { intros n' (x & X & Hx & Hn & Hp). assert (Hxl : x ∈ l').
      { apply Hkeep; [by eapply rep_subset|]. unfold busy. by rewrite Hx, Hp. }
      exists x, X. rewrite HB'. destruct (decide (x = b)) as [->|]; [done|]. by rewrite decide_True. }
    exists b, B, st', (b :: l'). split; [done|]. split; [|split; [done|split; [done|split; [done|split; [done|]]]]].
    { split; [done|by rewrite (s_lock _ _ Hs)|..].
      - intros b1 b2 B1 B2 [[-> ->]|(Hn1 & _ & H1)]%Hold [[-> ->]|(Hn2 & _ & H2)]%Hold; [done|..|by eapply Hu]; simpl; intros Eq; exfalso.
        + by eapply Hnone.
        + by eapply Hnone.
      - intros x X [[-> ->]|(_ & _ & Hx)]%Hold; [simpl|by apply (Hd x)].
        destruct (Hdisk n) as [|(x & X & Hx & Hn & _)]; [done|]. by destruct (Hnone x X Hx).
      - intros n'. rewrite (s_dev _ _ Hs). destruct (Hdisk n'); [by left|right; by apply Hpin].
      - intros x X [[-> ->]|(Hne & _ & Hx)]%Hold; [by rewrite decide_True by by left|].
        rewrite (Hl _ _ Hx). destruct (decide (x ∈ H)) as [Hi|Hi].
        + by rewrite decide_True by by right.
        + rewrite decide_False; [done|]. by intros [->|]%elem_of_cons. }
    split; [done|]. split; [|split; [|split; [|split; [done|split; [done|split]]]]].
    + intros x X Hne Hx. by destruct (Hold _ _ Hx) as [[? _]|(_ & _ & ?)].
    + intros x X HX Hfr. right. pose proof (Hstay _ _ HX Hfr) as Hxl. assert (x ≠ b) as Hne by by intros ->.
      split; [done|]. rewrite HB'. by rewrite decide_False, decide_True.
    + apply sublist_length in Hsub. simpl. lia.
    + intros n' (x & X & [[-> ->]|(_ & _ & Hx)]%Hold & Hn); [right; by simpl in Hn|]. left. by exists x, X.
    + done.
Qed.

(** [cache_acquire] when no held block can be thrown away. *)
Lemma acquire_inv st l V H n fuel : inv st l V H → (cached st n ∨ ∀ x, x ∈ H → busy st x = true) →
  (∀ b B, b ∈ H → cblocks st !! b = Some B → block_no B ≠ n) → (length l < fuel)%nat → obj_room (objs st) ≠ 0%nat →
  ∃ b B st' l', cache_acquire fuel n st = Done (b, st') ∧ inv st' l' V (b :: H) ∧ same_rest st st' ∧
    cblocks st' !! b = Some B ∧ block_no B = n ∧ b ∉ H ∧ (¬ cached st n → acquired B = true) ∧
    (∀ x X, x ∈ H → cblocks st !! x = Some X → cblocks st' !! x = Some X) ∧
    (length l' ≤ S (length l))%nat ∧ (obj_room (objs st) ≤ S (obj_room (objs st')))%nat ∧
    (∀ n', pin st n' → pin st' n') ∧ (∀ n', cached st' n' → cached st n' ∨ n' = n) ∧ (cached st n → pinned B = true ↔ pin st n).
Proof.
  intros I Hc HH Hf Hr. destruct (acquire_general _ _ _ _ _ _ I HH Hf Hr) as
    (b & B & st' & l' & E & I' & Hs & HB & Hn & Hb & Ha & _ & Hk & Hlen & Hrm & Hrest).
  assert (Hfr : ∀ x, x ∈ H → ¬ freeable st l n x).
  { intros x Hx (Hnc & _ & Hbz). destruct Hc as [Hc|Hc]; [done|]. rewrite Hc in Hbz by done. done. }
  assert (HkH : ∀ x X, x ∈ H → cblocks st !! x = Some X → x ≠ b ∧ cblocks st' !! x = Some X).
  { intros x X Hx HX. destruct (Hk x X HX (Hfr x Hx)) as [[-> HXn]|?]; [|done]. by destruct (HH b X Hx HX). }
  exists b, B, st', l'. split_and!; try done; try apply Hrest.
  - intros HbH. destruct (cblocks st !! b) as [X|] eqn:EX; [by destruct (HkH b X)|].
    destruct Hc as [Hc|Hc]; [destruct (Hb Hc); congruence|]. specialize (Hc b HbH). unfold busy in Hc. by rewrite EX in Hc.
  - intros x X Hx HX. by apply HkH.
Qed.
End view.

(** ** Copying blocks *)
Section copying.
Context {K : Type} `{!ObjAlloc K}.
Implicit Types (st : cache K) (l H : list Z) (b n src dst : Z) (B : Block) (V : Z → list Z) (ps : list (Z * Z)).

(** What the bodies of [write_log] and [install_trans] do with two blocks. *)
Definition copy_block (fuel : nat) (rec : bool) src dst : M (cache K) unit :=
  s ← cache_acquire fuel src;
  d ← cache_acquire fuel dst;
  copy_data d s;;
  device_write d;;
  (if rec then set_pinned d false else mret tt);;
  cache_release s;;
  cache_release d.

Definition released B : Block := mkBlock (block_no B) false (pinned B) (lock_val B + 1) (valid B) (data B).
Definition filled (x : list Z) (p : bool) B : Block := mkBlock (block_no B) (acquired B) p (lock_val B) (valid B) x.

Lemma release_done st b B : cblocks st !! b = Some B →
  cache_release b st = Done (tt, set_blocks (<[b := released B]> (cblocks st)) st).
Proof.
  intros HB. unfold cache_release. m_step (get_block_done _ _ _ HB).
  rewrite (bind_done _ _ _ _ _ (set_block_done _ _ _)).
  unfold release_sleeplock. erewrite bind_done; [|apply get_block_done, lookup_insert_eq].
  rewrite set_block_done. unfold set_blocks. simpl. by rewrite insert_insert_eq.
Qed.

Lemma release_inv st l V H H' b B : inv st l V H → cblocks st !! b = Some B → b ∈ H → b ∉ H' →
  (∀ x, x ≠ b → x ∈ H' ↔ x ∈ H) → inv (set_blocks (<[b := released B]> (cblocks st)) st) l V H'.
Proof.
  intros I HB Hb Hb' HH. apply (change_inv st l V V H H' b B (released B) (dev st) I HB); try done.
  - apply (i_data _ _ _ _ I _ _ HB).
  - by left.
  - rewrite decide_False by done. simpl. rewrite (i_lk _ _ _ _ I _ _ HB). by rewrite decide_True.
Qed.

Lemma fill_inv st l V H b B x : inv st l V H → cblocks st !! b = Some B →
  inv (set_dev (mkDev (put (block_no B) x (disk (dev st))) (written (dev st) ++ [(block_no B, x)]))
         (set_blocks (<[b := filled x (pinned B) B]> (cblocks st)) st)) l (put (block_no B) x V) H.
Proof.
  intros I HB. apply (change_inv st l V _ H H b B (filled x (pinned B) B)); try done.
  - by rewrite put_eq.
  - intros n Hn. by rewrite put_ne.
  - intros n Hn. simpl. by rewrite put_ne.
  - right; left. simpl. by rewrite !put_eq.
  - apply (i_lk _ _ _ _ I _ _ HB).
Qed.

Lemma unpin_inv st l V H b B : inv st l V H → cblocks st !! b = Some B → V (block_no B) = disk (dev st) (block_no B) →
  inv (set_blocks (<[b := filled (data B) false B]> (cblocks st)) st) l V H.
Proof.
  intros I HB HV. apply (change_inv st l V V H H b B (filled (data B) false B) (dev st) I HB); try done.
  - apply (i_data _ _ _ _ I _ _ HB).
  - right; by left.
  - apply (i_lk _ _ _ _ I _ _ HB).
Qed.

Definition written_to (n : Z) (x : list Z) (d : device) : device := mkDev (put n x (disk d)) (written d ++ [(n, x)]).

(** The rest of the state, but for the device. *)
Record same_log st st' : Prop := {
  l_sblock : sblock st' = sblock st; l_header : header st' = header st; l_log : log st' = log st; l_ctxs : ctxs st' = ctxs st
}.

Lemma same_log_trans st1 st2 st3 : same_log st1 st2 → same_log st2 st3 → same_log st1 st3.
Proof. intros [] []. split; congruence. Qed.

Lemma copy_block_spec st l V src dst rec fuel : inv st l V [] → src ≠ dst →
  pin st src ∨ pin st dst ∨ ¬ cached st src → (S (length l) < fuel)%nat → (2 ≤ obj_room (objs st))%nat →
  ∃ st' l', copy_block fuel rec src dst st = Done (tt, st') ∧ inv st' l' (put dst (V src) V) [] ∧
    same_log st st' ∧ dev st' = written_to dst (V src) (dev st) ∧
    (length l' ≤ S (S (length l)))%nat ∧ (obj_room (objs st) ≤ S (S (obj_room (objs st'))))%nat ∧
    (∀ n, pin st n → (rec = true → n ≠ dst) → pin st' n) ∧ (∀ n, cached st' n → cached st n ∨ n = src ∨ n = dst).
Proof.
  intros I Hne Hsafe Hf Hroom.
  destruct (acquire_inv st l V [] src fuel I) as (s & BS & st1 & l1 & E1 & I1 & S1 & HS & HSn & _ & Hacq & _ & Hl1 & Hr1 & Hp1 & Hc1 & Hpin);
    [right; by intros x ?%elem_of_nil|by intros x X ?%elem_of_nil|lia|lia|].
  destruct (acquire_inv st1 l1 V [s] dst fuel I1) as (d & BD & st2 & l2 & E2 & I2 & S2 & HD & HDn & Hds & _ & Hk & Hl2 & Hr2 & Hp2 & Hc2 & _).
  { destruct (decide (acquired BS = true)) as [Ha|Ha].
    - right. intros x ->%list_elem_of_singleton. unfold busy. rewrite HS, Ha. by destruct (pinned BS).
    - destruct Hsafe as [Hps|[(x & X & Hx & Hn & Hp)|Hnc]]; [right|left|by destruct (Ha (Hacq Hnc))].
      + intros x ->%list_elem_of_singleton. unfold busy. rewrite HS.
        assert (pinned BS = true) as ->; [|done]. apply Hpin; [|done]. destruct Hps as (x & X & Hx & Hn & _). by exists x, X.
      + destruct (Hp1 dst) as (y & Y & Hy & Hyn & _); [by exists x, X|]. by exists y, Y. }
  { intros x X ->%list_elem_of_singleton HX. assert (X = BS) as -> by congruence. congruence. } { lia. } { lia. }
  assert (HS2 : cblocks st2 !! s = Some BS) by (apply Hk; [by left|done]).
  assert (Hsd : s ≠ d) by (intros ->; apply Hds; by left).
  assert (HdS : data BS = V src) by (rewrite <-HSn; by apply (i_data _ _ _ _ I2 s)).
  pose proof (fill_inv st2 l2 V [d; s] d BD (V src) I2 HD) as I3. rewrite HDn in I3.
  set (st3 := set_dev _ _) in I3.
  set (p := if rec then false else pinned BD). set (BD4 := filled (V src) p BD).
  set (st4 := set_blocks (<[d := BD4]> (cblocks st2)) st3).
  assert (I4 : inv st4 l2 (put dst (V src) V) [d; s]).
  { unfold st4, BD4, p. destruct rec.
    - assert (HD3 : cblocks st3 !! d = Some (filled (V src) (pinned BD) BD)) by (simpl; by rewrite lookup_insert_eq).
      assert (HV3 : put dst (V src) V (block_no (filled (V src) (pinned BD) BD)) =
        disk (dev st3) (block_no (filled (V src) (pinned BD) BD))) by (simpl; by rewrite HDn, !put_eq).
      pose proof (unpin_inv st3 l2 _ _ d _ I3 HD3 HV3) as I4. simpl in I4. rewrite insert_insert_eq in I4. exact I4.
    - exact I3. }
  assert (HS4 : cblocks st4 !! s = Some BS) by (simpl; by rewrite lookup_insert_ne).
  assert (HD4 : cblocks st4 !! d = Some BD4) by (simpl; by rewrite lookup_insert_eq).
  assert (I5 : inv (set_blocks (<[s := released BS]> (cblocks st4)) st4) l2 (put dst (V src) V) [d]).
  { apply (release_inv st4 l2 _ [d; s] [d] s BS I4 HS4); [right; by left|by intros ->%list_elem_of_singleton|].
    intros x Hx. rewrite !elem_of_cons. clear -Hx. naive_solver. }
  set (st5 := set_blocks _ st4) in I5.
  assert (HD5 : cblocks st5 !! d = Some BD4) by (simpl; by rewrite lookup_insert_ne, lookup_insert_eq).
  assert (I6 : inv (set_blocks (<[d := released BD4]> (cblocks st5)) st5) l2 (put dst (V src) V) []).
  { apply (release_inv st5 l2 _ [d] [] d BD4 I5 HD5); [by left|by intros ?%elem_of_nil|].
    intros x Hx. rewrite !elem_of_cons. clear -Hx. naive_solver. }
  set (st6 := set_blocks _ st5) in I6. exists st6, l2.
  assert (Hb6 : ∀ x, cblocks st6 !! x = if decide (x = d) then Some (released BD4) else
      if decide (x = s) then Some (released BS) else cblocks st2 !! x).
  { intros x. unfold st6, st5. simpl. destruct (decide (x = d)) as [->|]; [by rewrite lookup_insert_eq|].
    rewrite lookup_insert_ne by done. destruct (decide (x = s)) as [->|]; [by rewrite lookup_insert_eq|].
    by rewrite !lookup_insert_ne. }
  destruct S1 as [Sa1 Sd1 _ Sh1 Sg1 Sc1], S2 as [Sa2 Sd2 _ Sh2 Sg2 Sc2].
  split; [|split; [exact I6|split; [split; simpl; congruence|split; [|split; [lia|split; [simpl; lia|split]]]]]].
  - unfold copy_block. m_step E1. m_step E2. unfold copy_data. rewrite (bind_done _ _ st2 tt (set_blocks (<[d := filled (V src) (pinned BD) BD]> (cblocks st2)) st2)).
    2:{ m_step (get_block_done _ _ _ HS2). m_step (get_block_done _ _ _ HD). by rewrite HdS. }
    rewrite (bind_done _ _ _ tt st3).
    2:{ unfold device_write. erewrite bind_done; [|apply get_block_done; simpl; apply lookup_insert_eq]. simpl. by rewrite HDn. }
    rewrite (bind_done _ _ st3 tt st4).
    2:{ unfold st4, BD4, p. destruct rec; [|done]. unfold set_pinned.
        erewrite bind_done; [|apply get_block_done; simpl; apply lookup_insert_eq]. rewrite set_block_done.
        unfold set_blocks. simpl. by rewrite insert_insert_eq. }
    m_step (release_done _ _ _ HS4). exact (release_done _ _ _ HD5).
  - simpl. by rewrite Sd2, Sd1.
  - intros n Hpn Hrec. apply Hp1, Hp2 in Hpn as (x & X & Hx & Hn & Hp). destruct (decide (x = d)) as [->|Hxd].
    + assert (X = BD) as -> by congruence. exists d, (released BD4). rewrite Hb6, decide_True by done. split; [done|].
      simpl. split; [done|]. unfold p. destruct rec; [|done]. exfalso. apply Hrec; [done|congruence].
    + destruct (decide (x = s)) as [->|Hxs].
      * assert (X = BS) as -> by congruence. exists s, (released BS). by rewrite Hb6, decide_False, decide_True.
      * exists x, X. by rewrite Hb6, !decide_False.
  - intros n (x & X & Hx & Hn). rewrite Hb6 in Hx. destruct (decide (x = d)) as [->|Hxd].
    { simplify_eq. right; right. done. }
    destruct (decide (x = s)) as [->|Hxs]; [simplify_eq; right; left; done|].
    destruct (Hc2 n) as [Hc|]; [by exists x, X| |by right; right]. destruct (Hc1 n Hc); [by left|by right; left].
Qed.
End copying.

(** ** The loops *)

(** The device after the writes [ws]. *)
Definition replay (ws : list (Z * list Z)) (D : Z → list Z) : Z → list Z := foldl (λ D w, put w.1 w.2 D) D ws.
(** The contents after copying the pairs [ps] one after the other, and the
    writes this asks for. *)
Fixpoint copied (ps : list (Z * Z)) (V : Z → list Z) : Z → list Z :=
  match ps with [] => V | (s, d) :: ps => copied ps (put d (V s) V) end.
Fixpoint trace (ps : list (Z * Z)) (V : Z → list Z) : list (Z * list Z) :=
  match ps with [] => [] | (s, d) :: ps => (d, V s) :: trace ps (put d (V s) V) end.

(** No block is both read and written, none is written twice. *)
Definition separate (ps : list (Z * Z)) : Prop :=
  NoDup ps.*1 ∧ NoDup ps.*2 ∧ ∀ x, x ∈ ps.*1 → x ∉ ps.*2.

Lemma separate_cons s d ps : separate ((s, d) :: ps) →
  separate ps ∧ s ≠ d ∧ s ∉ ps.*1 ∧ s ∉ ps.*2 ∧ d ∉ ps.*2 ∧ d ∉ ps.*1.
Proof.
  intros ([Hs N1]%NoDup_cons & [Hd N2]%NoDup_cons & Hsd). simpl in *.
  assert (H : ∀ x, x ∈ ps.*1 → x ≠ d ∧ x ∉ ps.*2).
  { intros x Hx. specialize (Hsd x (list_elem_of_further _ _ _ Hx)). split; [intros ->; apply Hsd; by left|intros Hx2; apply Hsd; by right]. }
  assert (H2 := Hsd s (list_elem_of_here _ _)).
  split; [split; [done|split; [done|intros x Hx; by apply H]]|]. split; [intros ->; apply H2; by left|].
  split; [done|]. split; [intros Hx; apply H2; by right|]. split; [done|]. intros Hx. by destruct (H d Hx).
Qed.

(** The sources keep their contents. *)
Lemma copied_other ps V n : n ∉ ps.*2 → copied ps V n = V n.
Proof.
  revert V. induction ps as [|[s d] ps IH]; intros V Hn; [done|]. simpl in *.
  apply not_elem_of_cons in Hn as [Hne Hn]. rewrite IH by done. by apply put_ne.
Qed.

Lemma copied_at ps V s d : separate ps → (s, d) ∈ ps → copied ps V d = V s.
Proof.
  revert V. induction ps as [|[s' d'] ps IH]; intros V Hsep Hin; [by apply elem_of_nil in Hin|].
  apply separate_cons in Hsep as (Hsep & Hne & Hs1 & Hs2 & Hd2 & Hd1). simpl.
  apply elem_of_cons in Hin as [[= <- <-]|Hin].
  - rewrite copied_other by done. by rewrite put_eq.
  - rewrite IH by done. apply put_ne. intros ->. apply Hd1. by apply (list_elem_of_fmap_2 fst _ (d', d)).
Qed.

Lemma trace_map ps V : separate ps → trace ps V = (λ p, (p.2, V p.1)) <$> ps.
Proof.
  revert V. induction ps as [|[s d] ps IH]; intros V Hsep; [done|].
  apply separate_cons in Hsep as (Hsep & _ & _ & _ & _ & Hd1). simpl. rewrite IH by done. f_equal.
  apply list_fmap_ext. intros i [s' d'] Hi. simpl. f_equal. apply put_ne. intros ->. apply Hd1.
  apply (list_elem_of_fmap_2 fst _ (d, d')). by eapply list_elem_of_lookup_2.
Qed.

Lemma replay_app ws1 ws2 D : replay (ws1 ++ ws2) D = replay ws2 (replay ws1 D).
Proof. apply foldl_app. Qed.

Lemma replay_other ws D n : n ∉ ws.*1 → replay ws D n = D n.
Proof.
  revert D. induction ws as [|[m x] ws IH]; intros D Hn; [done|]. simpl in *.
  apply not_elem_of_cons in Hn as [Hne Hn]. rewrite IH by done. by apply put_ne.
Qed.

Lemma replay_in ws D n x : NoDup ws.*1 → (n, x) ∈ ws → replay ws D n = x.
Proof.
  revert D. induction ws as [|[m y] ws IH]; intros D Hnd Hin; [by apply elem_of_nil in Hin|]. simpl in *.
  apply NoDup_cons in Hnd as [Hm Hnd]. apply elem_of_cons in Hin as [[= <- <-]|Hin]; [|by apply IH].
  rewrite replay_other by done. by rewrite put_eq.
Qed.

Section loops.
Context {K : Type} `{!ObjAlloc K}.
Implicit Types (st : cache K) (l : list Z) (V : Z → list Z) (ps : list (Z * Z)).

(** What a run of copies leaves. *)
Record after_copies st l V rec ps st' l' : Prop := {
  a_inv : inv st' l' (copied ps V) [];
  a_log : same_log st st';
  a_dev : dev st' = mkDev (replay (trace ps V) (disk (dev st))) (written (dev st) ++ trace ps V);
  a_len : (length l' ≤ length l + 2 * length ps)%nat;
  a_room : (obj_room (objs st) ≤ obj_room (objs st') + 2 * length ps)%nat;
  a_pin : ∀ n, pin st n → (rec = true → n ∉ ps.*2) → pin st' n;
  a_cached : ∀ n, cached st' n → cached st n ∨ n ∈ ps.*1 ∨ n ∈ ps.*2
}.

(** Each source is pinned, or its target is, or it is not in the cache. *)
Definition safe st ps : Prop := ∀ s d, (s, d) ∈ ps → pin st s ∨ pin st d ∨ ¬ cached st s.

Lemma copy_loop (body : Z → M (cache K) (Z + unit)) F rec st0 ps0 :
  (∀ st (k : nat) s d, same_log st0 st → ps0 !! k = Some (s, d) →
    body (Z.of_nat k) st = (copy_block F rec s d;; mret (inl (Z.of_nat (S k)))) st) →
  (∀ st, same_log st0 st → body (Z.of_nat (length ps0)) st = Done (inr tt, st)) →
  ∀ ps pre (fuel : nat) st l V, ps0 = pre ++ ps → same_log st0 st → inv st l V [] → separate ps → safe st ps →
    (length l + 2 * length ps < F)%nat → (2 * length ps ≤ obj_room (objs st))%nat → (length ps < fuel)%nat →
    ∃ st' l', loop fuel body (Z.of_nat (length pre)) st = Done (tt, st') ∧ after_copies st l V rec ps st' l'.
Proof.
  intros Hbody Hend. induction ps as [|[s d] ps IH]; intros pre fuel st l V E0 Hlog I Hsep Hsafe HF Hroom Hf;
    (destruct fuel as [|fuel]; [simpl in Hf; lia|]); rewrite loop_S.
  - exists st, l. rewrite app_nil_r in E0. subst pre. split; [by m_step (Hend st Hlog)|].
    split; [done|by split| |simpl; lia|lia|done|by intros n; left]. simpl. rewrite app_nil_r. by destruct (dev st).
  - apply separate_cons in Hsep as (Hsep & Hne & Hs1 & Hs2 & Hd2 & Hd1). simpl in HF, Hroom, Hf.
    destruct (copy_block_spec st l V s d rec F I Hne) as (st1 & l1 & E1 & I1 & G1 & D1 & N1 & R1 & P1 & C1);
      [apply Hsafe; by left|lia|lia|].
    destruct (IH (pre ++ [(s, d)]) fuel st1 l1 (put d (V s) V)) as (st' & l' & E & [I' G' D' N' R' P' C']);
      [by rewrite <-app_assoc|by eapply same_log_trans|done|done| |lia|lia|lia|].
    { intros s' d' Hin. destruct (Hsafe s' d') as [H|[H|H]]; [by right|left|right; left|right; right].
      - apply P1; [done|]. intros _ ->. apply Hd1. by apply (list_elem_of_fmap_2 fst _ (d, d')).
      - apply P1; [done|]. intros _ ->. apply Hd2. by apply (list_elem_of_fmap_2 snd _ (s', d)).
      - intros Hc. destruct (C1 _ Hc) as [|[-> | ->]]; [done| |].
        + apply Hs1. by apply (list_elem_of_fmap_2 fst _ (s, d')).
        + apply Hd1. by apply (list_elem_of_fmap_2 fst _ (d, d')). }
    exists st', l'. split.
    + rewrite (bind_done _ _ st (inl (Z.of_nat (length (pre ++ [(s, d)])))) st1); [exact E|].
      rewrite (Hbody st (length pre) s d Hlog) by (by rewrite E0, list_lookup_middle).
      m_step E1. unfold mret, M_ret. do 3 f_equal. rewrite length_app. simpl. lia.
    + split; [done|by eapply same_log_trans| |simpl; lia|simpl; lia| |].
      * rewrite D', D1. simpl. by rewrite <-app_assoc.
      * intros n Hn Hrec. apply P'; [apply P1; [done|]|]; intros Hr; specialize (Hrec Hr); simpl in Hrec;
          apply not_elem_of_cons in Hrec as [? ?]; done.
      * intros n Hn. destruct (C' n Hn) as [Hc|[Hc|Hc]]; [|right; left; by right|right; right; by right].
        destruct (C1 n Hc) as [|[-> | ->]]; [by left|right; left; by left|right; right; by left].
Qed.
End loops.

(** ** [write_log], [install_trans] and the header *)
Section log_operations.
Context {K : Type} `{!ObjAlloc K}.
Implicit Types (st : cache K) (l hb : list Z) (V : Z → list Z).

(** The blocks of the log after its header. *)
Definition log_blocks (ls : Z) (m : nat) : list Z := seqZ (ls + 1) (Z.of_nat m).

(** The header records the blocks [hb], none of them in the log itself. *)
Record log_ok (sb : SuperBlock) (h : LogHeader) hb : Prop := {
  lo_num : hnum h = Z.of_nat (length hb);
  lo_blocks : ∃ rest, hblocks h = hb ++ rest;
  lo_len : (length hb ≤ 63)%nat ∧ Z.of_nat (length hb) < num_log_blocks sb;
  lo_start : 0 ≤ log_start sb ∧ 0 < num_log_blocks sb ∧ log_start sb + num_log_blocks sb ≤ 2 ^ 32;
  lo_nodup : NoDup hb;
  lo_home : ∀ n, n ∈ hb → n < log_start sb ∨ log_start sb + num_log_blocks sb ≤ n
}.

Lemma log_blocks_elem ls m n : n ∈ log_blocks ls m ↔ ls + 1 ≤ n < ls + 1 + Z.of_nat m.
Proof. unfold log_blocks. rewrite elem_of_seqZ. lia. Qed.

Lemma log_blocks_lookup ls m (k : nat) : (k < m)%nat → log_blocks ls m !! k = Some (ls + 1 + Z.of_nat k).
Proof. intros H. unfold log_blocks. rewrite lookup_seqZ. lia. Qed.

Lemma log_blocks_length ls m : length (log_blocks ls m) = m.
Proof. unfold log_blocks. rewrite length_seqZ. lia. Qed.

Definition to_log ls hb : list (Z * Z) := zip hb (log_blocks ls (length hb)).
Definition from_log ls hb : list (Z * Z) := zip (log_blocks ls (length hb)) hb.

Lemma to_log_1 ls hb : (to_log ls hb).*1 = hb.
Proof. apply fst_zip. by rewrite log_blocks_length. Qed.
Lemma to_log_2 ls hb : (to_log ls hb).*2 = log_blocks ls (length hb).
Proof. apply snd_zip. by rewrite log_blocks_length. Qed.
Lemma from_log_1 ls hb : (from_log ls hb).*1 = log_blocks ls (length hb).
Proof. apply fst_zip. by rewrite log_blocks_length. Qed.
Lemma from_log_2 ls hb : (from_log ls hb).*2 = hb.
Proof. apply snd_zip. by rewrite log_blocks_length. Qed.
Lemma to_log_length ls hb : length (to_log ls hb) = length hb.
Proof. unfold to_log. rewrite length_zip, log_blocks_length. lia. Qed.
Lemma from_log_length ls hb : length (from_log ls hb) = length hb.
Proof. unfold from_log. rewrite length_zip, log_blocks_length. lia. Qed.

Lemma to_log_lookup ls hb k s d : to_log ls hb !! k = Some (s, d) → hb !! k = Some s ∧ d = ls + 1 + Z.of_nat k.
Proof.
  intros H. apply lookup_zip_Some in H as [H1 H2]. split; [done|].
  pose proof (lookup_lt_Some _ _ _ H1). rewrite log_blocks_lookup in H2 by lia. by simplify_eq.
Qed.
Lemma from_log_lookup ls hb k s d : from_log ls hb !! k = Some (s, d) → hb !! k = Some d ∧ s = ls + 1 + Z.of_nat k.
Proof.
  intros H. apply lookup_zip_Some in H as [H1 H2]. split; [done|].
  pose proof (lookup_lt_Some _ _ _ H2). rewrite log_blocks_lookup in H1 by lia. by simplify_eq.
Qed.

Lemma to_log_separate sb h hb : log_ok sb h hb → separate (to_log (log_start sb) hb).
Proof.
  intros Ho. pose proof (lo_len _ _ _ Ho). split; [rewrite to_log_1; apply Ho|]. rewrite to_log_1, to_log_2.
  split; [apply NoDup_seqZ|]. intros x Hx Hl%log_blocks_elem. apply (lo_home _ _ _ Ho) in Hx. lia.
Qed.
Lemma from_log_separate sb h hb : log_ok sb h hb → separate (from_log (log_start sb) hb).
Proof.
  intros Ho. pose proof (lo_len _ _ _ Ho). unfold separate. rewrite from_log_1, from_log_2.
  split; [apply NoDup_seqZ|]. split; [apply Ho|]. intros x Hl%log_blocks_elem Hx. apply (lo_home _ _ _ Ho) in Hx. lia.
Qed.

(** The number of the log block for place [k] does not wrap around. *)
Lemma log_no sb h hb (k : nat) : log_ok sb h hb → (k < length hb)%nat →
  u32 (log_start sb + Z.of_nat k + 1) = log_start sb + 1 + Z.of_nat k ∧ u32 (Z.of_nat k + 1) = Z.of_nat (S k).
Proof.
  intros Ho Hk. pose proof (lo_len _ _ _ Ho). pose proof (lo_start _ _ _ Ho).
  split; rewrite wrap_small by (unfold in_u; lia); lia.
Qed.

Lemma header_block_done st hb (k : nat) n : (∃ rest, hblocks (header st) = hb ++ rest) → hb !! k = Some n →
  header_block (Z.of_nat k) st = Done (n, st).
Proof.
  intros [rest E] Hk. unfold header_block, from_option_M, get, mbind, M_bind.
  by rewrite E, Nat2Z.id, (lookup_app_l_Some _ _ _ _ Hk).
Qed.

Lemma write_log_spec st l V hb F : log_ok (sblock st) (header st) hb → inv st l V [] → (∀ n, n ∈ hb → pin st n) →
  (length l + 2 * length hb < F)%nat → (2 * length hb ≤ obj_room (objs st))%nat →
  ∃ st' l', write_log F st = Done (tt, st') ∧ after_copies st l V false (to_log (log_start (sblock st)) hb) st' l'.
Proof.
  intros Ho I Hp HF Hr. set (ls := log_start (sblock st)). unfold write_log.
  eapply (copy_loop _ F false st (to_log ls hb)) with (pre := []);
    [| |done|by split|done|by eapply to_log_separate| |rewrite to_log_length; lia..].
  - intros s k n d [Es Eh _ _] Hk. apply to_log_lookup in Hk as [Hk ->].
    pose proof (lookup_lt_Some _ _ _ Hk) as Hlt. destruct (log_no _ _ _ _ Ho Hlt) as [N1 N2].
    rewrite (bind_done get _ s s s) by done. rewrite decide_True by (rewrite Eh, (lo_num _ _ _ Ho); lia).
    assert (Hb : header_block (Z.of_nat k) s = Done (n, s)).
    { apply (header_block_done _ hb); [rewrite Eh; apply Ho|done]. }
    m_step Hb. rewrite Es, N1, N2. unfold copy_block.
    do 4 (rewrite bind_assoc; apply bind_ext; intros ???).
    rewrite bind_assoc. erewrite (bind_done (mret tt)); [|done]. by rewrite bind_assoc.
  - intros s [_ Eh _ _]. rewrite to_log_length. rewrite (bind_done get _ s s s) by done.
    rewrite decide_False; [done|]. rewrite Eh, (lo_num _ _ _ Ho). lia.
  - intros n d Hin. left. apply Hp. rewrite <-(to_log_1 ls hb). by apply (list_elem_of_fmap_2 fst _ (n, d)).
Qed.

Lemma install_trans_spec st l V hb rec F : log_ok (sblock st) (header st) hb → inv st l V [] →
  safe st (from_log (log_start (sblock st)) hb) →
  (length l + 2 * length hb < F)%nat → (2 * length hb ≤ obj_room (objs st))%nat →
  ∃ st' l', install_trans F rec st = Done (tt, st') ∧ after_copies st l V rec (from_log (log_start (sblock st)) hb) st' l'.
Proof.
  intros Ho I Hsafe HF Hr. set (ls := log_start (sblock st)) in *. unfold install_trans.
  eapply (copy_loop _ F rec st (from_log ls hb)) with (pre := []);
    [| |done|by split|done|by eapply from_log_separate|done|rewrite from_log_length; lia..].
  - intros s k d n [Es Eh _ _] Hk. apply from_log_lookup in Hk as [Hk ->].
    pose proof (lookup_lt_Some _ _ _ Hk) as Hlt. destruct (log_no _ _ _ _ Ho Hlt) as [N1 N2].
    rewrite (bind_done get _ s s s) by done. rewrite decide_True by (rewrite Eh, (lo_num _ _ _ Ho); lia).
    rewrite Es, N1, N2. unfold copy_block. rewrite bind_assoc. apply bind_ext. intros lbuf s' Ea.
    assert (Hb : header_block (Z.of_nat k) s' = Done (n, s')).
    { apply (header_block_done _ hb); [|done]. rewrite (acquire_keeps_header _ _ _ _ _ Ea), Eh. apply Ho. }
    m_step Hb. repeat (rewrite bind_assoc; apply bind_ext; intros). done.
  - intros s [_ Eh _ _]. rewrite from_log_length. rewrite (bind_done get _ s s s) by done.
    rewrite decide_False; [done|]. rewrite Eh, (lo_num _ _ _ Ho). lia.
Qed.

(** Writing the header, which is never in the cache. *)
Lemma write_header_inv st l V : inv st l V [] → ¬ cached st (log_start (sblock st)) →
  let n := log_start (sblock st) in let x := header_bytes (header st) in
  let st' := set_dev (written_to n x (dev st)) st in
  write_header st = Done (tt, st') ∧ inv st' l (put n x V) [].
Proof.
  intros [R Hlk Hu Hd Hdisk Hl] Hc n x st'. split; [done|]. split; [by destruct R|done|done| | |done].
  - intros b B HB. rewrite put_ne; [by apply (Hd b)|]. intros Hn. apply Hc. by exists b, B.
  - intros n'. simpl. destruct (decide (n' = n)) as [->|Hne]; [left; by rewrite !put_eq|].
    rewrite !put_ne by done. apply Hdisk.
Qed.

Lemma clear_header_inv st l V : inv st l V [] → inv (set_header (mkHeader 0 (hblocks (header st))) st) l V [].
Proof. by intros [[] ? ? ? ? ?]. Qed.

(** ** [commit] *)

(** The writes of [commit], in order: the copies into the log, the header, the
    copies to their home, the empty header. *)
Definition log_writes ls hb V : list (Z * list Z) := zip (log_blocks ls (length hb)) (V <$> hb).
Definition home_writes hb V : list (Z * list Z) := (λ n, (n, V n)) <$> hb.
Definition commit_writes sb h hb V : list (Z * list Z) :=
  log_writes (log_start sb) hb V ++ [(log_start sb, header_bytes h)] ++
  home_writes hb V ++ [(log_start sb, header_bytes (mkHeader 0 (hblocks h)))].

Lemma log_writes_1 ls hb V : (log_writes ls hb V).*1 = log_blocks ls (length hb).
Proof. unfold log_writes. apply fst_zip. by rewrite log_blocks_length, length_fmap. Qed.
Lemma home_writes_1 hb V : (home_writes hb V).*1 = hb.
Proof. unfold home_writes. rewrite <-list_fmap_compose. apply list_fmap_id. Qed.

Lemma trace_to_log sb h hb V : log_ok sb h hb → trace (to_log (log_start sb) hb) V = log_writes (log_start sb) hb V.
Proof.
  intros Ho. rewrite trace_map by by eapply to_log_separate. unfold to_log, log_writes.
  generalize (log_blocks (log_start sb) (length hb)). clear. induction hb as [|x hb IH]; intros [|y l]; [done..|].
  simpl. f_equal. apply IH.
Qed.

(** What the log's blocks read once they hold the blocks [hb]. *)
Definition logged ls hb V (V1 : Z → list Z) : Prop :=
  ∀ (k : nat) n, hb !! k = Some n → V1 (ls + 1 + Z.of_nat k) = V n.

Lemma trace_from_log sb h hb V V1 : log_ok sb h hb → logged (log_start sb) hb V V1 →
  trace (from_log (log_start sb) hb) V1 = home_writes hb V.
Proof.
  intros Ho Hlog. rewrite trace_map by by eapply from_log_separate. apply list_eq. intros k.
  unfold home_writes. rewrite !list_lookup_fmap. destruct (from_log (log_start sb) hb !! k) as [[s d]|] eqn:E; simpl.
  - apply from_log_lookup in E as [E ->]. rewrite E. simpl. by rewrite (Hlog _ _ E).
  - apply lookup_ge_None in E. rewrite from_log_length in E. by rewrite lookup_ge_None_2.
Qed.

Lemma copied_to_log sb h hb V : log_ok sb h hb → logged (log_start sb) hb V (copied (to_log (log_start sb) hb) V).
Proof.
  intros Ho k n Hk. apply copied_at; [by eapply to_log_separate|]. apply list_elem_of_lookup. exists k.
  apply lookup_zip_Some. split; [done|]. apply log_blocks_lookup. by eapply lookup_lt_Some.
Qed.

Lemma copied_from_log sb h hb V V1 n : log_ok sb h hb → logged (log_start sb) hb V V1 → n ∈ hb →
  copied (from_log (log_start sb) hb) V1 n = V n.
Proof.
  intros Ho Hlog (k & Hk)%list_elem_of_lookup. rewrite <-(Hlog _ _ Hk).
  apply copied_at; [by eapply from_log_separate|]. apply list_elem_of_lookup. exists k.
  apply lookup_zip_Some. split; [|done]. apply log_blocks_lookup. by eapply lookup_lt_Some.
Qed.

(** Outside the log. *)
Definition outside_log (sb : SuperBlock) (n : Z) : Prop := n < log_start sb ∨ log_start sb + num_log_blocks sb ≤ n.

Lemma commit_spec st l V hb F : log_ok (sblock st) (header st) hb → hb ≠ [] → inv st l V [] →
  (∀ n, n ∈ hb → pin st n) → ¬ cached st (log_start (sblock st)) →
  (length l + 4 * length hb < F)%nat → (4 * length hb ≤ obj_room (objs st))%nat →
  let ws := commit_writes (sblock st) (header st) hb V in
  ∃ st' l' V', commit F st = Done (tt, st') ∧ dev st' = mkDev (replay ws (disk (dev st))) (written (dev st) ++ ws) ∧
    inv st' l' V' [] ∧ (∀ n, outside_log (sblock st) n → V' n = V n) ∧
    header st' = mkHeader 0 (hblocks (header st)) ∧ (∀ n, pin st n → pin st' n).
Proof.
  intros Ho Hne I Hp Hnc HF Hr ws. set (sb := sblock st) in *. set (ls := log_start sb) in *. set (h := header st) in *.
  pose proof (lo_len _ _ _ Ho) as Hlen.
  destruct (write_log_spec st l V hb F Ho I Hp) as (st1 & l1 & E1 & [I1 [G1 G1h G1l G1c] D1 N1 R1 P1 C1]); [lia|lia|].
  fold sb in D1, C1, I1, G1. fold h in G1h. fold ls in D1, C1, I1.
  rewrite to_log_length in N1, R1. rewrite to_log_1, to_log_2 in C1.
  pose proof (trace_to_log sb h hb V Ho) as T1. fold ls in T1. rewrite T1 in D1. set (V1 := copied (to_log ls hb) V) in *.
  assert (Hls : ls ∉ log_blocks ls (length hb)) by (rewrite log_blocks_elem; lia).
  assert (Hout : ∀ n, outside_log sb n → n ≠ ls ∧ n ∉ log_blocks ls (length hb)).
  { intros n Hn. rewrite log_blocks_elem. unfold outside_log in Hn. fold ls in Hn. lia. }
  assert (Hlsh : ls ∉ hb) by (intros Hx; apply (lo_home _ _ _ Ho) in Hx; fold ls in Hx; lia).
  destruct (write_header_inv st1 l1 V1 I1) as [E2 I2].
  { rewrite G1. fold ls. intros Hc. by destruct (C1 _ Hc) as [|[|]]. }
  rewrite G1, G1h in E2, I2. fold ls in E2, I2. set (st2 := set_dev _ st1) in E2, I2. set (V2 := put ls _ V1) in I2.
  assert (Hlog2 : logged ls hb V V2).
  { intros k n Hk. unfold V2. rewrite put_ne by lia. by apply (copied_to_log sb h hb V Ho). }
  assert (Ho2 : log_ok (sblock st2) (header st2) hb) by (simpl; by rewrite G1, G1h).
  destruct (install_trans_spec st2 l1 V2 hb false F Ho2 I2) as (st3 & l3 & E3 & [I3 [G3 G3h G3l G3c] D3 N3 R3 P3 C3]).
  { intros s d Hin. right; left. destruct (P1 d) as (x & X & Hx); [|done|by exists x, X].
    apply Hp. apply (list_elem_of_fmap_2 snd) in Hin. by rewrite from_log_2 in Hin. }
  { simpl. lia. } { simpl. lia. }
  simpl in G3, G3h, D3, I3, C3. rewrite G1 in *. fold ls in D3, I3, C3. rewrite from_log_1, from_log_2 in C3.
  pose proof (trace_from_log sb h hb V V2 Ho Hlog2) as T3. fold ls in T3. rewrite T3 in D3. set (V3 := copied (from_log ls hb) V2) in *.
  set (st4 := set_header (mkHeader 0 (hblocks (header st3))) st3).
  pose proof (clear_header_inv _ _ _ I3) as I4. fold st4 in I4.
  destruct (write_header_inv st4 l3 V3 I4) as [E5 I5].
  { simpl. rewrite G3. fold ls. intros Hc. destruct (C3 ls Hc) as [Hc1|[Hx|Hx]]; [|exact (Hls Hx)|by apply Hlsh].
    by destruct (C1 ls Hc1) as [|[|]]. }
  simpl in E5, I5. rewrite G3, G3h, G1h in E5, I5. fold ls in E5, I5. set (st5 := set_dev _ st4) in E5, I5.
  exists st5, l3. eexists. split; [|split; [|split; [exact I5|split; [|split; [simpl; by rewrite G3h, G1h|]]]]].
  - unfold commit. rewrite (bind_done get _ st st st) by done. fold h. rewrite (lo_num _ _ _ Ho). rewrite decide_True by (destruct hb; simpl; [done|lia]).
    m_step E1. m_step E2. m_step E3. rewrite (bind_done clear_header _ st3 tt st4) by done. exact E5.
  - simpl. rewrite D3, D1. unfold written_to, ws, commit_writes. fold ls. simpl. rewrite !replay_app. simpl.
    rewrite replay_app. by rewrite <-!app_assoc.
  - intros n Hn. apply Hout in Hn as [Hn1 Hn2]. rewrite put_ne by done. unfold V3. destruct (decide (n ∈ hb)) as [Hin|Hin].
    + by apply (copied_from_log sb h hb V V2 n Ho).
    + rewrite copied_other by by rewrite from_log_2. unfold V2. rewrite put_ne by done.
      unfold V1. apply copied_other. by rewrite to_log_2.
  - intros n Hpn. destruct (P3 n) as (x & X & Hx); [|done|by exists x, X]. by apply P1.
Qed.
End log_operations.

(** ** Recovery *)
Section recovery.
Context {K : Type} `{!ObjAlloc K}.
Implicit Types (st r : cache K) (l hb : list Z) (V D : Z → list Z).

(** The machine has started again: nothing is cached; the list head is allocated. *)
Record rebooted r D : Prop := {
  rb_disk : disk (dev r) = D;
  rb_head : is_Some (cnodes r !! cache_head);
  rb_blocks : cblocks r = ∅;
  rb_objs : obj_ok (objs r) ∅;
  rb_room : (126 ≤ obj_room (objs r))%nat
}.

Lemma recover_spec sb r D hb F : rebooted r D → log_ok sb (header_of (D (log_start sb))) hb → (126 < F)%nat →
  ∃ r' l' V', init_bcache F sb r = Done (tt, r') ∧ inv r' l' V' [] ∧
    V' (log_start sb) = header_bytes (mkHeader 0 (hblocks (header_of (D (log_start sb))))) ∧
    (∀ n, n ≠ log_start sb → n ∉ hb → disk (dev r') n = D n) ∧
    (∀ (k : nat) n, hb !! k = Some n → disk (dev r') n = D (log_start sb + 1 + Z.of_nat k)).
Proof.
  intros [Hdisk Hh Hb Ho Hr] Hok HF. set (ls := log_start sb) in *. set (h := header_of (D ls)) in *.
  pose proof (lo_len _ _ _ Hok) as Hlen.
  destruct (init_list_node_spec (cnodes r) cache_head) as (h1 & E1 & _ & R1); [done|done|].
  set (r1 := mkCache sb (dev r) false h (mkLog false 0 0 (outstanding (log r)) (committing (log r)) 0
    (MIN (u32 (num_log_blocks sb - 1)) LOG_MAX_SIZE)) h1 (cblocks r) (ctxs r) (objs r)).
  assert (I1 : inv r1 [] D []).
  { split; [split; [exact R1| |exact Ho]|done|..]; simpl; rewrite ?Hb.
    - intros b. rewrite lookup_empty. split; [by intros [? ?]|by intros ?%elem_of_nil].
    - intros b1 b2 B1 B2. simpl. by rewrite Hb, lookup_empty.
    - intros b B. by rewrite lookup_empty.
    - intros n. left. by rewrite Hdisk.
    - intros b B. by rewrite lookup_empty. }
  assert (Hnc : ∀ n, ¬ cached r1 n) by (intros n (b & B & HB & _); simpl in HB; by rewrite Hb in HB).
  destruct (install_trans_spec r1 [] D hb true F Hok I1) as (r2 & l2 & E2 & [I2 [G2 G2h _ _] D2 _ _ _ C2]);
    [intros s d _; right; by right|simpl; lia|simpl; lia|].
  simpl in G2, G2h, D2, C2, I2. fold ls in D2, C2, I2. rewrite from_log_1, from_log_2 in C2.
  pose proof (clear_header_inv _ _ _ I2) as I3. set (r3 := set_header _ r2) in I3.
  assert (Hls : ls ∉ hb) by (intros Hx; apply (lo_home _ _ _ Hok) in Hx; fold ls in Hx; lia).
  destruct (write_header_inv r3 l2 _ I3) as [E4 I4].
  { simpl. rewrite G2. fold ls. intros Hc. destruct (C2 ls Hc) as [Hc1|[Hx|Hx]]; [by apply (Hnc ls)| |by apply Hls].
    apply log_blocks_elem in Hx. lia. }
  simpl in E4, I4. rewrite G2, G2h in E4, I4. fold ls in E4, I4. set (r4 := set_dev _ r3) in E4, I4.
  assert (Hrun : init_bcache F sb r = Done (tt, r4)).
  { unfold init_bcache. rewrite (bind_done _ _ r tt (mkCache sb (dev r) (lock r) (header r) (log r) (cnodes r) (cblocks r) (ctxs r) (objs r))) by done.
    erewrite bind_done; [|apply (on_nodes_done (S := cache K)); exact E1].
    unfold on_lock, init_spinlock, put. unfold mbind at 1 2, M_bind at 1 2. unfold modify at 1. simpl.
    unfold recover_from_log. erewrite bind_done; [|done]. unfold set_header, set_log. simpl. rewrite Hdisk. fold ls h.
    fold r1. m_step E2. rewrite (bind_done clear_header _ r2 tt r3) by done. exact E4. }
  exists r4, l2. eexists. split; [exact Hrun|]. split; [exact I4|]. split; [by rewrite put_eq|].
  assert (Hd4 : ∀ n, n ≠ ls → disk (dev r4) n = replay (trace (from_log ls hb) D) D n).
  { intros n Hn. simpl. rewrite D2. unfold written_to. simpl. rewrite put_ne by done. by rewrite Hdisk. }
  assert (Htr : trace (from_log ls hb) D = (λ p, (p.2, D p.1)) <$> from_log ls hb).
  { apply trace_map. by eapply from_log_separate. }
  assert (H1 : ((λ p : Z * Z, (p.2, D p.1)) <$> from_log ls hb).*1 = hb).
  { rewrite <-list_fmap_compose. apply from_log_2. }
  split.
  - intros n Hn Hin. rewrite Hd4, Htr by done. apply replay_other. by rewrite H1.
  - intros k n Hk. assert (n ∈ hb) as Hin by by eapply list_elem_of_lookup_2.
    rewrite Hd4, Htr by (intros ->; done). apply replay_in; [rewrite H1; apply Hok|].
    apply (list_elem_of_fmap_2 (λ p : Z * Z, (p.2, D p.1)) _ (ls + 1 + Z.of_nat k, n)). apply list_elem_of_lookup. exists k.
    apply lookup_zip_Some. split; [|done]. apply log_blocks_lookup. by eapply lookup_lt_Some.
Qed.

(** The header on the device, read back. *)
Definition on_device D (sb : SuperBlock) hb : Prop := log_ok sb (header_of (D (log_start sb))) hb.

Lemma on_device_empty D sb : hnum (header_of (D (log_start sb))) = 0 →
  0 ≤ log_start sb ∧ 0 < num_log_blocks sb ∧ log_start sb + num_log_blocks sb ≤ 2 ^ 32 → on_device D sb [].
Proof. intros Hn Hs. split; [done|by eexists|simpl; lia|done|apply NoDup_nil_2|by intros n ?%elem_of_nil]. Qed.

(** Where a prefix of the writes of a commit ends. *)
Lemma take_commit (A B : list (Z * list Z)) x y k :
  let ws := A ++ [x] ++ B ++ [y] in
  if decide (k ≤ length A)%nat then take k ws = take k A
  else (∃ i, take k ws = A ++ [x] ++ take i B) ∨ take k ws = ws.
Proof.
  intros ws. destruct (decide (k ≤ length A)%nat) as [H1|H1].
  { unfold ws. rewrite take_app. replace (k - length A)%nat with 0%nat by lia. by rewrite take_0, app_nil_r. }
  destruct (decide (k ≤ length A + 1 + length B)%nat) as [H2|H2]; [left|right].
  - exists (k - length A - 1)%nat. unfold ws. rewrite take_app_ge by lia. f_equal.
    rewrite (take_app_ge [x]) by (simpl; lia). f_equal. rewrite take_app. simpl.
    replace (k - length A - 1 - length B)%nat with 0%nat by lia. by rewrite take_0, app_nil_r.
  - apply take_ge. unfold ws. rewrite !length_app. simpl. lia.
Qed.

(** The device in the middle of a commit. *)
Section middle.
Context (sb : SuperBlock) (h : LogHeader) (hb : list Z) (V D0 : Z → list Z) (Hok : log_ok sb h hb).
Let ls := log_start sb.

Lemma outside_log_blocks n : outside_log sb n → n ≠ ls ∧ n ∉ log_blocks ls (length hb).
Proof. pose proof (lo_len _ _ _ Hok). intros Hn. rewrite log_blocks_elem. unfold outside_log in Hn. fold ls in Hn. lia. Qed.

Lemma start_not_logged : ls ∉ log_blocks ls (length hb) ∧ ls ∉ hb.
Proof.
  pose proof (lo_len _ _ _ Hok).
  split; [rewrite log_blocks_elem; lia|]. intros Hx. apply (lo_home _ _ _ Hok) in Hx. fold ls in Hx. lia.
Qed.

(** Until the header is written only the log changes. *)
Lemma before_header k n : n ∉ log_blocks ls (length hb) → replay (take k (log_writes ls hb V)) D0 n = D0 n.
Proof.
  intros Hn. apply replay_other. rewrite fmap_take, log_writes_1. intros Hin. apply Hn.
  apply list_elem_of_lookup in Hin as [i Hi]. apply lookup_take_Some in Hi as [Hi _]. by eapply list_elem_of_lookup_2.
Qed.

Definition with_log : Z → list Z := replay (log_writes ls hb V) D0.

Lemma with_log_at (k : nat) n : hb !! k = Some n → with_log (ls + 1 + Z.of_nat k) = V n.
Proof.
  intros Hk. apply replay_in; [rewrite log_writes_1; apply NoDup_seqZ|]. apply list_elem_of_lookup. exists k.
  apply lookup_zip_Some. split; [apply log_blocks_lookup; by eapply lookup_lt_Some|].
  by rewrite list_lookup_fmap, Hk.
Qed.

Lemma with_log_other n : n ∉ log_blocks ls (length hb) → with_log n = D0 n.
Proof. intros Hn. apply replay_other. by rewrite log_writes_1. Qed.

(** From the header on, the log keeps the new contents while they are copied. *)
Lemma after_header i x n : let D := replay (take i (home_writes hb V)) (put ls x with_log) in
  (n = ls → D n = x) ∧ (∀ k m, hb !! k = Some m → n = ls + 1 + Z.of_nat k → D n = V m) ∧
  (outside_log sb n → n ∉ hb → D n = D0 n).
Proof.
  assert (Hsub : ∀ y, y ∈ (take i (home_writes hb V)).*1 → y ∈ hb).
  { intros y. rewrite fmap_take, home_writes_1. intros Hin.
    apply list_elem_of_lookup in Hin as [j Hj]. apply lookup_take_Some in Hj as [Hj _]. by eapply list_elem_of_lookup_2. }
  destruct start_not_logged as [Hl1 Hl2]. intros D. split; [|split].
  - intros ->. unfold D. rewrite replay_other by (intros Hy; by apply Hl2, Hsub). apply put_eq.
  - intros k m Hk ->. pose proof (lookup_lt_Some _ _ _ Hk) as Hlt. pose proof (lo_len _ _ _ Hok) as Hlen.
    unfold D. rewrite replay_other.
    + rewrite put_ne by lia. by apply with_log_at.
    + intros Hy%Hsub. apply (lo_home _ _ _ Hok) in Hy. fold ls in Hy. lia.
  - intros Hn Hin. destruct (outside_log_blocks n Hn). unfold D.
    rewrite replay_other by (intros Hy; by apply Hin, Hsub). rewrite put_ne by done. by apply with_log_other.
Qed.

(** All the copies done. *)
Lemma after_homes x y n : outside_log sb n →
  replay (home_writes hb V ++ [(ls, y)]) (put ls x with_log) n = if decide (n ∈ hb) then V n else D0 n.
Proof.
  intros Hn. destruct (outside_log_blocks n Hn) as [H1 H2]. rewrite replay_app. simpl. rewrite put_ne by done.
  destruct (decide (n ∈ hb)) as [Hin|Hin].
  - apply replay_in; [rewrite home_writes_1; apply Hok|]. by apply (list_elem_of_fmap_2 (λ n, (n, V n))).
  - rewrite replay_other by by rewrite home_writes_1. rewrite put_ne by done. by apply with_log_other.
Qed.
End middle.

Lemma empty_header bs : hnum (header_of (header_bytes (mkHeader 0 bs))) = 0.
Proof. done. Qed.

(** Recovery of a device whose log is empty changes nothing. *)
Lemma recover_empty sb r D F : rebooted r D → hnum (header_of (D (log_start sb))) = 0 →
  0 ≤ log_start sb ∧ 0 < num_log_blocks sb ∧ log_start sb + num_log_blocks sb ≤ 2 ^ 32 → (126 < F)%nat →
  ∃ r' l' V', init_bcache F sb r = Done (tt, r') ∧ inv r' l' V' [] ∧ hnum (header_of (V' (log_start sb))) = 0 ∧
    ∀ n, outside_log sb n → disk (dev r') n = D n.
Proof.
  intros Hr H0 Hs HF. destruct (recover_spec sb r D [] F Hr (on_device_empty _ _ H0 Hs) HF)
    as (r' & l' & V' & E & I & Hh & Hd & _).
  exists r', l', V'. split; [done|]. split; [done|]. split; [by rewrite Hh|].
  intros n Hn. apply Hd; [destruct Hn; lia|by intros ?%elem_of_nil].
Qed.

(** Recovery of a device in the middle of the copies home. *)
Lemma recover_middle sb h hb V D0 r F i : log_ok sb h hb → header_of (header_bytes h) = h →
  rebooted r (replay (take i (home_writes hb V)) (put (log_start sb) (header_bytes h) (with_log sb hb V D0))) →
  (∀ n, outside_log sb n → n ∉ hb → V n = D0 n) → (126 < F)%nat →
  ∃ r' l' V', init_bcache F sb r = Done (tt, r') ∧ inv r' l' V' [] ∧ hnum (header_of (V' (log_start sb))) = 0 ∧
    ∀ n, outside_log sb n → disk (dev r') n = V n.
Proof.
  intros Ho Hrt Hr Hclean HF. set (D := replay _ _) in Hr.
  assert (A : ∀ n, _) by (intros n; exact (after_header sb h hb V D0 Ho i (header_bytes h) n)). fold D in A.
  assert (Hls : D (log_start sb) = header_bytes h) by by apply A.
  destruct (recover_spec sb r D hb F Hr) as (r' & l' & V' & E & I & Hh & Hd1 & Hd2); [by rewrite Hls, Hrt|done|].
  exists r', l', V'. split; [done|]. split; [done|]. split; [by rewrite Hh|]. intros n Hn.
  destruct (outside_log_blocks sb h hb Ho n Hn) as [Hn1 _].
  destruct (decide (n ∈ hb)) as [Hin|Hin].
  - apply list_elem_of_lookup in Hin as [k Hk]. rewrite (Hd2 _ _ Hk). by eapply A.
  - rewrite Hd1 by done. rewrite Hclean by done. exact (proj2 (proj2 (A n)) Hn Hin).
Qed.

(** [commit], with a crash after any of its writes. *)
Lemma commit_crash st l V hb F : log_ok (sblock st) (header st) hb → hb ≠ [] →
  length (hblocks (header st)) = 63%nat → Forall (in_u 64) (hblocks (header st)) →
  inv st l V [] → (∀ n, n ∈ hb → pin st n) → ¬ cached st (log_start (sblock st)) →
  (∀ n, outside_log (sblock st) n → n ∉ hb → V n = disk (dev st) n) →
  hnum (header_of (disk (dev st) (log_start (sblock st)))) = 0 →
  (length l + 4 * length hb + 126 < F)%nat → (4 * length hb ≤ obj_room (objs st))%nat →
  ∃ st' ws, commit F st = Done (tt, st') ∧ written (dev st') = written (dev st) ++ ws ∧
    (∀ n, outside_log (sblock st) n → disk (dev st') n = V n) ∧
    ∀ k r, rebooted r (replay (take k ws) (disk (dev st))) →
      ∃ r' l' V', init_bcache F (sblock st) r = Done (tt, r') ∧ inv r' l' V' [] ∧
        hnum (header_of (V' (log_start (sblock st)))) = 0 ∧
        ∀ n, outside_log (sblock st) n →
          disk (dev r') n = if decide (k ≤ length hb)%nat then disk (dev st) n else V n.
Proof.
  intros Ho Hne Hl63 Hw I Hp Hnc Hclean H0 HF Hr. set (sb := sblock st) in *. set (h := header st) in *.
  destruct (commit_spec st l V hb F Ho Hne I Hp Hnc) as (st' & l' & V' & E & Hdev & _); [lia|done|].
  fold sb h in Hdev. set (ws := commit_writes sb h hb V) in *. set (D0 := disk (dev st)) in *.
  assert (Hnum : in_u 64 (hnum h)).
  { rewrite (lo_num _ _ _ Ho). pose proof (lo_len _ _ _ Ho). unfold in_u. lia. }
  assert (Hrt : header_of (header_bytes h) = h) by by apply header_of_bytes.
  exists st', ws. split; [done|]. rewrite Hdev. split; [done|].
  assert (Hfin : ∀ n, outside_log sb n → replay ws D0 n = V n).
  { intros n Hn. unfold ws, commit_writes. rewrite replay_app. simpl.
    rewrite (after_homes sb h hb V D0 Ho _ _ _ Hn). destruct (decide (n ∈ hb)); [done|]. by rewrite Hclean. }
  split; [done|]. intros k r Hk.
  pose proof (take_commit (log_writes (log_start sb) hb V) (home_writes hb V) (log_start sb, header_bytes h)
    (log_start sb, header_bytes (mkHeader 0 (hblocks h))) k) as T. cbv zeta in T. fold (commit_writes sb h hb V) ws in T.
  replace (length (log_writes (log_start sb) hb V)) with (length hb) in T.
  2:{ unfold log_writes. rewrite length_zip, log_blocks_length, length_fmap. lia. }
  destruct (start_not_logged sb h hb Ho) as [Hs1 Hs2].
  destruct (decide (k ≤ length hb)%nat) as [Hkl|Hkl]; [|destruct T as [(i & T)|T]]; rewrite T in Hk.
  - destruct (recover_empty sb r _ F Hk) as (r' & l2 & V2 & Er & I2 & Hh2 & Hd2); [|apply Ho|lia|].
    { rewrite (before_header sb hb V D0) by exact Hs1. exact H0. }
    exists r', l2, V2. split; [exact Er|]. split; [exact I2|]. split; [exact Hh2|]. intros n Hn. rewrite Hd2 by done.
    by apply (before_header sb hb V D0), (outside_log_blocks sb h hb Ho n Hn).
  - rewrite replay_app in Hk. by apply (recover_middle sb h hb V D0 r F i Ho Hrt Hk); [|lia].
  - destruct (recover_empty sb r _ F Hk) as (r' & l2 & V2 & Er & I2 & Hh2 & Hd2); [|apply Ho|lia|].
    { unfold ws, commit_writes. rewrite !replay_app. simpl. by rewrite put_eq. }
    exists r', l2, V2. split; [exact Er|]. split; [exact I2|]. split; [exact Hh2|]. intros n Hn. rewrite Hd2 by done. by apply Hfin.
Qed.

(** C1: the log makes transactions atomic. [commit] of the blocks [hb] of the
    header, cached and pinned, whose contents in the cache are [V], finishes and
    leaves [V] on the device. If power is lost after any number [k] of its writes
    to the device, the next [init_bcache] finishes too and leaves, outside the
    log, exactly what was there before the transaction if the header had not been
    written ([k] at most the number of blocks), and exactly [V] if it had; the
    log is empty afterwards, so that further crashes change nothing. *)
Theorem commit_crash_safe st l V hb F : log_ok (sblock st) (header st) hb → hb ≠ [] →
  length (hblocks (header st)) = 63%nat → Forall (in_u 64) (hblocks (header st)) →
  inv st l V [] → (∀ n, n ∈ hb → pin st n) → ¬ cached st (log_start (sblock st)) →
  (∀ n, outside_log (sblock st) n → n ∉ hb → V n = disk (dev st) n) →
  hnum (header_of (disk (dev st) (log_start (sblock st)))) = 0 →
  (length l + 4 * length hb + 126 < F)%nat → (4 * length hb ≤ obj_room (objs st))%nat →
  ∃ st' ws, commit F st = Done (tt, st') ∧ written (dev st') = written (dev st) ++ ws ∧
    (∀ n, outside_log (sblock st) n → disk (dev st') n = V n) ∧
    ∀ k r, rebooted r (replay (take k ws) (disk (dev st))) →
      ∃ r' l' V', init_bcache F (sblock st) r = Done (tt, r') ∧ inv r' l' V' [] ∧
        hnum (header_of (V' (log_start (sblock st)))) = 0 ∧
        ∀ n, outside_log (sblock st) n →
          disk (dev r') n = if decide (k ≤ length hb)%nat then disk (dev st) n else V n.
Proof. exact (commit_crash st l V hb F). Qed.
End recovery.

(** ** A transaction on one block *)
Definition sample_super : SuperBlock := mkSuper 1000 900 100 64 2 70 80.
Definition sample_device : Z → list Z := λ _, replicate 512 0.
(** Block 500 at address 100, changed and pinned. *)
Definition sample_cache : cache Z :=
  mkCache sample_super (mkDev sample_device []) false (mkHeader 1 (500 :: replicate 62 0)) (mkLog false 0 0 0 0 0 63)
    {[ 8 := mkNode 108 108; 108 := mkNode 8 8 ]} {[ 100 := mkBlock 500 false true 1 true (replicate 512 7) ]} ∅ 4096.
Definition sample_contents : Z → list Z := put 500 (replicate 512 7) sample_device.

Lemma sample_blocks b B : cblocks sample_cache !! b = Some B → 100 = b ∧ mkBlock 500 false true 1 true (replicate 512 7) = B.
Proof. apply lookup_singleton_Some. Qed.

Lemma sample_inv : inv sample_cache [100] sample_contents [].
Proof.
  split; [split| | | | |].
  - apply (bool_decide_unpack _). by vm_compute.
  - intros b. simpl. rewrite lookup_singleton_is_Some, list_elem_of_singleton. naive_solver.
  - split; [done|]. intros x Hx. simpl in Hx. set_solver by lia.
  - done.
  - intros b1 b2 B1 B2 [<- <-]%sample_blocks [<- <-]%sample_blocks. done.
  - intros b B [<- <-]%sample_blocks. by vm_compute.
  - intros n. unfold sample_contents. destruct (decide (n = 500)) as [->|Hn]; [right|left; by rewrite put_ne].
    eexists 100, _. by split.
  - intros b B [<- <-]%sample_blocks. done.
Qed.

Lemma commit_crash_safe_witness : ∃ st' ws, commit 200 sample_cache = Done (tt, st') ∧
  disk (dev st') 500 = replicate 512 7 ∧
  ∃ r', init_bcache 200 sample_super (mkCache sample_super (mkDev (replay (take 1 ws) sample_device) []) true (mkHeader 9 [])
      (mkLog true 0 0 0 0 0 0) {[ 8 := mkNode 0 0 ]} ∅ ∅ 4096) = Done (tt, r') ∧ disk (dev r') 500 = replicate 512 0.
Proof.
  destruct (commit_crash_safe sample_cache [100] sample_contents [500] 200) as (st' & ws & E & Ew & Hd & Hcrash).
  - split; [done|by eexists|simpl; lia|by split|apply NoDup_singleton|]. intros n ->%list_elem_of_singleton. right. by vm_compute.
  - done.
  - done.
  - apply (bool_decide_unpack _). by vm_compute.
  - exact sample_inv.
  - intros n ->%list_elem_of_singleton. eexists 100, _. by split.
  - intros (b & B & [<- <-]%sample_blocks & Hn). done.
  - intros n _ Hn. unfold sample_contents. rewrite put_ne; [done|]. intros ->. apply Hn. by left.
  - by vm_compute.
  - simpl. lia.
  - simpl. lia.
  - exists st', ws. split; [exact E|]. split; [rewrite Hd; [done|right; by vm_compute]|].
    edestruct (Hcrash 1%nat (mkCache sample_super (mkDev (replay (take 1 ws) sample_device) []) true (mkHeader 9 [])
      (mkLog true 0 0 0 0 0 0) {[ 8 := mkNode 0 0 ]} ∅ ∅ 4096)) as (r' & l' & V' & Er & _ & _ & Hr).
    2:{ exists r'. split; [exact Er|]. etrans; [apply Hr; right; by vm_compute|]. clear. vm_compute. reflexivity. }
    split; [reflexivity|by eexists|reflexivity| |simpl; lia]. clear. split; [done|].
    intros x Hx. by apply not_elem_of_empty in Hx.
Defined.
