(* ===== verification/LogSpace.v ===== *)
(** * The log has room

    The counters of the log ([cache_begin_op], [cache_sync], [cache_end_op]) under
    any interleaving of any number of operations: the log never overflows, and
    an operation that stays within its blocks is never stopped for lack of room
    while the header has a free place. *)
From S2P Require Import Prelude Words Atomics Lists Cache CacheSpec.

Section space.
Context {K : Type} `{!ObjAlloc K}.
Implicit Types (st : cache K) (c b : Z).

#[local] Hint Resolve keeps_nodes keeps_objs keeps_lock keeps_get_block keeps_set_block keeps_nofuel acquire_keeps : keeps.

Lemma get_keeps : keeps logpart (get (S := cache K)).
Proof. by intros s a s' [= _ ->]. Qed.
Lemma option_keeps {A} (o : option A) : keeps logpart (from_option_M (S := cache K) o).
Proof. destruct o; [apply keeps_ret|by apply keeps_fail]. Qed.
#[local] Hint Resolve get_keeps option_keeps : keeps.

Lemma release_keeps b : keeps logpart (cache_release (K := K) b).
Proof. unfold cache_release, release_sleeplock. keeps_tac. Qed.
Lemma device_write_keeps b : keeps logpart (device_write (K := K) b).
Proof. unfold device_write, device_write_to. keeps_tac. Qed.
Lemma write_header_keeps : keeps logpart (write_header (K := K)).
Proof. unfold write_header, device_write_to. keeps_tac. Qed.
#[local] Hint Resolve release_keeps device_write_keeps write_header_keeps : keeps.

Lemma write_log_keeps fuel : keeps logpart (write_log (K := K) fuel).
Proof. unfold write_log, copy_data, header_block. keeps_tac. Qed.
Lemma install_trans_keeps fuel rec : keeps logpart (install_trans (K := K) fuel rec).
Proof. unfold install_trans, copy_data, header_block, set_pinned. keeps_tac. Qed.

(** A commit empties the header and leaves the counters. *)
Lemma commit_log fuel st st' : commit fuel st = Done (tt, st') → 0 ≤ hnum (header st) →
  header st' = mkHeader 0 (hblocks (header st)) ∧ log st' = log st ∧ ctxs st' = ctxs st.
Proof.
  unfold commit. intros E Hn. apply bind_inv in E as (s & s1 & [= -> ->] & E).
  destruct (decide (hnum (header s1) > 0)) as [Hp|Hp].
  - apply bind_inv in E as ([] & s2 & E2%write_log_keeps & E). apply bind_inv in E as ([] & s3 & E3%write_header_keeps & E).
    apply bind_inv in E as ([] & s4 & E4%install_trans_keeps & E). apply bind_inv in E as ([] & s5 & E5 & E).
    apply write_header_keeps in E. injection E5 as <-. unfold logpart in *. simpl in E. split_and!; congruence.
  - injection E as <-. destruct (header s1) as [m bs] eqn:Eh. simpl in *. assert (m = 0) as -> by lia. done.
Qed.

(** ** The invariant *)
Definition reserved (m : gmap Z Z) : Z := map_fold (λ _, Z.add) 0 m.

Record space st : Prop := {
  sp_lock : llock (log st) = false;
  sp_mx : 0 ≤ mx (log st) ≤ LOG_MAX_SIZE;
  sp_num : 0 ≤ hnum (header st);
  sp_len : length (hblocks (header st)) = 63%nat;
  sp_nodup : NoDup (take (Z.to_nat (hnum (header st))) (hblocks (header st)));
  sp_rm : ∀ c rm, ctxs st !! c = Some rm → 0 ≤ rm ≤ OP_MAX_NUM_BLOCKS;
  sp_mu : mu (log st) = reserved (ctxs st);
  sp_room : hnum (header st) + mu (log st) ≤ mx (log st);
  sp_out : outstanding (log st) = Z.of_nat (size (ctxs st));
  sp_ops : OP_MAX_NUM_BLOCKS * outstanding (log st) ≤ hnum (header st) + mu (log st);
  sp_commit : committing (log st) = 0 ∨ committing (log st) = 1 ∧ ctxs st = ∅
}.

Lemma reserved_insert m c v : m !! c = None → reserved (<[c := v]> m) = v + reserved m.
Proof. intros H. unfold reserved. rewrite map_fold_insert_L; [done|intros; lia|done]. Qed.
Lemma reserved_delete m c v : m !! c = Some v → reserved m = v + reserved (delete c m).
Proof. intros H. rewrite <-(insert_delete_id m c v H) at 1. apply reserved_insert, lookup_delete_eq. Qed.
Lemma reserved_nonneg m : (∀ c v, m !! c = Some v → 0 ≤ v) → 0 ≤ reserved m.
Proof.
  induction m as [|c v m Hc IH] using map_ind; intros H; [done|]. rewrite reserved_insert by done.
  assert (0 ≤ v) by (apply (H c); apply lookup_insert_eq).
  assert (0 ≤ reserved m); [|lia]. apply IH. intros c' v' Hv. apply (H c'). rewrite lookup_insert_ne; [done|]. congruence.
Qed.

Lemma space_mu st : space st → 0 ≤ mu (log st).
Proof. intros H. rewrite (sp_mu _ H). apply reserved_nonneg. intros c v Hv. apply (sp_rm _ H) in Hv; lia. Qed.

(** The invariant only sees the header, the counters and the contexts. *)
Lemma space_ext st st' : logpart st' = logpart st → space st → space st'.
Proof. intros E [? ? ? ? ? ? ? ? ? ? ?]. injection E as E1 E2 E3. split; rewrite ?E1, ?E2, ?E3; done. Qed.

(** ** Adding a block to the log *)
Definition logged st : list Z := take (Z.to_nat (hnum (header st))) (hblocks (header st)).

Lemma find_logged_spec bs no cnt : ∀ i, let r := find_logged bs no i cnt in
  (i ≤ r ≤ i + cnt)%nat ∧ ((r < i + cnt)%nat → bs !! r = Some no) ∧ ∀ j, (i ≤ j < r)%nat → bs !! j ≠ Some no.
Proof.
  induction cnt as [|cnt IH]; intros i; cbn zeta; simpl; [split; [lia|split; intros; lia]|].
  destruct (decide (bs !! i = Some no)) as [E|E]; [split; [lia|split; [done|intros; lia]]|].
  destruct (IH (S i)) as (H1 & H2 & H3). split; [lia|]. split; [intros; apply H2; lia|].
  intros j Hj. destruct (decide (j = i)) as [->|]; [done|]. apply H3. lia.
Qed.

(** [find_logged] decides membership among the logged blocks. *)
Lemma find_logged_in st no : 0 ≤ hnum (header st) ≤ Z.of_nat (length (hblocks (header st))) → no ∈ logged st →
  ∃ i, find_logged (hblocks (header st)) no 0 (Z.to_nat (hnum (header st))) = i ∧
    Z.of_nat i < hnum (header st) ∧ hblocks (header st) !! i = Some no.
Proof.
  intros Hn Hin. destruct (find_logged_spec (hblocks (header st)) no (Z.to_nat (hnum (header st))) 0) as (H1 & H2 & H3).
  cbn zeta in *. eexists. split; [done|]. apply list_elem_of_lookup in Hin as [j Hj]. apply lookup_take_Some in Hj as [Hj Hlt].
  destruct (decide (find_logged (hblocks (header st)) no 0 (Z.to_nat (hnum (header st))) < Z.to_nat (hnum (header st)))%nat) as [Hc|Hc].
  - split; [lia|]. apply H2. lia.
  - destruct (H3 j); [lia|done].
Qed.

Lemma find_logged_out st no : 0 ≤ hnum (header st) ≤ Z.of_nat (length (hblocks (header st))) → no ∉ logged st →
  find_logged (hblocks (header st)) no 0 (Z.to_nat (hnum (header st))) = Z.to_nat (hnum (header st)).
Proof.
  intros Hn Hin. destruct (find_logged_spec (hblocks (header st)) no (Z.to_nat (hnum (header st))) 0) as (H1 & H2 & H3).
  cbn zeta in *. destruct (decide (find_logged (hblocks (header st)) no 0 (Z.to_nat (hnum (header st))) < Z.to_nat (hnum (header st)))%nat) as [Hc|Hc]; [|lia].
  destruct Hin. eapply list_elem_of_lookup_2, lookup_take_Some. split; [apply H2; lia|lia].
Qed.

(** The state after [cache_sync] has added block [b]. *)
Definition synced st c b B rm : cache K :=
  let g := log st in let h := header st in
  mkCache (sblock st) (dev st) (lock st) (mkHeader (hnum h + 1) (<[Z.to_nat (hnum h) := block_no B]> (hblocks h)))
    (mkLog (llock g) (lsem g) (outstandingsem g) (outstanding g) (committing g) (mu g - 1) (mx g)) (cnodes st)
    (<[b := mkBlock (block_no B) (acquired B) true (lock_val B) (valid B) (data B)]> (cblocks st)) (<[c := rm - 1]> (ctxs st)) (objs st).

Lemma reserved_le m c v : m !! c = Some v → (∀ c v, m !! c = Some v → 0 ≤ v) → v ≤ reserved m.
Proof.
  intros Hc H. rewrite (reserved_delete _ _ _ Hc). enough (0 ≤ reserved (delete c m)) by lia.
  apply reserved_nonneg. intros c' v' [_ Hv]%lookup_delete_Some. by eapply H.
Qed.

Lemma space_rm st c rm : space st → ctxs st !! c = Some rm → 0 ≤ rm ≤ mu (log st).
Proof.
  intros H Hc. split; [apply (sp_rm _ H) in Hc; lia|]. rewrite (sp_mu _ H). eapply reserved_le; [exact Hc|].
  intros c' v Hv. apply (sp_rm _ H) in Hv. lia.
Qed.

Lemma size_some (m : gmap Z Z) c rm : m !! c = Some rm → (0 < size m)%nat.
Proof.
  intros Hc. destruct (size m) eqn:E; [|lia]. apply map_size_empty_iff in E. subst m. by rewrite lookup_empty in Hc.
Qed.

Lemma space_out st c rm : space st → ctxs st !! c = Some rm → 1 ≤ outstanding (log st).
Proof. intros H Hc%size_some. rewrite (sp_out _ H). lia. Qed.

(** Every branch of [cache_sync] inside an operation. *)
Lemma cache_sync_eq st c b rm B : space st → c ≠ 0 → ctxs st !! c = Some rm → cblocks st !! b = Some B →
  cache_sync c b st =
    if decide (hnum (header st) >= mx (log st)) then Panic
    else if decide (block_no B ∈ logged st) then Done (tt, st)
    else if decide (rm > 0) then Done (tt, synced st c b B rm) else Panic.
Proof.
  intros H Hc Hrm HB. pose proof (sp_mx _ H) as Hmx. pose proof (sp_num _ H) as Hn. pose proof (sp_len _ H) as Hl.
  pose proof (sp_lock _ H) as Hk. pose proof (space_out _ _ _ H Hrm) as Ho. pose proof (space_rm _ _ _ H Hrm) as Hmu.
  pose proof (sp_room _ H) as Hr.
  change LOG_MAX_SIZE with 63 in Hmx.
  destruct st as [sb d lk [n bs] [k ls os o cm m x] ns bl cx ob]. simpl in *. subst k.
  unfold cache_sync. rewrite decide_True by done. unfold on_log_lock, get. unfold mbind, M_bind. simpl.
  rewrite (u64_small x) by (unfold in_u; lia).
  destruct (decide (n >= x)) as [Hge|Hge]; [by rewrite (bool_decide_true (n >= x)) by done|].
  rewrite (bool_decide_false (n >= x)), (bool_decide_false (o < 1)) by lia. simpl. unfold get_block. simpl. rewrite HB.
  assert (Hlen : 0 ≤ n ≤ Z.of_nat (length bs)) by (rewrite Hl; lia).
  set (st := mkCache sb d lk (mkHeader n bs) (mkLog false ls os o cm m x) ns bl cx ob).
  destruct (decide (block_no B ∈ logged st)) as [Hin|Hin].
  - destruct (find_logged_in st _ Hlen Hin) as (i & Ei & Hi & Hbi). simpl in Ei, Hi, Hbi. rewrite Ei.
    rewrite decide_True by (apply lookup_lt_Some in Hbi; lia). unfold modify. simpl. rewrite decide_False by lia. simpl.
    unfold set_header, set_log. simpl. by rewrite (list_insert_id _ _ _ Hbi).
  - pose proof (find_logged_out st _ Hlen Hin) as Ei. simpl in Ei. rewrite Ei.
    rewrite decide_True by (rewrite Hl; lia). unfold modify. simpl. rewrite decide_True by lia.
    unfold set_pinned, get_block. simpl. unfold mbind, M_bind. simpl. rewrite HB. simpl. unfold get_ctx, get, mbind, M_bind. simpl. rewrite Hrm. simpl.
    destruct (decide (rm > 0)) as [Hp|Hp]; [|done]. unfold set_ctx, modify_log, modify, set_log. simpl.
    rewrite (u64_small (n + 1)), (i32_small (m - 1)) by (unfold in_u, in_s; lia). done.
Qed.

Lemma sync_cached st c b st' : space st → c ≠ 0 → cache_sync c b st = Done (tt, st') → is_Some (cblocks st !! b).
Proof.
  intros H Hc E. destruct (cblocks st !! b) eqn:EB; [by eexists|]. exfalso. revert E. unfold cache_sync.
  rewrite decide_True by done. unfold on_log_lock, get, mbind, M_bind. rewrite (sp_lock _ H). simpl.
  unfold assert. do 2 (case_bool_decide; simpl; [done|]). unfold get_block. simpl. by rewrite EB.
Qed.

(** ** Beginning and ending an operation *)
Definition set_sems (a b : Z) st : cache K :=
  let g := log st in set_log (mkLog (llock g) a b (outstanding g) (committing g) (mu g) (mx g)) st.
Definition begun st c : cache K :=
  let g := log st in
  set_log (mkLog (llock g) (lsem g) (outstandingsem g) (outstanding g + 1) (committing g) (mu g + OP_MAX_NUM_BLOCKS) (mx g))
    (set_ctxs (<[c := OP_MAX_NUM_BLOCKS]> (ctxs st)) st).

Lemma space_small st : space st → 0 ≤ hnum (header st) ≤ 63 ∧ 0 ≤ mu (log st) ≤ 63 ∧ 0 ≤ mx (log st) ≤ 63 ∧
  0 ≤ outstanding (log st) ≤ 6.
Proof.
  intros H. pose proof (space_mu _ H). pose proof (sp_mx _ H) as Hm. change LOG_MAX_SIZE with 63 in Hm.
  pose proof (sp_room _ H). pose proof (sp_num _ H). pose proof (sp_ops _ H) as Ho. pose proof (sp_out _ H).
  unfold OP_MAX_NUM_BLOCKS in Ho. lia.
Qed.

Lemma begin_try_eq st c : space st → begin_try c st = Done (
  if decide (committing (log st) ≠ 0 ∨ hnum (header st) + mu (log st) + OP_MAX_NUM_BLOCKS > mx (log st))
  then (false, set_sems (lsem (log st) - 1) (outstandingsem (log st)) st) else (true, begun st c)).
Proof.
  intros H. pose proof (space_small _ H) as Hs. pose proof (sp_lock _ H) as Hk. pose proof (sp_room _ H) as Hr.
  destruct st as [sb d lk [n bs] [k ls os o cm m x] ns bl cx ob]. simpl in *. subst k.
  unfold begin_try, on_log_lock, get, mbind, M_bind, OP_MAX_NUM_BLOCKS. simpl.
  rewrite (u64_small x), (u64_small (n + m)), (u64_small (n + m + 10)) by (unfold in_u; lia).
  destruct (decide _); [done|]. unfold modify_log, set_ctx, modify. simpl.
  by rewrite (i32_small (o + 1)), (i32_small (m + 10)) by (unfold in_s; lia).
Qed.

(** The state after the first part of [cache_end_op]. *)
Definition ended st rm : cache K :=
  let g := log st in let o := outstanding g - 1 in
  if decide (o = 0) then set_log (mkLog (llock g) (lsem g) (outstandingsem g) o 1 (mu g - rm) (mx g)) st
  else set_log (mkLog (llock g) (post_all_val (lsem g)) (wait_val (outstandingsem g)) o (committing g) (mu g - rm) (mx g)) st.

Lemma end_first_eq st c rm : space st → ctxs st !! c = Some rm →
  end_first c st = Done (bool_decide (outstanding (log st) = 1), ended st rm).
Proof.
  intros H Hc. pose proof (space_small _ H) as Hs. pose proof (sp_lock _ H) as Hk. pose proof (space_rm _ _ _ H Hc) as Hr.
  pose proof (space_out _ _ _ H Hc) as Ho.
  assert (Hcm : committing (log st) = 0).
  { destruct (sp_commit _ H) as [?|[_ E]]; [done|]. by rewrite E, lookup_empty in Hc. }
  destruct st as [sb d lk [n bs] [k ls os o cm m x] ns bl cx ob]. simpl in *. subst k cm.
  unfold end_first, on_log_lock, get_ctx, get, mbind, M_bind. simpl. rewrite Hc. simpl.
  unfold modify_log, modify. simpl. rewrite (i32_small (o - 1)), (i32_small (m - rm)) by (unfold in_s; lia).
  unfold ended, assert. simpl.
  destruct (decide (o - 1 = 0)); simpl; [rewrite bool_decide_true by lia|rewrite bool_decide_false by lia]; done.
Qed.

(** A context is gone when its operation is over. *)
Definition drop_ctx (c : Z) st : cache K := set_ctxs (delete c (ctxs st)) st.

(** Any number of operations, in any order.  [s_other] is everything else that
    runs on the cache: acquiring, releasing and writing blocks, allocating and
    freeing nodes. *)
Inductive step st : cache K → Prop :=
  | s_begin c ok st' : c ≠ 0 → ctxs st !! c = None → begin_try c st = Done (ok, st') → step st st'
  | s_sync c b st' : c ≠ 0 → is_Some (ctxs st !! c) → cache_sync c b st = Done (tt, st') → step st st'
  | s_end c r st' : is_Some (ctxs st !! c) → end_first c st = Done (r, st') → step st (drop_ctx c st')
  | s_commit fuel st' : committing (log st) = 1 → end_commit fuel st = Done (tt, st') → step st st'
  | s_other A (m : M (cache K) A) a st' : keeps logpart m → m st = Done (a, st') → step st st'.

Lemma space_sems st a b : space st → space (set_sems a b st).
Proof. by intros []. Qed.

Lemma space_begun st c : space st → ctxs st !! c = None → committing (log st) = 0 →
  hnum (header st) + mu (log st) + OP_MAX_NUM_BLOCKS ≤ mx (log st) → space (begun st c).
Proof.
  intros [K1 K2 K3 K4 K5 K6 K7 K8 K9 K10 K11] Hc Hcm Hr. split; simpl; try done.
  - intros c' rm. destruct (decide (c = c')) as [<-|]; [rewrite lookup_insert_eq; intros [= <-]; unfold OP_MAX_NUM_BLOCKS; lia|].
    rewrite lookup_insert_ne by done. apply K6.
  - rewrite reserved_insert by done. lia.
  - lia.
  - rewrite map_size_insert_None by done. lia.
  - unfold OP_MAX_NUM_BLOCKS in *. lia.
  - by left.
Qed.

Lemma space_synced st c b B rm : space st → ctxs st !! c = Some rm → hnum (header st) < mx (log st) →
  block_no B ∉ logged st → 0 < rm → space (synced st c b B rm).
Proof.
  intros H Hc Hlt Hno Hp. pose proof (space_small _ H) as Hs.
  destruct H as [K1 K2 K3 K4 K5 K6 K7 K8 K9 K10 K11]. split; simpl; try done.
  - lia.
  - by rewrite length_insert.
  - rewrite Z2Nat.inj_add by lia. change (Z.to_nat 1) with 1%nat. rewrite Nat.add_1_r, (take_S_r _ _ (block_no B)).
    + apply NoDup_app. rewrite take_insert_ge by lia. split; [done|]. split; [|apply NoDup_singleton].
      by intros x Hx ->%list_elem_of_singleton.
    + apply list_lookup_insert_eq. rewrite K4. lia.
  - intros c' rm'. destruct (decide (c = c')) as [<-|]; [|rewrite lookup_insert_ne by done; apply K6].
    rewrite lookup_insert_eq. intros [= <-]. apply K6 in Hc. lia.
  - rewrite K7, (reserved_delete (ctxs st) c rm) by done.
    rewrite (reserved_delete (<[c:=rm - 1]> (ctxs st)) c (rm - 1)) by apply lookup_insert_eq.
    rewrite delete_insert_eq. lia.
  - lia.
  - rewrite map_size_insert_Some by done. lia.
  - lia.
  - destruct K11 as [?|[_ E]]; [by left|]. by rewrite E, lookup_empty in Hc.
Qed.

Lemma space_ended st c rm : space st → ctxs st !! c = Some rm → space (drop_ctx c (ended st rm)).
Proof.
  intros H Hc. pose proof (space_rm _ _ _ H Hc) as Hr. pose proof (size_some _ _ _ Hc) as Hz.
  assert (Hsz : size (delete c (ctxs st)) = pred (size (ctxs st))) by by apply map_size_delete_Some.
  destruct H as [K1 K2 K3 K4 K5 K6 K7 K8 K9 K10 K11].
  assert (Hrm : ∀ c' rm', delete c (ctxs st) !! c' = Some rm' → 0 ≤ rm' ≤ OP_MAX_NUM_BLOCKS).
  { intros c' rm' [_ E]%lookup_delete_Some. by eapply K6. }
  rewrite (reserved_delete _ _ _ Hc) in K7. pose proof (K6 _ _ Hc) as Hrm1. unfold OP_MAX_NUM_BLOCKS in *.
  unfold ended, drop_ctx. destruct (decide (outstanding (log st) - 1 = 0)) as [E|E]; split; simpl; try done; try lia.
  - right. split; [done|]. apply map_size_empty_iff. lia.
  - unfold OP_MAX_NUM_BLOCKS. lia.
  - destruct K11 as [?|[_ E']]; [by left|]. by rewrite E', lookup_empty in Hc.
Qed.

Lemma space_committed st fuel st' : space st → committing (log st) = 1 → end_commit fuel st = Done (tt, st') → space st'.
Proof.
  intros H Hc E. unfold end_commit in E. apply bind_inv in E as ([] & s1 & E1 & E).
  destruct (commit_log _ _ _ E1 (sp_num _ H)) as (Eh & El & Ec).
  destruct (sp_commit _ H) as [?|[_ Hcx]]; [lia|]. destruct H as [K1 K2 K3 K4 K5 K6 K7 K8 K9 K10 K11].
  unfold on_log_lock in E. unfold mbind, M_bind in E. simpl in E. rewrite El, K1 in E. simpl in E. injection E as <-.
  rewrite Hcx in *. split; simpl; rewrite ?Eh, ?El, ?Ec, ?Hcx; simpl; try done; try lia.
  - by apply NoDup_nil.
  - assert (outstanding (log st) = 0) as -> by (rewrite K9; done). assert (0 ≤ mu (log st)) by (rewrite K7; done). lia.
Qed.

Lemma space_step st st' : space st → step st st' → space st'.
Proof.
  intros H. destruct 1 as [c ok st' Hc Hn E|c b st' Hc [rm Hrm] E|c r st' [rm Hrm] E|fuel st' Hcm E|A m a st' Hk E].
  - rewrite (begin_try_eq _ _ H) in E. destruct (decide _) as [?|Hno]; simplify_eq; [by apply space_sems|].
    apply space_begun; [done|done| |]; lia.
  - assert (∃ B, cblocks st !! b = Some B) as [B HB].
    { by eapply sync_cached. }
    rewrite (cache_sync_eq _ _ _ _ _ H Hc Hrm HB) in E.
    repeat case_decide; simplify_eq; [done|]. apply space_synced; [done|done| |done|]; lia.
  - rewrite (end_first_eq _ _ _ H Hrm) in E. injection E as <- <-. by apply space_ended.
  - by eapply space_committed.
  - eapply space_ext; [|exact H]. by eapply Hk.
Qed.

(** ** The start: [init_bcache] *)
Lemma length_pieces n k l : length (pieces n k l) = k.
Proof. revert l. induction k as [|k IH]; intros l; simpl; [done|]. by rewrite IH. Qed.

Lemma space_init fuel sb st st' : init_bcache fuel sb st = Done (tt, st') →
  outstanding (log st) = 0 → committing (log st) = 0 → ctxs st = ∅ → space st'.
Proof.
  unfold init_bcache. intros E Ho Hc Hx. apply bind_inv in E as ([] & s1 & [= <-] & E).
  apply bind_inv in E as ([] & s2 & E2%keeps_nodes & E). apply bind_inv in E as ([] & s3 & E3%keeps_lock & E).
  apply bind_inv in E as ([] & s4 & [= <-] & E). unfold recover_from_log in E.
  apply bind_inv in E as ([] & s5 & [= <-] & E). apply bind_inv in E as ([] & s6 & E6%install_trans_keeps & E).
  apply bind_inv in E as ([] & s7 & [= <-] & E). apply write_header_keeps in E.
  unfold logpart in E, E2, E3, E6. simpl in E, E2, E3, E6. injection E as Eh El Ex.
  injection E6 as Eh6 El6 Ex6. injection E2 as _ El2 Ex2. injection E3 as _ El3 Ex3.
  rewrite El6, El3, El2 in El. rewrite Eh6 in Eh. rewrite Ex6, Ex3, Ex2, Hx in Ex.
  assert (Hmx : 0 ≤ MIN (u32 (num_log_blocks sb - 1)) LOG_MAX_SIZE ≤ LOG_MAX_SIZE).
  { rewrite MIN_min. pose proof (wrap_range 32 (num_log_blocks sb - 1)) as [W _]; [lia|]. change LOG_MAX_SIZE with 63. lia. }
  split; rewrite ?Eh, ?El, ?Ex; unfold clear_header; simpl; rewrite ?Ho, ?Hc; try done.
  - by apply NoDup_nil.
  - change LOG_MAX_SIZE with 63 in *. lia.
  - by left.
Qed.

(** What the counters say in every reachable state: the blocks in the log and the
    blocks reserved for running operations together fit, no block is logged
    twice, and a commit only runs when no operation does. *)
Definition log_fits st : Prop :=
  hnum (header st) + reserved (ctxs st) ≤ mx (log st) ∧ mx (log st) ≤ LOG_MAX_SIZE ∧ 0 ≤ reserved (ctxs st) ∧
  NoDup (logged st) ∧ length (logged st) = Z.to_nat (hnum (header st)) ∧
  outstanding (log st) = Z.of_nat (size (ctxs st)) ∧ (committing (log st) ≠ 0 → ctxs st = ∅).

(** The states of a running system. *)
Inductive reachable : cache K → Prop :=
  | r_init fuel sb st st' : init_bcache fuel sb st = Done (tt, st') → outstanding (log st) = 0 →
      committing (log st) = 0 → ctxs st = ∅ → reachable st'
  | r_step st st' : reachable st → step st st' → reachable st'.

Lemma reachable_space st : reachable st → space st.
Proof. induction 1; [by eapply space_init|by eapply space_step]. Qed.

(** C18: after [init_bcache], whatever operations begin, sync, end and commit, in
    any order, the log never overflows: the blocks it holds and those reserved
    for running operations fit into its [log.mx] entries, the header lists no
    block twice, [outstanding] counts the running operations and no operation
    runs while a commit does. *)
Theorem log_never_overflows st : reachable st → log_fits st.
Proof.
  intros H%reachable_space. pose proof (space_small _ H) as (Hn & Hm & _). destruct H as [K1 K2 K3 K4 K5 K6 K7 K8 K9 K10 K11].
  split; [lia|]. split; [lia|]. split; [lia|]. split; [done|]. split; [|split; [done|]].
  - unfold logged. rewrite length_take. lia.
  - destruct K11 as [?|[_ ?]]; [lia|done].
Qed.

(** An operation of a reachable state that has blocks left never panics in
    [cache_sync]: the block ends up in the log once, pinned if it is new, and the
    operation pays for it only then. *)
Theorem sync_within_limit st c b rm B : reachable st → c ≠ 0 → ctxs st !! c = Some rm → 0 < rm → cblocks st !! b = Some B →
  ∃ st', cache_sync c b st = Done (tt, st') ∧ block_no B ∈ logged st' ∧
    (block_no B ∈ logged st → st' = st) ∧
    (block_no B ∉ logged st → logged st' = logged st ++ [block_no B] ∧ ctxs st' = <[c := rm - 1]> (ctxs st) ∧
       (∃ B', cblocks st' !! b = Some B' ∧ pinned B' = true ∧ data B' = data B) ∧ written (dev st') = written (dev st)).
Proof.
  intros H%reachable_space Hc Hrm Hp HB. rewrite (cache_sync_eq _ _ _ _ _ H Hc Hrm HB).
  pose proof (space_small _ H) as Hs. pose proof (space_rm _ _ _ H Hrm) as Hm. pose proof (sp_room _ H) as Hr.
  rewrite decide_False by lia. destruct (decide (block_no B ∈ logged st)) as [Hin|Hin]; [by exists st|].
  rewrite decide_True by lia. exists (synced st c b B rm). split; [done|].
  assert (El : logged (synced st c b B rm) = logged st ++ [block_no B]).
  { unfold logged. simpl. rewrite Z2Nat.inj_add by lia. change (Z.to_nat 1) with 1%nat.
    rewrite Nat.add_1_r, (take_S_r _ _ (block_no B)); [by rewrite take_insert_ge by lia|].
    apply list_lookup_insert_eq. rewrite (sp_len _ H). lia. }
  rewrite El. split; [apply elem_of_app; right; by left|]. split; [done|]. intros _. split; [done|]. split; [done|].
  split; [|done]. eexists. simpl. by rewrite lookup_insert_eq.
Qed.

(** When the header is full, [cache_sync] panics even for a block that is
    already in the log and needs no room, although the operation has not
    exceeded [OP_MAX_NUM_BLOCKS]. *)
Theorem sync_full_panics st c b rm B : reachable st → c ≠ 0 → ctxs st !! c = Some rm → cblocks st !! b = Some B →
  hnum (header st) = mx (log st) → block_no B ∈ logged st → cache_sync c b st = Panic.
Proof.
  intros H%reachable_space Hc Hrm HB Hf _. rewrite (cache_sync_eq _ _ _ _ _ H Hc Hrm HB). by rewrite decide_True by lia.
Qed.
End space.


(** ** A run *)
Definition run_sample {A} (m : M (cache Z) A) (st : cache Z) : cache Z := match m st with Done (_, s) => s | _ => st end.
(** A log of ten blocks on a blank device. *)
Definition small_super : SuperBlock := mkSuper 1000 900 100 11 2 70 80.
Definition small_start : cache Z :=
  mkCache small_super (mkDev (λ _, replicate 512 0) []) false (mkHeader 0 []) (mkLog true 3 3 0 0 0 0)
    {[ 8 := mkNode 0 0 ]} ∅ ∅ 4096.
Definition small_ready : cache Z := run_sample (init_bcache 100 small_super) small_start.
(** Operation 7 begins and logs the blocks [nos]. *)
Definition small_begun : cache Z := run_sample (begin_try 7) small_ready.
Definition sync_block (no : Z) : M (cache Z) Z := b ← cache_acquire 100 no; cache_sync 7 b;; cache_release b;; mret b.
Fixpoint sync_blocks (nos : list Z) : M (cache Z) unit :=
  match nos with [] => mret tt | no :: nos => sync_block no;; sync_blocks nos end.

Lemma answer_run {A} (m : M (cache Z) A) st a : answer (m st) = Some a → m st = Done (a, run_sample m st).
Proof. unfold run_sample. destruct (m st) as [[]| | |]; simpl; congruence. Qed.

Lemma begun_reachable : reachable small_begun.
Proof.
  apply (r_step small_ready).
  - eapply (r_init 100 small_super small_start); [|done..]. apply answer_run. by vm_compute.
  - apply (s_begin _ 7 true); [done|by vm_compute|]. apply answer_run. by vm_compute.
Qed.

(** The context of a running operation stays until it ends. *)
Lemma sync_ctx (c b : Z) (st st' : cache Z) : space st → c ≠ 0 → is_Some (ctxs st !! c) →
  cache_sync c b st = Done (tt, st') → is_Some (ctxs st' !! c).
Proof.
  intros H Hc [rm Hrm] E. destruct (cblocks st !! b) as [B|] eqn:EB.
  2:{ by destruct (sync_cached _ _ _ _ H Hc E) as [? ?]; simplify_eq. }
  rewrite (cache_sync_eq _ _ _ _ _ H Hc Hrm EB) in E. repeat case_decide; simplify_eq; [by eexists|].
  simpl. rewrite lookup_insert_eq. by eexists.
Qed.

Lemma sync_blocks_reachable nos : ∀ st st', reachable st → is_Some (ctxs st !! 7) →
  sync_blocks nos st = Done (tt, st') → reachable st'.
Proof.
  induction nos as [|no nos IH]; intros st st' R C E; [by injection E as <-|]. cbn [sync_blocks] in E.
  apply bind_inv in E as (b & s3 & E & E'). unfold sync_block in E. apply bind_inv in E as (b' & s1 & E1 & E).
  apply bind_inv in E as ([] & s2 & E2 & E). apply bind_inv in E as ([] & s4 & E3 & E). injection E as -> ->.
  assert (R1 : reachable s1) by (eapply r_step, s_other; [exact R|apply acquire_keeps|exact E1]).
  assert (C1 : is_Some (ctxs s1 !! 7)).
  { pose proof (acquire_keeps _ _ _ _ _ E1) as P. injection P as _ _ ->. exact C. }
  assert (R2 : reachable s2) by (eapply r_step, s_sync; [exact R1|..|exact E2]; done).
  assert (C2 : is_Some (ctxs s2 !! 7)) by (eapply (sync_ctx 7 _ s1); [by apply reachable_space|..|exact E2]; done).
  apply (IH s3); [|by pose proof (release_keeps _ _ _ _ E3) as P; injection P as _ _ ->|exact E'].
  eapply r_step, s_other; [exact R2|apply release_keeps|exact E3].
Qed.

Definition small_nos : list Z := [500; 501; 502; 503; 504; 505; 506; 507; 508; 509].
Definition small_full : cache Z := run_sample (sync_blocks small_nos) small_begun.

Lemma full_reachable : reachable small_full.
Proof.
  assert (E : answer (sync_blocks small_nos small_begun) = Some tt) by by vm_compute.
  eapply (sync_blocks_reachable small_nos small_begun); [exact begun_reachable|eexists; by vm_compute|].
  unfold small_full. exact (answer_run _ _ _ E).
Qed.

Lemma log_never_overflows_witness : log_fits small_full ∧ hnum (header small_full) = 10.
Proof. split; [apply log_never_overflows, full_reachable|by vm_compute]. Defined.

Lemma sync_full_panics_witness : cache_sync 7 4096 small_full = Panic.
Proof.
  eapply sync_full_panics; [exact full_reachable|done|by vm_compute|by vm_compute|by vm_compute|].
  apply (bool_decide_unpack _). by vm_compute.
Defined.

Definition small_read : cache Z := run_sample (cache_acquire 100 500) small_begun.

Lemma sync_within_limit_witness : ∃ st', cache_sync 7 4096 small_read = Done (tt, st') ∧ logged st' = [500].
Proof.
  destruct (sync_within_limit small_read 7 4096 10 (mkBlock 500 true false 0 true (replicate 512 0))) as (st' & E & _ & _ & H).
  - eapply r_step, (s_other _ _ (cache_acquire 100 500) 4096); [exact begun_reachable|apply acquire_keeps|].
    assert (E : answer (cache_acquire 100 500 small_begun) = Some 4096) by by vm_compute.
    unfold small_read. exact (answer_run _ _ _ E).
  - done.
  - by vm_compute.
  - done.
  - by vm_compute.
  - exists st'. split; [exact E|]. destruct H as [-> _]; [|by vm_compute]. apply (bool_decide_unpack _). by vm_compute.
Defined.
