(* ===== verification/CacheProps.v ===== *)
(** * Acquiring blocks

    What a caller of [cache_acquire] may rely on, how large the cache gets, and
    what happens to a block that is held. *)
From S2P Require Import Prelude Words Atomics Lists Cache CacheSpec LogCrash.

Section acquiring.
Context {K : Type} `{!ObjAlloc K}.
Implicit Types (st : cache K) (l H : list Z) (b n no : Z) (B : Block) (V : Z → list Z).

(** C19: whoever acquires a block that nobody holds gets it locked, with the contents a
    reader of the cache expects, whether it was cached, has to be read or needs
    others evicted first.  The device, the log and the contents of all blocks are as
    they were, and what was pinned is pinned.  No other block changes, and one that was
    in the cache still is unless it is [freeable]: the block asked for was not cached, the
    cache was full, and the block was neither pinned nor marked [acquired].  That a block
    is held does not keep it: one that was acquired while it was cached is not marked, and
    [acquire_frees_held_block] shows it freed. *)
Theorem acquire_returns_block st l V H n fuel : inv st l V H →
  (∀ b B, b ∈ H → cblocks st !! b = Some B → block_no B ≠ n) → (length l < fuel)%nat → obj_room (objs st) ≠ 0%nat →
  ∃ b B st' l', cache_acquire fuel n st = Done (b, st') ∧ cblocks st' !! b = Some B ∧
    block_no B = n ∧ data B = V n ∧ lock_val B = 0 ∧ inv st' l' V (b :: H) ∧ same_rest st st' ∧
    (∀ n', pin st n' → pin st' n') ∧
    (∀ x X, x ≠ b → cblocks st' !! x = Some X → cblocks st !! x = Some X) ∧
    (∀ x X, cblocks st !! x = Some X → ¬ freeable st l n x →
      x = b ∧ x ∉ H ∧ block_no X = n ∨ x ≠ b ∧ cblocks st' !! x = Some X).
Proof.
  intros I Hh Hf Hr. destruct (acquire_general _ _ _ _ _ _ I Hh Hf Hr) as
    (b & B & st' & l' & E & I' & Hs & HB & Hn & _ & _ & Hold & Hk & _ & _ & Hp & _).
  exists b, B, st', l'. split; [done|]. split; [done|]. split; [done|].
  split; [by rewrite (i_data _ _ _ _ I' _ _ HB), Hn|]. split.
  { rewrite (i_lk _ _ _ _ I' _ _ HB). by rewrite decide_True by by left. }
  split_and!; try done. intros x X HX Hfr. destruct (Hk x X HX Hfr) as [[-> HXn]|?]; [left|by right].
  split; [done|]. split; [|done]. intros HbH. by destruct (Hh b X HbH HX).
Qed.

(** Reading a block that is not cached leaves at most [EVICTION_THRESHOLD]
    blocks in the cache, unless every other one is acquired or pinned. *)
Theorem cache_stays_small st l no fuel : rep st l → lock st = false → (length l < fuel)%nat →
  (∀ x X, cblocks st !! x = Some X → block_no X ≠ no) → obj_room (objs st) ≠ 0%nat →
  ∃ b st' k, cache_acquire fuel no st = Done (b, st') ∧ get_num_cached_blocks (S fuel) st' = Done (k, st') ∧
    (k ≤ EVICTION_THRESHOLD ∨ ∀ x, x ≠ b → is_Some (cblocks st' !! x) → busy st x = true) ∧
    ∀ x, busy st x = true → is_Some (cblocks st !! x) → x ≠ b ∧ cblocks st' !! x = cblocks st !! x.
Proof.
  intros R Hl Hf Hno Hr.
  destruct (cache_acquire_spec st l no fuel R Hl Hf) as (b & st' & E & _ & [Hh|Hm]);
    [by intros x X Hx Hn; destruct (Hno x X Hx)|done| |].
  { destruct Hh as (l1 & l2 & B & _ & HB & Hn & _). by destruct (Hno b B HB). }
  destruct Hm as (_ & l' & [[Hsub Hkeep] _] & Hend & Hb & R' & _ & HB').
  exists b, st', (Z.of_nat (length (b :: l'))). split; [done|]. split; [|split].
  - apply get_num_spec; [done|]. apply sublist_length in Hsub. simpl. lia.
  - destruct Hend as [Hlt|Hall]; [left; simpl; unfold EVICTION_THRESHOLD in *; lia|right]. intros x Hx.
    rewrite (r_blocks _ _ R'), elem_of_cons. intros [|Hin]; [done|]. by apply Hall.
  - intros x Hx Hs. rewrite (r_blocks _ _ R) in Hs. pose proof (Hkeep _ Hs Hx) as Hin.
    assert (x ≠ b) as Hne by by intros ->. split; [done|]. rewrite HB'. by rewrite decide_False, decide_True.
Qed.

(** A block acquired while it is cached is not marked [acquired]. If the
    other cached blocks are pinned or acquired, reading one more block frees the
    held one: its memory is gone, or holds the new block. *)
Theorem acquire_frees_held_block st l1 b l2 B no fuel : rep st (l1 ++ b :: l2) → uniq st → lock st = false →
  cblocks st !! b = Some B → acquired B = false → pinned B = false → lock_val B = 1 →
  (∀ x, x ∈ l1 ++ l2 → busy st x = true) → EVICTION_THRESHOLD ≤ Z.of_nat (length (l1 ++ b :: l2)) →
  (∀ x X, cblocks st !! x = Some X → block_no X ≠ no) → (length (l1 ++ b :: l2) < fuel)%nat →
  obj_room (objs st) ≠ 0%nat →
  ∃ st1 b2 st2, cache_acquire fuel (block_no B) st = Done (b, st1) ∧ cache_acquire fuel no st1 = Done (b2, st2) ∧
    ∀ X, cblocks st2 !! b = Some X → b2 = b ∧ block_no X = no.
Proof.
  intros R Hu Hl HB Ha Hp Hk Hbusy Hlen Hno Hf Hr.
  destruct (cache_acquire_spec st _ (block_no B) fuel R Hl Hf) as (b' & st1 & E1 & S1 & [Hh|Hm]); [|done| |].
  { intros x X Hx Hn. assert (x = b) as -> by by eapply Hu. congruence. }
  2:{ destruct Hm as [Hm _]. by destruct (Hm _ _ HB). }
  destruct Hh as (m1 & m2 & B' & El & HB' & Hn & R1 & C1 & O1). assert (b' = b) as -> by by eapply Hu. simplify_eq.
  assert (Hin : ∀ x, x ∈ b :: m1 ++ m2 → x ≠ b → busy st1 x = true).
  { intros x Hx Hne. unfold busy. rewrite C1, lookup_insert_ne by done. apply Hbusy.
    assert (Hx' : x ∈ l1 ++ b :: l2) by (rewrite El; rewrite elem_of_app, elem_of_cons; apply elem_of_cons in Hx as [|Hx%elem_of_app]; tauto).
    rewrite elem_of_app, elem_of_cons in Hx'. rewrite elem_of_app. tauto. }
  assert (Hl1 : length (b :: m1 ++ m2) = length (l1 ++ b :: l2)) by (rewrite El; simpl; rewrite !length_app; simpl; lia).
  assert (Hno1 : ∀ x X, cblocks st1 !! x = Some X → block_no X ≠ no).
  { intros x X. rewrite C1. intros [[<- <-]|[_ Hx]]%lookup_insert_Some; [exact (Hno _ _ HB)|by eapply Hno]. }
  destruct (cache_acquire_spec st1 _ no fuel R1) as (b2 & st2 & E2 & S2 & [Hh|Hm]);
    [by rewrite (s_lock _ _ S1)|by rewrite Hl1|by intros x X Hx Hn; destruct (Hno1 x X Hx)|by rewrite O1|..].
  { destruct Hh as (k1 & k2 & X & _ & HX & HXn & _). by destruct (Hno1 _ _ HX). }
  destruct Hm as (_ & l' & [[Hsub Hkeep] _] & Hend & Hb2 & R2 & _ & C2).
  exists st1, b2, st2. split; [done|]. split; [done|]. intros X. rewrite C2.
  destruct (decide (b = b2)) as [->|Hne]; [by intros [= <-]|]. destruct (decide (b ∈ l')) as [Hbl|]; [|done]. exfalso.
  destruct Hend as [Hlt|Hall].
  - assert (Hsubs : b :: m1 ++ m2 ⊆ l').
    { intros x Hx. destruct (decide (x = b)) as [->|]; [done|]. by apply Hkeep; [|apply Hin]. }
    pose proof (rep_nodup _ _ R1) as ND. apply (NoDup_submseteq _ _ ND) in Hsubs. apply submseteq_length in Hsubs. lia.
  - specialize (Hall _ Hbl). unfold busy in Hall. rewrite C1, lookup_insert_eq in Hall. simpl in Hall. by rewrite Ha, Hp in Hall.
Qed.
End acquiring.

(** ** Twenty blocks, all but the last pinned *)
Definition crowd : list Z := (λ i, 1000 + 1000 * i) <$> seqZ 0 20.
Definition crowd_block (b : Z) : Block := mkBlock b false (bool_decide (b ≠ 20000)) 1 true (replicate 512 0).
Fixpoint chain_of (prev : Z) (ps : list Z) : list (Z * ListNode) :=
  match ps with
  | [] => []
  | p :: qs => (p, mkNode prev (default cache_head (hd_error qs))) :: chain_of p qs
  end.
Definition crowd_nodes : heap :=
  list_to_map ((cache_head, mkNode (bnode 20000) (bnode 1000)) :: chain_of cache_head (bnode <$> crowd)).
Definition crowd_cache : cache Z :=
  mkCache sample_super (mkDev sample_device []) false (mkHeader 0 (replicate 63 0)) (mkLog false 0 0 0 0 0 63)
    crowd_nodes (list_to_map ((λ b, (b, crowd_block b)) <$> crowd)) ∅ 100000.

Lemma crowd_lookup b B : cblocks crowd_cache !! b = Some B ↔ b ∈ crowd ∧ B = crowd_block b.
Proof.
  change (cblocks crowd_cache) with (list_to_map ((λ b, (b, crowd_block b)) <$> crowd) : gmap Z Block).
  rewrite <-elem_of_list_to_map.
  - rewrite list_elem_of_fmap. split; [intros (x & [= -> ->] & Hx); done|]. intros [Hb ->]. by exists b.
  - rewrite <-list_fmap_compose. apply NoDup_fmap_2_strong; [by intros x y _ _ [= ->]|]. apply (bool_decide_unpack _). by vm_compute.
Qed.

Lemma crowd_rep : rep crowd_cache crowd.
Proof.
  split.
  - apply (bool_decide_unpack _). by vm_compute.
  - intros b. split; [by intros [B [Hb _]%crowd_lookup]|]. intros Hb. exists (crowd_block b). by apply crowd_lookup.
  - split; [done|]. intros x Hx%elem_of_list_to_set. apply list_elem_of_fmap in Hx as (i & -> & Hi%elem_of_seqZ). simpl. lia.
Qed.

Lemma crowd_split : crowd = take 19 crowd ++ 20000 :: [].
Proof. by vm_compute. Qed.

Lemma acquire_frees_held_block_witness : ∃ st1 b2 st2,
  cache_acquire 100 20000 crowd_cache = Done (20000, st1) ∧ cache_acquire 100 7 st1 = Done (b2, st2) ∧
  ∀ X, cblocks st2 !! 20000 = Some X → b2 = 20000 ∧ block_no X = 7.
Proof.
  destruct (acquire_frees_held_block crowd_cache (take 19 crowd) 20000 [] (crowd_block 20000) 7 100) as (st1 & b2 & st2 & E1 & E2 & H).
  - rewrite <-crowd_split. exact crowd_rep.
  - intros b1 b3 B1 B3 [_ ->]%crowd_lookup [_ ->]%crowd_lookup. done.
  - done.
  - apply crowd_lookup. split; [|done]. apply (bool_decide_unpack _). by vm_compute.
  - done.
  - by vm_compute.
  - done.
  - intros x Hx. assert (Hf : Forall (λ x, busy crowd_cache x = true) (take 19 crowd ++ [])); [|by eapply Forall_forall in Hf].
    apply (bool_decide_unpack _). by vm_compute.
  - by vm_compute.
  - intros x X [Hx ->]%crowd_lookup. simpl. apply list_elem_of_fmap in Hx as (i & -> & Hi%elem_of_seqZ). lia.
  - by vm_compute; lia.
  - done.
  - exists st1, b2, st2. split; [exact E1|]. split; [exact E2|exact H].
Defined.

Lemma acquire_returns_block_witness : ∃ b B st', cache_acquire 100 500 sample_cache = Done (b, st') ∧
  cblocks st' !! b = Some B ∧ data B = replicate 512 7.
Proof.
  destruct (acquire_returns_block sample_cache [100] sample_contents [] 500 100) as (b & B & st' & l' & E & HB & _ & Hd & _).
  - exact sample_inv.
  - by intros b B ?%elem_of_nil.
  - simpl. lia.
  - done.
  - exists b, B, st'. split; [exact E|]. split; [exact HB|]. rewrite Hd. apply put_eq.
Defined.

Lemma cache_stays_small_witness : ∃ b st' k, cache_acquire 100 7 crowd_cache = Done (b, st') ∧
  get_num_cached_blocks 101 st' = Done (k, st') ∧
  (k ≤ 20 ∨ ∀ x, x ≠ b → is_Some (cblocks st' !! x) → busy crowd_cache x = true).
Proof.
  destruct (cache_stays_small crowd_cache crowd 7 100) as (b & st' & k & E & Ek & H & _).
  - exact crowd_rep.
  - done.
  - apply (bool_decide_unpack _). by vm_compute.
  - intros x X [Hx ->]%crowd_lookup. simpl. apply list_elem_of_fmap in Hx as (i & -> & Hi%elem_of_seqZ). lia.
  - done.
  - exists b, st', k. split; [exact E|]. split; [exact Ek|exact H].
Defined.
