(* ===== verification/Transaction.v ===== *)
(** * An atomic operation, from begin to end

    A client of the block cache that changes one block inside an operation, as
    [cache.h] describes: [begin_op], [acquire], a change of the data, [sync],
    [release], [end_op]. *)
From S2P Require Import Prelude Words Atomics Lists Cache CacheSpec LogCrash LogSpace.

Section transaction.
Context {K : Type} `{!ObjAlloc K}.
Implicit Types (st : cache K) (l : list Z) (b n c : Z) (B : Block) (V : Z → list Z).

Definition write_op (F : nat) (ctx n : Z) (d : list Z) : M (cache K) unit :=
  cache_begin_op ctx;;
  b ← cache_acquire F n;
  set_data b d;;
  cache_sync ctx b;;
  cache_release b;;
  cache_end_op F ctx.

(** The invariant of the cache does not look at the log. *)
Lemma inv_ext st st' l V H : inv st l V H → cnodes st' = cnodes st → cblocks st' = cblocks st → objs st' = objs st →
  lock st' = lock st → dev st' = dev st → inv st' l V H.
Proof.
  intros [[R1 R2 R3] Hl Hu Hd Hc Hk] E1 E2 E3 E4 E5.
  split; [split| | | | |]; unfold uniq, pin in *; rewrite ?E1, ?E2, ?E3, ?E4, ?E5; done.
Qed.

(** Putting new contents into a block that is held, and pinning it. *)
Lemma pin_inv st l V b B d : inv st l V [b] → cblocks st !! b = Some B →
  inv (set_blocks (<[b := mkBlock (block_no B) (acquired B) true (lock_val B) (valid B) d]> (cblocks st)) st) l
    (put (block_no B) d V) [b].
Proof.
  intros I HB. apply (change_inv st l V _ [b] [b] b B (mkBlock (block_no B) (acquired B) true (lock_val B) (valid B) d) (dev st) I HB); try done.
  - simpl. by rewrite put_eq.
  - intros m Hm. by rewrite put_ne.
  - right; by right.
  - apply (i_lk _ _ _ _ I _ _ HB).
Qed.

Lemma set_data_done st b B d : cblocks st !! b = Some B →
  set_data b d st = Done (tt, set_blocks (<[b := mkBlock (block_no B) (acquired B) (pinned B) (lock_val B) (valid B) d]> (cblocks st)) st).
Proof. intros HB. unfold set_data. by m_step (get_block_done _ _ _ HB). Qed.

Definition quiet st l V : Prop :=
  space st ∧ inv st l V [] ∧ ctxs st = ∅ ∧ hnum (header st) = 0 ∧ committing (log st) = 0 ∧
  OP_MAX_NUM_BLOCKS ≤ mx (log st) ∧ Forall (in_u 64) (hblocks (header st)) ∧
  0 ≤ log_start (sblock st) ∧ 1 < num_log_blocks (sblock st) ∧
  log_start (sblock st) + num_log_blocks (sblock st) ≤ 2 ^ 32 ∧
  (∀ m, outside_log (sblock st) m → V m = disk (dev st) m) ∧ ¬ cached st (log_start (sblock st)) ∧
  hnum (header_of (disk (dev st) (log_start (sblock st)))) = 0.

(** The operation up to its commit. *)
Lemma write_op_prepares st l V n d c F : quiet st l V → c ≠ 0 → outside_log (sblock st) n → in_u 64 n →
  (S (length l) < F)%nat → obj_room (objs st) ≠ 0%nat →
  ∃ st' l', write_op F c n d st = end_commit F st' ∧
    sblock st' = sblock st ∧ dev st' = dev st ∧ llock (log st') = false ∧
    header st' = mkHeader 1 (<[0%nat := n]> (hblocks (header st))) ∧
    inv st' l' (put n d V) [] ∧ pin st' n ∧ (∀ m, cached st' m → cached st m ∨ m = n) ∧
    (length l' ≤ S (length l))%nat ∧ (obj_room (objs st) ≤ S (obj_room (objs st')))%nat.
Proof.
  intros (Sp & I & Hx & Hh & Hcm & Hmx & _) Hc Hn Hu Hf Hr.
  assert (Hm0 : mu (log st) = 0) by (rewrite (sp_mu _ Sp), Hx; done).
  set (s1 := begun st c).
  assert (Sp1 : space s1).
  { apply space_begun; [done|by rewrite Hx|done|]. lia. }
  assert (I1 : inv s1 l V []) by by apply (inv_ext st).
  destruct (acquire_inv s1 l V [] n F I1) as (b & B & s2 & l2 & E2 & I2 & S2 & HB & HBn & _ & _ & _ & Hl2 & Hr2 & _ & Hc2 & _);
    [right; by intros x ?%elem_of_nil|by intros x X ?%elem_of_nil|lia|exact Hr|].
  set (B3 := mkBlock (block_no B) (acquired B) (pinned B) (lock_val B) (valid B) d).
  set (s3 := set_blocks (<[b := B3]> (cblocks s2)) s2).
  assert (E3 : set_data b d s2 = Done (tt, s3)) by by apply set_data_done.
  assert (P3 : logpart s3 = logpart s1) by exact (acquire_keeps _ _ _ _ _ E2).
  assert (Sp3 : space s3) by (eapply space_ext; [exact P3|done]).
  assert (Ph : header s3 = header s1) by (unfold logpart in P3; congruence).
  assert (Pl : log s3 = log s1) by (unfold logpart in P3; congruence).
  assert (Px : ctxs s3 = ctxs s1) by (unfold logpart in P3; congruence). clear P3.
  assert (HB3 : cblocks s3 !! b = Some B3) by apply lookup_insert_eq.
  assert (Hrm : ctxs s3 !! c = Some 10) by (rewrite Px; apply lookup_insert_eq).
  assert (Hno : block_no B3 ∉ LogSpace.logged s3).
  { unfold LogSpace.logged. rewrite Ph. simpl. rewrite Hh. simpl. by intros ?%elem_of_nil. }
  set (s4 := synced s3 c b B3 10).
  assert (E4 : cache_sync c b s3 = Done (tt, s4)).
  { rewrite (cache_sync_eq _ _ _ _ _ Sp3 Hc Hrm HB3). rewrite Ph, Pl. simpl. rewrite Hh.
    rewrite decide_False by (unfold OP_MAX_NUM_BLOCKS in Hmx; lia). by rewrite decide_False. }
  assert (Sp4 : space s4).
  { apply space_synced; [done|done| |done|lia]. rewrite Ph, Pl. simpl. rewrite Hh. unfold OP_MAX_NUM_BLOCKS in Hmx. lia. }
  assert (Eb4 : cblocks s4 = <[b := mkBlock (block_no B) (acquired B) true (lock_val B) (valid B) d]> (cblocks s2)).
  { unfold s4, s3, B3. simpl. by rewrite insert_insert_eq. }
  assert (I4 : inv s4 l2 (put n d V) [b]).
  { pose proof (pin_inv s2 l2 V b B d I2 HB) as I4. rewrite HBn in I4. eapply inv_ext; [exact I4|done|simpl|done|done|done].
    rewrite <-HBn. exact Eb4. }
  set (B4 := mkBlock (block_no B) (acquired B) true (lock_val B) (valid B) d) in *.
  assert (HB4 : cblocks s4 !! b = Some B4) by (rewrite Eb4; apply lookup_insert_eq).
  set (s5 := set_blocks (<[b := released B4]> (cblocks s4)) s4).
  assert (I5 : inv s5 l2 (put n d V) []).
  { apply (release_inv s4 l2 _ [b] [] b B4 I4 HB4); [by left|by intros ?%elem_of_nil|].
    intros x Hne. rewrite elem_of_nil, list_elem_of_singleton. done. }
  assert (Sp5 : space s5) by (by eapply space_ext; [|exact Sp4]).
  assert (Hrm5 : ctxs s5 !! c = Some 9) by apply lookup_insert_eq.
  assert (Ho5 : outstanding (log s5) = 1).
  { rewrite (sp_out _ Sp5). unfold s5, s4. simpl. rewrite (Px : ctxs s2 = ctxs s1).
    rewrite map_size_insert_Some by (eexists; apply lookup_insert_eq). simpl.
    by rewrite Hx, insert_empty, map_size_singleton. }
  exists (ended s5 9), l2. split; [|split; [|split; [|split; [|split; [|split; [|split; [|split; [|split]]]]]]]].
  - unfold write_op. rewrite (bind_done _ _ st tt s1).
    2:{ unfold cache_begin_op. rewrite (bind_done _ _ st true s1); [done|]. rewrite (begin_try_eq _ _ Sp).
        rewrite decide_False by (rewrite Hcm, Hh, Hm0; unfold OP_MAX_NUM_BLOCKS in *; lia). done. }
    m_step E2. m_step E3. m_step E4. m_step (release_done _ _ _ HB4). fold s5. unfold cache_end_op.
    rewrite (bind_done _ _ s5 true (ended s5 9)); [done|]. rewrite (end_first_eq _ _ _ Sp5 Hrm5). by rewrite Ho5.
  - rewrite <-(s_sblock _ _ S2 : sblock s2 = sblock st). unfold ended. by destruct (decide _).
  - rewrite <-(s_dev _ _ S2 : dev s2 = dev st). unfold ended. by destruct (decide _).
  - unfold ended. pose proof (sp_lock _ Sp5). by destruct (decide _).
  - transitivity (header s5); [unfold ended; by destruct (decide _)|]. unfold s5, s4. simpl.
    rewrite (Ph : header s2 = header s1). simpl. by rewrite Hh, HBn.
  - apply (inv_ext s5); [done|unfold ended; by destruct (decide _)..].
  - exists b, (released B4). assert (cblocks (ended s5 9) = cblocks s5) as -> by (unfold ended; by destruct (decide _)).
    split; [apply lookup_insert_eq|done].
  - intros m (x & X & Hx' & Hm). assert (E : cblocks (ended s5 9) = cblocks s5) by (unfold ended; by destruct (decide _)).
    rewrite E in Hx'. change (cblocks s5) with (<[b := released B4]> (cblocks s4)) in Hx'. rewrite Eb4, insert_insert_eq in Hx'.
    apply lookup_insert_Some in Hx' as [[<- <-]|[_ Hx']]; [right; simpl in Hm; congruence|]. apply Hc2. by exists x, X.
  - done.
  - assert (objs (ended s5 9) = objs s2) as -> by (unfold ended; by destruct (decide _)). exact Hr2.
Qed.

(** The blocks of the log are the only ones an operation may spoil. *)
Lemma end_commit_done st st' fuel : commit fuel st = Done (tt, st') → llock (log st') = false →
  ∃ st'', end_commit fuel st = Done (tt, st'') ∧ dev st'' = dev st'.
Proof.
  intros E Hl. destruct st' as [sb d lk h [k ls os o cm m x] ns bl cx ob]. simpl in Hl. subst k.
  eexists. split; [unfold end_commit; m_step E; reflexivity|done].
Qed.

(** C2: changing one block inside an atomic operation is durable and atomic. In a
    system with nothing in its log, [begin_op], [acquire], the change, [sync],
    [release] and [end_op] finish, and the device then has the new data in that
    block and every other block outside the log as before. If power is lost after
    any [k] of the writes this makes, starting again finds the block either as it
    was ([k] at most 1) or completely changed, and nothing else touched. *)
Theorem write_op_atomic st l V n d c F : quiet st l V → c ≠ 0 → outside_log (sblock st) n → in_u 64 n →
  length (hblocks (header st)) = 63%nat → (length l + 131 < F)%nat → (5 ≤ obj_room (objs st))%nat →
  ∃ st' ws, write_op F c n d st = Done (tt, st') ∧ written (dev st') = written (dev st) ++ ws ∧
    (∀ m, outside_log (sblock st) m → disk (dev st') m = put n d (disk (dev st)) m) ∧
    ∀ k r, rebooted r (replay (take k ws) (disk (dev st))) →
      ∃ r' , init_bcache F (sblock st) r = Done (tt, r') ∧
        ∀ m, outside_log (sblock st) m →
          disk (dev r') m = if decide (k ≤ 1)%nat then disk (dev st) m else put n d (disk (dev st)) m.
Proof.
  intros Q Hc Hn Hu Hlen HF Hr.
  destruct (write_op_prepares st l V n d c F Q Hc Hn Hu) as (s & l' & E & Hsb & Hdev & Hlk & Hh & I & Hp & Hcd & Hl' & Hr');
    [lia|lia|]. destruct Q as (_ & _ & _ & _ & _ & _ & Hw & Hls1 & Hls3 & Hls2 & HV & Hnc & H0).
  assert (HV' : ∀ m, outside_log (sblock st) m → put n d V m = put n d (disk (dev st)) m).
  { intros m Hm. unfold put. destruct (decide (m = n)); [done|]. by apply HV. }
  assert (Hhb : hblocks (header s) = [n] ++ drop 1 (hblocks (header st))).
  { rewrite Hh. simpl. destruct (hblocks (header st)); [done|done]. }
  destruct (commit_crash s l' (put n d V) [n] F) as (s' & ws & E' & Hw' & Hd & Hcr).
  - split; [by rewrite Hh|by eexists|rewrite Hsb; simpl; lia|rewrite Hsb; split; [done|]; split; lia|apply NoDup_singleton|].
    intros m ->%list_elem_of_singleton. by rewrite Hsb.
  - done.
  - rewrite Hh. simpl. by rewrite length_insert.
  - rewrite Hhb. apply Forall_app. split; [by constructor|]. by apply Forall_drop.
  - done.
  - by intros m ->%list_elem_of_singleton.
  - rewrite Hsb. intros [?|<-]%Hcd; [done|]. unfold outside_log in Hn. lia.
  - intros m Hm Hne. rewrite Hsb in Hm. rewrite Hdev, HV' by done. apply put_ne. intros ->. apply Hne. by left.
  - by rewrite Hsb, Hdev.
  - simpl. lia.
  - simpl. lia.
  - assert (Hlk' : llock (log s') = false).
    { apply commit_log in E' as (_ & -> & _); [done|]. rewrite Hh. simpl. lia. }
    destruct (end_commit_done _ _ _ E' Hlk') as (s2 & E2 & Hd2).
    rewrite Hsb, Hdev in *. exists s2, ws. rewrite E, Hd2. split; [done|]. split; [done|]. split.
    + intros m Hm. by rewrite Hd, HV'.
    + intros k r Hk. destruct (Hcr k r Hk) as (r' & l2 & V2 & Er & _ & _ & Hr2). exists r'. split; [done|].
      intros m Hm. rewrite Hr2 by done. simpl. destruct (decide (k ≤ 1)%nat); [done|by apply HV'].
Qed.
End transaction.

(** ** Block 500 of the blank device *)
Definition small_contents : Z → list Z := disk (dev small_ready).

Lemma small_quiet : quiet small_ready [] small_contents.
Proof.
  assert (E : answer (init_bcache 100 small_super small_start) = Some tt) by by vm_compute.
  assert (R : reachable small_ready).
  { eapply (r_init 100 small_super small_start); [|done..]. unfold small_ready. exact (answer_run _ _ _ E). }
  assert (Hb : cblocks small_ready = ∅) by by vm_compute.
  assert (Hnone : ∀ b B, cblocks small_ready !! b ≠ Some B) by (intros b B; by rewrite Hb, lookup_empty).
  split; [by apply reachable_space|]. split.
  { split; [split| | | | |].
    - apply (bool_decide_unpack _). by vm_compute.
    - intros b. split; [|by intros ?%elem_of_nil]. intros [B HB]. by destruct (Hnone b B).
    - assert (objs small_ready = 4096) as -> by by vm_compute. split; [done|]. intros x Hx. by apply elem_of_empty in Hx.
    - by vm_compute.
    - intros b1 b2 B1 B2 H1. by destruct (Hnone _ _ H1).
    - intros b B HB. by destruct (Hnone _ _ HB).
    - intros n. by left.
    - intros b B HB. by destruct (Hnone _ _ HB). }
  split; [by vm_compute|]. split; [by vm_compute|]. split; [by vm_compute|].
  split; [by vm_compute|]. split; [apply (bool_decide_unpack _); by vm_compute|].
  split; [by vm_compute|]. split; [by vm_compute|]. split; [by vm_compute|]. split; [done|]. split; [|by vm_compute].
  intros (b & B & HB & _). by destruct (Hnone b B).
Qed.

Lemma write_op_atomic_witness : ∃ st', write_op 200 7 500 (replicate 512 9) small_ready = Done (tt, st') ∧
  disk (dev st') 500 = replicate 512 9.
Proof.
  destruct (write_op_atomic small_ready [] small_contents 500 (replicate 512 9) 7 200 small_quiet) as (st' & ws & E & _ & Hd & _).
  - done.
  - right. by vm_compute.
  - apply (bool_decide_unpack _). by vm_compute.
  - by vm_compute.
  - apply (bool_decide_unpack _). by vm_compute.
  - apply (bool_decide_unpack _). by vm_compute.
  - exists st'. split; [exact E|]. rewrite Hd; [apply put_eq|]. right. by vm_compute.
Defined.
