(* ===== verification/Bitmap.v ===== *)
(** * Bitmaps ([common/bitmap.h])

    A bitmap is an array of 64-bit cells; an index outside of the array is an
    access the code has no right to make. *)
From S2P Require Import Prelude Words.

Abbreviation bitmap := (list Z).

Definition BITMAP_BITS_PER_CELL : Z := 64.
Definition BITMAP_TO_NUM_CELLS (size : Z) : Z :=
  u64 (u64 (size + BITMAP_BITS_PER_CELL) - 1) / BITMAP_BITS_PER_CELL.

Definition get_cell (idx : Z) : M bitmap Z := λ b, from_option_M (b !! Z.to_nat idx) b.
Definition set_cell (idx v : Z) : M bitmap unit := modify (<[Z.to_nat idx := v]>).

Definition bitmap_get (index : Z) : M bitmap bool :=
  c ← get_cell (index / BITMAP_BITS_PER_CELL);
  mret (bool_decide (Z.land (Z.shiftr c (index mod BITMAP_BITS_PER_CELL)) 1 ≠ 0)).
Definition bitmap_set (index : Z) : M bitmap unit :=
  c ← get_cell (index / BITMAP_BITS_PER_CELL);
  set_cell (index / BITMAP_BITS_PER_CELL) (Z.lor c (BIT (index mod BITMAP_BITS_PER_CELL))).
Definition bitmap_clear (index : Z) : M bitmap unit :=
  c ← get_cell (index / BITMAP_BITS_PER_CELL);
  set_cell (index / BITMAP_BITS_PER_CELL) (Z.land c (u64 (Z.lnot (BIT (index mod BITMAP_BITS_PER_CELL))))).

(** ** The array of bits it stands for *)
Definition bit (b : bitmap) (i : Z) : bool :=
  match b !! Z.to_nat (i / 64) with Some c => Z.testbit c (i mod 64) | None => false end.

Inductive bitmap_op := BGet (i : Z) | BSet (i : Z) | BClear (i : Z).
Definition op_index (o : bitmap_op) : Z := match o with BGet i | BSet i | BClear i => i end.
Definition run_op (o : bitmap_op) : M bitmap (option bool) :=
  match o with
  | BGet i => r ← bitmap_get i; mret (Some r)
  | BSet i => bitmap_set i;; mret None
  | BClear i => bitmap_clear i;; mret None
  end.
(** The same on booleans. *)
Definition spec_op (o : bitmap_op) (f : Z → bool) : option bool * (Z → bool) :=
  match o with
  | BGet i => (Some (f i), f)
  | BSet i => (None, λ j, if decide (j = i) then true else f j)
  | BClear i => (None, λ j, if decide (j = i) then false else f j)
  end.

Lemma cell_done i (b : bitmap) : 0 ≤ i < 64 * Z.of_nat (length b) → ∃ c, b !! Z.to_nat (i / 64) = Some c ∧ get_cell (i / 64) b = Done (c, b).
Proof.
  intros Hi. destruct (b !! Z.to_nat (i / 64)) as [c|] eqn:E.
  - exists c. unfold get_cell. by rewrite E.
  - apply lookup_ge_None in E. assert (i / 64 < Z.of_nat (length b)) by (apply Z.div_lt_upper_bound; lia). lia.
Qed.

(** Changing one cell, bit by bit. *)
Lemma bit_insert b i c v (x : bool) : 0 ≤ i < 64 * Z.of_nat (length b) → b !! Z.to_nat (i / 64) = Some c →
  (∀ k, 0 ≤ k < 64 → Z.testbit v k = if decide (k = i mod 64) then x else Z.testbit c k) →
  ∀ j, 0 ≤ j → bit (<[Z.to_nat (i / 64) := v]> b) j = if decide (j = i) then x else bit b j.
Proof.
  intros Hi Hc Hv j Hj. unfold bit.
  pose proof (Z.div_mod i 64 ltac:(lia)). pose proof (Z.div_mod j 64 ltac:(lia)).
  pose proof (Z.mod_pos_bound j 64 ltac:(lia)). pose proof (Z.div_pos i 64 ltac:(lia) ltac:(lia)). pose proof (Z.div_pos j 64 Hj ltac:(lia)).
  destruct (decide (j / 64 = i / 64)) as [E|E].
  - rewrite E, list_lookup_insert_eq by by eapply lookup_lt_Some. rewrite Hv by lia. rewrite Hc.
    destruct (decide (j mod 64 = i mod 64)), (decide (j = i)); try done; lia.
  - rewrite list_lookup_insert_ne by lia. by rewrite decide_False by congruence.
Qed.

Lemma run_op_spec o b : 0 ≤ op_index o < 64 * Z.of_nat (length b) →
  ∃ b', run_op o b = Done ((spec_op o (bit b)).1, b') ∧ length b' = length b ∧
    ∀ j, 0 ≤ j → bit b' j = (spec_op o (bit b)).2 j.
Proof.
  intros Hi. destruct (cell_done _ _ Hi) as (c & Hc & E). pose proof (Z.mod_pos_bound (op_index o) 64 ltac:(lia)) as Hm.
  destruct o as [i|i|i]; simpl in *; unfold bitmap_get, bitmap_set, bitmap_clear, BITMAP_BITS_PER_CELL.
  - exists b. split; [|done]. rewrite (bind_done _ _ b (bit b i) b); [done|]. m_step E. unfold mret, M_ret. do 3 f_equal.
    unfold bit. rewrite Hc. apply Z.b2z_inj. change 1 with (Z.ones 1). rewrite Z.land_ones by lia. change (2 ^ 1) with 2.
    rewrite Zmod_odd, <-Z.bit0_odd, Z.shiftr_spec, Z.add_0_l by lia. by destruct (Z.testbit c (i mod 64)).
  - exists (<[Z.to_nat (i / 64) := Z.lor c (BIT (i mod 64))]> b). split; [|split; [apply length_insert|]].
    + rewrite (bind_done _ _ b tt (<[Z.to_nat (i / 64) := Z.lor c (BIT (i mod 64))]> b)); [done|]. by m_step E.
    + apply (bit_insert b i c _ true); [done|done|]. intros k Hk. rewrite Z.lor_spec, BIT_testbit by lia.
      destruct (decide (k = i mod 64)) as [->|Hne]; [rewrite bool_decide_true by done; apply orb_true_r|].
      rewrite bool_decide_false by congruence. apply orb_false_r.
  - set (v := Z.land c (u64 (Z.lnot (BIT (i mod 64))))). exists (<[Z.to_nat (i / 64) := v]> b). split; [|split; [apply length_insert|]].
    + rewrite (bind_done _ _ b tt (<[Z.to_nat (i / 64) := v]> b)); [done|]. by m_step E.
    + apply (bit_insert b i c v false); [done|done|]. intros k Hk. unfold v, wrap. rewrite Z.land_spec, Z.mod_pow2_bits_low by lia.
      rewrite Z.lnot_spec, BIT_testbit by lia.
      destruct (decide (k = i mod 64)) as [->|Hne]; [rewrite bool_decide_true by done; apply andb_false_r|].
      rewrite bool_decide_false by congruence. apply andb_true_r.
Qed.

Fixpoint run_ops (os : list bitmap_op) : M bitmap (list (option bool)) :=
  match os with [] => mret [] | o :: os => r ← run_op o; rs ← run_ops os; mret (r :: rs) end.
Fixpoint spec_ops (os : list bitmap_op) (f : Z → bool) : list (option bool) :=
  match os with [] => [] | o :: os => let '(r, f') := spec_op o f in r :: spec_ops os f' end.

Lemma spec_ops_ext os : ∀ f g, Forall (λ o, 0 ≤ op_index o) os → (∀ j, 0 ≤ j → f j = g j) → spec_ops os f = spec_ops os g.
Proof.
  induction os as [|o os IH]; intros f g Ho H; [done|]. apply Forall_cons in Ho as [Hi Ho].
  destruct o as [i|i|i]; simpl in *; f_equal; try (by rewrite H); apply IH; try done; intros j Hj; case_decide; auto.
Qed.

(** C40: a bitmap behaves as an array of booleans. Any sequence of [bitmap_get],
    [bitmap_set] and [bitmap_clear] at indices of the bitmap answers what the same
    operations on booleans answer, so setting or clearing a bit changes that bit
    and no other. *)
Theorem bitmap_is_bool_array os b : Forall (λ o, 0 ≤ op_index o < 64 * Z.of_nat (length b)) os →
  ∃ b', run_ops os b = Done (spec_ops os (bit b), b') ∧ length b' = length b.
Proof.
  revert b. induction os as [|o os IH]; intros b Ho; [by exists b|]. apply Forall_cons in Ho as [Hi Ho].
  destruct (run_op_spec o b Hi) as (b1 & E1 & Hl & Hb). destruct (IH b1) as (b' & E & Hl').
  { by rewrite Hl. }
  exists b'. split; [|congruence]. cbn [run_ops spec_ops]. m_step E1. m_step E. unfold mret, M_ret. do 2 f_equal.
  destruct (spec_op o (bit b)) as [r f] eqn:Es. simpl in *. f_equal. apply spec_ops_ext; [|done].
  eapply Forall_impl; [exact Ho|]. simpl. lia.
Qed.

Lemma bitmap_is_bool_array_witness : ∃ b', run_ops [BSet 64; BGet 64; BGet 63; BClear 0; BGet 0] [1; 0] =
  Done ([None; Some true; Some false; None; Some false], b').
Proof.
  destruct (bitmap_is_bool_array [BSet 64; BGet 64; BGet 63; BClear 0; BGet 0] [1; 0]) as (b' & E & _).
  - by apply (bool_decide_unpack _).
  - exists b'. etrans; [exact E|]. vm_compute. reflexivity.
Defined.
