(* ===== verification/Format.v ===== *)
(** * Formatted output ([common/format.c], [kernel/printk.c])

    The format string and the strings it prints are in byte memory; the arguments
    of a [va_list] are the values passed, each converted to the type [va_arg]
    asks for.  The calls of [put_char] are recorded in order in [fout]; the
    static buffer of [_print_int] is a list of 64 bytes, written in range only. *)
From S2P Require Import Prelude Words Atomics Memory Strings.

Record fstate := mkF {
  fmem : mem; fout : list Z; fbuf : list Z; fargs : list Z; printk_lock : SpinLock
}.

Definition put_char (c : Z) : M fstate unit :=
  modify (λ s, mkF (fmem s) (fout s ++ [c]) (fbuf s) (fargs s) (printk_lock s)).
(** [va_arg]: the next argument; there has to be one. *)
Definition va_arg (cast : Z → Z) : M fstate Z := λ s,
  match fargs s with
  | v :: vs => Done (cast v, mkF (fmem s) (fout s) (fbuf s) vs (printk_lock s))
  | [] => Crash
  end.
Definition fread (p : Z) : M fstate Z := gets (λ s, fmem s p).
Definition write_buf (i : nat) (c : Z) : M fstate unit := λ s,
  if decide (i < length (fbuf s))%nat
  then Done (tt, mkF (fmem s) (fout s) (<[i := c]> (fbuf s)) (fargs s) (printk_lock s)) else Crash.
Definition read_buf (i : nat) : M fstate Z := λ s, from_option_M (fbuf s !! i) s.

(** [digit[]] *)
Definition digit : list Z := [48; 49; 50; 51; 52; 53; 54; 55; 56; 57; 97; 98; 99; 100; 101; 102].

(** Both loops of [_print_int] are [do]-loops over at most 64 digits. *)
Definition _print_int (u _base : Z) (is_signed : bool) : M fstate unit :=
  let base := u64 _base in
  v ← (if is_signed && bool_decide (u < 0) then put_char 45;; mret (u64 (- u64 u)) else mret (u64 u));
  pos ← loop 65 (λ '(pos, v),
    c ← from_option_M (digit !! Z.to_nat (v mod base));
    write_buf pos c;;
    mret (if decide (v / base ≠ 0) then inl (S pos, v / base) else inr (S pos))) (0%nat, v);
  loop 65 (λ pos,
    c ← read_buf (pred pos);
    put_char c;;
    mret (if decide (pred pos ≠ 0%nat) then inl (pred pos) else inr tt)) pos.

(** The [_INT_CASE]s in order: identifier, type of the argument, base, sign. *)
Definition int_cases : list (list Z * (Z → Z) * Z * bool) := [
  ([117], λ v, u32 v, 10, false);
  ([108; 108; 117], λ v, u64 v, 10, false);
  ([100], λ v, i32 v, 10, true);
  ([108; 108; 100], λ v, i64 v, 10, true);
  ([120], λ v, u32 v, 16, false);
  ([108; 108; 120], λ v, u64 v, 16, false);
  ([112], λ v, u64 v, 16, false);
  ([122; 117], λ v, u64 v, 10, false);
  ([122; 100], λ v, i64 v, 10, true)
].

(** [strncmp(pos, ident, sizeof(ident) - 1) == 0] *)
Fixpoint looking_at (pos : Z) (ident : list Z) : M fstate bool :=
  match ident with
  | [] => mret true
  | b :: ident => a ← fread pos; if decide (a ≠ b) then mret false else looking_at (pos + 1) ident
  end.

(** The chain of [_INT_CASE]s; [None] when none applies. *)
Fixpoint int_case (pos : Z) (cases : list (list Z * (Z → Z) * Z * bool)) : M fstate (option Z) :=
  match cases with
  | [] => mret None
  | (ident, cast, base, sign) :: cases =>
      ok ← looking_at pos ident;
      if (ok : bool) then
        v ← va_arg cast;
        _print_int (i64 v) base sign;;
        mret (Some (pos + Z.of_nat (length ident)))
      else int_case pos cases
  end.

Definition print_str (fuel : nat) (s : Z) : M fstate unit :=
  loop fuel (λ s, c ← fread s; if decide (c ≠ 0) then put_char c;; mret (inl (s + 1)) else mret (inr tt)) s.

(** One turn of the loop of [vformat]; [null] is the address of the literal printed
    for a null pointer. *)
Definition vformat_step (fuel : nat) (null pos : Z) : M fstate (Z + unit) :=
  c ← fread pos;
  let pos := pos + 1 in
  if decide (c = 0) then mret (inr tt)
  else if decide (c = 37) then
    d ← fread pos;
    if decide (d = 37) then put_char 37;; mret (inl (pos + 1))
    else if decide (d = 99) then v ← va_arg u8; put_char v;; mret (inl (pos + 1))
    else if decide (d = 115) then
      s ← va_arg u64;
      print_str fuel (if decide (s = 0) then null else s);;
      mret (inl (pos + 1))
    else
      r ← int_case pos int_cases;
      match r with
      | Some pos => mret (inl pos)
      | None => put_char c;; mret (inl pos)
      end
  else put_char c;; mret (inl pos).
Definition vformat (fuel : nat) (null fmt : Z) : M fstate unit := loop fuel (vformat_step fuel null) fmt.

(** [printk] prints under its lock. *)
Definition on_printk_lock {A} (m : M SpinLock A) : M fstate A := λ s,
  match m (printk_lock s) with
  | Done (a, l) => Done (a, mkF (fmem s) (fout s) (fbuf s) (fargs s) l)
  | Panic => Panic | Crash => Crash | NoFuel => NoFuel
  end.
Definition printk (fuel : nat) (null fmt : Z) : M fstate unit :=
  on_printk_lock (_acquire_spinlock 1);;
  vformat fuel null fmt;;
  on_printk_lock _release_spinlock.

(** ** Numerals *)

(** The value of digits, the least significant first. *)
Fixpoint digits_val (base : Z) (ds : list Z) : Z :=
  match ds with [] => 0 | d :: ds => d + base * digits_val base ds end.
(** Digits of [base] without a leading zero. *)
Definition numeral (base : Z) (ds : list Z) : Prop :=
  ds ≠ [] ∧ Forall (λ d, 0 ≤ d < base) ds ∧ (last ds = Some 0 → ds = [0]).
Definition ascii_digit (d : Z) : Z := default 0 (digit !! Z.to_nat d).

(** The digits of [v], at most [n]. *)
Fixpoint to_digits (n : nat) (base v : Z) : list Z :=
  match n with
  | O => []
  | S n => v mod base :: (if decide (v / base ≠ 0) then to_digits n base (v / base) else [])
  end.

Lemma to_digits_val n base v : 2 ≤ base → 0 ≤ v < base ^ Z.of_nat n →
  digits_val base (to_digits n base v) = v ∧ Forall (λ d, 0 ≤ d < base) (to_digits n base v) ∧
  (n ≠ 0%nat → to_digits n base v ≠ [] ∧ (last (to_digits n base v) = Some 0 → to_digits n base v = [0])).
Proof.
  intros Hb. revert v. induction n as [|n IH]; intros v Hv; [simpl in *; split; [lia|by split]|].
  rewrite Nat2Z.inj_succ, Z.pow_succ_r in Hv by lia. pose proof (Z.div_mod v base ltac:(lia)) as Hdm.
  pose proof (Z.mod_pos_bound v base ltac:(lia)) as Hm. cbn [to_digits digits_val].
  assert (Hd : 0 ≤ v / base < base ^ Z.of_nat n).
  { split; [apply Z.div_pos; lia|apply Z.div_lt_upper_bound; lia]. }
  destruct (decide (v / base ≠ 0)) as [Hnz|Hz].
  - destruct (IH _ Hd) as (E & F & N). split; [lia|]. split; [by constructor|]. intros _. split; [done|].
    destruct n as [|n]; [simpl in Hd; lia|]. destruct (N ltac:(done)) as [N1 N2]. intros Hl.
    destruct (to_digits (S n) base (v / base)) as [|d ds] eqn:Ed; [done|]. rewrite last_cons_cons in Hl.
    specialize (N2 Hl). injection N2 as -> ->. simpl in E. lia.
  - simpl. split; [lia|]. split; [by constructor|]. intros _. split; [done|]. by intros [= ->].
Qed.

Lemma to_digits_length n base v : (length (to_digits n base v) ≤ n)%nat.
Proof. revert v. induction n as [|n IH]; intros v; simpl; [done|]. case_decide; simpl; [specialize (IH (v / base)); lia|lia]. Qed.

(** ** [_print_int] *)
Definition emit (cs : list Z) (s : fstate) : fstate :=
  mkF (fmem s) (fout s ++ cs) (fbuf s) (fargs s) (printk_lock s).
Definition with_buf (b : list Z) (s : fstate) : fstate := mkF (fmem s) (fout s) b (fargs s) (printk_lock s).

Lemma emit_emit a b s : emit b (emit a s) = emit (a ++ b) s.
Proof. unfold emit. simpl. by rewrite app_assoc. Qed.
Lemma emit_nil s : emit [] s = s.
Proof. destruct s. unfold emit. simpl. by rewrite app_nil_r. Qed.
Lemma put_char_done c s : put_char c s = Done (tt, emit [c] s).
Proof. done. Qed.

Lemma digit_done d s : 0 ≤ d < 16 → from_option_M (S := fstate) (digit !! Z.to_nat d) s = Done (ascii_digit d, s).
Proof.
  intros Hd. unfold ascii_digit. destruct (digit !! Z.to_nat d) eqn:E; [done|].
  apply lookup_ge_None in E. simpl in E. lia.
Qed.

Lemma write_buf_done pre x suf c s : fbuf s = pre ++ x :: suf →
  write_buf (length pre) c s = Done (tt, with_buf (pre ++ c :: suf) s).
Proof.
  intros Hs. unfold write_buf. rewrite Hs, decide_True by (rewrite length_app; simpl; lia).
  rewrite insert_app_r_alt by lia. by rewrite Nat.sub_diag.
Qed.

Lemma fill_digits base : 2 ≤ base ≤ 16 → ∀ n v pre suf s, 0 ≤ v < base ^ Z.of_nat (S n) → fbuf s = pre ++ suf → (n < length suf)%nat →
  loop (S n) (λ '(pos, v),
    c ← from_option_M (digit !! Z.to_nat (v mod base));
    write_buf pos c;;
    mret (if decide (v / base ≠ 0) then inl (S pos, v / base) else inr (S pos))) (length pre, v) s =
  let cs := ascii_digit <$> to_digits (S n) base v in
  Done ((length pre + length cs)%nat, with_buf (pre ++ cs ++ drop (length cs) suf) s).
Proof.
  intros Hb n. induction n as [|n IH]; intros v pre suf s Hv Hs Hn;
    (destruct suf as [|x suf]; [simpl in Hn; lia|]); cbv zeta; rewrite loop_S;
    pose proof (Z.mod_pos_bound v base ltac:(lia)) as Hm;
    rewrite (bind_done _ _ s (if decide (v / base ≠ 0) then inl (S (length pre), v / base) else inr (S (length pre)))
      (with_buf (pre ++ ascii_digit (v mod base) :: suf) s)).
  2,4: m_step (digit_done (v mod base) s ltac:(lia)); by m_step (write_buf_done pre x suf (ascii_digit (v mod base)) s Hs).
  - rewrite Z.pow_1_r in Hv. rewrite Z.div_small by lia. cbn [to_digits]. rewrite Z.div_small by lia.
    rewrite decide_False by (intros H; by apply H). simpl. unfold mret, M_ret. do 2 f_equal. lia.
  - cbn [to_digits]. destruct (decide (v / base ≠ 0)) as [Hnz|Hz].
    + assert (Hd : 0 ≤ v / base < base ^ Z.of_nat (S n)).
      { rewrite (Nat2Z.inj_succ (S n)), Z.pow_succ_r in Hv by lia. split; [apply Z.div_pos; lia|apply Z.div_lt_upper_bound; lia]. }
      specialize (IH (v / base) (pre ++ [ascii_digit (v mod base)]) suf (with_buf (pre ++ ascii_digit (v mod base) :: suf) s) Hd).
      cbv zeta in IH. rewrite length_app in IH. simpl length in IH at 1. rewrite Nat.add_1_r in IH. rewrite IH.
      * rewrite !fmap_cons. simpl. unfold with_buf. simpl. rewrite <-!app_assoc. simpl. do 2 f_equal. exact (eq_sym (Nat.add_succ_r _ _)).
      * simpl. by rewrite <-app_assoc.
      * simpl in Hn. lia.
    + simpl. unfold mret, M_ret. do 2 f_equal. lia.
Qed.

Lemma print_back cs : ∀ suf fuel s, fbuf s = cs ++ suf → cs ≠ [] → (length cs ≤ fuel)%nat →
  loop fuel (λ pos,
    c ← read_buf (pred pos);
    put_char c;;
    mret (if decide (pred pos ≠ 0%nat) then inl (pred pos) else inr tt)) (length cs) s = Done (tt, emit (reverse cs) s).
Proof.
  induction cs as [|c cs IH] using rev_ind; intros suf fuel s Hs Hne Hf; [done|].
  rewrite length_app in *. simpl in *. rewrite Nat.add_1_r in *. destruct fuel as [|fuel]; [lia|]. rewrite loop_S.
  rewrite (bind_done _ _ s (if decide (length cs ≠ 0%nat) then inl (length cs) else inr tt) (emit [c] s)).
  2:{ unfold read_buf. simpl pred. rewrite (bind_done _ _ s c s); [done|]. rewrite Hs, <-app_assoc, lookup_app_r, Nat.sub_diag by lia. done. }
  rewrite reverse_app. destruct cs as [|c' cs]; [done|]. rewrite decide_True by done.
  rewrite (IH ([c] ++ suf)); [by rewrite emit_emit| |done|simpl in *; lia]. simpl. by rewrite Hs, <-app_assoc.
Qed.

Definition magnitude (u : Z) (is_signed : bool) : Z := if is_signed then Z.abs u else u64 u.
Definition sign_of (u : Z) (is_signed : bool) : list Z := if is_signed && bool_decide (u < 0) then [45] else [].

Lemma print_int_spec u base is_signed s : 2 ≤ base ≤ 16 → in_s 64 u → length (fbuf s) = 64%nat →
  ∃ b, length b = 64%nat ∧ _print_int u base is_signed s = Done (tt,
    emit (sign_of u is_signed ++ reverse (ascii_digit <$> to_digits 64 base (magnitude u is_signed))) (with_buf b s)).
Proof.
  intros Hb Hu Hl. unfold _print_int. rewrite (u64_small base) by (unfold in_u; lia). unfold in_s in Hu. simpl in Hu.
  set (v := magnitude u is_signed). set (s1 := emit (sign_of u is_signed) s).
  assert (Hv : 0 ≤ v < base ^ 64).
  { enough (0 ≤ v < 2 ^ 64) as H by (split; [lia|]; eapply Z.lt_le_trans; [apply H|]; apply Z.pow_le_mono_l; lia).
    unfold v, magnitude. destruct is_signed; [lia|]. apply wrap_range. lia. }
  rewrite (bind_done _ _ s v s1).
  2:{ unfold v, s1, magnitude, sign_of. destruct is_signed; simpl; [|by rewrite emit_nil].
      case_bool_decide.
      - unfold mbind, M_bind. rewrite put_char_done. unfold mret, M_ret. do 2 f_equal. unfold wrap.
        replace (u mod 2 ^ 64) with (u + 2 ^ 64) by (apply (Z.mod_unique_pos _ _ (-1)); lia).
        symmetry. apply (Z.mod_unique_pos _ _ (-1)); lia.
      - rewrite emit_nil. unfold mret, M_ret. do 2 f_equal. rewrite u64_small; unfold in_u; lia. }
  pose proof (fill_digits base Hb 63 v [] (fbuf s1) s1) as F. change (S 63) with 64%nat in F. cbv zeta in F.
  set (cs := ascii_digit <$> to_digits 64 base v) in *.
  assert (Hcs : (length cs ≤ 64)%nat) by (unfold cs; rewrite length_fmap; apply to_digits_length).
  set (b := cs ++ drop (length cs) (fbuf s1)). exists b.
  assert (Hlb : length b = 64%nat).
  { unfold b. rewrite length_app, length_drop. change (fbuf s1) with (fbuf s). lia. }
  split; [done|].
  rewrite (bind_done _ _ s1 (length cs) (with_buf b s1)).
  2:{ apply (loop_mono _ 64 1). apply (F Hv eq_refl). change (fbuf s1) with (fbuf s). lia. }
  rewrite (print_back cs (drop (length cs) (fbuf s1))).
  - unfold s1, emit, with_buf. simpl. by rewrite <-app_assoc.
  - done.
  - unfold cs. pose proof (to_digits_val 64 base v ltac:(lia) Hv) as (_ & _ & H). destruct (H ltac:(done)) as [H1 _].
    intros E. apply fmap_nil_inv in E. done.
  - lia.
Qed.

(** ** [vformat] *)

(** A format string in pieces, with the arguments for them. *)
Inductive piece :=
  | PText (c : Z)
  | PPercent
  | PChar (v : Z)
  | PStr (p : Z) (cs : list Z)
  | PInt (ident : list Z) (cast : Z → Z) (base : Z) (sign : bool) (v : Z).

Definition piece_fmt (x : piece) : list Z :=
  match x with
  | PText c => [c] | PPercent => [37; 37] | PChar _ => [37; 99] | PStr _ _ => [37; 115]
  | PInt ident _ _ _ _ => 37 :: ident
  end.
Definition piece_args (x : piece) : list Z :=
  match x with PText _ | PPercent => [] | PChar v | PStr v _ | PInt _ _ _ _ v => [v] end.
Definition show_int (u base : Z) (sign : bool) : list Z :=
  sign_of u sign ++ reverse (ascii_digit <$> to_digits 64 base (magnitude u sign)).
(** What the C standard wants printed. *)
Definition piece_out (x : piece) : list Z :=
  match x with
  | PText c => [c] | PPercent => [37] | PChar v => [u8 v] | PStr _ cs => cs
  | PInt _ cast base sign v => show_int (i64 (cast v)) base sign
  end.

Definition string_at (m : mem) (p : Z) (cs : list Z) : Prop := ∀ i c, cs !! i = Some c → m (p + Z.of_nat i) = c.
Definition piece_ok (m : mem) (null : Z) (fuel : nat) (x : piece) : Prop :=
  match x with
  | PText c => c ≠ 0 ∧ c ≠ 37
  | PPercent | PChar _ => True
  | PStr p cs => in_u 64 p ∧ Forall (λ c, c ≠ 0) cs ∧ string_at m (if decide (p = 0) then null else p) (cs ++ [0]) ∧ (length cs < fuel)%nat
  | PInt ident cast base sign _ => (ident, cast, base, sign) ∈ int_cases
  end.

Lemma string_at_cons m p c cs : string_at m p (c :: cs) → m p = c ∧ string_at m (p + 1) cs.
Proof.
  intros H. split; [by rewrite <-(H 0%nat c eq_refl), Z.add_0_r|]. intros i x Hx.
  rewrite <-(H (S i) x Hx). f_equal. lia.
Qed.
Lemma string_at_app m p a b : string_at m p (a ++ b) → string_at m p a ∧ string_at m (p + Z.of_nat (length a)) b.
Proof.
  intros H. split; intros i x Hx; [apply H; by apply lookup_app_l_Some|].
  replace (p + Z.of_nat (length a) + Z.of_nat i) with (p + Z.of_nat (length a + i)) by lia.
  apply H. rewrite lookup_app_r by lia. by replace (length a + i - length a)%nat with i by lia.
Qed.

Lemma fread_done p s : fread p s = Done (fmem s p, s).
Proof. done. Qed.

Lemma print_str_spec cs : ∀ p fuel s, Forall (λ c, c ≠ 0) cs → string_at (fmem s) p (cs ++ [0]) → (length cs < fuel)%nat →
  print_str fuel p s = Done (tt, emit cs s).
Proof.
  unfold print_str. induction cs as [|c cs IH]; intros p fuel s Hnz Hs Hf; (destruct fuel as [|fuel]; [lia|]); rewrite loop_S;
    apply string_at_cons in Hs as [Hc Hs].
  - rewrite (bind_done _ _ s (inr tt) s); [by rewrite emit_nil|]. m_step (fread_done p s). by rewrite Hc.
  - apply Forall_cons in Hnz as [Hn0 Hnz].
    rewrite (bind_done _ _ s (inl (p + 1)) (emit [c] s)); [|by m_step (fread_done p s); rewrite Hc, decide_True].
    rewrite IH; [by rewrite emit_emit|done|done|simpl in Hf; lia].
Qed.

(** The chain of cases picks the one whose identifier follows. *)
Lemma looking_at_spec ident : ∀ pos s, ∃ r, looking_at pos ident s = Done (r, s) ∧ (r = true ↔ string_at (fmem s) pos ident).
Proof.
  induction ident as [|c ident IH]; intros pos s; cbn [looking_at].
  - exists true. split; [done|]. split; [intros _|done]. by intros [] x ?.
  - rewrite (bind_done _ _ _ _ _ (fread_done pos s)). destruct (decide (fmem s pos ≠ c)) as [Hc|Hc].
    + exists false. split; [done|]. split; [done|]. by intros [? _]%string_at_cons.
    + apply dec_stable in Hc. destruct (IH (pos + 1) s) as (r & E & Hr). exists r. split; [done|]. rewrite Hr. split.
      * intros H [|i] x Hx; [simplify_eq/=; by rewrite Z.add_0_r|]. simpl in Hx. rewrite <-(H i x Hx). f_equal. lia.
      * by intros [_ ?]%string_at_cons.
Qed.

(** No identifier is the beginning of another one, nor of [%], [c] or [s]. *)
Definition incompatible (a b : list Z) : bool := negb (bool_decide (a `prefix_of` b)) && negb (bool_decide (b `prefix_of` a)).

Lemma string_at_prefix m p a b : string_at m p a → string_at m p b → incompatible a b = false.
Proof.
  intros Ha Hb. unfold incompatible. enough (a `prefix_of` b ∨ b `prefix_of` a) as [H|H].
  1,2: rewrite (bool_decide_true _ H); by rewrite ?andb_false_r.
  revert p b Ha Hb. induction a as [|x a IH]; intros p [|y b] Ha Hb; [left; apply prefix_nil|left; apply prefix_nil|right; apply prefix_nil|].
  apply string_at_cons in Ha as [Hx Ha]. apply string_at_cons in Hb as [Hy Hb].
  assert (x = y) as -> by congruence. destruct (IH _ _ Ha Hb); [left|right]; by apply prefix_cons.
Qed.

Lemma int_case_spec v args s pos ident cast base sign cases : (ident, cast, base, sign) ∈ cases →
  Forall (λ '(_, _, b, _), 2 ≤ b ≤ 16) cases →
  ForallOrdPairs (λ x y, incompatible x.1.1.1 y.1.1.1 = true) cases →
  string_at (fmem s) pos ident → fargs s = v :: args → length (fbuf s) = 64%nat →
  ∃ b, length b = 64%nat ∧ int_case pos cases s = Done (Some (pos + Z.of_nat (length ident)),
    mkF (fmem s) (fout s ++ show_int (i64 (cast v)) base sign) b args (printk_lock s)).
Proof.
  intros Hin HF Hord Hs Ha Hl. induction Hord as [|[[[id' c'] b'] s'] cases Hp Hord IH]; [by apply elem_of_nil in Hin|].
  apply Forall_cons in HF as [Hb HF]. cbn [int_case].
  destruct (looking_at_spec id' pos s) as (r & E & Hr). rewrite (bind_done _ _ _ _ _ E).
  apply elem_of_cons in Hin as [[= <- <- <- <-]|Hin].
  - destruct r; [|exfalso; by apply Bool.diff_false_true, Hr]. unfold va_arg. unfold mbind at 1, M_bind at 1. rewrite Ha.
    destruct (print_int_spec (i64 (cast v)) base sign (mkF (fmem s) (fout s) (fbuf s) args (printk_lock s)) Hb) as (b & Hlb & Eb);
      [apply swrap_range; lia|done|].
    exists b. split; [done|]. by rewrite (bind_done _ _ _ _ _ Eb).
  - destruct r; [|by apply IH]. exfalso. destruct Hr as [Hr _]. specialize (Hr eq_refl).
    rewrite Forall_forall in Hp. specialize (Hp _ Hin). simpl in Hp. by rewrite (string_at_prefix _ _ _ _ Hr Hs) in Hp.
Qed.

Lemma int_cases_ok : Forall (λ '(_, _, b, _), 2 ≤ b ≤ 16) int_cases ∧
  ForallOrdPairs (λ x y, incompatible x.1.1.1 y.1.1.1 = true) int_cases ∧
  Forall (λ x, Forall (λ c, incompatible [c] x.1.1.1 = true) [37; 99; 115]) int_cases.
Proof. split; [by repeat constructor|]. split; by repeat constructor. Qed.

Lemma vformat_piece fuel null x pos rest s : piece_ok (fmem s) null fuel x → string_at (fmem s) pos (piece_fmt x) →
  fargs s = piece_args x ++ rest → length (fbuf s) = 64%nat →
  ∃ b, length b = 64%nat ∧ vformat_step fuel null pos s = Done (inl (pos + Z.of_nat (length (piece_fmt x))),
    mkF (fmem s) (fout s ++ piece_out x) b rest (printk_lock s)).
Proof.
  intros Hok Hs Ha Hl. unfold vformat_step. rewrite (bind_done _ _ _ _ _ (fread_done pos s)).
  destruct x as [c| |v|p cs|ident cast base sign v]; cbn [piece_fmt piece_args piece_out app] in *;
    apply string_at_cons in Hs as [-> Hs]; [|cbn beta iota zeta; rewrite decide_False, decide_True by done..].
  - destruct Hok as [H0 H37]. exists (fbuf s). split; [done|]. cbn zeta. rewrite !decide_False by done.
    rewrite <-Ha. by destruct s.
  - apply string_at_cons in Hs as [Hd _]. exists (fbuf s). split; [done|]. m_step (fread_done (pos + 1) s). rewrite Hd, decide_True by done.
    unfold mbind, M_bind. rewrite put_char_done. unfold mret, M_ret, emit. rewrite Ha. do 3 f_equal. simpl. lia.
  - apply string_at_cons in Hs as [Hd _]. exists (fbuf s). split; [done|]. m_step (fread_done (pos + 1) s).
    rewrite Hd, decide_False, decide_True by done. unfold va_arg, mbind, M_bind. rewrite Ha.
    rewrite put_char_done. unfold mret, M_ret, emit. do 3 f_equal. simpl. lia.
  - apply string_at_cons in Hs as [Hd _]. destruct Hok as (Hp & Hnz & Hst & Hf). exists (fbuf s). split; [done|].
    m_step (fread_done (pos + 1) s). rewrite Hd, !decide_False, decide_True by done.
    unfold va_arg. unfold mbind at 1, M_bind at 1. rewrite Ha. rewrite (u64_small p) by done.
    rewrite (bind_done _ _ _ _ _ (print_str_spec cs _ fuel (mkF (fmem s) (fout s) (fbuf s) rest (printk_lock s)) Hnz Hst Hf)). unfold mret, M_ret, emit. do 3 f_equal. simpl. lia.
  - destruct int_cases_ok as (I1 & I2 & I3).
    rewrite Forall_forall in I3. specialize (I3 _ Hok). simpl in I3.
    assert (Hd : ∀ c, c ∈ [37; 99; 115] → fmem s (pos + 1) ≠ c).
    { intros c Hc E. rewrite Forall_forall in I3. specialize (I3 c Hc).
      assert (string_at (fmem s) (pos + 1) [c]) as Hc1.
      { intros [|i] y Hy; simplify_eq/=. by rewrite Z.add_0_r. }
      by rewrite (string_at_prefix _ _ _ _ Hc1 Hs) in I3. }
    m_step (fread_done (pos + 1) s). rewrite !decide_False by (apply Hd; by repeat constructor).
    destruct (int_case_spec v rest s (pos + 1) ident cast base sign int_cases Hok I1 I2 Hs Ha Hl) as (b & Hlb & E).
    exists b. split; [done|]. m_step E. unfold mret, M_ret. do 3 f_equal. simpl. lia.
Qed.

(** A format made of pieces. *)
Lemma vformat_renders ps null fmt rest s fuel : Forall (piece_ok (fmem s) null fuel) ps →
  string_at (fmem s) fmt (mjoin (piece_fmt <$> ps) ++ [0]) → fargs s = mjoin (piece_args <$> ps) ++ rest →
  length (fbuf s) = 64%nat → (length ps < fuel)%nat →
  ∃ b, length b = 64%nat ∧ vformat fuel null fmt s =
    Done (tt, mkF (fmem s) (fout s ++ mjoin (piece_out <$> ps)) b rest (printk_lock s)).
Proof.
  intros Hok Hs Ha Hl Hf. unfold vformat. revert Hok Hs Ha Hl. generalize fuel at 1 3 as fuel'. intros fuel'. revert fuel Hf.
  revert fmt s. induction ps as [|x ps IH]; intros fmt s fuel Hf Hok Hs Ha Hl; (destruct fuel as [|fuel]; [lia|]); rewrite loop_S.
  - exists (fbuf s). split; [done|]. apply string_at_cons in Hs as [H0 _]. simpl in Ha.
    rewrite (bind_done _ _ s (inr tt) s).
    + simpl. rewrite app_nil_r, <-Ha. by destruct s.
    + unfold vformat_step. m_step (fread_done fmt s). by rewrite H0.
  - apply Forall_cons in Hok as [Hx Hok]. rewrite fmap_cons in *. change (mjoin (?a :: ?l)) with (a ++ mjoin l) in *.
    cbn [mjoin list_join] in Hs, Ha. rewrite <-app_assoc in Hs, Ha. apply string_at_app in Hs as [Hs1 Hs].
    destruct (vformat_piece fuel' null x fmt _ s Hx Hs1 Ha Hl) as (b1 & Hb1 & E1).
    destruct (IH (fmt + Z.of_nat (length (piece_fmt x))) (mkF (fmem s) (fout s ++ piece_out x) b1
      (mjoin (piece_args <$> ps) ++ rest) (printk_lock s)) fuel) as (b & Hb & E); [simpl in Hf; lia|done..|].
    exists b. split; [done|]. rewrite (bind_done _ _ _ _ _ E1). simpl in E. rewrite E. by rewrite <-app_assoc.
Qed.

(** [printk] prints what its format string asks for. For a format made of any
    sequence of pieces (text, [%%], [%c], [%s] with a string or a null pointer, and
    the nine integer conversions) and any arguments for them, it takes the
    arguments in order and prints the pieces in order, integers as their numerals
    of the type and base of the conversion, and gives its lock back. *)
Theorem printk_renders ps null fmt rest s fuel : Forall (piece_ok (fmem s) null fuel) ps →
  string_at (fmem s) fmt (mjoin (piece_fmt <$> ps) ++ [0]) → fargs s = mjoin (piece_args <$> ps) ++ rest →
  length (fbuf s) = 64%nat → (length ps < fuel)%nat → printk_lock s = false →
  ∃ b, length b = 64%nat ∧ printk fuel null fmt s =
    Done (tt, mkF (fmem s) (fout s ++ mjoin (piece_out <$> ps)) b rest false).
Proof.
  intros Hok Hs Ha Hl Hf Hk. set (s1 := mkF (fmem s) (fout s) (fbuf s) (fargs s) true).
  destruct (vformat_renders ps null fmt rest s1 fuel Hok Hs Ha Hl Hf) as (b & Hb & E).
  exists b. split; [done|]. unfold printk. rewrite (bind_done _ _ s tt s1).
  - by m_step E.
  - unfold on_printk_lock. by rewrite Hk.
Qed.

(** [_print_int] prints any 64-bit value in any base from 2 to 16 as its sign and
    its numeral, most significant digit first and without leading zeros, and never
    writes outside its buffer of 64 characters, which base 2 fills. *)
Theorem print_int_correct u base is_signed s : 2 ≤ base ≤ 16 → in_s 64 u → length (fbuf s) = 64%nat →
  ∃ ds b, (length ds ≤ 64)%nat ∧ numeral base ds ∧ digits_val base ds = magnitude u is_signed ∧
    length b = 64%nat ∧ _print_int u base is_signed s =
      Done (tt, emit (sign_of u is_signed ++ reverse (ascii_digit <$> ds)) (with_buf b s)).
Proof.
  intros Hb Hu Hl. destruct (print_int_spec u base is_signed s Hb Hu Hl) as (b & Hlb & E).
  exists (to_digits 64 base (magnitude u is_signed)), b.
  assert (Hm : 0 ≤ magnitude u is_signed < base ^ Z.of_nat 64).
  { enough (0 ≤ magnitude u is_signed < 2 ^ 64) as H
      by (split; [lia|]; eapply Z.lt_le_trans; [apply H|]; apply Z.pow_le_mono_l; lia).
    unfold in_s, magnitude in *. destruct is_signed; [simpl in Hu; lia|]. apply wrap_range. lia. }
  destruct (to_digits_val 64 base _ ltac:(lia) Hm) as (Ev & Ef & En). destruct (En ltac:(done)) as [E1 E2].
  split; [apply to_digits_length|]. by split.
Qed.

(** ** Examples *)

(** ["i=%d %s%%
"] at address 16, ["ok"] at address 64, ["(null)"] at 100. *)
Definition print_state (args : list Z) : fstate :=
  mkF (λ a, if decide (64 ≤ a) then default 0 ([111; 107; 0] !! Z.to_nat (a - 64))
            else default 0 ([105; 61; 37; 100; 32; 37; 115; 37; 37; 10; 0] !! Z.to_nat (a - 16)))
    [] (replicate 64 0) args false.

Lemma string_at_check m p cs : forallb (λ i, bool_decide (cs !! i = Some (m (p + Z.of_nat i)))) (seq 0 (length cs)) = true → string_at m p cs.
Proof.
  intros H i c Hc. rewrite forallb_forall in H. specialize (H i). rewrite bool_decide_eq_true in H.
  rewrite H in Hc by (apply lookup_lt_Some in Hc; apply in_seq; lia). by injection Hc.
Qed.

Lemma print_pieces_ok : Forall (piece_ok (fmem (print_state [2 ^ 32 - 5; 64])) 0 100) [PText 105; PText 61; PInt [100] (λ v, i32 v) 10 true (2 ^ 32 - 5); PText 32;
  PStr 64 [111; 107]; PPercent; PText 10].
Proof.
  apply Forall_cons; split; [split; discriminate|]. apply Forall_cons; split; [split; discriminate|].
    apply Forall_cons; split; [right; right; left|]. apply Forall_cons; split; [split; discriminate|].
    apply Forall_cons; split.
    { split; [by apply (bool_decide_unpack _)|]. split; [by apply (bool_decide_unpack _)|].
      split; [apply string_at_check; by vm_compute|simpl; lia]. }
    apply Forall_cons; split; [exact I|]. apply Forall_cons; split; [split; discriminate|apply Forall_nil; exact I].
Qed.
Lemma printk_renders_witness : ∃ b, printk 100 0 16 (print_state [2 ^ 32 - 5; 64]) =
  Done (tt, mkF (fmem (print_state [])) [105; 61; 45; 53; 32; 111; 107; 37; 10] b [] false).
Proof.
  destruct (printk_renders [PText 105; PText 61; PInt [100] (λ v, i32 v) 10 true (2 ^ 32 - 5); PText 32;
    PStr 64 [111; 107]; PPercent; PText 10] 0 16 [] (print_state [2 ^ 32 - 5; 64]) 100) as (b & _ & E).
  - exact print_pieces_ok.
  - apply string_at_check. by vm_compute.
  - by vm_compute.
  - done.
  - simpl. lia.
  - done.
  - exists b. etrans; [exact E|].
    assert (Eo : mjoin (piece_out <$> [PText 105; PText 61; PInt [100] (λ v, i32 v) 10 true (2 ^ 32 - 5); PText 32;
      PStr 64 [111; 107]; PPercent; PText 10]) = [105; 61; 45; 53; 32; 111; 107; 37; 10]) by (vm_compute; reflexivity).
    rewrite Eo. reflexivity.
Defined.

Lemma print_int_correct_witness : ∃ ds b, _print_int (- 2 ^ 63) 2 true (print_state []) =
  Done (tt, emit (45 :: reverse (ascii_digit <$> ds)) (with_buf b (print_state []))) ∧ (length ds ≤ 64)%nat.
Proof.
  destruct (print_int_correct (- 2 ^ 63) 2 true (print_state [])) as (ds & b & Hl & _ & _ & _ & E).
  - lia.
  - by apply (bool_decide_unpack _).
  - done.
  - exists ds, b. split; [exact E|exact Hl].
Defined.
