(* ===== verification/Proc.v ===== *)
(** * Processes and containers ([kernel/proc.c], [kernel/container.c])

    Creation, start, exit, waiting for and killing of processes, on the scheduler
    of [Sched.v], the semaphores of [Sem.v], the page tables of [PageTable.v] and
    the heap of [Heap.v].  The nodes [children] (48) and [ptnode] (64) of the
    process tree are in a heap of their own, as they are different memory from
    the nodes of the run queues; the [childexit] (24) of each process is a
    semaphore with its sleepers.  The addresses of [root_proc], [root_container],
    [proc_entry] and [kernel_entry] are chosen by the linker and are parameters.

    [exit] runs up to its switch to another process.  [wait] is cut at the call
    of [sched] in [wait_sem]: [wait_start] runs up to it, [wait_woken] and
    [wait_reap] from where the process runs again. *)
From S2P Require Import Prelude Words Atomics Lists Memory LockFree Kalloc Pages PageTable Sched Sem Heap.

Record csem := mkCsem { cs_lock : SpinLock; cs_val : Z; cs_nodes : heap; cs_waits : gmap Z WaitData }.

Record world (T G : Type) := mkWorld {
  wsched : kst T; wsems : gmap Z csem; tnodes : heap; proc_list_lock : SpinLock;
  last_pid : Z;   (* [max_pid] of [proc.c] *)
  wpages : G   (* the memory, with the allocators of [kernel/mem.c] *)
}.
Arguments mkWorld {T G}.
Arguments wsched {T G}.
Arguments wsems {T G}.
Arguments tnodes {T G}.
Arguments proc_list_lock {T G}.
Arguments last_pid {T G}.
Arguments wpages {T G}.

#[export, refine] Instance world_nodes T G : HasNodes (world T G) := {|
  nodes := tnodes;
  set_nodes := λ h w, mkWorld (wsched w) (wsems w) h (proc_list_lock w) (last_pid w) (wpages w)
|}.
Proof. all: try done. by intros []. Defined.

Definition children (p : Z) : Z := p + 48.
Definition ptnode (p : Z) : Z := p + 64.
(** [container_of(node, struct proc, ptnode)] *)
Definition proc_of (node : Z) : Z := node - 64.
(** [childexit.sleeplist] *)
Definition sleeplist (p : Z) : Z := p + 32.

Definition sizeof_KernelContext : Z := 112.
Definition sizeof_UserContext : Z := 192.
Definition sizeof_proc : Z := 152.
Definition sizeof_container : Z := 64.

Definition with_killed (pr : proc) : proc :=
  mkProc true (idle pr) (pid pr) (localpid pr) (exitcode pr) (pstate pr) (parent pr) (pgdir_pt pr)
    (container_ pr) (kstack pr) (ucontext pr) (kcontext pr).
Definition with_pid (v : Z) (pr : proc) : proc :=
  mkProc (killed pr) (idle pr) v (localpid pr) (exitcode pr) (pstate pr) (parent pr) (pgdir_pt pr)
    (container_ pr) (kstack pr) (ucontext pr) (kcontext pr).
Definition with_localpid (v : Z) (pr : proc) : proc :=
  mkProc (killed pr) (idle pr) (pid pr) v (exitcode pr) (pstate pr) (parent pr) (pgdir_pt pr)
    (container_ pr) (kstack pr) (ucontext pr) (kcontext pr).
Definition with_exitcode (v : Z) (pr : proc) : proc :=
  mkProc (killed pr) (idle pr) (pid pr) (localpid pr) v (pstate pr) (parent pr) (pgdir_pt pr)
    (container_ pr) (kstack pr) (ucontext pr) (kcontext pr).
Definition with_parent (v : Z) (pr : proc) : proc :=
  mkProc (killed pr) (idle pr) (pid pr) (localpid pr) (exitcode pr) (pstate pr) v (pgdir_pt pr)
    (container_ pr) (kstack pr) (ucontext pr) (kcontext pr).
Definition with_pt (v : Z) (pr : proc) : proc :=
  mkProc (killed pr) (idle pr) (pid pr) (localpid pr) (exitcode pr) (pstate pr) (parent pr) v
    (container_ pr) (kstack pr) (ucontext pr) (kcontext pr).
Definition with_container (v : Z) (pr : proc) : proc :=
  mkProc (killed pr) (idle pr) (pid pr) (localpid pr) (exitcode pr) (pstate pr) (parent pr) (pgdir_pt pr)
    v (kstack pr) (ucontext pr) (kcontext pr).
Definition with_stack (k u c : Z) (pr : proc) : proc :=
  mkProc (killed pr) (idle pr) (pid pr) (localpid pr) (exitcode pr) (pstate pr) (parent pr) (pgdir_pt pr)
    (container_ pr) k u c.
(** [memset(p, 0, sizeof( *p))] *)
Definition zero_proc : proc := mkProc false false 0 0 0 UNUSED 0 0 0 0 0 0.

Section operations.
Context {T G : Type} `{!CpuTimers T} `{!PageAllocator G} `{!KernelHeap G}.
Context (root_proc root_container proc_entry kernel_entry : Z).
Abbreviation M := (M (world T G)).

Definition on_sched {A} (m : Prelude.M (kst T) A) : M A := λ w,
  match m (wsched w) with
  | Done (a, g) => Done (a, mkWorld g (wsems w) (tnodes w) (proc_list_lock w) (last_pid w) (wpages w))
  | Panic => Panic | Crash => Crash | NoFuel => NoFuel
  end.
Definition on_plock {A} (m : Prelude.M SpinLock A) : M A := λ w,
  match m (proc_list_lock w) with
  | Done (a, l) => Done (a, mkWorld (wsched w) (wsems w) (tnodes w) l (last_pid w) (wpages w))
  | Panic => Panic | Crash => Crash | NoFuel => NoFuel
  end.
Definition on_kpages {A} (m : Prelude.M G A) : M A := λ w,
  match m (wpages w) with
  | Done (a, g) => Done (a, mkWorld (wsched w) (wsems w) (tnodes w) (proc_list_lock w) (last_pid w) g)
  | Panic => Panic | Crash => Crash | NoFuel => NoFuel
  end.
(** An operation of [Sem.v] on [p->childexit]. *)
Definition on_childexit (p : Z) {A} (m : Prelude.M (sem (kst T)) A) : M A := λ w,
  match wsems w !! p with
  | None => Crash
  | Some c =>
      match m (mkSem (cs_lock c) (cs_val c) (cs_nodes c) (cs_waits c) (wsched w)) with
      | Done (a, s) => Done (a, mkWorld (ssch s) (<[p := mkCsem (slock s) (val s) (snodes s) (waits s)]> (wsems w))
                                  (tnodes w) (proc_list_lock w) (last_pid w) (wpages w))
      | Panic => Panic | Crash => Crash | NoFuel => NoFuel
      end
  end.
(** An operation of [PageTable.v] on [p->pgdir]. *)
Definition on_pgdir (p : Z) {A} (m : Prelude.M (pgdir G) A) : M A := λ w,
  match procs (wsched w) !! p with
  | None => Crash
  | Some pr =>
      match m (mkPgdir (pgdir_pt pr) 0 (wpages w)) with
      | Done (a, d) =>
          Done (a, mkWorld (let g := wsched w in mkKst (lnodes g) (<[p := with_pt (pt d) pr]> (procs g)) (conts g)
                              (groups g) (cpus g) (sched_lock g) (panic_flag g) (timers g))
                     (wsems w) (tnodes w) (proc_list_lock w) (last_pid w) (sys d))
      | Panic => Panic | Crash => Crash | NoFuel => NoFuel
      end
  end.
Definition get_p (p : Z) : M proc := on_sched (get_proc p).
Definition update_p (p : Z) (f : proc → proc) : M unit := on_sched (pr ← get_proc p; set_proc p (f pr)).
Definition get_cont (c : Z) : M container := λ w,
  match conts (wsched w) !! c with Some x => Done (x, w) | None => Crash end.
Definition set_cont (c : Z) (x : container) : M unit := on_sched (modify (λ g,
  mkKst (lnodes g) (procs g) (<[c := x]> (conts g)) (groups g) (cpus g) (sched_lock g) (panic_flag g) (timers g))).

Definition acquire_list : M unit := on_plock (_acquire_spinlock 1).
Definition release_list : M unit := on_plock _release_spinlock.

Definition _set_proc_parent (proc par : Z) : M unit :=
  on_nodes (_insert_into_list (children par) (ptnode proc));;
  update_p proc (with_parent par).
Definition set_parent_to_this (cpu : nat) (proc : Z) : M unit :=
  acquire_list;;
  this ← on_sched (thisproc cpu);
  _set_proc_parent proc this;;
  release_list.

Definition match_child (proc p node : Z) : M (option Z) :=
  if decide (node = children proc) then mret None
  else
    let c := proc_of node in
    pr ← get_p c;
    if decide (pid pr = p) then
      u ← on_sched (is_unused c);
      mret (if (u : bool) then None else Some c)
    else mret None.
Definition _find_child (fuel : nat) (proc p : Z) : M Z :=
  r ← for_in_list fuel (children proc) (match_child proc p);
  mret (default 0 r).

Definition kill (fuel : nat) (p : Z) : M Z :=
  acquire_list;;
  c ← _find_child fuel root_proc p;
  if decide (c = 0) then release_list;; mret (-1)
  else
    pr ← get_p c;
    assert (bool_decide (pstate pr ≠ UNUSED));;
    update_p c with_killed;;
    on_sched (_activate_proc c true);;
    release_list;;
    mret 0.

(** [while (get_sem(&this->childexit)) post_sem(&root_proc.childexit);] *)
Definition pass_zombies (fuel : nat) (this : Z) : M unit :=
  loop fuel (λ _ : unit,
    g ← on_childexit this get_sem;
    if (g : bool) then on_childexit root_proc (post_sem (sleeplist root_proc));; mret (inl tt)
    else mret (inr tt)) tt.

(** Transfer the children to [root_proc]. *)
Definition hand_over (fuel : nat) (this : Z) : M unit :=
  cl ← on_nodes (_detach_from_list (children this));
  if decide (cl ≠ 0) then
    for_in_list fuel cl (λ p, update_p (proc_of p) (with_parent root_proc);; mret (A := option unit) None);;
    on_nodes (_merge_list (children root_proc) cl);; mret tt
  else mret tt.

(** [exit] up to its switch: the locks, then the process the CPU runs next. *)
Definition exit_detach (fuel : nat) (this code : Z) : M unit :=
  on_pgdir this (free_pgdir fuel);;
  update_p this (with_exitcode code);;
  acquire_list;;
  hand_over fuel this;;
  pass_zombies fuel this;;
  pr ← get_p this;
  on_childexit (parent pr) (post_sem (sleeplist (parent pr))).
Definition exit (depth fuel cpu : nat) (code : Z) : M Z :=
  this ← on_sched (thisproc cpu);
  pr ← get_p this;
  assert (bool_decide (this ≠ root_proc) && negb (idle pr));;
  exit_detach fuel this code;;
  on_sched _acquire_sched_lock;;
  release_list;;
  on_sched (simple_sched root_container depth fuel cpu ZOMBIE).

(** [wait] up to [wait_sem]: [None] without children, else whether the semaphore
    was available; [w] is the address of the [WaitData]. *)
Definition wait_start (cpu : nat) (w : Z) : M (option bool) :=
  this ← on_sched (thisproc cpu);
  pr ← get_p this;
  assert (negb (idle pr));;
  acquire_list;;
  e ← on_nodes (_empty_list (children this));
  release_list;;
  if (e : bool) then mret None
  else r ← on_childexit this (wait_sem (sleeplist this) this w); mret (Some r).
(** The end of [wait_sem] in a process that slept. *)
Definition wait_woken (this w : Z) : M bool := on_childexit this (wait_end w).
(** What [wait] does with a node of the list of children. *)
Definition reap_child (this node : Z) : M (option (Z * Z)) :=
  if decide (node = children this) then mret None
  else
    let c := proc_of node in
    z ← on_sched (is_zombie c);
    if (z : bool) then
      on_nodes (_detach_from_list node);;
      release_list;;
      pr ← get_p c;
      on_kpages (pa_free (kstack pr));;
      on_kpages (kh_free c);;
      on_sched (modify (λ g, mkKst (lnodes g) (delete c (procs g)) (conts g) (groups g) (cpus g) (sched_lock g)
                               (panic_flag g) (timers g)));;
      mret (Some (pid pr, exitcode pr))
    else mret None.
(** The rest of [wait]: the pid and the exit code of the child. *)
Definition wait_reap (fuel : nat) (this : Z) : M (Z * Z) :=
  acquire_list;;
  r ← for_in_list fuel (children this) (reap_child this);
  match r with Some x => mret x | None => panic end.

Definition start_proc (p entry arg : Z) : M Z :=
  pr ← get_p p;
  (if decide (parent pr = 0) then acquire_list;; _set_proc_parent p root_proc;; release_list else mret tt);;
  on_kpages (on_pages (wr64 (kcontext pr) proc_entry));;
  on_kpages (on_pages (wr64 (kcontext pr + 8) entry));;
  on_kpages (on_pages (wr64 (kcontext pr + 16) arg));;
  c ← get_cont (container_ pr);
  set_cont (container_ pr) (mkContainer (cparent c) (rootproc c) (i32 (max_pid c + 1)));;
  update_p p (with_localpid (i32 (max_pid c + 1)));;
  on_sched (_activate_proc p false);;
  mret (pid pr).

Definition init_proc (p : Z) : M unit :=
  update_p p (λ _, zero_proc);;
  stack ← on_kpages pa_alloc;
  update_p p (with_stack stack (u64 (stack + PAGE_SIZE - 16 - sizeof_UserContext))
                (u64 (stack + PAGE_SIZE - 16 - sizeof_KernelContext - sizeof_UserContext)));;
  on_childexit p (init_sem (sleeplist p) 0);;
  on_pgdir p init_pgdir;;
  on_nodes (init_list_node (children p));;
  on_nodes (init_list_node (ptnode p));;
  update_p p (with_parent 0);;
  update_p p (with_container root_container);;
  on_sched (init_schinfo (proc_schinfo p) false);;
  acquire_list;;
  modify (λ w, mkWorld (wsched w) (wsems w) (tnodes w) (proc_list_lock w) (i32 (last_pid w + 1)) (wpages w));;
  v ← gets last_pid;
  update_p p (with_pid v);;
  release_list.

(** [kalloc(sizeof(struct proc))]: the memory of the process appears. *)
Definition kalloc_proc : M Z :=
  p ← on_kpages (kh_alloc sizeof_proc);
  (if decide (p = 0) then mret tt
   else
     on_sched (set_proc p zero_proc);;
     on_sched (on_nodes (modify (<[sqnode p := mkNode 0 0]>)));;
     on_nodes (modify (λ h, <[children p := mkNode 0 0]> (<[ptnode p := mkNode 0 0]> h)));;
     modify (λ w, mkWorld (wsched w) (<[p := mkCsem false 0 {[sleeplist p := mkNode 0 0]} ∅]> (wsems w)) (tnodes w)
                    (proc_list_lock w) (last_pid w) (wpages w)));;
  mret p.
Definition create_proc : M Z := p ← kalloc_proc; init_proc p;; mret p.

(** [define_init(root_proc)] *)
Definition init_root_proc : M Z :=
  init_proc root_proc;;
  update_p root_proc (with_parent root_proc);;
  update_p root_proc (with_container root_container);;
  start_proc root_proc kernel_entry 123456.

(** ** Containers *)
Definition set_container_parent_to_this (cpu : nat) (c : Z) : M unit :=
  x ← get_cont c;
  this ← on_sched (thisproc cpu);
  pr ← get_p this;
  set_cont c (mkContainer (container_ pr) (rootproc x) (max_pid x)).
Definition set_proc_to_container (p c : Z) : M unit := update_p p (with_container c).
Definition set_proc_container_to_this (cpu : nat) (p : Z) : M unit :=
  this ← on_sched (thisproc cpu);
  pr ← get_p this;
  update_p p (with_container (container_ pr)).
Definition _set_container_parent (c par : Z) : M unit :=
  x ← get_cont c; set_cont c (mkContainer par (rootproc x) (max_pid x)).

(** [create_container]: [memset] leaves null pointers in the embedded nodes. *)
Definition create_container : M Z :=
  rp ← create_proc;
  c ← on_kpages (kh_alloc sizeof_container);
  (if decide (c = 0) then crash
   else
     set_cont c (mkContainer 0 0 0);;
     on_sched (set_group (cont_schinfo c) false);;
     on_sched (on_nodes (modify (λ h, <[sqhead c := mkNode 0 0]> (<[schinfo_sqnode (cont_schinfo c) := mkNode 0 0]> h)))));;
  set_cont c (mkContainer 0 rp 0);;
  mret c.

(** [define_early_init(root_container)] *)
Definition init_root_container : M unit :=
  x ← get_cont root_container;
  set_cont root_container (mkContainer root_container root_proc 0);;
  on_sched (init_schqueue (sqhead root_container));;
  on_sched (init_schinfo (cont_schinfo root_container) true).
End operations.
