(* ===== verification/ProcSpec.v ===== *)
(** * What the process operations do

    Specifications of the operations of [Proc.v]: waiting reaps a zombie child,
    exiting hands the children to the root process and tells the parent, killing
    finds the children of the root process only. *)
From S2P Require Import Prelude Words Atomics Lists Memory LockFree Kalloc Pages PageTable Sched Sem Heap Proc.

(** ** The process tree *)
Section facts.
Context {T G : Type} `{!CpuTimers T} `{!PageAllocator G} `{!KernelHeap G}.
Implicit Types (w : world T G) (cs l : list Z) (p c this : Z) (pr : proc).

#[local] Instance ptnode_inj : Inj (=) (=) ptnode.
Proof. intros x y. unfold ptnode. lia. Qed.
Lemma proc_of_ptnode p : proc_of (ptnode p) = p.
Proof. unfold proc_of, ptnode. lia. Qed.

(** Nobody holds a lock, and the children of [p] are [cs]. *)
Record calm w : Prop := { c_list : proc_list_lock w = false; c_sched : sched_lock (wsched w) = false }.
Record has_children w p cs : Prop := {
  h_list : hlist (tnodes w) (children p) (ptnode <$> cs);
  h_procs : ∀ c, c ∈ cs → c ≠ 0 ∧ is_Some (procs (wsched w) !! c)
}.

Definition with_tree (h : heap) (lk : SpinLock) w : world T G :=
  mkWorld (wsched w) (wsems w) h lk (last_pid w) (wpages w).
Definition with_procs (m : gmap Z proc) w : world T G :=
  mkWorld (let g := wsched w in mkKst (lnodes g) m (conts g) (groups g) (cpus g) (sched_lock g) (panic_flag g) (timers g))
    (wsems w) (tnodes w) (proc_list_lock w) (last_pid w) (wpages w).

Lemma get_p_done w p pr : procs (wsched w) !! p = Some pr → get_p p w = Done (pr, w).
Proof. intros H. unfold get_p, on_sched, get_proc. rewrite H. by destruct w. Qed.
Lemma update_p_done w p pr f : procs (wsched w) !! p = Some pr →
  update_p p f w = Done (tt, with_procs (<[p := f pr]> (procs (wsched w))) w).
Proof. intros H. unfold update_p, on_sched, get_proc. m_unfold. by rewrite H. Qed.
Lemma acquire_done w : proc_list_lock w = false → acquire_list w = Done (tt, with_tree (tnodes w) true w).
Proof. intros H. unfold acquire_list, on_plock. by rewrite H. Qed.
Lemma release_list_done w : release_list w = Done (tt, with_tree (tnodes w) false w).
Proof. done. Qed.
Lemma tree_done {A} (m : Prelude.M heap A) w a h : m (tnodes w) = Done (a, h) →
  on_nodes m w = Done (a, with_tree h (proc_list_lock w) w).
Proof. exact (on_nodes_done (S := world T G) m w a h). Qed.

Lemma state_done w c pr (f : Prelude.M (kst T) bool) st : procs (wsched w) !! c = Some pr → sched_lock (wsched w) = false →
  (f = is_zombie c ∧ st = ZOMBIE ∨ f = is_unused c ∧ st = UNUSED) →
  on_sched f w = Done (bool_decide (pstate pr = st), w).
Proof.
  intros Hp Hl Hf. destruct w as [[ln ps cn gr cp sl pf t] ws tn lk lp g]. simpl in *. subst sl.
  destruct Hf as [[-> ->]|[-> ->]]; unfold on_sched, is_zombie, is_unused, _acquire_sched_lock, _release_sched_lock, on_lock, get_proc;
    m_unfold; simpl; by rewrite Hp.
Qed.

Lemma has_children_lock w lk p cs : has_children w p cs → has_children (with_tree (tnodes w) lk w) p cs.
Proof. by intros []. Qed.

Lemma children_not_in p cs w : has_children w p cs → ∀ c, c ∈ cs → ptnode c ≠ children p.
Proof.
  intros H c Hc E. pose proof (hlist_nodup _ _ _ (h_list _ _ _ H)) as [N _]%NoDup_cons. apply N. rewrite <-E.
  by apply list_elem_of_fmap_2.
Qed.

(** *** [wait] *)
Definition zombie w c : Prop := ∃ pr, procs (wsched w) !! c = Some pr ∧ pstate pr = ZOMBIE.

(** The state after the child [c] has been reaped. *)
Definition reaped w c h g : world T G :=
  mkWorld (let g := wsched w in mkKst (lnodes g) (delete c (procs g)) (conts g) (groups g) (cpus g) (sched_lock g)
             (panic_flag g) (timers g)) (wsems w) h false (last_pid w) g.

Lemma reap_spec w this l1 c l2 pr F lv fuel : calm w → has_children w this (l1 ++ c :: l2) →
  (∀ x, x ∈ l1 → ¬ zombie w x) → procs (wsched w) !! c = Some pr → pstate pr = ZOMBIE →
  pa_ok (wpages w) F (((kstack pr, PAGE_SIZE), None) :: kh_live sizeof_proc c :: lv) → page_addr (kstack pr) →
  (length l1 < fuel)%nat →
  ∃ h g, wait_reap fuel this w = Done ((pid pr, exitcode pr), reaped w c h g) ∧
    hlist h (children this) (ptnode <$> (l1 ++ l2)) ∧ pa_ok g (kstack pr :: F) lv ∧ kept lv (pa_mem (wpages w)) (pa_mem g).
Proof.
  intros [Hl Hs] H Hz Hc Hst Hpa Hpg Hf. pose proof (h_list _ _ _ H) as L. rewrite fmap_app, fmap_cons in L.
  destruct (hlist_detach _ _ _ _ _ L) as (h & Ed & _ & L' & _).
  destruct (pa_free_ok _ _ _ _ Hpa Hpg) as (g1 & Eg & Kg & Hg1).
  destruct (kh_free_ok _ _ _ sizeof_proc c ltac:(done) Hg1) as (g & Ek & Kk & Hg).
  exists h, g. split; [|rewrite fmap_app; split; [done|split; [done|]]].
  2:{ eapply kept_trans; [|exact Kk]. eapply kept_mono; [|exact Kg]. intros x Hx. by right. }
  set (w1 := with_tree (tnodes w) true w). unfold wait_reap. m_step (acquire_done w Hl). fold w1.
  set (body := reap_child this). set (res := reaped w c h g).
  rewrite (bind_done _ _ w1 (Some (pid pr, exitcode pr)) res); [done|].
  assert (Lw : hlist (nodes w1) (children this) ((ptnode <$> l1) ++ ptnode c :: (ptnode <$> l2))) by exact L.
  rewrite (for_in_list_skip (children this) (ptnode <$> l1) (ptnode c) (ptnode <$> l2) body fuel w1 Lw).
  - rewrite length_fmap. destruct (fuel - length l1)%nat as [|n] eqn:En; [lia|]. rewrite loop_S.
    rewrite (bind_done _ _ w1 (inr (Some (pid pr, exitcode pr))) res); [done|]. unfold for_in_list_step.
    rewrite (bind_done _ _ w1 (Some (pid pr, exitcode pr)) res); [done|]. unfold body, reap_child.
    rewrite decide_False by (eapply children_not_in; [exact H|apply elem_of_app; right; by left]).
    rewrite proc_of_ptnode. rewrite (bind_done _ _ w1 true w1).
    2:{ rewrite (state_done w1 c pr _ ZOMBIE Hc Hs) by (by left). by rewrite bool_decide_true. }
    cbv beta iota. rewrite (bind_done _ _ w1 _ (with_tree h true w1) (tree_done _ w1 _ h Ed)).
    m_step (release_list_done (with_tree h true w1)). set (w2 := with_tree h false w).
    rewrite (bind_done _ _ w2 pr w2) by (exact (get_p_done w2 c pr Hc)).
    unfold on_kpages, on_sched. m_unfold. simpl. rewrite Eg. simpl. rewrite Ek. done.
  - intros x (y & -> & Hy)%list_elem_of_fmap. unfold body, reap_child.
    rewrite decide_False by (eapply children_not_in; [exact H|apply elem_of_app; by left]). rewrite proc_of_ptnode.
    destruct (h_procs _ _ _ H y) as [_ [pry Hpy]]; [apply elem_of_app; by left|].
    rewrite (bind_done _ _ w1 false w1); [done|]. rewrite (state_done w1 y pry _ ZOMBIE Hpy Hs) by (by left).
    rewrite bool_decide_false; [done|]. intros E. apply (Hz y Hy). by exists pry.
Qed.

Lemma reap_panics w this cs fuel : calm w → has_children w this cs → (∀ x, x ∈ cs → ¬ zombie w x) →
  (length cs < fuel)%nat → wait_reap fuel this w = Panic.
Proof.
  intros [Hl Hs] H Hz Hf. set (w1 := with_tree (tnodes w) true w). unfold wait_reap. m_step (acquire_done w Hl). fold w1.
  set (body := reap_child this).
  rewrite (bind_done _ _ w1 (@None (Z * Z)) w1); [done|].
  assert (Lw : hlist (nodes w1) (children this) (ptnode <$> cs)) by exact (h_list _ _ _ H).
  rewrite (for_in_list_scan (children this) (ptnode <$> cs) body (λ _, None) fuel w1 Lw); [|by rewrite length_fmap|].
  { replace (omap (λ _ : Z, @None (Z * Z)) ((ptnode <$> cs) ++ [children this])) with (@nil (Z * Z)); [done|].
    induction ((ptnode <$> cs) ++ [children this]) as [|x l IH]; [done|exact IH]. }
  intros p [(y & -> & Hy)%list_elem_of_fmap| ->%list_elem_of_singleton]%elem_of_app; unfold body, reap_child; [|by rewrite decide_True].
  rewrite decide_False by (by eapply children_not_in). rewrite proc_of_ptnode.
  destruct (h_procs _ _ _ H y Hy) as [_ [pry Hpy]].
  rewrite (bind_done _ _ w1 false w1); [done|]. rewrite (state_done w1 y pry _ ZOMBIE Hpy Hs) by (by left).
  rewrite bool_decide_false; [done|]. intros E. apply (Hz y Hy). by exists pry.
Qed.

(** *** [kill] *)
Definition child_named w cs (p : Z) : option Z :=
  hd_error (omap (λ c, match procs (wsched w) !! c with
                   | Some pr => if decide (pid pr = p ∧ pstate pr ≠ UNUSED) then Some c else None
                   | None => None end) cs).

Lemma find_child_done w proc cs p fuel : sched_lock (wsched w) = false → has_children w proc cs → (length cs < fuel)%nat →
  _find_child fuel proc p w = Done (default 0 (child_named w cs p), w).
Proof.
  intros Hs H Hf. set (f := λ node, if decide (node = children proc) then None else
    match procs (wsched w) !! proc_of node with
    | Some pr => if decide (pid pr = p ∧ pstate pr ≠ UNUSED) then Some (proc_of node) else None
    | None => None end).
  assert (Lw : hlist (nodes w) (children proc) (ptnode <$> cs)) by exact (h_list _ _ _ H).
  unfold _find_child. rewrite (bind_done _ _ w (child_named w cs p) w); [done|].
  rewrite (for_in_list_scan (children proc) (ptnode <$> cs) (match_child proc p) f fuel w Lw); [|by rewrite length_fmap|].
  - f_equal. f_equal. unfold child_named. rewrite omap_app. simpl. unfold f at 2. rewrite decide_True, app_nil_r by done. f_equal.
    pose proof (children_not_in _ _ _ H) as Hn. clear -Hn. induction cs as [|c cs IH]; [done|]. cbn [fmap list_fmap omap list_omap].
    rewrite <-IH by (intros x Hx; apply Hn; by right). unfold f. rewrite decide_False by (apply Hn; by left).
    by rewrite proc_of_ptnode.
  - intros n [(c & -> & Hc)%list_elem_of_fmap| ->%list_elem_of_singleton]%elem_of_app; unfold match_child, f; [|by rewrite !decide_True].
    rewrite !decide_False by (by eapply children_not_in). rewrite proc_of_ptnode.
    destruct (h_procs _ _ _ H c Hc) as [_ [pr Hp]]. m_step (get_p_done w c pr Hp). rewrite Hp.
    destruct (decide (pid pr = p)) as [E|E]; [|by rewrite decide_False by tauto].
    m_step (state_done w c pr _ UNUSED Hp Hs (or_intror (conj eq_refl eq_refl))). unfold mret, M_ret. do 2 f_equal.
    case_bool_decide; [by rewrite decide_False by tauto|by rewrite decide_True].
Qed.

(** Changing what the scheduler does not look at. *)
Definition view (pr : proc) : bool * procstate * Z := (idle pr, pstate pr, container_ pr).

Lemma view_lookup (ps ps' : gmap Z proc) q pr : view <$> ps' = view <$> ps → ps !! q = Some pr →
  ∃ pr', ps' !! q = Some pr' ∧ idle pr' = idle pr ∧ pstate pr' = pstate pr ∧ container_ pr' = container_ pr.
Proof.
  intros E H. assert (Ev : (view <$> ps') !! q = Some (view pr)) by (by rewrite E, lookup_fmap, H).
  rewrite lookup_fmap in Ev. apply fmap_Some in Ev as (pr' & H' & Ev). exists pr'. unfold view in Ev. split; [done|]. by simplify_eq.
Qed.

Lemma view_insert (ps : gmap Z proc) p pr pr' : ps !! p = Some pr → view pr' = view pr → view <$> <[p := pr']> ps = view <$> ps.
Proof. intros H E. rewrite fmap_insert, E. apply insert_id. by rewrite lookup_fmap, H. Qed.

Lemma queues_view h ps ps' cn gs L : queues_ok h ps cn gs L → view <$> ps' = view <$> ps → queues_ok h ps' cn gs L.
Proof.
  intros [F Q P] E. split; [done| |].
  - intros hd l n HL Hn.
    destruct (Q hd l n HL Hn) as [(p & pr & -> & Hp & Hi & Hr & Hc)|H]; [left|by right].
    destruct (view_lookup _ _ _ _ E Hp) as (pr' & Hp' & E1 & E2 & E3). exists p, pr'. split_and!; congruence.
  - intros p pr' Hp' Hi'. destruct (view_lookup _ _ _ _ (eq_sym E) Hp') as (pr & Hp & E1 & E2 & E3).
    destruct (P p pr Hp) as (Ha & Hb & Hs & Hg & Hn & Hx & l0 & Hl0 & Hm); [congruence|].
    do 6 (split; [done|]). exists l0. rewrite <-E2, <-E3. done.
Qed.

Lemma cpus_view ps ps' cp : cpus_ok ps cp → view <$> ps' = view <$> ps → cpus_ok ps' cp.
Proof.
  intros [C1 C2 C3 C4] E. split; [| |done|].
  - intros i c0 Hi. destruct (C1 _ _ Hi) as (pr & Hp & H1 & H2). destruct (view_lookup _ _ _ _ E Hp) as (pr' & Hp' & E1 & E2 & E3).
    exists pr'. split; [done|]. by rewrite E1, E2.
  - intros i c0 Hi. destruct (C2 _ _ Hi) as (pr & Hp & H1 & H2). destruct (view_lookup _ _ _ _ E Hp) as (pr' & Hp' & E1 & E2 & E3).
    exists pr'. split; [done|]. by rewrite E1, E2.
  - intros p pr' Hp' Hr. destruct (view_lookup _ _ _ _ (eq_sym E) Hp') as (pr & Hp & E1 & E2 & E3). apply (C4 p pr Hp). congruence.
Qed.

Definition kst_procs (ps : gmap Z proc) (g : kst T) : kst T :=
  mkKst (lnodes g) ps (conts g) (groups g) (cpus g) (sched_lock g) (panic_flag g) (timers g).

Lemma sch_ok_view (g : kst T) ps : sch_ok g → view <$> ps = view <$> procs g → sch_ok (kst_procs ps g).
Proof.
  intros [Hl (L & HQ & HC & HT)] E. split; [done|]. exists L. split; [|split; [|done]].
  - by eapply queues_view.
  - by eapply cpus_view.
Qed.

Lemma kill_found w root cs p c pr L fuel : calm w → has_children w root cs → (length cs < fuel)%nat →
  child_named w cs p = Some c → procs (wsched w) !! c = Some pr → qok (wsched w) L → idle pr = false →
  ∃ w' L', kill root fuel p w = Done (0, w') ∧ calm w' ∧ qok (wsched w') L' ∧ tnodes w' = tnodes w ∧
    procs (wsched w') = <[c := set_pstate (if wakeable (pstate pr) true then RUNNABLE else pstate pr) (with_killed pr)]> (procs (wsched w)).
Proof.
  intros [Hl Hs] H Hf Hc Hp HQ Hi. set (w1 := with_tree (tnodes w) true w).
  set (w2 := with_procs (<[c := with_killed pr]> (procs (wsched w))) w1).
  assert (Hin : c ∈ cs ∧ pstate pr ≠ UNUSED).
  { unfold child_named in Hc. apply head_Some_elem_of in Hc. apply list_elem_of_omap in Hc as (x & Hx & Hxc).
    destruct (procs (wsched w) !! x) as [prx|] eqn:Epx; [|done]. destruct (decide (pid prx = p ∧ pstate prx ≠ UNUSED)) as [[_ Hu]|]; [|done].
    injection Hxc as ->. split; [done|]. congruence. }
  destruct Hin as [Hin Hu]. destruct (h_procs _ _ _ H c Hin) as [Hc0 _].
  destruct (activate_spec (wsched w2) L c (with_killed pr) true) as (h' & L' & E & HQ' & _).
  { apply (queues_view _ (procs (wsched w))); [exact HQ|]. by eapply view_insert. } { done. } { apply lookup_insert_eq. } { done. }
  cbv zeta in E, HQ'. set (g' := mkKst _ _ _ _ _ _ _ _) in E, HQ'.
  set (w3 := mkWorld g' (wsems w) (tnodes w) false (last_pid w) (wpages w)).
  exists w3, L'. split; [|split; [by split|split; [exact HQ'|split; [done|]]]].
  - unfold kill. m_step (acquire_done w Hl). fold w1.
    rewrite (bind_done _ _ w1 c w1).
    2:{ rewrite (find_child_done w1 root cs p fuel Hs) by (by apply has_children_lock || done). change (child_named w1 cs p) with (child_named w cs p). by rewrite Hc. }
    rewrite decide_False by done. m_step (get_p_done w1 c pr Hp). rewrite bool_decide_true by done.
    cbn [assert]. m_step (ret_done tt w1). m_step (update_p_done w1 c pr with_killed Hp). fold w2.
    rewrite (bind_done _ _ w2 (wakeable (pstate pr) true) (mkWorld g' (wsems w) (tnodes w) true (last_pid w) (wpages w))).
    + by m_step (release_list_done (mkWorld g' (wsems w) (tnodes w) true (last_pid w) (wpages w))).
    + unfold on_sched. change (pstate (with_killed pr)) with (pstate pr) in E. by rewrite E.
  - unfold w3, g', w2. simpl. destruct (wakeable (pstate pr) true); [by rewrite insert_insert_eq|]. done.
Qed.

Lemma kill_not_found w root cs p fuel : calm w → has_children w root cs → (length cs < fuel)%nat →
  child_named w cs p = None → kill root fuel p w = Done (-1, w).
Proof.
  intros [Hl Hs] H Hf Hc. set (w1 := with_tree (tnodes w) true w). unfold kill. m_step (acquire_done w Hl). fold w1.
  rewrite (bind_done _ _ w1 0 w1).
  - rewrite decide_True by done. m_step (release_list_done w1). unfold mret, M_ret. do 2 f_equal. unfold w1, with_tree. destruct w. simpl in *. by rewrite Hl.
  - rewrite (find_child_done w1 root cs p fuel Hs) by (by apply has_children_lock || done). change (child_named w1 cs p) with (child_named w cs p). by rewrite Hc.
Qed.

(** *** Telling the parent *)

(** Processes keep everything but their state when others are woken. *)
Definition same_fields (g g' : kst T) : Prop :=
  (∀ q pr, procs g !! q = Some pr → ∃ st, procs g' !! q = Some (set_pstate st pr) ∧ (st = pstate pr ∨ st = RUNNABLE)) ∧
  (∀ q, procs g !! q = None → procs g' !! q = None) ∧ conts g' = conts g ∧ cpus g' = cpus g ∧ sched_lock g' = sched_lock g.

Lemma same_fields_refl g : same_fields g g.
Proof. split; [|done]. intros q pr H. exists (pstate pr). split; [by destruct pr|by left]. Qed.
Lemma same_fields_trans g1 g2 g3 : same_fields g1 g2 → same_fields g2 g3 → same_fields g1 g3.
Proof.
  intros (A1 & B1 & C1 & D1 & E1) (A2 & B2 & C2 & D2 & E2). split; [|split; [|split_and!; congruence]]; [|by auto].
  intros q pr H. destruct (A1 _ _ H) as (st1 & H1 & S1). destruct (A2 _ _ H1) as (st2 & H2 & S2).
  exists st2. split; [exact H2|]. destruct S2 as [->|?]; [exact S1|by right].
Qed.

Lemma activate_frame p b (g : kst T) a g' : _activate_proc p b g = Done (a, g') → same_fields g g'.
Proof.
  unfold _activate_proc. destruct g as [ln ps cn gr cp sl pf t]. intros E. destruct sl; [done|].
  unfold _acquire_sched_lock, _release_sched_lock, Sched.on_lock, get_proc in E. revert E. m_unfold. simpl.
  destruct (ps !! p) as [pr|] eqn:Hp; [|done]. destruct (idle pr); [done|]. simpl. destruct (wakeable (pstate pr) b).
  - unfold on_nodes. simpl. destruct (_insert_into_list _ _ ln) as [[x h]| | |]; [|done..]. simpl. intros [= <- <-].
    split; [|split; [|done]]; simpl.
    + intros q prq Hq. destruct (decide (q = p)) as [->|Hne].
      * simplify_eq. exists RUNNABLE. rewrite lookup_insert_eq. split; [done|by right].
      * exists (pstate prq). rewrite lookup_insert_ne by done. split; [rewrite Hq; by destruct prq|by left].
    + intros q Hq. rewrite lookup_insert_ne; [done|congruence].
  - intros [= <- <-]. apply same_fields_refl.
Qed.

Lemma post_frame sl (s : sem (kst T)) s' : post_sem sl s = Done (tt, s') → same_fields (ssch s) (ssch s').
Proof.
  intros E. unfold post_sem in E.
  assert (KL : ∀ A (m : Prelude.M SpinLock A), keeps ssch (on_slock (S := kst T) m)).
  { intros A m s1 a s2 E1. unfold on_slock in E1. by destruct (m (slock s1)) as [[]| | |]; simplify_eq. }
  assert (KN : ∀ A (m : Prelude.M heap A), keeps ssch (on_nodes (S := sem (kst T)) m)).
  { intros A m s1 a s2 E1. unfold on_nodes in E1. by destruct (m (nodes s1)) as [[]| | |]; simplify_eq. }
  apply bind_inv in E as ([] & s1 & E1 & E). apply KL in E1. rewrite <-E1.
  apply bind_inv in E as ([] & s2 & E2 & E). apply KL in E. rewrite E. clear E E1 s'.
  unfold _post_sem in E2. apply bind_inv in E2 as (v & s3 & [= <- <-] & E2). apply bind_inv in E2 as ([] & s4 & [= <-] & E2).
  destruct (decide (i32 (val s1 + 1) <= 0)); [|injection E2 as <-; apply same_fields_refl].
  apply bind_inv in E2 as (e & s5 & E5%KN & E2). simpl in E5. apply bind_inv in E2 as ([] & s6 & E6 & E2).
  assert (s6 = s5) as -> by (destruct e; unfold assert in E6; simpl in E6; [done|by injection E6]).
  apply bind_inv in E2 as (n & s7 & E7%KN & E2).
  apply bind_inv in E2 as (wd & s8 & E8 & E2). assert (ssch s8 = ssch s7) as F8.
  { unfold get_wait in E8. destruct (waits s7 !! (n - 16)); simplify_eq. done. }
  apply bind_inv in E2 as ([] & s9 & [= <-] & E2). apply bind_inv in E2 as (x & s10 & E10%KN & E2). simpl in E10.
  apply bind_inv in E2 as (a & s11 & E11 & E2). injection E2 as <-. unfold on_sch in E11. simpl in E11.
  destruct (_activate_proc (wproc wd) false (ssch s10)) as [[b g']| | |] eqn:Ea; simplify_eq. simpl.
  apply activate_frame in Ea. rewrite E10, F8, E7, E5 in Ea. exact Ea.
Qed.

Lemma post_sem_ok sl (s : sem (kst T)) l : sem_ok sl s l → slock s = false → val s < 2 ^ 31 - 1 →
  ∃ s' l', post_sem sl s = Done (tt, s') ∧ sem_ok sl s' l' ∧ slock s' = false ∧ val s' = val s + 1 ∧
    permits s' = permits s + 1 ∧ same_fields (ssch s) (ssch s').
Proof.
  intros Hs Hk Hv.
  destruct (post_spec sl (mkSem true (val s) (snodes s) (waits s) (ssch s)) l) as (s1 & l1 & E & Hs1 & Hk1 & Hv1 & Hp1 & _);
    [by destruct Hs|done|].
  set (s2 := mkSem false (val s1) (snodes s1) (waits s1) (ssch s1)). exists s2, l1.
  assert (E2 : post_sem sl s = Done (tt, s2)).
  { unfold post_sem, _lock_sem, _unlock_sem, on_slock. unfold mbind, M_bind. rewrite Hk. simpl. rewrite E. done. }
  split; [exact E2|]. split; [by destruct Hs1|]. split; [done|]. split; [done|]. split; [exact Hp1|]. by eapply post_frame.
Qed.

(** The semaphore [childexit] of [p], with its sleepers [l]. *)
Definition childexit w (c : csem) : sem (kst T) := mkSem (cs_lock c) (cs_val c) (cs_nodes c) (cs_waits c) (wsched w).
(** Children that have exited and are still to be waited for, as it counts them. *)
Definition exit_permits (c : csem) : Z :=
  Z.max 0 (cs_val c) + Z.of_nat (size (filter (λ x, up x.2 = true) (cs_waits c))).
Definition exits_ok w p (c : csem) : Prop := wsems w !! p = Some c ∧ cs_lock c = false ∧ ∃ l, sem_ok (sleeplist p) (childexit w c) l.

Lemma sem_ok_fields sl lk v h ws (g g' : kst T) l : sem_ok sl (mkSem lk v h ws g) l → same_fields g g' → sch_ok g' →
  sem_ok sl (mkSem lk v h ws g') l.
Proof.
  intros [H1 H2 H3 H4 H5 H6] (A & _) Hg. split; simpl in *; try done. intros w0 wd Hw.
  destruct (H4 _ _ Hw) as [Hu [st Hst]]. split; [done|]. unfold sched_state in *.
  destruct (procs g !! wproc wd) as [pr|] eqn:Hp; [|done]. destruct (A _ _ Hp) as (st' & -> & _). simpl in *.
  destruct (idle pr); [done|]. by eexists.
Qed.

(** A world after the posts: only semaphores and the scheduler are touched. *)
Definition with_sems (g : kst T) (ss : gmap Z csem) w : world T G :=
  mkWorld g ss (tnodes w) (proc_list_lock w) (last_pid w) (wpages w).

Lemma post_childexit w p (c : csem) : exits_ok w p c → cs_val c < 2 ^ 31 - 1 →
  ∃ g (c' : csem), on_childexit p (post_sem (sleeplist p)) w = Done (tt, with_sems g (<[p := c']> (wsems w)) w) ∧
    exits_ok (with_sems g (<[p := c']> (wsems w)) w) p c' ∧ cs_val c' = cs_val c + 1 ∧ same_fields (wsched w) g ∧ sch_ok g ∧
    exit_permits c' = exit_permits c + 1.
Proof.
  intros (Hc & Hk & l & Hs) Hv. destruct (post_sem_ok _ _ _ Hs Hk Hv) as (s' & l' & E & Hs' & Hk' & Hv' & Hp & Hf).
  set (c' := mkCsem (slock s') (val s') (snodes s') (waits s')). exists (ssch s'), c'. split; [|split; [split; [|split; [done|]]|split; [done|split; [done|split; [apply Hs'|]]]]].
  - unfold on_childexit. rewrite Hc. fold (childexit w c). by rewrite E.
  - simpl. apply lookup_insert_eq.
  - exists l'. unfold childexit, c'. simpl. by destruct s'.
  - exact Hp.
Qed.

(** Taking the permits of a process that does not sleep. *)
Lemma get_childexit w p (c : csem) : wsems w !! p = Some c → cs_lock c = false → 0 ≤ cs_val c < 2 ^ 31 →
  on_childexit p get_sem w = Done (bool_decide (0 < cs_val c),
    with_sems (wsched w) (<[p := mkCsem false (if decide (0 < cs_val c) then cs_val c - 1 else 0) (cs_nodes c) (cs_waits c)]> (wsems w)) w).
Proof.
  intros Hc Hk Hv. destruct c as [lk v h ws]. simpl in *. subst lk. unfold on_childexit. rewrite Hc.
  unfold get_sem, _get_sem, _lock_sem, _unlock_sem, on_slock, set_val. m_unfold. simpl.
  destruct (decide (v > 0)) as [H|H]; simpl.
  - rewrite i32_small by (unfold in_s; lia). by rewrite bool_decide_true, decide_True by lia.
  - rewrite bool_decide_false, decide_False by lia. by replace v with 0 by lia.
Qed.

Lemma exits_ok_other w p q (c c' : csem) (g : kst T) : exits_ok w p c → p ≠ q → same_fields (wsched w) g → sch_ok g →
  exits_ok (with_sems g (<[q := c']> (wsems w)) w) p c.
Proof.
  intros (H1 & H2 & l & H3) Hne Hf Hg. split; [simpl; by rewrite lookup_insert_ne|]. split; [done|]. exists l.
  by eapply sem_ok_fields.
Qed.

Lemma sem_ok_val sl lk v v' h ws (g : kst T) : sem_ok sl (mkSem lk v h ws g) [] → 0 ≤ v → 0 ≤ v' < 2 ^ 31 →
  sem_ok sl (mkSem lk v' h ws g) [].
Proof.
  intros [H1 H2 H3 H4 H5 H6] Hv Hv'. split; simpl in *; try done; [unfold in_s; lia|lia].
Qed.

(** All of them go to the root process. *)
Lemma pass_zombies_spec root this n : ∀ w (ct cr : csem) fuel, this ≠ root → wsems w !! this = Some ct → cs_lock ct = false →
  cs_val ct = Z.of_nat n → exits_ok w root cr → cs_val cr + Z.of_nat n < 2 ^ 31 → cs_val ct < 2 ^ 31 → (n < fuel)%nat →
  ∃ g cr', let ss := <[root := cr']> (<[this := mkCsem false 0 (cs_nodes ct) (cs_waits ct)]> (wsems w)) in
    pass_zombies root fuel this w = Done (tt, with_sems g ss w) ∧ exits_ok (with_sems g ss w) root cr' ∧
    same_fields (wsched w) g ∧ sch_ok g ∧ exit_permits cr' = exit_permits cr + Z.of_nat n ∧ cs_val cr' = cs_val cr + Z.of_nat n.
Proof.
  unfold pass_zombies. induction n as [|n IH]; intros w ct cr fuel Hne Ht Hk Hv Hr Hmax Hct Hf; (destruct fuel as [|fuel]; [lia|]); rewrite loop_S.
  - exists (wsched w), cr. cbv zeta. destruct Hr as (Hr1 & Hr2 & l & Hr3).
    assert (E : <[root := cr]> (<[this := mkCsem false 0 (cs_nodes ct) (cs_waits ct)]> (wsems w)) =
      <[this := mkCsem false 0 (cs_nodes ct) (cs_waits ct)]> (wsems w)).
    { rewrite insert_id; [done|]. by rewrite lookup_insert_ne. }
    rewrite E. split; [|split; [split; [simpl; by rewrite lookup_insert_ne|split; [done|by exists l]]|split; [apply same_fields_refl|split; [apply Hr3|split; lia]]]].
    rewrite (bind_done _ _ w (inr tt) (with_sems (wsched w) (<[this := mkCsem false 0 (cs_nodes ct) (cs_waits ct)]> (wsems w)) w)); [done|].
    m_step (get_childexit w this ct Ht Hk ltac:(lia)). by rewrite bool_decide_false, decide_False by lia.
  - set (ct1 := mkCsem false (Z.of_nat n) (cs_nodes ct) (cs_waits ct)).
    set (w1 := with_sems (wsched w) (<[this := ct1]> (wsems w)) w).
    assert (Hr1 : exits_ok w1 root cr).
    { destruct Hr as (Hr1 & Hr2 & Hr3). split; [simpl; by rewrite lookup_insert_ne|]. by split. }
    destruct (post_childexit w1 root cr Hr1) as (g1 & cr1 & E1 & Hr2 & Hv2 & Hf2 & Hg2 & Hp2); [lia|].
    set (w2 := with_sems g1 (<[root := cr1]> (wsems w1)) w1) in E1, Hr2.
    destruct (IH w2 ct1 cr1 fuel Hne) as (g & cr' & E & Hr' & Hf' & Hg' & Hp' & Hv'); [simpl|done|done|exact Hr2|lia|simpl; lia|lia|].
    { rewrite lookup_insert_ne by done. apply lookup_insert_eq. }
    cbv zeta in E, Hr'. exists g, cr'. cbv zeta.
    assert (Es : <[root := cr']> (<[this := mkCsem false 0 (cs_nodes ct1) (cs_waits ct1)]> (wsems w2)) =
      <[root := cr']> (<[this := mkCsem false 0 (cs_nodes ct) (cs_waits ct)]> (wsems w))).
    { simpl. apply map_eq. intros k. destruct (decide (k = root)) as [->|H1]; [by rewrite !lookup_insert_eq|].
      rewrite !(lookup_insert_ne _ root k) by done. destruct (decide (k = this)) as [->|H2]; [by rewrite !lookup_insert_eq|].
      rewrite !(lookup_insert_ne _ this k) by done. by rewrite lookup_insert_ne, lookup_insert_ne. }
    rewrite Es in E, Hr'. split; [|split; [exact Hr'|split; [by eapply same_fields_trans|split; [done|split; lia]]]].
    rewrite (bind_done _ _ w (inl tt) w2); [exact E|].
    rewrite (bind_done _ _ w true w1).
    2:{ rewrite (get_childexit w this ct Ht Hk) by lia. rewrite bool_decide_true, decide_True by lia.
        do 3 f_equal. unfold ct1. do 2 f_equal. f_equal. lia. }
    by m_step E1.
Qed.

(** Semaphores do not see them either. *)
Lemma sem_ok_view sl lk v h ws (g : kst T) ps l : sem_ok sl (mkSem lk v h ws g) l → view <$> ps = view <$> procs g →
  sem_ok sl (mkSem lk v h ws (kst_procs ps g)) l.
Proof.
  intros [H1 H2 H3 H4 H5 H6] E. split; simpl in *; try done; [|by apply sch_ok_view]. intros w0 wd Hw.
  destruct (H4 _ _ Hw) as [Hu [st Hst]]. split; [done|]. unfold sched_state in *. simpl.
  destruct (procs g !! wproc wd) as [pr|] eqn:Hp; [|done]. destruct (view_lookup _ _ _ _ E Hp) as (pr' & -> & E1 & _).
  simpl in *. rewrite E1. destruct (idle pr); [done|]. by eexists.
Qed.

(** *** Handing the children over *)
Definition reparent (root : Z) cs (ps : gmap Z proc) : gmap Z proc :=
  foldl (λ ps c, alter (with_parent root) c ps) ps cs.
(** [_detach_from_list] answers the last child, which comes first in the merged list. *)
Definition adopted cs : list Z := match last cs with Some z => z :: take (pred (length cs)) cs | None => [] end.

Lemma reparent_lookup root cs : ∀ ps q, reparent root cs ps !! q = if decide (q ∈ cs) then with_parent root <$> ps !! q else ps !! q.
Proof.
  unfold reparent. induction cs as [|c cs IH]; intros ps q; [done|]. simpl. rewrite IH.
  destruct (decide (q = c)) as [->|Hne].
  - rewrite lookup_alter_eq. rewrite (decide_True (P := c ∈ c :: cs)) by by left.
    destruct (decide (c ∈ cs)); [|done]. by destruct (ps !! c).
  - rewrite lookup_alter_ne by done. destruct (decide (q ∈ cs)) as [Hi|Hi].
    + by rewrite decide_True by by right.
    + rewrite decide_False; [done|]. by intros [?|?]%elem_of_cons.
Qed.

Lemma reparent_view root cs ps : view <$> reparent root cs ps = view <$> ps.
Proof.
  apply map_eq. intros q. rewrite !lookup_fmap, reparent_lookup. destruct (decide (q ∈ cs)); [|done]. by destruct (ps !! q).
Qed.

Lemma adopted_snoc cs z : adopted (cs ++ [z]) = z :: cs.
Proof. unfold adopted. rewrite last_snoc, length_app. simpl. rewrite Nat.add_1_r. simpl. by rewrite take_app_length. Qed.

Lemma reparent_loop w root z cs fuel : hlist (tnodes w) (ptnode z) (ptnode <$> cs) →
  (∀ c, c ∈ cs ++ [z] → is_Some (procs (wsched w) !! c)) → (length cs < fuel)%nat →
  for_in_list fuel (ptnode z) (λ p, update_p (proc_of p) (with_parent root);; mret (A := option unit) None) w =
    Done (None, with_procs (reparent root (cs ++ [z]) (procs (wsched w))) w).
Proof.
  intros Hl Hd Hf. set (W := λ l, with_procs (reparent root l (procs (wsched w))) w).
  assert (Hstep : ∀ l c, is_Some (procs (wsched w) !! c) →
    (update_p c (with_parent root);; mret (A := option unit) None) (W l) = Done (None, W (l ++ [c]))).
  { intros l c [pr Hp]. assert (∃ pr', procs (wsched (W l)) !! c = Some pr') as [pr' Hp'].
    { simpl. rewrite reparent_lookup. destruct (decide (c ∈ l)); [rewrite Hp; by eexists|by exists pr]. }
    m_step (update_p_done (W l) c pr' (with_parent root) Hp'). unfold mret, M_ret. do 2 f_equal. unfold W, with_procs. simpl.
    do 2 f_equal. unfold reparent. rewrite foldl_app. simpl. fold (reparent root l (procs (wsched w))).
    apply map_eq. intros q. destruct (decide (q = c)) as [->|Hne].
    - rewrite lookup_insert_eq, lookup_alter_eq. simpl in Hp'. by rewrite Hp'.
    - by rewrite lookup_insert_ne, lookup_alter_ne. }
  destruct (for_in_list_rule (S := world T G) (ptnode z) (ptnode <$> cs)
    (λ p, update_p (proc_of p) (with_parent root);; mret (A := option unit) None)
    (λ l s, s = W (proc_of <$> l)) (λ r s, r = None ∧ s = W (cs ++ [z]))) with (fuel := fuel) (s := w) as (r & s & E & -> & ->).
  - intros l s ->. exact Hl.
  - intros l1 p l2 s El ->. assert (p ∈ ptnode <$> cs) as (c & -> & Hc)%list_elem_of_fmap by (rewrite El; apply elem_of_app; right; by left).
    exists None, (W ((proc_of <$> l1) ++ [c])). rewrite proc_of_ptnode. split; [apply Hstep, Hd, elem_of_app; by left|].
    rewrite fmap_app. simpl. by rewrite proc_of_ptnode.
  - intros s ->. exists None, (W (cs ++ [z])). rewrite proc_of_ptnode. split; [|done].
    replace (proc_of <$> (ptnode <$> cs)) with cs.
    + apply Hstep, Hd, elem_of_app. right. by left.
    + rewrite <-list_fmap_compose. rewrite <-(list_fmap_id cs) at 1. apply list_fmap_ext. intros i x _. symmetry. apply proc_of_ptnode.
  - by rewrite length_fmap.
  - unfold W. simpl. destruct w as [[] ]. done.
  - exact E.
Qed.

Definition apart (l1 l2 : list Z) : Prop := ∀ x, x ∈ l1 → x ∉ l2.

Lemma hand_over_spec w root this cs rs fuel : has_children w this cs → has_children w root rs →
  apart (children this :: (ptnode <$> cs)) (children root :: (ptnode <$> rs)) → (length cs ≤ fuel)%nat →
  ∃ h, hand_over root fuel this w =
      Done (tt, with_tree h (proc_list_lock w) (with_procs (reparent root cs (procs (wsched w))) w)) ∧
    hlist h (children this) [] ∧ hlist h (children root) (ptnode <$> (adopted cs ++ rs)).
Proof.
  intros H1 H2 Hap Hf. pose proof (h_list _ _ _ H1) as L1. pose proof (h_list _ _ _ H2) as L2. unfold hand_over.
  destruct cs as [|z cs _] using rev_ind.
  - destruct (detach_single _ _ L1) as (h & E & O & R). exists h. split; [|split; [exact R|]].
    + m_step (tree_done _ w _ _ E). rewrite decide_False by tauto. by destruct w as [[]].
    + eapply only_ring; [exact O| |exact L2]. intros x ->%list_elem_of_singleton. apply Hap. by left.
  - assert (D : ∃ h, _detach_from_list (children this) (tnodes w) = Done (ptnode z, h) ∧
        only (children this :: (ptnode <$> (cs ++ [z]))) (tnodes w) h ∧ hlist h (ptnode z) (ptnode <$> cs) ∧ ring h [children this]).
    { rewrite fmap_app in *. simpl in *. destruct cs as [|c cs].
      - destruct (detach_ring _ _ _ _ L1) as (h & E & O & R1 & R2). by exists h.
      - rewrite fmap_cons in *. cbn [app] in *. destruct (detach_ring _ _ _ _ L1) as (h & E & O & R1 & R2). rewrite last_snoc in E. exists h.
        split; [exact E|]. split; [exact O|]. split; [|exact R2]. simpl in R1. by apply (ring_rotate _ _ _ _ []) in R1. }
    destruct D as (h1 & E1 & O1 & R1 & R0).
    assert (L2' : hlist h1 (children root) (ptnode <$> rs)) by (eapply only_ring; [exact O1|exact Hap|exact L2]).
    destruct (merge_ring h1 _ _ _ _ L2' R1) as (h2 & E2 & O2 & R2).
    { apply NoDup_app. split; [exact (ring_nodup _ _ L2')|]. split; [|exact (ring_nodup _ _ R1)].
      intros x Hx Hin. apply (Hap x); [|done]. right. rewrite fmap_app, elem_of_app. apply elem_of_cons in Hin as [->|?]; [right; by left|by left]. }
    exists h2. split; [|split].
    + m_step (tree_done _ w _ _ E1). rewrite decide_True by (apply (ring_nonnull _ _ _ R1); by left).
      set (w1 := with_tree h1 (proc_list_lock w) w).
      rewrite (bind_done _ _ w1 _ _ (reparent_loop w1 root z cs fuel R1 (λ c Hc, proj2 (h_procs _ _ _ H1 c Hc)) ltac:(rewrite length_app in Hf; simpl in Hf; lia))).
      set (w2 := with_procs _ w1). m_step (tree_done _ w2 _ _ E2). done.
    + eapply only_ring; [exact O2| |exact R0]. intros x Hx ->%list_elem_of_singleton.
      apply elem_of_app in Hx as [Hx|Hx]; [by apply (Hap (children this)); [left|]|].
      pose proof (hlist_nodup _ _ _ L1) as [N _]%NoDup_cons. apply N. rewrite fmap_app, elem_of_app.
      apply elem_of_cons in Hx as [->|?]; [right; by left|by left].
    + rewrite adopted_snoc. simpl. rewrite fmap_app. exact R2.
Qed.

(** *** [exit] *)

(** What [this] may rely on when it exits: it runs, so it does not sleep on its
    own semaphore, and the parent and the root process are there. *)
Record exiting w (root this : Z) pr cs rs (ct cr cp : csem) : Prop := {
  e_calm : calm w;
  e_this : procs (wsched w) !! this = Some pr;
  e_root : this ≠ root;
  e_cs : has_children w this cs;
  e_rs : has_children w root rs;
  e_apart : apart (children this :: (ptnode <$> cs)) (children root :: (ptnode <$> rs));
  e_not_own : this ∉ cs;
  e_par : parent pr ≠ this;
  e_ct : wsems w !! this = Some ct ∧ cs_lock ct = false ∧ 0 ≤ cs_val ct;
  e_cr : exits_ok w root cr;
  e_cp : exits_ok w (parent pr) cp;
  e_max : cs_val cr + cs_val ct < 2 ^ 31 - 1 ∧ cs_val cp < 2 ^ 31 - 1 ∧ cs_val ct < 2 ^ 31 - 1
}.

Lemma exit_spec w root this pr cs rs (ct cr cp : csem) F P lv code fuel :
  exiting w root this pr cs rs ct cr cp → space (mkPgdir (pgdir_pt pr) 0 (wpages w)) F P lv →
  (4 ≤ fuel)%nat → (length cs ≤ fuel)%nat → cs_val ct < Z.of_nat fuel →
  ∃ w' F' cr' cp', exit_detach root fuel this code w = Done (tt, w') ∧
    proc_list_lock w' = true ∧ sch_ok (wsched w') ∧
    hlist (tnodes w') (children this) [] ∧ hlist (tnodes w') (children root) (ptnode <$> (adopted cs ++ rs)) ∧
    (∀ c, c ∈ cs → parent <$> procs (wsched w') !! c = Some root) ∧
    exitcode <$> procs (wsched w') !! this = Some code ∧ pgdir_pt <$> procs (wsched w') !! this = Some 0 ∧
    exits_ok w' root cr' ∧ exits_ok w' (parent pr) cp' ∧ cs_val <$> wsems w' !! this = Some 0 ∧
    exit_permits cr' = exit_permits cr + cs_val ct + (if decide (parent pr = root) then 1 else 0) ∧
    (parent pr ≠ root → exit_permits cp' = exit_permits cp + 1) ∧
    pa_ok (wpages w') F' lv ∧ F' ≡ₚ (map_to_list P).*2 ++ F.
Proof.
  intros [[Hl Hs] Ht Hrt Hcs Hrs Hap Hown Hpar (Ec1 & Ec2 & Ec3) Hcr Hcp (Hm1 & Hm2 & Hm3)] Sp Hf4 Hfc Hfv.
  destruct (free_pgdir_spec _ _ _ _ fuel Sp Hf4) as (d & F' & Ed & [[Hpa _] Hpt] & HF' & _). simpl in Hpt.
  change (pages ∅ ++ lv) with lv in Hpa.
  set (pr1 := with_pt (pt d) pr). set (pr2 := with_exitcode code pr1). set (ps2 := <[this := pr2]> (procs (wsched w))).
  set (w1 := mkWorld (kst_procs (<[this := pr1]> (procs (wsched w))) (wsched w)) (wsems w) (tnodes w) (proc_list_lock w) (last_pid w) (sys d)).
  set (w2 := with_procs ps2 w1). set (w3 := with_tree (tnodes w2) true w2).
  assert (E1 : on_pgdir this (free_pgdir fuel) w = Done (tt, w1)) by (unfold on_pgdir; rewrite Ht, Ed; done).
  assert (E2 : update_p this (with_exitcode code) w1 = Done (tt, w2)).
  { rewrite (update_p_done w1 this pr1) by apply lookup_insert_eq. simpl. by rewrite insert_insert_eq. }
  assert (E3 : acquire_list w2 = Done (tt, w3)) by by apply acquire_done.
  assert (V2 : view <$> ps2 = view <$> procs (wsched w)) by by apply (view_insert _ _ pr).
  assert (Hch : ∀ p l, has_children w p l → has_children w3 p l).
  { intros p l [A B]. split; [exact A|]. intros c Hc. destruct (B c Hc) as [B0 B1]. split; [done|].
    change (is_Some (ps2 !! c)). unfold ps2. rewrite lookup_insert_is_Some. destruct (decide (this = c)); [by left|by right]. }
  destruct (hand_over_spec w3 root this cs rs fuel (Hch _ _ Hcs) (Hch _ _ Hrs) Hap Hfc) as (h & E4 & L1 & L2).
  set (ps4 := reparent root cs ps2). set (w4 := with_tree h (proc_list_lock w3) (with_procs (reparent root cs (procs (wsched w3))) w3)) in E4.
  assert (V4 : view <$> ps4 = view <$> procs (wsched w)) by (unfold ps4; by rewrite reparent_view).
  assert (Hx4 : ∀ q (c : csem), exits_ok w q c → exits_ok w4 q c).
  { intros q c (A1 & A2 & l & A3). split; [exact A1|]. split; [exact A2|]. exists l. exact (sem_ok_view _ _ _ _ _ _ ps4 _ A3 V4). }
  destruct (pass_zombies_spec root this (Z.to_nat (cs_val ct)) w4 ct cr fuel) as (g & cr1 & E5 & Hcr1 & Hf5 & Hg5 & Hp5 & Hv5);
    [done|exact Ec1|done|lia|by apply Hx4|lia|lia|lia|]. cbv zeta in E5, Hcr1.
  set (ct0 := mkCsem false 0 (cs_nodes ct) (cs_waits ct)) in *. set (ss5 := <[root := cr1]> (<[this := ct0]> (wsems w4))) in *.
  set (w5 := with_sems g ss5 w4) in *.
  assert (Hthis4 : procs (wsched w4) !! this = Some pr2).
  { change (ps4 !! this = Some pr2). unfold ps4. rewrite reparent_lookup, decide_False by done. apply lookup_insert_eq. }
  pose proof Hf5 as (Hf5' & _). destruct (Hf5' _ _ Hthis4) as (st5 & Hthis5 & _).
  (* the parent's semaphore *)
  set (par := parent pr) in *.
  assert (Hcp5 : ∃ cp1, exits_ok w5 par cp1 ∧ cs_val cp1 < 2 ^ 31 - 1 ∧ (par = root → cp1 = cr1) ∧ (par ≠ root → cp1 = cp)).
  { destruct (decide (par = root)) as [E|E].
    - exists cr1. rewrite E. split; [exact Hcr1|]. split; [lia|]. by split.
    - exists cp. split; [|split; [lia|by split]]. destruct (Hx4 _ _ Hcp) as (A1 & A2 & l & A3). split; [|split; [done|]].
      + change (ss5 !! par = Some cp). unfold ss5. by rewrite !lookup_insert_ne.
      + exists l. exact (sem_ok_fields _ _ _ _ _ _ g _ A3 Hf5 Hg5). }
  destruct Hcp5 as (cp1 & Hcp1 & Hmx & Hcr5 & Hcp5).
  destruct (post_childexit w5 par cp1 Hcp1 Hmx) as (g6 & cp2 & E6 & Hcp2 & Hv6 & Hf6 & Hg6 & Hp6).
  set (w6 := with_sems g6 (<[par := cp2]> (wsems w5)) w5) in *.
  assert (Hf46 : same_fields (wsched w4) (wsched w6)) by by eapply same_fields_trans.
  assert (Hlook : ∀ q prq, ps4 !! q = Some prq → ∃ st, procs (wsched w6) !! q = Some (set_pstate st prq)).
  { intros q prq Hq. destruct Hf46 as (A & _). destruct (A q prq Hq) as (st & B & _). by exists st. }
  exists w6, F', (if decide (par = root) then cp2 else cr1), cp2.
  split; [|split; [done|split; [exact Hg6|split; [exact L1|split; [exact L2|split; [|split; [|split; [|split; [|split; [exact Hcp2|split; [|split; [|split; [|split; [exact Hpa|]]]]]]]]]]]]]].
  - unfold exit_detach. m_step E1. m_step E2. m_step E3. m_step E4. m_step E5.
    rewrite (bind_done _ _ w5 (set_pstate st5 pr2) w5) by (exact (get_p_done w5 this _ Hthis5)). exact E6.
  - intros c Hc. assert (∃ prc, ps4 !! c = Some (with_parent root prc)) as [prc Hprc].
    { unfold ps4. rewrite reparent_lookup, decide_True by done. destruct (h_procs _ _ _ (Hch _ _ Hcs) c Hc) as [_ [prc Hprc]].
      exists prc. change (ps2 !! c = Some prc) in Hprc. by rewrite Hprc. }
    destruct (Hlook _ _ Hprc) as [st ->]. done.
  - destruct (Hlook _ _ Hthis4) as [st ->]. done.
  - destruct (Hlook _ _ Hthis4) as [st ->]. simpl. f_equal. exact Hpt.
  - destruct (decide (par = root)) as [E|E]; [rewrite <-E; exact Hcp2|]. by apply (exits_ok_other w5).
  - change (cs_val <$> <[par := cp2]> ss5 !! this = Some 0). rewrite lookup_insert_ne by done. unfold ss5.
    rewrite lookup_insert_ne by done. rewrite lookup_insert_eq. done.
  - destruct (decide (par = root)) as [E|E]; [rewrite Hp6, (Hcr5 E)|]; lia.
  - intros E. rewrite Hp6, (Hcp5 E). done.
  - by rewrite HF'.
Qed.
End facts.
