(* ===== verification/ProcProps.v ===== *)
(** * Exit, wait, kill and containers

    The theorems about [kernel/proc.c] and [kernel/container.c], with a small
    process tree to try them on. *)
From S2P Require Import Prelude Words Atomics Lists Memory LockFree Kalloc Pages PageTable Sched Sem Heap Proc ProcSpec.

Section theorems.
Context {T G : Type} `{!CpuTimers T} `{!PageAllocator G} `{!KernelHeap G}.
Implicit Types (w : world T G) (cs rs l : list Z) (p this root : Z) (pr : proc).

(** C20: [wait], once [childexit] let it through, reaps the first zombie among the
    children: it answers the pid and the exit code of that child, takes it off the
    list, gives its kernel stack and its [struct proc] back to the heap, and touches
    nothing else. It panics if no child is a zombie. *)
Theorem wait_reaps w this cs fuel F lv : calm w → has_children w this cs → (length cs < fuel)%nat →
  (∀ l1 c l2 pr, cs = l1 ++ c :: l2 → (∀ x, x ∈ l1 → ¬ zombie w x) → procs (wsched w) !! c = Some pr → pstate pr = ZOMBIE →
     pa_ok (wpages w) F (((kstack pr, PAGE_SIZE), None) :: kh_live sizeof_proc c :: lv) → page_addr (kstack pr) →
     ∃ h g, wait_reap fuel this w = Done ((pid pr, exitcode pr), reaped w c h g) ∧
       hlist h (children this) (ptnode <$> (l1 ++ l2)) ∧ pa_ok g (kstack pr :: F) lv ∧ kept lv (pa_mem (wpages w)) (pa_mem g)) ∧
  ((∀ c, c ∈ cs → ¬ zombie w c) → wait_reap fuel this w = Panic).
Proof.
  intros Hc H Hf. split; [|intros Hz; by eapply reap_panics].
  intros l1 c l2 pr -> Hz Hp Hst Hpa Hpg. eapply reap_spec; try done. rewrite length_app in Hf. lia.
Qed.

(** C9: [exit] frees the address space, hands its children to the root process (the
    last one first), passes the exits of children nobody waited for to the root's
    [childexit], posts its own exit to its parent, and only then becomes a zombie
    in its call of the scheduler, which it makes without the list's lock. *)
Theorem exit_hands_over w root rc this pr cs rs (ct cr cp : csem) F P lv code depth fuel cpu c0 :
  exiting w root this pr cs rs ct cr cp → space (mkPgdir (pgdir_pt pr) 0 (wpages w)) F P lv →
  cpus (wsched w) !! cpu = Some c0 → cur c0 = this → idle pr = false →
  (4 ≤ fuel)%nat → (length cs ≤ fuel)%nat → cs_val ct < Z.of_nat fuel →
  ∃ w' F' cr' cp',
    exit root rc depth fuel cpu code w = on_sched (simple_sched rc depth fuel cpu ZOMBIE) w' ∧
    proc_list_lock w' = false ∧ sched_lock (wsched w') = true ∧
    hlist (tnodes w') (children this) [] ∧ hlist (tnodes w') (children root) (ptnode <$> (adopted cs ++ rs)) ∧
    (∀ c, c ∈ cs → parent <$> procs (wsched w') !! c = Some root) ∧
    exitcode <$> procs (wsched w') !! this = Some code ∧ pgdir_pt <$> procs (wsched w') !! this = Some 0 ∧
    wsems w' !! root = Some cr' ∧ wsems w' !! parent pr = Some cp' ∧ cs_val <$> wsems w' !! this = Some 0 ∧
    exit_permits cr' = exit_permits cr + cs_val ct + (if decide (parent pr = root) then 1 else 0) ∧
    (parent pr ≠ root → exit_permits cp' = exit_permits cp + 1) ∧
    pa_ok (wpages w') F' lv ∧ F' ≡ₚ (map_to_list P).*2 ++ F.
Proof.
  intros He Sp Hcpu Hcur Hi Hf4 Hfc Hfv.
  destruct (exit_spec w root this pr cs rs ct cr cp F P lv code fuel He Sp Hf4 Hfc Hfv)
    as (w' & F' & cr' & cp' & E & Hl & [Hs _] & L1 & L2 & H1 & H2 & H3 & (H4 & _) & (H5 & _) & H6 & H7 & H8 & H9 & H10).
  set (g := wsched w'). set (w2 := mkWorld (mkKst (lnodes g) (procs g) (conts g) (groups g) (cpus g) true (panic_flag g) (timers g))
    (wsems w') (tnodes w') false (last_pid w') (wpages w')).
  exists w2, F', cr', cp'. split; [|by repeat (split; [done|])].
  unfold exit. rewrite (bind_done _ _ w this w).
  2:{ unfold on_sched, thisproc, get_cpu. m_unfold. rewrite Hcpu, Hcur. by destruct w. }
  m_step (get_p_done w this pr (e_this _ _ _ _ _ _ _ _ _ He)). rewrite bool_decide_true, Hi by apply He. cbn [negb andb assert].
  m_step (ret_done tt w). m_step E.
  rewrite (bind_done _ _ w' tt (mkWorld (wsched w2) (wsems w') (tnodes w') (proc_list_lock w') (last_pid w') (wpages w'))).
  - by m_step (release_list_done (mkWorld (wsched w2) (wsems w') (tnodes w') (proc_list_lock w') (last_pid w') (wpages w'))).
  - unfold on_sched, _acquire_sched_lock, Sched.on_lock. fold g. change (sched_lock g) with (sched_lock (wsched w')). by rewrite Hs.
Qed.

(** C26: [kill] marks and wakes the first child of the root process with the pid,
    and answers 0; a process that is not a child of the root process is never
    found: [kill] then answers -1 and changes nothing. *)
Theorem kill_root_children w root cs p fuel L : calm w → has_children w root cs → (length cs < fuel)%nat → qok (wsched w) L →
  match child_named w cs p with
  | Some c => ∀ pr, procs (wsched w) !! c = Some pr → idle pr = false →
      ∃ w' L', kill root fuel p w = Done (0, w') ∧ calm w' ∧ qok (wsched w') L' ∧ tnodes w' = tnodes w ∧
        procs (wsched w') = <[c := set_pstate (if wakeable (pstate pr) true then RUNNABLE else pstate pr) (with_killed pr)]> (procs (wsched w))
  | None => kill root fuel p w = Done (-1, w)
  end.
Proof.
  intros Hc H Hf HQ. destruct (child_named w cs p) as [c|] eqn:E.
  - intros pr Hp Hi. by eapply kill_found.
  - by eapply kill_not_found.
Qed.

(** The run queue of a new container. *)
Lemma create_container_queue root_container w w' c : create_container root_container w = Done (c, w') →
  lnodes (wsched w') !! sqhead c = Some (mkNode 0 0) ∧ c ≠ 0.
Proof.
  unfold create_container. intros E. apply bind_inv in E as (rp & s1 & _ & E). apply bind_inv in E as (c1 & s2 & _ & E).
  apply bind_inv in E as ([] & s3 & E3 & E). destruct (decide (c1 = 0)) as [|Hne]; [done|].
  apply bind_inv in E as ([] & s4 & E4 & E). injection E as -> <-. injection E4 as <-.
  apply bind_inv in E3 as ([] & s5 & [= <-] & E3). apply bind_inv in E3 as ([] & s6 & [= <-] & E3).
  injection E3 as <-. simpl. split; [apply lookup_insert_eq|done].
Qed.

(** A push on a head of null links follows the null pointer. *)
Lemma insert_null_crash (h : heap) (q n : Z) : q ≠ 0 → q ≠ n → h !! q = Some (mkNode 0 0) → _insert_into_list q n h = Crash.
Proof.
  intros Hq Hne Hh. destruct (decide (n = 0)) as [->|Hn]; [done|].
  destruct (h !! n) as [x|] eqn:Ex.
  2:{ unfold _insert_into_list, init_list_node, set_prev. m_unfold. unfold load_node. case_decide; [done|]. by rewrite Ex. }
  destruct (init_list_node_spec h n Hn (mk_is_Some _ _ Ex)) as (h1 & E1 & O1 & _).
  unfold _insert_into_list. m_step E1. assert (Hh1 : h1 !! q = Some (mkNode 0 0)).
  { rewrite <-Hh. apply O1. by rewrite list_elem_of_singleton. }
  assert (D1 : is_Some (h1 !! n)) by (by eapply only_dom).
  destruct (set_next_eq h1 q n Hq (mk_is_Some _ _ Hh1)) as (h2 & E2 & O2 & _).
  destruct (set_prev_eq h2 n q Hn) as (h3 & E3 & _); [by eapply only_dom|].
  destruct D1 as [y Ey]. unfold _merge_list. rewrite !decide_False by done.
  rewrite (bind_done _ _ h1 0 h1).
  2:{ unfold get_next, load_node. m_unfold. by rewrite decide_False, Hh1 by done. }
  rewrite (bind_done _ _ h1 (prev y) h1).
  2:{ unfold get_prev, load_node. m_unfold. by rewrite decide_False, Ey by done. }
  m_step E2. m_step E3. unfold set_next, load_node, store_node. m_unfold.
  case_decide; [done|]. destruct (h3 !! prev y) eqn:E4; [|done]. by rewrite E4.
Qed.

(** A container that [create_container] made has no run queue: its
    [schqueue] was cleared and never initialised, so that activating a process in
    it follows a null pointer. *)
Theorem container_queue_uninitialised root_container w w' c p pr : create_container root_container w = Done (c, w') →
  sched_lock (wsched w') = false → procs (wsched w') !! p = Some pr → idle pr = false → wakeable (pstate pr) false = true →
  0 < c → sqnode p ≠ sqhead c → (set_proc_to_container p c;; on_sched (_activate_proc p false)) w' = Crash.
Proof.
  intros E Hl Hp Hi Hw H0 Hne. destruct (create_container_queue _ _ _ _ E) as [Hq _]. clear E.
  unfold set_proc_to_container. m_step (update_p_done w' p pr (with_container c) Hp).
  set (w1 := with_procs _ w'). unfold on_sched.
  enough (Ea : _activate_proc p false (wsched w1) = Crash) by by rewrite Ea.
  unfold _activate_proc, _acquire_sched_lock, Sched.on_lock, get_proc, Sched.set_proc. m_unfold. simpl. rewrite Hl. simpl.
  rewrite lookup_insert_eq. simpl. rewrite Hi, Hw. simpl. unfold on_nodes. simpl.
  by rewrite insert_null_crash by (done || unfold sqhead; lia).
Qed.
End theorems.

(** ** A small process tree *)
#[local] Existing Instances sample_alloc sample_heap.
#[local] Existing Instance no_timers.

(** The process 2000 (pid 7) runs; its parent is the root process 3000, which
    sleeps, and its child 5000 (pid 9) is a zombie with the code 42. *)
Definition tree_proc (i : bool) (p : Z) (code : Z) (st : procstate) (par stack : Z) : proc :=
  mkProc false i p p code st par 0 1000 stack 0 0.
Definition tree_sched : kst unit :=
  mkKst {[ 1040 := mkNode 1040 1040; 2096 := mkNode 2096 2096; 3096 := mkNode 3096 3096; 5096 := mkNode 5096 5096 ]}
    {[ 2000 := tree_proc false 7 0 RUNNING 3000 0; 3000 := tree_proc false 1 0 SLEEPING 3000 0;
       5000 := tree_proc false 9 42 ZOMBIE 2000 (sample_page 5); 4000 := tree_proc true 0 0 RUNNABLE 0 0 ]}
    {[ 1000 := mkContainer 1000 3000 0 ]} {[ 2088 := false; 3088 := false; 5088 := false; 1016 := true ]}
    [mkSched 2000 4000] false false tt.
(** The chunk of the process 5000 is in the memory, with its header. *)
Definition tree_memory : kstate := mkK (store64 4992 (pool 512 4) sample_mem) 0.
Definition tree_world : world unit kstate :=
  mkWorld tree_sched
    {[ 2000 := mkCsem false 1 {[ 2032 := mkNode 2032 2032 ]} ∅; 3000 := mkCsem false 0 {[ 3032 := mkNode 3032 3032 ]} ∅ ]}
    {[ 2048 := mkNode 5064 5064; 5064 := mkNode 2048 2048; 3048 := mkNode 2064 2064; 2064 := mkNode 3048 3048 ]}
    false 9 tree_memory.
Abbreviation tree_queue := ({[ 1040 := [] ]} : gmap Z (list Z)).

Lemma tree_procs (P : Z → proc → Prop) :
  P 2000 (tree_proc false 7 0 RUNNING 3000 0) → P 3000 (tree_proc false 1 0 SLEEPING 3000 0) →
  P 5000 (tree_proc false 9 42 ZOMBIE 2000 (sample_page 5)) → P 4000 (tree_proc true 0 0 RUNNABLE 0 0) →
  ∀ p pr, procs tree_sched !! p = Some pr → P p pr.
Proof.
  intros H1 H2 H3 H4 p pr Hp. cbn [procs tree_sched] in Hp.
  apply lookup_insert_Some in Hp as [[<- <-]|[_ Hp]]; [done|].
  apply lookup_insert_Some in Hp as [[<- <-]|[_ Hp]]; [done|].
  apply lookup_insert_Some in Hp as [[<- <-]|[_ Hp]]; [done|].
  by apply lookup_singleton_Some in Hp as [<- <-].
Qed.

Lemma tree_qok : qok tree_sched tree_queue.
Proof.
  split.
  - split.
    + intros hd l [<- <-]%lookup_singleton_Some. split; [|split; [set_solver|]].
      * apply (bool_decide_unpack _). by vm_compute.
      * by vm_compute.
    + intros hd1 l1 hd2 l2 [<- <-]%lookup_singleton_Some [<- <-]%lookup_singleton_Some. done.
  - intros hd l n [<- <-]%lookup_singleton_Some Hn. by apply elem_of_nil in Hn.
  - assert (Hc : ∀ c, is_Some (conts tree_sched !! c) → c = 1000).
    { intros c [x Hx]. cbn [conts tree_sched] in Hx. by apply lookup_singleton_Some in Hx as [<- _]. }
    refine (tree_procs (λ p pr, idle pr = false → proc_ok _ _ _ _ p pr) _ _ _ _); intros Hi; try done; (split; [done|split; [done|split; [by eexists|
      split; [done|split; [done|split; [by intros c ->%Hc|]]]]]]); exists []; (split; [done|]);
      split; intros H; (done || by apply elem_of_nil in H).
Qed.

Lemma tree_sched_ok : sched_ok tree_sched tree_queue.
Proof.
  split; [exact tree_qok|]. split; [|done]. split.
  - intros [|i] c Hc; [|done]. injection Hc as <-. by exists (tree_proc false 7 0 RUNNING 3000 0).
  - intros [|i] c Hc; [|done]. injection Hc as <-. by exists (tree_proc true 0 0 RUNNABLE 0 0).
  - intros [|i] [|j] ci cj Hi Hj; done.
  - refine (tree_procs (λ p pr, pstate pr = RUNNING → ∃ i c, cpus tree_sched !! i = Some c ∧ cur c = p) _ _ _ _); intros Hr; try done. exists 0%nat. by eexists.
Qed.

Lemma tree_children_2000 : has_children tree_world 2000 [5000].
Proof.
  split.
  - apply (bool_decide_unpack _). by vm_compute.
  - intros c ->%list_elem_of_singleton. split; [done|]. by eexists.
Qed.
Lemma tree_children_3000 : has_children tree_world 3000 [2000].
Proof.
  split.
  - apply (bool_decide_unpack _). by vm_compute.
  - intros c ->%list_elem_of_singleton. split; [done|]. by eexists.
Qed.

Lemma tree_pages : pa_ok (wpages tree_world) sample_free [((sample_page 5, PAGE_SIZE), None); kh_live sizeof_proc 5000].
Proof.
  apply sample_memory_ok; [by vm_compute..| |].
  - apply store_bytes, sample_bytes.
  - apply Forall_cons. split; [by split|]. apply Forall_cons. split; [|by apply Forall_nil]. split; by vm_compute.
Qed.

Lemma wait_reaps_witness : ∃ w', wait_reap 10 2000 tree_world = Done ((9, 42), w') ∧ procs (wsched w') !! 5000 = None.
Proof.
  destruct (wait_reaps tree_world 2000 [5000] 10 sample_free []) as [H _];
    [by split|exact tree_children_2000|simpl; lia|].
  destruct (H [] 5000 [] (tree_proc false 9 42 ZOMBIE 2000 (sample_page 5))) as (h & g & E & _);
    [done|by intros x ?%elem_of_nil|done|done|exact tree_pages|by apply (bool_decide_unpack _); vm_compute|].
  eexists. split; [exact E|]. apply lookup_delete_eq.
Defined.

Lemma tree_exiting : exiting tree_world 3000 2000 (tree_proc false 7 0 RUNNING 3000 0) [5000] [2000]
  (mkCsem false 1 {[ 2032 := mkNode 2032 2032 ]} ∅) (mkCsem false 0 {[ 3032 := mkNode 3032 3032 ]} ∅)
  (mkCsem false 0 {[ 3032 := mkNode 3032 3032 ]} ∅).
Proof.
  assert (He : exits_ok tree_world 3000 (mkCsem false 0 {[ 3032 := mkNode 3032 3032 ]} ∅)).
  { split; [done|]. split; [done|]. exists []. split; simpl.
    - split; lia.
    - apply (bool_decide_unpack _). by vm_compute.
    - done.
    - intros w wd Hw. done.
    - intros n Hn. by apply elem_of_nil in Hn.
    - split; [done|]. eexists. exact tree_sched_ok. }
  split; try done.
  - exact tree_children_2000.
  - exact tree_children_3000.
  - intros x [->|[->|Hx]%elem_of_cons]%elem_of_cons; try by apply elem_of_nil in Hx.
    + intros [?|[?|Hx]%elem_of_cons]%elem_of_cons; [done..|by apply elem_of_nil in Hx].
    + intros [?|[?|Hx]%elem_of_cons]%elem_of_cons; [done..|by apply elem_of_nil in Hx].
  - by intros ?%list_elem_of_singleton.
Qed.

Lemma exit_hands_over_witness : ∃ w', exit 3000 1000 1 10 0 3 tree_world = on_sched (simple_sched 1000 1 10 0 ZOMBIE) w' ∧
  hlist (tnodes w') 3048 [5064; 2064].
Proof.
  destruct (exit_hands_over tree_world 3000 1000 2000 _ _ _ _ _ _ sample_free ∅ [((sample_page 5, PAGE_SIZE), None); kh_live sizeof_proc 5000]
    3 1 10 0 (mkSched 2000 4000) tree_exiting) as (w' & F' & cr & cp & E & _ & _ & _ & L & _).
  - split; [|done]. split; [exact tree_pages|]. by split; [intros ?? [??]|].
  - done.
  - done.
  - done.
  - lia.
  - simpl; lia.
  - simpl; lia.
  - exists w'. split; [exact E|exact L].
Defined.

Lemma kill_root_children_witness : (∃ w', kill 3000 10 7 tree_world = Done (0, w')) ∧ kill 3000 10 9 tree_world = Done (-1, tree_world).
Proof.
  split.
  - pose proof (kill_root_children tree_world 3000 [2000] 7 10 tree_queue) as H.
    destruct (H ltac:(by split) tree_children_3000 ltac:(simpl; lia) tree_qok (tree_proc false 7 0 RUNNING 3000 0))
      as (w' & L' & E & _); [done|done|]. by exists w'.
  - exact (kill_root_children tree_world 3000 [2000] 9 10 tree_queue ltac:(by split) tree_children_3000 ltac:(simpl; lia) tree_qok).
Defined.

Lemma container_queue_uninitialised_witness : ∃ w', create_container 1000 tree_world = Done (0xffff000000012008, w') ∧
  (set_proc_to_container 0xffff000000010008 0xffff000000012008;; on_sched (_activate_proc 0xffff000000010008 false)) w' = Crash.
Proof.
  assert (E : match create_container 1000 tree_world with
    | Done (c, w') => (c, sched_lock (wsched w'), (λ pr, (idle pr, pstate pr)) <$> procs (wsched w') !! 0xffff000000010008)
    | _ => (0, true, None) end = (0xffff000000012008, false, Some (false, UNUSED))) by by vm_compute.
  destruct (create_container 1000 tree_world) as [[c w']| | |] eqn:Ew; try discriminate E.
  injection E as -> Hl Hp. apply fmap_Some in Hp as (pr & Hp & Ep). injection Ep as Ei Es.
  exists w'. split; [reflexivity|].
  apply (container_queue_uninitialised 1000 tree_world w' 0xffff000000012008 0xffff000000010008 pr Ew Hl Hp (eq_sym Ei)); [by rewrite <-Es|lia|done].
Defined.
