(* ===== verification/Mkfs.v ===== *)
(** * The file-system builder ([user/mkfs/main.c], [fs/defines.h])

    The image is the sequence of its sectors; the host's [lseek], [read] and
    [write] behave as documented and do not fail, a file grows with zeros when it
    is written behind its end, and a read behind its end is short, which makes
    [mkfs] exit.  A failed [assert] and [exit(1)] are both [Panic].  The builder
    runs on a little-endian host.  The files it is given are a parameter: what
    [open] and the successive reads of at most a sector answer for each path. *)
From S2P Require Import Prelude Words Cache.

Definition FSSIZE : Z := 1000.
Definition NINODES : Z := 200.
Definition INODE_NUM_DIRECT : Z := 12.
Definition INODE_NUM_INDIRECT : Z := BLOCK_SIZE / 4.
Definition INODE_MAX_BLOCKS : Z := INODE_NUM_DIRECT + INODE_NUM_INDIRECT.
Definition FILE_NAME_MAX_LENGTH : Z := 14.
Definition INODE_DIRECTORY : Z := 1.
Definition INODE_REGULAR : Z := 2.
Definition ROOT_INODE_NO : Z := 1.

(** [struct dinode]: 64 bytes. *)
Record dinode := mkDinode {
  dtype : Z; major : Z; minor : Z; num_links : Z; num_bytes : Z; addrs : list Z; indirect : Z
}.
Definition sizeof_dinode : Z := 64.
Definition zero_dinode : dinode := mkDinode 0 0 0 0 0 (replicate 12 0) 0.

Definition dinode_bytes (d : dinode) : list Z :=
  le_bytes 2 (dtype d) ++ le_bytes 2 (major d) ++ le_bytes 2 (minor d) ++ le_bytes 2 (num_links d) ++
  le_bytes 4 (num_bytes d) ++ mjoin (le_bytes 4 <$> addrs d) ++ le_bytes 4 (indirect d).
Definition dinode_of (l : list Z) : dinode :=
  mkDinode (le_val (take 2 l)) (le_val (take 2 (drop 2 l))) (le_val (take 2 (drop 4 l))) (le_val (take 2 (drop 6 l)))
    (le_val (take 4 (drop 8 l))) (le_val <$> pieces 4 12 (drop 12 l)) (le_val (take 4 (drop 60 l))).

(** [struct dirent]: 16 bytes. *)
Record dirent := mkDirent { inode_no : Z; name : list Z }.
Definition dirent_bytes (de : dirent) : list Z := le_bytes 2 (inode_no de) ++ name de.

Definition IPB : Z := BLOCK_SIZE / sizeof_dinode.
Definition nbitmap : Z := FSSIZE / (BLOCK_SIZE * 8) + 1.
Definition ninodeblocks : Z := NINODES / IPB + 1.
Definition zeroes : list Z := replicate 512 0.

Record fsimg := mkFs { img : list (list Z); sb : SuperBlock; freeinode : Z; freeblock : Z }.
Definition IBLOCK (i : Z) (b : SuperBlock) : Z := u32 (i / IPB + inode_start b).

(** The bytes [a[k]] of the result, read back as an integer. *)
Definition xshort (x : Z) : Z := le_val [u8 x; u8 (Z.shiftr x 8)].
Definition xint (x : Z) : Z := le_val [u8 x; u8 (Z.shiftr x 8); u8 (Z.shiftr x 16); u8 (Z.shiftr x 24)].

(** Bytes written over a part of a buffer. *)
Definition splice (buf : list Z) (off : nat) (p : list Z) : list Z :=
  take off buf ++ p ++ drop (off + length p) buf.

(** ** Sectors and inodes *)
Definition set_img (i : list (list Z)) (s : fsimg) : fsimg := mkFs i (sb s) (freeinode s) (freeblock s).
(** The sector at the file offset [sec * BSIZE], computed in [uint]. *)
Definition sector (sec : Z) : nat := Z.to_nat (u32 (sec * BLOCK_SIZE) / BLOCK_SIZE).

Definition wsect (sec : Z) (buf : list Z) : M fsimg unit := modify (λ s,
  let n := sector sec in
  set_img (if decide (n < length (img s))%nat then <[n := buf]> (img s)
           else img s ++ replicate (n - length (img s)) zeroes ++ [buf]) s).
Definition rsect (sec : Z) : M fsimg (list Z) := λ s,
  match img s !! sector sec with Some b => Done (b, s) | None => Panic end.

Definition winode (inum : Z) (ip : dinode) : M fsimg unit :=
  b ← gets sb;
  buf ← rsect (IBLOCK inum b);
  wsect (IBLOCK inum b) (splice buf (Z.to_nat (64 * (inum mod IPB))) (dinode_bytes ip)).
Definition rinode (inum : Z) : M fsimg dinode :=
  b ← gets sb;
  buf ← rsect (IBLOCK inum b);
  mret (dinode_of (take 64 (drop (Z.to_nat (64 * (inum mod IPB))) buf))).

Definition ialloc (type : Z) : M fsimg Z :=
  inum ← gets freeinode;
  modify (λ s, mkFs (img s) (sb s) (u32 (inum + 1)) (freeblock s));;
  winode inum (mkDinode (xshort type) 0 0 (xshort 1) (xint 0) (replicate 12 0) 0);;
  mret inum.

(** ** Appending to a file *)
(** [freeblock++] *)
Definition next_block : M fsimg Z :=
  b ← gets freeblock;
  modify (λ s, mkFs (img s) (sb s) (freeinode s) (u32 (b + 1)));;
  mret b.
Definition set_addr (k : Z) (x : Z) (d : dinode) : dinode :=
  mkDinode (dtype d) (major d) (minor d) (num_links d) (num_bytes d) (<[Z.to_nat k := x]> (addrs d)) (indirect d).
Definition set_indirect (x : Z) (d : dinode) : dinode :=
  mkDinode (dtype d) (major d) (minor d) (num_links d) (num_bytes d) (addrs d) x.
Definition set_num_bytes (n : Z) (d : dinode) : dinode :=
  mkDinode (dtype d) (major d) (minor d) (num_links d) n (addrs d) (indirect d).
(** [uint indirect[NINDIRECT]] in a sector *)
Definition words (buf : list Z) : list Z := le_val <$> pieces 4 128 buf.
Definition words_bytes (ws : list Z) : list Z := mjoin (le_bytes 4 <$> ws).
Definition nth_word (ws : list Z) (k : Z) : Z := default 0 (ws !! Z.to_nat k).

(** The number in place [k] of the indirect block [ib], allocated where it is missing. *)
Definition indirect_block (ib k : Z) : M fsimg Z :=
  buf ← rsect ib;
  let ws := words buf in
  if decide (nth_word ws k = 0) then
    b ← next_block;
    let ws := <[Z.to_nat k := xint b]> ws in
    wsect ib (words_bytes ws);;
    mret (xint (nth_word ws k))
  else mret (xint (nth_word ws k)).
(** The number of the block [fbn] of the file, allocated where it is missing. *)
Definition file_block (din : dinode) (fbn : Z) : M fsimg (Z * dinode) :=
  if decide (fbn < INODE_NUM_DIRECT) then
    din ← (if decide (xint (nth_word (addrs din) fbn) = 0)
           then b ← next_block; mret (set_addr fbn (xint b) din) else mret din);
    mret (xint (nth_word (addrs din) fbn), din)
  else
    din ← (if decide (xint (indirect din) = 0)
           then b ← next_block; mret (set_indirect (xint b) din) else mret din);
    x ← indirect_block (xint (indirect din)) (fbn - INODE_NUM_DIRECT);
    mret (x, din).

(** One turn of the loop of [iappend]: the offset, what is left to write, the inode. *)
Definition iappend_step (a : Z * list Z * dinode) : M fsimg ((Z * list Z * dinode) + (Z * dinode)) :=
  let '(off, p, din) := a in
  if decide (0 < Z.of_nat (length p)) then
    let fbn := off / BLOCK_SIZE in
    assert (bool_decide (fbn < INODE_MAX_BLOCKS));;
    '(x, din) ← file_block din fbn;
    let n1 := u32 (Z.min (Z.of_nat (length p)) (u32 (u32 ((fbn + 1) * BLOCK_SIZE) - off))) in
    buf ← rsect x;
    wsect x (splice buf (Z.to_nat (u32 (off - fbn * BLOCK_SIZE))) (take (Z.to_nat n1) p));;
    mret (inl (u32 (off + n1), drop (Z.to_nat n1) p, din))
  else mret (inr (off, din)).
Definition iappend (inum : Z) (p : list Z) : M fsimg unit :=
  din ← rinode inum;
  '(off, din) ← loop (S (length p)) iappend_step (xint (num_bytes din), p, din);
  winode inum (set_num_bytes (xint off) din).

(** ** The bitmap and the whole image *)
Definition bit_buf (used : Z) : list Z :=
  foldl (λ buf i, alter (λ c, Z.lor c (u8 (Z.shiftl 1 (i mod 8)))) (Z.to_nat (i / 8)) buf) zeroes (seqZ 0 used).
Definition balloc (used : Z) : M fsimg unit :=
  assert (bool_decide (used < BLOCK_SIZE * 8));;
  b ← gets sb;
  wsect (bitmap_start b) (bit_buf used).

(** [strncpy(de.name, s, DIRSIZ)] into a cleared entry *)
Definition dir_name (s : list Z) : list Z := take 14 (s ++ replicate 14 0).
Definition entry (inum : Z) (s : list Z) : list Z := dirent_bytes (mkDirent (xshort inum) (dir_name s)).

(** The loop over [argv[i]]: the number of characters after the last slash. *)
Definition name_length (path : list Z) : Z :=
  foldl (λ j c, (if decide (c = 47) then -1 else j) + 1) 0 path.
Definition base_name (path : list Z) : list Z := drop (length path - Z.to_nat (name_length path)) path.
(** Without a leading underscore *)
Definition skip_underscore (s : list Z) : list Z := if decide (hd 0 s = 95) then tail s else s.

Section main.
Context (host_open : list Z → option (list (list Z))).

Definition add_file (rootino : Z) (path : list Z) : M fsimg unit :=
  let s := base_name path in
  assert (bool_decide (47 ∉ s));;
  match host_open path with
  | None => panic
  | Some chunks =>
      inum ← ialloc INODE_REGULAR;
      iappend rootino (entry inum (skip_underscore s));;
      for_each chunks (iappend inum)
  end.

Definition nmeta : Z := 2 + LOG_MAX_SIZE + ninodeblocks + nbitmap.
Definition make_super : SuperBlock :=
  mkSuper (xint FSSIZE) (xint (FSSIZE - nmeta)) (xint NINODES) (xint LOG_MAX_SIZE) (xint 2)
    (xint (2 + LOG_MAX_SIZE)) (xint (2 + LOG_MAX_SIZE + ninodeblocks)).
Definition super_bytes (b : SuperBlock) : list Z :=
  words_bytes [Cache.num_blocks b; num_data_blocks b; num_inodes b; num_log_blocks b; log_start b; inode_start b; bitmap_start b].

(** [main], from the opening of the image; [args] is [argv] from the third on. *)
Definition main (args : list (list Z)) : M fsimg unit :=
  modify (λ s, mkFs (img s) make_super (freeinode s) nmeta);;
  for_each (seqZ 0 FSSIZE) (λ i, wsect i zeroes);;
  b ← gets sb;
  wsect 1 (splice zeroes 0 (super_bytes b));;
  rootino ← ialloc INODE_DIRECTORY;
  assert (bool_decide (rootino = ROOT_INODE_NO));;
  iappend rootino (entry rootino [46]);;
  iappend rootino (entry rootino [46; 46]);;
  for_each args (add_file rootino);;
  din ← rinode rootino;
  let off := u32 ((xint (num_bytes din) / BLOCK_SIZE + 1) * BLOCK_SIZE) in
  winode rootino (set_num_bytes (xint off) din);;
  used ← gets freeblock;
  balloc used.
End main.

(** The state [mkfs] starts in: the file is empty, [uint freeinode = 1]. *)
Definition new_image : fsimg := mkFs [] (mkSuper 0 0 0 0 0 0 0) 1 0.
