(* ===== verification/MkfsSpec.v ===== *)
(** * What the operations of [mkfs] do to the image

    A file is described by the numbers of its blocks, the number of its indirect
    block and its bytes; [fs_ok] says that the image holds a family of such files
    which own disjoint blocks, and zeros in every block not allocated yet. *)
From S2P Require Import Prelude Words Cache Mkfs.

(** ** Buffers *)
Section buffers.
Implicit Types (buf p : list Z) (off i k : nat) (ds : list (list Z)).

Lemma length_splice buf off p : (off + length p ≤ length buf)%nat → length (splice buf off p) = length buf.
Proof. intros. unfold splice. rewrite !length_app, length_take, length_drop. lia. Qed.

Lemma splice_lookup buf off p i : (off + length p ≤ length buf)%nat →
  splice buf off p !! i = if decide (off ≤ i < off + length p)%nat then p !! (i - off)%nat else buf !! i.
Proof.
  intros H. unfold splice. destruct (decide (i < off)%nat).
  - rewrite decide_False by lia. rewrite lookup_app_l by (rewrite length_take; lia). apply lookup_take_lt. lia.
  - rewrite lookup_app_r by (rewrite length_take; lia). rewrite length_take, Nat.min_l by lia. case_decide.
    + apply lookup_app_l. lia.
    + rewrite lookup_app_r by lia. rewrite lookup_drop. f_equal. lia.
Qed.

Lemma splice_app (l1 l2 : list Z) p : splice (l1 ++ l2) (length l1) p = l1 ++ p ++ drop (length p) l2.
Proof. unfold splice. rewrite take_app_length. by rewrite <-drop_drop, drop_app_length. Qed.

Lemma splice_inside (l1 l2 : list Z) buf off p : (off + length p ≤ length buf)%nat →
  splice (l1 ++ buf ++ l2) (length l1 + off) p = l1 ++ splice buf off p ++ l2.
Proof.
  intros H. unfold splice. rewrite take_app_add, take_app_le by lia.
  rewrite <-Nat.add_assoc, drop_app_add, drop_app_le by lia. by rewrite <-!app_assoc.
Qed.

Lemma length_mjoin ds n : Forall (λ d, length d = n) ds → length (mjoin ds) = (n * length ds)%nat.
Proof.
  induction 1 as [|d ds Hd _ IH]; [simpl; lia|]. change (mjoin (d :: ds)) with (d ++ mjoin ds).
  rewrite length_app, IH, Hd. simpl. lia.
Qed.

(** Overwriting a part of one block overwrites the same part of the whole. *)
Lemma mjoin_splice ds k d off p : Forall (λ d, length d = 512%nat) ds → ds !! k = Some d → (off + length p ≤ 512)%nat →
  mjoin (<[k := splice d off p]> ds) = splice (mjoin ds) (512 * k + off) p.
Proof.
  intros H Hk Ho. pose proof (lookup_lt_Some _ _ _ Hk) as Hlt.
  rewrite insert_take_drop by done. rewrite <-(take_drop_middle ds k d Hk) at 3.
  rewrite !join_app. change (mjoin (?a :: ?l)) with (a ++ mjoin l).
  assert (Hl : length (mjoin (take k ds)) = (512 * k)%nat).
  { rewrite (length_mjoin _ 512) by by apply Forall_take. rewrite length_take. lia. }
  rewrite <-Hl. rewrite splice_inside; [done|]. rewrite Forall_lookup in H. by rewrite (H _ _ Hk).
Qed.

(** A slot of a buffer is not touched by a write to another slot. *)
Lemma slot_same buf p n k : length p = n → (n * k + n ≤ length buf)%nat → take n (drop (n * k) (splice buf (n * k) p)) = p.
Proof.
  intros Hp H. apply list_eq. intros i. destruct (decide (i < n)%nat).
  - rewrite lookup_take_lt, lookup_drop, splice_lookup, decide_True by lia. f_equal. lia.
  - rewrite lookup_take_ge by lia. symmetry. apply lookup_ge_None. lia.
Qed.
Lemma slot_other buf p n j k : j ≠ k → length p = n → (n * k + n ≤ length buf)%nat →
  take n (drop (n * j) (splice buf (n * k) p)) = take n (drop (n * j) buf).
Proof.
  intros Hne Hp H. apply list_eq. intros i. destruct (decide (i < n)%nat).
  - assert (Ho : ¬ (n * k ≤ n * j + i < n * k + length p)%nat).
    { destruct (Nat.lt_total j k) as [Hj|[?|Hj]]; [|done|];
        pose proof (Nat.mul_le_mono_l _ _ n Hj) as Hm; rewrite Nat.mul_succ_r in Hm; lia. }
    rewrite !lookup_take_lt, !lookup_drop, splice_lookup by lia. by rewrite decide_False.
  - by rewrite !lookup_take_ge by lia.
Qed.
End buffers.

(** ** Encodings *)
Lemma xint_id x : in_u 32 x → xint x = x.
Proof.
  intros [H1 H2]. unfold xint, u8, wrap. rewrite !Z.shiftr_div_pow2 by lia. cbn [le_val].
  change (2 ^ 8) with 256. change (2 ^ 16) with (256 * 256). change (2 ^ 24) with (256 * 256 * 256).
  change (2 ^ 32) with (256 * 256 * 256 * 256) in H2. rewrite <-!Z.div_div by lia.
  Z.to_euclidean_division_equations. lia.
Qed.
Lemma xshort_id x : in_u 16 x → xshort x = x.
Proof.
  intros [H1 H2]. unfold xshort, u8, wrap. rewrite !Z.shiftr_div_pow2 by lia. cbn [le_val].
  change (2 ^ 8) with 256. change (2 ^ 16) with (256 * 256) in H2. Z.to_euclidean_division_equations. lia.
Qed.

Lemma sector_eq n : 0 ≤ n < 1000 → sector n = Z.to_nat n.
Proof. intros H. unfold sector, BLOCK_SIZE. rewrite u32_small by (split; lia). by rewrite Z.div_mul. Qed.

Definition pad (n : nat) (l : list Z) : list Z := l ++ replicate (n - length l) 0.

Lemma length_pad n l : (length l ≤ n)%nat → length (pad n l) = n.
Proof. intros. unfold pad. rewrite length_app, length_replicate. lia. Qed.
Lemma pad_lookup n l k : (k < n)%nat → pad n l !! k = Some (default 0 (l !! k)).
Proof.
  intros H. unfold pad. destruct (decide (k < length l)%nat) as [Hk|Hk].
  - rewrite lookup_app_l by done. destruct (lookup_lt_is_Some_2 l k Hk) as [x ->]. done.
  - rewrite lookup_app_r, lookup_replicate_2 by lia. by rewrite lookup_ge_None_2 by lia.
Qed.
Lemma pad_snoc n l x : (length l < n)%nat → <[length l := x]> (pad n l) = pad n (l ++ [x]).
Proof.
  intros H. unfold pad. rewrite length_app. cbn [length]. replace (n - length l)%nat with (S (n - (length l + 1)))%nat by lia.
  rewrite insert_app_r_alt, Nat.sub_diag by done. by rewrite <-app_assoc.
Qed.
Lemma pad_take (n : nat) l x : (n ≤ length l)%nat → pad n (take n (l ++ [x])) = pad n (take n l).
Proof. intros. by rewrite take_app_le. Qed.

Lemma length_words_bytes ws n : length (mjoin (le_bytes n <$> ws)) = (n * length ws)%nat.
Proof.
  rewrite (length_mjoin _ n), length_fmap; [done|]. apply Forall_fmap, Forall_true. intros v. apply length_le_bytes.
Qed.
Lemma words_words_bytes ws : length ws = 128%nat → Forall (in_u 32) ws → words (words_bytes ws) = ws.
Proof. intros Hl Hw. unfold words, words_bytes. rewrite <-Hl, pieces_bytes. by apply le_val_words. Qed.
Lemma words_zeroes : words zeroes = pad 128 [].
Proof. by vm_compute. Qed.

Record din_ok (d : dinode) : Prop := {
  d_type : in_u 16 (dtype d); d_major : in_u 16 (major d); d_minor : in_u 16 (minor d); d_links : in_u 16 (num_links d);
  d_bytes : in_u 32 (num_bytes d); d_addrs : length (addrs d) = 12%nat ∧ Forall (in_u 32) (addrs d); d_ind : in_u 32 (indirect d)
}.

Lemma length_dinode_bytes d : length (addrs d) = 12%nat → length (dinode_bytes d) = 64%nat.
Proof. intros H. unfold dinode_bytes. by rewrite !length_app, !length_le_bytes, length_words_bytes, H. Qed.

Lemma take_le_bytes n v l : take n (le_bytes n v ++ l) = le_bytes n v.
Proof. apply take_app_length'. by rewrite length_le_bytes. Qed.
Lemma drop_le_bytes n v l k : (n ≤ k)%nat → drop k (le_bytes n v ++ l) = drop (k - n) l.
Proof. intros. rewrite drop_app_ge by by rewrite length_le_bytes. by rewrite length_le_bytes. Qed.

Lemma pieces_app n ws l : pieces n (length ws) (mjoin (le_bytes n <$> ws) ++ l) = le_bytes n <$> ws.
Proof.
  induction ws as [|w ws IH]; [done|]. rewrite fmap_cons. change (mjoin (?a :: ?x)) with (a ++ mjoin x). rewrite <-app_assoc.
  cbn [length pieces]. rewrite take_le_bytes, drop_le_bytes by done. rewrite Nat.sub_diag. by rewrite drop_0, IH.
Qed.

(** An inode written to the disk is read back as it was. *)
Lemma dinode_of_bytes d : din_ok d → dinode_of (dinode_bytes d) = d.
Proof.
  intros [H1 H2 H3 H4 H5 [H6 H6'] H7]. unfold dinode_of, dinode_bytes.
  rewrite !(drop_le_bytes 2 (dtype d)) by lia. cbn [Nat.sub]. rewrite drop_0.
  rewrite !(drop_le_bytes 2 (major d)) by lia. cbn [Nat.sub]. rewrite drop_0.
  rewrite !(drop_le_bytes 2 (minor d)) by lia. cbn [Nat.sub]. rewrite drop_0.
  rewrite !(drop_le_bytes 2 (num_links d)) by lia. cbn [Nat.sub]. rewrite drop_0.
  rewrite !(drop_le_bytes 4 (num_bytes d)) by lia. cbn [Nat.sub]. rewrite drop_0.
  rewrite !take_le_bytes, !le_val_bytes by done.
  rewrite (drop_app_length' (mjoin (le_bytes 4 <$> addrs d))) by by rewrite length_words_bytes, H6.
  rewrite <-H6, pieces_app, le_val_words by done. rewrite <-(app_nil_r (le_bytes 4 (indirect d))), take_le_bytes, le_val_bytes by done.
  by destruct d.
Qed.

(** ** The blocks of one file *)
Section blocks.
Implicit Types (im : list (list Z)) (din : dinode) (bs : list Z) (ib n x fb : Z) (ds : list (list Z)) (s : fsimg).

(** [din] names the blocks [bs] and the indirect block [ib] (0 without one); the
    blocks hold [ds]. *)
Record holds im din bs ib ds : Prop := {
  h_addrs : addrs din = pad 12 (take 12 bs);
  h_ind : indirect din = ib;
  h_iblk : if decide (length bs ≤ 12)%nat then ib = 0
           else ib ≠ 0 ∧ ∃ b, im !! Z.to_nat ib = Some b ∧ words b = pad 128 (drop 12 bs);
  h_max : (length bs ≤ 140)%nat;
  h_data : Forall2 (λ x d, im !! Z.to_nat x = Some d) bs ds
}.
Definition owned bs ib : list Z := if decide (ib = 0) then bs else ib :: bs.
Record owns fb bs ib : Prop := { o_nodup : NoDup (owned bs ib); o_range : ∀ x, x ∈ owned bs ib → nmeta ≤ x < fb }.

(** The image has all its sectors, and zeros from [fb] on. *)
Record roomy im fb : Prop := {
  r_len : length im = 1000%nat; r_sect : Forall (λ d, length d = 512%nat) im; r_fb : nmeta ≤ fb ≤ FSSIZE;
  r_fresh : ∀ n, fb ≤ n < FSSIZE → im !! Z.to_nat n = Some zeroes
}.

Lemma owned_bs bs ib x : x ∈ bs → x ∈ owned bs ib.
Proof. intros. unfold owned. case_decide; [done|]. by right. Qed.
Lemma owned_ib bs ib : ib ≠ 0 → ib ∈ owned bs ib.
Proof. intros. unfold owned. rewrite decide_False by done. by left. Qed.
Lemma owns_apart fb bs ib : owns fb bs ib → NoDup bs ∧ ib ∉ bs.
Proof.
  intros [H1 H2]. unfold owned in *. case_decide as E.
  - split; [done|]. intros H%H2. subst ib. change nmeta with 92 in H. lia.
  - by apply NoDup_cons in H1 as [? ?].
Qed.
Lemma owns_word fb bs ib x : owns fb bs ib → fb ≤ FSSIZE → x ∈ owned bs ib → in_u 32 x ∧ x ≠ 0 ∧ 0 ≤ x < 1000.
Proof. intros [_ H] Hf Hx%H. change nmeta with 92 in Hx. unfold FSSIZE in *. split; [split; lia|lia]. Qed.

Lemma wsect_done n buf s : 0 ≤ n < 1000 → length (img s) = 1000%nat →
  wsect n buf s = Done (tt, set_img (<[Z.to_nat n := buf]> (img s)) s).
Proof. intros Hn Hl. unfold wsect, modify. rewrite sector_eq by done. by rewrite decide_True by lia. Qed.
Lemma rsect_done n b s : 0 ≤ n < 1000 → img s !! Z.to_nat n = Some b → rsect n s = Done (b, s).
Proof. intros Hn Hb. unfold rsect. by rewrite sector_eq, Hb. Qed.
Lemma next_block_done s : nmeta ≤ freeblock s < FSSIZE →
  next_block s = Done (freeblock s, mkFs (img s) (sb s) (freeinode s) (freeblock s + 1)).
Proof.
  intros H. unfold next_block. m_unfold. unfold gets, modify. rewrite u32_small; [done|].
  change nmeta with 92 in H. unfold FSSIZE in H. split; lia.
Qed.

Lemma roomy_write im fb n buf : roomy im fb → length buf = 512%nat → 0 ≤ n < fb → roomy (<[Z.to_nat n := buf]> im) fb.
Proof.
  intros [H1 H2 H3 H4] Hb Hn. split; [by rewrite length_insert|by apply Forall_insert|done|].
  intros m Hm. rewrite list_lookup_insert_ne by lia. by apply H4.
Qed.
Lemma roomy_mono im fb fb' : roomy im fb → fb ≤ fb' ≤ FSSIZE → roomy im fb'.
Proof. intros [H1 H2 H3 H4] Hf. split; [done|done|lia|]. intros m Hm. apply H4. lia. Qed.

Lemma nth_word_pad (n : nat) l (k : nat) : (k < n)%nat → nth_word (pad n l) (Z.of_nat k) = default 0 (l !! k).
Proof. intros H. unfold nth_word. by rewrite Nat2Z.id, pad_lookup. Qed.

Lemma file_block_old s din bs ib ds k x : holds (img s) din bs ib ds → owns (freeblock s) bs ib → freeblock s ≤ FSSIZE →
  bs !! k = Some x → file_block din (Z.of_nat k) s = Done ((x, din), s).
Proof.
  intros [H1 H2 H3 H4 _] Ho Hf Hk. pose proof (lookup_lt_Some _ _ _ Hk) as Hlt.
  destruct (owns_word _ _ _ x Ho Hf) as (Hx & Hx0 & _); [by apply owned_bs, (list_elem_of_lookup_2 _ k)|].
  unfold file_block, INODE_NUM_DIRECT. destruct (decide (Z.of_nat k < 12)) as [Hd|Hd].
  - assert (E : nth_word (addrs din) (Z.of_nat k) = x).
    { by rewrite H1, nth_word_pad, lookup_take_lt, Hk by lia. }
    rewrite E, decide_False by by rewrite xint_id. m_step (ret_done din s). cbv beta. by rewrite E, xint_id.
  - rewrite decide_False in H3 by lia. destruct H3 as (Hib & b & Hb & Hw).
    destruct (owns_word _ _ _ ib Ho Hf) as (Hi & Hi0 & Hir); [by apply owned_ib|].
    rewrite H2, xint_id, decide_False by done. m_step (ret_done din s). cbv beta. rewrite H2, xint_id by done.
    assert (E : nth_word (words b) (Z.of_nat k - 12) = x).
    { replace (Z.of_nat k - 12) with (Z.of_nat (k - 12)) by lia. rewrite Hw, nth_word_pad, lookup_drop by lia.
      replace (12 + (k - 12))%nat with k by lia. by rewrite Hk. }
    unfold indirect_block. rewrite (bind_done _ _ s x s); [done|]. m_step (rsect_done ib b s Hir Hb).
    cbv zeta. rewrite E, decide_False by done. by rewrite xint_id.
Qed.

Lemma indirect_new s ib b l : img s !! Z.to_nat ib = Some b → words b = pad 128 l → (length l < 128)%nat → 0 ≤ ib < 1000 →
  length (img s) = 1000%nat → nmeta ≤ freeblock s < FSSIZE →
  indirect_block ib (Z.of_nat (length l)) s =
    Done (freeblock s, mkFs (<[Z.to_nat ib := words_bytes (pad 128 (l ++ [freeblock s]))]> (img s)) (sb s) (freeinode s) (freeblock s + 1)).
Proof.
  intros Hb Hw Hl Hi Hlen Hf. assert (Hu : in_u 32 (freeblock s)) by (change nmeta with 92 in Hf; unfold FSSIZE in Hf; split; lia).
  unfold indirect_block. m_step (rsect_done ib b s Hi Hb). cbv zeta. rewrite Hw, nth_word_pad by done.
  rewrite lookup_ge_None_2 by done. rewrite decide_True by done. m_step (next_block_done s Hf).
  rewrite (xint_id (freeblock s)), Nat2Z.id, pad_snoc by done.
  m_step (wsect_done ib (words_bytes (pad 128 (l ++ [freeblock s]))) (mkFs (img s) (sb s) (freeinode s) (freeblock s + 1)) Hi Hlen).
  rewrite nth_word_pad, lookup_app_r, Nat.sub_diag by done. cbn [lookup list_lookup default]. by rewrite xint_id.
Qed.

(** The fields the allocation of blocks leaves as they are. *)
Definition same_head din din' : Prop :=
  dtype din' = dtype din ∧ major din' = major din ∧ minor din' = minor din ∧ num_links din' = num_links din ∧ num_bytes din' = num_bytes din.
(** The blocks a new block [k] takes. *)
Definition needed (k : nat) : Z := if decide (k = 12%nat) then 2 else 1.

Record extended s din' im' bs' ib' ds' fb' (old : list Z) : Prop := {
  x_holds : holds im' din' bs' ib' ds';
  x_roomy : roomy im' fb';
  x_owns : owns fb' bs' ib';
  x_keep : ∀ y, y ∈ old → y ∈ owned bs' ib';
  x_new : ∀ y, y ∈ owned bs' ib' → y ∈ old ∨ freeblock s ≤ y;
  x_frame : ∀ n, 0 ≤ n → n ∉ owned bs' ib' → im' !! Z.to_nat n = img s !! Z.to_nat n
}.

Lemma owns_extend fb bs ib fb' : owns fb bs ib → fb < fb' → ib ≠ 0 ∨ fb' = fb + 1 ∧ ib = 0 → nmeta ≤ fb → owns fb' (bs ++ [fb]) ib.
Proof.
  intros Ho Hf Hi Hm. destruct Ho as [H1 H2].
  assert (E : owned (bs ++ [fb]) ib = owned bs ib ++ [fb]) by (unfold owned; by case_decide).
  split; rewrite E.
  - apply NoDup_app. split; [done|]. split; [|by apply NoDup_singleton]. intros x Hx%H2 ->%list_elem_of_singleton. lia.
  - intros x [Hx%H2| ->%list_elem_of_singleton]%elem_of_app; lia.
Qed.
Lemma extend_in bs ib x y : y ∈ owned bs ib → y ∈ owned (bs ++ [x]) ib.
Proof. unfold owned. case_decide; rewrite ?elem_of_cons, elem_of_app; tauto. Qed.
Lemma in_extend bs ib x y : y ∈ owned (bs ++ [x]) ib → y ∈ owned bs ib ∨ y = x.
Proof.
  unfold owned. case_decide.
  - rewrite elem_of_app, list_elem_of_singleton. tauto.
  - rewrite !elem_of_cons, elem_of_app, list_elem_of_singleton. tauto.
Qed.

(** Blocks that were not written hold what they held before. *)
Lemma data_frame im im' bs ds : Forall2 (λ x d, im !! Z.to_nat x = Some d) bs ds →
  (∀ x, x ∈ bs → im' !! Z.to_nat x = im !! Z.to_nat x) → Forall2 (λ x d, im' !! Z.to_nat x = Some d) bs ds.
Proof.
  induction 1 as [|x d bs ds Hx _ IH]; intros H; constructor.
  - rewrite H; [done|by left].
  - apply IH. intros y Hy. apply H. by right.
Qed.

(** The next block of a file: a direct one, the first behind the direct ones, which
    takes an indirect block as well, or a later one. *)
Lemma file_block_direct s din bs ds : holds (img s) din bs 0 ds → owns (freeblock s) bs 0 → roomy (img s) (freeblock s) →
  (length bs < 12)%nat → freeblock s < FSSIZE →
  ∃ din', file_block din (Z.of_nat (length bs)) s =
      Done ((freeblock s, din'), mkFs (img s) (sb s) (freeinode s) (freeblock s + 1)) ∧ same_head din din' ∧
    extended s din' (img s) (bs ++ [freeblock s]) 0 (ds ++ [zeroes]) (freeblock s + 1) (owned bs 0).
Proof.
  intros [H1 H2 H3 H4 H5] Ho Hr Hk Hf. pose proof (r_fb _ _ Hr) as Hm.
  assert (Hu : in_u 32 (freeblock s)) by (change nmeta with 92 in Hm; unfold FSSIZE in Hf; split; lia).
  exists (set_addr (Z.of_nat (length bs)) (freeblock s) din).
  assert (Ea : addrs (set_addr (Z.of_nat (length bs)) (freeblock s) din) = pad 12 (bs ++ [freeblock s])).
  { simpl. rewrite Nat2Z.id, H1, take_ge by lia. by apply pad_snoc. }
  split; [|split; [done|split]].
  - unfold file_block, INODE_NUM_DIRECT. rewrite decide_True by lia.
    rewrite H1, (take_ge bs), nth_word_pad, lookup_ge_None_2 by lia. rewrite decide_True by done.
    rewrite (bind_done _ _ s (set_addr (Z.of_nat (length bs)) (freeblock s) din) (mkFs (img s) (sb s) (freeinode s) (freeblock s + 1))).
    + rewrite Ea, nth_word_pad, lookup_app_r, Nat.sub_diag by lia. cbn [lookup list_lookup default]. by rewrite xint_id.
    + rewrite (bind_done _ _ s _ _ (next_block_done s ltac:(lia))). by rewrite xint_id.
  - split; [by rewrite Ea, take_ge by (rewrite length_app; simpl; lia)|done| | |].
    + rewrite decide_True; [done|]. rewrite length_app. simpl. lia.
    + rewrite length_app. simpl. lia.
    + apply Forall2_app; [done|]. constructor; [|constructor]. apply (r_fresh _ _ Hr). lia.
  - eapply roomy_mono; [done|lia].
  - eapply owns_extend; [done|lia|by right|lia].
  - intros y. apply extend_in.
  - intros y [Hy| ->]%in_extend; [by left|right; lia].
  - done.
Qed.

Lemma words_ok ws : Forall (in_u 32) ws → (length ws ≤ 128)%nat → words (words_bytes (pad 128 ws)) = pad 128 ws.
Proof.
  intros Hw Hl. apply words_words_bytes; [by apply length_pad|]. apply Forall_app. split; [done|].
  apply Forall_replicate. split; lia.
Qed.

(** With an indirect block [ib] in place: the image after the new block has got its number. *)
Lemma indirect_holds im din bs ib ds b fb : addrs din = pad 12 (take 12 bs) → indirect din = ib →
  im !! Z.to_nat ib = Some b → Forall2 (λ x d, im !! Z.to_nat x = Some d) bs ds →
  (12 ≤ length bs < 140)%nat → owns fb bs ib → ib ≠ 0 → roomy im fb → fb < FSSIZE →
  let im' := <[Z.to_nat ib := words_bytes (pad 128 (drop 12 bs ++ [fb]))]> im in
  holds im' din (bs ++ [fb]) ib (ds ++ [zeroes]) ∧ roomy im' (fb + 1) ∧ owns (fb + 1) (bs ++ [fb]) ib.
Proof.
  intros Ha Hi Hb Hd Hk Ho H0 Hr Hf im'. pose proof (r_fb _ _ Hr) as Hm. pose proof (r_len _ _ Hr) as Hlen.
  assert (Ho' : owns (fb + 1) (bs ++ [fb]) ib) by (eapply owns_extend; [done|lia|by left|lia]).
  assert (Hw : ∀ x, x ∈ owned (bs ++ [fb]) ib → in_u 32 x ∧ x ≠ 0 ∧ 0 ≤ x < 1000).
  { intros x Hx. eapply owns_word; [done|lia|done]. }
  destruct (Hw ib) as (_ & _ & Hir); [by apply owned_ib|]. destruct (owns_apart _ _ _ Ho') as [_ Hnot].
  assert (Hl : length (drop 12 bs ++ [fb]) = (length bs - 11)%nat) by (rewrite length_app, length_drop; simpl; lia).
  assert (Hbuf : length (words_bytes (pad 128 (drop 12 bs ++ [fb]))) = 512%nat).
  { unfold words_bytes. by rewrite length_words_bytes, length_pad by lia. }
  split; [|split; [|done]].
  - split.
    + by rewrite take_app_le by lia.
    + done.
    + rewrite decide_False by (rewrite length_app; simpl; lia). split; [done|]. eexists. split.
      { apply list_lookup_insert_eq. lia. }
      rewrite drop_app_le by lia. apply words_ok; [|lia]. apply Forall_forall. intros x Hx.
      apply Hw, owned_bs. rewrite elem_of_app in *. destruct Hx as [Hx|Hx]; [left|by right].
      apply list_elem_of_lookup in Hx as [i Hx]. rewrite lookup_drop in Hx. by eapply list_elem_of_lookup_2.
    + rewrite length_app. simpl. lia.
    + apply (data_frame im).
      * apply Forall2_app; [done|]. constructor; [|constructor]. apply (r_fresh _ _ Hr). lia.
      * intros x Hx. apply list_lookup_insert_ne. intros E. destruct (Hw x) as (_ & _ & Hxr); [by apply owned_bs|].
        assert (x = ib) as -> by lia. done.
  - apply (roomy_mono _ fb); [|lia]. apply roomy_write; [done..|].
    destruct Ho as [_ Hrange]. specialize (Hrange ib (owned_ib _ _ H0)). lia.
Qed.

Lemma file_block_new s din bs ib ds : holds (img s) din bs ib ds → owns (freeblock s) bs ib → roomy (img s) (freeblock s) →
  (length bs < 140)%nat → freeblock s + needed (length bs) ≤ FSSIZE →
  ∃ x din' im' ib', let fb' := freeblock s + needed (length bs) in
    file_block din (Z.of_nat (length bs)) s = Done ((x, din'), mkFs im' (sb s) (freeinode s) fb') ∧ same_head din din' ∧
    extended s din' im' (bs ++ [x]) ib' (ds ++ [zeroes]) fb' (owned bs ib).
Proof.
  intros H Ho Hr Hk Hf. pose proof (r_fb _ _ Hr) as Hm. pose proof (r_len _ _ Hr) as Hlen. unfold needed in *.
  destruct (decide (length bs < 12)%nat) as [Hd|Hd].
  { pose proof (h_iblk _ _ _ _ _ H) as Hi. rewrite decide_True in Hi by lia. subst ib. rewrite decide_False in * by lia.
    destruct (file_block_direct s din bs ds H Ho Hr Hd ltac:(lia)) as (din' & E & Hh & Hx).
    by exists (freeblock s), din', (img s), 0. }
  assert (Hu : in_u 32 (freeblock s)) by (change nmeta with 92 in Hm; unfold FSSIZE in Hm; split; lia).
  destruct H as [H1 H2 H3 H4 H5]. unfold file_block, INODE_NUM_DIRECT. rewrite decide_False by lia.
  replace (Z.of_nat (length bs) - 12) with (Z.of_nat (length (drop 12 bs))) by (rewrite length_drop; lia).
  assert (Hl : (length (drop 12 bs) < 128)%nat) by (rewrite length_drop; lia).
  destruct (decide (length bs = 12%nat)) as [H12|H12].
  - (* a first indirect block *)
    rewrite decide_True in H3 by lia. subst ib. rewrite H3, decide_True by done. set (fb := freeblock s) in *.
    set (s1 := mkFs (img s) (sb s) (freeinode s) (fb + 1)). set (din1 := set_indirect fb din).
    assert (Hr1 : roomy (img s) (fb + 1)) by (eapply roomy_mono; [done|lia]).
    assert (Hz : img s !! Z.to_nat fb = Some zeroes) by (apply (r_fresh _ _ Hr); unfold fb in *; lia).
    assert (Hw : words zeroes = pad 128 (drop 12 bs)) by (rewrite drop_ge by lia; exact words_zeroes).
    assert (Hne : fb ≠ 0) by (change nmeta with 92 in Hm; lia). rewrite H3 in Ho.
    assert (Ho1 : owns (fb + 1) bs fb).
    { destruct Ho as [N R]. unfold owned in *. rewrite decide_True in N, R by done. split; unfold owned; rewrite decide_False by done.
      - apply NoDup_cons. split; [|done]. intros Hin%R. lia.
      - intros x [->|Hx%R]%elem_of_cons; lia. }
    destruct (indirect_holds (img s) din1 bs fb ds zeroes (fb + 1) H1 eq_refl Hz H5 ltac:(lia) Ho1 Hne Hr1 ltac:(lia)) as (X1 & X2 & X3).
    eexists (fb + 1), din1, _, fb. replace (fb + 2) with (fb + 1 + 1) by lia. split; [|split; [done|split; [exact X1|exact X2|exact X3| | |]]].
    + rewrite (bind_done _ _ s din1 s1).
      2:{ rewrite (bind_done _ _ s _ _ (next_block_done s ltac:(unfold fb in *; lia))). by rewrite xint_id. }
      simpl indirect. rewrite xint_id by done.
      rewrite (bind_done _ _ s1 _ _ (indirect_new s1 fb zeroes (drop 12 bs) Hz Hw Hl ltac:(change nmeta with 92 in Hm; unfold FSSIZE in *; lia) Hlen ltac:(simpl; lia))).
      done.
    + intros y Hy. by apply extend_in, owned_bs.
    + intros y [Hy| ->]%in_extend; [|right; unfold fb; lia]. unfold owned in Hy. rewrite decide_False in Hy by done.
      apply elem_of_cons in Hy as [->|Hy]; [right; done|by left; apply owned_bs].
    + intros n Hn Hx. apply list_lookup_insert_ne. intros E. apply Hx. assert (n = fb) as -> by (change nmeta with 92 in Hm; lia). by apply owned_ib.
  - (* a place in the indirect block *)
    rewrite decide_False in H3 by lia. destruct H3 as (Hne & b & Hb & Hw). rewrite H2.
    destruct (owns_word _ _ _ ib Ho ltac:(lia)) as (Hi & _ & Hir); [by apply owned_ib|]. rewrite xint_id, decide_False by done.
    destruct (indirect_holds (img s) din bs ib ds b (freeblock s) H1 H2 Hb H5 ltac:(lia) Ho Hne Hr ltac:(lia)) as (X1 & X2 & X3).
    eexists (freeblock s), din, _, ib. split; [|split; [done|split; [exact X1|exact X2|exact X3| | |]]].
    + m_step (ret_done din s). cbv beta. rewrite H2, xint_id by done.
      rewrite (bind_done _ _ s _ _ (indirect_new s ib b (drop 12 bs) Hb Hw Hl Hir Hlen ltac:(lia))). done.
    + intros y. apply extend_in.
    + intros y [Hy| ->]%in_extend; [by left|right; lia].
    + intros n Hn Hx. apply list_lookup_insert_ne. intros E. apply Hx. assert (n = ib) as -> by lia. by apply owned_ib.
Qed.

(** The blocks that [n] bytes fill, and with the indirect block the ones they cost. *)
Definition nblocks (n : nat) : nat := ((n + 511) / 512)%nat.
Definition blocks_for (n : nat) : Z := Z.of_nat (nblocks n) + (if decide (nblocks n ≤ 12)%nat then 0 else 1).

Lemma nblocks_in k o : (0 < o ≤ 512)%nat → nblocks (512 * k + o) = S k.
Proof. intros H. unfold nblocks. symmetry. apply (Nat.div_unique _ _ _ (o - 1)); lia. Qed.
Lemma nblocks_mul k : nblocks (512 * k) = k.
Proof. unfold nblocks. symmetry. apply (Nat.div_unique _ _ _ 511); lia. Qed.
Lemma nblocks_mono (n m : nat) : (n ≤ m)%nat → (nblocks n ≤ nblocks m)%nat.
Proof. intros. unfold nblocks. apply Nat.Div0.div_le_mono. lia. Qed.
Lemma blocks_for_mono (n m : nat) : (n ≤ m)%nat → blocks_for n ≤ blocks_for m.
Proof. intros H%nblocks_mono. unfold blocks_for. repeat case_decide; lia. Qed.

(** The file holds the bytes [dat]; the rest of its last block is zero. *)
Definition contains im din bs ib (dat : list Z) : Prop := ∃ ds, holds im din bs ib ds ∧
  mjoin ds = dat ++ replicate (512 * length bs - length dat) 0 ∧ length bs = nblocks (length dat).

Lemma holds_write im din bs ib ds fb k x d : holds im din bs ib ds → owns fb bs ib → fb ≤ FSSIZE → (length im = 1000)%nat → bs !! k = Some x →
  holds (<[Z.to_nat x := d]> im) din bs ib (<[k := d]> ds).
Proof.
  intros [H1 H2 H3 H4 H5] Ho Hf Hlen Hk. destruct (owns_apart _ _ _ Ho) as [Nd Hni].
  destruct (owns_word _ _ _ x Ho Hf) as (_ & _ & Hxr); [by apply owned_bs, (list_elem_of_lookup_2 _ k)|].
  split; [done|done| |done|].
  - case_decide as Hl; [done|]. destruct H3 as (H0 & b & Hb & Hw). split; [done|]. exists b. split; [|done].
    destruct (owns_word _ _ _ ib Ho Hf) as (_ & _ & Hir); [by apply owned_ib|].
    rewrite list_lookup_insert_ne; [done|]. intros E. assert (x = ib) as -> by lia. by apply Hni, (list_elem_of_lookup_2 _ k).
  - apply Forall2_lookup. intros i. pose proof (proj1 (Forall2_lookup _ _ _) H5 i) as Hi.
    destruct (decide (i = k)) as [->|Hne].
    + rewrite Hk in *. pose proof (lookup_lt_Some _ _ _ Hk). rewrite (Forall2_length _ _ _ H5) in *. rewrite list_lookup_insert_eq by done.
      constructor. apply list_lookup_insert_eq. lia.
    + rewrite list_lookup_insert_ne by done. destruct (bs !! i) as [y|] eqn:Ey, (ds !! i) as [e|] eqn:Ed; inversion Hi; constructor; subst.
      destruct (owns_word _ _ _ y Ho Hf) as (_ & _ & Hyr); [by apply owned_bs, (list_elem_of_lookup_2 _ i)|].
      rewrite list_lookup_insert_ne; [done|]. intros E. assert (x = y) as -> by lia. by apply Hne, (NoDup_lookup bs _ _ y).
Qed.

Lemma mjoin_length im din bs ib ds fb : holds im din bs ib ds → roomy im fb → Forall (λ d, length d = 512%nat) ds.
Proof.
  intros [_ _ _ _ H] Hr. pose proof (r_sect _ _ Hr) as Hs. induction H as [|x d bs ds Hx _ IH]; constructor; [|done].
  rewrite Forall_lookup in Hs. by eapply Hs.
Qed.

(** The block of the file the next byte goes to. *)
Lemma next_file_block s din bs ib dat k o : contains (img s) din bs ib dat → owns (freeblock s) bs ib → roomy (img s) (freeblock s) →
  length dat = (512 * k + o)%nat → (o < 512)%nat → (k < 140)%nat →
  freeblock s + (blocks_for (length dat + 1) - blocks_for (length dat)) ≤ FSSIZE →
  ∃ x din' im' bs' ib' ds' d, let fb' := freeblock s + (blocks_for (length dat + 1) - blocks_for (length dat)) in
    file_block din (Z.of_nat k) s = Done ((x, din'), mkFs im' (sb s) (freeinode s) fb') ∧ same_head din din' ∧
    extended s din' im' bs' ib' ds' fb' (owned bs ib) ∧ length bs' = S k ∧ bs' !! k = Some x ∧ ds' !! k = Some d ∧ im' !! Z.to_nat x = Some d ∧
    mjoin ds' = dat ++ replicate (512 * length bs' - length dat) 0.
Proof.
  intros (ds & H & Hj & Hl) Ho Hr Hdat Ho512 Hk Hf. pose proof (r_fb _ _ Hr) as Hm. unfold blocks_for in *. rewrite Hdat in *.
  rewrite <-Nat.add_assoc, (nblocks_in k (o + 1)) in * by lia. destruct (decide (o = 0%nat)) as [->|Hne].
  - rewrite Nat.add_0_r, nblocks_mul in *. subst k.
    assert (E : Z.of_nat (S (length bs)) + (if decide (S (length bs) ≤ 12)%nat then 0 else 1) - (Z.of_nat (length bs) + (if decide (length bs ≤ 12)%nat then 0 else 1)) = needed (length bs)).
    { unfold needed. repeat case_decide; lia. }
    rewrite E in *. destruct (file_block_new s din bs ib ds H Ho Hr Hk Hf) as (x & din' & im' & ib' & Eb & Hh & Hx).
    exists x, din', im', (bs ++ [x]), ib', (ds ++ [zeroes]), zeroes. cbv zeta. split; [exact Eb|]. split; [done|]. split; [done|].
    pose proof (Forall2_length _ _ _ (h_data _ _ _ _ _ H)) as Hbd.
    split; [rewrite length_app; simpl; lia|]. split; [by rewrite lookup_app_r, Nat.sub_diag|].
    split; [by rewrite lookup_app_r, Hbd, Nat.sub_diag by lia|]. split.
    + refine (Forall2_lookup_lr (λ y e, im' !! Z.to_nat y = Some e) _ _ (length bs) _ _ (h_data _ _ _ _ _ (x_holds _ _ _ _ _ _ _ _ Hx)) _ _).
      * by rewrite lookup_app_r, Nat.sub_diag.
      * by rewrite lookup_app_r, Hbd, Nat.sub_diag by lia.
    + rewrite join_app, Hj, Nat.sub_diag. change (mjoin [zeroes]) with (zeroes ++ []). cbn [replicate].
      rewrite !app_nil_r, length_app. change (length [x]) with 1%nat.
      by replace (512 * (length bs + 1) - 512 * length bs)%nat with 512%nat by lia.
  - rewrite nblocks_in in * by lia. rewrite Z.sub_diag, Z.add_0_r in *.
    destruct (lookup_lt_is_Some_2 bs k) as [x Hx]; [lia|]. pose proof (Forall2_length _ _ _ (h_data _ _ _ _ _ H)) as Hbd.
    destruct (lookup_lt_is_Some_2 ds k) as [d Hd]; [lia|].
    exists x, din, (img s), bs, ib, ds, d. cbv zeta. split; [|split; [done|]].
    + rewrite (file_block_old s din bs ib ds k x H Ho ltac:(lia) Hx). by destruct s.
    + split; [|split; [done|split; [done|split; [done|split; [|done]]]]].
      * split; [done..|by intros; left|done].
      * by refine (Forall2_lookup_lr (λ y e, img s !! Z.to_nat y = Some e) _ _ k _ _ (h_data _ _ _ _ _ H) _ _).
Qed.

(** *** Writing *)
Record grown s din' im' bs' ib' fb' dat' (old : list Z) : Prop := {
  g_contains : contains im' din' bs' ib' dat';
  g_roomy : roomy im' fb';
  g_owns : owns fb' bs' ib';
  g_keep : ∀ y, y ∈ old → y ∈ owned bs' ib';
  g_new : ∀ y, y ∈ owned bs' ib' → y ∈ old ∨ freeblock s ≤ y;
  g_frame : ∀ n, 0 ≤ n → n ∉ owned bs' ib' → im' !! Z.to_nat n = img s !! Z.to_nat n
}.

Lemma write_block s im din bs ib ds fb dat p k o x d old : extended s din im bs ib ds fb old → bs !! k = Some x → ds !! k = Some d →
  length bs = S k → length dat = (512 * k + o)%nat → (0 < length p)%nat → (o + length p ≤ 512)%nat →
  mjoin ds = dat ++ replicate (512 * length bs - length dat) 0 →
  grown s din (<[Z.to_nat x := splice d o p]> im) bs ib fb (dat ++ p) old ∧ length (splice d o p) = 512%nat.
Proof.
  intros [H Hr Ho Hkp Hn Hfr] Hx Hd Hbs Hdat Hp Hop Hj. pose proof (r_fb _ _ Hr) as Hm. pose proof (r_len _ _ Hr) as Hlen.
  pose proof (mjoin_length _ _ _ _ _ _ H Hr) as Hds. assert (Hld : length d = 512%nat) by (rewrite Forall_lookup in Hds; by eapply Hds).
  assert (Hs : length (splice d o p) = 512%nat) by (rewrite length_splice; lia).
  destruct (owns_word _ _ _ x Ho ltac:(lia)) as (_ & _ & Hxr); [by apply owned_bs, (list_elem_of_lookup_2 _ k)|].
  split; [|done]. split; [|apply roomy_write; [done..|]|done|done|done|].
  - exists (<[k := splice d o p]> ds). split; [by apply (holds_write _ _ _ _ _ fb); [..|lia|done|done]|]. split.
    + rewrite mjoin_splice, Hj by (done || lia). rewrite <-Hdat, splice_app, drop_replicate, length_app, <-app_assoc. do 3 f_equal. lia.
    + rewrite length_app, Hdat, <-Nat.add_assoc, nblocks_in by lia. done.
  - destruct Ho as [_ R]. specialize (R x). change nmeta with 92 in R. assert (92 ≤ x < fb); [|lia].
    apply R, owned_bs, (list_elem_of_lookup_2 _ k), Hx.
  - intros n Hn0 Hni. rewrite <-Hfr by done. apply list_lookup_insert_ne. intros E. apply Hni. assert (n = x) as -> by lia.
    by apply owned_bs, (list_elem_of_lookup_2 _ k).
Qed.

Lemma iappend_step_ok s din bs ib dat p : contains (img s) din bs ib dat → owns (freeblock s) bs ib → roomy (img s) (freeblock s) →
  0 < Z.of_nat (length p) < 2 ^ 31 → Z.of_nat (length dat) < 71680 → freeblock s + (blocks_for (length dat + 1) - blocks_for (length dat)) ≤ FSSIZE →
  ∃ (n1 : nat) din' im' bs' ib', let fb' := freeblock s + (blocks_for (length dat + n1) - blocks_for (length dat)) in
    (0 < n1 ≤ length p)%nat ∧ same_head din din' ∧ grown s din' im' bs' ib' fb' (dat ++ take n1 p) (owned bs ib) ∧
    iappend_step (Z.of_nat (length dat), p, din) s =
      Done (inl (Z.of_nat (length dat + n1), drop n1 p, din'), mkFs im' (sb s) (freeinode s) fb').
Proof.
  intros Hc Ho Hr Hp Hdat Hf. set (k := (length dat / 512)%nat). set (o := (length dat mod 512)%nat).
  assert (Hko : length dat = (512 * k + o)%nat) by apply Nat.div_mod_eq. assert (Ho512 : (o < 512)%nat) by by apply Nat.mod_upper_bound.
  clearbody k o. assert (Hk : (k < 140)%nat) by lia.
  destruct (next_file_block s din bs ib dat k o Hc Ho Hr Hko Ho512 Hk Hf) as (x & din' & im' & bs' & ib' & ds' & d & E & Hh & Hx & Hl & Hbx & Hdx & Hix & Hj).
  set (n1 := Nat.min (length p) (512 - o)). assert (Hn1 : (0 < n1 ≤ length p ∧ o + n1 ≤ 512)%nat) by lia.
  assert (Hlp : length (take n1 p) = n1) by (rewrite length_take; lia).
  assert (Efb : blocks_for (length dat + 1) = blocks_for (length dat + n1)).
  { unfold blocks_for. rewrite Hko, <-!Nat.add_assoc, !nblocks_in by lia. done. }
  rewrite Efb in *. set (fb' := freeblock s + _) in *.
  destruct (write_block s im' din' bs' ib' ds' fb' dat (take n1 p) k o x d _ Hx Hbx Hdx Hl Hko) as [Hg Hlen]; [lia..|done|].
  exists n1, din', (<[Z.to_nat x := splice d o (take n1 p)]> im'), bs', ib'. cbv zeta. split; [lia|]. split; [done|]. split; [exact Hg|].
  destruct Hx as [_ Hr' Ho' _ _ _]. pose proof (r_fb _ _ Hr'). destruct (owns_word _ _ _ x Ho' ltac:(lia)) as (_ & _ & Hxr).
  { by apply owned_bs, (list_elem_of_lookup_2 _ k). }
  unfold iappend_step, BLOCK_SIZE. rewrite decide_True by lia. cbv zeta.
  assert (Ek : Z.of_nat (length dat) / 512 = Z.of_nat k) by (symmetry; apply (Z.div_unique _ _ _ (Z.of_nat o)); lia). rewrite Ek.
  rewrite (bind_done _ _ s tt s).
  2:{ apply assert_true, bool_decide_eq_true. by change INODE_MAX_BLOCKS with 140; lia. }
  m_step E. cbv beta iota.
  assert (En : u32 (Z.min (Z.of_nat (length p)) (u32 (u32 ((Z.of_nat k + 1) * 512) - Z.of_nat (length dat)))) = Z.of_nat n1).
  { rewrite (u32_small ((Z.of_nat k + 1) * 512)), (u32_small (_ - Z.of_nat (length dat))), u32_small by (split; lia). lia. }
  rewrite En, Nat2Z.id, (u32_small (Z.of_nat (length dat) - Z.of_nat k * 512)) by (split; lia).
  replace (Z.to_nat (Z.of_nat (length dat) - Z.of_nat k * 512)) with o by lia. set (s1 := mkFs im' _ _ _).
  m_step (rsect_done x d s1 Hxr Hix).
  rewrite (bind_done _ _ s1 _ _ (wsect_done x (splice d o (take n1 p)) s1 Hxr (r_len _ _ Hr'))).
  rewrite u32_small by (split; lia). replace (Z.of_nat (length dat) + Z.of_nat n1) with (Z.of_nat (length dat + n1)) by lia. done.
Qed.

Lemma grown_trans s s1 din1 im1 bs1 ib1 fb1 dat1 din2 im2 bs2 ib2 fb2 dat2 old : grown s din1 im1 bs1 ib1 fb1 dat1 old →
  img s1 = im1 → freeblock s1 = fb1 → freeblock s ≤ fb1 → grown s1 din2 im2 bs2 ib2 fb2 dat2 (owned bs1 ib1) →
  grown s din2 im2 bs2 ib2 fb2 dat2 old.
Proof.
  intros [_ _ _ K1 N1 F1] <- <- Hle [H2 R2 O2 K2 N2 F2]. split; [done..| | |].
  - intros y Hy. by apply K2, K1.
  - intros y [[?|?]%N1|?]%N2; [by left|by right|right; lia].
  - intros n Hn Hx. rewrite F2 by done. apply F1; [done|]. intros Hin. by apply Hx, K2.
Qed.

Lemma iappend_loop (f : nat) s din bs ib dat p : contains (img s) din bs ib dat → owns (freeblock s) bs ib → roomy (img s) (freeblock s) →
  (length p < f)%nat → Z.of_nat (length dat + length p) ≤ 71680 →
  freeblock s + (blocks_for (length dat + length p) - blocks_for (length dat)) ≤ FSSIZE →
  ∃ din' im' bs' ib', let fb' := freeblock s + (blocks_for (length dat + length p) - blocks_for (length dat)) in
    same_head din din' ∧ grown s din' im' bs' ib' fb' (dat ++ p) (owned bs ib) ∧
    loop f iappend_step (Z.of_nat (length dat), p, din) s =
      Done ((Z.of_nat (length dat + length p), din'), mkFs im' (sb s) (freeinode s) fb').
Proof.
  revert s din bs ib dat p. induction f as [|f IH]; intros s din bs ib dat p Hc Ho Hr Hp Hm Hf; [lia|].
  rewrite loop_S. destruct (decide (p = [])) as [->|Hne].
  - exists din, (img s), bs, ib. rewrite app_nil_r, Nat.add_0_r, Z.sub_diag, Z.add_0_r. cbv zeta. split; [done|]. split.
    + split; [done..|by intros; left|done].
    + destruct s. done.
  - assert (0 < length p)%nat by (destruct p; [done|simpl; lia]). pose proof (blocks_for_mono (length dat + 1) (length dat + length p)).
    destruct (iappend_step_ok s din bs ib dat p Hc Ho Hr) as (n1 & din1 & im1 & bs1 & ib1 & Hn1 & Hh1 & G1 & E1); [lia..|].
    set (fb1 := freeblock s + (blocks_for (length dat + n1) - blocks_for (length dat))) in *. set (s1 := mkFs im1 (sb s) (freeinode s) fb1) in *. m_step E1. cbv beta iota.
    pose proof (blocks_for_mono (length dat) (length dat + n1)).
    assert (Hl : length (dat ++ take n1 p) = (length dat + n1)%nat) by (rewrite length_app, length_take; lia).
    destruct (IH s1 din1 bs1 ib1 (dat ++ take n1 p) (drop n1 p)) as (din2 & im2 & bs2 & ib2 & Hh2 & G2 & E2).
    + apply G1.
    + apply G1.
    + apply G1.
    + rewrite length_drop. lia.
    + rewrite Hl, length_drop. lia.
    + rewrite Hl, length_drop. subst s1 fb1. simpl. replace (length dat + n1 + (length p - n1))%nat with (length dat + length p)%nat by lia. lia.
    + rewrite Hl, length_drop in *. replace (length dat + n1 + (length p - n1))%nat with (length dat + length p)%nat in * by lia.
      rewrite <-app_assoc, take_drop in G2. subst s1. simpl in *.
      replace (fb1 + (blocks_for (length dat + length p) - blocks_for (length dat + n1))) with
        (freeblock s + (blocks_for (length dat + length p) - blocks_for (length dat))) in * by (unfold fb1; lia).
      exists din2, im2, bs2, ib2. cbv zeta. split; [|split; [|exact E2]].
      * destruct Hh1 as (?&?&?&?&?), Hh2 as (?&?&?&?&?). split_and!; congruence.
      * eapply grown_trans; [exact G1|..|exact G2]; [done|done|unfold fb1; lia].
Qed.
End blocks.
