(* ===== verification/MkfsFiles.v ===== *)
(** * The files of the image

    [fs_ok s L]: the image holds the files [L], by inode number; each owns its
    blocks alone, and every block not allocated yet is zero. [ialloc] adds an
    empty file and [iappend] makes one longer; neither changes another file. *)
From S2P Require Import Prelude Words Cache Mkfs MkfsSpec.

Section inodes.
Implicit Types (im : list (list Z)) (din : dinode) (bs : list Z) (s : fsimg).

(** The slot of inode [i] holds [din]. *)
Definition holds_inode im (i : Z) din : Prop := ∃ buf, im !! Z.to_nat (i / 8 + 65) = Some buf ∧
  take 64 (drop (64 * Z.to_nat (i mod 8)) buf) = dinode_bytes din.

Lemma inode_place i s : sb s = make_super → 0 ≤ i < 208 →
  IBLOCK i (sb s) = i / 8 + 65 ∧ Z.to_nat (64 * (i mod IPB)) = (64 * Z.to_nat (i mod 8))%nat ∧ 65 ≤ i / 8 + 65 < 91 ∧ 0 ≤ i mod 8 < 8.
Proof.
  intros -> Hi. pose proof (Z.mod_pos_bound i 8 ltac:(lia)).
  assert (0 ≤ i / 8 < 26) by (Z.to_euclidean_division_equations; lia).
  unfold IBLOCK. change IPB with 8. change (inode_start make_super) with 65. rewrite u32_small by (split; lia).
  split; [done|]. split; [|lia]. lia.
Qed.

Lemma rinode_done i din s : sb s = make_super → 0 ≤ i < 208 → holds_inode (img s) i din → din_ok din → rinode i s = Done (din, s).
Proof.
  intros Hsb Hi (buf & Hb & Ht) Hd. destruct (inode_place i s Hsb Hi) as (E1 & E2 & R1 & _).
  unfold rinode. rewrite (bind_done _ _ s (sb s) s) by done. rewrite E1, E2. 
  m_step (rsect_done (i / 8 + 65) buf s ltac:(lia) Hb). by rewrite Ht, dinode_of_bytes.
Qed.

Lemma winode_done i din s fb : sb s = make_super → 0 ≤ i < 208 → roomy (img s) fb → length (addrs din) = 12%nat →
  ∃ im', winode i din s = Done (tt, set_img im' s) ∧ roomy im' fb ∧ holds_inode im' i din ∧
    (∀ j d, 0 ≤ j < 208 → j ≠ i → holds_inode (img s) j d → holds_inode im' j d) ∧
    (∀ n, 0 ≤ n < 65 ∨ nmeta ≤ n → im' !! Z.to_nat n = img s !! Z.to_nat n).
Proof.
  intros Hsb Hi Hr Hd. destruct (inode_place i s Hsb Hi) as (E1 & E2 & R1 & R2). pose proof (r_len _ _ Hr) as Hlen.
  destruct (lookup_lt_is_Some_2 (img s) (Z.to_nat (i / 8 + 65))) as [buf Hb]; [lia|].
  assert (Hbl : length buf = 512%nat) by (pose proof (r_sect _ _ Hr) as Hs; rewrite Forall_lookup in Hs; by eapply Hs).
  pose proof (length_dinode_bytes din Hd) as Hdl. set (k := Z.to_nat (i mod 8)) in *.
  assert (Hk : (k < 8)%nat) by lia. set (new := splice buf (64 * k) (dinode_bytes din)).
  exists (<[Z.to_nat (i / 8 + 65) := new]> (img s)). split; [|split; [|split; [|split]]].
  - unfold winode. rewrite (bind_done _ _ s (sb s) s) by done. rewrite E1, E2. m_step (rsect_done (i / 8 + 65) buf s ltac:(lia) Hb).
    by apply wsect_done; [lia|].
  - pose proof (r_fb _ _ Hr) as Hm. change nmeta with 92 in Hm. apply roomy_write; [done| |lia].
    unfold new. rewrite length_splice; lia.
  - exists new. split; [apply list_lookup_insert_eq; lia|]. by apply slot_same; lia.
  - intros j d Hj Hne (buf' & Hb' & Ht). destruct (inode_place j s Hsb Hj) as (_ & _ & Rj & Rj').
    destruct (decide (j / 8 = i / 8)) as [E|E].
    + rewrite E in *. assert (buf' = buf) as -> by congruence. exists new. rewrite E. split; [apply list_lookup_insert_eq; lia|].
      rewrite <-Ht. apply slot_other; [|done|lia]. intros Ek. apply Hne. pose proof (Z.div_mod i 8). pose proof (Z.div_mod j 8). lia.
    + exists buf'. split; [|done]. rewrite list_lookup_insert_ne; [done|lia].
  - intros n Hn. change nmeta with 92 in Hn. apply list_lookup_insert_ne. lia.
Qed.

Lemma contains_frame im im' din din' bs ib dat : contains im din bs ib dat → addrs din' = addrs din → indirect din' = indirect din →
  (∀ x, x ∈ owned bs ib → im' !! Z.to_nat x = im !! Z.to_nat x) → contains im' din' bs ib dat.
Proof.
  intros (ds & [H1 H2 H3 H4 H5] & Hj & Hl) Ea Ei Hf. exists ds. split; [|done]. split; [congruence|congruence| |done|].
  - case_decide; [done|]. destruct H3 as (H0 & b & Hb & Hw). split; [done|]. exists b. split; [|done].
    rewrite Hf; [done|by apply owned_ib].
  - eapply data_frame; [done|]. intros x Hx. by apply Hf, owned_bs.
Qed.

Lemma contains_ok im din bs ib dat fb din0 : contains im din bs ib dat → owns fb bs ib → fb ≤ FSSIZE → din_ok din0 → same_head din0 din → din_ok din.
Proof.
  intros (ds & [H1 H2 H3 H4 H5] & _) Ho Hf [D1 D2 D3 D4 D5 _ _] (E1 & E2 & E3 & E4 & E5). split; rewrite ?E1, ?E2, ?E3, ?E4, ?E5; try done.
  - rewrite H1. split; [apply length_pad; rewrite length_take; lia|]. apply Forall_app. split.
    + apply Forall_forall. intros x Hx. eapply owns_word; [done|done|]. apply owned_bs. rewrite <-(take_drop 12 bs). apply elem_of_app. by left.
    + apply Forall_replicate. split; lia.
  - rewrite H2. destruct (decide (ib = 0)) as [->|Hne]; [split; lia|]. eapply owns_word; [done|done|by apply owned_ib].
Qed.
End inodes.

(** ** The files *)
Record file := mkFile { fty : Z; fbs : list Z; fib : Z; fdat : list Z }.
Abbreviation blocks_of f := (owned (fbs f) (fib f)).

Definition file_in (im : list (list Z)) (i : Z) (f : file) : Prop := ∃ din, din_ok din ∧ holds_inode im i din ∧
  contains im din (fbs f) (fib f) (fdat f) ∧ dtype din = fty f ∧ num_links din = 1 ∧ num_bytes din = Z.of_nat (length (fdat f)).

Definition super_block : list Z := splice zeroes 0 (super_bytes make_super).

Record fs_ok (s : fsimg) (L : gmap Z file) : Prop := {
  f_sb : sb s = make_super;
  f_super : img s !! Z.to_nat 1 = Some super_block;
  f_roomy : roomy (img s) (freeblock s);
  f_next : 1 ≤ freeinode s ≤ 208;
  f_dom : ∀ i f, L !! i = Some f → 1 ≤ i < freeinode s;
  f_files : ∀ i f, L !! i = Some f → file_in (img s) i f;
  f_owns : ∀ i f, L !! i = Some f → owns (freeblock s) (fbs f) (fib f);
  f_apart : ∀ i j f g x, L !! i = Some f → L !! j = Some g → i ≠ j → x ∈ blocks_of f → x ∉ blocks_of g
}.

Section files.
Implicit Types (s : fsimg) (L : gmap Z file) (f g : file) (i j : Z).

(** What [n] bytes more cost a file of [m] bytes. *)
Definition cost (m n : nat) : Z := blocks_for (m + n) - blocks_for m.

Lemma iappend_ok s L i f p : fs_ok s L → L !! i = Some f → Z.of_nat (length (fdat f) + length p) ≤ 71680 →
  freeblock s + cost (length (fdat f)) (length p) ≤ FSSIZE →
  ∃ s' bs' ib', iappend i p s = Done (tt, s') ∧ fs_ok s' (<[i := mkFile (fty f) bs' ib' (fdat f ++ p)]> L) ∧
    freeblock s' = freeblock s + cost (length (fdat f)) (length p) ∧ freeinode s' = freeinode s.
Proof.
  intros [Hsb Hs1 Hr Hn Hd Hf Ho Ha] Hi Hlen Hroom. pose proof (Hd _ _ Hi) as Hir.
  destruct (Hf _ _ Hi) as (din & Dok & Hin & Hc & Ht & Hlk & Hnb). unfold cost in *.
  destruct (iappend_loop (S (length p)) s din (fbs f) (fib f) (fdat f) p Hc (Ho _ _ Hi) Hr ltac:(lia) Hlen Hroom)
    as (din' & im' & bs' & ib' & Hh & [Gc Gr Go Gk Gn Gf] & E). set (fb' := freeblock s + _) in *.
  set (s1 := mkFs im' (sb s) (freeinode s) fb') in *. pose proof (r_fb _ _ Gr) as Hfb.
  pose proof (contains_ok _ _ _ _ _ _ _ Gc Go ltac:(lia) Dok Hh) as Dok'.
  set (n := Z.of_nat (length (fdat f) + length p)) in *. set (din2 := set_num_bytes n din').
  destruct (winode_done i din2 s1 fb' Hsb ltac:(lia) Gr (proj1 (d_addrs _ Dok'))) as (im2 & Ew & R2 & I2 & O2 & F2).
  exists (set_img im2 s1), bs', ib'. split; [|split; [|done]].
  - unfold iappend. m_step (rinode_done i din s Hsb ltac:(lia) Hin Dok). rewrite Hnb, xint_id by (split; lia).
    m_step E. cbv beta iota. rewrite xint_id by (split; lia). exact Ew.
  - assert (Hk : ∀ x, nmeta ≤ x → x ∉ owned bs' ib' → im2 !! Z.to_nat x = img s !! Z.to_nat x).
    { intros x Hx Hnot. rewrite F2 by by right. apply Gf; [|done]. change nmeta with 92 in Hx. lia. }
    assert (Hother : ∀ j g, L !! j = Some g → j ≠ i → ∀ x, x ∈ blocks_of g → x ∉ owned bs' ib').
    { intros j g Hj Hne x Hx [Hin'|Hge]%Gn; [by eapply (Ha j i)|]. destruct (Ho _ _ Hj) as [_ R]. specialize (R _ Hx). lia. }
    split; cbn [img sb freeinode freeblock set_img s1]; try done.
    + rewrite F2 by (left; lia). simpl. rewrite Gf; [done|done|]. intros Hx%Go. change nmeta with 92 in Hx. lia.
    + intros j g [[-> <-]|[_ Hj]]%lookup_insert_Some; [done|by eapply Hd].
    + intros j g [[<- <-]|[Hne Hj]]%lookup_insert_Some.
      * exists din2. destruct Hh as (E1 & E2 & E3 & E4 & E5), Dok' as [D1 D2 D3 D4 D5 D6 D7].
        split; [by split; simpl; [..|split; lia| |]|]. split; [done|]. split; [|split; [simpl; congruence|split; [simpl; congruence|simpl; by rewrite length_app]]].
        eapply contains_frame; [exact Gc|done|done|]. intros x Hx. apply F2. right. by apply Go.
      * destruct (Hf _ _ Hj) as (dj & Dj & Ij & Cj & Tj & Lj & Nj). pose proof (Hd _ _ Hj). exists dj. split; [done|]. split.
        { apply O2; [lia|done|]. destruct Ij as (buf & Hb & Htk). exists buf. split; [|done]. simpl. rewrite Gf; [done|..].
          - destruct (inode_place j s Hsb ltac:(lia)) as (_ & _ & ? & _). lia.
          - intros Hx. destruct (inode_place j s Hsb ltac:(lia)) as (_ & _ & ? & _). apply Go in Hx. change nmeta with 92 in Hx. lia. }
        split; [|done]. eapply contains_frame; [exact Cj|done|done|]. intros x Hx. apply Hk; [by apply (Ho _ _ Hj)|by eapply Hother].
    + intros j g [[<- <-]|[Hne Hj]]%lookup_insert_Some; [done|]. destruct (Ho _ _ Hj) as [N R]. split; [done|].
      intros x Hx%R. pose proof (blocks_for_mono (length (fdat f)) (length (fdat f) + length p)). unfold fb'. lia.
    + intros j k gj gk x [[<- <-]|[Hne Hj]]%lookup_insert_Some [[<- <-]|[Hne' Hk']]%lookup_insert_Some Hjk Hx; [done|..].
      * intros Hx'. exact (Hother _ _ Hk' (not_eq_sym Hne') x Hx' Hx).
      * exact (Hother _ _ Hj (not_eq_sym Hne) x Hx).
      * exact (Ha _ _ _ _ x Hj Hk' Hjk Hx).
Qed.

Lemma ialloc_ok s L ty : fs_ok s L → freeinode s < 208 → in_u 16 ty → ∃ s', ialloc ty s = Done (freeinode s, s') ∧
  fs_ok s' (<[freeinode s := mkFile ty [] 0 []]> L) ∧ freeblock s' = freeblock s ∧ freeinode s' = freeinode s + 1.
Proof.
  intros [Hsb Hs1 Hr Hn Hd Hf Ho Ha] Hi Hty. set (i := freeinode s) in *.
  set (s1 := mkFs (img s) (sb s) (i + 1) (freeblock s)). set (din := mkDinode ty 0 0 1 0 (replicate 12 0) 0).
  destruct (winode_done i din s1 (freeblock s) Hsb ltac:(lia) Hr eq_refl) as (im & Ew & R & I & O & F).
  assert (Hnew : L !! i = None) by (apply eq_None_not_Some; intros [f Hf']; apply Hd in Hf'; unfold i in *; lia).
  exists (set_img im s1). split; [|split; [|done]].
  - unfold ialloc. rewrite (bind_done _ _ s i s), (bind_done _ _ s tt s1); [|unfold modify; rewrite u32_small by (split; lia); done|done].
    rewrite (xshort_id ty) by done. change (xshort 1) with 1. change (xint 0) with 0. by m_step Ew.
  - split; cbn [img sb freeinode freeblock set_img s1]; try done; try lia.
    + rewrite F by (left; lia). exact Hs1.
    + intros j g [[<- <-]|[_ Hj]]%lookup_insert_Some; [lia|]. apply Hd in Hj. fold i in Hj. lia.
    + intros j g [[<- <-]|[Hne Hj]]%lookup_insert_Some.
      * exists din. split; [|split; [done|split; [|done]]].
        -- split; try done; simpl; try (by split; lia). split; [done|]. repeat (constructor; [split; lia|]). constructor.
        -- exists []. split; [|done]. split; try done; simpl; lia.
      * destruct (Hf _ _ Hj) as (dj & Dj & Ij & Cj & Tj). apply Hd in Hj as Hjr. exists dj. split; [done|]. split; [apply O; [fold i in Hjr; lia|done|exact Ij]|].
        split; [|done]. eapply contains_frame; [exact Cj|done|done|]. intros x Hx. apply F. right. by apply (Ho _ _ Hj).
    + intros j g [[<- <-]|[Hne Hj]]%lookup_insert_Some; [|by eapply Ho]. split; [apply NoDup_nil_2|]. intros x Hx. by apply elem_of_nil in Hx.
    + intros j k gj gk x [[<- <-]|[Hne Hj]]%lookup_insert_Some [[<- <-]|[Hne' Hk']]%lookup_insert_Some Hjk Hx; [done|..].
      * by apply elem_of_nil in Hx.
      * intros Hx'. by apply elem_of_nil in Hx'.
      * exact (Ha _ _ _ _ x Hj Hk' Hjk Hx).
Qed.

Lemma cost_nonneg m n : 0 ≤ cost m n.
Proof. unfold cost. pose proof (blocks_for_mono m (m + n)). lia. Qed.
Lemma cost_add m n k : cost m n + cost (m + n) k = cost m (n + k).
Proof. unfold cost. rewrite Nat.add_assoc. lia. Qed.
Lemma cost_0 n : cost 0 n = blocks_for n.
Proof. unfold cost. change (blocks_for 0) with 0. simpl. lia. Qed.

(** The pieces of one host file. *)
Lemma append_all s L i f chunks : fs_ok s L → L !! i = Some f → Z.of_nat (length (fdat f) + length (mjoin chunks)) ≤ 71680 →
  freeblock s + cost (length (fdat f)) (length (mjoin chunks)) ≤ FSSIZE →
  ∃ s' bs ib, for_each chunks (iappend i) s = Done (tt, s') ∧ fs_ok s' (<[i := mkFile (fty f) bs ib (fdat f ++ mjoin chunks)]> L) ∧
    freeblock s' = freeblock s + cost (length (fdat f)) (length (mjoin chunks)) ∧ freeinode s' = freeinode s.
Proof.
  revert s L f. induction chunks as [|p chunks IH]; intros s L f Hok Hi Hlen Hroom.
  - exists s, (fbs f), (fib f). rewrite app_nil_r. change (length (mjoin [])) with 0%nat. unfold cost. rewrite Nat.add_0_r, Z.sub_diag, Z.add_0_r.
    split; [done|]. split; [|done]. rewrite insert_id; [done|]. by destruct f.
  - change (mjoin (p :: chunks)) with (p ++ mjoin chunks) in *. rewrite length_app in *.
    rewrite <-cost_add in Hroom. pose proof (cost_nonneg (length (fdat f) + length p) (length (mjoin chunks))).
    destruct (iappend_ok s L i f p Hok Hi ltac:(lia) ltac:(lia)) as (s1 & bs1 & ib1 & E1 & Hok1 & Hb1 & Hi1).
    destruct (IH s1 _ (mkFile (fty f) bs1 ib1 (fdat f ++ p)) Hok1) as (s2 & bs2 & ib2 & E2 & Hok2 & Hb2 & Hi2); simpl.
    + apply lookup_insert_eq.
    + rewrite length_app. lia.
    + rewrite length_app. lia.
    + rewrite insert_insert_eq in Hok2. simpl in *. rewrite <-app_assoc in Hok2. rewrite length_app in Hb2. rewrite <-cost_add.
      exists s2, bs2, ib2. split; [|split; [exact Hok2|split; [lia|congruence]]]. by m_step E1.
Qed.
End files.
