(* ===== verification/MkfsProps.v ===== *)
(** * The image [mkfs] builds

    What a reader of the finished image finds, with readers defined on the sectors
    alone; and the name a path is entered under. *)
From S2P Require Import Prelude Words Cache Mkfs MkfsSpec MkfsFiles.

(** ** Names *)
Lemma name_length_app (p s : list Z) : 47 ∉ s → name_length (p ++ 47 :: s) = Z.of_nat (length s) ∧ name_length s = Z.of_nat (length s).
Proof.
  intros Hs. unfold name_length. rewrite foldl_app. cbn [foldl]. rewrite decide_True by done.
  assert (H : ∀ j, foldl (λ j c, (if decide (c = 47) then -1 else j) + 1) j s = j + Z.of_nat (length s)).
  { induction s as [|c s IH]; intros j; cbn [foldl length]; [lia|]. apply not_elem_of_cons in Hs as [Hc Hs].
    rewrite decide_False by done. rewrite IH by done. lia. }
  by rewrite !H.
Qed.

(** The last slash of a path, if it has one. *)
Lemma last_slash (path : list Z) : (∃ p s, path = p ++ 47 :: s ∧ 47 ∉ s) ∨ 47 ∉ path.
Proof.
  induction path as [|c path IH]; [right; by intros ?%elem_of_nil|]. destruct IH as [(p & s & -> & Hs)|Hn].
  - left. by exists (c :: p), s.
  - destruct (decide (c = 47)) as [->|Hc]; [left; by exists [], path|]. right. by apply not_elem_of_cons.
Qed.

Lemma base_name_spec path : 47 ∉ base_name path ∧ (base_name path = path ∨ ∃ p, path = p ++ 47 :: base_name path).
Proof.
  unfold base_name. destruct (last_slash path) as [(p & s & -> & Hs)|Hn].
  - destruct (name_length_app p s Hs) as [-> _]. rewrite length_app, Nat2Z.id. cbn [length].
    replace (length p + S (length s) - length s)%nat with (length (p ++ [47])) by (rewrite length_app; simpl; lia).
    replace (p ++ 47 :: s) with ((p ++ [47]) ++ s) by by rewrite <-app_assoc. rewrite drop_app_length.
    split; [done|]. right. exists p. by rewrite <-app_assoc.
  - destruct (name_length_app [] path Hn) as [_ ->]. rewrite Nat2Z.id, Nat.sub_diag, drop_0. split; [done|by left].
Qed.

Lemma length_entry i s : length (entry i s) = 16%nat.
Proof.
  unfold entry, dirent_bytes. cbn [inode_no name]. rewrite length_app, length_le_bytes. unfold dir_name.
  rewrite length_take, length_app, length_replicate. lia.
Qed.

(** ** Adding the files *)
Section main.
Context (host_open : list Z → option (list (list Z))).
Implicit Types (s : fsimg) (L : gmap Z file) (f r : file) (fs : list (list Z * list (list Z))).

(** What the directory lists for the paths, from the inode [a] on. *)
Fixpoint dir_entries (a : Z) (paths : list (list Z)) : list Z :=
  match paths with [] => [] | p :: ps => entry a (skip_underscore (base_name p)) ++ dir_entries (a + 1) ps end.
Definition total_blocks fs : Z := foldr (λ pc n, blocks_for (length (mjoin pc.2)) + n) 0 fs.

Lemma length_dir_entries a ps : length (dir_entries a ps) = (16 * length ps)%nat.
Proof. revert a. induction ps as [|p ps IH]; intros a; [done|]. cbn [dir_entries length]. rewrite length_app, length_entry, IH. lia. Qed.
Lemma total_nonneg fs : 0 ≤ total_blocks fs.
Proof.
  induction fs as [|[p c] fs IH]; [done|]. cbn [total_blocks foldr fst snd]. fold (total_blocks fs).
  pose proof (blocks_for_mono 0 (length (mjoin c))). change (blocks_for 0) with 0 in *. lia.
Qed.

Lemma add_file_ok s L r path chunks : host_open path = Some chunks → fs_ok s L → L !! 1 = Some r → freeinode s < 208 →
  Z.of_nat (length (mjoin chunks)) ≤ 71680 → Z.of_nat (length (fdat r) + 16) ≤ 71680 →
  freeblock s + cost (length (fdat r)) 16 + blocks_for (length (mjoin chunks)) ≤ FSSIZE →
  ∃ s' bs1 ib1 bs ib, let a := freeinode s in add_file host_open 1 path s = Done (tt, s') ∧
    fs_ok s' (<[a := mkFile INODE_REGULAR bs ib (mjoin chunks)]>
      (<[1 := mkFile (fty r) bs1 ib1 (fdat r ++ entry a (skip_underscore (base_name path)))]> L)) ∧
    freeblock s' = freeblock s + cost (length (fdat r)) 16 + blocks_for (length (mjoin chunks)) ∧ freeinode s' = a + 1.
Proof.
  intros Hh Hok Hr Hi Hlen Hlr Hroom. set (a := freeinode s) in *. set (e := entry a (skip_underscore (base_name path))).
  destruct (ialloc_ok s L INODE_REGULAR Hok Hi) as (s1 & E1 & Hok1 & Hb1 & Hi1); [by split|]. fold a in E1, Hok1, Hi1.
  pose proof (f_dom _ _ Hok _ _ Hr) as Har. fold a in Har.
  pose proof (blocks_for_mono 0 (length (mjoin chunks))). change (blocks_for 0) with 0 in *.
  assert (Hne : a ≠ 1) by lia.
  destruct (iappend_ok s1 _ 1 r e Hok1) as (s2 & bs1 & ib1 & E2 & Hok2 & Hb2 & Hi2).
  { by rewrite lookup_insert_ne. }
  { unfold e. rewrite length_entry. lia. }
  { unfold e. rewrite length_entry. lia. }
  unfold e in Hb2. rewrite length_entry in Hb2.
  destruct (append_all s2 _ a (mkFile INODE_REGULAR [] 0 []) chunks Hok2) as (s3 & bs & ib & E3 & Hok3 & Hb3 & Hi3).
  { rewrite lookup_insert_ne by done. apply lookup_insert_eq. }
  { simpl. lia. }
  { simpl. rewrite cost_0. lia. }
  simpl in Hb3. rewrite cost_0 in Hb3. exists s3, bs1, ib1, bs, ib. cbv zeta. split; [|split; [|split; lia]].
  - unfold add_file. fold e. rewrite (bind_done _ _ s tt s) by (apply assert_true, bool_decide_eq_true, base_name_spec).
    rewrite Hh. m_step E1. fold e. m_step E2. exact E3.
  - rewrite (insert_insert_ne _ 1 a) in Hok3 by done. by rewrite insert_insert_eq in Hok3.
Qed.

(** The files [fs] in the table, from the inode [a] on. *)
Definition listed L (a : Z) fs : Prop := ∀ k p c, fs !! k = Some (p, c) →
  ∃ bs ib, L !! (a + Z.of_nat k) = Some (mkFile INODE_REGULAR bs ib (mjoin c)).

Lemma add_files_ok fs : (∀ p c, (p, c) ∈ fs → host_open p = Some c ∧ Z.of_nat (length (mjoin c)) ≤ 71680) →
  ∀ s L r, fs_ok s L → L !! 1 = Some r → freeinode s + Z.of_nat (length fs) ≤ 208 →
  Z.of_nat (length (fdat r) + 16 * length fs) ≤ 71680 →
  freeblock s + cost (length (fdat r)) (16 * length fs) + total_blocks fs ≤ FSSIZE →
  ∃ s' L' bs ib, for_each (fst <$> fs) (add_file host_open 1) s = Done (tt, s') ∧ fs_ok s' L' ∧
    L' !! 1 = Some (mkFile (fty r) bs ib (fdat r ++ dir_entries (freeinode s) (fst <$> fs))) ∧ listed L' (freeinode s) fs ∧
    (∀ i, 1 < i < freeinode s → L' !! i = L !! i) ∧
    freeblock s' = freeblock s + cost (length (fdat r)) (16 * length fs) + total_blocks fs.
Proof.
  induction fs as [|[p c] fs IH]; intros Hh s L r Hok Hr Hi Hlen Hroom.
  - exists s, L, (fbs r), (fib r). cbn. rewrite app_nil_r. unfold cost. rewrite Nat.add_0_r, Z.sub_diag. split; [done|]. split; [done|].
    split; [by destruct r|]. split; [intros k ? ?; by rewrite lookup_nil|]. split; [done|lia].
  - cbn [length total_blocks foldr snd fst fmap list_fmap for_each dir_entries] in *. fold (total_blocks fs) in *.
    destruct (Hh p c) as [Hp Hc]; [by left|]. pose proof (total_nonneg fs).
    replace (16 * S (length fs))%nat with (16 + 16 * length fs)%nat in * by lia. rewrite <-cost_add in *.
    pose proof (cost_nonneg (length (fdat r) + 16) (16 * length fs)).
    destruct (add_file_ok s L r p c Hp Hok Hr) as (s1 & bs1 & ib1 & bs & ib & E1 & Hok1 & Hb1 & Hi1); [lia..|].
    pose proof (f_dom _ _ Hok _ _ Hr) as Har. set (a := freeinode s) in *. set (e := entry a _) in *.
    set (r1 := mkFile (fty r) bs1 ib1 (fdat r ++ e)) in *.
    assert (Hl1 : length (fdat r1) = (length (fdat r) + 16)%nat) by (simpl; rewrite length_app; unfold e; by rewrite length_entry).
    destruct (IH (λ p c H, Hh p c (list_elem_of_further _ _ _ H)) s1 _ r1 Hok1) as (s2 & L2 & bs2 & ib2 & E2 & Hok2 & H1 & Hls & Hk & Hb2).
    { rewrite lookup_insert_ne by lia. apply lookup_insert_eq. }
    { lia. }
    { rewrite Hl1. lia. }
    { rewrite Hl1. lia. }
    exists s2, L2, bs2, ib2. split; [by m_step E1|]. split; [done|]. rewrite Hi1 in *. split; [rewrite H1; simpl; by rewrite <-app_assoc|].
    split; [|split].
    + intros [|k] q d Hq.
      * injection Hq as <- <-. exists bs, ib. rewrite Z.add_0_r, Hk by lia. apply lookup_insert_eq.
      * replace (a + Z.of_nat (S k)) with (a + 1 + Z.of_nat k) by lia. exact (Hls k q d Hq).
    + intros i Hir. rewrite Hk, !lookup_insert_ne by lia. done.
    + rewrite Hb2, Hl1. lia.
Qed.
End main.

(** ** Readers of the finished image *)
Section readers.
Implicit Types (im : list (list Z)) (din : dinode) (i x b : Z).

Definition sector_at im x : list Z := default [] (im !! Z.to_nat x).
Definition read_inode im i : dinode := dinode_of (take 64 (drop (64 * Z.to_nat (i mod 8)) (sector_at im (i / 8 + 65)))).
(** The block numbers of a file: those in the inode, then those in its indirect block. *)
Definition file_blocks im din : list Z := addrs din ++ (if decide (indirect din = 0) then [] else words (sector_at im (indirect din))).
Definition read_bytes im din (n : nat) : list Z := take n (mjoin (sector_at im <$> take (nblocks n) (file_blocks im din))).
(** The bit of block [b] in the bitmap block. *)
Definition bitmap_bit im b : bool := Z.testbit (default 0 (sector_at im 91 !! Z.to_nat (b / 8))) (b mod 8).

Lemma read_inode_eq im i din : holds_inode im i din → din_ok din → read_inode im i = din.
Proof. intros (buf & Hb & Ht) Hd. unfold read_inode, sector_at. rewrite Hb. simpl default. by rewrite Ht, dinode_of_bytes. Qed.

Lemma contains_blocks im din bs ib ds : holds im din bs ib ds → take (length bs) (file_blocks im din) = bs.
Proof.
  intros [H1 H2 H3 H4 _]. unfold file_blocks. rewrite H1, H2. case_decide as Hl.
  - rewrite decide_True by done. rewrite app_nil_r, (take_ge bs) by lia. unfold pad. apply take_app_length.
  - destruct H3 as (H0 & b & Hb & Hw). rewrite decide_False by done. unfold sector_at. rewrite Hb. simpl default. rewrite Hw.
    unfold pad. rewrite length_take, Nat.min_l, Nat.sub_diag by lia. rewrite app_nil_r, app_assoc, take_drop. apply take_app_length.
Qed.

Lemma contains_read im din bs ib dat : contains im din bs ib dat → read_bytes im din (length dat) = dat.
Proof.
  intros (ds & H & Hj & Hl). unfold read_bytes. rewrite <-Hl, (contains_blocks _ _ _ _ _ H).
  assert (E : sector_at im <$> bs = ds).
  { pose proof (h_data _ _ _ _ _ H) as Hd. clear -Hd. induction Hd as [|x d bs ds Hx _ IH]; [done|].
    cbn [fmap list_fmap]. unfold sector_at at 1. by rewrite Hx, IH. }
  rewrite E, Hj. apply take_app_length.
Qed.

(** The bitmap block has exactly the bits of the first [used] blocks. *)
Lemma bit_buf_bits used : 0 ≤ used ≤ 4096 → length (bit_buf used) = 512%nat ∧
  ∀ b, 0 ≤ b < 4096 → Z.testbit (default 0 (bit_buf used !! Z.to_nat (b / 8))) (b mod 8) = bool_decide (b < used).
Proof.
  intros [H0 Hu]. unfold bit_buf. revert Hu. pattern used. apply natlike_ind; [| |done]; clear used H0.
  - intros _. split; [done|]. intros b Hb. rewrite bool_decide_false by lia. change (foldl _ _ _) with (replicate 512 0).
    assert (b / 8 < 512) by (Z.to_euclidean_division_equations; lia). rewrite lookup_replicate_2 by lia. apply Z.bits_0.
  - intros u Hu IH Hu'. destruct IH as [Hl Hb]; [lia|]. replace (Z.succ u) with (u + 1) by lia.
    rewrite seqZ_app, foldl_app by lia. set (buf := foldl _ _ _) in *.
    change (seqZ (0 + u) 1) with [0 + (0 + u)]. cbn [foldl]. rewrite !Z.add_0_l. split; [by rewrite length_alter|].
    intros b Hbr. specialize (Hb b Hbr). pose proof (Z.mod_pos_bound u 8 ltac:(lia)). pose proof (Z.mod_pos_bound b 8 ltac:(lia)).
    assert (Hq : 0 ≤ b / 8 < 512 ∧ 0 ≤ u / 8 < 512) by (Z.to_euclidean_division_equations; lia).
    destruct (decide (b / 8 = u / 8)) as [Eq|Eq].
    + rewrite <-Eq, list_lookup_alter. destruct (buf !! Z.to_nat (b / 8)) as [c|] eqn:Ec; [|apply lookup_ge_None in Ec; lia].
      rewrite decide_True by done. simpl default in *. rewrite Z.lor_spec, Hb.
      assert (Hsh : u8 (Z.shiftl 1 (u mod 8)) = 2 ^ (u mod 8)).
      { rewrite Z.shiftl_1_l. apply wrap_small. split; [lia|]. apply Z.pow_lt_mono_r; lia. }
      rewrite Hsh, Z.pow2_bits_eqb by lia. destruct (Z.eqb_spec (u mod 8) (b mod 8)) as [Em|Em].
      * rewrite orb_true_r, bool_decide_true; [done|]. Z.to_euclidean_division_equations; lia.
      * rewrite orb_false_r. apply bool_decide_ext. Z.to_euclidean_division_equations; lia.
    + rewrite list_lookup_alter_ne by lia. rewrite Hb. apply bool_decide_ext. assert (b ≠ u) by (by intros ->). lia.
Qed.
End readers.

(** ** The whole image *)
Section image.
Context (host_open : list Z → option (list (list Z))).
Implicit Types (fs : list (list Z * list (list Z))).

Definition blank : fsimg := mkFs (replicate 1000 zeroes) make_super 1 nmeta.

Lemma clear_image : for_each (seqZ 0 FSSIZE) (λ i, wsect i zeroes) (mkFs [] make_super 1 nmeta) = Done (tt, blank).
Proof.
  set (I := λ (i : Z) (s : fsimg), s = mkFs (replicate (Z.to_nat i) zeroes) make_super 1 nmeta).
  destruct (for_seq_rule (λ i, wsect i zeroes) I 0 FSSIZE) with (s := mkFs [] make_super 1 nmeta) as ([] & s' & E & HI); [done| |done|].
  - unfold FSSIZE, I. intros i s Hi ->. eexists. split; [done|]. rewrite sector_eq by lia. unfold set_img. simpl. rewrite length_replicate.
    rewrite decide_False, Nat.sub_diag by lia. cbn [replicate app]. rewrite <-replicate_S_end. do 2 f_equal. lia.
  - rewrite E. by rewrite HI.
Qed.

(** The first sectors: nothing in the boot block, the super block after it. *)
Definition with_super : fsimg := set_img (<[1%nat := super_block]> (img blank)) blank.
Lemma super_written : wsect 1 (super_block) blank = Done (tt, with_super).
Proof. apply (wsect_done 1); [lia|]. apply length_replicate. Qed.

Lemma super_ok : fs_ok with_super ∅.
Proof.
  split; [done|by vm_compute| |split; simpl; lia|done..]. unfold with_super, blank, set_img. cbn [img freeblock].
  split.
  - by rewrite length_insert, length_replicate.
  - apply Forall_insert; [by apply Forall_replicate|]. by vm_compute.
  - by vm_compute.
  - intros n Hn. change nmeta with 92 in Hn. unfold FSSIZE in Hn. rewrite list_lookup_insert_ne by lia. apply lookup_replicate_2. lia.
Qed.

(** The bytes of the root directory. *)
Definition root_dir fs : list Z := entry 1 [46] ++ entry 1 [46; 46] ++ dir_entries 2 (fst <$> fs).
Lemma length_root_dir fs : length (root_dir fs) = (16 * (length fs + 2))%nat.
Proof. unfold root_dir. rewrite !length_app, !length_entry, length_dir_entries, length_fmap. lia. Qed.

(** Everything but the correction of the root's size and the bitmap. *)
Lemma files_written fs : (∀ p c, (p, c) ∈ fs → host_open p = Some c ∧ Z.of_nat (length (mjoin c)) ≤ 71680) →
  (length fs ≤ 206)%nat → nmeta + blocks_for (16 * (length fs + 2)) + total_blocks fs ≤ FSSIZE →
  ∃ s1 s2 s3 s' L bs ib, ialloc INODE_DIRECTORY with_super = Done (1, s1) ∧
    iappend 1 (entry 1 [46]) s1 = Done (tt, s2) ∧ iappend 1 (entry 1 [46; 46]) s2 = Done (tt, s3) ∧
    for_each (fst <$> fs) (add_file host_open 1) s3 = Done (tt, s') ∧ fs_ok s' L ∧
    L !! 1 = Some (mkFile INODE_DIRECTORY bs ib (root_dir fs)) ∧ listed L 2 fs ∧
    freeblock s' = nmeta + blocks_for (16 * (length fs + 2)) + total_blocks fs.
Proof.
  intros Hh Hn Hroom. pose proof (total_nonneg fs). unfold root_dir.
  generalize (entry 1 [46]) (entry 1 [46; 46]) (length_entry 1 [46]) (length_entry 1 [46; 46]). intros e1 e2 He1 He2.
  assert (C : blocks_for (16 * (length fs + 2)) = cost 0 16 + cost 16 16 + cost 32 (16 * length fs)).
  { unfold cost. replace (16 * (length fs + 2))%nat with (32 + 16 * length fs)%nat by lia. cbn [Nat.add]. change (blocks_for 0) with 0. lia. }
  rewrite C in *. pose proof (cost_nonneg 16 16). pose proof (cost_nonneg 32 (16 * length fs)).
  destruct (ialloc_ok with_super ∅ INODE_DIRECTORY super_ok) as (s1 & E1 & Hok1 & Hb1 & Hi1); [by vm_compute|by split|].
  change (freeinode with_super) with 1 in *. change (freeblock with_super) with nmeta in *.
  destruct (iappend_ok s1 _ 1 _ e1 Hok1 (lookup_insert_eq _ _ _)) as (s2 & bs2 & ib2 & E2 & Hok2 & Hb2 & Hi2);
    [cbn [fdat length]; rewrite He1; lia..|]. rewrite insert_insert_eq in Hok2. cbn [fdat fty length app] in *. rewrite He1 in Hb2.
  destruct (iappend_ok s2 _ 1 _ e2 Hok2 (lookup_insert_eq _ _ _)) as (s3 & bs3 & ib3 & E3 & Hok3 & Hb3 & Hi3);
    [cbn [fdat]; rewrite He1, He2; lia..|]. rewrite insert_insert_eq in Hok3. cbn [fdat fty] in *. rewrite He1, He2 in Hb3.
  destruct (add_files_ok host_open fs Hh s3 _ _ Hok3 (lookup_insert_eq _ _ _)) as (s' & L & bs & ib & E & Hok & HL & Hls & _ & Hb);
    cbn [fdat]; rewrite ?length_app, ?He1, ?He2; cbn [Nat.add]; [lia..|].
  exists s1, s2, s3, s', L, bs, ib. replace (freeinode s3) with 2 in * by lia. do 5 (split; [done|]). split; [|split; [done|]].
  - rewrite HL. cbn [fdat fty]. by rewrite <-app_assoc.
  - cbn [fdat] in Hb. rewrite length_app, He1, He2 in Hb. cbn [Nat.add] in Hb. lia.
Qed.

(** A file of the table, as a reader finds it in an image that agrees where it is. *)
Lemma file_read im im' fb i f : roomy im fb → file_in im i f → owns fb (fbs f) (fib f) → (∀ d, holds_inode im i d → holds_inode im' i d) →
  (∀ n, nmeta ≤ n → im' !! Z.to_nat n = im !! Z.to_nat n) →
  let d := read_inode im' i in dtype d = fty f ∧ num_links d = 1 ∧ num_bytes d = Z.of_nat (length (fdat f)) ∧
    read_bytes im' d (length (fdat f)) = fdat f.
Proof.
  intros Hr (din & Dok & Hin & Hc & Ht & Hl & Hn) Ho HI HF. cbv zeta. rewrite (read_inode_eq im' i din) by auto.
  do 3 (split; [done|]). eapply contains_read, contains_frame; [exact Hc|done|done|]. intros x Hx. apply HF. by apply Ho.
Qed.

(** The last steps of [main]: the size of the root directory. *)
Lemma round_root s L f : fs_ok s L → L !! 1 = Some f → Z.of_nat (length (fdat f)) ≤ 71680 → ∃ din im,
  rinode 1 s = Done (din, s) ∧
  winode 1 (set_num_bytes (xint (u32 ((xint (num_bytes din) / BLOCK_SIZE + 1) * BLOCK_SIZE))) din) s = Done (tt, set_img im s) ∧
  roomy im (freeblock s) ∧
  (let d := read_inode im 1 in dtype d = fty f ∧ num_bytes d = 512 * (Z.of_nat (length (fdat f)) / 512 + 1) ∧
     contains im d (fbs f) (fib f) (fdat f) ∧ din_ok d ∧ holds_inode im 1 d) ∧
  (∀ j d, 1 < j < 208 → holds_inode (img s) j d → holds_inode im j d) ∧
  (∀ n, 0 ≤ n < 65 ∨ nmeta ≤ n → im !! Z.to_nat n = img s !! Z.to_nat n).
Proof.
  intros Hok Hi Hlen. pose proof (f_sb _ _ Hok) as Hsb. pose proof (f_roomy _ _ Hok) as Hr. pose proof (f_next _ _ Hok).
  destruct (f_files _ _ Hok _ _ Hi) as (din & Dok & Hin & Hc & Ht & Hl & Hn).
  set (off := 512 * (Z.of_nat (length (fdat f)) / 512 + 1)). set (din2 := set_num_bytes off din).
  assert (Hoff : 0 ≤ off < 2 ^ 32) by (unfold off; Z.to_euclidean_division_equations; lia).
  destruct (winode_done 1 din2 s (freeblock s) Hsb ltac:(lia) Hr (proj1 (d_addrs _ Dok))) as (im & Ew & Hr' & HI & HO & HF).
  assert (Dok2 : din_ok din2) by (destruct Dok; by split).
  exists din, im. split; [exact (rinode_done 1 din s Hsb ltac:(lia) Hin Dok)|]. split; [|split; [done|split; [|split; [|done]]]].
  - rewrite Hn, (xint_id (Z.of_nat _)) by (split; lia). unfold BLOCK_SIZE. rewrite (Z.mul_comm _ 512). fold off.
    by rewrite u32_small, xint_id by done.
  - rewrite (read_inode_eq im 1 din2) by done. do 2 (split; [done|]). split; [|done].
    eapply contains_frame; [exact Hc|done|done|]. intros x Hx. apply HF. right. by apply (f_owns _ _ Hok _ _ Hi).
  - intros j d Hj. apply HO; lia.
Qed.

(** The bitmap goes between the inodes and the data. *)
Lemma balloc_done s : sb s = make_super → roomy (img s) (freeblock s) → ∃ im, balloc (freeblock s) s = Done (tt, set_img im s) ∧
  length im = 1000%nat ∧ (∀ b, 0 ≤ b < 4096 → bitmap_bit im b = bool_decide (b < freeblock s)) ∧
  (∀ n, n ≠ 91 → 0 ≤ n → im !! Z.to_nat n = img s !! Z.to_nat n).
Proof.
  intros Hsb Hr. pose proof (r_fb _ _ Hr) as Hfb. change nmeta with 92 in Hfb. unfold FSSIZE in Hfb. pose proof (r_len _ _ Hr) as Hlen.
  exists (<[Z.to_nat 91 := bit_buf (freeblock s)]> (img s)). split; [|split; [by rewrite length_insert|split]].
  - unfold balloc. rewrite (bind_done _ _ s tt s), (bind_done _ _ s (sb s) s); [|done|].
    + rewrite Hsb. change (bitmap_start make_super) with 91. apply wsect_done; [lia|done].
    + apply assert_true, bool_decide_eq_true. unfold BLOCK_SIZE. lia.
  - intros b Hb. unfold bitmap_bit, sector_at. rewrite list_lookup_insert_eq by lia. simpl default. apply bit_buf_bits; lia.
  - intros n Hn H0. apply list_lookup_insert_ne. lia.
Qed.

Lemma holds_inode_frame im im' i d : 0 ≤ i < 208 → (∀ n, n ≠ 91 → 0 ≤ n → im' !! Z.to_nat n = im !! Z.to_nat n) → holds_inode im i d → holds_inode im' i d.
Proof.
  intros Hi H (buf & Hb & Ht). exists buf. split; [|done]. destruct (inode_place i (mkFs [] make_super 1 0) eq_refl Hi) as (_ & _ & Hr & _).
  rewrite H by lia. done.
Qed.

(** C3: [mkfs] with files that fit builds an image of [FSSIZE] blocks with the super
    block, in which a reader finds every file under the inode the root directory
    gives for its name, byte for byte, and a bitmap with exactly the blocks in use.
    The size of the root directory is rounded up beyond its entries. *)
Theorem mkfs_builds fs : (∀ p c, (p, c) ∈ fs → host_open p = Some c ∧ Z.of_nat (length (mjoin c)) ≤ INODE_MAX_BLOCKS * BLOCK_SIZE) →
  (length fs ≤ 206)%nat → nmeta + blocks_for (16 * (length fs + 2)) + total_blocks fs ≤ FSSIZE →
  ∃ s', main host_open (fst <$> fs) new_image = Done (tt, s') ∧ let im := img s' in
    length im = Z.to_nat FSSIZE ∧ sector_at im 1 = super_block ∧
    (∀ k p c, fs !! k = Some (p, c) → let d := read_inode im (2 + Z.of_nat k) in
       dtype d = INODE_REGULAR ∧ num_links d = 1 ∧ num_bytes d = Z.of_nat (length (mjoin c)) ∧ read_bytes im d (length (mjoin c)) = mjoin c) ∧
    (let d := read_inode im ROOT_INODE_NO in let n := (16 * (length fs + 2))%nat in
       dtype d = INODE_DIRECTORY ∧ num_bytes d = 512 * (Z.of_nat n / 512 + 1) ∧ read_bytes im d n = root_dir fs) ∧
    (∀ b, 0 ≤ b < 4096 → bitmap_bit im b = bool_decide (b < nmeta + blocks_for (16 * (length fs + 2)) + total_blocks fs)).
Proof.
  change (INODE_MAX_BLOCKS * BLOCK_SIZE) with 71680. intros Hh Hn Hroom.
  destruct (files_written fs Hh Hn Hroom) as (s1 & s2 & s3 & s & L & bs & ib & E1 & E2 & E3 & E4 & Hok & Hroot & Hls & Hfb).
  pose proof (length_root_dir fs) as Hrl.
  destruct (round_root s L _ Hok Hroot) as (din & im1 & Er & Ew & Hr1 & (Ht & Hnb & Hc & Dok & Hin) & HI & HF); [cbn [fdat]; lia|].
  cbn [fdat fbs fib fty] in *. rewrite Hrl in Hnb. destruct (balloc_done (set_img im1 s) (f_sb _ _ Hok) Hr1) as (im & Eb & Hlen & Hbits & Hfr).
  exists (set_img im s). split; [|split; [done|split; [|split; [|split]]]].
  - unfold main. rewrite (bind_done _ _ new_image tt (mkFs [] make_super 1 nmeta)) by done. m_step clear_image.
    rewrite (bind_done _ _ blank (sb blank) blank) by done. m_step super_written. m_step E1. rewrite (bind_done _ _ s1 tt s1) by done.
    m_step E2. m_step E3. m_step E4. m_step Er. m_step Ew. exact Eb.
  - unfold sector_at. simpl img. rewrite Hfr by lia. simpl img. rewrite HF by (left; lia). by rewrite (f_super _ _ Hok).
  - intros k p c Hk. destruct (Hls k p c Hk) as (bs' & ib' & HL). pose proof (lookup_lt_Some _ _ _ Hk).
    refine (file_read (img s) im (freeblock s) (2 + Z.of_nat k) _ (f_roomy _ _ Hok) (f_files _ _ Hok _ _ HL) (f_owns _ _ Hok _ _ HL) _ _).
    + intros d Hd. eapply holds_inode_frame; [lia|exact Hfr|]. apply HI; [lia|done].
    + intros n Hge. change nmeta with 92 in Hge. rewrite Hfr by lia. apply HF. by right.
  - simpl img. change ROOT_INODE_NO with 1. assert (Ed : read_inode im 1 = read_inode im1 1).
    { apply read_inode_eq; [|done]. eapply holds_inode_frame; [lia|exact Hfr|done]. }
    cbv zeta. rewrite Ed. split; [done|]. split; [done|]. rewrite <-Hrl. eapply contains_read, contains_frame; [exact Hc|done|done|].
    intros x Hx. pose proof (o_range _ _ _ (f_owns _ _ Hok _ _ Hroot) x Hx) as Hxr. change nmeta with 92 in Hxr. apply Hfr; lia.
  - intros b Hb. rewrite <-Hfb. by apply Hbits.
Qed.
End image.

(** ** An image with two files *)
Definition sample_host (p : list Z) : option (list (list Z)) :=
  if decide (p = [47; 98; 47; 95; 97]) then Some [replicate 512 7; replicate 512 8; [9; 9; 9]]
  else if decide (p = [99]) then Some [] else None.

Lemma mkfs_builds_witness : ∃ s', main sample_host [[47; 98; 47; 95; 97]; [99]] new_image = Done (tt, s') ∧
  read_bytes (img s') (read_inode (img s') 2) 1027 = replicate 512 7 ++ replicate 512 8 ++ [9; 9; 9].
Proof.
  destruct (mkfs_builds sample_host [([47; 98; 47; 95; 97], [replicate 512 7; replicate 512 8; [9; 9; 9]]); ([99], [])])
    as (s' & E & _ & _ & Hf & _).
  - intros p c [[= -> ->]|[[= -> ->]|Hx]%elem_of_cons]%elem_of_cons; [by vm_compute|by vm_compute|by apply elem_of_nil in Hx].
  - simpl; lia.
  - by vm_compute.
  - exists s'. split; [exact E|]. apply (Hf 0%nat _ _ eq_refl).
Defined.
