(* ===== verification/RbTree.v ===== *)
(** * Red-black trees ([common/rbtree.c], [common/rbtree.h])

    The nodes embedded in other structures are in a heap by address; the parent
    and the colour of a node share a word, as in the source.  The branches of
    [__rb_insert_fix] and [__rb_erase_fix] for the two sides are the same code with
    [rb_left] and [rb_right] exchanged; here each is one definition with a side.
    The comparison of two nodes, which reads the structures around them, is a
    parameter. *)
From S2P Require Import Prelude Words.

Record rb_node := mkRb { pc : Z; rb_right : Z; rb_left : Z }.
Record rb_root := mkRoot { rnodes : gmap Z rb_node; root_node : Z }.

Definition RB_RED : Z := 0.
Definition RB_BLACK : Z := 1.

Variant side := Left | Right.
#[export] Instance side_eq_dec : EqDecision side.
Proof. solve_decision. Defined.
Definition opp (d : side) : side := match d with Left => Right | Right => Left end.

(** ** Nodes *)
Definition ld (p : Z) : M rb_root rb_node := λ s,
  if decide (p = 0) then Crash
  else match rnodes s !! p with Some n => Done (n, s) | None => Crash end.
Definition st (p : Z) (n : rb_node) : M rb_root unit := λ s,
  if decide (p = 0) then Crash
  else match rnodes s !! p with Some _ => Done (tt, mkRoot (<[p := n]> (rnodes s)) (root_node s)) | None => Crash end.

Definition child_of (d : side) (n : rb_node) : Z := match d with Left => rb_left n | Right => rb_right n end.
Definition with_child (d : side) (q : Z) (n : rb_node) : rb_node :=
  match d with Left => mkRb (pc n) (rb_right n) q | Right => mkRb (pc n) q (rb_left n) end.
Definition get_child (d : side) (p : Z) : M rb_root Z := n ← ld p; mret (child_of d n).
Definition set_child (d : side) (p q : Z) : M rb_root unit := n ← ld p; st p (with_child d q n).
Definition get_pc (p : Z) : M rb_root Z := n ← ld p; mret (pc n).
Definition set_pc (p v : Z) : M rb_root unit := n ← ld p; st p (mkRb v (rb_right n) (rb_left n)).
Definition set_root (p : Z) : M rb_root unit := modify (λ s, mkRoot (rnodes s) p).

Definition __rb_parent (v : Z) : Z := Z.land v (unot 64 3).
Definition __rb_color (v : Z) : Z := Z.land v 1.
Definition rb_parent (r : Z) : M rb_root Z := v ← get_pc r; mret (__rb_parent v).
Definition rb_is_red (r : Z) : M rb_root bool := v ← get_pc r; mret (bool_decide (__rb_color v = 0)).
Definition rb_is_black (r : Z) : M rb_root bool := v ← get_pc r; mret (bool_decide (__rb_color v ≠ 0)).
Definition rb_set_black (r : Z) : M rb_root unit := v ← get_pc r; set_pc r (Z.lor v RB_BLACK).
Definition rb_red_parent (red : Z) : M rb_root Z := get_pc red.
Definition rb_set_parent (r p : Z) : M rb_root unit := v ← get_pc r; set_pc r (Z.lor (__rb_color v) p).
Definition rb_set_parent_color (r p color : Z) : M rb_root unit := set_pc r (Z.lor p color).

(** [if (tmp) rb_set_parent_color(tmp, p, RB_BLACK)] *)
Definition black_child (tmp p : Z) : M rb_root unit :=
  if decide (tmp ≠ 0) then rb_set_parent_color tmp p RB_BLACK else mret tt.
(** [!tmp || rb_is_black(tmp)] and [tmp && rb_is_red(tmp)] *)
Definition null_or_black (tmp : Z) : M rb_root bool := if decide (tmp = 0) then mret true else rb_is_black tmp.
Definition not_null_red (tmp : Z) : M rb_root bool := if decide (tmp = 0) then mret false else rb_is_red tmp.

Definition __rb_change_child (old new parent : Z) : M rb_root unit :=
  if decide (parent ≠ 0) then
    l ← get_child Left parent;
    if decide (l = old) then set_child Left parent new else set_child Right parent new
  else set_root new.
Definition __rb_rotate_set_parents (old new color : Z) : M rb_root unit :=
  parent ← rb_parent old;
  v ← get_pc old;
  set_pc new v;;
  rb_set_parent_color old new color;;
  __rb_change_child old new parent.

(** ** Insertion *)
(** The turn of [__rb_insert_fix] for a red [parent] that is the child of [gparent]
    on the side [d]; [tmp] is the other child of [gparent]. *)
Definition insert_fix_side (d : side) (node parent gparent tmp : Z) : M rb_root ((Z * Z) + unit) :=
  red ← not_null_red tmp;
  if (red : bool) then
    rb_set_parent_color tmp gparent RB_BLACK;;
    rb_set_parent_color parent gparent RB_BLACK;;
    parent ← rb_parent gparent;
    rb_set_parent_color gparent parent RB_RED;;
    mret (inl (gparent, parent))
  else
    tmp ← get_child (opp d) parent;
    '(parent, tmp) ← (if decide (node = tmp) then
        tmp ← get_child d node;
        set_child (opp d) parent tmp;;
        black_child tmp parent;;
        set_child d node parent;;
        rb_set_parent_color parent node RB_RED;;
        tmp ← get_child (opp d) node;
        mret (node, tmp)
      else mret (parent, tmp));
    set_child d gparent tmp;;
    black_child tmp gparent;;
    set_child (opp d) parent gparent;;
    __rb_rotate_set_parents gparent parent RB_RED;;
    mret (inr tt).
Definition insert_fix_turn (a : Z * Z) : M rb_root ((Z * Z) + unit) :=
  let '(node, parent) := a in
  if decide (parent = 0) then
    rb_set_parent_color node 0 RB_BLACK;; set_root node;; mret (inr tt)
  else
    black ← rb_is_black parent;
    if (black : bool) then mret (inr tt)
    else
      gparent ← rb_red_parent parent;
      tmp ← get_child Right gparent;
      if decide (parent ≠ tmp) then insert_fix_side Left node parent gparent tmp
      else tmp ← get_child Left gparent; insert_fix_side Right node parent gparent tmp.
Definition __rb_insert_fix (fuel : nat) (node : Z) : M rb_root unit :=
  parent ← rb_red_parent node;
  loop fuel insert_fix_turn (node, parent).

Section comparison.
Context (cmp : Z → Z → bool).

(** Walking down: the child on the side [d], or the new node in its place. *)
Definition insert_down (d : side) (node nw : Z) : M rb_root (Z + bool) :=
  nxt ← get_child d nw;
  (if decide (nxt = 0) then set_child d nw node;; set_pc node nw else mret tt);;
  mret (if decide (nxt = 0) then inr true else inl nxt).
(** The loop of [_rb_insert]; it answers false for a node that compares equal. *)
Definition insert_turn (node nw : Z) : M rb_root (Z + bool) :=
  if decide (nw = 0) then mret (inr true)
  else if cmp node nw then insert_down Left node nw
  else if cmp nw node then insert_down Right node nw
  else mret (inr false).
Definition _rb_insert (fuel : nat) (node : Z) : M rb_root Z :=
  nw ← gets root_node;
  set_child Left node 0;; set_child Right node 0;;
  set_pc node 0;;
  ok ← loop fuel (insert_turn node) nw;
  if (ok : bool) then __rb_insert_fix fuel node;; mret 0 else mret (-1).

(** ** Lookup *)
Definition lookup_turn (node nw : Z) : M rb_root (Z + Z) :=
  if decide (nw = 0) then mret (inr 0)
  else if cmp node nw then l ← get_child Left nw; mret (inl l)
  else if cmp nw node then r ← get_child Right nw; mret (inl r)
  else mret (inr nw).
Definition _rb_lookup (fuel : nat) (node : Z) : M rb_root Z :=
  nw ← gets root_node; loop fuel (lookup_turn node) nw.
End comparison.

(** [while (n->rb_left) n = n->rb_left;] *)
Definition first_turn (n : Z) : M rb_root (Z + Z) :=
  l ← get_child Left n; mret (if decide (l = 0) then inr n else inl l).
Definition _rb_first (fuel : nat) : M rb_root Z :=
  n ← gets root_node;
  if decide (n = 0) then mret 0 else loop fuel first_turn n.

(** ** Removal *)
(** The walk to the successor: [parent] and [successor]. *)
Definition successor_turn (a : Z * Z * Z) : M rb_root ((Z * Z * Z) + (Z * Z)) :=
  let '(parent, successor, tmp) := a in
  let parent := successor in
  let successor := tmp in
  tmp ← get_child Left tmp;
  mret (if decide (tmp = 0) then inr (parent, successor) else inl (parent, successor, tmp)).

(** The successor of a node whose right child is [child], taken out of its place:
    [parent], [successor] and [child2]. *)
Definition take_successor (fuel : nat) (child : Z) : M rb_root (Z * Z * Z) :=
  tmp ← get_child Left child;
  if decide (tmp = 0) then
    child2 ← get_child Right child; mret (child, child, child2)
  else
    '(parent, successor) ← loop fuel successor_turn (0, child, tmp);
    child2 ← get_child Right successor;
    set_child Left parent child2;;
    set_child Right successor child;;
    rb_set_parent child successor;;
    mret (parent, successor, child2).
(** The removal of a [node] with two children; what has to be rebalanced. *)
Definition erase_two (fuel : nat) (node child : Z) : M rb_root Z :=
  '(parent, successor, child2) ← take_successor fuel child;
  tmp ← get_child Left node;
  set_child Left successor tmp;;
  rb_set_parent tmp successor;;
  v ← get_pc node;
  __rb_change_child node successor (__rb_parent v);;
  if decide (child2 ≠ 0) then
    set_pc successor v;;
    rb_set_parent_color child2 parent RB_BLACK;;
    mret 0
  else
    v2 ← get_pc successor;
    set_pc successor v;;
    mret (if decide (__rb_color v2 ≠ 0) then parent else 0).
Definition __rb_erase (fuel : nat) (node : Z) : M rb_root Z :=
  child ← get_child Right node;
  tmp ← get_child Left node;
  if decide (tmp = 0) then
    v ← get_pc node;
    let parent := __rb_parent v in
    __rb_change_child node child parent;;
    if decide (child ≠ 0) then set_pc child v;; mret 0
    else mret (if decide (__rb_color v ≠ 0) then parent else 0)
  else if decide (child = 0) then
    v ← get_pc node;
    set_pc tmp v;;
    __rb_change_child node tmp (__rb_parent v);;
    mret 0
  else erase_two fuel node child.

(** Case 1 of [__rb_erase_fix], for a [sibling] on the side [opp d] of [parent]; the
    sibling that the other cases see. *)
Definition erase_fix_red (d : side) (parent sibling : Z) : M rb_root Z :=
  red ← rb_is_red sibling;
  if (red : bool) then
    tmp1 ← get_child d sibling;
    set_child (opp d) parent tmp1;;
    rb_set_parent_color tmp1 parent RB_BLACK;;
    set_child d sibling parent;;
    __rb_rotate_set_parents parent sibling RB_RED;;
    mret tmp1
  else mret sibling.
(** The last rotation: the code after cases 2 and 3. *)
Definition erase_fix_last (d : side) (parent tmp1 sibling : Z) : M rb_root ((Z * Z) + unit) :=
  tmp2 ← get_child d sibling;
  set_child (opp d) parent tmp2;;
  (if decide (tmp2 ≠ 0) then rb_set_parent tmp2 parent else mret tt);;
  set_child d sibling parent;;
  rb_set_parent_color tmp1 sibling RB_BLACK;;
  __rb_rotate_set_parents parent sibling RB_BLACK;;
  mret (inr tt).
Definition erase_fix_black (d : side) (parent sibling : Z) : M rb_root ((Z * Z) + unit) :=
  tmp1 ← get_child (opp d) sibling;
  b1 ← null_or_black tmp1;
  if (b1 : bool) then
    tmp2 ← get_child d sibling;
    b2 ← null_or_black tmp2;
    if (b2 : bool) then (* case 2 *)
      rb_set_parent_color sibling parent RB_RED;;
      red ← rb_is_red parent;
      if (red : bool) then rb_set_black parent;; mret (inr tt)
      else
        up ← rb_parent parent;
        mret (if decide (up ≠ 0) then inl (parent, up) else inr tt)
    else (* case 3 *)
      tmp1 ← get_child (opp d) tmp2;
      set_child d sibling tmp1;;
      black_child tmp1 sibling;;
      set_child (opp d) tmp2 sibling;;
      set_child (opp d) parent tmp2;;
      erase_fix_last d parent sibling tmp2
  else erase_fix_last d parent tmp1 sibling.
Definition erase_fix_side (d : side) (parent sibling : Z) : M rb_root ((Z * Z) + unit) :=
  sibling ← erase_fix_red d parent sibling; erase_fix_black d parent sibling.
Definition erase_fix_turn (a : Z * Z) : M rb_root ((Z * Z) + unit) :=
  let '(node, parent) := a in
  sibling ← get_child Right parent;
  if decide (node ≠ sibling) then erase_fix_side Left parent sibling
  else sibling ← get_child Left parent; erase_fix_side Right parent sibling.
Definition __rb_erase_fix (fuel : nat) (parent : Z) : M rb_root unit :=
  loop fuel erase_fix_turn (0, parent).
Definition _rb_erase (fuel : nat) (node : Z) : M rb_root unit :=
  rebalance ← __rb_erase fuel node;
  if decide (rebalance ≠ 0) then __rb_erase_fix fuel rebalance else mret tt.
