(* ===== verification/RbRep.v ===== *)
(** * Trees in the heap of [rbtree.c]

    A functional tree, the heap that holds it, and the same with a hole in the
    tree: the path from the hole to the root.  [at_hole s k t]: the heap of [s]
    holds the tree [plug k t], seen from its subtree [t]. *)
From S2P Require Import Prelude Words RbTree.

(** ** Trees and paths *)
(** The colour [true] is black. *)
Inductive tree := E | T (c : bool) (l : tree) (a : Z) (r : tree).

Definition addr (t : tree) : Z := match t with E => 0 | T _ _ a _ => a end.
Fixpoint els (t : tree) : list Z := match t with E => [] | T _ l a r => els l ++ a :: els r end.
(** The tree with [x] on the side [d] of [a] and [y] on the other. *)
Definition node (d : side) (c : bool) (x : tree) (a : Z) (y : tree) : tree :=
  match d with Left => T c x a y | Right => T c y a x end.

(** A step of a path: the hole is on the side [fd] of [fp]; the other child is [fs]. *)
Record frame := mkFrame { fd : side; fc : bool; fp : Z; fs : tree }.
Abbreviation path := (list frame).
Fixpoint plug (k : path) (t : tree) : tree :=
  match k with [] => t | f :: k => plug k (node (fd f) (fc f) t (fp f) (fs f)) end.
Definition paddr (k : path) : Z := match k with [] => 0 | f :: _ => fp f end.
Fixpoint top (k : path) (x : Z) : Z := match k with [] => x | f :: k => top k (fp f) end.
(** The nodes of a path, and their order around the hole. *)
Fixpoint elc (k : path) : list Z := match k with [] => [] | f :: k => fp f :: els (fs f) ++ elc k end.
Fixpoint before (k : path) : list Z :=
  match k with [] => [] | f :: k => before k ++ match fd f with Left => [] | Right => els (fs f) ++ [fp f] end end.
Fixpoint after (k : path) : list Z :=
  match k with [] => [] | f :: k => match fd f with Left => fp f :: els (fs f) | Right => [] end ++ after k end.

Lemma els_node d c x a y : els (node d c x a y) = match d with Left => els x ++ a :: els y | Right => els y ++ a :: els x end.
Proof. by destruct d. Qed.
Lemma els_plug k t : els (plug k t) = before k ++ els t ++ after k.
Proof.
  revert t. induction k as [|[d c p s] k IH]; intros t; simpl; [by rewrite app_nil_r|]. rewrite IH, els_node.
  destruct d; simpl; rewrite <-?app_assoc; simpl; by rewrite ?app_nil_r, <-?app_assoc.
Qed.
Lemma elc_perm k : elc k ≡ₚ before k ++ after k.
Proof.
  induction k as [|[d c p s] k IH]; [done|]. cbn [elc before after fd fc fp fs]. rewrite IH.
  destruct d; simpl; [rewrite app_nil_r|]; solve_Permutation.
Qed.
Lemma els_node_perm d c x a y : els (node d c x a y) ≡ₚ a :: els x ++ els y.
Proof. rewrite els_node. destruct d; solve_Permutation. Qed.

(** ** Words *)
Definition cz (c : bool) : Z := if c then RB_BLACK else RB_RED.
Definition word (p : Z) (c : bool) : Z := Z.lor p (cz c).
Definition node_addr (a : Z) : Prop := 0 < a < 2 ^ 64 ∧ a mod 4 = 0.

Lemma aligned_bits a i : a mod 4 = 0 → 0 ≤ i < 2 → Z.testbit a i = false.
Proof.
  intros Ha Hi. rewrite <-(Z.mod_pow2_bits_low a 2 i) by lia. change (2 ^ 2) with 4. rewrite Ha. apply Z.bits_0.
Qed.
Lemma color_word a c : a mod 4 = 0 → __rb_color (word a c) = cz c.
Proof.
  intros Ha. unfold __rb_color, word. rewrite Z.land_lor_distr_l. replace (Z.land a 1) with 0; [by destruct c|].
  symmetry. apply Z.bits_inj'. intros i Hi. rewrite Z.land_spec, Z.bits_0.
  destruct (decide (i = 0)) as [->|Hne]; [by rewrite aligned_bits by (done || lia)|]. rewrite andb_comm, (Z.bits_above_log2 1); [done|lia|simpl; lia].
Qed.
Lemma parent_word a c : a mod 4 = 0 → 0 ≤ a < 2 ^ 64 → __rb_parent (word a c) = a.
Proof.
  intros Ha Hr. unfold __rb_parent, word, unot. rewrite Z.land_lor_distr_l.
  replace (Z.land (cz c) (Z.lxor 3 (Z.ones 64))) with 0 by by destruct c. rewrite Z.lor_0_r.
  apply Z.bits_inj'. intros i Hi. rewrite Z.land_spec, Z.lxor_spec. destruct (decide (i < 2)).
  - by rewrite aligned_bits by (done || lia).
  - destruct (decide (i < 64)).
    + rewrite Z.ones_spec_low by lia. rewrite (Z.bits_above_log2 3); [by rewrite andb_true_r|lia|change (Z.log2 3) with 1; lia].
    + by rewrite (testbit_high 64 a) by (done || lia).
Qed.
Lemma word_red a : word a false = a.
Proof. apply Z.lor_0_r. Qed.
Lemma cz_0 c : cz c = 0 ↔ c = false.
Proof. by destruct c. Qed.

(** ** The heap of a tree *)
Definition mk (d : side) (v x y : Z) : rb_node := match d with Left => mkRb v y x | Right => mkRb v x y end.
Implicit Types (h : gmap Z rb_node) (t l r x y : tree) (k : path) (d : side) (c : bool) (a p q v : Z) (s : rb_root).

Fixpoint rep h p t : Prop :=
  match t with E => True | T c l a r => h !! a = Some (mkRb (word p c) (addr r) (addr l)) ∧ rep h a l ∧ rep h a r end.
Fixpoint repc h k (q : Z) : Prop :=
  match k with
  | [] => True
  | f :: k => h !! fp f = Some (mk (fd f) (word (paddr k) (fc f)) q (addr (fs f))) ∧ rep h (fp f) (fs f) ∧ repc h k (fp f)
  end.

Lemma child_mk d v (x y : Z) : child_of d (mk d v x y) = x ∧ child_of (opp d) (mk d v x y) = y.
Proof. by destruct d. Qed.
Lemma with_child_mk d v (x y q : Z) : with_child d q (mk d v x y) = mk d v q y ∧ with_child (opp d) q (mk d v x y) = mk d v x q.
Proof. by destruct d. Qed.
Lemma pc_mk d v (x y : Z) : pc (mk d v x y) = v.
Proof. by destruct d. Qed.
Lemma repc_mk d v (x y w : Z) : mkRb w (rb_right (mk d v x y)) (rb_left (mk d v x y)) = mk d w x y.
Proof. by destruct d. Qed.
Lemma mk_opp d v (x y : Z) : mk (opp d) v x y = mk d v y x.
Proof. by destruct d. Qed.
Lemma opp_opp d : opp (opp d) = d.
Proof. by destruct d. Qed.
Lemma addr_node d c x a y : addr (node d c x a y) = a.
Proof. by destruct d. Qed.
Lemma node_opp d c x a y : node (opp d) c x a y = node d c y a x.
Proof. by destruct d. Qed.

Lemma rep_node h p d c x a y : rep h p (node d c x a y) ↔ h !! a = Some (mk d (word p c) (addr x) (addr y)) ∧ rep h a x ∧ rep h a y.
Proof. destruct d; simpl; tauto. Qed.
Lemma rep_ext h h' p t : (∀ a, a ∈ els t → h' !! a = h !! a) → rep h p t → rep h' p t.
Proof.
  revert p. induction t as [|c l IHl a r IHr]; intros p H; [done|]. intros (Ha & Hl & Hr). cbn [rep els] in *.
  split; [rewrite H; [done|set_solver]|]. split; [apply IHl|apply IHr]; auto; set_solver.
Qed.
Lemma repc_ext h h' k q : (∀ a, a ∈ elc k → h' !! a = h !! a) → repc h k q → repc h' k q.
Proof.
  revert q. induction k as [|f k IH]; intros q H; [done|]. intros (Ha & Hs & Hk). cbn [repc elc] in *.
  split; [rewrite H; [done|set_solver]|]. split; [eapply rep_ext; [|done]; set_solver|apply IH; [set_solver|done]].
Qed.

Record at_hole s k t : Prop := {
  at_rep : rep (rnodes s) (paddr k) t;
  at_path : repc (rnodes s) k (addr t);
  at_root : root_node s = top k (addr t);
  at_nodup : NoDup (els t ++ elc k);
  at_addr : Forall node_addr (els t ++ elc k)
}.

(** Going up and down. *)
Lemma at_up s f k t : at_hole s (f :: k) t ↔ at_hole s k (node (fd f) (fc f) t (fp f) (fs f)).
Proof.
  assert (Hp : els (node (fd f) (fc f) t (fp f) (fs f)) ++ elc k ≡ₚ els t ++ elc (f :: k)).
  { rewrite els_node_perm. cbn [elc]. solve_Permutation. }
  split; intros [H1 H2 H3 H4 H5]; cbn [repc top paddr] in *.
  - split; rewrite ?Hp; rewrite ?addr_node; [rewrite rep_node; tauto|tauto|done..].
  - rewrite Hp in *. rewrite addr_node in *. apply rep_node in H1 as (? & ? & ?). by split.
Qed.
Lemma at_plug s k t : at_hole s k t ↔ at_hole s [] (plug k t).
Proof. revert t. induction k as [|f k IH]; intros t; [done|]. rewrite at_up. apply IH. Qed.

(** ** The operations on nodes *)
Lemma ld_eq p n s : p ≠ 0 → rnodes s !! p = Some n → ld p s = Done (n, s).
Proof. intros H1 H2. unfold ld. by rewrite decide_False, H2. Qed.
Lemma get_child_eq d p n s : p ≠ 0 → rnodes s !! p = Some n → get_child d p s = Done (child_of d n, s).
Proof. intros H1 H2. unfold get_child. by m_step (ld_eq p n s H1 H2). Qed.
Lemma get_pc_eq p n s : p ≠ 0 → rnodes s !! p = Some n → get_pc p s = Done (pc n, s).
Proof. intros H1 H2. unfold get_pc. by m_step (ld_eq p n s H1 H2). Qed.
Lemma st_eq p n n' s : p ≠ 0 → rnodes s !! p = Some n → st p n' s = Done (tt, mkRoot (<[p := n']> (rnodes s)) (root_node s)).
Proof. intros H1 H2. unfold st. by rewrite decide_False, H2. Qed.
Lemma set_child_eq d p q n s : p ≠ 0 → rnodes s !! p = Some n →
  set_child d p q s = Done (tt, mkRoot (<[p := with_child d q n]> (rnodes s)) (root_node s)).
Proof. intros H1 H2. unfold set_child. m_step (ld_eq p n s H1 H2). by eapply st_eq. Qed.
Lemma set_pc_eq p v n s : p ≠ 0 → rnodes s !! p = Some n →
  set_pc p v s = Done (tt, mkRoot (<[p := mkRb v (rb_right n) (rb_left n)]> (rnodes s)) (root_node s)).
Proof. intros H1 H2. unfold set_pc. m_step (ld_eq p n s H1 H2). by eapply st_eq. Qed.

(** A parent: no node, or a node. *)
Definition parent_ok (p : Z) : Prop := p = 0 ∨ node_addr p.
Lemma parent_ok_mod p : parent_ok p → p mod 4 = 0 ∧ 0 ≤ p < 2 ^ 64.
Proof. intros [->|[? ?]]; [done|]. split; [done|lia]. Qed.
Lemma node_addr_pos a : node_addr a → a ≠ 0.
Proof. intros [? ?]. lia. Qed.
Create HintDb rb.
#[export] Hint Resolve node_addr_pos : rb.

Lemma rb_is_red_eq a n p c s : a ≠ 0 → rnodes s !! a = Some n → pc n = word p c → parent_ok p → rb_is_red a s = Done (negb c, s).
Proof.
  intros H1 H2 H3 [H4 _]%parent_ok_mod. unfold rb_is_red. m_step (get_pc_eq a n s H1 H2). rewrite H3, color_word by done. by destruct c.
Qed.
Lemma rb_is_black_eq a n p c s : a ≠ 0 → rnodes s !! a = Some n → pc n = word p c → parent_ok p → rb_is_black a s = Done (c, s).
Proof.
  intros H1 H2 H3 [H4 _]%parent_ok_mod. unfold rb_is_black. m_step (get_pc_eq a n s H1 H2). rewrite H3, color_word by done. by destruct c.
Qed.
Lemma rb_parent_eq a n p c s : a ≠ 0 → rnodes s !! a = Some n → pc n = word p c → parent_ok p → rb_parent a s = Done (p, s).
Proof.
  intros H1 H2 H3 [H4 H5]%parent_ok_mod. unfold rb_parent. m_step (get_pc_eq a n s H1 H2). by rewrite H3, parent_word.
Qed.
Lemma rb_set_parent_eq a n p c q s : a ≠ 0 → rnodes s !! a = Some n → pc n = word p c → parent_ok p →
  rb_set_parent a q s = Done (tt, mkRoot (<[a := mkRb (word q c) (rb_right n) (rb_left n)]> (rnodes s)) (root_node s)).
Proof.
  intros H1 H2 H3 [H4 _]%parent_ok_mod. unfold rb_set_parent. m_step (get_pc_eq a n s H1 H2). rewrite H3, color_word by done.
  rewrite Z.lor_comm. by apply set_pc_eq.
Qed.
Lemma set_parent_color_eq a n q c s : a ≠ 0 → rnodes s !! a = Some n →
  rb_set_parent_color a q (cz c) s = Done (tt, mkRoot (<[a := mkRb (word q c) (rb_right n) (rb_left n)]> (rnodes s)) (root_node s)).
Proof. intros H1 H2. by apply set_pc_eq. Qed.

Lemma paddr_ok k : Forall node_addr (elc k) → parent_ok (paddr k).
Proof. destruct k as [|f k]; [by left|]. intros [H _]%Forall_cons. by right. Qed.

(** Another node takes the place of [old] under its parent. *)
Lemma change_child_spec h k (old new : Z) : repc h k old → NoDup (elc k) → Forall node_addr (elc k) → old ≠ 0 → old ∉ elc k →
  ∃ h', __rb_change_child old new (paddr k) (mkRoot h (top k old)) = Done (tt, mkRoot h' (top k new)) ∧ repc h' k new ∧
    (∀ a, a ∉ elc k → h' !! a = h !! a).
Proof.
  intros Hr Hn Ha H0 Hni. destruct k as [|[d c p s] k]; [by exists h|]. cbn [repc elc paddr top fd fc fp fs] in *.
  destruct Hr as (Hp & Hs & Hk). apply NoDup_cons in Hn as [Hpn Hn]. apply Forall_cons in Ha as [Hpa Ha].
  assert (Hp0 : p ≠ 0) by auto with rb. assert (Hso : addr s ≠ old).
  { intros <-. destruct s as [|? ? a ?]; [done|]. apply Hni. simpl. set_solver. }
  exists (<[p := mk d (word (paddr k) c) new (addr s)]> h). split; [|split].
  - unfold __rb_change_child. rewrite decide_True by done.
    rewrite (bind_done _ _ _ _ _ (get_child_eq Left p _ (mkRoot h (top k p)) Hp0 Hp)). destruct d; cbn [child_of mk rb_left].
    + rewrite decide_True by done. rewrite (set_child_eq Left p new _ (mkRoot h (top k p)) Hp0 Hp). done.
    + rewrite decide_False by done. rewrite (set_child_eq Right p new _ (mkRoot h (top k p)) Hp0 Hp). done.
  - split; [apply lookup_insert_eq|]. split.
    + eapply rep_ext; [|exact Hs]. intros a Hin. apply lookup_insert_ne. intros ->. set_solver.
    + eapply repc_ext; [|exact Hk]. intros a Hin. apply lookup_insert_ne. intros ->. set_solver.
  - intros a Hin. apply lookup_insert_ne. set_solver.
Qed.

Lemma rotate_spec h k (old new : Z) no nn c c' : h !! old = Some no → pc no = word (paddr k) c → h !! new = Some nn → old ≠ new →
  old ≠ 0 → new ≠ 0 → old ∉ elc k → new ∉ elc k → repc h k old → NoDup (elc k) → Forall node_addr (elc k) →
  ∃ h', __rb_rotate_set_parents old new (cz c') (mkRoot h (top k old)) = Done (tt, mkRoot h' (top k new)) ∧ repc h' k new ∧
    h' !! new = Some (mkRb (word (paddr k) c) (rb_right nn) (rb_left nn)) ∧
    h' !! old = Some (mkRb (word new c') (rb_right no) (rb_left no)) ∧
    (∀ a, a ∉ elc k → a ≠ old → a ≠ new → h' !! a = h !! a).
Proof.
  intros Ho Hpc Hn Hne Ho0 Hn0 Hok Hnk Hr Hnd Hall. pose proof (paddr_ok k Hall) as Hp.
  set (h1 := <[new := mkRb (word (paddr k) c) (rb_right nn) (rb_left nn)]> h).
  set (h2 := <[old := mkRb (word new c') (rb_right no) (rb_left no)]> h1).
  destruct (change_child_spec h2 k old new) as (h' & E & Hr' & Hf); [|done..|].
  { eapply repc_ext; [|exact Hr]. intros a Hin. unfold h2, h1. by rewrite !lookup_insert_ne by (intros ->; done). }
  exists h'. split; [|split; [done|split; [|split]]].
  - unfold __rb_rotate_set_parents. m_step (rb_parent_eq old no (paddr k) c (mkRoot h (top k old)) Ho0 Ho Hpc Hp).
    m_step (get_pc_eq old no (mkRoot h (top k old)) Ho0 Ho). rewrite Hpc.
    m_step (set_pc_eq new (word (paddr k) c) nn (mkRoot h (top k old)) Hn0 Hn).
    rewrite (bind_done _ _ _ _ _ (set_parent_color_eq old no new c' (mkRoot h1 (top k old)) Ho0 ltac:(unfold h1; simpl; by rewrite lookup_insert_ne by done))).
    exact E.
  - rewrite Hf by done. unfold h2. rewrite lookup_insert_ne by done. apply lookup_insert_eq.
  - rewrite Hf by done. apply lookup_insert_eq.
  - intros a H1 H2 H3. rewrite Hf by done. unfold h2, h1. by rewrite !lookup_insert_ne by done.
Qed.

(** ** Regions: nodes and sets of nodes that are pairwise different *)
Lemma regions_label (Rs : list (list Z)) (L : list Z) : L ≡ₚ mjoin Rs → NoDup L → Forall node_addr L →
  ∃ f : Z → nat, ∀ i R, Rs !! i = Some R → NoDup R ∧ Forall node_addr R ∧ ∀ z, z ∈ R → f z = i.
Proof.
  intros ->. induction Rs as [|R Rs IH]; [by exists (λ _, 0%nat)|]. change (mjoin (R :: Rs)) with (R ++ mjoin Rs).
  rewrite NoDup_app, Forall_app. intros (Hn & Hd & Hn') [Ha Ha']. destruct (IH Hn' Ha') as [f Hf].
  exists (λ z, if decide (z ∈ R) then 0%nat else S (f z)). intros [|i] R' HR.
  - injection HR as <-. split; [done|]. split; [done|]. intros z Hz. by rewrite decide_True.
  - cbn in HR. destruct (Hf i R' HR) as (H1 & H2 & H3). split; [done|]. split; [done|]. intros z Hz. rewrite decide_False; [by rewrite H3|].
    intros Hz'. apply (Hd z Hz'). apply list_elem_of_join. exists R'. split; [done|]. by eapply list_elem_of_lookup_2.
Qed.

Lemma at_hole_change s k t s' k' t' : at_hole s k t → els t' ++ elc k' ≡ₚ els t ++ elc k →
  rep (rnodes s') (paddr k') t' → repc (rnodes s') k' (addr t') → root_node s' = top k' (addr t') → at_hole s' k' t'.
Proof. intros [_ _ _ H4 H5] Hp H1 H2 H3. split; rewrite ?Hp; done. Qed.

(** *** Colours of subtrees *)
Definition isblack t : bool := match t with T false _ _ _ => false | _ => true end.
Definition blacken t : tree := match t with E => E | T _ l a r => T true l a r end.

Lemma els_blacken t : els (blacken t) = els t.
Proof. by destruct t. Qed.

Lemma addr_pos t : Forall node_addr (els t) → t ≠ E → addr t ≠ 0.
Proof. destruct t as [|c l a r]; [done|]. intros [_ [H _]%Forall_cons]%Forall_app _. by apply node_addr_pos. Qed.
#[export] Hint Resolve addr_pos : rb.

Lemma blacken_black t : isblack t = true → blacken t = t.
Proof. by destruct t as [|[] l a r]. Qed.

Lemma not_null_red_eq h (r : Z) p t : rep h p t → parent_ok p → (t ≠ E → addr t ≠ 0) →
  not_null_red (addr t) (mkRoot h r) = Done (negb (isblack t), mkRoot h r).
Proof.
  intros Hr Hp Ha. unfold not_null_red. destruct t as [|c l a y]; [done|]. cbn [addr rep] in *. destruct Hr as [Hr _].
  assert (a ≠ 0) by by apply Ha.
  rewrite decide_False by done. rewrite (rb_is_red_eq a _ p c (mkRoot h r)) by done. by destruct c.
Qed.
Lemma null_or_black_eq h (r : Z) p t : rep h p t → parent_ok p → (t ≠ E → addr t ≠ 0) →
  null_or_black (addr t) (mkRoot h r) = Done (isblack t, mkRoot h r).
Proof.
  intros Hr Hp Ha. unfold null_or_black. destruct t as [|c l a y]; [done|]. cbn [addr rep] in *. destruct Hr as [Hr _].
  assert (a ≠ 0) by by apply Ha.
  rewrite decide_False by done. rewrite (rb_is_black_eq a _ p c (mkRoot h r)) by done. by destruct c.
Qed.

(** A subtree gets another parent, and a black root or the colour it had. *)
Definition recolor (c : bool) t : tree := match t with E => E | T _ l a r => T c l a r end.
Lemma rep_recolor h p q c t (v : rb_node) : rep h p t → NoDup (els t) → t ≠ E →
  h !! addr t = Some v → rep (<[addr t := mkRb (word q c) (rb_right v) (rb_left v)]> h) q (recolor c t).
Proof.
  intros Hr Hn Hne Hv. destruct t as [|c0 l a y]; [done|]. cbn [addr rep recolor els] in *. destruct Hr as (Ha & Hl & Hy).
  rewrite Ha in Hv. injection Hv as <-. apply NoDup_app_cons in Hn as (H1 & H2 & _).
  split; [apply lookup_insert_eq|]. split; (eapply rep_ext; [|done]); intros z Hz; apply lookup_insert_ne; congruence.
Qed.

Lemma black_child_spec h (r : Z) p q t : rep h q t → NoDup (els t) → (t ≠ E → addr t ≠ 0) →
  ∃ h', black_child (addr t) p (mkRoot h r) = Done (tt, mkRoot h' r) ∧ rep h' p (blacken t) ∧ (∀ z, z ∉ els t → h' !! z = h !! z).
Proof.
  intros Hr Hn Ha. unfold black_child. destruct t as [|c l a y]; [by exists h|].
  assert (H0 : a ≠ 0) by by apply Ha.
  pose proof Hr as (Hc & _). cbn [addr]. rewrite decide_True by done.
  eexists. split; [exact (set_parent_color_eq a _ p true (mkRoot h r) H0 Hc)|]. split.
  - exact (rep_recolor h q p true (T c l a y) _ Hr Hn ltac:(done) Hc).
  - intros z Hz. apply lookup_insert_ne. intros ->. apply Hz. simpl. set_solver.
Qed.
Lemma set_parent_spec h (r : Z) p q t : rep h q t → parent_ok q → NoDup (els t) → (t ≠ E → addr t ≠ 0) →
  ∃ h', (if decide (addr t ≠ 0) then rb_set_parent (addr t) p else mret tt) (mkRoot h r) = Done (tt, mkRoot h' r) ∧ rep h' p t ∧
    (∀ z, z ∉ els t → h' !! z = h !! z).
Proof.
  intros Hr Hq Hn Ha. destruct t as [|c l a y]; [by exists h|].
  assert (H0 : a ≠ 0) by by apply Ha.
  pose proof Hr as (Hc & _). cbn [addr]. rewrite decide_True by done.
  eexists. split; [exact (rb_set_parent_eq a _ q c p (mkRoot h r) H0 Hc eq_refl Hq)|]. split.
  - exact (rep_recolor h q p c (T c l a y) _ Hr Hn ltac:(done) Hc).
  - intros z Hz. apply lookup_insert_ne. intros ->. apply Hz. simpl. set_solver.
Qed.

(** ** Balance *)
Definition weight (c : bool) : nat := if c then 1 else 0.
(** No red node has a red child, and every path down meets [n] black nodes. *)
Fixpoint balanced t (n : nat) : Prop :=
  match t with
  | E => n = 0%nat
  | T c l _ r => ∃ m, n = (m + weight c)%nat ∧ balanced l m ∧ balanced r m ∧ (c = false → isblack l = true ∧ isblack r = true)
  end.
Definition headblack k : Prop := match k with [] => False | f :: _ => fc f = true end.
(** The same of a path for a hole that expects [n] black nodes. *)
Fixpoint balancedc k (n : nat) : Prop :=
  match k with
  | [] => True
  | f :: k => balanced (fs f) n ∧ (fc f = false → isblack (fs f) = true ∧ headblack k) ∧ balancedc k (n + weight (fc f))
  end.

Lemma balanced_node d c x a y (n : nat) : balanced (node d c x a y) n ↔
  ∃ m, n = (m + weight c)%nat ∧ balanced x m ∧ balanced y m ∧ (c = false → isblack x = true ∧ isblack y = true).
Proof. destruct d; simpl; naive_solver. Qed.
Lemma isblack_node d c x a y : isblack (node d c x a y) = c.
Proof. by destruct d, c. Qed.

Lemma balanced_plug k t (n : nat) : balanced t n → balancedc k n → isblack t = true ∨ headblack k →
  ∃ m, balanced (plug k t) m ∧ isblack (plug k t) = true.
Proof.
  revert t n. induction k as [|f k IH]; intros t n Ht Hk Hb; [exists n; by destruct Hb|]. cbn [balancedc plug] in *.
  destruct Hk as (Hs & Hc & Hk). eapply (IH _ (n + weight (fc f))%nat); [|done|].
  - apply balanced_node. exists n. split; [done|]. split; [done|]. split; [done|]. intros E. destruct (Hc E) as [? ?].
    split; [|done]. destruct Hb as [?|Hb]; [done|]. cbn in Hb. congruence.
  - rewrite isblack_node. destruct (fc f); [by left|]. right. by apply Hc.
Qed.
Lemma balanced_blacken t (n : nat) : balanced t n → isblack t = false → balanced (blacken t) (S n).
Proof.
  destruct t as [|[] l a r]; try done. intros (m & -> & Hl & Hr & Hc) _. exists m. split; [simpl; lia|]. by repeat split.
Qed.

(** ** Tactics *)
(** The region [i] of [regions_label] is one node, or the nodes of a subtree. *)
Ltac single F i := let G := fresh "G" in let R := fresh "R" in
  destruct (F i _ eq_refl) as (_ & [G _]%Forall_cons & R); specialize (R _ ltac:(left)); pose proof (node_addr_pos _ G).
Ltac region F i := let N := fresh "N" in let G := fresh "G" in let R := fresh "R" in
  destruct (F i _ eq_refl) as (N & G & R).
(** Two places are different: they are in different regions. *)
Ltac apart := intros;
  repeat match goal with F : ∀ z, z ∈ ?R → _ = _, H : _ ∈ ?R |- _ => apply F in H end;
  (congruence || (let E := fresh in intros E;
    repeat match goal with F : ∀ z, z ∈ ?R → _ = _, H : _ ∈ ?R |- _ => apply F in H end; congruence)).
(** A place of the heap after writes elsewhere. *)
Ltac look := cbn [rnodes]; repeat first
  [ match goal with |- ?h !! _ = _ => is_var h; unfold h end
  | rewrite lookup_insert_eq
  | rewrite lookup_insert_ne by apart
  | match goal with F : ∀ z, z ∉ _ → ?h' !! z = _ |- ?h' !! _ = _ => rewrite F by apart end
  | match goal with F : ∀ z, z ≠ _ → ?h' !! z = _ |- ?h' !! _ = _ => rewrite F by apart end
  | match goal with F : ∀ z, z ≠ _ → z ∉ _ → ?h' !! z = _ |- ?h' !! _ = _ => rewrite F by apart end
  | match goal with F : ∀ z, z ∉ _ → _ → _ → ?h' !! z = _ |- ?h' !! _ = _ => rewrite F by apart end ];
  try eassumption; try reflexivity.
(** A subtree nobody wrote to. *)
Ltac elsewhere := first [eapply rep_ext; [|eassumption] | eapply repc_ext; [|eassumption]];
  let z := fresh "z" in let Hz := fresh "Hz" in intros z Hz; look.
(** One access to a node of the heap. *)
Ltac rb_step := rewrite ?bind_assoc; erewrite bind_done; [|first
  [ eapply get_child_eq; [assumption|look] | eapply set_child_eq; [assumption|look]
  | eapply set_parent_color_eq; [assumption|look] | eapply set_pc_eq; [assumption|look]
  | eapply rb_parent_eq; [assumption|look|apply pc_mk|assumption] | eapply get_pc_eq; [assumption|look] ]];
  cbn [rnodes root_node rb_left rb_right];
  rewrite ?repc_mk, ?(proj1 (child_mk _ _ _ _)), ?(proj2 (child_mk _ _ _ _)), ?(proj1 (with_child_mk _ _ _ _ _)), ?(proj2 (with_child_mk _ _ _ _ _)).
