(* ===== verification/RbInsert.v ===== *)
(** * Insertion into a red-black tree

    What each turn of [__rb_insert_fix] does to the tree and the path above it,
    and what [_rb_insert] does to the whole tree. *)
From stdpp Require Import sorting.
From S2P Require Import Prelude Words RbTree RbRep.

Implicit Types (h : gmap Z rb_node) (t l r x y : tree) (k : path) (d : side) (c : bool) (s : rb_root).


(** The uncle is red. *)
Lemma insert_case1 d d1 s k X p sib g u : at_hole s k (node d true (node d1 false X p sib) g u) → isblack u = false →
  ∃ s', insert_fix_side d (addr X) p g (addr u) s = Done (inl (g, paddr k), s') ∧
    at_hole s' k (node d false (node d1 true X p sib) g (blacken u)).
Proof.
  intros Hat Hu. destruct u as [|[] ul b ur]; try done. pose proof Hat as [Hr Hc Hroot Hn Ha].
  pose proof (paddr_ok k (proj2 (proj1 (Forall_app _ _ _) Ha))) as Hpk.
  destruct (regions_label [[p]; [g]; [b]; els X; els sib; els ul; els ur; elc k] (els (node d true (node d1 false X p sib) g (T false ul b ur)) ++ elc k))
    as [f F]; [rewrite !els_node_perm; simpl; solve_Permutation|done|done|].
  single F 0%nat. single F 1%nat. single F 2%nat. region F 3%nat. region F 4%nat. region F 5%nat. region F 6%nat. region F 7%nat.
  destruct s as [h rt]. cbn [rnodes root_node] in *.
  apply rep_node in Hr as (Hg & Hp & Hb & Hul & Hur). apply rep_node in Hp as (Hp & HX & Hs). rewrite addr_node in *.
  unfold insert_fix_side. cbn [addr] in *.
  m_step (not_null_red_eq h rt g (T false ul b ur) (conj Hb (conj Hul Hur)) (or_intror G0) ltac:(done)). cbv beta iota. cbn [isblack negb].
  erewrite bind_done; [|eapply (set_parent_color_eq _ _ _ true); [done|look]].
  erewrite bind_done; [|eapply (set_parent_color_eq _ _ _ true); [done|look]].
  rb_step. erewrite bind_done; [|eapply (set_parent_color_eq _ _ _ false); [done|look]].
  eexists. split; [reflexivity|]. cbn [rnodes root_node rb_left rb_right]. rewrite !repc_mk.
  eapply at_hole_change; [exact Hat|by rewrite !els_node_perm|..]; cbn [rnodes root_node blacken].
  - apply rep_node. rewrite addr_node. split; [look|]. split.
    + apply rep_node. split; [look|]. split; elsewhere.
    + cbn [rep]. split; [look|]. split; elsewhere.
  - rewrite addr_node. elsewhere.
  - by rewrite addr_node.
Qed.

(** The uncle is black and the node an outer grandchild. *)
Lemma insert_case3 d s k X p sib g u : at_hole s k (node d true (node d false X p sib) g u) → isblack u = true → isblack sib = true → X ≠ E →
  ∃ s', insert_fix_side d (addr X) p g (addr u) s = Done (inr tt, s') ∧ at_hole s' k (node d true X p (node d false sib g u)).
Proof.
  intros Hat Hu Hsib HX0. pose proof Hat as [Hr Hc Hroot Hn Ha]. pose proof (proj2 (proj1 (Forall_app _ _ _) Ha)) as Hak.
  destruct (regions_label [[p]; [g]; els X; els sib; els u; elc k] (els (node d true (node d false X p sib) g u) ++ elc k))
    as [f F]; [rewrite !els_node_perm; simpl; solve_Permutation|done|done|].
  single F 0%nat. single F 1%nat. region F 2%nat. region F 3%nat. region F 4%nat. region F 5%nat.
  destruct s as [h rt]. cbn [rnodes root_node] in *.
  apply rep_node in Hr as (Hg & Hp & Hup). apply rep_node in Hp as (Hp & HX & Hs). rewrite addr_node in *.
  assert (Hne : addr X ≠ addr sib).
  { destruct X as [|? ? ax ?]; [done|]. destruct sib as [|? ? az ?]; [by apply addr_pos|]. simpl.
    assert (f ax = 2%nat) by (apply R1; simpl; set_solver). assert (f az = 3%nat) by (apply R2; simpl; set_solver). apart. }
  unfold insert_fix_side.
  m_step (not_null_red_eq h rt g u Hup (or_intror G0) (addr_pos _ G3)). cbv beta iota. rewrite Hu. cbn [negb].
  rb_step. rewrite decide_False by done. rewrite (bind_done _ _ _ (p, addr sib) (mkRoot h rt)) by done. cbv beta iota.
  rb_step. set (h1 := <[g := _]> h).
  destruct (black_child_spec h1 rt g p sib) as (h2 & E2 & Rs & F2); [elsewhere|done|by apply addr_pos|].
  m_step E2. rewrite blacken_black in Rs by done. rb_step.
  set (h3 := <[p := _]> h2). subst rt.
  destruct (rotate_spec h3 k g p (mk d (word (paddr k) true) (addr sib) (addr u)) (mk d (word g false) (addr X) g) true false)
    as (h4 & E4 & Rk & L1 & L2 & F4); [look|apply pc_mk|look|apart|done|done|apart|apart|elsewhere|done|done|].
  m_step E4. eexists. split; [reflexivity|]. rewrite repc_mk in L1, L2.
  eapply at_hole_change; [exact Hat|rewrite !els_node_perm; solve_Permutation|..]; cbn [rnodes root_node].
  - apply rep_node. rewrite addr_node. split; [exact L1|]. split; [elsewhere|].
    apply rep_node. split; [exact L2|]. split; elsewhere.
  - by rewrite addr_node.
  - by rewrite addr_node.
Qed.

(** The uncle is black and the node an inner grandchild. *)
Lemma insert_case2 d s k xd a xo p sib g u : at_hole s k (node d true (node (opp d) false (node d false xd a xo) p sib) g u) →
  isblack u = true → isblack xd = true → isblack xo = true →
  ∃ s', insert_fix_side d a p g (addr u) s = Done (inr tt, s') ∧
    at_hole s' k (node d true (node d false sib p xd) a (node d false xo g u)).
Proof.
  intros Hat Hu Hxd Hxo. rewrite node_opp in Hat. pose proof Hat as [Hr Hc Hroot Hn Ha]. pose proof (proj2 (proj1 (Forall_app _ _ _) Ha)) as Hak.
  destruct (regions_label [[p]; [g]; [a]; els xd; els xo; els sib; els u; elc k]
    (els (node d true (node d false sib p (node d false xd a xo)) g u) ++ elc k)) as [f F]; [rewrite !els_node_perm; simpl; solve_Permutation|done|done|].
  single F 0%nat. single F 1%nat. single F 2%nat. region F 3%nat. region F 4%nat. region F 5%nat. region F 6%nat. region F 7%nat.
  destruct s as [h rt]. cbn [rnodes root_node] in *.
  apply rep_node in Hr as (Hg & Hp & Hup). apply rep_node in Hp as (Hp & Hs & Hx). apply rep_node in Hx as (Hax & Hd & Ho). rewrite !addr_node in *.
  unfold insert_fix_side. change RB_RED with (cz false).
  m_step (not_null_red_eq h rt g u Hup (or_intror G0) (addr_pos _ G5)). cbv beta iota. rewrite Hu. cbn [negb].
  rb_step. rewrite decide_True by done. rb_step. rb_step. set (h1 := <[p := _]> h).
  destruct (black_child_spec h1 rt p a xd) as (h2 & E2 & Rd & F2); [elsewhere|done|by apply addr_pos|].
  rewrite bind_assoc. m_step E2. rewrite blacken_black in Rd by done. rb_step. rb_step. rb_step.
  rewrite (bind_done _ _ _ (a, addr xo) _ eq_refl). cbv beta iota. rb_step. set (h3 := <[g := _]> _).
  destruct (black_child_spec h3 rt g a xo) as (h4 & E4 & Ro & F4); [elsewhere|done|by apply addr_pos|].
  m_step E4. rewrite blacken_black in Ro by done. rb_step. set (h5 := <[a := _]> h4). subst rt.
  destruct (rotate_spec h5 k g a (mk d (word (paddr k) true) (addr xo) (addr u)) (mk d (word p false) p g) true false)
    as (h6 & E6 & Rk & L1 & L2 & F6); [look|apply pc_mk|look|apart|done|done|apart|apart|elsewhere|done|done|].
  m_step E6. eexists. split; [reflexivity|]. rewrite repc_mk in L1, L2.
  eapply at_hole_change; [exact Hat|rewrite !els_node_perm; solve_Permutation|..]; cbn [rnodes root_node].
  - apply rep_node. rewrite !addr_node. split; [exact L1|]. split; (apply rep_node; split; [look|split; elsewhere]).
  - by rewrite addr_node.
  - by rewrite addr_node.
Qed.

(** ** The loop *)
(** The heap holds a red-black tree of the nodes [L], in this order. *)
Record rbtree s (L : list Z) : Prop := { rb_tree : ∃ t, at_hole s [] t ∧ els t = L ∧ isblack t = true ∧ ∃ m, balanced t m }.

Lemma rbtree_intro s k t (n : nat) L : at_hole s k t → balanced t n → balancedc k n → isblack t = true ∨ headblack k → els (plug k t) = L → rbtree s L.
Proof.
  intros Hat Ht Hk Hb <-. destruct (balanced_plug k t n Ht Hk Hb) as (m & Hm & Hbl). split. exists (plug k t).
  split; [exact (proj1 (at_plug s k t) Hat)|]. split; [done|]. split; [done|by exists m].
Qed.

Lemma root_blackened s l a r : at_hole s [] (T false l a r) → ∃ s', (rb_set_parent_color a 0 RB_BLACK;; set_root a) s = Done (tt, s') ∧ at_hole s' [] (T true l a r).
Proof.
  intros Hat. pose proof Hat as [Hr _ Hroot Hn Ha]. destruct s as [h rt]. cbn [elc] in *. rewrite app_nil_r in *.
  assert (Ha0 : a ≠ 0) by (by apply (addr_pos (T false l a r))).
  change RB_BLACK with (cz true). 
  rewrite (bind_done _ _ _ _ _ (set_parent_color_eq a _ 0 true (mkRoot h rt) Ha0 (proj1 Hr))). eexists. split; [reflexivity|]. eapply at_hole_change; [exact Hat|done| |done|done].
  exact (rep_recolor h 0 0 true (T false l a r) _ Hr Hn ltac:(done) (proj1 Hr)).
Qed.

Definition grows s k t (n : nat) s' k' t' (n' : nat) : Prop :=
  at_hole s' k' t' ∧ isblack t' = false ∧ els (plug k' t') = els (plug k t) ∧ balanced t' n' ∧ balancedc k' n' ∧ (length k' < length k)%nat.

Lemma insert_turn_ok s k t (n : nat) : at_hole s k t → isblack t = false → balanced t n → balancedc k n →
  (∃ s', insert_fix_turn (addr t, paddr k) s = Done (inr tt, s') ∧ rbtree s' (els (plug k t))) ∨
  (∃ s' k' t' n', insert_fix_turn (addr t, paddr k) s = Done (inl (addr t', paddr k'), s') ∧ grows s k t n s' k' t' n').
Proof.
  intros Hat Hred Ht Hk. destruct t as [|[] l a r]; try done. destruct k as [|[d1 c1 p sib] k].
  { left. destruct (root_blackened s l a r Hat) as (s' & E & Hat'). exists s'. split.
    - unfold insert_fix_turn. cbn [paddr addr]. rewrite decide_True by done. rewrite <-bind_assoc. m_step E. done.
    - eapply rbtree_intro; [exact Hat'|by apply (balanced_blacken (T false l a r))|done|by left|done]. }
  cbn [balancedc fd fc fp fs] in Hk. destruct Hk as (Hsib & Hc1 & Hk). pose proof Hat as Hat1. rewrite at_up in Hat1. cbn [fd fc fp fs] in Hat1.
  pose proof (at_path _ _ _ Hat) as (Hp & _). cbn [fd fc fp fs addr] in Hp. pose proof (at_addr _ _ _ Hat) as Hall.
  rewrite Forall_app in Hall. destruct Hall as [_ Hall]. cbn [elc fp] in Hall. apply Forall_cons in Hall as [Gp Hall].
  pose proof (node_addr_pos _ Gp) as Hp0. unfold insert_fix_turn. cbn [paddr addr fp]. rewrite decide_False by done.
  assert (Hpk : parent_ok (paddr k)) by (apply paddr_ok; by apply Forall_app in Hall as [_ ?]).
  erewrite bind_done; [|eapply rb_is_black_eq; [done|exact Hp|apply pc_mk|done]]. destruct c1.
  { left. exists s. split; [done|]. eapply rbtree_intro; [exact Hat|exact Ht|by cbn [balancedc fd fc fp fs]|by right|done]. }
  destruct (Hc1 eq_refl) as [Hbs Hhb]. destruct k as [|[d c2 g u] k]; [done|]. cbn in Hhb. subst c2. cbn [paddr fp] in *.
  erewrite bind_done; [|unfold rb_red_parent; eapply get_pc_eq; [done|exact Hp]]. rewrite pc_mk, word_red.
  pose proof Hat1 as Hat2. rewrite at_up in Hat2. cbn [fd fc fp fs] in Hat2.
  pose proof (at_path _ _ _ Hat1) as (Hg & _). cbn [fd fc fp fs] in Hg. rewrite addr_node in Hg.
  cbn [elc fp fs] in Hall. apply Forall_app in Hall as [_ [Gg Hall]%Forall_cons]. pose proof (node_addr_pos _ Gg) as Hg0.
  erewrite bind_done; [|eapply get_child_eq; [done|exact Hg]].
  cbn [balancedc fd fc fp fs weight] in Hk. destruct Hk as (Hu & _ & Hk).
  assert (E : (if decide (p ≠ child_of Right (mk d (word (paddr k) true) p (addr u))) then insert_fix_side Left a p g (child_of Right (mk d (word (paddr k) true) p (addr u)))
     else tmp ← get_child Left g; insert_fix_side Right a p g tmp) s = insert_fix_side d a p g (addr u) s).
  { destruct d; cbn [child_of mk rb_right].
    - rewrite decide_True; [done|]. intros Epu. pose proof (at_nodup _ _ _ Hat1) as Hn. destruct u as [|? ? b ?]; [by apply Hp0|].
      cbn [addr] in Epu. subst b. rewrite els_node_perm in Hn. apply NoDup_cons in Hn as [Hni _]. apply Hni.
      apply elem_of_app. right. right. apply elem_of_app. left. apply elem_of_app. right. left.
    - rewrite decide_False by (intros Hx; by apply Hx). by erewrite bind_done; [|eapply get_child_eq; [done|exact Hg]]. }
  rewrite E. clear E. rewrite Nat.add_0_r in *. destruct Ht as (m & -> & Hl & Hr & Hlr). cbn [weight] in *. rewrite Nat.add_0_r in *.
  destruct (Hlr eq_refl) as [Hbl Hbr]. destruct (isblack u) eqn:Eu.
  - left. destruct (decide (d1 = d)) as [->|Hd].
    + destruct (insert_case3 d s k (T false l a r) p sib g u Hat2 Eu Hbs ltac:(done)) as (s' & Ei & Hat'). exists s'. split; [exact Ei|].
      eapply rbtree_intro; [exact Hat'| |exact Hk|left; apply isblack_node|].
      * apply balanced_node. exists m. split; [done|]. split; [exists m; by rewrite Nat.add_0_r|]. split; [|done].
        apply balanced_node. exists m. by rewrite Nat.add_0_r.
      * cbn [plug fd fc fp fs]. rewrite !els_plug. f_equal. f_equal. destruct d; simpl; by rewrite <-?app_assoc.
    + set (xd := match d with Left => l | Right => r end). set (xo := match d with Left => r | Right => l end).
      assert (Ex : T false l a r = node d false xd a xo) by by destruct d.
      assert (Ed : d1 = opp d) by (by destruct d, d1). subst d1. rewrite Ex in Hat2.
      destruct (insert_case2 d s k xd a xo p sib g u Hat2 Eu) as (s' & Ei & Hat'); [by destruct d|by destruct d|]. exists s'. split; [exact Ei|].
      eapply rbtree_intro; [exact Hat'| |exact Hk|left; apply isblack_node|].
      * apply balanced_node. exists m. split; [done|]. split; [|split; [|done]]; apply balanced_node; exists m; rewrite Nat.add_0_r; by destruct d.
      * cbn [plug fd fc fp fs]. rewrite !els_plug. f_equal. f_equal. destruct d; simpl; by rewrite <-?app_assoc; simpl; rewrite <-?app_assoc.
  - right. destruct (insert_case1 d d1 s k (T false l a r) p sib g u Hat2 Eu) as (s' & Ei & Hat').
    exists s', k, (node d false (node d1 true (T false l a r) p sib) g (blacken u)), (m + 1)%nat. rewrite addr_node. split; [exact Ei|].
    split; [exact Hat'|]. split; [apply isblack_node|]. split; [|split; [|split; [exact Hk|simpl; lia]]].
    + cbn [plug fd fc fp fs]. rewrite !els_plug. f_equal. f_equal. rewrite !els_node, els_blacken. by destruct d, d1.
    + apply balanced_node. exists (m + 1)%nat. rewrite Nat.add_0_r. split; [done|]. split; [|split].
      * apply balanced_node. exists m. split; [done|]. split; [exists m; by rewrite Nat.add_0_r|]. done.
      * rewrite Nat.add_1_r. by apply balanced_blacken.
      * intros _. rewrite isblack_node. split; [done|]. by destruct u.
Qed.

Lemma insert_loop_ok (fuel : nat) s k t (n : nat) : at_hole s k t → isblack t = false → balanced t n → balancedc k n → (length k < fuel)%nat →
  ∃ s', loop fuel insert_fix_turn (addr t, paddr k) s = Done (tt, s') ∧ rbtree s' (els (plug k t)).
Proof.
  revert s k t n. induction fuel as [|fuel IH]; intros s k t n Hat Hr Ht Hk Hf; [lia|]. rewrite loop_S.
  destruct (insert_turn_ok s k t n Hat Hr Ht Hk) as [(s' & E & Hfx)|(s1 & k1 & t1 & n1 & E & Hat1 & Hr1 & He & Ht1 & Hk1 & Hl)]; m_step E.
  - by exists s'.
  - rewrite <-He. eapply IH; [exact Hat1|exact Hr1|exact Ht1|exact Hk1|lia].
Qed.

(** ** Going down the tree *)
Definition fits k t (n : nat) : Prop := balanced t n ∧ balancedc k n ∧ (isblack t = true ∨ headblack k).

Lemma fits_down d c x a y k (n : nat) : fits k (node d c x a y) n → ∃ m, fits (mkFrame d c a y :: k) x m.
Proof.
  intros (Ht & Hk & Hb). apply balanced_node in Ht as (m & -> & Hx & Hy & Hc). exists m. rewrite isblack_node in Hb.
  split; [done|]. split.
  - cbn [balancedc fd fc fp fs]. split; [done|]. split; [|done]. intros E. destruct (Hc E). split; [done|]. destruct Hb; [congruence|done].
  - destruct c; [by right|left; by apply Hc].
Qed.

Section comparison.
Context (cmp : Z → Z → bool).

(** [cmp] is a strict order. *)
Record strict : Prop := { cmp_irrefl : ∀ a, cmp a a = false; cmp_trans : ∀ a b z : Z, cmp a b = true → cmp b z = true → cmp a z = true }.
Abbreviation sorted := (StronglySorted (λ a b, cmp a b = true)).

Lemma sorted_middle (l1 l2 : list Z) (a : Z) : sorted (l1 ++ a :: l2) ↔
  sorted (l1 ++ l2) ∧ (∀ x : Z, x ∈ l1 → cmp x a = true) ∧ (∀ x : Z, x ∈ l2 → cmp a x = true).
Proof.
  rewrite !StronglySorted_app, StronglySorted_cons, Forall_forall. setoid_rewrite elem_of_cons. naive_solver.
Qed.

(** The elements around the hole are smaller and greater than [n]. *)
Definition around k (n : Z) : Prop := (∀ x : Z, x ∈ before k → cmp x n = true) ∧ (∀ x : Z, x ∈ after k → cmp n x = true).

(** A step towards [n] from [a]. *)
Lemma around_left k c l a r (n : Z) : strict → sorted (els (T c l a r)) → around k n → cmp n a = true → around (mkFrame Left c a r :: k) n ∧ sorted (els l).
Proof.
  intros Hs Ho [Hb Ha] Hc. cbn [els] in Ho. apply sorted_middle in Ho as (Ho & _ & Hr). apply StronglySorted_app in Ho as (_ & Ho & _).
  split; [|done]. split; cbn [before after fd fp fs]; intros x.
  - rewrite app_nil_r. apply Hb.
  - intros [[->|Hx]%elem_of_cons|Hx]%elem_of_app; [done| |by apply Ha]. eapply cmp_trans; [done|exact Hc|by apply Hr].
Qed.
Lemma around_right k c l a r (n : Z) : strict → sorted (els (T c l a r)) → around k n → cmp a n = true → around (mkFrame Right c a l :: k) n ∧ sorted (els r).
Proof.
  intros Hs Ho [Hb Ha] Hc. cbn [els] in Ho. apply sorted_middle in Ho as (Ho & Hl & _). apply StronglySorted_app in Ho as (_ & _ & Ho).
  split; [|done]. split; cbn [before after fd fp fs]; intros x.
  - intros [Hx|[Hx| ->%list_elem_of_singleton]%elem_of_app]%elem_of_app; [by apply Hb| |done]. eapply cmp_trans; [done|by apply Hl|exact Hc].
  - apply Ha.
Qed.

(** A new node beside the tree. *)
Record beside s k t (n : Z) : Prop := { b_at : at_hole s k t; b_out : n ∉ els t ++ elc k; b_addr : node_addr n; b_new : rnodes s !! n = Some (mkRb 0 0 0) }.

Lemma insert_down_here d c s k (a : Z) y (n : Z) : beside s k (node d c E a y) n →
  ∃ s', insert_down d n a s = Done (inr true, s') ∧ at_hole s' (mkFrame d c a y :: k) (T false E n E).
Proof.
  intros [Hat Hout Gn Hn]. pose proof Hat as [Hr Hc Hroot Hnd Ha]. pose proof (node_addr_pos _ Gn) as Hn0.
  assert (Hp : n :: els (node d c E a y) ++ elc k ≡ₚ mjoin [[n]; [a]; els y; elc k]) by (rewrite els_node_perm; simpl; solve_Permutation).
  destruct (regions_label _ _ Hp) as [f F]; [by apply NoDup_cons|by apply Forall_cons|].
  single F 0%nat. single F 1%nat. region F 2%nat. region F 3%nat. destruct s as [h rt]. cbn [rnodes root_node] in *.
  apply rep_node in Hr as (Hra & _ & Hy). rewrite addr_node in *. cbn [addr] in Hra.
  unfold insert_down. rb_step. rewrite !decide_True by done. rb_step. rb_step.
  eexists. split; [reflexivity|]. cbn [rnodes root_node]. split; cbn [paddr fp rnodes root_node rep repc fd fc fs addr els elc top].
  - rewrite word_red. split; [look|done].
  - split; [look|]. split; elsewhere.
  - done.
  - assert (Hp2 : [] ++ n :: [] ++ a :: els y ++ elc k ≡ₚ n :: els (node d c E a y) ++ elc k) by (rewrite els_node_perm; simpl; solve_Permutation).
    simpl in *. rewrite Hp2. by constructor.
  - assert (Hp2 : [] ++ n :: [] ++ a :: els y ++ elc k ≡ₚ n :: els (node d c E a y) ++ elc k) by (rewrite els_node_perm; simpl; solve_Permutation).
    simpl in *. rewrite Hp2. by constructor.
Qed.

Lemma insert_down_more d c s k x (a : Z) y (n : Z) : at_hole s k (node d c x a y) → x ≠ E → insert_down d n a s = Done (inl (addr x), s).
Proof.
  intros [Hr _ _ _ Ha] Hx. apply rep_node in Hr as (Hra & _ & _). rewrite els_node_perm in Ha. cbn [app] in Ha. apply Forall_cons in Ha as [Ga Ha].
  assert (Hx0 : addr x ≠ 0). { apply addr_pos; [|done]. rewrite <-app_assoc in Ha. by apply Forall_app in Ha as [? _]. }
  unfold insert_down. pose proof (node_addr_pos _ Ga). rb_step. rewrite !decide_False by done. done.
Qed.

Lemma beside_down d c s k x (a : Z) y (n : Z) : beside s k (node d c x a y) n → beside s (mkFrame d c a y :: k) x n.
Proof.
  intros [H1 H2 H3 H4]. split; [by apply at_up| |done|done]. rewrite els_node_perm in H2. cbn [elc fp fs]. set_solver.
Qed.

Lemma insert_walk (n : Z) (fuel : nat) : strict → ∀ s k t (m : nat), beside s k t n → fits k t m → sorted (els t) → around k n → t ≠ E → (length (els t) < fuel)%nat →
  (∃ e, e ∈ els (plug k t) ∧ cmp n e = false ∧ cmp e n = false ∧ loop fuel (insert_turn cmp n) (addr t) s = Done (false, s)) ∨
  (∃ s' k', loop fuel (insert_turn cmp n) (addr t) s = Done (true, s') ∧ at_hole s' k' (T false E n E) ∧ balancedc k' 0 ∧ around k' n ∧
    before k' ++ after k' = els (plug k t)).
Proof.
  intros Hs. induction fuel as [|fuel IH]; intros s k t m Hb Hfit Ho Har Ht Hf; [lia|]. destruct t as [|c l a r]; [done|].
  pose proof (b_at _ _ _ _ Hb) as Hat. pose proof (at_addr _ _ _ Hat) as Ha. assert (Ha0 : a ≠ 0).
  { apply Forall_app in Ha as [Ha _]. by apply (addr_pos (T c l a r)). }
  cbn [addr]. cbn [els] in Hf. rewrite length_app in Hf. cbn [length] in Hf.
  assert (Hside : ∀ d x y, insert_turn cmp n a = insert_down d n a → node d c x a y = T c l a r → (length (els x) < fuel)%nat → sorted (els x) →
    around (mkFrame d c a y :: k) n →
    (∃ e, e ∈ els (plug k (T c l a r)) ∧ cmp n e = false ∧ cmp e n = false ∧ loop (S fuel) (insert_turn cmp n) a s = Done (false, s)) ∨
    (∃ s' k', loop (S fuel) (insert_turn cmp n) a s = Done (true, s') ∧
       at_hole s' k' (T false E n E) ∧ balancedc k' 0 ∧ around k' n ∧ before k' ++ after k' = els (plug k (T c l a r)))).
  { intros d x y Et E Hl Hox Harx. rewrite loop_S, Et. rewrite <-E in *. destruct (fits_down d c x a y k m Hfit) as [m' Hfit'].
    destruct x as [|cx lx ax rx] eqn:Ex.
    - right. destruct (insert_down_here d c s k a y n Hb) as (s' & Ed & Hat'). exists s', (mkFrame d c a y :: k). m_step Ed.
      split; [done|]. split; [done|]. split; [|split; [done|]].
      + destruct Hfit' as (H0 & H1 & _). simpl in H0. by subst m'.
      + rewrite els_plug, els_node. destruct d; simpl; by rewrite <-?app_assoc, ?app_nil_r.
    - rewrite <-Ex in *. m_step (insert_down_more d c s k x a y n Hat ltac:(by rewrite Ex)).
      destruct (IH s (mkFrame d c a y :: k) x m') as [H|H]; [by apply beside_down|done|done|done|by rewrite Ex|done|by left|by right]. }
  assert (Et : insert_turn cmp n a = if cmp n a then insert_down Left n a else if cmp a n then insert_down Right n a else mret (inr false)).
  { unfold insert_turn. by rewrite decide_False by done. }
  destruct (cmp n a) eqn:E1; [|destruct (cmp a n) eqn:E2].
  - destruct (around_left k c l a r n Hs Ho Har E1) as [Har' Hol]. apply (Hside Left l r Et); [done|lia|done|done].
  - destruct (around_right k c l a r n Hs Ho Har E2) as [Har' Hor]. apply (Hside Right r l Et); [done|lia|done|done].
  - left. exists a. split; [rewrite els_plug; simpl; set_solver|]. split; [done|]. split; [done|]. rewrite loop_S, Et. done.
Qed.

Lemma insert_fix_start s k (n : Z) (fuel : nat) : at_hole s k (T false E n E) → balancedc k 0 → (length k < fuel)%nat →
  ∃ s', __rb_insert_fix fuel n s = Done (tt, s') ∧ rbtree s' (before k ++ n :: after k).
Proof.
  intros Hat Hk Hf. pose proof (at_rep _ _ _ Hat) as (Hn & _). pose proof (at_addr _ _ _ Hat) as [Gn _]%Forall_cons.
  unfold __rb_insert_fix, rb_red_parent. pose proof (node_addr_pos _ Gn). rb_step. rewrite word_red.
  destruct (insert_loop_ok fuel s k (T false E n E) 0 Hat eq_refl) as (s' & E1 & Hrb); [by exists 0%nat|done|done|].
  rewrite els_plug in Hrb. by exists s'.
Qed.

Lemma path_length k : (length k ≤ length (before k ++ after k))%nat.
Proof. rewrite <-elc_perm. induction k as [|f k IH]; [done|]. cbn [length elc]. rewrite length_app. lia. Qed.

Lemma insert_ok (fuel : nat) s (L : list Z) (n : Z) : strict → rbtree s L → sorted L → n ∉ L → node_addr n → is_Some (rnodes s !! n) → (length L + 1 < fuel)%nat →
  (∃ e s', e ∈ L ∧ cmp n e = false ∧ cmp e n = false ∧ _rb_insert cmp fuel n s = Done (-1, s') ∧ rbtree s' L) ∨
  (∃ L1 L2 s', L = L1 ++ L2 ∧ _rb_insert cmp fuel n s = Done (0, s') ∧ rbtree s' (L1 ++ n :: L2) ∧ sorted (L1 ++ n :: L2)).
Proof.
  intros Hs [(t & Hat & <- & Hbl & m & Hm)] Ho Hn Gn [v Hv] Hf. pose proof (node_addr_pos _ Gn) as Hn0.
  set (s0 := mkRoot (<[n := mkRb 0 0 0]> (rnodes s)) (root_node s)).
  assert (Estart : ∀ (K : M rb_root Z), (set_child Left n 0;; set_child Right n 0;; set_pc n 0;; K) s = K s0).
  { intros K. destruct s as [h rt]. rb_step. rb_step. rb_step. by rewrite !insert_insert_eq. }
  assert (Hat0 : at_hole s0 [] t).
  { eapply at_hole_change; [exact Hat|done| |done|apply Hat]. eapply rep_ext; [|apply Hat]. intros z Hz. apply lookup_insert_ne. by intros ->. }
  assert (Hb : beside s0 [] t n) by (split; [done|by rewrite app_nil_r|done|apply lookup_insert_eq]).
  assert (Hrt : root_node s = addr t) by apply Hat.
  unfold _rb_insert. rewrite (bind_done _ _ s (addr t) s) by (unfold gets; by rewrite Hrt). rewrite Estart.
  assert (t = E ∨ t ≠ E) as [->|Ht] by (destruct t; [by left|by right]).
  - right. exists [], [], (mkRoot (<[n := mkRb (word 0 true) 0 0]> (rnodes s0)) n). split; [done|]. destruct fuel as [|[|fuel]]; try (simpl in Hf; lia).
    rewrite (bind_done _ _ s0 true s0) by done. split; [|split; [|by repeat constructor]].
    + rewrite (bind_done _ _ s0 tt (mkRoot (<[n := mkRb (word 0 true) 0 0]> (rnodes s0)) n)); [done|].
      unfold __rb_insert_fix, rb_red_parent. erewrite bind_done; [|eapply get_pc_eq; [done|apply lookup_insert_eq]]. cbn [pc]. rewrite loop_S.
      rewrite (bind_done _ _ s0 (inr tt) (mkRoot (<[n := mkRb (word 0 true) 0 0]> (rnodes s0)) n)); [done|].
      unfold insert_fix_turn. rewrite decide_True by done. change RB_BLACK with (cz true).
      erewrite bind_done; [|eapply set_parent_color_eq; [done|apply lookup_insert_eq]]. done.
    + split. exists (T true E n E). split; [|split; [done|split; [done|by exists 1%nat, 0%nat]]].
      split; cbn; [split; [apply lookup_insert_eq|done]|done|done|apply NoDup_singleton|by apply Forall_singleton].
  - destruct (insert_walk n fuel Hs s0 [] t m Hb) as [(e & He & H1 & H2 & El)|(s' & k' & El & Hat' & Hk' & [Ha1 Ha2] & Hel)];
      [split; [done|split; [done|by left]]|done|split; intros ? ?%elem_of_nil; done|done|lia| |].
    + left. exists e, s0. split; [done|]. split; [done|]. split; [done|]. split; [by m_step El|]. split. exists t. by repeat (split; [done|]); exists m.
    + right. cbn [plug] in Hel. destruct (insert_fix_start s' k' n fuel Hat' Hk') as (s2 & Ef & Hrb).
      { pose proof (path_length k') as Hp. rewrite Hel in Hp. lia. }
      exists (before k'), (after k'), s2. split; [done|]. split; [m_step El; by m_step Ef|]. split; [done|].
      apply sorted_middle. rewrite Hel. done.
Qed.
End comparison.
