(* ===== verification/RbErase.v ===== *)
(** * Removal from a red-black tree

    The turns of [__rb_erase_fix] for a hole that is one black node short, the
    replacement of the removed node by its successor, and what [_rb_erase] does to
    the whole tree. *)
From S2P Require Import Prelude Words RbTree RbRep RbInsert.

Implicit Types (h : gmap Z rb_node) (t l r x y : tree) (k : path) (d : side) (c : bool) (s : rb_root).

(** ** Rebalancing *)
(** The sibling is red: its inner child becomes the sibling. *)
Lemma erase_case1 d s k t p x b o : at_hole s k (node d true t p (node d false x b o)) → isblack x = true → x ≠ E →
  ∃ s', erase_fix_red d p b s = Done (addr x, s') ∧ at_hole s' k (node d true (node d false t p x) b o).
Proof.
  intros Hat Hx Hx0. pose proof Hat as [Hr Hc Hroot Hn Ha]. pose proof (proj2 (proj1 (Forall_app _ _ _) Ha)) as Hak.
  destruct (regions_label [[p]; [b]; els t; els x; els o; elc k] (els (node d true t p (node d false x b o)) ++ elc k))
    as [f F]; [rewrite !els_node_perm; simpl; solve_Permutation|done|done|].
  single F 0%nat. single F 1%nat. region F 2%nat. region F 3%nat. region F 4%nat. region F 5%nat.
  destruct s as [h rt]. cbn [rnodes root_node] in *.
  apply rep_node in Hr as (Hp & Ht & Hy). apply rep_node in Hy as (Hb & Hxr & Ho). rewrite addr_node in *.
  unfold erase_fix_red. rewrite (bind_done _ _ _ _ _ (rb_is_red_eq b _ p false (mkRoot h rt) ltac:(done) Hb (pc_mk _ _ _ _) (or_intror G))).
  cbn [negb]. rb_step. rb_step. set (h1 := <[p := _]> h).
  destruct (black_child_spec h1 rt p b x) as (h2 & E2 & Rx & F2); [elsewhere|done|by apply addr_pos|].
  unfold black_child in E2. rewrite decide_True in E2 by by apply addr_pos. m_step E2. rewrite blacken_black in Rx by done.
  rb_step. set (h3 := <[b := _]> h2). subst rt.
  destruct (rotate_spec h3 k p b (mk d (word (paddr k) true) (addr t) (addr x)) (mk d (word p false) p (addr o)) true false)
    as (h4 & E4 & Rk & L1 & L2 & F4); [look|apply pc_mk|look|apart|done|done|apart|apart|elsewhere|done|done|].
  change RB_RED with (cz false). m_step E4. eexists. split; [reflexivity|]. rewrite repc_mk in L1, L2.
  eapply at_hole_change; [exact Hat|rewrite !els_node_perm; solve_Permutation|..]; cbn [rnodes root_node].
  - apply rep_node. rewrite addr_node. split; [exact L1|]. split; [|elsewhere].
    apply rep_node. split; [exact L2|]. split; elsewhere.
  - by rewrite addr_node.
  - by rewrite addr_node.
Qed.
Lemma erase_not_case1 d p s k c t y : at_hole s k (node d c t p y) → isblack y = true → y ≠ E → erase_fix_red d p (addr y) s = Done (addr y, s).
Proof.
  intros [Hr _ _ _ Ha] Hy Hy0. destruct s as [h rt]. apply Forall_app in Ha as [Ha _]. rewrite els_node_perm in Ha.
  apply Forall_cons in Ha as [Gp [_ Ha]%Forall_app]. apply rep_node in Hr as (_ & _ & Hr). destruct y as [|[] ly b ry]; try done.
  unfold erase_fix_red. cbn [addr].
  by rewrite (bind_done _ _ _ _ _ (rb_is_red_eq b _ p true (mkRoot h rt) (addr_pos (T true ly b ry) Ha Hy0) (proj1 Hr) eq_refl (or_intror Gp))).
Qed.

(** The outer child of the sibling is red. *)
Lemma erase_last_ok d s k c c1 t p x b o : at_hole s k (node d c t p (node d c1 x b o)) → o ≠ E →
  ∃ s', erase_fix_last d p (addr o) b s = Done (inr tt, s') ∧ at_hole s' k (node d c (node d true t p x) b (blacken o)).
Proof.
  intros Hat Ho0. pose proof Hat as [Hr Hc Hroot Hn Ha]. pose proof (proj2 (proj1 (Forall_app _ _ _) Ha)) as Hak.
  destruct (regions_label [[p]; [b]; els t; els x; els o; elc k] (els (node d c t p (node d c1 x b o)) ++ elc k))
    as [f F]; [rewrite !els_node_perm; simpl; solve_Permutation|done|done|].
  single F 0%nat. single F 1%nat. region F 2%nat. region F 3%nat. region F 4%nat. region F 5%nat.
  destruct s as [h rt]. cbn [rnodes root_node] in *.
  apply rep_node in Hr as (Hp & Ht & Hy). apply rep_node in Hy as (Hb & Hxr & Ho). rewrite addr_node in *.
  unfold erase_fix_last. rb_step. rb_step. set (h1 := <[p := _]> h).
  destruct (set_parent_spec h1 rt p b x) as (h2 & E2 & Rx & F2); [elsewhere|by right|done|by apply addr_pos|].
  m_step E2. rb_step. set (h3 := <[b := _]> h2).
  destruct (black_child_spec h3 rt b b o) as (h4 & E4 & Ro & F4); [elsewhere|done|by apply addr_pos|].
  unfold black_child in E4. rewrite decide_True in E4 by by apply addr_pos. m_step E4. subst rt.
  destruct (rotate_spec h4 k p b (mk d (word (paddr k) c) (addr t) (addr x)) (mk d (word p c1) p (addr o)) c true)
    as (h6 & E6 & Rk & L1 & L2 & F6); [look|apply pc_mk|look|apart|done|done|apart|apart|elsewhere|done|done|].
  change RB_BLACK with (cz true). m_step E6. eexists. split; [reflexivity|]. rewrite repc_mk in L1, L2.
  assert (Eo : addr (blacken o) = addr o) by by destruct o.
  eapply at_hole_change; [exact Hat|rewrite !els_node_perm, els_blacken; solve_Permutation|..]; cbn [rnodes root_node].
  - apply rep_node. rewrite addr_node, Eo. split; [exact L1|]. split; [|rewrite <-els_blacken in *; elsewhere].
    apply rep_node. split; [exact L2|]. split; elsewhere.
  - by rewrite addr_node.
  - by rewrite addr_node.
Qed.

(** The inner child of the sibling is red. *)
Lemma erase_case3 d s k c t p xd a xo b o : at_hole s k (node d c t p (node d true (node d false xd a xo) b o)) → isblack o = true → isblack xo = true →
  ∃ s', erase_fix_black d p b s = Done (inr tt, s') ∧ at_hole s' k (node d c (node d true t p xd) a (node d true xo b o)).
Proof.
  intros Hat Hbo Hbx. pose proof Hat as [Hr Hc Hroot Hn Ha]. pose proof (proj2 (proj1 (Forall_app _ _ _) Ha)) as Hak.
  destruct (regions_label [[p]; [b]; [a]; els t; els xd; els xo; els o; elc k] (els (node d c t p (node d true (node d false xd a xo) b o)) ++ elc k))
    as [f F]; [rewrite !els_node_perm; simpl; solve_Permutation|done|done|].
  single F 0%nat. single F 1%nat. single F 2%nat. region F 3%nat. region F 4%nat. region F 5%nat. region F 6%nat. region F 7%nat.
  destruct s as [h rt]. cbn [rnodes root_node] in *.
  apply rep_node in Hr as (Hp & Ht & Hy). apply rep_node in Hy as (Hb & Hx & Ho). apply rep_node in Hx as (Hxa & Hxd & Hxo). rewrite !addr_node in *.
  unfold erase_fix_black. rb_step. m_step (null_or_black_eq h rt b o Ho (or_intror G0) (addr_pos _ G5)). rewrite Hbo. rb_step.
  assert (Ex : null_or_black a (mkRoot h rt) = Done (false, mkRoot h rt)).
  { unfold null_or_black. rewrite decide_False by done. eapply rb_is_black_eq; [done|exact Hxa|apply pc_mk|by right]. }
  m_step Ex. rb_step. rb_step. set (h1 := <[b := _]> h).
  destruct (black_child_spec h1 rt b a xo) as (h2 & E2 & Rxo & F2); [elsewhere|done|by apply addr_pos|]. m_step E2.
  rewrite blacken_black in Rxo by done. rb_step. rb_step. unfold erase_fix_last. rb_step. rb_step. rewrite insert_insert_eq.
  set (h3 := <[p := _]> _).
  destruct (set_parent_spec h3 rt p a xd) as (h4 & E4 & Rxd & F4); [elsewhere|by right|done|by apply addr_pos|].
  m_step E4. rb_step. change RB_BLACK with (cz true). rb_step. set (h5 := <[b := _]> _). subst rt.
  destruct (rotate_spec h5 k p a (mk d (word (paddr k) c) (addr t) (addr xd)) (mk d (word b false) p b) c true)
    as (h6 & E6 & Rk & L1 & L2 & F6); [look|apply pc_mk|look|apart|done|done|apart|apart|elsewhere|done|done|].
  m_step E6. eexists. split; [reflexivity|]. rewrite repc_mk in L1, L2.
  eapply at_hole_change; [exact Hat|rewrite !els_node_perm; solve_Permutation|..]; cbn [rnodes root_node].
  - apply rep_node. rewrite !addr_node. split; [exact L1|]. split; (apply rep_node; split; [look|split; elsewhere]).
  - by rewrite addr_node.
  - by rewrite addr_node.
Qed.

(** Both children of the sibling are black: the sibling becomes red. *)
Lemma erase_case2 d s k c t p x b o : at_hole s k (node d c t p (node d true x b o)) → isblack x = true → isblack o = true →
  ∃ s', erase_fix_black d p b s = Done (if c && bool_decide (paddr k ≠ 0) then inl (p, paddr k) else inr tt, s') ∧
    at_hole s' k (node d true t p (node d false x b o)).
Proof.
  intros Hat Hbx Hbo. pose proof Hat as [Hr Hc Hroot Hn Ha]. pose proof (paddr_ok k (proj2 (proj1 (Forall_app _ _ _) Ha))) as Hpk.
  destruct (regions_label [[p]; [b]; els t; els x; els o; elc k] (els (node d c t p (node d true x b o)) ++ elc k))
    as [f F]; [rewrite !els_node_perm; simpl; solve_Permutation|done|done|].
  single F 0%nat. single F 1%nat. region F 2%nat. region F 3%nat. region F 4%nat. region F 5%nat.
  destruct s as [h rt]. cbn [rnodes root_node] in *.
  apply rep_node in Hr as (Hp & Ht & Hy). apply rep_node in Hy as (Hb & Hx & Ho). rewrite !addr_node in *.
  unfold erase_fix_black. rb_step. m_step (null_or_black_eq h rt b o Ho (or_intror G0) (addr_pos _ G3)). rewrite Hbo. rb_step.
  m_step (null_or_black_eq h rt b x Hx (or_intror G0) (addr_pos _ G2)). rewrite Hbx. change RB_RED with (cz false). rb_step. set (h1 := <[b := _]> h).
  assert (Er : rb_is_red p (mkRoot h1 rt) = Done (negb c, mkRoot h1 rt)) by (eapply rb_is_red_eq; [done|look|apply pc_mk|done]).
  m_step Er. assert (Hat2 : ∀ h', h' !! p = Some (mk d (word (paddr k) true) (addr t) b) → (∀ z, z ≠ p → h' !! z = h1 !! z) →
    at_hole (mkRoot h' rt) k (node d true t p (node d false x b o))).
  { intros h' L1 F6.
    eapply at_hole_change; [exact Hat|by rewrite !els_node_perm|..]; cbn [rnodes root_node].
    - apply rep_node. rewrite !addr_node. split; [exact L1|]. split; [elsewhere|apply rep_node; split; [look|split; elsewhere]].
    - rewrite addr_node. elsewhere.
    - by rewrite addr_node. }
  destruct c; cbn [negb andb].
  - assert (Eu : rb_parent p (mkRoot h1 rt) = Done (paddr k, mkRoot h1 rt)) by (eapply rb_parent_eq; [done|look|apply pc_mk|done]).
    m_step Eu. exists (mkRoot h1 rt). split; [unfold mret, M_ret; case_bool_decide; by case_decide|]. apply Hat2; [look|done].
  - unfold rb_set_black. rb_step. rewrite pc_mk. rb_step. eexists. split; [reflexivity|]. apply Hat2; [|intros z Hz; by apply lookup_insert_ne].
    rewrite lookup_insert_eq. rewrite word_red. done.
Qed.

(** *** A turn *)
Lemma plug_els k t t' : els t = els t' → els (plug k t) = els (plug k t').
Proof. intros E. by rewrite !els_plug, E. Qed.
Lemma at_hole_root s k t : at_hole s k t → k ≠ [] → paddr k ≠ 0.
Proof. intros Hat Hk. pose proof (at_addr _ _ _ Hat) as Ha. apply Forall_app in Ha as [_ Ha]. destruct k as [|f k]; [done|]. apply Forall_cons in Ha as [Ha _]. by apply node_addr_pos. Qed.
Lemma tree_node d t : t ≠ E → ∃ c x a y, t = node d c x a y.
Proof. destruct t as [|c l a r]; [done|]. intros _. destruct d; [by exists c, l, a, r|by exists c, r, a, l]. Qed.
Lemma balanced_S t (n : nat) : balanced t (S n) → t ≠ E.
Proof. by intros H ->. Qed.

(** The tree under the hole is black and one black node short. *)
Record short s k t (n : nat) : Prop := {
  sh_at : at_hole s k t; sh_black : isblack t = true; sh_tree : balanced t n; sh_path : balancedc k (S n) }.
(** The rest of the loop: the tree is balanced, or the hole has moved up. *)
Definition fixed s k t (o : (Z * Z) + unit) : Prop :=
  (o = inr tt ∧ rbtree s (els (plug k t))) ∨
  (∃ k' t' n', o = inl (addr t', paddr k') ∧ short s k' t' n' ∧ k' ≠ [] ∧ els (plug k' t') = els (plug k t) ∧ (length k' < length k)%nat).

Lemma outer_red d s k c c1 t p x b o : at_hole s k (node d c t p (node d c1 x b o)) → isblack o = false →
  erase_fix_black d p b s = erase_fix_last d p (addr o) b s.
Proof.
  intros [Hr _ _ _ Ha] Ho. destruct s as [h rt]. apply Forall_app in Ha as [Ha _]. rewrite !els_node_perm in Ha.
  apply rep_node in Hr as (_ & _ & Hy). apply rep_node in Hy as (Hb & _ & Hor).
  apply Forall_cons in Ha as [Gp [_ [Gb [_ Ha]%Forall_app]%Forall_cons]%Forall_app]. pose proof (node_addr_pos _ Gb).
  unfold erase_fix_black. rb_step. m_step (null_or_black_eq h rt b o Hor (or_intror Gb) (addr_pos _ Ha)). by rewrite Ho.
Qed.

Lemma black_side_ok d s k c t p y (n : nat) : short s (mkFrame d c p y :: k) t n → isblack y = true →
  ∃ s' out, erase_fix_black d p (addr y) s = Done (out, s') ∧ fixed s' (mkFrame d c p y :: k) t out ∧ (c = false → out = inr tt).
Proof.
  intros [Hat Hbt Ht (Hy & Hc & Hk)] Hby. cbn [fd fc fp fs] in *. apply at_up in Hat. cbn [fd fc fp fs] in Hat.
  destruct (tree_node d y (balanced_S _ _ Hy)) as (c1 & x & b & o & ->). rewrite isblack_node in Hby. subst c1. rewrite addr_node.
  apply balanced_node in Hy as (m & Em & Hx & Ho & _). cbn [weight] in Em. assert (m = n) as -> by lia. clear Em.
  assert (Hin : ∀ s' t', at_hole s' k t' → balanced t' (S n + weight c) → (c = false → isblack t' = true ∨ headblack k) → (c = true → isblack t' = true) →
    els t' = els (node d c t p (node d true x b o)) → fixed s' (mkFrame d c p (node d true x b o) :: k) t (inr tt)).
  { intros s' t' Hat' Hb' Hh Hh' He. left. split; [done|]. eapply rbtree_intro; [exact Hat'|exact Hb'|exact Hk| |by apply (plug_els k)].
    destruct c; [left; by apply Hh'|by apply Hh]. }
  assert (Hhead : c = false → headblack k) by (intros E; by apply Hc).
  destruct (isblack o) eqn:Eo; [destruct (isblack x) eqn:Ex|].
  - destruct (erase_case2 d s k c t p x b o Hat Ex Eo) as (s' & E & Hat'). eexists s', _. split; [exact E|]. 
    assert (Hb' : balanced (node d true t p (node d false x b o)) (S n)).
    { apply balanced_node. exists n. split; [simpl; lia|]. split; [done|]. split; [|done]. apply balanced_node. exists n. by rewrite Nat.add_0_r. }
    assert (He : els (node d true t p (node d false x b o)) = els (node d c t p (node d true x b o))) by by rewrite !els_node.
    destruct c; cbn [andb weight] in *; [|rewrite Nat.add_0_r in *; split; [|done]].
    + split; [|done]. case_bool_decide as Ek.
      * right. exists k, (node d true t p (node d false x b o)), (S n). rewrite addr_node. split; [done|].
        rewrite Nat.add_1_r in Hk. split; [by split; rewrite ?isblack_node|]. split; [by intros ->|]. split; [by apply (plug_els k)|simpl; lia].
      * assert (k = []) as -> by (destruct k as [|f k]; [done|]; by destruct (at_hole_root _ _ _ Hat ltac:(done) Ek)).
        left. split; [done|]. eapply rbtree_intro; [exact Hat'|exact Hb'|done|left; apply isblack_node|by apply (plug_els [])].
    + eapply Hin; [exact Hat'|done|intros _; left; apply isblack_node|done|exact He].
  - destruct (tree_node d x) as (c1 & xd & a & xo & ->); [by intros ->|]. rewrite isblack_node in Ex. subst c1.
    apply balanced_node in Hx as (m & -> & Hxd & Hxo & Hxx). destruct (Hxx eq_refl) as [Hb1 Hb2]. rewrite Nat.add_0_r in *.
    destruct (erase_case3 d s k c t p xd a xo b o Hat Eo Hb2) as (s' & E & Hat'). exists s', (inr tt). split; [exact E|]. split; [|done].
    eapply Hin; [exact Hat'| |by right; apply Hhead|intros ->; apply isblack_node|].
    + apply balanced_node. exists (S m). split; [done|]. rewrite !isblack_node. split; [|split; [|done]]; apply balanced_node; exists m; by rewrite Nat.add_1_r.
    + rewrite !els_node. destruct d; by rewrite <-?app_assoc; simpl; rewrite <-?app_assoc.
  - rewrite (outer_red _ _ _ _ _ _ _ _ _ _ Hat Eo).
    destruct (erase_last_ok d s k c true t p x b o Hat ltac:(by intros ->)) as (s' & E & Hat'). exists s', (inr tt). split; [exact E|]. split; [|done].
    eapply Hin; [exact Hat'| |by right; apply Hhead|intros ->; apply isblack_node|].
    + apply balanced_node. exists (S n). split; [done|]. split; [apply balanced_node; exists n; by rewrite Nat.add_1_r|].
      split; [by apply balanced_blacken|]. intros _. rewrite isblack_node. split; [done|]. by destruct o.
    + rewrite !els_node, els_blacken. destruct d; by rewrite <-?app_assoc; simpl; rewrite <-?app_assoc.
Qed.

Lemma erase_side_ok d s k c t p y (n : nat) : short s (mkFrame d c p y :: k) t n →
  ∃ s' out, erase_fix_side d p (addr y) s = Done (out, s') ∧ fixed s' (mkFrame d c p y :: k) t out.
Proof.
  intros Hsh. pose proof Hsh as [Hat Hbt Ht (Hy & Hc & Hk)]. cbn [fd fc fp fs] in *. apply at_up in Hat. cbn [fd fc fp fs] in Hat.
  pose proof (balanced_S _ _ Hy) as Hy0. unfold erase_fix_side. destruct (isblack y) eqn:Eb.
  { m_step (erase_not_case1 d p s k c t y Hat Eb Hy0). destruct (black_side_ok d s k c t p y n Hsh Eb) as (s' & out & E & Hf & _). by exists s', out. }
  destruct (tree_node d y Hy0) as (c1 & x & b & o & ->). rewrite isblack_node in Eb. subst c1. rewrite addr_node.
  destruct c; [|by destruct (Hc eq_refl)].
  apply balanced_node in Hy as (m & Em & Hx & Ho & Hxo). cbn [weight] in *. rewrite Nat.add_0_r in Em. subst m. destruct (Hxo eq_refl) as [Hbx Hbo].
  destruct (erase_case1 d s k t p x b o Hat Hbx (balanced_S _ _ Hx)) as (s1 & E1 & Hat1). m_step E1.
  assert (Hsh1 : short s1 (mkFrame d false p x :: mkFrame d true b o :: k) t n).
  { split; [by apply at_up, at_up|done|done|]. cbn [balancedc fd fc fp fs weight headblack]. by rewrite Nat.add_0_r. }
  destruct (black_side_ok d s1 _ false t p x n Hsh1 Hbx) as (s' & out & E & Hf & Ho'). specialize (Ho' eq_refl). subst out.
  exists s', (inr tt). split; [exact E|]. left. split; [done|]. destruct Hf as [[_ Hf]|(? & ? & ? & ? & _)]; [|done].
  replace (els (plug (mkFrame d true p (node d false x b o) :: k) t)) with (els (plug (mkFrame d false p x :: mkFrame d true b o :: k) t)); [done|].
  cbn [plug fd fc fp fs]. apply plug_els. rewrite !els_node. destruct d; by rewrite <-?app_assoc; simpl; rewrite <-?app_assoc.
Qed.

Lemma erase_turn_ok s k t (n : nat) : short s k t n → k ≠ [] →
  ∃ s' out, erase_fix_turn (addr t, paddr k) s = Done (out, s') ∧ fixed s' k t out.
Proof.
  intros Hsh Hk. destruct k as [|[d c p y] k]; [done|]. destruct (erase_side_ok d s k c t p y n Hsh) as (s' & out & E & Hf).
  exists s', out. split; [|done]. rewrite <-E. pose proof (sh_at _ _ _ _ Hsh) as Hat. pose proof (at_path _ _ _ Hat) as (Hp & _). cbn [fd fc fp fs] in Hp.
  pose proof (at_hole_root _ _ _ Hat ltac:(done)) as Hp0. cbn [paddr fp] in Hp0. unfold erase_fix_turn. cbn [paddr fp].
  erewrite bind_done; [|eapply get_child_eq; [done|exact Hp]]. destruct d; cbn [child_of mk rb_right].
  - rewrite decide_True; [done|]. intros Et. destruct (sh_path _ _ _ _ Hsh) as (Hy & _). cbn [fs] in Hy.
    destruct y as [|cy ly a ry]; [done|]. pose proof (at_addr _ _ _ Hat) as Ha. destruct t as [|ct lt a' rt]; cbn [addr] in Et.
    + apply Forall_app in Ha as [_ [_ [Ha _]%Forall_app]%Forall_cons]. cbn [fs] in Ha. by apply (addr_pos (T cy ly a ry) Ha).
    + subst a'. pose proof (at_nodup _ _ _ Hat) as Hn. apply NoDup_app in Hn as (_ & Hn & _). apply (Hn a); cbn [els elc fp fs]; clear; set_solver.
  - rewrite decide_False by naive_solver. by erewrite bind_done; [|eapply get_child_eq; [done|exact Hp]].
Qed.

Lemma erase_loop_ok (fuel : nat) s k t (n : nat) : short s k t n → k ≠ [] → (length k < fuel)%nat →
  ∃ s', loop fuel erase_fix_turn (addr t, paddr k) s = Done (tt, s') ∧ rbtree s' (els (plug k t)).
Proof.
  revert s k t n. induction fuel as [|fuel IH]; intros s k t n Hsh Hk Hf; [lia|]. rewrite loop_S.
  destruct (erase_turn_ok s k t n Hsh Hk) as (s1 & out & E & [[-> Hfx]|(k1 & t1 & n1 & -> & Hsh1 & Hk1 & He & Hl)]); m_step E.
  - by exists s1.
  - rewrite <-He. eapply IH; [exact Hsh1|done|lia].
Qed.

(** ** The node that is removed *)
Lemma at_hole_less s k t (D : list Z) s' k' t' : at_hole s k t → els t ++ elc k ≡ₚ D ++ els t' ++ elc k' →
  rep (rnodes s') (paddr k') t' → repc (rnodes s') k' (addr t') → root_node s' = top k' (addr t') → at_hole s' k' t'.
Proof.
  intros [_ _ _ H4 H5] Hp H1 H2 H3. rewrite Hp in H4, H5. apply NoDup_app in H4 as (_ & _ & H4). apply Forall_app in H5 as [_ H5]. by split.
Qed.
(** Its place is taken by its only child, if any. *)
Lemma no_left s k c a r (fuel : nat) : at_hole s k (T c E a r) → ∃ s' b, __rb_erase fuel a s = Done (b, s') ∧
  at_hole s' k (recolor c r) ∧ b = match r with E => if c then paddr k else 0 | _ => 0 end.
Proof.
  intros Hat. pose proof Hat as [Hr Hc Hroot Hn Ha]. pose proof (proj2 (proj1 (Forall_app _ _ _) Ha)) as Hak. pose proof (paddr_ok k Hak) as Hpk.
  destruct (regions_label [[a]; els r; elc k] (els (T c E a r) ++ elc k)) as [f F]; [simpl; solve_Permutation|done|done|].
  single F 0%nat. region F 1%nat. region F 2%nat.
  destruct s as [h rt]. cbn [rnodes root_node] in *. destruct Hr as (Hra & _ & Hrr). cbn [addr] in *. subst rt.
  assert (Hp : els (T c E a r) ++ elc k ≡ₚ [a] ++ els (recolor c r) ++ elc k) by (simpl; by destruct r).
  unfold __rb_erase. rb_step. cbn [child_of rb_right]. rb_step. cbn [child_of rb_left]. rewrite decide_True by done. rb_step. cbn [pc].
  rewrite parent_word, color_word by (by apply parent_ok_mod).
  destruct (change_child_spec h k a (addr r)) as (h' & Ec & Rk & Fk); [done|done|done|done|apart|]. m_step Ec.
  destruct r as [|cr lr b rr].
  - rewrite decide_False by naive_solver. eexists _, _. split; [reflexivity|]. split; [|by destruct c].
    by eapply at_hole_less; [exact Hat|exact Hp|..].
  - cbn [addr recolor] in *. assert (Hb0 : b ≠ 0) by by apply (addr_pos (T cr lr b rr)). rewrite decide_True by done.
    assert (Fb : f b = 1%nat) by (apply R0; simpl; set_solver). assert (Rr : rep h' a (T cr lr b rr)) by elsewhere. pose proof Rr as (Hb & _).
    rewrite (bind_done _ _ _ _ _ (set_pc_eq b (word (paddr k) c) _ (mkRoot h' (top k b)) Hb0 Hb)). eexists _, _. split; [reflexivity|]. split; [|done].
    eapply at_hole_less; [exact Hat|exact Hp|..]; cbn [rnodes root_node].
    + exact (rep_recolor h' a (paddr k) c (T cr lr b rr) _ Rr N ltac:(done) Hb).
    + cbn [addr]. elsewhere.
    + done.
Qed.
Lemma no_right s k c a l (fuel : nat) : at_hole s k (T c l a E) → l ≠ E → ∃ s', __rb_erase fuel a s = Done (0, s') ∧ at_hole s' k (recolor c l).
Proof.
  intros Hat Hl0. pose proof Hat as [Hr Hc Hroot Hn Ha]. pose proof (proj2 (proj1 (Forall_app _ _ _) Ha)) as Hak. pose proof (paddr_ok k Hak) as Hpk.
  destruct (regions_label [[a]; els l; elc k] (els (T c l a E) ++ elc k)) as [f F]; [simpl; solve_Permutation|done|done|].
  single F 0%nat. region F 1%nat. region F 2%nat.
  destruct s as [h rt]. cbn [rnodes root_node] in *. destruct Hr as (Hra & Hlr & _). subst rt.
  destruct l as [|cl ll b rl]; [done|]. assert (Hb0 : b ≠ 0) by by apply (addr_pos (T cl ll b rl)). cbn [addr] in *.
  assert (Fb : f b = 1%nat) by (apply R0; simpl; set_solver). pose proof Hlr as (Hb & _).
  unfold __rb_erase. rb_step. cbn [child_of rb_right]. rb_step. cbn [child_of rb_left]. rewrite decide_False, decide_True by done. rb_step. cbn [pc].
  rb_step. rewrite parent_word by (by apply parent_ok_mod). set (h1 := <[b := _]> h).
  destruct (change_child_spec h1 k a b) as (h' & Ec & Rk & Fk); [elsewhere|done|done|done|apart|].
  m_step Ec. eexists. split; [reflexivity|].
  eapply at_hole_less with (D := [a]); [exact Hat|simpl; solve_Permutation|..]; cbn [rnodes root_node recolor addr]; [|done|done].
  eapply (rep_ext h1); [|exact (rep_recolor h a (paddr k) c (T cl ll b rl) _ Hlr N ltac:(done) Hb)]. intros z Hz. cbn [recolor els] in Hz. apply Fk. intros Hz'.
  assert (f z = 1%nat) by by apply R0. apart.
Qed.

(** *** A stretch of a path *)
(** The nodes of the path [k] under the parent [p], for a subtree at [q]. *)
Fixpoint reps h k (q p : Z) : Prop :=
  match k with
  | [] => True
  | f :: k => h !! fp f = Some (mk (fd f) (word (if k is g :: _ then fp g else p) (fc f)) q (addr (fs f))) ∧ rep h (fp f) (fs f) ∧ reps h k (fp f) p
  end.
Lemma repc_app h k2 k (q : Z) : repc h (k2 ++ k) q ↔ reps h k2 q (paddr k) ∧ repc h k (top k2 q).
Proof. revert q. induction k2 as [|f [|g k2] IH]; intros q; [simpl; tauto|simpl; tauto|]. specialize (IH (fp f)). cbn in *. tauto. Qed.
Lemma reps_ext h h' k (q p : Z) : (∀ a, a ∈ elc k → h' !! a = h !! a) → reps h k q p → reps h' k q p.
Proof.
  revert q. induction k as [|f k IH]; intros q H; [done|]. intros (Ha & Hs & Hk). cbn [reps elc] in *.
  split; [rewrite H; [done|set_solver]|]. split; [eapply rep_ext; [|done]; set_solver|apply IH; [set_solver|done]].
Qed.
Lemma top_in k (q : Z) : k ≠ [] → top k q ∈ elc k.
Proof.
  revert q. induction k as [|f [|g k] IH]; intros q; [done|by left|]. intros _. cbn [top elc] in *. right. apply elem_of_app. right. by apply (IH q).
Qed.
Lemma elc_app k2 k : elc (k2 ++ k) = elc k2 ++ elc k.
Proof. induction k2 as [|f k2 IH]; [done|]. simpl. by rewrite IH, app_assoc. Qed.
Lemma before_app k2 k : before (k2 ++ k) = before k ++ before k2.
Proof. induction k2 as [|f k2 IH]; simpl; [by rewrite app_nil_r|]. by rewrite IH, app_assoc. Qed.
Lemma after_app k2 k : after (k2 ++ k) = after k2 ++ after k.
Proof. induction k2 as [|f k2 IH]; [done|]. simpl. by rewrite IH, app_assoc. Qed.
Lemma top_app k2 k (q : Z) : top (k2 ++ k) q = top k (top k2 q).
Proof. revert q. induction k2 as [|f k2 IH]; intros q; [done|]. apply IH. Qed.

(** Its first node gets another child, its last node another parent. *)
Lemma reps_hole h (rt : Z) f k (q q' p : Z) : reps h (f :: k) q p → NoDup (elc (f :: k)) → Forall node_addr (elc (f :: k)) →
  ∃ h', set_child (fd f) (fp f) q' (mkRoot h rt) = Done (tt, mkRoot h' rt) ∧ reps h' (f :: k) q' p ∧ (∀ z, z ∉ elc (f :: k) → h' !! z = h !! z).
Proof.
  intros (Hf & Hs & Hk) [Hni _]%NoDup_cons [G _]%Forall_cons. eexists. split; [exact (set_child_eq _ _ _ _ (mkRoot h rt) (node_addr_pos _ G) Hf)|]. split.
  - cbn [reps rnodes]. rewrite (proj1 (with_child_mk _ _ _ _ _)). split; [apply lookup_insert_eq|].
    split; [eapply rep_ext; [|exact Hs]|eapply reps_ext; [|exact Hk]]; intros z Hz; apply lookup_insert_ne; intros <-; apply Hni; set_solver.
  - intros z Hz. apply lookup_insert_ne. intros <-. apply Hz. by left.
Qed.
Lemma reps_parent h (rt : Z) k (q p p' : Z) : reps h k q p → k ≠ [] → parent_ok p → NoDup (elc k) → Forall node_addr (elc k) →
  ∃ h', rb_set_parent (top k q) p' (mkRoot h rt) = Done (tt, mkRoot h' rt) ∧ reps h' k q p' ∧ (∀ z, z ∉ elc k → h' !! z = h !! z).
Proof.
  revert q. induction k as [|f k IH]; intros q Hr Hk Hp Hn Ha; [done|]. destruct Hr as (Hf & Hs & Hr). cbn [elc] in Hn, Ha.
  apply NoDup_cons in Hn as [Hni Hn]. apply Forall_cons in Ha as [G Ha]. pose proof (node_addr_pos _ G).
  destruct k as [|g k].
  - eexists. cbn [top]. split; [exact (rb_set_parent_eq (fp f) _ p (fc f) p' (mkRoot h rt) ltac:(done) Hf (pc_mk _ _ _ _) Hp)|].
    rewrite repc_mk. split; [split; [apply lookup_insert_eq|split; [|done]]|].
    + eapply rep_ext; [|exact Hs]. intros z Hz. apply lookup_insert_ne. intros <-. apply Hni. set_solver.
    + intros z Hz. apply lookup_insert_ne. intros <-. apply Hz. by left.
  - apply NoDup_app in Hn as (_ & Hd & Hn). apply Forall_app in Ha as [_ Ha].
    destruct (IH (fp f) Hr ltac:(done) Hp Hn Ha) as (h' & E & Hr' & Fr). exists h'. cbn [top] in *. split; [exact E|]. split; [split; [|split; [|done]]|].
    + rewrite Fr by set_solver. exact Hf.
    + eapply rep_ext; [|exact Hs]. intros z Hz. apply Fr. by apply Hd.
    + intros z Hz. apply Fr. cbn [elc] in *. set_solver.
Qed.

(** *** The walk to the successor *)
(** The leftmost node of a tree. *)
Lemma leftmost x : x ≠ E → ∃ k2 c a y, x = plug k2 (T c E a y) ∧ Forall (λ f, fd f = Left) k2.
Proof.
  induction x as [|c l IH a r _]; [done|]. intros _. destruct l as [|c1 l1 a1 r1]; [by exists [], c, a, r|].
  destruct IH as (k2 & c' & a' & y & E & Hk); [done|]. exists (k2 ++ [mkFrame Left c a r]), c', a', y. split; [|apply Forall_app; by repeat constructor].
  rewrite E. clear. generalize (T c' E a' y). induction k2 as [|f k2 IH]; intros t; [done|]. apply IH.
Qed.
Lemma left_before k : Forall (λ f, fd f = Left) k → before k = [].
Proof. induction 1 as [|f k Hf _ IH]; [done|]. simpl. by rewrite IH, Hf. Qed.
Lemma plug_app k2 k t : plug (k2 ++ k) t = plug k (plug k2 t).
Proof. revert t. induction k2 as [|f k2 IH]; intros t; [done|]. apply IH. Qed.
Lemma addr_plug k t : addr (plug k t) = top k (addr t).
Proof. revert t. induction k as [|f k IH]; intros t; [done|]. simpl. by rewrite IH, addr_node. Qed.

Lemma walk_ok (fuel : nat) s k k2 c (a : Z) y (p0 : Z) : at_hole s (k2 ++ k) (T c E a y) → Forall (λ f, fd f = Left) k2 → (length k2 < fuel)%nat →
  loop fuel successor_turn (p0, paddr k, top k2 a) s = Done ((paddr (k2 ++ k), a), s).
Proof.
  revert fuel k p0. induction k2 as [|f k2 IH] using rev_ind; intros fuel k p0 Hat Hl Hf; (destruct fuel as [|fuel]; [simpl in Hf; lia|]); rewrite loop_S.
  - cbn [app top] in *. pose proof (at_addr _ _ _ Hat) as [G _]%Forall_cons. pose proof (at_rep _ _ _ Hat) as (Ha & _). pose proof (node_addr_pos _ G).
    unfold successor_turn. rewrite (bind_done _ _ s (inr (paddr k, a)) s); [done|]. rb_step. by rewrite decide_True.
  - apply Forall_app in Hl as [Hl [Hd _]%Forall_cons]. rewrite <-app_assoc in Hat. cbn [app] in Hat. rewrite length_app in Hf. cbn [length] in Hf.
    pose proof (at_path _ _ _ Hat) as Hp. apply repc_app in Hp as [_ (Hff & _)]. pose proof (at_addr _ _ _ Hat) as Ha.
    assert (G : node_addr (fp f)) by (rewrite elc_app in Ha; apply Forall_app in Ha as [_ [_ Ha]%Forall_app]; cbn [elc] in Ha; by apply Forall_cons in Ha as [Ha _]).
    pose proof (node_addr_pos _ G). cbn [addr] in Hff.
    assert (Ht : top k2 a ≠ 0).
    { destruct k2 as [|g k2]; [by apply Forall_cons in Ha as [Ha _]; apply node_addr_pos|]. pose proof (top_in (g :: k2) a ltac:(done)) as Hin.
      rewrite Forall_forall in Ha. apply node_addr_pos, Ha. rewrite elc_app. set_solver. }
    rewrite top_app. cbn [top]. unfold successor_turn. rewrite Hd in Hff.
    rewrite (bind_done _ _ s (inl (paddr k, fp f, top k2 a)) s); [|rb_step; by rewrite decide_False].
    rewrite <-app_assoc. cbn [app]. apply (IH fuel (f :: k)); [done|done|lia].
Qed.

(** *** The successor takes the place of the node *)
Lemma take_successor_ok (fuel : nat) s k c l (a : Z) k2 cs (sc : Z) y :
  at_hole s (k2 ++ mkFrame Right c a l :: k) (T cs E sc y) → Forall (λ f, fd f = Left) k2 → (length k2 < fuel)%nat →
  ∃ h' pp, take_successor fuel (top k2 sc) s = Done ((paddr (k2 ++ [mkFrame Right c sc l]), sc, addr y), mkRoot h' (root_node s)) ∧
   reps h' k2 (addr y) sc ∧ parent_ok pp ∧ h' !! sc = Some (mk Right (word pp cs) (top k2 (addr y)) 0) ∧
   (∀ z, z ≠ sc → z ∉ elc k2 → h' !! z = rnodes s !! z).
Proof.
  intros Hat Hl Hf. pose proof Hat as [Hr Hc _ Hn Ha]. destruct s as [h rt]. cbn [rnodes root_node] in *.
  apply repc_app in Hc as [Hk2 _]. cbn [addr paddr fp] in Hk2. destruct Hr as (Hsc & _ & Hy). cbn [addr] in Hsc.
  destruct (regions_label [[sc]; els y; elc k2; [a]; els l ++ elc k] (els (T cs E sc y) ++ elc (k2 ++ mkFrame Right c a l :: k))) as [f F];
    [rewrite elc_app; simpl; solve_Permutation|done|done|].
  single F 0%nat. region F 1%nat. region F 2%nat. single F 3%nat.
  unfold take_successor. destruct k2 as [|g k2].
  - cbn [top app paddr fp] in *. exists h, a. rb_step. cbn [child_of rb_left]. rewrite decide_True by done. rb_step.
    split; [done|]. split; [done|]. split; [by right|]. done.
  - destruct (exists_last (l := g :: k2)) as (k3 & [dc cc ch sch] & Ek); [done|].
    assert (Et : ∀ q : Z, top (g :: k2) q = ch) by (intros q; by rewrite Ek, top_app).
    pose proof Hl as Hl'. rewrite Ek in Hl'. apply Forall_app in Hl' as [Hl3 [Hdc _]%Forall_cons]. cbn [fd] in Hdc. subst dc.
    assert (Gch : node_addr ch) by (rewrite Forall_forall in G1; apply G1; rewrite <-(Et 0); by apply top_in).
    pose proof (node_addr_pos _ Gch) as Hch0.
    assert (Hch : h !! ch = Some (mk Left (word a cc) (top k3 sc) (addr sch))).
    { pose proof (at_path _ _ _ Hat) as Hp. rewrite Ek, <-app_assoc in Hp. apply repc_app in Hp as [_ (Hp & _)]. exact Hp. }
    assert (Ht3 : top k3 sc ≠ 0).
    { destruct k3 as [|g3 k3]; [done|]. apply node_addr_pos. rewrite Forall_forall in G1. apply G1. rewrite Ek, elc_app. apply elem_of_app. left. by apply top_in. }
    assert (Hat3 : at_hole (mkRoot h rt) (k3 ++ mkFrame Left cc ch sch :: mkFrame Right c a l :: k) (T cs E sc y)).
    { pose proof Hat as Hat3. rewrite Ek, <-app_assoc in Hat3. exact Hat3. }
    assert (Ew : loop fuel successor_turn (0, ch, top k3 sc) (mkRoot h rt) = Done ((fp g, sc), mkRoot h rt)).
    { pose proof (walk_ok fuel _ _ k3 cs sc y 0 Hat3 Hl3) as Ew. cbn [paddr fp] in Ew. rewrite Ew.
      - replace (paddr (k3 ++ mkFrame Left cc ch sch :: mkFrame Right c a l :: k)) with (fp g); [done|].
        change (mkFrame Left cc ch sch :: mkFrame Right c a l :: k) with ([mkFrame Left cc ch sch] ++ mkFrame Right c a l :: k). by rewrite app_assoc, <-Ek.
      - assert (length (g :: k2) = length k3 + 1)%nat by (by rewrite Ek, length_app). lia. }
    rewrite !Et. rb_step. cbn [child_of rb_left]. rewrite decide_False by done. m_step Ew. rb_step.
    destruct (reps_hole h rt g k2 sc (addr y) a Hk2 N0 G1) as (h1 & E1 & Rk1 & F1). apply Forall_cons in Hl as [Hd _]. rewrite Hd in E1. m_step E1.
    rb_step. set (h2 := <[sc := _]> h1).
    assert (Hd2 : ∀ z, z ∈ elc (g :: k2) → h2 !! z = h1 !! z).
    { intros z Hz. apply lookup_insert_ne. apart. }
    destruct (reps_parent h2 rt (g :: k2) (addr y) a sc) as (h3 & E3 & Rk3 & F3); [by eapply reps_ext|done|by right|done|done|].
    rewrite Et in E3. m_step E3. exists h3, (paddr (g :: k2)). cbn [app paddr]. split; [done|]. split; [done|].
    split; [right; by apply Forall_cons in G1 as [G1 _]|]. split.
    + clear Hd2. rewrite F3 by apart. apply lookup_insert_eq.
    + intros z Hz1 Hz2. rewrite F3 by done. unfold h2. rewrite lookup_insert_ne by done. by apply F1.
Qed.

Lemma erase_two_ok (fuel : nat) s k c l (a : Z) k2 cs (sc : Z) y :
  at_hole s (k2 ++ mkFrame Right c a l :: k) (T cs E sc y) → l ≠ E → Forall (λ f, fd f = Left) k2 → (length k2 < fuel)%nat →
  ∃ s', erase_two fuel a (top k2 sc) s = Done (match y with E => if cs then paddr (k2 ++ [mkFrame Right c sc l]) else 0 | _ => 0 end, s') ∧
    at_hole s' (k2 ++ mkFrame Right c sc l :: k) (blacken y).
Proof.
  intros Hat Hl0 Hl Hf. destruct (take_successor_ok fuel s k c l a k2 cs sc y Hat Hl Hf) as (h1 & pp & E1 & Rk2 & Hpp & Hsc & F1).
  pose proof Hat as [Hr Hc Hroot Hn Ha]. destruct s as [h rt]. cbn [rnodes root_node] in *.
  apply repc_app in Hc as [_ (Hna & Hrl & Hc)]. cbn [fd fc fp fs] in *. destruct Hr as (_ & _ & Hy). cbn [addr] in *. rewrite top_app in Hroot. cbn [top fp] in Hroot.
  assert (Hperm : els (T cs E sc y) ++ elc (k2 ++ mkFrame Right c a l :: k) ≡ₚ mjoin [[sc]; els y; elc k2; [a]; els l; elc k]) by (rewrite elc_app; simpl; solve_Permutation).
  destruct (regions_label _ _ Hperm) as [f F]; [done|done|].
  single F 0%nat. region F 1%nat. region F 2%nat. single F 3%nat. region F 4%nat. region F 5%nat.
  pose proof (paddr_ok k G4) as Hpk. assert (Hla : addr l ≠ 0) by by apply addr_pos.
  unfold erase_two. m_step E1. rb_step. cbn [child_of mk rb_left]. rb_step. set (h2 := <[sc := _]> h1).
  destruct (set_parent_spec h2 rt sc a l) as (h3 & E3 & Rl & F3); [elsewhere|by right|done|done|]. rewrite decide_True in E3 by done. m_step E3.
  rb_step. rewrite pc_mk, parent_word by (by apply parent_ok_mod). subst rt.
  destruct (change_child_spec h3 k a sc) as (h4 & E4 & Rk & F4); [elsewhere|done|done|done|apart|]. m_step E4.
  assert (Hsc4 : h4 !! sc = Some (mk Right (word pp cs) (top k2 (addr y)) (addr l))) by look.
  assert (Hr2 : ∀ h' (q : Z), q = addr y → h' !! sc = Some (mk Right (word (paddr k) c) (top k2 q) (addr l)) → (∀ z, z ≠ sc → z ∉ els y → h' !! z = h4 !! z) →
    repc h' (k2 ++ mkFrame Right c sc l :: k) q).
  { intros h' q -> L1 F5. apply repc_app. cbn [paddr fp]. split; [|split; [exact L1|split]]; [|elsewhere|elsewhere].
    eapply reps_ext; [|exact Rk2]. intros z Hz. look. }
  assert (Hp2 : ∀ y', els y' = els y → els (T cs E sc y) ++ elc (k2 ++ mkFrame Right c a l :: k) ≡ₚ [a] ++ els y' ++ elc (k2 ++ mkFrame Right c sc l :: k)).
  { intros y' ->. rewrite !elc_app. simpl. solve_Permutation. }
  assert (Htop : top k sc = top (k2 ++ mkFrame Right c sc l :: k) (addr y)) by by rewrite top_app. rewrite Htop. clear Htop.
  destruct y as [|cy ly b ry].
  - cbn [addr blacken] in *. rewrite decide_False by naive_solver. rb_step. cbn [with_child mk pc]. rewrite color_word by (by apply parent_ok_mod). rb_step.
    eexists. split; [by destruct cs|]. eapply at_hole_less; [exact Hat|by apply (Hp2 E)|done| |done]. cbn [rnodes addr].
    apply Hr2; [done|look|]. intros z Hz _. by apply lookup_insert_ne.
  - assert (Hb0 : b ≠ 0) by by apply (addr_pos (T cy ly b ry)). cbn [addr] in *. rewrite decide_True by done. rb_step.
    assert (Fb : f b = 1%nat) by (apply R0; simpl; set_solver). set (h5 := <[sc := _]> h4).
    assert (Ry : rep h5 sc (T cy ly b ry)) by elsewhere. pose proof Ry as (Hb & _).
    change RB_BLACK with (cz true). rewrite (bind_done _ _ _ _ _ (set_parent_color_eq b _ _ true (mkRoot h5 _) Hb0 Hb)).
    eexists. split; [reflexivity|]. eapply at_hole_less; [exact Hat|by apply (Hp2 (blacken (T cy ly b ry)))|..]; cbn [rnodes root_node blacken addr].
    + replace (paddr (k2 ++ mkFrame Right c sc l :: k)) with (paddr (k2 ++ [mkFrame Right c sc l])) by by destruct k2.
      exact (rep_recolor h5 sc _ true (T cy ly b ry) _ Ry N ltac:(done) Hb).
    + apply Hr2; [done|look|]. intros z Hz1 Hz2. unfold h5. rewrite !lookup_insert_ne; [done|done|]. intros <-. apply Hz2. simpl. set_solver.
    + done.
Qed.

(** ** The whole removal *)
Lemma balanced_0 x : balanced x 0 → x = E ∨ isblack x = false.
Proof. destruct x as [|[] l a r]; [by left| |by right]. intros (m & Hm & _). simpl in Hm. lia. Qed.
(** An only child is red, under a black node. *)
Lemma only_child k c x (n : nat) s' : at_hole s' k (recolor c x) → balanced x 0 → x ≠ E → (c = false → isblack x = true) → n = weight c → balancedc k n →
  rbtree s' (els (plug k x)).
Proof.
  intros Hat Hx Hx0 Hc -> Hk. destruct (balanced_0 x Hx) as [->|Hr]; [done|]. destruct c; [|by rewrite Hr in Hc; discriminate Hc].
  assert (E : recolor true x = blacken x) by by destruct x. rewrite E in Hat. eapply rbtree_intro; [exact Hat|by apply balanced_blacken|exact Hk|left; by destruct x|].
  apply plug_els, els_blacken.
Qed.

Lemma balancedc_frame k2 k f f' (n : nat) : fc f = fc f' → fs f = fs f' → balancedc (k2 ++ f :: k) n → balancedc (k2 ++ f' :: k) n.
Proof.
  intros Hc Hs. revert n. induction k2 as [|g k2 IH]; intros n; cbn [app balancedc].
  - by rewrite Hc, Hs.
  - intros (H1 & H2 & H3). split; [done|]. split; [|by apply IH]. intros E. destruct (H2 E) as [H4 H5]. split; [done|]. by destruct k2; simpl in *; rewrite <-?Hc.
Qed.
Lemma fits_plug k2 k x (n : nat) : fits k (plug k2 x) n → ∃ m, fits (k2 ++ k) x m.
Proof.
  revert x. induction k2 as [|f k2 IH]; intros x Hf; [by exists n|]. destruct (IH _ Hf) as [m Hm]. destruct f. by apply fits_down in Hm.
Qed.

(** What [__rb_erase] leaves: a red-black tree, or a tree that is short at a hole. *)
Definition removed s (b : Z) (L : list Z) : Prop :=
  (b = 0 ∧ rbtree s L) ∨ (∃ k, k ≠ [] ∧ b = paddr k ∧ short s k E 0 ∧ els (plug k E) = L).
Lemma hole_closed s k : at_hole s k E → balancedc k 0 → rbtree s (els (plug k E)).
Proof. intros Hat Hk. exact (rbtree_intro s k E 0 _ Hat eq_refl Hk (or_introl eq_refl) eq_refl). Qed.
Lemma short_removed s k : at_hole s k E → balancedc k 1 → removed s (paddr k) (els (plug k E)).
Proof.
  intros Hat Hk. destruct k as [|f k]; [left; split; [done|by apply (hole_closed s [])]|]. right. exists (f :: k). split; [done|split; [done|split; [by constructor|done]]].
Qed.

Lemma erase_start (fuel : nat) s k c l (a : Z) r (n : nat) : at_hole s k (T c l a r) → fits k (T c l a r) n → (length (els r) < fuel)%nat →
  ∃ s' b, __rb_erase fuel a s = Done (b, s') ∧ removed s' b (before k ++ els l ++ els r ++ after k).
Proof.
  intros Hat Hfit Hf. pose proof Hfit as ((m & -> & Hl & Hr & Hc) & Hk & Hh).
  assert (l = E ∨ l ≠ E) as [->|Hl0] by (destruct l; [by left|by right]).
  { simpl in Hl. subst m. destruct (no_left s k c a r fuel Hat) as (s' & b & E & Hat' & Hb). exists s', b. split; [exact E|].
    change (els _ ++ els r ++ after k) with (els r ++ after k). rewrite <-els_plug. destruct r as [|cr lr ar rr].
    - destruct c; subst b; [by apply short_removed|]. left. split; [done|]. by apply hole_closed.
    - subst b. left. split; [done|]. eapply only_child; [exact Hat'|done|done|by intros ?; apply Hc|done|done]. }
  assert (r = E ∨ r ≠ E) as [->|Hr0] by (destruct r; [by left|by right]).
  { simpl in Hr. subst m. destruct (no_right s k c a l fuel Hat Hl0) as (s' & E & Hat'). exists s', 0. split; [exact E|]. left. split; [done|].
    change (els _ ++ after k) with (after k). rewrite <-els_plug. eapply only_child; [exact Hat'|done|done|by intros ?; apply Hc|done|done]. }
  destruct (leftmost r Hr0) as (k2 & cs & sc & y & -> & Hk2).
  assert (Hat2 : at_hole s (k2 ++ mkFrame Right c a l :: k) (T cs E sc y)).
  { apply at_plug. rewrite plug_app. cbn [plug fd fc fp fs node]. by apply at_plug in Hat. }
  assert (Hf2 : (length k2 < fuel)%nat).
  { rewrite els_plug, !length_app in Hf. pose proof (path_length k2). rewrite length_app in *. lia. }
  destruct (fits_down Right c (plug k2 (T cs E sc y)) a l k _ Hfit) as [m1 Hfit1]. destruct (fits_plug _ _ _ _ Hfit1) as [m2 ((m3 & -> & H0 & Hy & Hcy) & Hk' & Hh')].
  simpl in H0. subst m3. apply (balancedc_frame _ _ _ (mkFrame Right c sc l)) in Hk'; [|done..].
  destruct (erase_two_ok fuel s k c l a k2 cs sc y Hat2 Hl0 Hk2 Hf2) as (s' & E & Hat').
  assert (Ee : __rb_erase fuel a s = erase_two fuel a (top k2 sc) s).
  { pose proof (at_rep _ _ _ Hat) as (Hra & _). pose proof (at_addr _ _ _ Hat) as Ha. apply Forall_app in Ha as [Ha _].
    assert (a ≠ 0) by by apply (addr_pos (T c l a (plug k2 (T cs RbRep.E sc y)))). cbn [els] in Ha. apply Forall_app in Ha as [Gl [_ Gr]%Forall_cons].
    unfold __rb_erase. rb_step. rb_step. cbn [child_of rb_left rb_right]. rewrite !decide_False by (by apply addr_pos). by rewrite addr_plug. }
  rewrite Ee. eexists s', _. split; [exact E|].
  assert (He : before k ++ els l ++ els (plug k2 (T cs RbRep.E sc y)) ++ after k = els (plug (k2 ++ mkFrame Right c sc l :: k) (blacken y))).
  { rewrite !els_plug, before_app, after_app, els_blacken, (left_before k2 Hk2). cbn [before after els fd fp fs]. by rewrite app_nil_r, <-!app_assoc. }
  rewrite He. destruct y as [|cy ly b ry].
  - destruct cs; cbn [weight] in *.
    + replace (paddr (k2 ++ [mkFrame Right c sc l])) with (paddr (k2 ++ mkFrame Right c sc l :: k)) by by destruct k2. by apply short_removed.
    + left. split; [done|]. by apply hole_closed.
  - left. split; [done|]. destruct (balanced_0 _ Hy) as [|Hry]; [done|]. destruct cs; [|by destruct (Hcy eq_refl) as [_ Hx]; rewrite Hx in Hry].
    eapply rbtree_intro; [exact Hat'|by apply balanced_blacken|exact Hk'|by left|done].
Qed.

(** A node of the tree, and the path to it. *)
Lemma find_node (n : Z) t : n ∈ els t → ∃ k c l r, t = plug k (T c l n r).
Proof.
  induction t as [|c l IHl a r IHr]; [by intros ?%elem_of_nil|]. intros [Hn|[->|Hn]%elem_of_cons]%elem_of_app; [|by exists [], c, l, r|].
  - destruct (IHl Hn) as (k & c' & l' & r' & ->). exists (k ++ [mkFrame Left c a r]), c', l', r'. by rewrite plug_app.
  - destruct (IHr Hn) as (k & c' & l' & r' & ->). exists (k ++ [mkFrame Right c a l]), c', l', r'. by rewrite plug_app.
Qed.
Lemma middle_inj (n : Z) (l1 l2 k1 k2 : list Z) : NoDup (l1 ++ n :: l2) → l1 ++ n :: l2 = k1 ++ n :: k2 → l1 = k1 ∧ l2 = k2.
Proof.
  revert k1. induction l1 as [|x l1 IH]; intros [|y k1] Hn E; simplify_eq/=; [done|..].
  - apply NoDup_cons in Hn as [Hn _]. exfalso. apply Hn. set_solver.
  - apply NoDup_cons in Hn as [Hn _]. exfalso. apply Hn. set_solver.
  - apply NoDup_cons in Hn as [_ Hn]. by destruct (IH k1 Hn) as [-> ->].
Qed.

Lemma rbtree_erase (fuel : nat) s (n : Z) (L1 L2 : list Z) : rbtree s (L1 ++ n :: L2) → (length (L1 ++ L2) < fuel)%nat →
  ∃ s', _rb_erase fuel n s = Done (tt, s') ∧ rbtree s' (L1 ++ L2).
Proof.
  intros [(t & Hat & He & Hb & m & Hm)] Hf. destruct (find_node n t) as (k & c & l & r & ->); [rewrite He; set_solver|].
  assert (Hat' : at_hole s k (T c l n r)) by by apply at_plug.
  destruct (fits_plug k [] (T c l n r) m) as [m' Hfit]; [split; [done|split; [done|by left]]|]. rewrite app_nil_r in Hfit.
  pose proof (at_nodup _ _ _ Hat) as Hn. cbn [elc] in Hn. rewrite app_nil_r in Hn. rewrite els_plug in He, Hn. cbn [els] in He, Hn.
  rewrite <-?app_assoc, app_assoc in He, Hn. cbn [app] in He, Hn. destruct (middle_inj n _ _ _ _ Hn He) as [<- <-].
  destruct (erase_start fuel s k c l n r m' Hat' Hfit) as (s1 & b & E & Hr); [rewrite !length_app in *; lia|].
  rewrite <-app_assoc in *. unfold _rb_erase. m_step E. destruct Hr as [[-> Hr]|(k' & Hk' & -> & Hsh & Hel)].
  - rewrite decide_False by naive_solver. by exists s1.
  - rewrite decide_True by (by apply (at_hole_root _ _ _ (sh_at _ _ _ _ Hsh))). unfold __rb_erase_fix. rewrite <-Hel.
    apply (erase_loop_ok fuel s1 k' RbRep.E 0 Hsh Hk'). pose proof (path_length k') as Hp. rewrite <-Hel, els_plug in Hf. cbn [els app] in Hf. lia.
Qed.
