(* ===== verification/RbProps.v ===== *)
(** * A red-black tree as a sorted list

    The searches, the height of a tree, and the refinement: whatever operations are
    called, the tree answers as a sorted list would. *)
From stdpp Require Import sorting.
From S2P Require Import Prelude Words RbTree RbRep RbInsert RbErase.

Implicit Types (h : gmap Z rb_node) (t l r x y : tree) (k : path) (d : side) (c : bool) (s : rb_root).

(** ** The nodes that are in the heap *)
(** An operation adds and removes no nodes, and does the same whatever other nodes
    are in the heap. *)
Definition stays {A} (m : M rb_root A) : Prop := ∀ h (rt : Z) a s', m (mkRoot h rt) = Done (a, s') →
  dom (rnodes s') = dom h ∧ ∀ h2, h ##ₘ h2 → m (mkRoot (h ∪ h2) rt) = Done (a, mkRoot (rnodes s' ∪ h2) (root_node s')).
Create HintDb stays.
Lemma stays_ret {A} (a : A) : stays (mret a).
Proof. intros h rt b s' [= <- <-]. done. Qed.
Lemma stays_bind {A B} (m : M rb_root A) (f : A → M rb_root B) : stays m → (∀ a, stays (f a)) → stays (m ≫= f).
Proof.
  intros Hm Hf h rt b s' (a & [h1 rt1] & E1 & E2)%bind_inv. destruct (Hm _ _ _ _ E1) as [D1 L1]. destruct (Hf _ _ _ _ _ E2) as [D2 L2].
  cbn [rnodes root_node] in *. split; [by rewrite D2|]. intros h2 Hd. rewrite (bind_done _ _ _ _ _ (L1 h2 Hd)). apply L2.
  apply map_disjoint_dom. rewrite D1. by apply map_disjoint_dom.
Qed.
Lemma stays_decide {A} (P : Prop) `{!Decision P} (m1 m2 : M rb_root A) : stays m1 → stays m2 → stays (if decide P then m1 else m2).
Proof. by case_decide. Qed.
Lemma stays_bool {A} (b : bool) (m1 m2 : M rb_root A) : stays m1 → stays m2 → stays (if b then m1 else m2).
Proof. by destruct b. Qed.
Lemma stays_pair {A B C} (p : A * B) (m : A → B → M rb_root C) : (∀ a b, stays (m a b)) → stays (let '(a, b) := p in m a b).
Proof. by destruct p. Qed.
Lemma stays_loop {A B} (fuel : nat) (body : A → M rb_root (A + B)) a : (∀ a, stays (body a)) → stays (loop fuel body a).
Proof.
  intros Hb. revert a. induction fuel as [|fuel IH]; intros a; [done|]. change (stays (r ← body a; match r with inl a' => loop fuel body a' | inr b => mret b end)).
  apply stays_bind; [apply Hb|]. intros [a'|b']; [apply IH|apply stays_ret].
Qed.
Lemma stays_ld p : stays (ld p).
Proof.
  intros h rt n s'. unfold ld. case_decide; [done|]. cbn [rnodes]. destruct (h !! p) as [m|] eqn:E; [intros [= -> <-]|done]. split; [done|]. intros h2 Hd.
  by rewrite (lookup_union_Some_l _ _ _ _ E).
Qed.
Lemma stays_st p n : stays (st p n).
Proof.
  intros h rt u s'. unfold st. case_decide; [done|]. cbn [rnodes root_node]. destruct (h !! p) as [m|] eqn:E; [intros [= <- <-]|done].
  split; [simpl; apply dom_insert_lookup_L; by eexists|]. intros h2 Hd. rewrite (lookup_union_Some_l _ _ _ _ E). cbn [rnodes root_node]. by rewrite insert_union_l.
Qed.
Lemma stays_set_root p : stays (set_root p).
Proof. by intros h rt u s' [= <- <-]. Qed.
Lemma stays_root : stays (gets root_node).
Proof. by intros h rt u s' [= <- <-]. Qed.
#[export] Hint Resolve stays_ret stays_ld stays_st stays_set_root stays_root : stays.
Ltac keep := repeat first
  [ progress intros | apply stays_bind | apply stays_decide | apply stays_bool | apply stays_pair | apply stays_loop
  | solve [auto with stays] | match goal with |- stays ?m => let f := get_head m in unfold f end ]
with get_head t := match t with ?f _ => get_head f | _ => t end.
Lemma stays_insert cmp (fuel : nat) n : stays (_rb_insert cmp fuel n).
Proof. keep. Qed.
Lemma stays_erase (fuel : nat) n : stays (_rb_erase fuel n).
Proof. keep. Qed.
Lemma stays_dom {A} (m : M rb_root A) s a s' : stays m → m s = Done (a, s') → dom (rnodes s') = dom (rnodes s).
Proof. destruct s as [h rt]. intros H E. by apply (H h rt a s'). Qed.

(** ** The height of a tree *)
Fixpoint height t : nat := match t with E => 0 | T _ l _ r => S (Nat.max (height l) (height r)) end.
Lemma height_balanced t (n : nat) : balanced t n → (height t ≤ 2 * n + (if isblack t then 0 else 1))%nat.
Proof.
  revert n. induction t as [|c l IHl a r IHr]; intros n; [simpl; lia|]. intros (m & -> & Hl & Hr & Hc). specialize (IHl m Hl). specialize (IHr m Hr).
  cbn [height]. destruct c; cbn [weight isblack].
  - destruct (isblack l), (isblack r); lia.
  - destruct (Hc eq_refl) as [-> ->] in IHl, IHr. lia.
Qed.
Lemma size_balanced t (n : nat) : balanced t n → (2 ^ n ≤ S (length (els t)))%nat.
Proof.
  revert n. induction t as [|c l IHl a r IHr]; intros n; [by intros ->|]. intros (m & -> & Hl & Hr & Hc). specialize (IHl m Hl). specialize (IHr m Hr).
  cbn [els]. rewrite length_app. cbn [length]. destruct c; cbn [weight]; rewrite ?Nat.add_0_r, ?Nat.add_1_r, ?Nat.pow_succ_r'; lia.
Qed.
Lemma height_log t (n : nat) : balanced t n → isblack t = true → (height t ≤ 2 * Nat.log2 (S (length (els t))))%nat.
Proof.
  intros Hb Ht. pose proof (height_balanced t n Hb) as H1. rewrite Ht in H1. pose proof (size_balanced t n Hb) as H2.
  apply Nat.log2_le_mono in H2. rewrite Nat.log2_pow2 in H2 by lia. lia.
Qed.
Lemma height_size t : (height t ≤ length (els t))%nat.
Proof. induction t as [|c l IHl a r IHr]; [done|]. cbn [height els]. rewrite length_app. cbn [length]. lia. Qed.

(** ** Searches *)
Lemma node_at s k c l a r : at_hole s k (T c l a r) → a ≠ 0 ∧ rnodes s !! a = Some (mkRb (word (paddr k) c) (addr r) (addr l)).
Proof. intros Hat. split; [|apply (at_rep _ _ _ Hat)]. pose proof (at_addr _ _ _ Hat) as [Ha _]%Forall_app. by apply (addr_pos (T c l a r)). Qed.

Lemma first_loop_ok (fuel : nat) s k c l a r : at_hole s k (T c l a r) → (height l < fuel)%nat →
  loop fuel first_turn a s = Done (default 0 (head (els (T c l a r))), s).
Proof.
  revert k c l a r. induction fuel as [|fuel IH]; intros k c l a r Hat Hf; [lia|]. destruct (node_at _ _ _ _ _ _ Hat) as [Ha0 Ha]. rewrite loop_S.
  destruct l as [|cl ll b rl].
  - rewrite (bind_done _ _ s (inr a) s); [done|]. unfold first_turn. rb_step. by rewrite decide_True.
  - apply (at_up s (mkFrame Left c a r)) in Hat. destruct (node_at _ _ _ _ _ _ Hat) as [Hb0 _].
    rewrite (bind_done _ _ s (inl b) s); [|unfold first_turn; rb_step; by rewrite decide_False].
    rewrite (IH _ _ _ _ _ Hat) by (cbn [height] in Hf; lia). cbn [els]. by destruct (els ll).
Qed.
Lemma rbtree_first (fuel : nat) s (L : list Z) : rbtree s L → (length L < fuel)%nat → _rb_first fuel s = Done (default 0 (head L), s).
Proof.
  intros [(t & Hat & <- & _)] Hf. unfold _rb_first. pose proof (at_root _ _ _ Hat) as Hr. cbn [top] in Hr.
  rewrite (bind_done _ _ s (addr t) s) by (unfold gets; by rewrite Hr). destruct t as [|c l a r]; [done|]. cbn [addr].
  rewrite decide_False by apply (node_at _ _ _ _ _ _ Hat). apply (first_loop_ok _ _ [] c l a r Hat). pose proof (height_size l). cbn [els] in Hf. rewrite length_app in Hf. lia.
Qed.

Section comparison.
Context (cmp : Z → Z → bool) (Hs : strict cmp).
Abbreviation sorted := (StronglySorted (λ a b, cmp a b = true)).

(** Nodes that neither precede nor follow [n]. *)
Definition same (n e : Z) : bool := negb (cmp n e) && negb (cmp e n).
Definition find_same (n : Z) (L : list Z) : Z := default 0 (head (filter (λ e, same n e = true) L)).
(** The comparison does not tell apart what it does not order. *)
Definition weak : Prop := ∀ a b z : Z, cmp a b = true → cmp a z = true ∨ cmp z b = true.

Lemma filter_none (n : Z) (L : list Z) : (∀ e, e ∈ L → same n e = false) → filter (λ e, same n e = true) L = [].
Proof. intros H. induction L as [|e L IH]; [done|]. rewrite filter_cons_False by (rewrite H; [done|left]). apply IH. intros e' He'. apply H. by right. Qed.
Lemma before_not_same (n e : Z) : cmp e n = true → same n e = false.
Proof. intros H. unfold same. rewrite H. apply andb_false_r. Qed.
Lemma after_not_same (n e : Z) : cmp n e = true → same n e = false.
Proof. intros H. unfold same. by rewrite H. Qed.
Lemma around_find k (n : Z) t : around cmp k n → find_same n (els (plug k t)) = find_same n (els t).
Proof.
  intros [H1 H2]. unfold find_same. rewrite els_plug, !filter_app. rewrite (filter_none n (before k)), (filter_none n (after k)).
  - by rewrite app_nil_r.
  - intros e He. by apply after_not_same, H2.
  - intros e He. by apply before_not_same, H1.
Qed.

Lemma lookup_loop_ok (fuel : nat) s k t (n : Z) : weak → at_hole s k t → sorted (els t) → around cmp k n → (height t < fuel)%nat →
  loop fuel (lookup_turn cmp n) (addr t) s = Done (find_same n (els (plug k t)), s).
Proof.
  intros Hw. revert k t. induction fuel as [|fuel IH]; intros k t Hat Ho Har Hf; [lia|]. rewrite around_find by done. rewrite loop_S. destruct t as [|c l a r]; [done|].
  destruct (node_at _ _ _ _ _ _ Hat) as [Ha0 Ha]. cbn [addr height] in *. 
  assert (Et : lookup_turn cmp n a = if cmp n a then l ← get_child Left a; mret (inl l) else if cmp a n then r ← get_child Right a; mret (inl r) else mret (inr a)).
  { unfold lookup_turn. by rewrite decide_False. }
  rewrite Et. clear Et.
  destruct (cmp n a) eqn:E1; [|destruct (cmp a n) eqn:E2].
  - destruct (around_left cmp k c l a r n Hs Ho Har E1) as [Har' Hol]. rb_step. cbn [child_of rb_left].
    rewrite (bind_done _ _ s (inl (addr l)) s) by done. apply (at_up s (mkFrame Left c a r)) in Hat. rewrite (IH _ _ Hat Hol Har') by lia.
    cbn [plug fd fc fp fs node]. by rewrite around_find.
  - destruct (around_right cmp k c l a r n Hs Ho Har E2) as [Har' Hol]. rb_step. cbn [child_of rb_right].
    rewrite (bind_done _ _ s (inl (addr r)) s) by done. apply (at_up s (mkFrame Right c a l)) in Hat. rewrite (IH _ _ Hat Hol Har') by lia.
    cbn [plug fd fc fp fs node]. by rewrite around_find.
  - rewrite (bind_done _ _ s (inr a) s) by done. cbn [els] in *. unfold find_same. rewrite filter_app, filter_none; [|].
    + rewrite filter_cons_True; [done|]. unfold same. by rewrite E1, E2.
    + intros e He. apply sorted_middle in Ho as (_ & Ho & _). destruct (Hw e a n (Ho e He)) as [H|H]; [by apply before_not_same|congruence].
Qed.
Lemma rbtree_lookup (fuel : nat) s (L : list Z) (n : Z) : weak → rbtree s L → sorted L → (2 * Nat.log2 (S (length L)) < fuel)%nat →
  _rb_lookup cmp fuel n s = Done (find_same n L, s).
Proof.
  intros Hw [(t & Hat & <- & Hb & m & Hm)] Ho Hf. unfold _rb_lookup. pose proof (at_root _ _ _ Hat) as Hr. cbn [top] in Hr.
  rewrite (bind_done _ _ s (addr t) s) by (unfold gets; by rewrite Hr). apply (lookup_loop_ok fuel s [] t n Hw Hat Ho).
  - split; intros ? ?%elem_of_nil; done.
  - pose proof (height_log t m Hm Hb). lia.
Qed.

(** ** The tree as a sorted list *)
(** The same elements with [n] at its place. *)
Fixpoint place (n : Z) (L : list Z) : list Z :=
  match L with [] => [n] | e :: L => if cmp n e then n :: e :: L else e :: place n L end.
Lemma place_middle (n : Z) (L1 L2 : list Z) : sorted (L1 ++ n :: L2) → place n (L1 ++ L2) = L1 ++ n :: L2.
Proof.
  induction L1 as [|e L1 IH]; cbn [app place].
  - intros [Hn _]%StronglySorted_cons. destruct L2 as [|e L2]; [done|]. apply Forall_cons in Hn as [Hn _]. simpl. by rewrite Hn.
  - intros [He Ho]%StronglySorted_cons. rewrite IH by done. destruct (cmp n e) eqn:E; [|done]. rewrite Forall_forall in He.
    assert (H : cmp e n = true) by (apply He; set_solver). pose proof (cmp_trans _ Hs _ _ _ E H) as H'. by rewrite (cmp_irrefl _ Hs) in H'.
Qed.
Lemma remove_middle (n : Z) (L1 L2 : list Z) : NoDup (L1 ++ n :: L2) → filter (λ e, e ≠ n) (L1 ++ n :: L2) = L1 ++ L2.
Proof.
  intros (H1 & H2 & H3)%NoDup_app_cons. rewrite filter_app, filter_cons_False by naive_solver.
  assert (Hk : ∀ l : list Z, n ∉ l → filter (λ e, e ≠ n) l = l).
  { clear. induction l as [|e l IH]; intros Hn; [done|]. apply not_elem_of_cons in Hn as [Hne Hn]. rewrite filter_cons_True by congruence. by rewrite IH. }
  by rewrite !Hk.
Qed.

Inductive rb_op := RbInsert (n : Z) | RbErase (n : Z) | RbLookup (n : Z) | RbFirst.
Definition op_run (fuel : nat) (o : rb_op) : M rb_root Z :=
  match o with
  | RbInsert n => _rb_insert cmp fuel n
  | RbErase n => _rb_erase fuel n;; mret 0
  | RbLookup n => _rb_lookup cmp fuel n
  | RbFirst => _rb_first fuel
  end.
Definition op_spec (o : rb_op) (L : list Z) : Z * list Z :=
  match o with
  | RbInsert n => if existsb (same n) L then (-1, L) else (0, place n L)
  | RbErase n => (0, filter (λ e, e ≠ n) L)
  | RbLookup n => (find_same n L, L)
  | RbFirst => (default 0 (head L), L)
  end.
(** What a caller may ask for: a node is inserted once and erased where it is. *)
Definition op_pre (h : gmap Z rb_node) (o : rb_op) (L : list Z) : Prop :=
  match o with RbInsert n => n ∉ L ∧ is_Some (h !! n) | RbErase n => n ∈ L | _ => True end.
Fixpoint ops_run (fuel : nat) (os : list rb_op) : M rb_root (list Z) :=
  match os with [] => mret [] | o :: os => a ← op_run fuel o; r ← ops_run fuel os; mret (a :: r) end.
Fixpoint ops_spec (os : list rb_op) (L : list Z) : list Z * list Z :=
  match os with [] => ([], L) | o :: os => let '(a, L) := op_spec o L in let '(r, L) := ops_spec os L in (a :: r, L) end.
Fixpoint ops_pre (h : gmap Z rb_node) (os : list rb_op) (L : list Z) : Prop :=
  match os with [] => True | o :: os => op_pre h o L ∧ ops_pre h os (op_spec o L).2 end.

Lemma rbtree_elements s (L : list Z) : rbtree s L → NoDup L ∧ Forall node_addr L ∧ (length L ≤ size (rnodes s))%nat.
Proof.
  intros [(t & [Hr _ _ Hn Ha] & <- & _)]. cbn [elc paddr] in *. rewrite app_nil_r in *. split; [done|]. split; [done|].
  rewrite <-size_dom, <-(size_list_to_set (C := gset Z) (els t)) by done. apply subseteq_size. intros z Hz%elem_of_list_to_set. clear Hn Ha. revert Hr Hz.
  generalize 0. induction t as [|c l IHl a r IHr]; intros p; [by intros _ ?%elem_of_nil|]. intros (Ha & Hl & Hr) [Hz|[->|Hz]%elem_of_cons]%elem_of_app; eauto.
  by apply elem_of_dom.
Qed.

Lemma log2_lin (n : nat) : (0 < n)%nat → (2 * Nat.log2 n ≤ n)%nat.
Proof.
  intros Hn. destruct (Nat.log2_spec n Hn) as [H _]. destruct (Nat.log2 n) as [|k]; [lia|]. rewrite Nat.pow_succ_r' in H.
  pose proof (Nat.pow_gt_lin_r 2 k ltac:(lia)). lia.
Qed.
Lemma op_ok (fuel : nat) s (L : list Z) o : weak → rbtree s L → sorted L → (∀ n : Z, is_Some (rnodes s !! n) → node_addr n) → op_pre (rnodes s) o L →
  (size (rnodes s) + 1 < fuel)%nat →
  ∃ s', op_run fuel o s = Done ((op_spec o L).1, s') ∧ rbtree s' (op_spec o L).2 ∧ sorted (op_spec o L).2 ∧ dom (rnodes s') = dom (rnodes s).
Proof.
  intros Hw Hrb Ho Hall Hpre Hf. destruct (rbtree_elements s L Hrb) as (Hnd & Hna & Hlen). destruct o as [n|n|n|]; cbn [op_run op_spec op_pre] in *.
  - destruct Hpre as [Hn Hsome].
    destruct (insert_ok cmp fuel s L n Hs Hrb Ho Hn (Hall n Hsome) Hsome) as [(e & s' & He & H1 & H2 & E & Hrb')|(L1 & L2 & s' & -> & E & Hrb' & Ho')]; [lia|..].
    + replace (existsb (same n) L) with true; [exists s'; by rewrite E; split_and!; [..|by eapply stays_dom; [apply stays_insert|]]|].
      symmetry. apply existsb_exists. exists e. split; [by apply list_elem_of_In|]. unfold same. by rewrite H1, H2.
    + replace (existsb (same n) (L1 ++ L2)) with false; [exists s'; rewrite E; cbn [fst snd]; rewrite place_middle by done; by split_and!; [..|by eapply stays_dom; [apply stays_insert|]]|].
      symmetry. apply not_true_is_false. intros (e & He%list_elem_of_In & Hsame)%existsb_exists. apply sorted_middle in Ho' as (_ & H1 & H2).
      apply elem_of_app in He as [He|He]; [rewrite before_not_same in Hsame by by apply H1|rewrite after_not_same in Hsame by by apply H2]; done.
  - apply list_elem_of_split in Hpre as (L1 & L2 & ->). destruct (rbtree_erase fuel s n L1 L2 Hrb) as (s' & E & Hrb'); [rewrite length_app in *; simpl in *; lia|].
    exists s'. rewrite (bind_done _ _ _ _ _ E). cbn [fst snd]. rewrite remove_middle by done. split; [done|]. split; [done|].
    split; [by apply sorted_middle in Ho as [Ho _]|by eapply stays_dom; [apply stays_erase|]].
  - exists s. split; [|done]. apply rbtree_lookup; [done|done|done|]. pose proof (log2_lin (S (length L)) ltac:(lia)). lia.
  - exists s. split; [|done]. apply rbtree_first; [done|lia].
Qed.

Lemma op_pre_dom h h' o (L : list Z) : dom h' = dom h → op_pre h o L → op_pre h' o L.
Proof. intros Hd. destruct o; simpl; [|done..]. intros [Hn Hs']. split; [done|]. apply elem_of_dom. rewrite Hd. by apply elem_of_dom. Qed.
Lemma ops_ok (fuel : nat) os s (L : list Z) : weak → rbtree s L → sorted L → (∀ n : Z, is_Some (rnodes s !! n) → node_addr n) → ops_pre (rnodes s) os L →
  (size (rnodes s) + 1 < fuel)%nat →
  ∃ s', ops_run fuel os s = Done ((ops_spec os L).1, s') ∧ rbtree s' (ops_spec os L).2 ∧ sorted (ops_spec os L).2.
Proof.
  intros Hw. revert s L. induction os as [|o os IH]; intros s L Hrb Ho Hall Hpre Hf; [by exists s|]. cbn [ops_run ops_spec ops_pre] in *. destruct Hpre as [Hp Hps].
  destruct (op_ok fuel s L o Hw Hrb Ho Hall Hp Hf) as (s1 & E1 & Hrb1 & Ho1 & Hd). m_step E1. destruct (op_spec o L) as [a L1] eqn:Eo. cbn [fst snd] in *.
  destruct (IH s1 L1 Hrb1 Ho1) as (s2 & E2 & Hrb2 & Ho2).
  - intros n Hn. apply Hall. apply elem_of_dom. rewrite <-Hd. by apply elem_of_dom.
  - clear -Hd Hps. revert L1 Hps. induction os as [|o' os IH]; intros L1; [done|]. cbn [ops_pre]. intros [H1 H2]. split; [by eapply op_pre_dom|by apply IH].
  - rewrite <-size_dom, Hd, size_dom. done.
  - m_step E2. exists s2. by destruct (ops_spec os L1).
Qed.
End comparison.

Lemma rbtree_empty h : rbtree (mkRoot h 0) [].
Proof. split. exists E. split; [|split; [done|split; [done|by exists 0%nat]]]. split; try done; apply NoDup_nil_2 || by apply Forall_nil. Qed.

(** ** The properties *)
(** C4: A red-black tree behaves as a sorted list of its nodes.  From a tree of the
    sorted nodes [L], any sequence of insertions, removals, searches and questions
    for the first node answers what the list answers (insertion puts the node at its
    place, or refuses it with [-1] when the comparison does not tell it from another
    node; a search finds the node that compares equal, or none), and ends in a
    red-black tree of the list that is left: linked in both directions, with no red
    node under a red one and as many black nodes on every path. The comparison is a
    strict weak order and a node is not inserted twice. *)
Theorem rb_refines_sorted_list (cmp : Z → Z → bool) (fuel : nat) (os : list rb_op) s (L : list Z) :
  strict cmp → weak cmp → rbtree s L → StronglySorted (λ a b, cmp a b = true) L → (∀ n : Z, is_Some (rnodes s !! n) → node_addr n) →
  ops_pre cmp (rnodes s) os L → (size (rnodes s) + 1 < fuel)%nat →
  ∃ s', ops_run cmp fuel os s = Done ((ops_spec cmp os L).1, s') ∧ rbtree s' (ops_spec cmp os L).2 ∧
    StronglySorted (λ a b, cmp a b = true) (ops_spec cmp os L).2.
Proof. intros Hs Hw. by apply ops_ok. Qed.

(** [_rb_erase] of any node of a red-black tree leaves a red-black tree of the
    other nodes in their order, whatever the shape of the tree: the node may have
    no, one or two children, and every case of the rebalancing is met with the
    colours it needs.  The walk to the successor and the rebalancing each end
    within as many turns as the tree has nodes, and the nodes stay where they were. *)
Theorem rb_erase_balanced (fuel : nat) s (n : Z) (L1 L2 : list Z) : rbtree s (L1 ++ n :: L2) → (length (L1 ++ L2) < fuel)%nat →
  ∃ s', _rb_erase fuel n s = Done (tt, s') ∧ rbtree s' (L1 ++ L2) ∧ dom (rnodes s') = dom (rnodes s).
Proof.
  intros Hrb Hf. destruct (rbtree_erase fuel s n L1 L2 Hrb Hf) as (s' & E & Hrb'). exists s'. split; [done|]. split; [done|]. by eapply stays_dom; [apply stays_erase|].
Qed.

(** C34: A search in a red-black tree of [n] nodes ends after at most
    [2 * log2 (n + 1)] steps down, with the node that compares equal to the one
    asked for, or with none when there is no such node; the tree is left as it is. *)
Theorem rb_lookup_logarithmic (cmp : Z → Z → bool) (fuel : nat) s (L : list Z) (n : Z) :
  strict cmp → weak cmp → rbtree s L → StronglySorted (λ a b, cmp a b = true) L → (2 * Nat.log2 (S (length L)) < fuel)%nat →
  ∃ e, _rb_lookup cmp fuel n s = Done (e, s) ∧
    ((e ∈ L ∧ cmp n e = false ∧ cmp e n = false) ∨ (e = 0 ∧ ∀ x : Z, x ∈ L → cmp n x = true ∨ cmp x n = true)).
Proof.
  intros Hs Hw Hrb Ho Hf. exists (find_same cmp n L). split; [by apply rbtree_lookup|]. unfold find_same.
  destruct (filter (λ e, same cmp n e = true) L) as [|e l] eqn:E; cbn [head default].
  - right. split; [done|]. intros x Hx. destruct (cmp n x) eqn:E1; [by left|]. destruct (cmp x n) eqn:E2; [by right|].
    assert (Hin : x ∈ filter (λ e, same cmp n e = true) L) by (apply list_elem_of_filter; split; [unfold same; by rewrite E1, E2|done]).
    rewrite E in Hin. by apply elem_of_nil in Hin.
  - left. assert (Hin : e ∈ filter (λ e, same cmp n e = true) L) by (rewrite E; left). apply list_elem_of_filter in Hin as [H Hin]. split; [done|].
    unfold same in H. apply andb_true_iff in H as [H1%negb_true_iff H2%negb_true_iff]. done.
Qed.

(** *** Witnesses *)
Definition nodes_upto (n : nat) : gmap Z rb_node := list_to_map ((λ i, (4 * Z.of_nat i + 4, mkRb 0 0 0)) <$> seq 0 n).
Lemma nodes_upto_addr (n : nat) (a : Z) (v : rb_node) : (n ≤ 100)%nat → nodes_upto n !! a = Some v → node_addr a.
Proof.
  intros Hn (i & [= -> _] & Hi%elem_of_seq)%elem_of_list_to_map_2%list_elem_of_fmap. split; [lia|]. rewrite Z.add_mod, Z.mul_comm, Z.mod_mul by done. done.
Qed.
#[export] Instance ops_pre_dec cmp h os (L : list Z) : Decision (ops_pre cmp h os L).
Proof. revert L. induction os as [|[n|n|n|] os IH]; intros L; simpl; apply _. Defined.
Lemma ltb_strict : strict Z.ltb ∧ weak Z.ltb.
Proof. split; [split; intros *|intros a b z]; rewrite ?Z.ltb_irrefl, ?Z.ltb_lt; [done|lia|lia]. Qed.
Definition example_ops : list rb_op :=
  [RbInsert 8; RbInsert 4; RbInsert 20; RbInsert 16; RbInsert 12; RbFirst; RbLookup 16; RbErase 8; RbErase 20; RbLookup 20; RbErase 4; RbFirst].

Lemma rb_refines_sorted_list_witness : ∃ s',
  ops_run Z.ltb 8 example_ops (mkRoot (nodes_upto 5) 0) = Done ([0; 0; 0; 0; 0; 4; 16; 0; 0; 0; 0; 12], s') ∧ rbtree s' [12; 16].
Proof.
  destruct (rb_refines_sorted_list Z.ltb 8 example_ops (mkRoot (nodes_upto 5) 0) []) as (s' & E & Hrb & _).
  - apply ltb_strict.
  - apply ltb_strict.
  - apply rbtree_empty.
  - constructor.
  - intros n [v Hn]. exact (nodes_upto_addr 5 n v ltac:(lia) Hn).
  - apply (bool_decide_unpack _). by vm_compute.
  - apply (bool_decide_unpack _). by vm_compute.
  - exists s'. split; [exact E|exact Hrb].
Defined.

(** A tree with a red sibling for the node 4. *)
Definition example_tree : tree := T true (T true E 4 E) 8 (T false (T true E 12 E) 16 (T true E 20 (T false E 24 E))).
Fixpoint heap_of (p : Z) t : gmap Z rb_node :=
  match t with E => ∅ | T c l a r => <[a := mkRb (word p c) (addr r) (addr l)]> (heap_of a l ∪ heap_of a r) end.
Definition example_root : rb_root := mkRoot (heap_of 0 example_tree) 8.
Lemma example_rbtree : rbtree example_root [4; 8; 12; 16; 20; 24].
Proof.
  split. exists example_tree. split; [|split; [done|split; [done|]]].
  - split; [repeat split|done|done|apply (bool_decide_unpack _); by vm_compute..].
  - exists 2%nat. repeat match goal with
      | |- balanced E _ => reflexivity
      | |- balanced (T true _ _ _) (S ?m) => exists m; split; [by rewrite Nat.add_1_r|split; [|split; [|done]]]
      | |- balanced (T false _ _ _) ?m => exists m; split; [by rewrite Nat.add_0_r|split; [|split; [|done]]]
      | |- _ => progress (unfold example_tree)
    end.
Qed.

Lemma rb_erase_balanced_witness : ∃ s', _rb_erase 6 4 example_root = Done (tt, s') ∧ rbtree s' [8; 12; 16; 20; 24].
Proof.
  destruct (rb_erase_balanced 6 example_root 4 [] [8; 12; 16; 20; 24]) as (s' & E & Hrb & _).
  - exact example_rbtree.
  - apply (bool_decide_unpack _). by vm_compute.
  - exists s'. split; [exact E|exact Hrb].
Defined.

Lemma rb_lookup_logarithmic_witness : ∃ e, _rb_lookup Z.ltb 5 20 example_root = Done (e, example_root).
Proof.
  destruct (rb_lookup_logarithmic Z.ltb 5 example_root [4; 8; 12; 16; 20; 24] 20) as (e & E & _).
  - apply ltb_strict.
  - apply ltb_strict.
  - exact example_rbtree.
  - repeat (constructor; [|repeat constructor]). constructor.
  - apply (bool_decide_unpack _). by vm_compute.
  - exists e. exact E.
Defined.
