(* ===== verification/Timers.v ===== *)
(** * CPU timers ([kernel/cpu.c], [driver/clock.c])

    The [struct timer]s by address, the nodes they embed in one heap, and for every
    CPU the root of its tree of pending timers and its registers.  The counter that
    [get_timestamp] reads is a parameter: the value at every reading.  A call of
    [timer->handler] is recorded before it runs; what the handlers do is a parameter
    as well, since it reaches into the scheduler. *)
From S2P Require Import Prelude Words RbTree.

Record timer := mkTimer { triggered : bool; elapse : Z; _key : Z; handler : Z; data : Z }.
#[export] Instance timer_eq_dec : EqDecision timer.
Proof. solve_decision. Defined.

(** A CPU: [online], the [rb_node] of [timer], and the registers that are written. *)
Record cpu := mkCpu {
  online : bool; timer_root : Z; daif : Z; ttbr0 : Z; vbar : Z; esr : Z;
  cntp_ctl : Z; cntp_tval : Z; core_clock_ctrl : Z }.
(** The functions [set_clock_handler] is called with. *)
Variant clock_fn := timer_clock_handler_ptr.

Record cst := mkCst {
  tnodes : gmap Z rb_node;
  tms : gmap Z timer;
  cpus : list cpu;
  one_ms : Z;
  clock_handler : option clock_fn;
  reads : nat;        (* readings of the counter so far *)
  called : list Z     (* the timers whose handlers were called *)
}.

Section timers.
Context (ticks : nat → Z) (frequency : Z).
(** [sched_timer] and [hello_timer], by the CPU; the code of [hello]. *)
Context (sched_timer hello_timer : nat → Z) (hello_ptr : Z).
Context (invalid_pt exception_vector : Z).
Context (call : Z → nat → Z → M cst unit).

(** [&timer->_node] and its [container_of]. *)
Definition tnode (t : Z) : Z := t + 16.
Definition tcontainer (n : Z) : Z := n - 16.

Definition get_timer (t : Z) : M cst timer := λ s, match tms s !! t with Some tm => Done (tm, s) | None => Crash end.
Definition set_timer (t : Z) (tm : timer) : M cst unit := λ s,
  match tms s !! t with
  | Some _ => Done (tt, mkCst (tnodes s) (<[t := tm]> (tms s)) (cpus s) (one_ms s) (clock_handler s) (reads s) (called s))
  | None => Crash
  end.
Definition get_cpu (c : nat) : M cst cpu := λ s, match cpus s !! c with Some v => Done (v, s) | None => Crash end.
Definition set_cpu (c : nat) (v : cpu) : M cst unit := λ s,
  Done (tt, mkCst (tnodes s) (tms s) (<[c := v]> (cpus s)) (one_ms s) (clock_handler s) (reads s) (called s)).
Definition with_root (r : Z) (v : cpu) : cpu :=
  mkCpu (online v) r (daif v) (ttbr0 v) (vbar v) (esr v) (cntp_ctl v) (cntp_tval v) (core_clock_ctrl v).
Definition with_tval (x : Z) (v : cpu) : cpu :=
  mkCpu (online v) (timer_root v) (daif v) (ttbr0 v) (vbar v) (esr v) (cntp_ctl v) x (core_clock_ctrl v).
(** An operation on [cpus[c].timer]. *)
Definition on_tree {A} (c : nat) (m : M rb_root A) : M cst A := λ s,
  match cpus s !! c with
  | None => Crash
  | Some v =>
      match m (mkRoot (tnodes s) (timer_root v)) with
      | Done (a, r) => Done (a, mkCst (rnodes r) (tms s) (<[c := with_root (root_node r) v]> (cpus s))
                                  (one_ms s) (clock_handler s) (reads s) (called s))
      | Panic => Panic | Crash => Crash | NoFuel => NoFuel
      end
  end.

(** ** [driver/clock.c] *)
Definition get_timestamp : M cst Z := λ s,
  Done (ticks (reads s), mkCst (tnodes s) (tms s) (cpus s) (one_ms s) (clock_handler s) (S (reads s)) (called s)).
Definition get_timestamp_ms : M cst Z := t ← get_timestamp; ms ← gets one_ms; mret (t / ms).
Definition reset_clock (c : nat) (countdown_ms : Z) : M cst unit :=
  ms ← gets one_ms;
  let t := u64 (countdown_ms * ms) in
  assert (bool_decide (t ≤ 0x7fffffff));;
  v ← get_cpu c; set_cpu c (with_tval t v).
Definition init_clock (c : nat) : M cst unit :=
  modify (λ s, mkCst (tnodes s) (tms s) (cpus s) (frequency / 1000) (clock_handler s) (reads s) (called s));;
  v ← get_cpu c;
  set_cpu c (mkCpu (online v) (timer_root v) (daif v) (ttbr0 v) (vbar v) (esr v) 1 (cntp_tval v) (core_clock_ctrl v));;
  reset_clock c 1000;;
  v ← get_cpu c;
  set_cpu c (mkCpu (online v) (timer_root v) (daif v) (ttbr0 v) (vbar v) (esr v) (cntp_ctl v) (cntp_tval v) 2).
Definition set_clock_handler (f : clock_fn) : M cst unit :=
  modify (λ s, mkCst (tnodes s) (tms s) (cpus s) (one_ms s) (Some f) (reads s) (called s)).

(** ** [kernel/cpu.c] *)
Definition __timer_cmp (m : gmap Z timer) (lnode rnode : Z) : bool :=
  match m !! tcontainer lnode, m !! tcontainer rnode with
  | Some lt, Some rt =>
      let d := i64 (_key lt - _key rt) in
      if decide (d < 0) then true else if decide (d = 0) then bool_decide (lnode < rnode) else false
  | _, _ => false
  end.
Definition __timer_set_clock (fuel c : nat) : M cst unit :=
  node ← on_tree c (_rb_first fuel);
  if decide (node = 0) then reset_clock c 1000
  else
    tm ← get_timer (tcontainer node);
    let t1 := _key tm in
    t0 ← get_timestamp_ms;
    if decide (t1 ≤ t0) then reset_clock c 0 else reset_clock c (u64 (t1 - t0)).
Definition set_cpu_timer (fuel c : nat) (t : Z) : M cst unit :=
  tm ← get_timer t;
  set_timer t (mkTimer false (elapse tm) (_key tm) (handler tm) (data tm));;
  now ← get_timestamp_ms;
  set_timer t (mkTimer false (elapse tm) (u64 (now + elapse tm)) (handler tm) (data tm));;
  m ← gets tms;
  r ← on_tree c (_rb_insert (__timer_cmp m) fuel (tnode t));
  assert (bool_decide (r = 0));;
  __timer_set_clock fuel c.
Definition cancel_cpu_timer (fuel c : nat) (t : Z) : M cst unit :=
  tm ← get_timer t;
  assert (negb (triggered tm));;
  on_tree c (_rb_erase fuel (tnode t));;
  __timer_set_clock fuel c.

(** [timer->handler(timer)] *)
Definition invoke (c : nat) (t : Z) : M cst unit :=
  tm ← get_timer t;
  modify (λ s, mkCst (tnodes s) (tms s) (cpus s) (one_ms s) (clock_handler s) (reads s) (called s ++ [t]));;
  call (handler tm) c t.
Definition handler_turn (fuel c : nat) (_ : unit) : M cst (unit + unit) :=
  node ← on_tree c (_rb_first fuel);
  if decide (node = 0) then mret (inr tt)
  else
    let t := tcontainer node in
    now ← get_timestamp_ms;
    tm ← get_timer t;
    if decide (now < _key tm) then mret (inr tt)
    else
      cancel_cpu_timer fuel c t;;
      tm ← get_timer t;
      set_timer t (mkTimer true (elapse tm) (_key tm) (handler tm) (data tm));;
      invoke c t;;
      mret (inl tt).
Definition timer_clock_handler (fuel c : nat) : M cst unit :=
  reset_clock c 1000;; loop fuel (handler_turn fuel c) tt.
Definition invoke_clock_handler (fuel c : nat) : M cst unit :=
  h ← gets clock_handler;
  match h with None => panic | Some timer_clock_handler_ptr => timer_clock_handler fuel c end.
Definition init_clock_handler : M cst unit := set_clock_handler timer_clock_handler_ptr.

(** The handler of [hello_timer]; what it prints is not part of the state. *)
Definition hello (fuel c : nat) (t : Z) : M cst unit :=
  tm ← get_timer t;
  set_timer t (mkTimer (triggered tm) (elapse tm) (_key tm) (handler tm) (u64 (data tm + 1)));;
  set_cpu_timer fuel c (hello_timer c).
(** [_arch_disable_trap]: were traps enabled? *)
Definition _arch_disable_trap (c : nat) : M cst bool :=
  v ← get_cpu c;
  if decide (daif v ≠ 0) then mret false
  else
    set_cpu c (mkCpu (online v) (timer_root v) (Z.shiftl 0xf 6) (ttbr0 v) (vbar v) (esr v) (cntp_ctl v) (cntp_tval v) (core_clock_ctrl v));;
    mret true.
Definition set_cpu_on (fuel c : nat) : M cst unit :=
  t ← _arch_disable_trap c;
  assert (negb t);;
  v ← get_cpu c;
  set_cpu c (mkCpu (online v) (timer_root v) (daif v) invalid_pt exception_vector 0 (cntp_ctl v) (cntp_tval v) (core_clock_ctrl v));;
  init_clock c;;
  v ← get_cpu c;
  set_cpu c (mkCpu true (timer_root v) (daif v) (ttbr0 v) (vbar v) (esr v) (cntp_ctl v) (cntp_tval v) (core_clock_ctrl v));;
  tm ← get_timer (hello_timer c);
  set_timer (hello_timer c) (mkTimer (triggered tm) 5000 (_key tm) hello_ptr (data tm));;
  set_cpu_timer fuel c (hello_timer c).
Definition set_cpu_off (c : nat) : M cst unit :=
  _arch_disable_trap c;;
  v ← get_cpu c;
  set_cpu c (mkCpu false (timer_root v) (daif v) (ttbr0 v) (vbar v) (esr v) (cntp_ctl v) (cntp_tval v) (core_clock_ctrl v)).

(** ** [reset_sched_timer] of [kernel/sched.c] *)
Definition reset_sched_timer (fuel c : nat) (ms : Z) : M cst unit :=
  tm ← get_timer (sched_timer c);
  (if triggered tm then mret tt else cancel_cpu_timer fuel c (sched_timer c));;
  tm ← get_timer (sched_timer c);
  set_timer (sched_timer c) (mkTimer (triggered tm) ms (_key tm) (handler tm) (data tm));;
  set_cpu_timer fuel c (sched_timer c).
End timers.
