(* ===== verification/TimersSpec.v ===== *)
(** * The CPU timers keep their trees

    What [set_cpu_timer] and [cancel_cpu_timer] do to the list of pending timers of
    a CPU, in the order in which they expire, while the trees of the other CPUs stay
    as they are. *)
From stdpp Require Import sorting.
From S2P Require Import Prelude Words RbTree RbRep RbInsert RbErase RbProps Timers.

Implicit Types (h : gmap Z rb_node) (m : gmap Z timer) (s : cst) (L : list Z) (Ls : list (list Z)) (t u : Z) (tm um : timer) (c : nat) (v : cpu).

(** ** One tree among others *)
Lemma rbtree_ext h h' (r : Z) L : rbtree (mkRoot h r) L → (∀ a, a ∈ L → h' !! a = h !! a) → rbtree (mkRoot h' r) L.
Proof.
  intros [(t & Hat & <- & Hb)] H. split. exists t. split; [|by split]. eapply at_hole_change; [exact Hat|done| |done|apply Hat].
  eapply rep_ext; [|apply Hat]. done.
Qed.
Lemma framed {A} (op : M rb_root A) h (r : Z) (X : list Z) (a : A) (s1 : rb_root) : stays op → op (mkRoot (filter (λ p, p.1 ∈ X) h) r) = Done (a, s1) →
  ∃ h', op (mkRoot h r) = Done (a, mkRoot h' (root_node s1)) ∧ (∀ z, z ∈ X → h' !! z = rnodes s1 !! z) ∧ (∀ z, z ∉ X → h' !! z = h !! z) ∧ dom h' = dom h.
Proof.
  intros Hk E. destruct (Hk _ _ _ _ E) as [Hd Hl]. set (h2 := filter (λ p, p.1 ∉ X) h).
  assert (Hu : filter (λ p, p.1 ∈ X) h ∪ h2 = h) by apply map_filter_union_complement.
  assert (Hdis : filter (λ p, p.1 ∈ X) h ##ₘ h2) by apply map_disjoint_filter_complement.
  specialize (Hl h2 Hdis). rewrite Hu in Hl. exists (rnodes s1 ∪ h2). split; [done|]. split; [|split].
  - intros z Hz. apply lookup_union_l. unfold h2. apply map_lookup_filter_None. right. intros n _ H. by apply H.
  - intros z Hz. rewrite lookup_union_r.
    + unfold h2. destruct (h !! z) as [n|] eqn:En; [by apply map_lookup_filter_Some|]. apply map_lookup_filter_None. by left.
    + apply not_elem_of_dom. rewrite Hd. apply not_elem_of_dom, map_lookup_filter_None. right. by intros n _ H.
  - by rewrite dom_union_L, Hd, <-dom_union_L, Hu.
Qed.
Lemma restricted h (X : list Z) a : a ∈ X → (filter (λ p, p.1 ∈ X) h : gmap Z rb_node) !! a = h !! a.
Proof. intros Ha. destruct (h !! a) as [n|] eqn:E; [by apply map_lookup_filter_Some|]. apply map_lookup_filter_None. by left. Qed.

Lemma insert_framed cmp (fuel : nat) h (r : Z) L (n : Z) : strict cmp → rbtree (mkRoot h r) L → StronglySorted (λ a b, cmp a b = true) L →
  n ∉ L → node_addr n → is_Some (h !! n) → (∀ e, e ∈ L → cmp n e = true ∨ cmp e n = true) → (length L + 1 < fuel)%nat →
  ∃ L1 L2 h' r', L = L1 ++ L2 ∧ _rb_insert cmp fuel n (mkRoot h r) = Done (0, mkRoot h' r') ∧ rbtree (mkRoot h' r') (L1 ++ n :: L2) ∧
    StronglySorted (λ a b, cmp a b = true) (L1 ++ n :: L2) ∧ (∀ z, z ∉ n :: L → h' !! z = h !! z) ∧ dom h' = dom h.
Proof.
  intros Hs Hrb Ho Hn Gn Hsome Htot Hf. set (X := n :: L).
  assert (Hrb' : rbtree (mkRoot (filter (λ p, p.1 ∈ X) h) r) L) by (eapply rbtree_ext; [exact Hrb|]; intros a Ha; apply restricted; by right).
  destruct (insert_ok cmp fuel _ L n Hs Hrb' Ho Hn Gn) as [(e & s' & He & H1 & H2 & _)|(L1 & L2 & s' & -> & E & Hrb2 & Ho2)]; [cbn [rnodes]; rewrite restricted; [done|by left]|done|..].
  - destruct (Htot e He); congruence.
  - destruct (framed _ h r X _ _ (stays_insert cmp fuel n) E) as (h' & E' & HX & Hout & Hd). exists L1, L2, h', (root_node s').
    split; [done|]. split; [done|]. split; [|by split; [|split]]. destruct s' as [h1 r1]. eapply rbtree_ext; [exact Hrb2|]. intros a Ha. apply HX. unfold X. set_solver.
Qed.
Lemma erase_framed (fuel : nat) h (r : Z) (n : Z) L1 L2 : rbtree (mkRoot h r) (L1 ++ n :: L2) → (length (L1 ++ L2) < fuel)%nat →
  ∃ h' r', _rb_erase fuel n (mkRoot h r) = Done (tt, mkRoot h' r') ∧ rbtree (mkRoot h' r') (L1 ++ L2) ∧ (∀ z, z ∉ L1 ++ n :: L2 → h' !! z = h !! z) ∧ dom h' = dom h.
Proof.
  intros Hrb Hf. set (X := L1 ++ n :: L2) in *.
  assert (Hrb' : rbtree (mkRoot (filter (λ p, p.1 ∈ X) h) r) X) by (eapply rbtree_ext; [exact Hrb|]; intros a Ha; by apply restricted).
  destruct (rbtree_erase fuel _ n L1 L2 Hrb' Hf) as (s' & E & Hrb2).
  destruct (framed _ h r X _ _ (stays_erase fuel n) E) as (h' & E' & HX & Hout & Hd). exists h', (root_node s').
  split; [done|]. split; [|done]. destruct s' as [h1 r1]. eapply rbtree_ext; [exact Hrb2|]. intros a Ha. apply HX. unfold X. set_solver.
Qed.

(** ** The order of expiry *)
Definition keys_ok m : Prop := ∀ t tm, m !! t = Some tm → 0 ≤ _key tm < 2 ^ 63.
Lemma cmp_nodes m t u tm um : keys_ok m → m !! t = Some tm → m !! u = Some um →
  __timer_cmp m (tnode t) (tnode u) = bool_decide (_key tm < _key um ∨ (_key tm = _key um ∧ t < u)).
Proof.
  intros Hk Ht Hu. unfold __timer_cmp, tcontainer, tnode. rewrite !Z.add_simpl_r, Ht, Hu. pose proof (Hk t tm Ht). pose proof (Hk u um Hu).
  assert (E : i64 (_key tm - _key um) = _key tm - _key um) by (apply swrap_small; [lia|]; unfold in_s; simpl; lia). rewrite E.
  destruct (decide (_key tm - _key um < 0)); [symmetry; apply bool_decide_eq_true; lia|]. destruct (decide (_key tm - _key um = 0)).
  - apply bool_decide_ext. lia.
  - symmetry. apply bool_decide_eq_false. lia.
Qed.
Lemma cmp_some m (a b : Z) : __timer_cmp m a b = true → ∃ t u tm um, a = tnode t ∧ b = tnode u ∧ m !! t = Some tm ∧ m !! u = Some um.
Proof.
  unfold __timer_cmp. destruct (m !! tcontainer a) as [tm|] eqn:Ha, (m !! tcontainer b) as [um|] eqn:Hb; try done. intros _.
  exists (tcontainer a), (tcontainer b), tm, um. unfold tnode, tcontainer in *. split; [lia|]. split; [lia|done].
Qed.
Lemma cmp_strict m : keys_ok m → strict (__timer_cmp m).
Proof.
  intros Hk. split.
  - intros a. destruct (__timer_cmp m a a) eqn:E; [|done]. pose proof (cmp_some _ _ _ E) as (t & u & tm & um & -> & Eu & Ht & _).
    rewrite (cmp_nodes m t t tm tm Hk Ht Ht) in E. apply bool_decide_eq_true in E. lia.
  - intros a b z E1 E2. pose proof (cmp_some _ _ _ E1) as (t & u & tm & um & -> & -> & Ht & Hu). pose proof (cmp_some _ _ _ E2) as (u' & w & um' & wm & Eu & -> & Hu' & Hw).
    assert (u' = u) as -> by (unfold tnode in Eu; lia). simplify_eq.
    rewrite (cmp_nodes m t u tm um Hk Ht Hu) in E1. rewrite (cmp_nodes m u w um wm Hk Hu Hw) in E2. rewrite (cmp_nodes m t w tm wm Hk Ht Hw).
    apply bool_decide_eq_true in E1, E2. apply bool_decide_eq_true. lia.
Qed.
Lemma cmp_total m t u tm um : keys_ok m → m !! t = Some tm → m !! u = Some um → t ≠ u → __timer_cmp m (tnode t) (tnode u) = true ∨ __timer_cmp m (tnode u) (tnode t) = true.
Proof. intros Hk Ht Hu Hne. rewrite (cmp_nodes m t u tm um), (cmp_nodes m u t um tm), !bool_decide_eq_true by done. lia. Qed.

Definition by_expiry m L : Prop := StronglySorted (λ a b, __timer_cmp m a b = true) (tnode <$> L).
Definition pending Ls t : Prop := ∃ c L, Ls !! c = Some L ∧ t ∈ L.

(** The trees of the CPUs hold the timers [Ls], one list for each CPU: sorted by
    expiry, no timer twice, and none of them triggered. *)
Record timers_inv h m (cs : list cpu) Ls : Prop := {
  ti_len : length cs = length Ls;
  ti_tree : ∀ c L v, Ls !! c = Some L → cs !! c = Some v → rbtree (mkRoot h (timer_root v)) (tnode <$> L);
  ti_sorted : ∀ c L, Ls !! c = Some L → by_expiry m L;
  ti_disj : ∀ c d L L' t, Ls !! c = Some L → Ls !! d = Some L' → t ∈ L → t ∈ L' → c = d;
  ti_pend : ∀ t, pending Ls t → ∃ tm, m !! t = Some tm ∧ triggered tm = false;
  ti_nodes : ∀ t, is_Some (m !! t) → is_Some (h !! tnode t) ∧ node_addr (tnode t);
  ti_keys : keys_ok m
}.

Lemma tnode_inj t u : tnode t = tnode u → t = u.
Proof. unfold tnode. lia. Qed.
Lemma tcontainer_tnode t : tcontainer (tnode t) = t.
Proof. apply Z.add_simpl_r. Qed.
Lemma elem_tnode t L : tnode t ∈ tnode <$> L ↔ t ∈ L.
Proof. rewrite list_elem_of_fmap. split; [intros (u & E & Hu); by apply tnode_inj in E as ->|by exists t]. Qed.

Lemma cmp_ext m m' t u : _key <$> m' !! t = _key <$> m !! t → _key <$> m' !! u = _key <$> m !! u → __timer_cmp m' (tnode t) (tnode u) = __timer_cmp m (tnode t) (tnode u).
Proof.
  intros H1 H2. unfold __timer_cmp. rewrite !tcontainer_tnode.
  destruct (m' !! t), (m !! t); try done; destruct (m' !! u), (m !! u); try done; simpl in *. by simplify_eq; rewrite H1, H2.
Qed.
Lemma by_expiry_ext m m' L : (∀ t, t ∈ L → _key <$> m' !! t = _key <$> m !! t) → by_expiry m L → by_expiry m' L.
Proof.
  unfold by_expiry. intros H. induction L as [|t L IH]; [constructor|]. intros [Ht Ho]%StronglySorted_cons. constructor.
  - apply IH; [|done]. intros u Hu. apply H. by right.
  - rewrite Forall_forall in *. intros a Ha. pose proof (Ht a Ha) as Hc. apply list_elem_of_fmap in Ha as (u & -> & Hu).
    rewrite cmp_ext with (m := m); [done|apply H; by left|apply H; by right].
Qed.

(** *** What does not concern the trees *)
Lemma inv_cpu h m (cs : list cpu) Ls c v v' : timers_inv h m cs Ls → cs !! c = Some v → timer_root v' = timer_root v → timers_inv h m (<[c := v']> cs) Ls.
Proof.
  intros [H1 H2 H3 H4 H5 H6 H7] Hv Hr. split; [by rewrite length_insert| |done..]. intros d L w HL Hw.
  apply list_lookup_insert_Some in Hw as [(<- & <- & _)|[Hne Hw]]; [rewrite Hr|]; by eapply H2.
Qed.
Lemma inv_timer h m (cs : list cpu) Ls t tm tm' : timers_inv h m cs Ls → m !! t = Some tm → 0 ≤ _key tm' < 2 ^ 63 →
  (pending Ls t → _key tm' = _key tm ∧ triggered tm' = false) → timers_inv h (<[t := tm']> m) cs Ls.
Proof.
  intros [H1 H2 H3 H4 H5 H6 H7] Ht Hk Hp. split; [done|done| |done|..].
  - intros c L HL. eapply by_expiry_ext; [|by eapply H3]. intros u Hu. destruct (decide (u = t)) as [->|Hne]; [|by rewrite lookup_insert_ne].
    rewrite lookup_insert_eq, Ht. simpl. f_equal. apply Hp. by exists c, L.
  - intros u Hu. destruct (decide (u = t)) as [->|Hne]; [|rewrite lookup_insert_ne by done; by apply H5]. rewrite lookup_insert_eq. exists tm'. split; [done|by apply Hp].
  - intros u Hu. apply H6. destruct (decide (u = t)) as [->|Hne]; [by eexists|by rewrite lookup_insert_ne in Hu].
  - intros u um [[<- <-]|[_ Hu]]%lookup_insert_Some; [done|by eapply H7].
Qed.

(** *** A tree gains or loses a timer *)
Lemma inv_tree h h' m (cs : list cpu) Ls c L L' v (r : Z) (X : list Z) : timers_inv h m cs Ls → Ls !! c = Some L → cs !! c = Some v →
  rbtree (mkRoot h' r) (tnode <$> L') → by_expiry m L' → (∀ t, t ∈ L' → (t ∈ L ∨ ¬ pending Ls t) ∧ ∃ tm, m !! t = Some tm ∧ triggered tm = false) →
  (∀ z, z ∉ X → h' !! z = h !! z) → (∀ t, tnode t ∈ X → t ∈ L ∨ ¬ pending Ls t) → dom h' = dom h →
  timers_inv h' m (<[c := with_root r v]> cs) (<[c := L']> Ls).
Proof.
  intros [H1 H2 H3 H4 H5 H6 H7] HL Hv Hrb Ho Hnew Hout HX Hd. assert (Hc : (c < length Ls)%nat) by by eapply lookup_lt_Some. split.
  - by rewrite !length_insert.
  - intros d Ld w HLd Hw. apply list_lookup_insert_Some in HLd as [(<- & <- & _)|[Hne HLd]].
    + rewrite list_lookup_insert_eq in Hw by by eapply lookup_lt_Some. by simplify_eq.
    + rewrite list_lookup_insert_ne in Hw by done. eapply rbtree_ext; [by eapply H2|]. intros a (t & -> & Ht)%list_elem_of_fmap. apply Hout. intros Hin.
      destruct (HX t Hin) as [Hin'|Hp]; [by destruct (Hne (H4 c d L Ld t HL HLd Hin' Ht))|apply Hp; by exists d, Ld].
  - intros d Ld [(<- & <- & _)|[Hne HLd]]%list_lookup_insert_Some; [done|by eapply H3].
  - intros d e Ld Le t HLd HLe Hd1 He1.
    apply list_lookup_insert_Some in HLd as [(<- & <- & _)|[Hnd HLd]]; apply list_lookup_insert_Some in HLe as [(<- & <- & _)|[Hne HLe]]; [done|..].
    + destruct (Hnew t Hd1) as [[Hin|Hp] _]; [by eapply H4|]. exfalso. apply Hp. by exists e, Le.
    + destruct (Hnew t He1) as [[Hin|Hp] _]; [by eapply H4|]. exfalso. apply Hp. by exists d, Ld.
    + by eapply H4.
  - intros t (d & Ld & HLd & Ht). apply list_lookup_insert_Some in HLd as [(<- & <- & _)|[Hne HLd]]; [by apply Hnew|]. apply H5. by exists d, Ld.
  - intros t Ht. destruct (H6 t Ht) as [Hs Ga]. split; [|done]. apply elem_of_dom. rewrite Hd. by apply elem_of_dom.
  - done.
Qed.

Lemma tree_insert (fuel : nat) s Ls c L v t tm : timers_inv (tnodes s) (tms s) (cpus s) Ls → Ls !! c = Some L → cpus s !! c = Some v →
  ¬ pending Ls t → tms s !! t = Some tm → triggered tm = false → (length L + 1 < fuel)%nat →
  ∃ L1 L2 h' r, L = L1 ++ L2 ∧
    on_tree c (_rb_insert (__timer_cmp (tms s)) fuel (tnode t)) s = Done (0, mkCst h' (tms s) (<[c := with_root r v]> (cpus s)) (one_ms s) (clock_handler s) (reads s) (called s)) ∧
    timers_inv h' (tms s) (<[c := with_root r v]> (cpus s)) (<[c := L1 ++ t :: L2]> Ls).
Proof.
  intros Hi HL Hv Hp Ht Htr Hf. pose proof Hi as [H1 H2 H3 H4 H5 H6 H7]. destruct (H6 t ltac:(by eexists)) as [Hs Ga].
  assert (Hn : tnode t ∉ tnode <$> L) by (rewrite elem_tnode; intros Hin; apply Hp; by exists c, L).
  destruct (insert_framed (__timer_cmp (tms s)) fuel (tnodes s) (timer_root v) (tnode <$> L) (tnode t)) as (M1 & M2 & h' & r & EL & E & Hrb & Ho & Hout & Hd);
    [by apply cmp_strict|by eapply H2|by eapply H3|done|done|done| |by rewrite length_fmap|].
  { intros e (u & -> & Hu)%list_elem_of_fmap. destruct (H5 u) as (um & Hum & _); [by exists c, L|]. eapply cmp_total; [done|done|done|]. intros ->. by apply Hn, elem_tnode. }
  apply fmap_app_inv in EL as (L1 & L2 & -> & -> & ->). exists L1, L2, h', r. split; [done|]. split; [unfold on_tree; by rewrite Hv, E|].
  assert (Ef : tnode <$> L1 ++ t :: L2 = (tnode <$> L1) ++ tnode t :: (tnode <$> L2)) by by rewrite fmap_app.
  eapply (inv_tree _ _ _ _ _ _ (L1 ++ L2) _ _ _ (tnode t :: (tnode <$> L1 ++ L2))); [done|done|done|by rewrite Ef|unfold by_expiry; by rewrite Ef|..|done].
  - intros u Hu. destruct (decide (u = t)) as [->|Hne]; [split; [by right|by exists tm]|]. assert (Hu' : u ∈ L1 ++ L2) by set_solver. split; [by left|]. apply H5. by exists c, (L1 ++ L2).
  - exact Hout.
  - intros u [E'|Hu]%elem_of_cons; [apply tnode_inj in E' as ->; by right|left; by apply elem_tnode].
Qed.

Lemma tree_erase (fuel : nat) s Ls c L1 t L2 v : timers_inv (tnodes s) (tms s) (cpus s) Ls → Ls !! c = Some (L1 ++ t :: L2) → cpus s !! c = Some v →
  (length (L1 ++ L2) < fuel)%nat →
  ∃ h' r, on_tree c (_rb_erase fuel (tnode t)) s = Done (tt, mkCst h' (tms s) (<[c := with_root r v]> (cpus s)) (one_ms s) (clock_handler s) (reads s) (called s)) ∧
    timers_inv h' (tms s) (<[c := with_root r v]> (cpus s)) (<[c := L1 ++ L2]> Ls).
Proof.
  intros Hi HL Hv Hf. pose proof Hi as [H1 H2 H3 H4 H5 H6 H7].
  assert (Ef : tnode <$> L1 ++ t :: L2 = (tnode <$> L1) ++ tnode t :: (tnode <$> L2)) by by rewrite fmap_app.
  pose proof (H2 _ _ _ HL Hv) as Hrb. rewrite Ef in Hrb.
  destruct (erase_framed fuel (tnodes s) (timer_root v) (tnode t) (tnode <$> L1) (tnode <$> L2) Hrb) as (h' & r & E & Hrb' & Hout & Hd);
    [by rewrite <-fmap_app, length_fmap|]. exists h', r. split; [unfold on_tree; by rewrite Hv, E|].
  eapply (inv_tree _ _ _ _ _ _ (L1 ++ t :: L2) _ _ _ (tnode <$> L1 ++ t :: L2)); [done|done|done|by rewrite fmap_app|..|done].
  - pose proof (H3 _ _ HL) as Ho. unfold by_expiry in *. rewrite Ef in Ho. rewrite fmap_app. by apply sorted_middle in Ho as [Ho _].
  - intros u Hu. assert (Hu' : u ∈ L1 ++ t :: L2) by set_solver. split; [by left|]. apply H5. by exists c, (L1 ++ t :: L2).
  - intros z Hz. apply Hout. by rewrite <-Ef.
  - intros u Hu. left. by apply elem_tnode.
Qed.

Lemma tree_first (fuel : nat) s Ls c L v : timers_inv (tnodes s) (tms s) (cpus s) Ls → Ls !! c = Some L → cpus s !! c = Some v → (length L < fuel)%nat →
  on_tree c (_rb_first fuel) s = Done (default 0 (tnode <$> head L), s).
Proof.
  intros Hi HL Hv Hf. unfold on_tree. rewrite Hv. rewrite (rbtree_first fuel _ (tnode <$> L)); [|by eapply ti_tree|by rewrite length_fmap].
  cbn [rnodes root_node]. rewrite list_insert_id by (by destruct v). destruct L; by destruct s.
Qed.

(** ** Setting and cancelling *)
Section operations.
Context (ticks : nat → Z).

(** The time in milliseconds at the next reading of the counter. *)
Definition time s : Z := ticks (reads s) / one_ms s.
Definition key_of m t : Z := default 0 (_key <$> m !! t).
(** The countdown for the first of the timers [L], read at [now]. *)
Definition countdown m L (now : Z) : Z :=
  match L with [] => 1000 | t :: _ => if decide (key_of m t ≤ now) then 0 else u64 (key_of m t - now) end.
(** The ticks of a countdown: the counter has 31 bits. *)
Definition ticks_of s (ms : Z) : Z := u64 (ms * one_ms s).
Definition fits_clock s (ms : Z) : Prop := ticks_of s ms ≤ 0x7fffffff.
#[export] Instance fits_clock_dec s (ms : Z) : Decision (fits_clock s ms).
Proof. unfold fits_clock. apply _. Defined.

Lemma reset_clock_eq s c v (ms : Z) : cpus s !! c = Some v →
  reset_clock c ms s = if decide (fits_clock s ms) then
    Done (tt, mkCst (tnodes s) (tms s) (<[c := with_tval (ticks_of s ms) v]> (cpus s)) (one_ms s) (clock_handler s) (reads s) (called s)) else Panic.
Proof.
  intros Hv. unfold reset_clock. rewrite (bind_done _ _ s (one_ms s) s) by done. unfold assert. case_decide as E.
  - rewrite bool_decide_true by done. rewrite (bind_done _ _ s tt s) by done. rewrite (bind_done _ _ s v s) by (unfold get_cpu; by rewrite Hv). done.
  - by rewrite bool_decide_false.
Qed.

Lemma set_clock_eq (fuel : nat) s Ls c L v : timers_inv (tnodes s) (tms s) (cpus s) Ls → Ls !! c = Some L → cpus s !! c = Some v → (length L < fuel)%nat →
  __timer_set_clock ticks fuel c s = if decide (fits_clock s (countdown (tms s) L (time s))) then
    Done (tt, mkCst (tnodes s) (tms s) (<[c := with_tval (ticks_of s (countdown (tms s) L (time s))) v]> (cpus s)) (one_ms s) (clock_handler s)
                (if L is [] then reads s else S (reads s)) (called s)) else Panic.
Proof.
  intros Hi HL Hv Hf. unfold __timer_set_clock. m_step (tree_first fuel s Ls c L v Hi HL Hv Hf). destruct L as [|t L].
  - rewrite decide_True by done. by apply reset_clock_eq.
  - change (default 0 (tnode <$> head (t :: L))) with (tnode t).
    destruct (ti_pend _ _ _ _ Hi t) as (tm & Ht & _); [exists c, (t :: L); split; [done|by left]|].
    destruct (ti_nodes _ _ _ _ Hi t ltac:(by eexists)) as [_ Ga]. rewrite decide_False by (by apply node_addr_pos). rewrite tcontainer_tnode.
    rewrite (bind_done _ _ s tm s) by (unfold get_timer; by rewrite Ht).
    rewrite (bind_done _ _ s (time s) (mkCst (tnodes s) (tms s) (cpus s) (one_ms s) (clock_handler s) (S (reads s)) (called s))) by done.
    assert (Ek : key_of (tms s) t = _key tm) by (unfold key_of; by rewrite Ht). cbn [countdown]. rewrite Ek.
    destruct (decide (_key tm ≤ time s)); exact (reset_clock_eq (mkCst (tnodes s) (tms s) (cpus s) (one_ms s) (clock_handler s) (S (reads s)) (called s)) c v _ Hv).
Qed.

(** What a timer is when it has been set at [now]. *)
Definition armed tm (now : Z) : timer := mkTimer false (elapse tm) (u64 (now + elapse tm)) (handler tm) (data tm).

Lemma set_timer_eq s t tm tm' : tms s !! t = Some tm →
  set_timer t tm' s = Done (tt, mkCst (tnodes s) (<[t := tm']> (tms s)) (cpus s) (one_ms s) (clock_handler s) (reads s) (called s)).
Proof. intros Ht. unfold set_timer. by rewrite Ht. Qed.

Lemma set_cpu_timer_ok (fuel : nat) s Ls c L v t tm : timers_inv (tnodes s) (tms s) (cpus s) Ls → Ls !! c = Some L → cpus s !! c = Some v →
  ¬ pending Ls t → tms s !! t = Some tm → 0 ≤ u64 (time s + elapse tm) < 2 ^ 63 → (length L + 1 < fuel)%nat →
  let m := <[t := armed tm (time s)]> (tms s) in
  ∃ L1 L2 h r, L = L1 ++ L2 ∧ timers_inv h m (<[c := with_root r v]> (cpus s)) (<[c := L1 ++ t :: L2]> Ls) ∧
    let w := countdown m (L1 ++ t :: L2) (ticks (S (reads s)) / one_ms s) in
    set_cpu_timer ticks fuel c t s = if decide (fits_clock s w) then
      Done (tt, mkCst h m (<[c := with_tval (ticks_of s w) (with_root r v)]> (cpus s)) (one_ms s) (clock_handler s) (S (S (reads s))) (called s)) else Panic.
Proof.
  intros Hi HL Hv Hp Ht Hk Hf m. set (s1 := mkCst (tnodes s) m (cpus s) (one_ms s) (clock_handler s) (S (reads s)) (called s)).
  assert (Hi1 : timers_inv (tnodes s1) (tms s1) (cpus s1) Ls) by (eapply inv_timer; [done..|by intros ?]).
  destruct (tree_insert fuel s1 Ls c L v t (armed tm (time s)) Hi1 HL Hv Hp) as (L1 & L2 & h' & r & -> & E & Hi2); [apply lookup_insert_eq|done|done|].
  cbn [tms cpus one_ms clock_handler reads called s1] in E, Hi2.
  exists L1, L2, h', r. split; [done|]. split; [exact Hi2|]. intros w.
  assert (HL2 : <[c := L1 ++ t :: L2]> Ls !! c = Some (L1 ++ t :: L2)) by (apply list_lookup_insert_eq; by eapply lookup_lt_Some).
  assert (Hv2 : <[c := with_root r v]> (cpus s) !! c = Some (with_root r v)) by (apply list_lookup_insert_eq; by eapply lookup_lt_Some).
  pose proof (set_clock_eq fuel (mkCst h' m (<[c := with_root r v]> (cpus s)) (one_ms s) (clock_handler s) (S (reads s)) (called s)) _ c _ _ Hi2 HL2 Hv2
    ltac:(rewrite length_app in *; simpl in *; lia)) as Eset. cbn [tnodes tms cpus one_ms clock_handler reads called] in Eset. rewrite list_insert_insert_eq in Eset.
  replace (match L1 ++ t :: L2 with [] => S (reads s) | _ => S (S (reads s)) end) with (S (S (reads s))) in Eset by by destruct L1.
  unfold set_cpu_timer. rewrite (bind_done _ _ s tm s) by (unfold get_timer; by rewrite Ht). m_step (set_timer_eq s t tm (mkTimer false (elapse tm) (_key tm) (handler tm) (data tm)) Ht).
  erewrite bind_done; [|reflexivity]. cbn [one_ms reads cpus tms tnodes called clock_handler]. erewrite bind_done; [|eapply set_timer_eq; apply lookup_insert_eq].
  cbn [one_ms reads cpus tms tnodes called clock_handler]. rewrite insert_insert_eq. rewrite (bind_done _ _ _ m s1) by done. m_step E. exact Eset.
Qed.

Lemma cancel_cpu_timer_ok (fuel : nat) s Ls c L1 t L2 v : timers_inv (tnodes s) (tms s) (cpus s) Ls → Ls !! c = Some (L1 ++ t :: L2) → cpus s !! c = Some v →
  (length (L1 ++ L2) < fuel)%nat →
  ∃ h r, timers_inv h (tms s) (<[c := with_root r v]> (cpus s)) (<[c := L1 ++ L2]> Ls) ∧
    let w := countdown (tms s) (L1 ++ L2) (time s) in
    cancel_cpu_timer ticks fuel c t s = if decide (fits_clock s w) then
      Done (tt, mkCst h (tms s) (<[c := with_tval (ticks_of s w) (with_root r v)]> (cpus s)) (one_ms s) (clock_handler s)
                 (if L1 ++ L2 is [] then reads s else S (reads s)) (called s)) else Panic.
Proof.
  intros Hi HL Hv Hf. destruct (ti_pend _ _ _ _ Hi t) as (tm & Ht & Htr); [exists c, (L1 ++ t :: L2); split; [done|set_solver]|].
  destruct (tree_erase fuel s Ls c L1 t L2 v Hi HL Hv Hf) as (h' & r & E & Hi2). exists h', r. split; [exact Hi2|]. intros w.
  assert (HL2 : <[c := L1 ++ L2]> Ls !! c = Some (L1 ++ L2)) by (apply list_lookup_insert_eq; by eapply lookup_lt_Some).
  assert (Hv2 : <[c := with_root r v]> (cpus s) !! c = Some (with_root r v)) by (apply list_lookup_insert_eq; by eapply lookup_lt_Some).
  pose proof (set_clock_eq fuel (mkCst h' (tms s) (<[c := with_root r v]> (cpus s)) (one_ms s) (clock_handler s) (reads s) (called s)) _ c _ _ Hi2 HL2 Hv2 Hf) as Eset.
  cbn [tnodes tms cpus one_ms clock_handler reads called] in Eset. rewrite list_insert_insert_eq in Eset.
  unfold cancel_cpu_timer. rewrite (bind_done _ _ s tm s) by (unfold get_timer; by rewrite Ht). rewrite Htr. rewrite (bind_done _ _ s tt s) by done. m_step E. exact Eset.
Qed.
End operations.
