(* ===== verification/TimersProps.v ===== *)
(** * What the CPU timers promise

    Setting a timer and the clock; the interrupt that runs the timers that are due;
    and the interface through which the scheduler uses its timer. *)
From stdpp Require Import sorting.
From S2P Require Import Prelude Words RbTree RbRep RbInsert RbErase RbProps Timers TimersSpec.

Implicit Types (m : gmap Z timer) (s : cst) (L : list Z) (Ls : list (list Z)) (t u : Z) (tm um : timer) (c : nat) (v : cpu).

Section props.
Context (ticks : nat → Z) (B : Z).
Abbreviation time := (time ticks).

(** The counter does not run backwards. *)
Definition monotone : Prop := ∀ i, 0 ≤ ticks i ≤ ticks (S i).
(** The clock can be programmed [B] milliseconds ahead, and no timer expires later
    than that. *)
Record all_running s Ls : Prop := {
  ar_inv : timers_inv (tnodes s) (tms s) (cpus s) Ls;
  ar_unit : 0 < one_ms s;
  ar_span : 1000 ≤ B ∧ B * one_ms s ≤ 0x7fffffff;
  ar_near : ∀ t, pending Ls t → key_of (tms s) t ≤ time s + B
}.
Definition running s Ls c L : Prop := all_running s Ls ∧ Ls !! c = Some L.

Lemma ticks_mono : monotone → ∀ i j : nat, (i ≤ j)%nat → 0 ≤ ticks i ≤ ticks j.
Proof. intros H i j Hij. pose proof (H i) as Hi. induction Hij as [|j Hij IH]; [lia|]. pose proof (H j). lia. Qed.
Lemma time_mono s (j : nat) : monotone → 0 < one_ms s → (reads s ≤ j)%nat → time s ≤ ticks j / one_ms s.
Proof. intros H Hu Hj. apply Z.div_le_mono; [done|]. by apply ticks_mono. Qed.

Lemma running_cpu s Ls c L : running s Ls c L → ∃ v, cpus s !! c = Some v.
Proof. intros [[[Hl _ _ _ _ _ _] _ _ _] HL]. apply lookup_lt_Some in HL. rewrite <-Hl in HL. by apply lookup_lt_is_Some_2 in HL. Qed.
Lemma small_fits s (ms : Z) : 0 < one_ms s → 1000 ≤ B ∧ B * one_ms s ≤ 0x7fffffff → 0 ≤ ms ≤ B → fits_clock s ms.
Proof. intros Hu [HB Hs] Hm. unfold fits_clock, ticks_of. rewrite u64_small by (unfold in_u; nia). nia. Qed.
Lemma countdown_small m L (now : Z) : 1000 ≤ B → (∀ t, t ∈ L → key_of m t ≤ now + B) → B < 2 ^ 64 → 0 ≤ countdown m L now ≤ B.
Proof.
  intros HB Hk H64. destruct L as [|t L]; cbn [countdown]; [lia|]. case_decide; [lia|]. pose proof (Hk t ltac:(left)). rewrite u64_small by (unfold in_u; lia). lia.
Qed.
Lemma expiry_head m t L u : keys_ok m → (∀ x, x ∈ t :: L → is_Some (m !! x)) → by_expiry m (t :: L) → u ∈ t :: L → key_of m t ≤ key_of m u.
Proof.
  intros Hk Hs Ho [->|Hu]%elem_of_cons; [done|]. apply StronglySorted_cons in Ho as [Ht _]. rewrite Forall_forall in Ht. specialize (Ht (tnode u) (proj2 (elem_tnode u L) Hu)).
  destruct (Hs t ltac:(left)) as [tm Etm], (Hs u ltac:(by right)) as [um Eum]. rewrite (cmp_nodes m t u tm um Hk Etm Eum) in Ht. apply bool_decide_eq_true in Ht.
  unfold key_of. rewrite Etm, Eum. simpl. lia.
Qed.
Lemma pending_some s Ls c L t : running s Ls c L → t ∈ L → ∃ tm, tms s !! t = Some tm ∧ triggered tm = false.
Proof. intros [[Hi _ _ _] HL] Ht. apply (ti_pend _ _ _ _ Hi). by exists c, L. Qed.
Lemma pending_nodup s Ls c L : running s Ls c L → NoDup L.
Proof.
  intros Hr. destruct (running_cpu _ _ _ _ Hr) as [v Hv]. destruct Hr as [[Hi _ _ _] HL]. pose proof (ti_tree _ _ _ _ Hi c L v HL Hv) as Hrb.
  apply rbtree_elements in Hrb as (Hn & _). by apply NoDup_fmap_1 in Hn.
Qed.
Lemma pending_size s Ls c L : running s Ls c L → (length L ≤ size (tms s))%nat.
Proof.
  intros Hr. rewrite <-(size_list_to_set (C := gset Z) L) by (by eapply pending_nodup). rewrite <-size_dom. apply subseteq_size. intros t Ht%elem_of_list_to_set.
  destruct (pending_some _ _ _ _ _ Hr Ht) as (tm & E & _). by apply elem_of_dom.
Qed.

Lemma key_set m t tm tm' u : m !! t = Some tm → _key tm' = _key tm → key_of (<[t := tm']> m) u = key_of m u.
Proof. intros Ht E1. unfold key_of. destruct (decide (u = t)) as [->|Hne]; [|by rewrite lookup_insert_ne]. rewrite lookup_insert_eq, Ht. simpl. by rewrite E1. Qed.

(** ** All CPUs *)
Lemma pending_insert Ls c L t : Ls !! c = Some L → ∀ L', pending (<[c := L']> Ls) t → t ∈ L' ∨ pending Ls t.
Proof. intros HL L' (d & M & HM & Ht). apply list_lookup_insert_Some in HM as [(<- & <- & _)|[_ HM]]; [by left|right; by exists d, M]. Qed.

(** Setting a timer that is not pending, to expire within [B]. *)
Lemma all_set (fuel : nat) s Ls c L t tm : monotone → all_running s Ls → Ls !! c = Some L → ¬ pending Ls t → tms s !! t = Some tm →
  0 ≤ elapse tm ≤ B → time s + elapse tm < 2 ^ 63 → (size (tms s) + 1 < fuel)%nat →
  ∃ L1 L2 s', L = L1 ++ L2 ∧ set_cpu_timer ticks fuel c t s = Done (tt, s') ∧ all_running s' (<[c := L1 ++ t :: L2]> Ls) ∧
    tms s' = <[t := armed tm (time s)]> (tms s) ∧ one_ms s' = one_ms s ∧ called s' = called s ∧ reads s' = S (S (reads s)).
Proof.
  intros Hm Ha HL Hp Ht He Hk Hf. pose proof (conj Ha HL : running s Ls c _) as Hr. destruct (running_cpu _ _ _ _ Hr) as [v Hv].
  pose proof (pending_size _ _ _ _ Hr) as Hsz. pose proof Ha as [Hi Hu Hs Hn]. assert (H0 : 0 ≤ time s) by (apply Z.div_pos; [apply Hm|done]).
  assert (Eu : u64 (time s + elapse tm) = time s + elapse tm) by (apply u64_small; unfold in_u; lia).
  destruct (set_cpu_timer_ok ticks fuel s Ls c L v t tm Hi HL Hv Hp Ht) as (L1 & L2 & h & r & -> & Hi' & Es); [rewrite Eu; lia|lia|]. cbv zeta in Es.
  set (m := <[t := armed tm (time s)]> (tms s)) in *. set (now := ticks (S (reads s)) / one_ms s) in *.
  assert (Hnow : time s ≤ now) by (apply time_mono; [done|done|lia]).
  assert (Hkey : ∀ u, u ∈ L1 ++ t :: L2 → key_of m u ≤ time s + B).
  { intros u Hin. destruct (decide (u = t)) as [->|Hne].
    - unfold key_of, m. rewrite lookup_insert_eq. simpl. rewrite Eu. lia.
    - unfold key_of, m. rewrite lookup_insert_ne by done. apply Hn. exists c, (L1 ++ L2). split; [done|]. set_solver. }
  rewrite decide_True in Es.
  2:{ apply small_fits; [done|done|]. apply countdown_small; [apply Hs| |nia]. intros u Hin. pose proof (Hkey u Hin). lia. }
  exists L1, L2. eexists. split; [done|]. split; [exact Es|]. split; [|done]. set (w := countdown m (L1 ++ t :: L2) now). split; cbn [tnodes tms cpus one_ms reads].
  - rewrite <-(list_insert_insert_eq (cpus s) c (with_tval (ticks_of s w) (with_root r v)) (with_root r v)).
    eapply inv_cpu; [exact Hi'|apply list_lookup_insert_eq; by eapply lookup_lt_Some|done].
  - done.
  - done.
  - intros u Hpu. assert (Hb : key_of m u ≤ time s + B).
    { destruct (pending_insert _ _ _ _ HL _ Hpu) as [Hin|Hin]; [by apply Hkey|]. destruct (decide (u = t)) as [->|Hne]; [done|].
      unfold key_of, m. rewrite lookup_insert_ne by done. by apply Hn. }
    pose proof (time_mono s (S (S (reads s))) Hm Hu ltac:(lia)). unfold TimersSpec.time at 1. cbn [reads one_ms]. lia.
Qed.

Lemma all_cancel (fuel : nat) s Ls c L1 t L2 : monotone → all_running s Ls → Ls !! c = Some (L1 ++ t :: L2) → (size (tms s) + 1 < fuel)%nat →
  ∃ s', cancel_cpu_timer ticks fuel c t s = Done (tt, s') ∧ all_running s' (<[c := L1 ++ L2]> Ls) ∧ tms s' = tms s ∧ one_ms s' = one_ms s ∧ called s' = called s ∧
    (reads s ≤ reads s')%nat.
Proof.
  intros Hm Ha HL Hf. pose proof (conj Ha HL : running s Ls c _) as Hr. destruct (running_cpu _ _ _ _ Hr) as [v Hv].
  pose proof (pending_size _ _ _ _ Hr) as Hsz. rewrite length_app in Hsz. simpl in Hsz. pose proof Ha as [Hi Hu Hs Hn].
  destruct (cancel_cpu_timer_ok ticks fuel s Ls c L1 t L2 v Hi HL Hv) as (h & r & Hi' & Es); [rewrite length_app; lia|]. cbv zeta in Es.
  rewrite decide_True in Es.
  2:{ apply small_fits; [done|done|]. apply countdown_small; [apply Hs| |nia]. intros u Hin. apply Hn. exists c, (L1 ++ t :: L2). split; [done|]. set_solver. }
  set (w := countdown (tms s) (L1 ++ L2) (time s)) in *. eexists. split; [exact Es|].
  assert (Hrd : (reads s ≤ match L1 ++ L2 with [] => reads s | _ :: _ => S (reads s) end)%nat) by (destruct (L1 ++ L2); lia).
  split; [|done]. split; cbn [tnodes tms cpus one_ms reads].
  - rewrite <-(list_insert_insert_eq (cpus s) c (with_tval (ticks_of s w) (with_root r v)) (with_root r v)).
    eapply inv_cpu; [exact Hi'|apply list_lookup_insert_eq; by eapply lookup_lt_Some|done].
  - done.
  - done.
  - intros u Hpu. assert (Hpu' : pending Ls u) by (destruct (pending_insert _ _ _ _ HL _ Hpu); [exists c, (L1 ++ t :: L2); split; [done|set_solver]|done]).
    pose proof (Hn u Hpu'). pose proof (time_mono s _ Hm Hu Hrd). unfold TimersSpec.time at 1. cbn [reads one_ms]. lia.
Qed.

(** ** The clock interrupt *)
Context (call : Z → nat → Z → M cst unit).

(** The timers of [L] that expire by [T]. *)
Definition due (T : Z) m L : list Z := filter (λ t, key_of m t ≤ T) L.
(** What a timer is set up with. *)
Definition setup m t : option (Z * Z) := (λ tm, (elapse tm, handler tm)) <$> m !! t.
Definition fired tm : timer := mkTimer true (elapse tm) (_key tm) (handler tm) (data tm).

(** The handler of [t] may set timers, but only to expire after [T]; [s0] is the
    state when the interrupt came. *)
Definition handler_quiet s0 (T : Z) c t : Prop := ∀ s Ls L tm,
  running s Ls c L → (reads s0 ≤ reads s)%nat → one_ms s = one_ms s0 → size (tms s) = size (tms s0) →
  tms s !! t = Some tm → setup (tms s) t = setup (tms s0) t → triggered tm = true → ¬ pending Ls t →
  ∃ s' L', call (handler tm) c t s = Done (tt, s') ∧ running s' (<[c := L']> Ls) c L' ∧ called s' = called s ∧ (reads s ≤ reads s')%nat ∧
    one_ms s' = one_ms s ∧ size (tms s') = size (tms s) ∧ (∀ u, setup (tms s') u = setup (tms s) u) ∧
    (∀ u, u ∈ L → key_of (tms s') u = key_of (tms s) u) ∧ due T (tms s') L' = due T (tms s) L.

Lemma due_ext (T : Z) m m' L : (∀ u, u ∈ L → key_of m' u = key_of m u) → due T m' L = due T m L.
Proof.
  unfold due. induction L as [|t L IH]; intros H; [done|]. rewrite !filter_cons. rewrite (H t) by left. rewrite IH; [done|]. intros u Hu. apply H. by right.
Qed.
Lemma setup_set m t tm tm' u : m !! t = Some tm → elapse tm' = elapse tm → handler tm' = handler tm → setup (<[t := tm']> m) u = setup m u.
Proof. intros Ht E1 E2. unfold setup. destruct (decide (u = t)) as [->|Hne]; [|by rewrite lookup_insert_ne]. rewrite lookup_insert_eq, Ht. simpl. by rewrite E1, E2. Qed.

Lemma not_pending Ls c t L : NoDup (t :: L) → Ls !! c = Some (t :: L) →
  (∀ (d e : nat) M N u, Ls !! d = Some M → Ls !! e = Some N → u ∈ M → u ∈ N → d = e) → ¬ pending (<[c := L]> Ls) t.
Proof.
  intros [Hn _]%NoDup_cons HL Hdis (d & M & HM & Ht). apply list_lookup_insert_Some in HM as [(<- & <- & _)|[Hne HM]]; [done|].
  apply Hne. eapply Hdis; [exact HL|exact HM|left|exact Ht].
Qed.

(** A turn for a timer that is due, up to the call of its handler. *)
Lemma fire_ok (fuel : nat) s Ls c t L tm : monotone → running s Ls c (t :: L) → tms s !! t = Some tm → _key tm ≤ time s → (size (tms s) + 1 < fuel)%nat →
  ∃ s3, handler_turn ticks call fuel c tt s = (call (handler tm) c t;; mret (inl tt)) s3 ∧ running s3 (<[c := L]> Ls) c L ∧ ¬ pending (<[c := L]> Ls) t ∧
    tms s3 = <[t := fired tm]> (tms s) ∧ one_ms s3 = one_ms s ∧ (reads s < reads s3)%nat ∧ called s3 = called s ++ [t].
Proof.
  intros Hm Hr Ht Hk Hf. destruct (running_cpu _ _ _ _ Hr) as [v Hv]. pose proof (pending_size _ _ _ _ Hr) as Hsz. pose proof Hr as [[Hi Hu Hs Hn] HL]. simpl in Hsz.
  destruct (ti_nodes _ _ _ _ Hi t ltac:(by eexists)) as [_ Ga].
  set (s1 := mkCst (tnodes s) (tms s) (cpus s) (one_ms s) (clock_handler s) (S (reads s)) (called s)).
  destruct (cancel_cpu_timer_ok ticks fuel s1 Ls c [] t L v Hi HL Hv) as (h & r & Hi2 & Ec); [simpl; lia|]. cbn [app tms cpus reads one_ms clock_handler called s1] in *.
  set (w := countdown (tms s) L (TimersSpec.time ticks s1)) in *.
  assert (Hw : fits_clock s1 w).
  { apply small_fits; [done|done|]. apply countdown_small; [apply Hs| |nia]. intros u Hin. pose proof (Hn u ltac:(exists c, (t :: L); split; [done|by right])). pose proof (time_mono s (S (reads s)) Hm Hu ltac:(lia)).
    change (TimersSpec.time ticks s1) with (ticks (S (reads s)) / one_ms s). lia. }
  rewrite decide_True in Ec by done. set (v2 := with_tval (ticks_of s1 w) (with_root r v)) in *.
  set (s3 := mkCst h (<[t := fired tm]> (tms s)) (<[c := v2]> (cpus s)) (one_ms s) (clock_handler s) (if L is [] then S (reads s) else S (S (reads s))) (called s ++ [t])).
  assert (Hp : ¬ pending (<[c := L]> Ls) t) by (eapply not_pending; [by eapply pending_nodup|done|apply Hi]).
  assert (Hc : (c < length (cpus s))%nat) by by eapply lookup_lt_Some.
  exists s3. split; [|split; [|split; [done|split; [done|split; [done|split; [|done]]]]]].
  - unfold handler_turn. m_step (tree_first fuel s Ls c (t :: L) v Hi HL Hv ltac:(simpl; lia)).
    change (default 0 (tnode <$> head (t :: L))) with (tnode t). rewrite decide_False by (by apply node_addr_pos). rewrite tcontainer_tnode.
    rewrite (bind_done _ _ s (time s) s1) by done. rewrite (bind_done _ _ s1 tm s1) by (unfold get_timer; cbn [tms s1]; by rewrite Ht).
    rewrite decide_False by lia. m_step Ec. unfold get_timer at 1. erewrite bind_done; [|cbn [tms]; rewrite Ht; reflexivity].
    erewrite bind_done; [|by eapply set_timer_eq]. cbn [tnodes tms cpus one_ms clock_handler reads called].
    unfold invoke. rewrite bind_assoc. unfold get_timer at 1. erewrite bind_done; [|cbn [tms]; rewrite lookup_insert_eq; reflexivity]. done.
  - split; [|apply list_lookup_insert_eq; by eapply lookup_lt_Some]. split.
    + cbn [tnodes tms cpus s3]. eapply inv_timer; [|exact Ht|exact (ti_keys _ _ _ _ Hi t tm Ht)|done].
      unfold v2. replace (<[c := with_tval (ticks_of s1 w) (with_root r v)]> (cpus s)) with (<[c := with_tval (ticks_of s1 w) (with_root r v)]> (<[c := with_root r v]> (cpus s))) by apply list_insert_insert_eq.
      eapply inv_cpu; [exact Hi2|by apply list_lookup_insert_eq|done].
    + done.
    + done.
    + intros u Hpu. cbn [tms s3]. rewrite (key_set (tms s) t tm) by done.
      assert (Hpu' : pending Ls u) by (destruct (pending_insert _ _ _ _ HL _ Hpu); [exists c, (t :: L); split; [done|by right]|done]). pose proof (Hn u Hpu').
      pose proof (time_mono s (reads s3) Hm Hu ltac:(simpl; destruct L; lia)). unfold TimersSpec.time at 1. cbn [one_ms s3]. lia.
  - cbn [reads s3]. destruct L; lia.
Qed.

(** What the interrupt does, from a state [s] with the timers [L], to [s'] with [L']. *)
Definition served (T : Z) s L s' L' : Prop := ∃ k : nat,
  called s' = called s ++ take k (due T (tms s) L) ∧
  (∀ t, t ∈ L → key_of (tms s) t ≤ time s → t ∈ take k (due T (tms s) L)) ∧
  (∀ u, u ∈ L' → ticks (pred (reads s')) / one_ms s' < key_of (tms s') u).

(** Nothing is due: the loop ends. *)
Lemma turn_ends (fuel : nat) s Ls c L : monotone → running s Ls c L → (length L < fuel)%nat → (∀ t L2, L = t :: L2 → time s < key_of (tms s) t) →
  ∃ s', handler_turn ticks call fuel c tt s = Done (inr tt, s') ∧ running s' Ls c L ∧ called s' = called s ∧ one_ms s' = one_ms s ∧ tms s' = tms s ∧
    (∀ u, u ∈ L → ticks (pred (reads s')) / one_ms s' < key_of (tms s') u).
Proof.
  intros Hm Hr Hf Hk. destruct (running_cpu _ _ _ _ Hr) as [v Hv]. pose proof Hr as [[Hi Hu Hs Hn] HL]. unfold handler_turn. m_step (tree_first fuel s Ls c L v Hi HL Hv Hf).
  destruct L as [|t L].
  - exists s. split; [done|]. split; [done|]. split; [done|]. split; [done|]. split; [done|]. by intros u ?%elem_of_nil.
  - change (default 0 (tnode <$> head (t :: L))) with (tnode t). specialize (Hk t L eq_refl).
    destruct (pending_some _ _ _ _ _ Hr (list_elem_of_here t L)) as (tm & Ht & _). destruct (ti_nodes _ _ _ _ Hi t ltac:(by eexists)) as [_ Ga].
    rewrite decide_False by (by apply node_addr_pos). rewrite tcontainer_tnode.
    set (s1 := mkCst (tnodes s) (tms s) (cpus s) (one_ms s) (clock_handler s) (S (reads s)) (called s)).
    rewrite (bind_done _ _ s (time s) s1) by done. rewrite (bind_done _ _ s1 tm s1) by (unfold get_timer; cbn [tms s1]; by rewrite Ht).
    assert (Ek : key_of (tms s) t = _key tm) by (unfold key_of; by rewrite Ht). rewrite decide_True by (by rewrite <-Ek). exists s1. split; [done|].
    split; [|split; [done|split; [done|split; [done|]]]].
    + split; [|done]. split; [done|done|done|]. intros u Hin. pose proof (Hn u Hin). pose proof (time_mono s (S (reads s)) Hm Hu ltac:(lia)). unfold TimersSpec.time at 1. cbn [reads s1 one_ms tms]. lia.
    + intros u Hin. cbn [reads s1 pred one_ms tms]. pose proof (expiry_head (tms s) t L u (ti_keys _ _ _ _ Hi)) as Hle. apply (Z.lt_le_trans _ _ _ Hk), Hle; [|by eapply ti_sorted|done].
      intros x Hx. destruct (pending_some _ _ _ _ _ Hr Hx) as (xm & -> & _). by eexists.
Qed.

Lemma due_cons (T : Z) m t L : key_of m t ≤ T → due T m (t :: L) = t :: due T m L.
Proof. intros H. unfold due. by rewrite filter_cons_True. Qed.
Lemma insert_twice c L L' Ls : <[c := L']> (<[c := L]> Ls) = <[c := L']> Ls.
Proof. apply list_insert_insert_eq. Qed.

(** The same for the timers that are left once [t] has run. *)
Lemma served_after (T : Z) s t L s2 L2 s' L' : (∀ u, u ∈ L → key_of (tms s2) u = key_of (tms s) u) → due T (tms s2) L2 = due T (tms s) L →
  called s2 = called s ++ [t] → time s ≤ time s2 → time s ≤ T → key_of (tms s) t ≤ time s → served T s2 L2 s' L' → served T s (t :: L) s' L'.
Proof.
  intros Hk Hd Hc Ht HT Hkt (k & H1 & H2 & H3). exists (S k). rewrite due_cons by lia. cbn [take]. rewrite <-Hd. split; [|split; [|done]].
  - rewrite H1, Hc, <-app_assoc. done.
  - intros u [->|Hu]%elem_of_cons Hku; [by left|]. right. assert (Hin : u ∈ due T (tms s2) L2) by (rewrite Hd; apply list_elem_of_filter; split; [lia|done]).
    apply H2; [by apply list_elem_of_filter in Hin as [_ Hin]|]. rewrite Hk by done. lia.
Qed.

Lemma handler_loop_ok (fuel n : nat) (T : Z) s0 c Ls s L : monotone → (∀ t, t ∈ due T (tms s) L → handler_quiet s0 T c t) →
  (∀ i : nat, (reads s0 ≤ i)%nat → ticks i / one_ms s0 ≤ T) → running s Ls c L → (reads s0 ≤ reads s)%nat → one_ms s = one_ms s0 → size (tms s) = size (tms s0) →
  (∀ u, setup (tms s) u = setup (tms s0) u) → (length (due T (tms s) L) < n)%nat → (size (tms s) + 1 < fuel)%nat →
  ∃ s' L', loop n (handler_turn ticks call fuel c) tt s = Done (tt, s') ∧ running s' (<[c := L']> Ls) c L' ∧ served T s L s' L'.
Proof.
  intros Hm. revert Ls s L. induction n as [|n IH]; intros Ls s L Hq HT Hr Hrd Hone Hsz Hset Hn Hf; [lia|]. rewrite loop_S.
  pose proof (pending_size _ _ _ _ Hr) as Hlen. assert (HTs : time s ≤ T) by (unfold TimersSpec.time; rewrite Hone; by apply HT).
  assert (Hcase : (∀ t L2, L = t :: L2 → time s < key_of (tms s) t) ∨ ∃ t L2, L = t :: L2 ∧ key_of (tms s) t ≤ time s).
  { destruct L as [|t L]; [by left|]. destruct (Z.le_gt_cases (key_of (tms s) t) (time s)) as [H|H]; [right; by exists t, L|left]. by intros ? ? [= <- <-]. }
  destruct Hcase as [Hk|(t & L2 & -> & Hk)].
  - destruct (turn_ends fuel s Ls c L Hm Hr ltac:(lia) Hk) as (s' & E & Hr' & Hc & Hu' & Ht' & Hlast). m_step E. exists s', L. split; [done|].
    rewrite list_insert_id by apply Hr. split; [done|]. exists 0%nat. split; [by rewrite take_0, app_nil_r|]. split; [|done].
    intros u Hu Hku. destruct L as [|t L2]; [by apply elem_of_nil in Hu|]. exfalso. specialize (Hk t L2 eq_refl). pose proof Hr as [[Hi _ _ _] HL].
    pose proof (expiry_head (tms s) t L2 u (ti_keys _ _ _ _ Hi)) as Hle. assert (key_of (tms s) t ≤ key_of (tms s) u); [|lia]. apply Hle; [|by eapply ti_sorted|done].
    intros x Hx. destruct (pending_some _ _ _ _ _ Hr Hx) as (xm & -> & _). by eexists.
  - destruct (pending_some _ _ _ _ _ Hr (list_elem_of_here t L2)) as (tm & Ht & _). assert (Ek : key_of (tms s) t = _key tm) by (unfold key_of; by rewrite Ht).
    destruct (fire_ok fuel s Ls c t L2 tm Hm Hr Ht ltac:(by rewrite <-Ek) Hf) as (s3 & E3 & Hr3 & Hp3 & Ht3 & Ho3 & Hrd3 & Hc3). rewrite due_cons in Hq, Hn by lia. simpl in Hn.
    assert (Hset3 : ∀ u, setup (tms s3) u = setup (tms s0) u) by (intros u; rewrite Ht3, (setup_set (tms s) t tm) by done; apply Hset).
    assert (Hk3 : ∀ u, key_of (tms s3) u = key_of (tms s) u) by (intros u; rewrite Ht3; by apply (key_set (tms s) t tm)).
    assert (Hsz3 : size (tms s3) = size (tms s0)) by (by rewrite Ht3, map_size_insert_Some).
    destruct (Hq t ltac:(left) s3 (<[c := L2]> Ls) L2 (fired tm) Hr3 ltac:(lia) ltac:(congruence) Hsz3) as (s4 & L4 & E4 & Hr4 & Hc4 & Hrd4 & Ho4 & Hsz4 & Hset4 & Hk4 & Hd4);
      [by rewrite Ht3, lookup_insert_eq|by apply Hset3|done|done|]. cbn [handler fired] in E4.
    rewrite (bind_done _ _ s (inl tt) s4) by (rewrite E3; by m_step E4). rewrite insert_twice in Hr4.
    assert (Hd : due T (tms s4) L4 = due T (tms s) L2) by (rewrite Hd4; by apply due_ext).
    destruct (IH (<[c := L4]> Ls) s4 L4) as (s' & L' & El & Hr' & Hs'); [|done|done|lia|congruence|congruence|by intros u; rewrite Hset4|by rewrite Hd; lia|by rewrite Hsz4, Hsz3, <-Hsz|].
    { intros u Hu. apply Hq. right. by rewrite <-Hd. }
    rewrite insert_twice in Hr'. exists s', L'. split; [exact El|]. split; [exact Hr'|]. eapply served_after; [|exact Hd|by rewrite Hc4| |exact HTs|exact Hk|exact Hs'].
    + intros u Hu. rewrite Hk4 by done. apply Hk3.
    + unfold TimersSpec.time at 2. rewrite Ho4, Ho3. apply time_mono; [done|apply Hr|lia].
Qed.


(** C7: the clock interrupt. When it comes, [timer_clock_handler] ends, and it has
    called the handlers of timers that were pending on its CPU in the order in which
    they expire, each once: a prefix of those that expire by [T], with every one
    that had expired when the interrupt came.  The timers that are pending when it
    returns expire later than its last reading of the clock; among them are those
    that handlers have set.  The trees of all CPUs stay well formed throughout and
    the clock is programmed for the next timer without a panic.  The counter does
    not pass [T] before the handler is done, and handlers set timers to expire
    after that. *)
Theorem clock_handler_fires_due (fuel : nat) s Ls c L (T : Z) : monotone → running s Ls c L → (∀ t, t ∈ due T (tms s) L → handler_quiet s T c t) →
  (∀ i : nat, (reads s ≤ i)%nat → ticks i / one_ms s ≤ T) → (size (tms s) + 1 < fuel)%nat →
  ∃ s' L' (k : nat), timer_clock_handler ticks call fuel c s = Done (tt, s') ∧ running s' (<[c := L']> Ls) c L' ∧
    called s' = called s ++ take k (due T (tms s) L) ∧
    (∀ t, t ∈ L → key_of (tms s) t ≤ time s → t ∈ take k (due T (tms s) L)) ∧
    (∀ u, u ∈ L' → ticks (pred (reads s')) / one_ms s' < key_of (tms s') u).
Proof.
  intros Hm Hr Hq HT Hf. destruct (running_cpu _ _ _ _ Hr) as [v Hv]. pose proof Hr as [[Hi Hu Hs Hn] HL].
  pose proof (pending_size _ _ _ _ Hr) as Hsz. unfold timer_clock_handler.
  rewrite (bind_done _ _ s tt (mkCst (tnodes s) (tms s) (<[c := with_tval (ticks_of s 1000) v]> (cpus s)) (one_ms s) (clock_handler s) (reads s) (called s))).
  2:{ rewrite (reset_clock_eq s c v 1000 Hv). rewrite decide_True; [done|]. apply small_fits; [done|done|lia]. }
  set (s1 := mkCst _ _ _ _ _ _ _).
  assert (Hr1 : running s1 Ls c L) by (split; [split; [by eapply inv_cpu|done|done|exact Hn]|done]).
  assert (Hdue : (length (due T (tms s1) L) ≤ length L)%nat) by apply length_filter.
  destruct (handler_loop_ok fuel fuel T s1 c Ls s1 L Hm Hq HT Hr1) as (s' & L' & E & Hr' & k & H1 & H2 & H3); [done|done|done|done|cbn [tms s1] in *; lia|done|].
  exists s', L', k. split; [exact E|]. by split.
Qed.
End props.

(** ** Setting a timer *)
Section setting.
Context (ticks : nat → Z).

(** C32: [set_cpu_timer] of a timer that is not pending puts it among the pending
    timers of its CPU at its place in the order of expiry, [elapse] milliseconds
    from now; it becomes untriggered, and the counter of the CPU is loaded with the
    time that is left until the first of these timers expires (nothing when it has
    expired already).  If that is more than 31 bits of ticks, the kernel panics.
    Other timers and other CPUs are left as they are. *)
Theorem set_cpu_timer_arms (fuel : nat) s Ls c L v t tm : timers_inv (tnodes s) (tms s) (cpus s) Ls → Ls !! c = Some L → cpus s !! c = Some v →
  ¬ pending Ls t → tms s !! t = Some tm → 0 ≤ u64 (time ticks s + elapse tm) < 2 ^ 63 → (length L + 1 < fuel)%nat →
  let m := <[t := mkTimer false (elapse tm) (u64 (time ticks s + elapse tm)) (handler tm) (data tm)]> (tms s) in
  ∃ L1 L2, L = L1 ++ L2 ∧ by_expiry m (L1 ++ t :: L2) ∧
    let w := countdown m (L1 ++ t :: L2) (ticks (S (reads s)) / one_ms s) in
    if decide (u64 (w * one_ms s) ≤ 0x7fffffff) then
      ∃ s' v', set_cpu_timer ticks fuel c t s = Done (tt, s') ∧ timers_inv (tnodes s') (tms s') (cpus s') (<[c := L1 ++ t :: L2]> Ls) ∧
        tms s' = m ∧ cpus s' = <[c := v']> (cpus s) ∧ cntp_tval v' = u64 (w * one_ms s) ∧ called s' = called s
    else set_cpu_timer ticks fuel c t s = Panic.
Proof.
  intros Hi HL Hv Hp Ht Hk Hf m. destruct (set_cpu_timer_ok ticks fuel s Ls c L v t tm Hi HL Hv Hp Ht Hk Hf) as (L1 & L2 & h & r & -> & Hi' & E).
  cbv zeta in E. fold m in E. exists L1, L2. split; [done|]. assert (Hc : (c < length Ls)%nat) by by eapply lookup_lt_Some.
  split; [eapply (ti_sorted _ _ _ _ Hi' c); by apply list_lookup_insert_eq|]. intros w. fold w in E. 
  destruct (decide (u64 (w * one_ms s) ≤ 0x7fffffff)) as [Hw|Hw]; [rewrite decide_True in E by exact Hw|by rewrite decide_False in E by exact Hw].
  eexists _, _. split; [exact E|]. cbn [tnodes tms cpus called]. split; [|done].
  rewrite <-(list_insert_insert_eq (cpus s) c _ (with_root r v)). eapply inv_cpu; [exact Hi'|apply list_lookup_insert_eq; by eapply lookup_lt_Some|done].
Qed.
End setting.

(** ** The handler [hello] *)
Section hello.
Context (ticks : nat → Z) (B : Z) (hello_timer : nat → Z) (fuel : nat).

(** It counts, and sets the timer of this CPU again. *)
Lemma hello_quiet s0 c (ptr T : Z) : monotone ticks → (∀ i, ticks i < 2 ^ 62) → 5000 ≤ B → setup (tms s0) (hello_timer c) = Some (5000, ptr) →
  0 < one_ms s0 → T < time ticks s0 + 5000 → (size (tms s0) + 1 < fuel)%nat →
  handler_quiet ticks B (λ _, hello ticks hello_timer fuel) s0 T c (hello_timer c).
Proof.
  intros Hm Hb HB Hset Hu0 HT Hf s Ls L tm [Ha HL] Hrd Hone Hsz Ht Hse Htr Hp. rewrite Hset in Hse. unfold setup in Hse. rewrite Ht in Hse. injection Hse as He Hh. set (t := hello_timer c) in *.
  set (tm1 := mkTimer (triggered tm) (elapse tm) (_key tm) (handler tm) (u64 (data tm + 1))).
  set (s1 := mkCst (tnodes s) (<[t := tm1]> (tms s)) (cpus s) (one_ms s) (clock_handler s) (reads s) (called s)).
  assert (Hk1 : ∀ u, key_of (tms s1) u = key_of (tms s) u) by (intros u; by apply (key_set (tms s) t tm)).
  assert (Ha1 : all_running ticks B s1 Ls).
  { pose proof Ha as [Hi Hu Hs Hn]. split; [|done|done|].
    - eapply inv_timer; [exact Hi|exact Ht|exact (ti_keys _ _ _ _ Hi t tm Ht)|done].
    - intros u Hpu. rewrite Hk1. by apply Hn. }
  assert (Hsz1 : size (tms s1) = size (tms s)) by (cbn [tms s1]; by rewrite map_size_insert_Some).
  assert (H1 : time ticks s0 ≤ time ticks s) by (unfold TimersSpec.time at 2; rewrite Hone; by apply time_mono).
  assert (H2 : time ticks s < 2 ^ 62) by (apply Z.div_lt_upper_bound; [apply Ha|]; pose proof (Hb (reads s)); pose proof (ar_unit _ _ _ _ Ha); nia).
  assert (H0 : 0 ≤ time ticks s) by (apply Z.div_pos; [apply Hm|apply Ha]).
  destruct (all_set ticks B fuel s1 Ls c L t tm1 Hm Ha1 HL Hp) as (L1 & L2 & s2 & -> & E & Ha2 & Em & Eo & Ec & Er);
    [apply lookup_insert_eq|cbn [tm1 elapse]; lia|change (time ticks s1) with (time ticks s); cbn [tm1 elapse]; lia|lia|]. change (time ticks s1) with (time ticks s) in Em. cbn [tms s1] in Em. rewrite insert_insert_eq in Em.
  assert (Hnin : t ∉ L1 ++ L2) by (intros Hin; apply Hp; by exists c, (L1 ++ L2)).
  assert (Hk2 : ∀ u, u ≠ t → key_of (tms s2) u = key_of (tms s) u) by (intros u Hu; rewrite Em; unfold key_of; by rewrite lookup_insert_ne).
  exists s2, (L1 ++ t :: L2). split; [|split; [|split; [done|split; [rewrite Er; cbn [reads s1]; lia|split; [done|split; [|split; [|split]]]]]]].
  - unfold hello. rewrite (bind_done _ _ s tm s) by (unfold get_timer; by rewrite Ht). rewrite (bind_done _ _ _ _ _ (set_timer_eq s t tm tm1 Ht)). exact E.
  - split; [done|]. apply list_lookup_insert_eq. by eapply lookup_lt_Some.
  - by rewrite Em, map_size_insert_Some.
  - intros u. rewrite Em. by apply (setup_set (tms s) t tm).
  - intros u Hu. apply Hk2. by intros ->.
  - unfold due. rewrite !filter_app, filter_cons_False.
    + rewrite <-!filter_app. apply (due_ext T). intros u Hu. apply Hk2. by intros ->.
    + rewrite Em. unfold key_of. rewrite lookup_insert_eq. simpl. rewrite u64_small by (unfold in_u; lia). lia.
Qed.
End hello.

(** ** Witnesses *)
(** One CPU whose [hello_timer] at 4096 expired a second ago, and a timer at 8192. *)
Definition sample_ticks (i : nat) : Z := 19200 * (6000 + Z.of_nat (i `min` 100)).
Definition sample_hello (c : nat) : Z := 4096.
Definition sample_timers : cst := mkCst
  {[ 4112 := mkRb (word 0 true) 0 0; 8208 := mkRb 0 0 0 ]}
  {[ 4096 := mkTimer false 5000 5000 1 0; 8192 := mkTimer true 10 0 2 0 ]}
  [mkCpu true 4112 0 0 0 0 1 0 2] 19200 (Some timer_clock_handler_ptr) 0 [].

Lemma sample_lookup t tm : tms sample_timers !! t = Some tm → t = 4096 ∨ t = 8192.
Proof. intros H. cbn [tms sample_timers] in H. apply lookup_insert_Some in H as [[<- _]|[_ [<- _]%lookup_singleton_Some]]; [by left|by right]. Qed.
Lemma sample_list (c : nat) L : [[4096]] !! c = Some L → c = 0%nat ∧ L = [4096].
Proof. intros H. pose proof (lookup_lt_Some _ _ _ H) as Hc. simpl in Hc. assert (c = 0%nat) as -> by lia. by injection H as <-. Qed.
Lemma sample_pending t : pending [[4096]] t → t = 4096.
Proof. intros (c & L & [-> ->]%sample_list & ?%list_elem_of_singleton). done. Qed.
Lemma sample_timers_inv : timers_inv (tnodes sample_timers) (tms sample_timers) (cpus sample_timers) [[4096]].
Proof.
  split; [done|..].
  - intros c L v [-> ->]%sample_list [= <-]. split. exists (T true E 4112 E). split; [|split; [done|split; [done|by exists 1%nat, 0%nat]]].
    split; [by split|done|done|apply NoDup_singleton|by apply Forall_singleton].
  - intros c L [_ ->]%sample_list. repeat constructor.
  - intros c d L L' t [-> _]%sample_list [-> _]%sample_list. done.
  - intros t ->%sample_pending. by eexists.
  - intros t [tm [->| ->]%sample_lookup]; (split; [by eexists|done]).
  - intros t tm Ht. destruct (sample_lookup t tm Ht) as [->| ->]; vm_compute in Ht; by injection Ht as <-.
Qed.
Lemma sample_running : running sample_ticks 10000 sample_timers [[4096]] 0 [4096].
Proof. split; [|done]. split; [apply sample_timers_inv|done|done|]. by intros t ->%sample_pending. Qed.
Lemma sample_monotone : monotone sample_ticks.
Proof. intros i. unfold sample_ticks. lia. Qed.

Lemma clock_handler_fires_due_witness : ∃ s' L', timer_clock_handler sample_ticks (λ _, hello sample_ticks sample_hello 8) 8 0 sample_timers = Done (tt, s') ∧
  running sample_ticks 10000 s' [L'] 0 L' ∧ called s' = [4096].
Proof.
  destruct (clock_handler_fires_due sample_ticks 10000 (λ _, hello sample_ticks sample_hello 8) 8 sample_timers [[4096]] 0 [4096] 6100) as (s' & L' & k & E & Hr & Hc & Hin & _).
  - exact sample_monotone.
  - exact sample_running.
  - intros t Ht. assert (t = sample_hello 0) as -> by (apply list_elem_of_filter in Ht as [_ Ht%list_elem_of_singleton]; exact Ht).
    apply (hello_quiet sample_ticks 10000 sample_hello 8 sample_timers 0 1 6100).
    + exact sample_monotone.
    + intros i. unfold sample_ticks. lia.
    + lia.
    + reflexivity.
    + reflexivity.
    + reflexivity.
    + apply (bool_decide_unpack _). by vm_compute.
  - intros i _. unfold sample_ticks. cbn [one_ms sample_timers]. rewrite Z.mul_comm, Z.div_mul by lia. lia.
  - apply (bool_decide_unpack _). by vm_compute.
  - exists s', L'. split; [exact E|]. split; [exact Hr|]. rewrite Hc. specialize (Hin 4096 ltac:(left) ltac:(vm_compute; discriminate)). change (due 6100 (tms sample_timers) [4096]) with [4096] in *.
    destruct k as [|[|k]]; [apply elem_of_nil in Hin; contradiction|reflexivity|reflexivity].
Defined.

Lemma set_cpu_timer_arms_witness : ∃ s' v', set_cpu_timer sample_ticks 8 0 8192 sample_timers = Done (tt, s') ∧
  timers_inv (tnodes s') (tms s') (cpus s') [[4096; 8192]] ∧ cpus s' = [v'] ∧ cntp_tval v' = 0.
Proof.
  destruct (set_cpu_timer_arms sample_ticks 8 sample_timers [[4096]] 0 [4096] (mkCpu true 4112 0 0 0 0 1 0 2) 8192 (mkTimer true 10 0 2 0)) as (L1 & L2 & EL & Ho & Hs).
  - exact sample_timers_inv.
  - reflexivity.
  - reflexivity.
  - by intros ?%sample_pending.
  - reflexivity.
  - vm_compute. split; [discriminate|reflexivity].
  - simpl. lia.
  - assert (L1 = [4096] ∧ L2 = []) as [-> ->].
    { destruct L1 as [|a L1]; simpl in EL; [subst L2|]; [exfalso; apply StronglySorted_cons in Ho as [Ho _]; apply Forall_cons in Ho as [Ho _]; by vm_compute in Ho|].
      injection EL as <- EL. by destruct L1. }
    rewrite decide_True in Hs by (vm_compute; discriminate). destruct Hs as (s' & v' & E & Hi & _ & Hc & Hv & _). exists s', v'. split; [exact E|]. split; [exact Hi|]. split; [exact Hc|]. rewrite Hv. vm_compute. reflexivity.
Defined.
