(* ===== verification/SchedTimers.v ===== *)
(** * The timer of the scheduler on the CPU timers

    [reset_sched_timer] of [kernel/sched.c], which cancels the timer of this CPU
    when it is pending and sets it again, on the timers of [kernel/cpu.c]: it is the
    interface [CpuTimers] that [Sched.v] is verified against. *)
From S2P Require Import Prelude Words Sched RbTree RbRep Timers TimersSpec TimersProps.

Implicit Types (s : cst) (L : list Z) (Ls : list (list Z)) (t u : Z) (tm : timer) (c : nat).

Section implementation.
Context (ticks : nat → Z) (B : Z) (sched_timer : nat → Z) (fuel : nat).

(** The hardware and the linker: the counter does not run backwards and stays below
    [2 ^ 62]; every CPU has a [sched_timer] of its own. *)
Record platform : Prop := {
  pf_mono : monotone ticks;
  pf_bound : ∀ i, ticks i < 2 ^ 62;
  pf_own : ∀ c d, sched_timer c = sched_timer d → c = d
}.

(** The timers of [n] CPUs: their [sched_timer]s are triggered or pending. *)
Definition sched_timers_ok (n : nat) s : Prop := ∃ Ls, length Ls = n ∧ all_running ticks B s Ls ∧ (size (tms s) + 1 < fuel)%nat ∧
  ∀ c L, Ls !! c = Some L → ∃ tm, tms s !! sched_timer c = Some tm ∧ (triggered tm = false → sched_timer c ∈ L).

Lemma set_elapse s Ls t tm (ms : Z) : all_running ticks B s Ls → ¬ pending Ls t → tms s !! t = Some tm →
  let tm' := mkTimer (triggered tm) ms (_key tm) (handler tm) (data tm) in
  all_running ticks B (mkCst (tnodes s) (<[t := tm']> (tms s)) (Timers.cpus s) (one_ms s) (clock_handler s) (reads s) (called s)) Ls.
Proof.
  intros [Hi Hu Hs Hn] Hp Ht tm'. split; [|done|done|].
  - cbn [tnodes tms Timers.cpus]. eapply inv_timer; [exact Hi|exact Ht|exact (ti_keys _ _ _ _ Hi t tm Ht)|done].
  - intros u Hu'. cbn [tms]. rewrite (key_set (tms s) t tm) by done. by apply Hn.
Qed.

Lemma cancelled_not_pending h m cs Ls c L1 t L2 : timers_inv h m cs Ls → Ls !! c = Some (L1 ++ t :: L2) → NoDup (L1 ++ t :: L2) → ¬ pending (<[c := L1 ++ L2]> Ls) t.
Proof.
  intros Hi HL (H1 & H2 & _)%NoDup_app_cons (d & M & HM & Ht). apply list_lookup_insert_Some in HM as [(<- & <- & _)|[Hne HM]].
  - by apply elem_of_app in Ht as [Ht|Ht].
  - apply Hne. eapply (ti_disj _ _ _ _ Hi); [exact HL|exact HM| |exact Ht]. set_solver.
Qed.

Lemma sched_timer_reset (n : nat) c s : platform → sched_timers_ok n s → (c < n)%nat →
  ∃ s', Timers.reset_sched_timer ticks sched_timer fuel c 10 s = Done (tt, s') ∧ sched_timers_ok n s' ∧
    (∃ Ls L tm, length Ls = n ∧ all_running ticks B s' Ls ∧ Ls !! c = Some L ∧ sched_timer c ∈ L ∧ tms s' !! sched_timer c = Some tm ∧
       ∃ i, (reads s ≤ i)%nat ∧ _key tm = ticks i / one_ms s + 10) ∧
    (∀ t, t ≠ sched_timer c → tms s' !! t = tms s !! t).
Proof.
  intros [Hm Hb Hown] (Ls & Hlen & Ha & Hf & Hst) Hc. destruct (lookup_lt_is_Some_2 Ls c) as [L HL]; [lia|]. destruct (Hst c L HL) as (tm & Ht & Htr). set (t := sched_timer c) in *.
  pose proof (pending_nodup _ _ _ _ _ _ (conj Ha HL)) as Hnd.
  (* the timer is not pending once it is cancelled *)
  assert (H1 : ∃ s1 L', (tm ← get_timer t; if triggered tm then mret tt else cancel_cpu_timer ticks fuel c t) s = Done (tt, s1) ∧
    all_running ticks B s1 (<[c := L']> Ls) ∧ ¬ pending (<[c := L']> Ls) t ∧ tms s1 = tms s ∧ one_ms s1 = one_ms s ∧ (reads s ≤ reads s1)%nat).
  { unfold get_timer. unfold mbind, M_bind. rewrite Ht. destruct (triggered tm) eqn:Et.
    - exists s, L. rewrite list_insert_id by done. split; [done|]. split; [done|]. split; [|done]. intros Hp. destruct (ti_pend _ _ _ _ (ar_inv _ _ _ _ Ha) t Hp) as (tm' & Ht' & Ht2). congruence.
    - destruct (list_elem_of_split L t (Htr eq_refl)) as (L1 & L2 & ->). destruct (all_cancel ticks B fuel s Ls c L1 t L2 Hm Ha HL Hf) as (s1 & E & Ha1 & Em & Eo & _ & Er).
      exists s1, (L1 ++ L2). split; [done|]. split; [done|]. split; [|done]. eapply cancelled_not_pending; [apply Ha|done|done]. }
  destruct H1 as (s1 & L' & E1 & Ha1 & Hp1 & Em1 & Eo1 & Er1). set (tm1 := mkTimer (triggered tm) 10 (_key tm) (handler tm) (data tm)).
  rewrite <-Em1 in Ht. pose proof (set_elapse s1 _ t tm 10 Ha1 Hp1 Ht) as Ha2. fold tm1 in Ha2. cbv zeta in Ha2. fold tm1 in Ha2. set (s2 := mkCst _ _ _ _ _ _ _) in Ha2.
  assert (Hsz2 : size (tms s2) = size (tms s)) by (cbn [tms s2]; by rewrite map_size_insert_Some, Em1).
  assert (HL2 : <[c := L']> Ls !! c = Some L') by (apply list_lookup_insert_eq; lia).
  assert (Ht2 : TimersSpec.time ticks s2 < 2 ^ 62).
  { apply Z.div_lt_upper_bound; [apply Ha2|]. pose proof (Hb (reads s2)). pose proof (ar_unit _ _ _ _ Ha2). nia. }
  destruct (all_set ticks B fuel s2 _ c L' t tm1 Hm Ha2 HL2 Hp1) as (L1 & L2 & s3 & -> & E3 & Ha3 & Em3 & Eo3 & _ & Er3);
    [apply lookup_insert_eq|pose proof (ar_span _ _ _ _ Ha); simpl; lia|simpl; lia|by rewrite Hsz2|].
  rewrite list_insert_insert_eq in Ha3. cbn [tms s2] in Em3. rewrite insert_insert_eq in Em3.
  assert (Hother : ∀ u, u ≠ t → tms s3 !! u = tms s !! u) by (intros u Hu; rewrite Em3, lookup_insert_ne by done; by rewrite Em1).
  assert (Hlen3 : length (<[c := L1 ++ t :: L2]> Ls) = n) by by rewrite length_insert.
  assert (Hin : t ∈ L1 ++ t :: L2) by set_solver. assert (HL3 : <[c := L1 ++ t :: L2]> Ls !! c = Some (L1 ++ t :: L2)) by (apply list_lookup_insert_eq; lia).
  exists s3. split; [|split; [|split; [|exact Hother]]].
  - unfold Timers.reset_sched_timer. rewrite <-bind_assoc. fold t. rewrite (bind_done _ _ _ _ _ E1). rewrite (bind_done _ _ s1 tm s1) by (unfold get_timer; by rewrite Ht).
    rewrite (bind_done _ _ _ _ _ (set_timer_eq s1 t tm tm1 Ht)). exact E3.
  - exists (<[c := L1 ++ t :: L2]> Ls). split; [done|]. split; [done|]. split; [by rewrite Em3, map_size_insert_Some by done; rewrite Em1|].
    intros d M [(<- & <- & _)|[Hne HM]]%list_lookup_insert_Some.
    + eexists. fold t. rewrite Em3, lookup_insert_eq. split; [done|]. by intros _.
    + destruct (Hst d M HM) as (tmd & Htd & Hd). exists tmd. rewrite Hother; [done|]. intros E. apply Hne. symmetry. by apply Hown.
  - exists (<[c := L1 ++ t :: L2]> Ls), (L1 ++ t :: L2), (armed tm1 (TimersSpec.time ticks s2)). split; [done|]. split; [done|]. split; [done|]. split; [done|].
    split; [by rewrite Em3, lookup_insert_eq|]. exists (reads s1). split; [done|]. cbn [armed tm1 _key elapse]. unfold TimersSpec.time in *. cbn [reads one_ms s2] in *.
    rewrite Eo1 in *. apply u64_small. unfold in_u. assert (0 ≤ ticks (reads s1) / one_ms s) by (apply Z.div_pos; [apply Hm|apply Ha]). lia.
Qed.

(** [kernel/cpu.c] implements the interface of the scheduler. *)
#[export] Instance kernel_timers (Hp : platform) : CpuTimers cst := {|
  Sched.reset_sched_timer := Timers.reset_sched_timer ticks sched_timer fuel;
  timers_ok := sched_timers_ok;
  reset_sched_timer_ok := λ n c s Hs Hc, let '(ex_intro _ s' (conj He (conj Hs' _))) := sched_timer_reset n c s Hp Hs Hc in ex_intro _ s' (conj He Hs')
|}.
End implementation.

(** C33: the timer behind the scheduler. On every CPU, [reset_sched_timer(10)]
    finds its [sched_timer] either pending, and cancels it, or triggered; it leaves
    it pending among the timers of this CPU, to expire 10 milliseconds after a
    reading of the clock, without a panic. The trees of all CPUs stay well formed
    and no other timer changes, so the timers of [kernel/cpu.c] keep the promise
    that the scheduler's switches rely on. *)
Theorem sched_timer_rearms (ticks : nat → Z) (B : Z) (sched_timer : nat → Z) (fuel n : nat) c s :
  platform ticks sched_timer → sched_timers_ok ticks B sched_timer fuel n s → (c < n)%nat →
  ∃ s', Timers.reset_sched_timer ticks sched_timer fuel c 10 s = Done (tt, s') ∧ sched_timers_ok ticks B sched_timer fuel n s' ∧
    (∃ Ls L tm, length Ls = n ∧ all_running ticks B s' Ls ∧ Ls !! c = Some L ∧ sched_timer c ∈ L ∧ tms s' !! sched_timer c = Some tm ∧
       ∃ i, (reads s ≤ i)%nat ∧ _key tm = ticks i / one_ms s + 10) ∧
    (∀ t, t ≠ sched_timer c → tms s' !! t = tms s !! t).
Proof. apply sched_timer_reset. Qed.

Definition sample_sched_timer (c : nat) : Z := 8192 + 64 * Z.of_nat c.
Lemma sample_platform : platform sample_ticks sample_sched_timer.
Proof. split; [apply sample_monotone|intros i; unfold sample_ticks; lia|]. unfold sample_sched_timer. lia. Qed.
Lemma sample_sched_timers : sched_timers_ok sample_ticks 10000 sample_sched_timer 8 1 sample_timers.
Proof.
  exists [[4096]]. split; [done|]. split; [apply sample_running|]. split; [apply (bool_decide_unpack _); by vm_compute|].
  intros c L [-> ->]%sample_list. eexists. by split.
Qed.
Lemma sched_timer_rearms_witness : ∃ s', Timers.reset_sched_timer sample_ticks sample_sched_timer 8 0 10 sample_timers = Done (tt, s') ∧
  sched_timers_ok sample_ticks 10000 sample_sched_timer 8 1 s'.
Proof.
  destruct (sched_timer_rearms sample_ticks 10000 sample_sched_timer 8 1 0 sample_timers) as (s' & E & Hs & _).
  - exact sample_platform.
  - exact sample_sched_timers.
  - lia.
  - exists s'. split; [exact E|exact Hs].
Defined.
