(* ===== verification/Traps.v ===== *)
(** * Traps ([aarch64/trap.c]), interrupts ([driver/interrupt.c]) and system calls
    ([kernel/syscall.c])

    The saved contexts by address, the two tables of function pointers, the
    exception syndrome register, and the rest of the kernel, a type [X].  Reads and
    writes of device registers, the functions that the tables point to, the clock
    handler and [exit] are operations on the rest of the kernel. *)
From S2P Require Import Prelude Words Kalloc.

(** [struct UserContext]; [xs] is [x0] to [x17]. *)
Record UserContext := mkUc { uttbr0 : Z; tpidr : Z; usp : Z; elr : Z; spsr : Z; ulr : Z; xs : list Z }.

Definition NR_SYSCALL : Z := 512.
Definition NUM_IRQ_TYPES : nat := 64.
Definition ESR_EC_SHIFT : Z := 26.
Definition ESR_IR_MASK : Z := Z.shiftl 1 25.
Definition ESR_EC_UNKNOWN : Z := 0x00.
Definition ESR_EC_SVC64 : Z := 0x15.
Definition ESR_EC_IABORT_EL0 : Z := 0x20.
Definition ESR_EC_IABORT_EL1 : Z := 0x21.
Definition ESR_EC_DABORT_EL0 : Z := 0x24.
Definition ESR_EC_DABORT_EL1 : Z := 0x25.
Definition KERNEL_BASE : Z := 0xffff000000000000.
Definition MMIO_BASE : Z := KERNEL_BASE + 0x3F000000.
Definition LOCAL_BASE : Z := KERNEL_BASE + 0x40000000.
Definition IRQ_SRC_CORE (i : Z) : Z := LOCAL_BASE + 0x60 + 4 * i.
Definition IRQ_SRC_GPU : Z := Z.shiftl 1 8.
Definition IRQ_SRC_CNTPNSIRQ : Z := Z.shiftl 1 1.
Definition IRQ_PENDING_1 : Z := MMIO_BASE + 0xB204.
Definition IRQ_PENDING_2 : Z := MMIO_BASE + 0xB208.
Definition ENABLE_IRQS_1 : Z := MMIO_BASE + 0xB210.
Definition GPU_INT_ROUTE : Z := LOCAL_BASE + 0xC.
Definition GPU_IRQ2CORE (i : Z) : Z := i.

Record tst (X : Type) := mkTst {
  int_handler : list Z;
  syscall_table : list Z;
  esr_el1 : Z;
  contexts : gmap Z UserContext;
  ucontext : Z;                      (* [thisproc()->ucontext] *)
  kernel : X
}.
Arguments mkTst {X}.
Arguments int_handler {X}.
Arguments syscall_table {X}.
Arguments esr_el1 {X}.
Arguments contexts {X}.
Arguments ucontext {X}.
Arguments kernel {X}.

Section traps.
Context {X : Type}.
Context (device_get_u32 : Z → Prelude.M X Z) (device_put_u32 : Z → Z → Prelude.M X unit).
Context (invoke_clock_handler : Prelude.M X unit).
(** A call of a device's handler; a call of a system call with [x0] to [x5]. *)
Context (call_handler : Z → Prelude.M X unit) (call_syscall : Z → list Z → Prelude.M X Z).
Context (killed : Prelude.M X bool) (exit : Z → Prelude.M X unit).
(** [cpuid()] *)
Context (cpuid : Z).
Abbreviation M := (M (tst X)).

Definition on_kernel {A} (m : Prelude.M X A) : M A := λ s,
  match m (kernel s) with
  | Done (a, x) => Done (a, mkTst (int_handler s) (syscall_table s) (esr_el1 s) (contexts s) (ucontext s) x)
  | Panic => Panic | Crash => Crash | NoFuel => NoFuel
  end.
Definition set_int_handler (i : nat) (h : Z) : M unit := λ s,
  if decide (i < length (int_handler s))%nat
  then Done (tt, mkTst (<[i := h]> (int_handler s)) (syscall_table s) (esr_el1 s) (contexts s) (ucontext s) (kernel s)) else Crash.
Definition get_int_handler (i : nat) : M Z := λ s,
  match int_handler s !! i with Some h => Done (h, s) | None => Crash end.
Definition get_context (p : Z) : M UserContext := λ s, match contexts s !! p with Some c => Done (c, s) | None => Crash end.
Definition set_context (p : Z) (c : UserContext) : M unit := modify (λ s,
  mkTst (int_handler s) (syscall_table s) (esr_el1 s) (<[p := c]> (contexts s)) (ucontext s) (kernel s)).
Definition xreg (c : UserContext) (i : nat) : Z := nth i (xs c) 0.

(** ** Interrupts *)
Definition init_interrupt : M unit :=
  for_each (seq 0 NUM_IRQ_TYPES) (λ i, set_int_handler i 0);;
  on_kernel (device_put_u32 GPU_INT_ROUTE (GPU_IRQ2CORE 0)).
Definition set_interrupt_handler (type : nat) (h : Z) : M unit :=
  on_kernel (device_put_u32 (ENABLE_IRQS_1 + 4 * (Z.of_nat type / 32)) (u32 (Z.shiftl 1 (Z.of_nat type mod 32))));;
  set_int_handler type h.
(** The body of the loop over the pending interrupts of the devices. *)
Definition dispatch (map : Z) (i : nat) : M unit :=
  if decide (Z.land (Z.shiftr map (Z.of_nat i)) 1 ≠ 0) then
    h ← get_int_handler i;
    if decide (h ≠ 0) then on_kernel (call_handler h) else panic
  else mret tt.
Definition interrupt_global_handler : M unit :=
  source ← on_kernel (device_get_u32 (IRQ_SRC_CORE cpuid));
  source ← (if decide (Z.land source IRQ_SRC_CNTPNSIRQ ≠ 0) then
      let source := Z.lxor source IRQ_SRC_CNTPNSIRQ in
      on_kernel invoke_clock_handler;; mret source
    else mret source);
  source ← (if decide (Z.land source IRQ_SRC_GPU ≠ 0) then
      let source := Z.lxor source IRQ_SRC_GPU in
      lo ← on_kernel (device_get_u32 IRQ_PENDING_1);
      hi ← on_kernel (device_get_u32 IRQ_PENDING_2);
      for_each (seq 0 NUM_IRQ_TYPES) (dispatch (Z.lor lo (Z.shiftl hi 32)));;
      mret source
    else mret source);
  if decide (source ≠ 0) then panic else mret tt.

(** ** System calls *)
Definition syscall_entry (context : Z) : M unit :=
  c ← get_context context;
  let callno := xreg c 8 in
  ret ← (if decide (callno < NR_SYSCALL) then
      t ← gets syscall_table;
      match t !! Z.to_nat callno with
      | None => crash
      | Some f => if decide (f ≠ 0) then on_kernel (call_syscall f (take 6 (xs c))) else mret (2 ^ 64 - 1)
      end
    else mret (2 ^ 64 - 1));
  c ← get_context context;
  set_context context (mkUc (uttbr0 c) (tpidr c) (usp c) (elr c) (spsr c) (ulr c) (<[0%nat := ret]> (xs c))).

(** ** Traps *)
Definition trap_global_handler (context : Z) : M unit :=
  modify (λ s, mkTst (int_handler s) (syscall_table s) (esr_el1 s) (contexts s) context (kernel s));;
  esr ← gets esr_el1;
  let ec := Z.shiftr esr ESR_EC_SHIFT in
  let ir := Z.land esr ESR_IR_MASK in
  modify (λ s, mkTst (int_handler s) (syscall_table s) 0 (contexts s) (ucontext s) (kernel s));;
  (if decide (ec = ESR_EC_UNKNOWN) then (if decide (ir ≠ 0) then panic else interrupt_global_handler)
   else if decide (ec = ESR_EC_SVC64) then syscall_entry context
   else if decide (ec = ESR_EC_IABORT_EL0 ∨ ec = ESR_EC_IABORT_EL1 ∨ ec = ESR_EC_DABORT_EL0 ∨ ec = ESR_EC_DABORT_EL1) then panic
   else panic);;
  k ← on_kernel killed;
  c ← get_context context;
  if (k : bool) && bool_decide (Z.land (elr c) KSPACE_MASK = 0) then on_kernel (exit (-1)) else mret tt.
Definition trap_error_handler (type : Z) : M unit := panic.
End traps.
