(* ===== verification/TrapProps.v ===== *)
(** * What traps do

    A system call and the interrupts that are pending, for any kernel behind them. *)
From S2P Require Import Prelude Words Kalloc Traps.

Section props.
Context {X : Type}.
Context (device_get_u32 : Z → Prelude.M X Z).
Context (invoke_clock_handler : Prelude.M X unit).
Context (call_handler : Z → Prelude.M X unit) (call_syscall : Z → list Z → Prelude.M X Z).
Context (killed : Prelude.M X bool) (exit : Z → Prelude.M X unit).
Context (cpuid : Z).
Implicit Types (s : tst X) (c : UserContext) (x : X) (map : Z).

(** [s] with another rest of the kernel. *)
Definition at_kernel s x : tst X := mkTst (int_handler s) (syscall_table s) (esr_el1 s) (contexts s) (ucontext s) x.

(** ** Interrupts *)
(** The interrupts of devices that are pending, in ascending order. *)
Definition irqs map : list nat := filter (λ i, Z.testbit map (Z.of_nat i) = true) (seq 0 NUM_IRQ_TYPES).

Lemma pending_bit map (i : nat) : Z.land (Z.shiftr map (Z.of_nat i)) 1 ≠ 0 ↔ Z.testbit map (Z.of_nat i) = true.
Proof.
  change 1 with (Z.ones 1). rewrite Z.land_ones by lia. change (2 ^ 1) with 2. rewrite <-Z.bit0_mod, Z.shiftr_spec, Z.add_0_l by lia.
  by destruct (Z.testbit map (Z.of_nat i)).
Qed.
Lemma kernel_done {A} (m : Prelude.M X A) s a x : m (kernel s) = Done (a, x) →
  on_kernel m s = Done (a, at_kernel s x).
Proof. intros E. unfold on_kernel. by rewrite E. Qed.

(** The handlers of the interrupts [ns], one after the other; each of them must
    have one. *)
Definition handle (hs : list Z) (i : nat) : Prelude.M X unit := if decide (nth i hs 0 ≠ 0) then call_handler (nth i hs 0) else panic.
Definition handle_all (hs : list Z) (ns : list nat) : Prelude.M X unit := for_each ns (handle hs).

Lemma dispatch_all map (ns : list nat) s x : (∀ i, i ∈ ns → (i < length (int_handler s))%nat) →
  handle_all (int_handler s) (filter (λ i, Z.testbit map (Z.of_nat i) = true) ns) (kernel s) = Done (tt, x) →
  for_each ns (dispatch call_handler map) s = Done (tt, at_kernel s x).
Proof.
  revert s. induction ns as [|i ns IH]; intros s Hh E.
  - injection E as <-. by destruct s.
  - cbn [for_each]. destruct (decide (Z.testbit map (Z.of_nat i) = true)) as [Hb|Hb].
    + rewrite filter_cons_True in E by done. destruct (lookup_lt_is_Some_2 (int_handler s) i (Hh i ltac:(left))) as [h Hi].
      apply bind_inv in E as ([] & x1 & E1 & E2). unfold handle in E1. rewrite (nth_lookup_Some _ _ _ _ Hi) in E1.
      destruct (decide (h ≠ 0)) as [Hh0|]; [|done]. rewrite (bind_done _ _ s tt (at_kernel s x1)).
      * refine (IH (at_kernel s x1) _ E2). intros j Hj. apply Hh. by right.
      * unfold dispatch. rewrite decide_True by by apply pending_bit. rewrite (bind_done _ _ s h s) by (unfold get_int_handler; by rewrite Hi).
        rewrite decide_True by done. by apply kernel_done.
    + rewrite filter_cons_False in E by done. rewrite (bind_done _ _ s tt s); [apply IH; [|done]; intros j Hj; apply Hh; by right|].
      unfold dispatch. by rewrite decide_False by by rewrite pending_bit.
Qed.

(** The interrupt source register, and what it asks of the kernel: the clock first,
    then the devices. *)
Definition source_of (clk gpu : bool) : Z := Z.lor (if clk then IRQ_SRC_CNTPNSIRQ else 0) (if gpu then IRQ_SRC_GPU else 0).
Definition serve (hs : list Z) (clk gpu : bool) : Prelude.M X unit :=
  (if clk then invoke_clock_handler else mret tt);;
  if gpu then
    lo ← device_get_u32 IRQ_PENDING_1; hi ← device_get_u32 IRQ_PENDING_2; handle_all hs (irqs (Z.lor lo (Z.shiftl hi 32)))
  else mret tt.

Lemma interrupts_served s (clk gpu : bool) x0 x : length (int_handler s) = NUM_IRQ_TYPES →
  device_get_u32 (IRQ_SRC_CORE cpuid) (kernel s) = Done (source_of clk gpu, x0) → serve (int_handler s) clk gpu x0 = Done (tt, x) →
  interrupt_global_handler device_get_u32 invoke_clock_handler call_handler cpuid s =
    Done (tt, at_kernel s x).
Proof.
  intros Hlen Es E. unfold interrupt_global_handler. rewrite (bind_done _ _ _ _ _ (kernel_done _ s _ _ Es)).
  unfold serve in E. apply bind_inv in E as ([] & x1 & E1 & E2).
  assert (Ek : (if decide (Z.land (source_of clk gpu) IRQ_SRC_CNTPNSIRQ ≠ 0) then let source := Z.lxor (source_of clk gpu) IRQ_SRC_CNTPNSIRQ in on_kernel invoke_clock_handler;; mret source
      else mret (source_of clk gpu)) (at_kernel s x0) = Done (source_of false gpu, at_kernel s x1)).
  { destruct clk; [|injection E1 as <-; by destruct gpu]. rewrite decide_True by by destruct gpu.
    rewrite (bind_done _ _ _ _ _ (kernel_done _ (at_kernel s x0) _ _ E1)). by destruct gpu. }
  rewrite (bind_done _ _ _ _ _ Ek). destruct gpu; [|injection E2 as <-; done].
  apply bind_inv in E2 as (lo & x2 & E3 & E2). apply bind_inv in E2 as (hi & x3 & E4 & E2). rewrite decide_True by done. rewrite !bind_assoc.
  rewrite (bind_done _ _ _ _ _ (kernel_done _ (at_kernel s x1) _ _ E3)). rewrite !bind_assoc. rewrite (bind_done _ _ _ _ _ (kernel_done _ (at_kernel s x2) _ _ E4)). rewrite !bind_assoc.
  rewrite (bind_done _ _ _ tt (at_kernel s x)); [done|]. apply (dispatch_all _ _ (at_kernel s x3)); [|exact E2]. 
  intros i Hi. apply elem_of_seq in Hi. cbn [at_kernel int_handler]. lia.
Qed.

(** ** Traps *)
Definition trapped s (p : Z) (m : gmap Z UserContext) x : tst X := mkTst (int_handler s) (syscall_table s) 0 m p x.
Definition with_x0 (ret : Z) c : UserContext := mkUc (uttbr0 c) (tpidr c) (usp c) (elr c) (spsr c) (ulr c) (<[0%nat := ret]> (xs c)).
(** What a system call answers: [-1] when there is none with this number. *)
Definition syscall_result s c x : outcome (Z * X) :=
  let callno := xreg c 8 in
  let f := nth (Z.to_nat callno) (syscall_table s) 0 in
  if decide (callno < NR_SYSCALL ∧ f ≠ 0) then call_syscall f (take 6 (xs c)) x else Done (2 ^ 64 - 1, x).

Lemma syscall_entry_ok s p c (ret : Z) x1 : contexts s !! p = Some c → length (syscall_table s) = Z.to_nat NR_SYSCALL → 0 ≤ xreg c 8 →
  syscall_result s c (kernel s) = Done (ret, x1) →
  syscall_entry call_syscall p s = Done (tt, mkTst (int_handler s) (syscall_table s) (esr_el1 s) (<[p := with_x0 ret c]> (contexts s)) (ucontext s) x1).
Proof.
  intros Hc Hlen H0 E. unfold syscall_entry. rewrite (bind_done _ _ s c s) by (unfold get_context; by rewrite Hc).
  rewrite (bind_done _ _ s ret (at_kernel s x1)).
  - rewrite (bind_done _ _ _ c (at_kernel s x1)) by (unfold get_context; cbn [contexts at_kernel]; by rewrite Hc). done.
  - unfold syscall_result in E. destruct (decide (xreg c 8 < NR_SYSCALL)) as [Hlt|Hge].
    + rewrite (bind_done _ _ s (syscall_table s) s) by done. destruct (lookup_lt_is_Some_2 (syscall_table s) (Z.to_nat (xreg c 8))) as [f Hf]; [unfold NR_SYSCALL in *; lia|].
      rewrite Hf. rewrite (nth_lookup_Some _ _ _ _ Hf) in E. destruct (decide (f ≠ 0)) as [Hf0|Hf0].
      * rewrite decide_True in E by done. by apply kernel_done.
      * rewrite decide_False in E by naive_solver. injection E as <- <-. by destruct s.
    + rewrite decide_False in E by naive_solver. injection E as <- <-. by destruct s.
Qed.

Lemma trap_end s p (m : gmap Z UserContext) c x1 x2 (k : bool) : m !! p = Some c → killed x1 = Done (k, x2) →
  (k ← on_kernel killed; c ← get_context p; if (k : bool) && bool_decide (Z.land (elr c) KSPACE_MASK = 0) then on_kernel (exit (-1)) else mret tt) (trapped s p m x1) =
  (if k && bool_decide (Z.land (elr c) KSPACE_MASK = 0) then on_kernel (exit (-1)) else mret tt) (trapped s p m x2).
Proof.
  intros Hm Hk. rewrite (bind_done _ _ _ _ _ (kernel_done _ (trapped s p m x1) _ _ Hk)).
  rewrite (bind_done _ _ _ c (trapped s p m x2)) by (unfold get_context; cbn [contexts trapped at_kernel]; by rewrite Hm). done.
Qed.

(** C27: a trap. [trap_global_handler] remembers the context it is called with and
    clears the syndrome register.  For a system call it calls the function that the
    table has for [x8] with [x0] to [x5] and writes its answer into [x0], or [-1]
    when there is none, and changes no other register.  For an interrupt the clock
    is served first and then every pending interrupt of a device, each once and in
    ascending order, and the context is left as it was.  Then a process that has
    been killed meanwhile exits, unless the trap came from the kernel; otherwise
    the trap returns. *)
Theorem trap_serves s p c x1 x2 (k : bool) (ret : Z) (svc clk gpu : bool) : contexts s !! p = Some c → 0 ≤ xreg c 8 →
  length (syscall_table s) = Z.to_nat NR_SYSCALL → length (int_handler s) = NUM_IRQ_TYPES →
  (if svc then Z.shiftr (esr_el1 s) ESR_EC_SHIFT = ESR_EC_SVC64 ∧ syscall_result s c (kernel s) = Done (ret, x1)
   else Z.shiftr (esr_el1 s) ESR_EC_SHIFT = ESR_EC_UNKNOWN ∧ Z.land (esr_el1 s) ESR_IR_MASK = 0 ∧
     ∃ x0, device_get_u32 (IRQ_SRC_CORE cpuid) (kernel s) = Done (source_of clk gpu, x0) ∧ serve (int_handler s) clk gpu x0 = Done (tt, x1)) →
  killed x1 = Done (k, x2) →
  trap_global_handler device_get_u32 invoke_clock_handler call_handler call_syscall killed exit cpuid p s =
    (if k && bool_decide (Z.land (elr c) KSPACE_MASK = 0) then on_kernel (exit (-1)) else mret tt)
      (trapped s p (if svc then <[p := with_x0 ret c]> (contexts s) else contexts s) x2).
Proof.
  intros Hc H8 Ht Hi Hsvc Hk. unfold trap_global_handler. rewrite (bind_done _ _ s tt (mkTst (int_handler s) (syscall_table s) (esr_el1 s) (contexts s) p (kernel s))) by done.
  rewrite (bind_done _ _ _ (esr_el1 s) (mkTst (int_handler s) (syscall_table s) (esr_el1 s) (contexts s) p (kernel s))) by done.
  rewrite (bind_done _ _ _ tt (trapped s p (contexts s) (kernel s))) by done. destruct svc.
  - destruct Hsvc as [Hec Hr]. rewrite Hec. rewrite decide_False, decide_True by done.
    rewrite (bind_done _ _ _ tt (trapped s p (<[p := with_x0 ret c]> (contexts s)) x1)); [|by apply (syscall_entry_ok (trapped s p (contexts s) (kernel s)))].
    apply (trap_end s p _ (with_x0 ret c)); [apply lookup_insert_eq|done].
  - destruct Hsvc as (Hec & Hir & x0 & Es & Ev). rewrite Hec, Hir. rewrite decide_True by done. rewrite decide_False by naive_solver.
    rewrite (bind_done _ _ _ tt (trapped s p (contexts s) x1)); [|by apply (interrupts_served (trapped s p (contexts s) (kernel s)) clk gpu x0)].
    by apply (trap_end s p (contexts s) c).
Qed.
End props.

(** ** A system call *)
(** A kernel whose state is the number of system calls it has served. *)
Definition sample_context : UserContext := mkUc 0 0 0 0x400000 0 0 [1; 2; 3; 4; 5; 6; 7; 8; 499; 0; 0; 0; 0; 0; 0; 0; 0; 0].
Definition sample_trap : tst Z := mkTst (replicate 64 1) (<[499%nat := 77]> (replicate 512 0)) (Z.shiftl 0x15 26) {[ 4096 := sample_context ]} 0 0.
Lemma trap_serves_witness : trap_global_handler (λ _, mret 0) (mret tt) (λ _, mret tt) (λ f args (n : Z), Done (f + Z.of_nat (list_sum (Z.to_nat <$> args)), n + 1)) (mret false) (λ _, panic) 0 4096 sample_trap =
  Done (tt, trapped sample_trap 4096 {[ 4096 := with_x0 98 sample_context ]} 1).
Proof.
  rewrite (trap_serves (λ _, mret 0) (mret tt) (λ _, mret tt) (λ f args (n : Z), Done (f + Z.of_nat (list_sum (Z.to_nat <$> args)), n + 1)) (mret false) (λ _, panic) 0
    sample_trap 4096 sample_context 1 1 false 98 true false false).
  - reflexivity.
  - reflexivity.
  - vm_compute. discriminate.
  - reflexivity.
  - reflexivity.
  - split; reflexivity.
  - reflexivity.
Defined.
