(* ===== verification/Mmio.v ===== *)
(** * Device registers ([aarch64/intrinsic.h], [aarch64/intrinsic.c])

    The devices are a [Hardware]: what a load or a store of a 32-bit register does to
    them, the counter, and what the passing of time does.  The state is the devices
    and, as a ghost, every access to a register in order. *)
From S2P Require Import Prelude Words.

(** [dev_count] reads [cntpct_el0], a counter that does not wrap while the machine
    runs; [dev_freq] is [cntfrq_el0]. [dev_delay] is the loop in assembly of [delay]. *)
Class Hardware (H : Type) := {
  dev_load : Z → H → Z * H;
  dev_store : Z → Z → H → H;
  dev_count : H → Z * H;
  dev_freq : Z;
  dev_delay : Z → H → H
}.
(** The counter advances from one reading to the next. *)
Class CounterRuns (H : Type) `{Hardware H} := {
  counter_advances (h : H) : fst (dev_count h) < fst (dev_count (snd (dev_count h)))
}.

Inductive event := Load (r v : Z) | Store (r v : Z).
#[export] Instance event_eq_dec : EqDecision event.
Proof. solve_decision. Defined.

Record mmio (H : Type) := mkMmio { hw : H; io : list event }.
Arguments mkMmio {H}.
Arguments hw {H}.
Arguments io {H}.

Section mmio.
Context {H : Type} `{!Hardware H}.
Abbreviation M := (M (mmio H)).

Definition device_get_u32 (addr : Z) : M Z := λ s,
  let '(v, h) := dev_load addr (hw s) in Done (u32 v, mkMmio h (io s ++ [Load addr (u32 v)])).
Definition device_put_u32 (addr value : Z) : M unit := λ s,
  Done (tt, mkMmio (dev_store addr (u32 value) (hw s)) (io s ++ [Store addr (u32 value)])).
Definition get_clock_frequency : M Z := mret dev_freq.
Definition read_counter : M Z := λ s, let '(v, h) := dev_count (hw s) in Done (v, mkMmio h (io s)).
Definition delay (count : Z) : M unit := λ s, Done (tt, mkMmio (dev_delay count (hw s)) (io s)).

Definition delay_us (n : Z) : M unit :=
  freq ← get_clock_frequency;
  end_ ← read_counter;
  let end_ := end_ + u64 (freq / 1000000 * n) in
  loop (Z.to_nat (u64 (freq / 1000000 * n) + 1)) (λ _ : unit,
    now ← read_counter;
    mret (if decide (now <= end_) then inl tt else inr tt)) tt.

(** [while (cond && count--) wait;], the variable [count] when the loop is left. *)
Definition countdown_turn (cond : M bool) (wait : M unit) (count : Z) : M (Z + Z) :=
  b ← cond;
  if (b : bool) then
    if decide (count ≠ 0) then wait;; mret (inl (count - 1)) else mret (inr (count - 1))
  else mret (inr count).
Definition countdown (cond : M bool) (wait : M unit) (count : Z) : M Z :=
  loop (Z.to_nat (count + 1)) (countdown_turn cond wait) count.
End mmio.
