(* ===== verification/Sd.v ===== *)
(** * The SD card driver ([driver/sddef.h])

    The globals of the driver on top of the device registers of [Mmio.v], which are
    the controller and the card behind it.  [mbox_get_clock_rate] is a parameter,
    which [Mbox.v] provides.  Messages are not modelled, except that the registers
    they print are read. *)
From stdpp Require Import strings.
From S2P Require Import Prelude Words Kalloc Traps Mmio SdRegs.

(** [struct SDDescriptor]; [lastCmd] is the index of the command in the table. *)
Record SDDescriptor := mkCard {
  capacity : Z; cid : list Z; csd : list Z; scr : list Z; ocr : Z; support : Z; fileFormat : Z;
  type_ : Z; uhsi : Z; init_ : Z; absent : Z; rca : Z; cardState : Z; status : Z;
  lastCmd : option nat; lastArg : Z }.
(** What the C assignments to the fields do. *)
Definition with_cid d c := mkCard (capacity c) d (csd c) (scr c) (ocr c) (support c) (fileFormat c) (type_ c) (uhsi c) (init_ c) (absent c) (rca c) (cardState c) (status c) (lastCmd c) (lastArg c).
Definition with_csd d c := mkCard (capacity c) (cid c) d (scr c) (ocr c) (support c) (fileFormat c) (type_ c) (uhsi c) (init_ c) (absent c) (rca c) (cardState c) (status c) (lastCmd c) (lastArg c).
Definition with_scr d c := mkCard (capacity c) (cid c) (csd c) d (ocr c) (support c) (fileFormat c) (type_ c) (uhsi c) (init_ c) (absent c) (rca c) (cardState c) (status c) (lastCmd c) (lastArg c).
Definition with_ocr v c := mkCard (capacity c) (cid c) (csd c) (scr c) v (support c) (fileFormat c) (type_ c) (uhsi c) (init_ c) (absent c) (rca c) (cardState c) (status c) (lastCmd c) (lastArg c).
Definition with_support v c := mkCard (capacity c) (cid c) (csd c) (scr c) (ocr c) v (fileFormat c) (type_ c) (uhsi c) (init_ c) (absent c) (rca c) (cardState c) (status c) (lastCmd c) (lastArg c).
Definition with_type v c := mkCard (capacity c) (cid c) (csd c) (scr c) (ocr c) (support c) (fileFormat c) v (uhsi c) (init_ c) (absent c) (rca c) (cardState c) (status c) (lastCmd c) (lastArg c).
Definition with_init v c := mkCard (capacity c) (cid c) (csd c) (scr c) (ocr c) (support c) (fileFormat c) (type_ c) (uhsi c) v (absent c) (rca c) (cardState c) (status c) (lastCmd c) (lastArg c).
Definition with_absent v c := mkCard (capacity c) (cid c) (csd c) (scr c) (ocr c) (support c) (fileFormat c) (type_ c) (uhsi c) (init_ c) v (rca c) (cardState c) (status c) (lastCmd c) (lastArg c).
Definition with_rca v c := mkCard (capacity c) (cid c) (csd c) (scr c) (ocr c) (support c) (fileFormat c) (type_ c) (uhsi c) (init_ c) (absent c) v (cardState c) (status c) (lastCmd c) (lastArg c).
Definition with_cardState v c := mkCard (capacity c) (cid c) (csd c) (scr c) (ocr c) (support c) (fileFormat c) (type_ c) (uhsi c) (init_ c) (absent c) (rca c) v (status c) (lastCmd c) (lastArg c).
Definition with_status v c := mkCard (capacity c) (cid c) (csd c) (scr c) (ocr c) (support c) (fileFormat c) (type_ c) (uhsi c) (init_ c) (absent c) (rca c) (cardState c) v (lastCmd c) (lastArg c).
Definition with_last (i : nat) arg c := mkCard (capacity c) (cid c) (csd c) (scr c) (ocr c) (support c) (fileFormat c) (type_ c) (uhsi c) (init_ c) (absent c) (rca c) (cardState c) (status c) (Some i) arg.
Definition with_size n f c := mkCard n (cid c) (csd c) (scr c) (ocr c) (support c) f (type_ c) (uhsi c) (init_ c) (absent c) (rca c) (cardState c) (status c) (lastCmd c) (lastArg c).

Record sst (H : Type) := mkSst { mm : mmio H; sdCard : SDDescriptor; sdHostVer : Z; sdBaseClock : Z }.
Arguments mkSst {H}.
Arguments mm {H}.
Arguments sdCard {H}.
Arguments sdHostVer {H}.
Arguments sdBaseClock {H}.

(** ** Arithmetic *)
Definition fls_long (x : Z) : Z :=
  if decide (x = 0) then 0 else
  let '(x, r) := if decide (Z.land x 0xffff0000 = 0) then (u64 (Z.shiftl x 16), 32 - 16) else (x, 32) in
  let '(x, r) := if decide (Z.land x 0xff000000 = 0) then (u64 (Z.shiftl x 8), r - 8) else (x, r) in
  let '(x, r) := if decide (Z.land x 0xf0000000 = 0) then (u64 (Z.shiftl x 4), r - 4) else (x, r) in
  let '(x, r) := if decide (Z.land x 0xc0000000 = 0) then (u64 (Z.shiftl x 2), r - 2) else (x, r) in
  if decide (Z.land x 0x80000000 = 0) then r - 1 else r.
Definition roundup_pow_of_two (x : Z) : Z := u64 (Z.shiftl 1 (fls_long (u64 (x - 1)))).

(** [sdGetClockDivider] for a host of version [ver]; [freq] is not 0. *)
Definition sdGetClockDivider (ver freq : Z) : Z :=
  let closest := 41666666 / freq in
  let shiftcount := u32 (fls_long (u32 (closest - 1))) in
  let shiftcount := if decide (shiftcount > 0) then shiftcount - 1 else shiftcount in
  let shiftcount := if decide (shiftcount > 7) then 7 else shiftcount in
  let divisor := if decide (ver > HOST_SPEC_V2) then closest else u32 (Z.shiftl 1 shiftcount) in
  let divisor := if decide (divisor <= 2) then 2 else divisor in
  let hi := if decide (ver > HOST_SPEC_V2) then Z.shiftr (Z.land divisor 0x300) 2 else 0 in
  let lo := Z.land divisor 0x0ff in
  u32 (Z.shiftl lo 8 + hi).

(** [sdParseCSD]: the capacity in bytes and the file format. *)
Definition csd_capacity (d : list Z) : Z :=
  let csdVersion := Z.land (nth 0 d 0) CSD0_VERSION in
  if decide (csdVersion = CSD0_V1) then
    let csize := u32 (Z.shiftl (Z.land (nth 1 d 0) CSD1V1_C_SIZEH) CSD1V1_C_SIZEH_SHIFT + Z.shiftr (Z.land (nth 2 d 0) CSD2V1_C_SIZEL) CSD2V1_C_SIZEL_SHIFT) in
    let mult := Z.shiftl 1 (Z.shiftr (Z.land (nth 2 d 0) CSD2V1_C_SIZE_MULT) CSD2V1_C_SIZE_MULT_SHIFT + 2) in
    let blockSize := Z.shiftl 1 (Z.shiftr (Z.land (nth 1 d 0) CSD1VN_READ_BL_LEN) CSD1VN_READ_BL_LEN_SHIFT) in
    let numBlocks := (i32 csize + 1) * mult in
    u64 (numBlocks * blockSize)
  else
    let csize := Z.shiftr (Z.land (nth 2 d 0) CSD2V2_C_SIZE) CSD2V2_C_SIZE_SHIFT in
    u64 ((csize + 1) * 512 * 1024).
Definition csd_fileFormat (d : list Z) : Z := Z.land (nth 3 d 0) CSD3VN_FILE_FORMAT.

Section driver.
Context {H : Type} `{!Hardware H} (mbox_get_clock_rate : Prelude.M (mmio H) Z).
Abbreviation M := (M (sst H)).

Definition on_mm {A} (m : Prelude.M (mmio H) A) : M A := λ s,
  match m (mm s) with
  | Done (a, x) => Done (a, mkSst x (sdCard s) (sdHostVer s) (sdBaseClock s))
  | Panic => Panic | Crash => Crash | NoFuel => NoFuel
  end.
Definition set_card (f : SDDescriptor → SDDescriptor) : M unit :=
  modify (λ s, mkSst (mm s) (f (sdCard s)) (sdHostVer s) (sdBaseClock s)).
(** A load and a store of a register. *)
Definition rd (r : Z) : M Z := on_mm (device_get_u32 r).
Definition wr (r v : Z) : M unit := on_mm (device_put_u32 r v).
(** The registers a message prints. *)
Definition printk_regs (rs : list Z) : M unit := for_each rs (λ r, _ ← rd r; mret tt).

Definition sd_delayus (c : Z) : M unit := on_mm (delay_us (u32 (c * 3))).
(** [while (cond && count--) sd_delayus(us);] *)
Definition wait_while (cond : Prelude.M (mmio H) bool) (count us : Z) : M Z :=
  on_mm (countdown cond (delay_us (u32 (us * 3))) count).
Definition get_lastCmd : M EMMCCommand :=
  c ← gets sdCard; i ← from_option_M (lastCmd c); from_option_M (sdCommandTable !! i).
Definition sdDebugResponse (resp : Z) : M Z :=
  get_lastCmd;; printk_regs [EMMC_RESP3; EMMC_RESP2; EMMC_RESP1; EMMC_RESP0];;
  printk_regs [EMMC_STATUS; EMMC_CONTROL1; EMMC_INTERRUPT];;
  mret resp.

(** ** Waiting *)
Definition no_interrupt (mask : Z) : Prelude.M (mmio H) bool :=
  v ← device_get_u32 EMMC_INTERRUPT; mret (bool_decide (Z.land v mask = 0)).
Definition sdWaitForInterrupt (mask : Z) : M Z :=
  let waitMask := Z.lor mask INT_ERROR_MASK in
  count ← wait_while (no_interrupt waitMask) 1000000 1;
  ival ← rd EMMC_INTERRUPT;
  if decide (count <= 0 ∨ Z.land ival INT_CMD_TIMEOUT ≠ 0 ∨ Z.land ival INT_DATA_TIMEOUT ≠ 0) then
    wr EMMC_INTERRUPT ival;; mret SD_TIMEOUT
  else if decide (Z.land ival INT_ERROR_MASK ≠ 0) then
    printk_regs [EMMC_STATUS; EMMC_RESP0];; wr EMMC_INTERRUPT ival;; mret SD_ERROR
  else wr EMMC_INTERRUPT mask;; mret SD_OK.

(** The card is busy, by [mask], and no error is flagged. *)
Definition inhibited (mask : Z) : Prelude.M (mmio H) bool :=
  st ← device_get_u32 EMMC_STATUS;
  if decide (Z.land st mask ≠ 0) then no_interrupt INT_ERROR_MASK else mret false.
(** [failed], or an error is flagged. *)
Definition aborted (failed : bool) : M bool :=
  if failed then mret true
  else v ← rd EMMC_INTERRUPT; mret (bool_decide (Z.land v INT_ERROR_MASK ≠ 0)).
Definition sdWaitForCommand : M Z :=
  count ← wait_while (inhibited SR_CMD_INHIBIT) 1000000 1;
  b ← aborted (bool_decide (count <= 0));
  if (b : bool) then printk_regs [EMMC_STATUS; EMMC_INTERRUPT; EMMC_RESP0];; mret SD_BUSY else mret SD_OK.

Definition data_turn (count : Z) : M (Z + Z) :=
  b ← on_mm (inhibited SR_DAT_INHIBIT);
  if (b : bool) then
    let count := count + 1 in
    if decide (count < 500000) then sd_delayus 1;; mret (inl count) else mret (inr count)
  else mret (inr count).
Definition sdWaitForData : M Z :=
  count ← loop (Z.to_nat 500000) data_turn 0;
  b ← aborted (bool_decide (count >= 500000));
  if (b : bool) then printk_regs [EMMC_STATUS; EMMC_INTERRUPT; EMMC_RESP0];; mret SD_BUSY else mret SD_OK.

(** ** Commands *)
(** What [sdSendCommandP] makes of the response, by the type the table has for it. *)
Definition response (cmd : EMMCCommand) (arg resp0 : Z) : M Z :=
  if decide (resp cmd = RESP_NO) then mret SD_OK
  else if decide (resp cmd = RESP_R1 ∨ resp cmd = RESP_R1b) then
    set_card (with_status (u32 resp0));;
    set_card (with_cardState (Z.shiftr (Z.land resp0 ST_CARD_STATE) R1_CARD_STATE_SHIFT));;
    mret (Z.land resp0 (i32 R1_ERRORS_MASK))
  else if decide (resp cmd = RESP_R2I ∨ resp cmd = RESP_R2S) then
    set_card (with_status 0);;
    d0 ← rd EMMC_RESP3; d1 ← rd EMMC_RESP2; d2 ← rd EMMC_RESP1;
    let data := [d0; d1; d2; u32 resp0] in
    set_card (if decide (resp cmd = RESP_R2I) then with_cid data else with_csd data);;
    mret SD_OK
  else if decide (resp cmd = RESP_R3) then
    set_card (with_status 0);; set_card (with_ocr (u32 resp0));; mret SD_OK
  else if decide (resp cmd = RESP_R6) then
    set_card (with_rca (Z.land (u32 resp0) R6_RCA_MASK));;
    let st := Z.lor (Z.lor (Z.lor (u32 (Z.land resp0 0x00001fff)) (u32 (Z.shiftl (Z.land resp0 0x00002000) 6)))
      (u32 (Z.shiftl (Z.land resp0 0x00004000) 8))) (u32 (Z.shiftl (Z.land resp0 0x00008000) 8)) in
    set_card (with_status st);;
    set_card (with_cardState (Z.shiftr (Z.land resp0 ST_CARD_STATE) R1_CARD_STATE_SHIFT));;
    mret (i32 (Z.land st R1_ERRORS_MASK))
  else if decide (resp cmd = RESP_R7) then
    set_card (with_status 0);; mret (if decide (resp0 = arg) then SD_OK else SD_ERROR)
  else panic.

(** [cmd] points to the entry [i] of the table. *)
Definition sdSendCommandP (i arg : Z) : M Z :=
  cmd ← from_option_M (sdCommandTable !! Z.to_nat i);
  busy ← sdWaitForCommand;
  if decide (busy ≠ 0) then mret SD_BUSY else
  set_card (with_last (Z.to_nat i) (u32 arg));;
  v ← rd EMMC_INTERRUPT; wr EMMC_INTERRUPT v;;
  wr EMMC_ARG1 (u32 arg);;
  wr EMMC_CMDTM (code cmd);;
  (if decide (cmd_delay cmd ≠ 0) then sd_delayus (u32 (cmd_delay cmd)) else mret tt);;
  result ← sdWaitForInterrupt INT_CMD_DONE;
  if decide (result ≠ 0) then mret result else
  v ← rd EMMC_RESP0;
  response cmd arg (i32 v).

(** [if ((resp = m)) return fail(resp);] and then [k] *)
Definition or_return (m : M Z) (fail : Z → M Z) (k : M Z) : M Z :=
  r ← m; if decide (r ≠ 0) then fail r else k.

Definition sdSendAppCommand : M Z :=
  c ← gets sdCard;
  if decide (rca c = 0) then sdSendCommandP IX_APP_CMD 0x00000000;; mret SD_OK
  else
    or_return (sdSendCommandP IX_APP_CMD_RCA (i32 (rca c))) sdDebugResponse (
    c ← gets sdCard;
    mret (if decide (Z.land (status c) ST_APP_CMD = 0) then SD_ERROR else SD_OK)).
Definition issue_app (index : Z) : M Z := if decide (index >= IX_APP_CMD_START) then sdSendAppCommand else mret 0.
Definition check_app (index : Z) : M Z :=
  c ← gets sdCard;
  mret (if decide (index >= IX_APP_CMD_START ∧ rca c ≠ 0 ∧ Z.land (status c) ST_APP_CMD = 0) then SD_ERROR_APP_CMD else 0).
Definition sdSendCommand (index : Z) : M Z :=
  or_return (issue_app index) sdDebugResponse (
  cmd ← from_option_M (sdCommandTable !! Z.to_nat index);
  c ← gets sdCard;
  let arg := if decide (cmd_rca cmd = RCA_YES) then i32 (rca c) else 0 in
  or_return (sdSendCommandP index arg) mret (check_app index)).
Definition sdSendCommandA (index arg : Z) : M Z :=
  or_return (issue_app index) sdDebugResponse (
  or_return (sdSendCommandP index arg) mret (check_app index)).

(** ** The card's configuration register *)
Definition scr_turn (st : Z * Z) : M (Z * Z + Z) :=
  let '(numRead, count) := st in
  if decide (numRead < 2) then
    v ← rd EMMC_STATUS;
    if decide (Z.land v SR_READ_AVAILABLE ≠ 0) then
      d ← rd EMMC_DATA;
      set_card (λ c, with_scr (<[Z.to_nat numRead := d]> (scr c)) c);;
      mret (inl (numRead + 1, count))
    else
      sd_delayus 1;;
      let count := count - 1 in
      if decide (count = 0) then mret (inr numRead) else mret (inl (numRead, count))
  else mret (inr numRead).
Definition supports (scr0 flag supp support : Z) : Z := if decide (Z.land scr0 flag ≠ 0) then Z.lor support supp else support.
Definition sdReadSCR : M Z :=
  busy ← sdWaitForData;
  if decide (busy ≠ 0) then mret SD_TIMEOUT else
  wr EMMC_BLKSIZECNT (Z.lor (Z.shiftl 1 16) 8);;
  or_return (sdSendCommand IX_SEND_SCR) sdDebugResponse (
  or_return (sdWaitForInterrupt INT_READ_RDY) sdDebugResponse (
  numRead ← loop (Z.to_nat 100003) scr_turn (0, 100000);
  if decide (numRead ≠ 2) then printk_regs [EMMC_STATUS; EMMC_INTERRUPT; EMMC_RESP0];; mret SD_TIMEOUT else
  set_card (λ c, let s0 := nth 0 (scr c) 0 in
    with_support (supports s0 SCR_CMD_SUPP_SPEED_CLASS SD_SUPP_SPEED_CLASS (supports s0 SCR_CMD_SUPP_SET_BLKCNT SD_SUPP_SET_BLOCK_COUNT
      (supports s0 SCR_SD_BUS_WIDTH_1 SD_SUPP_BUS_WIDTH_1 (supports s0 SCR_SD_BUS_WIDTH_4 SD_SUPP_BUS_WIDTH_4 (support c))))) c);;
  mret SD_OK)).

(** ** Clock and reset *)
Definition clock_turn (count : Z) : M (Z + Z) :=
  st ← rd EMMC_STATUS;
  if decide (Z.land st (Z.lor SR_CMD_INHIBIT SR_DAT_INHIBIT) ≠ 0) then
    let count := count - 1 in
    if decide (count ≠ 0) then sd_delayus 1;; mret (inl count) else mret (inr count)
  else mret (inr count).
(** [EMMC_CONTROL1 &= m;] and [EMMC_CONTROL1 |= m;], for any register *)
Definition clear_bits (r m : Z) : M unit := v ← rd r; wr r (Z.land v m).
Definition set_bits (r m : Z) : M unit := v ← rd r; wr r (Z.lor v m).
Definition control1_lacks (m : Z) : Prelude.M (mmio H) bool := v ← device_get_u32 EMMC_CONTROL1; mret (bool_decide (Z.land v m = 0)).
Definition control1_has (m : Z) : Prelude.M (mmio H) bool := v ← device_get_u32 EMMC_CONTROL1; mret (bool_decide (Z.land v m ≠ 0)).
Definition sdSetClock (freq : Z) : M Z :=
  count ← loop (Z.to_nat 100000) clock_turn 100000;
  if decide (count <= 0) then printk_regs [EMMC_STATUS];; mret SD_ERROR_CLOCK else
  clear_bits EMMC_CONTROL1 (u32 (Z.lnot C1_CLK_EN));;
  sd_delayus 10;;
  (if decide (u32 freq = 0) then crash else mret tt);;
  ver ← gets sdHostVer;
  let cdiv := sdGetClockDivider ver (u32 freq) in
  v ← rd EMMC_CONTROL1; wr EMMC_CONTROL1 (Z.lor (Z.land v 0xffff003f) cdiv);;
  sd_delayus 10;;
  set_bits EMMC_CONTROL1 C1_CLK_EN;;
  sd_delayus 10;;
  count ← wait_while (control1_lacks C1_CLK_STABLE) 10000 10;
  if decide (count <= 0) then mret SD_ERROR_CLOCK else
  printk_regs [EMMC_STATUS; EMMC_CONTROL1];; mret SD_OK.

Definition forget_card (c : SDDescriptor) : SDDescriptor :=
  mkCard (capacity c) (cid c) (csd c) (scr c) 0 (support c) (fileFormat c) 0 0 (init_ c) (absent c) 0 (cardState c) 0 None 0.
Definition sdResetCard (resetType : Z) : M Z :=
  wr EMMC_CONTROL0 0;;
  set_bits EMMC_CONTROL1 (u32 resetType);;
  sd_delayus 10;;
  count ← wait_while (control1_has (u32 resetType)) 10000 10;
  if decide (count <= 0) then mret SD_ERROR_RESET else
  set_bits EMMC_CONTROL1 (Z.lor C1_CLK_INTLEN C1_TOUNIT_MAX);;
  sd_delayus 10;;
  or_return (sdSetClock FREQ_SETUP) mret (
  wr EMMC_IRPT_EN (Z.land (Z.land 0xffffffff (u32 (Z.lnot INT_CMD_DONE))) (u32 (Z.lnot INT_WRITE_RDY)));;
  wr EMMC_IRPT_MASK 0xffffffff;;
  set_card forget_card;;
  sdSendCommand IX_GO_IDLE_STATE).

(** ** Initialisation *)
Definition op_cond_turn (arg count : Z) : M (Z + option Z) :=
  c ← gets sdCard;
  if decide (Z.land (ocr c) R3_COMPLETE = 0) then
    if decide (count ≠ 0) then
      printk_regs [EMMC_STATUS];;
      on_mm (delay 50000);;
      r ← sdSendCommandA IX_APP_SEND_OP_COND arg;
      if decide (r ≠ 0 ∧ r ≠ SD_TIMEOUT) then mret (inr (Some r)) else mret (inl (count - 1))
    else mret (inr None)
  else mret (inr None).
Definition sdAppSendOpCond (arg : Z) : M Z :=
  printk_regs [EMMC_STATUS];;
  r ← sdSendCommandA IX_APP_SEND_OP_COND arg;
  if decide (r ≠ 0 ∧ r ≠ SD_TIMEOUT) then mret r else
  failed ← loop 7 (op_cond_turn arg) 6;
  match failed with
  | Some r => mret r
  | None =>
      c ← gets sdCard;
      mret (if decide (Z.land (ocr c) R3_COMPLETE = 0) then SD_TIMEOUT
            else if decide (Z.land (ocr c) ACMD41_VOLTAGE = 0) then SD_ERROR_VOLTAGE else SD_OK)
  end.
Definition sdSwitchVoltage : M Z := mret SD_OK.

(** [device_put_u32(GPPUD, 2); ... device_put_u32(GPPUDCLK1, 0);] *)
Definition pull_up (pins : Z) : M unit :=
  wr GPPUD 2;; on_mm (delay 150);; wr GPPUDCLK1 pins;; on_mm (delay 150);; wr GPPUD 0;; wr GPPUDCLK1 0.
Definition sdInitGPIO : M unit :=
  clear_bits GPFSEL4 (u32 (Z.lnot (Z.shiftl 7 (7 * 3))));;
  pull_up (Z.shiftl 1 15);;
  set_bits GPHEN1 (Z.shiftl 1 15);;
  set_bits GPFSEL4 (Z.lor (Z.shiftl 7 (8 * 3)) (Z.shiftl 7 (9 * 3)));;
  pull_up (Z.lor (Z.shiftl 1 16) (Z.shiftl 1 17));;
  set_bits GPFSEL5 (Z.lor (Z.lor (Z.lor (Z.shiftl 7 (0 * 3)) (Z.shiftl 7 (1 * 3))) (Z.shiftl 7 (2 * 3))) (Z.shiftl 7 (3 * 3)));;
  pull_up (Z.lor (Z.lor (Z.lor (Z.shiftl 1 18) (Z.shiftl 1 19)) (Z.shiftl 1 20)) (Z.shiftl 1 21)).
Definition sdGetBaseClock : M Z :=
  v ← on_mm mbox_get_clock_rate;
  modify (λ s, mkSst (mm s) (sdCard s) (sdHostVer s) v);;
  mret (if decide (v = -1) then SD_ERROR else SD_OK).

Definition sdParseCSD : M unit := set_card (λ c, with_size (csd_capacity (csd c)) (csd_fileFormat (csd c)) c).
(** [sdParseCID] only prints; its message reads the name of the type. *)
Definition sdParseCID : M unit :=
  c ← gets sdCard; _ ← from_option_M (SD_TYPE_NAME !! Z.to_nat (type_ c)); mret tt.

(** Find out what kind of card there is: [SEND_IF_COND] and [SD_SENDOPCOND]. *)
Definition sdInit_type (k : M Z) : M Z :=
  r ← sdSendCommandA IX_SEND_IF_COND 0x000001AA;
  if decide (r = SD_OK) then
    on_mm (delay 50);;
    or_return (sdAppSendOpCond ACMD41_ARG_HC) sdDebugResponse (
    set_card (λ c, with_type (if decide (Z.land (ocr c) R3_CCS ≠ 0) then SD_TYPE_2_HC else SD_TYPE_2_SC) c);; k)
  else if decide (r = SD_BUSY) then mret r
  else
    st ← rd EMMC_STATUS;
    or_return (if decide (Z.land st SR_CMD_INHIBIT ≠ 0) then sdResetCard C1_SRST_HC else mret 0) mret (
    or_return (sdAppSendOpCond ACMD41_ARG_SC) sdDebugResponse (
    set_card (with_type SD_TYPE_1);; k)).
(** From the second [sdSetClock] to the end; [oldCID] is [None] when it was not
    written. *)
Definition sdInit_finish (oldCID : option (list Z)) : M Z :=
  or_return (sdSetClock FREQ_NORMAL) sdDebugResponse (
  or_return (sdSendCommand IX_CARD_SELECT) sdDebugResponse (
  or_return sdReadSCR sdDebugResponse (
  c ← gets sdCard;
  or_return (if decide (Z.land (support c) SD_SUPP_BUS_WIDTH_4 ≠ 0) then
      or_return (sdSendCommandA IX_SET_BUS_WIDTH (Z.lor (i32 (rca c)) 2)) mret (set_bits EMMC_CONTROL0 C0_HCTL_DWITDH;; mret 0)
    else mret 0) sdDebugResponse (
  or_return (sdSendCommandA IX_SET_BLOCKLEN 512) sdDebugResponse (
  sdParseCID;;
  set_card (with_init 1);;
  c ← gets sdCard;
  old ← from_option_M oldCID;
  mret (if decide (old = cid c) then SD_CARD_REINSERTED else SD_CARD_CHANGED)))))).
(** From [ALL_SEND_CID] to the end. *)
Definition sdInit_select (oldCID : option (list Z)) : M Z :=
  c ← gets sdCard;
  or_return (if decide (Z.land (ocr c) R3_S18A ≠ 0) then sdSwitchVoltage else mret 0) mret (
  or_return (sdSendCommand IX_ALL_SEND_CID) sdDebugResponse (
  or_return (sdSendCommand IX_SEND_REL_ADDR) sdDebugResponse (
  or_return (sdSendCommand IX_SEND_CSD) sdDebugResponse (
  sdParseCSD;;
  c ← gets sdCard;
  if decide (fileFormat c ≠ CSD3VN_FILE_FORMAT_DOSFAT ∧ fileFormat c ≠ CSD3VN_FILE_FORMAT_HDD) then mret SD_ERROR else
  sdInit_finish oldCID)))).
(** From the reading of the version of the host on. *)
Definition sdInit_reset (oldCID : option (list Z)) : M Z :=
  ver ← rd EMMC_SLOTISR_VER;
  modify (λ s, mkSst (mm s) (sdCard s) (Z.shiftr (Z.land ver HOST_SPEC_NUM) HOST_SPEC_NUM_SHIFT) (sdBaseClock s));;
  or_return sdGetBaseClock mret (
  or_return (sdResetCard C1_SRST_HC) mret (
  sdInit_type (sdInit_select oldCID))).
(** The identification to compare with, when the card has to be initialised. *)
Definition take_oldCID (cardEjected : Z) : M (option (list Z)) :=
  c ← gets sdCard;
  if decide (cardEjected ≠ 0 ∧ init_ c ≠ 0) then set_card (with_init 0);; mret (Some (cid c))
  else if decide (init_ c = 0) then mret (Some [0; 0; 0; 0]) else mret None.
Definition sdInit_present (cardEjected : Z) : M Z :=
  set_card (with_absent 0);;
  oldCID ← take_oldCID cardEjected;
  c ← gets sdCard;
  if decide (init_ c ≠ 0) then mret SD_OK else sdInit_reset oldCID.
Definition sdInit : M Z :=
  c ← gets sdCard;
  (if decide (init_ c = 0) then sdInitGPIO else mret tt);;
  let cardAbsent := 0 in
  v ← rd GPEDS1;
  let cardEjected := Z.land v (Z.shiftl 1 (47 - 32)) in
  if decide (cardAbsent ≠ 0) then set_card (λ c, with_absent 1 (with_init 0 c));; mret SD_CARD_ABSENT
  else sdInit_present cardEjected.
End driver.
