(* ===== verification/SdSpec.v ===== *)
(** * The SD card driver: waiting and commands

    Every wait and every command of the driver returns, whatever the card does; what
    they answer, and what they change of the driver's state. *)
From S2P Require Import Prelude Words Kalloc Traps Mmio SdRegs Sd.

(** ** Register accesses return *)
Section mmio_facts.
Context {H : Type} `{CounterRuns H}.

(** [m] returns, with an answer that satisfies [P]. *)
Definition returns {A} (m : M (mmio H) A) (P : A → Prop) : Prop := ∀ x, ∃ a x', m x = Done (a, x') ∧ P a.

Lemma returns_ret {A} (a : A) (P : A → Prop) : P a → returns (mret a) P.
Proof. intros Ha x. by exists a, x. Qed.
Lemma returns_bind {A B} (m : M (mmio H) A) (k : A → M (mmio H) B) P Q :
  returns m P → (∀ a, P a → returns (k a) Q) → returns (m ≫= k) Q.
Proof.
  intros Hm Hk x. destruct (Hm x) as (a & x1 & E & Ha). destruct (Hk a Ha x1) as (b & x2 & E2 & Hb).
  exists b, x2. by m_step E.
Qed.
Lemma returns_mono {A} (m : M (mmio H) A) (P Q : A → Prop) : returns m P → (∀ a, P a → Q a) → returns m Q.
Proof. intros Hm HPQ x. destruct (Hm x) as (a & x' & E & Ha). eauto 6. Qed.
Lemma returns_get r : returns (device_get_u32 r) (λ v, in_u 32 v).
Proof.
  intros x. unfold device_get_u32. destruct (dev_load r (hw x)) as [v h]. eexists _, _. split; [done|].
  apply wrap_range. lia.
Qed.
Lemma returns_put r v : returns (device_put_u32 r v) (λ _, True).
Proof. intros x. by eexists tt, _. Qed.
Lemma returns_delay n : returns (delay n) (λ _, True).
Proof. intros x. by eexists tt, _. Qed.

Lemma counter_loop (d : nat) x v0 x0 : read_counter x0 = Done (v0, x) →
  ∃ x', loop (S d) (λ _ : unit, now ← read_counter; mret (if decide (now <= v0 + Z.of_nat d) then inl tt else inr tt)) tt x = Done (tt, x').
Proof.
  assert (Hnext : ∀ v y y0, read_counter y0 = Done (v, y) → ∃ w y', read_counter y = Done (w, y') ∧ v < w).
  { intros v y y0 E. pose proof (counter_advances (hw y0)) as Hlt. unfold read_counter in *.
    destruct (dev_count (hw y0)) as [v' h] eqn:E0. injection E as -> <-. cbn [fst snd] in *. cbn [hw].
    destruct (dev_count h) as [w h']. eexists w, _. split; [done|exact Hlt]. }
  revert x v0 x0. induction d as [|d IH]; intros x v0 x0 E.
  - destruct (Hnext _ _ _ E) as (w & y & E1 & Hw). exists y. rewrite loop_S, bind_assoc. m_step E1.
    rewrite decide_False by lia. done.
  - destruct (Hnext _ _ _ E) as (w & y & E1 & Hw). rewrite loop_S, bind_assoc. m_step E1.
    destruct (decide (w <= v0 + Z.of_nat (S d))) as [Hle|Hgt]; [|by exists y].
    destruct (IH _ _ _ E1) as [y' E2].
    assert (Hm : ∀ n a b z z', a ≤ b → loop n (λ _ : unit, now ← read_counter; mret (if decide (now <= b) then inl tt else inr tt)) tt z = Done (tt, z') →
      ∃ z'', loop n (λ _ : unit, now ← read_counter; mret (if decide (now <= a) then inl tt else inr tt)) tt z = Done (tt, z'')).
    { clear. induction n as [|n IHn]; intros a b z z' Hab E; [done|]. rewrite loop_S, bind_assoc in E. rewrite loop_S, bind_assoc.
      apply bind_inv in E as (t & z1 & E1 & E2). m_step E1. destruct (decide (t <= b)).
      - destruct (decide (t <= a)); [by apply (IHn _ _ _ _ Hab E2)|by exists z1].
      - rewrite decide_False by lia. by exists z1. }
    apply (Hm _ _ _ _ _ (ltac:(lia) : v0 + Z.of_nat (S d) ≤ w + Z.of_nat d) E2).
Qed.
Lemma returns_delay_us n : returns (delay_us n) (λ _, True).
Proof.
  intros x. unfold delay_us. m_step (ret_done (dev_freq) x).
  assert (E : ∃ v y, read_counter x = Done (v, y)) by (unfold read_counter; destruct (dev_count (hw x)) as [v h]; eauto).
  destruct E as (v & y & E). m_step E. pose proof (wrap_range 64 (dev_freq / 1000000 * n) ltac:(lia)) as [Hr _].
  set (d := u64 (dev_freq / 1000000 * n)) in *. replace (Z.to_nat (d + 1)) with (S (Z.to_nat d)) by lia.
  destruct (counter_loop (Z.to_nat d) y v x E) as [x' E']. rewrite Z2Nat.id in E' by done. by exists tt, x'.
Qed.

(** [while (cond && count--) wait;] leaves [count] between [-1] and its start. *)
Lemma returns_countdown cond wait count : returns cond (λ _, True) → returns wait (λ _, True) → 0 <= count →
  returns (countdown cond wait count) (λ c, -1 <= c <= count).
Proof.
  intros Hc Hw Hn. unfold countdown. replace (Z.to_nat (count + 1)) with (S (Z.to_nat count)) by lia.
  assert (Hgen : ∀ n c, Z.to_nat c = n → 0 <= c <= count → returns (loop (S n) (countdown_turn cond wait) c) (λ c, -1 <= c <= count)).
  { induction n as [|n IH]; intros c Hcn Hc0 x; rewrite loop_S; unfold countdown_turn; rewrite bind_assoc.
    - destruct (Hc x) as (b & x1 & E & _). m_step E. destruct b.
      + rewrite decide_False by lia. exists (c - 1), x1. split; [done|lia].
      + exists c, x1. split; [done|lia].
    - destruct (Hc x) as (b & x1 & E & _). m_step E. destruct b.
      + rewrite decide_True by lia. rewrite bind_assoc. destruct (Hw x1) as ([] & x2 & E2 & _). m_step E2.
        destruct (IH (c - 1) ltac:(lia) ltac:(lia) x2) as (c' & x3 & E3 & Hc'). exists c', x3. split; [exact E3|exact Hc'].
      + exists c, x1. split; [done|lia]. }
  by apply Hgen.
Qed.
End mmio_facts.

(** ** Operations of the driver

    [runs c m Q]: with the descriptor [c], [m] returns an answer and a descriptor that
    satisfy [Q], whatever the devices do. *)
Section driver_facts.
Context {H : Type} `{CounterRuns H}.
Implicit Types (c : SDDescriptor) (r i arg : Z).
Definition runs {A} (c : SDDescriptor) (m : M (sst H) A) (Q : A → SDDescriptor → Prop) : Prop :=
  ∀ s, sdCard s = c → ∃ a s', m s = Done (a, s') ∧ Q a (sdCard s').

Lemma runs_ret {A} c (a : A) (Q : A → SDDescriptor → Prop) : Q a c → runs c (mret a) Q.
Proof. intros HQ s <-. by exists a, s. Qed.
Lemma runs_bind {A B} c (m : M (sst H) A) (k : A → M (sst H) B) Q Q' :
  runs c m Q → (∀ a c', Q a c' → runs c' (k a) Q') → runs c (m ≫= k) Q'.
Proof.
  intros Hm Hk s Hs. destruct (Hm s Hs) as (a & s1 & E & HQ). destruct (Hk a _ HQ s1 eq_refl) as (b & s2 & E2 & HQ').
  exists b, s2. by m_step E.
Qed.
Lemma runs_mono {A} c (m : M (sst H) A) (Q Q' : A → SDDescriptor → Prop) : runs c m Q → (∀ a c', Q a c' → Q' a c') → runs c m Q'.
Proof. intros Hm HQ s Hs. destruct (Hm s Hs) as (a & s1 & E & Ha). eauto 6. Qed.
Lemma runs_mm {A} c (m : M (mmio H) A) P : returns m P → runs c (on_mm m) (λ a c', c' = c ∧ P a).
Proof. intros Hm s <-. destruct (Hm (mm s)) as (a & x & E & Ha). exists a. unfold on_mm. rewrite E. by eexists. Qed.
Lemma runs_set_card c f : runs c (set_card f) (λ _ c', c' = f c).
Proof. intros s <-. by eexists tt, _. Qed.
Lemma runs_card c : runs c (gets sdCard) (λ a c', a = c ∧ c' = c).
Proof. intros s <-. by eexists _, s. Qed.
(** Reading or changing a global other than the descriptor. *)
Lemma runs_gets {A} c (f : sst H → A) : runs c (gets f) (λ _ c', c' = c).
Proof. intros s <-. by eexists _, s. Qed.
Lemma runs_modify c (f : sst H → sst H) : (∀ s, sdCard (f s) = sdCard s) → runs c (modify f) (λ _ c', c' = c).
Proof. intros Hf s <-. eexists tt, _. split; [done|]. apply Hf. Qed.
Lemma runs_if {A} c (P : Prop) `{!Decision P} (m1 m2 : M (sst H) A) Q : (P → runs c m1 Q) → (¬ P → runs c m2 Q) → runs c (if decide P then m1 else m2) Q.
Proof. intros. destruct (decide P); auto. Qed.
(** A loop whose turns keep [I] and decrease a measure. *)
Lemma runs_loop {A B} (body : A → M (sst H) (A + B)) (I : A → SDDescriptor → Prop) (Q : B → SDDescriptor → Prop) (meas : A → nat) n a c :
  (∀ a c, I a c → runs c (body a) (λ o c', match o with inl a' => I a' c' ∧ (meas a' < meas a)%nat | inr b => Q b c' end)) →
  I a c → (meas a < n)%nat → runs c (loop n body a) Q.
Proof.
  intros Hb. revert a c. induction n as [|n IH]; intros a c HI Hn; [lia|]. rewrite loop_S. eapply runs_bind; [by apply Hb|].
  intros [a'|b] c'; cbn beta iota.
  - intros [HI' Hm]. apply IH; [done|lia].
  - apply runs_ret.
Qed.

Lemma runs_rd c r : runs c (rd r) (λ v c', c' = c ∧ in_u 32 v).
Proof. apply runs_mm, returns_get. Qed.
Lemma runs_wr c r v : runs c (wr r v) (λ _ c', c' = c).
Proof. eapply runs_mono; [apply runs_mm, returns_put|]. by intros ?? [? _]. Qed.
Lemma runs_delayus c n : runs c (sd_delayus n) (λ _ c', c' = c).
Proof. eapply runs_mono; [apply runs_mm, returns_delay_us|]. by intros ?? [? _]. Qed.
Lemma runs_delay c n : runs c (on_mm (delay n)) (λ _ c', c' = c).
Proof. eapply runs_mono; [apply runs_mm, returns_delay|]. by intros ?? [? _]. Qed.
Lemma runs_printk c rs : runs c (printk_regs rs) (λ _ c', c' = c).
Proof.
  revert c. induction rs as [|r rs IH]; intros c; [by apply runs_ret|]. unfold printk_regs. cbn [for_each].
  eapply (runs_bind _ _ _ (λ _ c', c' = c)); [|intros [] c' ->; apply IH].
  eapply runs_bind; [apply runs_rd|]. cbv beta. intros v c' [-> _]. by apply runs_ret.
Qed.
Lemma runs_wait c cond count us : returns cond (λ _, True) → 0 <= count → runs c (wait_while cond count us) (λ n c', c' = c ∧ -1 <= n <= count).
Proof. intros Hc Hn. apply runs_mm, returns_countdown; [done|apply returns_delay_us|done]. Qed.
Lemma runs_clear c r m : runs c (clear_bits r m) (λ _ c', c' = c).
Proof. eapply runs_bind; [apply runs_rd|]. cbv beta. intros v c' [-> _]. apply runs_wr. Qed.
Lemma runs_set_bits c r m : runs c (set_bits r m) (λ _ c', c' = c).
Proof. eapply runs_bind; [apply runs_rd|]. cbv beta. intros v c' [-> _]. apply runs_wr. Qed.
End driver_facts.

Create HintDb runs.
#[export] Hint Resolve runs_gets | 2 : runs.
#[export] Hint Resolve runs_ret runs_rd runs_wr runs_delayus runs_delay runs_printk runs_clear runs_set_bits runs_set_card : runs.
#[export] Hint Resolve runs_card | 0 : runs.
(** One step of a computation, by the lemma for its first operation. *)
Ltac run_step :=
  eapply runs_bind; [solve [eauto 2 with runs]|]; cbv beta; intros ? ?;
  repeat match goal with
  | |- _ ∧ _ → _ => intros [? ?]
  | |- _ = _ → _ => intros ->
  | |- _ → _ => intros ?
  end; subst.

(** ** Waits and commands *)
Section commands.
Context {H : Type} `{CounterRuns H}.
Implicit Types (c : SDDescriptor) (r i arg : Z).
Abbreviation runs := (runs (H := H)).

Lemma returns_no_interrupt mask : returns (H := H) (no_interrupt mask) (λ _, True).
Proof. eapply returns_bind; [apply returns_get|]. intros v _. by apply returns_ret. Qed.
Lemma returns_inhibited mask : returns (H := H) (inhibited mask) (λ _, True).
Proof.
  eapply returns_bind; [apply returns_get|]. intros v _. destruct (decide _); [apply returns_no_interrupt|by apply returns_ret].
Qed.
Lemma runs_aborted c b : runs c (aborted b) (λ _ c', c' = c).
Proof. unfold aborted. destruct b; [by apply runs_ret|]. run_step. by apply runs_ret. Qed.

Lemma runs_WaitForInterrupt c mask : runs c (sdWaitForInterrupt mask) (λ r c', c' = c ∧ (r = SD_OK ∨ r = SD_ERROR ∨ r = SD_TIMEOUT)).
Proof.
  unfold sdWaitForInterrupt. eapply runs_bind; [apply runs_wait; [apply returns_no_interrupt|lia]|]. cbv beta. intros n c' [-> _].
  run_step. apply runs_if; intros _; [|apply runs_if; intros _]; repeat run_step; apply runs_ret; auto.
Qed.
Lemma runs_WaitForCommand c : runs c sdWaitForCommand (λ r c', c' = c ∧ (r = SD_OK ∨ r = SD_BUSY)).
Proof.
  unfold sdWaitForCommand. eapply runs_bind; [apply runs_wait; [apply returns_inhibited|lia]|]. cbv beta. intros n c' [-> _].
  eapply runs_bind; [apply runs_aborted|]. cbv beta. intros b c' ->. destruct b; [run_step|]; apply runs_ret; auto.
Qed.
Lemma runs_WaitForData c : runs c sdWaitForData (λ r c', c' = c ∧ (r = SD_OK ∨ r = SD_BUSY)).
Proof.
  unfold sdWaitForData. eapply runs_bind.
  { apply (runs_loop _ (λ n c', c' = c ∧ 0 <= n < 500000) (λ _ c', c' = c) (λ n, Z.to_nat (499999 - n))); [|split; [done|lia]|lia].
    intros n c' [-> Hn]. unfold data_turn. eapply runs_bind; [apply runs_mm, returns_inhibited|]. cbv beta. intros b c' [-> _].
    destruct b; [|by apply runs_ret]. apply runs_if; intros Hlt; [run_step; apply runs_ret; split; [split; [done|lia]|lia]|by apply runs_ret]. }
  cbv beta. intros n c' ->. eapply runs_bind; [apply runs_aborted|]. cbv beta. intros b c' ->. destruct b; [run_step|]; apply runs_ret; auto.
Qed.

(** The descriptor points to a command of the table. *)
Definition named c : Prop := ∃ k : nat, lastCmd c = Some k ∧ (k < 39)%nat.
Lemma runs_Debug c r : named c → runs c (sdDebugResponse r) (λ r' c', c' = c ∧ r' = r).
Proof.
  intros (i & Hi & Hlt). unfold sdDebugResponse, get_lastCmd.
  destruct (lookup_lt_is_Some_2 sdCommandTable i Hlt) as [cmd Hcmd].
  eapply (runs_bind _ _ _ (λ _ c', c' = c)).
  { eapply runs_bind; [apply runs_card|]. cbv beta. intros a c' [-> ->]. rewrite Hi. eapply runs_bind; [apply (runs_ret _ i (λ a c', a = i ∧ c' = c)); by split|].
    cbv beta. intros a c' [-> ->]. rewrite Hcmd. by apply runs_ret. }
  intros _ c' ->. repeat run_step. by apply runs_ret.
Qed.

(** What no command changes. *)
Definition static c := (capacity c, scr c, support c, fileFormat c, type_ c, uhsi c, init_ c, absent c).
Definition resp_of (i : Z) : Z := from_option resp 0 (sdCommandTable !! Z.to_nat i).
(** What a command with the response [ty] leaves alone. *)
Definition frame (ty : Z) c c' : Prop :=
  static c' = static c ∧ (ty ≠ RESP_R2I → cid c' = cid c) ∧ (ty ≠ RESP_R2S → csd c' = csd c) ∧
  (ty ≠ RESP_R3 → ocr c' = ocr c) ∧ (ty ≠ RESP_R6 → rca c' = rca c).
Lemma frame_refl ty c : frame ty c c.
Proof. done. Qed.
(** A result that is none of those that tell success. *)
Definition plain r : Prop := r ≠ SD_CARD_CHANGED ∧ r ≠ SD_CARD_REINSERTED.

Lemma low_bits_plain r : Z.land r 11 = 0 → plain r.
Proof. intros Hr. split; intros ->; discriminate. Qed.
Lemma i32_mod16 x : i32 x mod 16 = x mod 16.
Proof.
  unfold swrap. pose proof (Z.div_mod (x + 2 ^ (32 - 1)) (2 ^ 32) ltac:(lia)) as E.
  replace ((x + 2 ^ (32 - 1)) mod 2 ^ 32 - 2 ^ (32 - 1)) with (x + (- ((x + 2 ^ (32 - 1)) / 2 ^ 32) * 2 ^ 28) * 16) by lia.
  apply Z.mod_add. lia.
Qed.
Lemma land11_mod16 x : Z.land x 11 = Z.land (x mod 16) 11.
Proof. change 16 with (2 ^ 4). rewrite <-Z.land_ones by lia. rewrite <-Z.land_assoc. by change (Z.land (Z.ones 4) 11) with 11. Qed.
Lemma i32_low x : Z.land (i32 x) 11 = Z.land x 11.
Proof. by rewrite land11_mod16, i32_mod16, <-land11_mod16. Qed.
Lemma errors_plain x : plain (Z.land x (i32 R1_ERRORS_MASK)).
Proof. apply low_bits_plain. rewrite <-Z.land_assoc. change (Z.land (i32 R1_ERRORS_MASK) 11) with 0. apply Z.land_0_r. Qed.
Lemma i32_errors_plain x : plain (i32 (Z.land x R1_ERRORS_MASK)).
Proof. apply low_bits_plain. rewrite i32_low, <-Z.land_assoc. change (Z.land R1_ERRORS_MASK 11) with 0. apply Z.land_0_r. Qed.

Lemma table_resps i : Forall (λ cmd, resp cmd ∈ [RESP_NO; RESP_R1; RESP_R1b; RESP_R2I; RESP_R2S; RESP_R3; RESP_R6; RESP_R7]) sdCommandTable.
Proof. apply (bool_decide_unpack _). by vm_compute. Qed.

Lemma runs_response c cmd arg resp0 : resp cmd ∈ [RESP_NO; RESP_R1; RESP_R1b; RESP_R2I; RESP_R2S; RESP_R3; RESP_R6; RESP_R7] →
  runs c (response cmd arg resp0) (λ r c', plain r ∧ frame (resp cmd) c c' ∧ lastCmd c' = lastCmd c).
Proof.
  intros Hin. unfold response.
  apply runs_if; intros Hy0; [by apply runs_ret|]. apply runs_if; intros Hy1; [repeat run_step; apply runs_ret; split; [apply errors_plain|done]|].
  apply runs_if; intros Hy2.
  { repeat run_step. apply runs_ret. split; [done|].
    case_decide as Hi; cbn; (split; [|done]); unfold frame; cbn; (split; [done|]); split_and!; try done; by destruct Hy2. }
  apply runs_if; intros Hy3; [repeat run_step; apply runs_ret; split; [done|split; [|done]]; unfold frame; cbn; by rewrite Hy3|].
  apply runs_if; intros Hy6; [repeat run_step; apply runs_ret; split; [apply i32_errors_plain|split; [|done]]; unfold frame; cbn; by rewrite Hy6|].
  apply runs_if; intros Hy7; [run_step; apply runs_ret; by case_decide|].
  exfalso. repeat (apply elem_of_cons in Hin as [Hin|Hin]; [tauto|]). by apply elem_of_nil in Hin.
Qed.

(** The result of sending the command [i]. *)
Definition sent i c r c' : Prop :=
  plain r ∧ frame (resp_of i) c c' ∧ (c' = c ∧ r = SD_BUSY ∨ lastCmd c' = Some (Z.to_nat i)).
Lemma runs_SendCommandP c i arg : 0 <= i < 39 → runs c (sdSendCommandP i arg) (sent i c).
Proof.
  intros Hi. unfold sdSendCommandP. destruct (lookup_lt_is_Some_2 sdCommandTable (Z.to_nat i)) as [cmd Hcmd]; [cbn; lia|].
  assert (Hty : resp_of i = resp cmd) by (unfold resp_of; by rewrite Hcmd).
  eapply runs_bind; [rewrite Hcmd; apply (runs_ret _ cmd (λ a c', a = cmd ∧ c' = c)); by split|]. cbv beta. intros a c' [-> ->].
  eapply runs_bind; [apply runs_WaitForCommand|]. cbv beta. intros b c' [-> _].
  apply runs_if; intros _; [apply runs_ret; split; [done|]; split; [apply frame_refl|by left]|].
  run_step. run_step. run_step. run_step. run_step.
  set (c1 := with_last (Z.to_nat i) (u32 arg) c). eapply (runs_bind _ _ _ (λ _ c', c' = c1)).
  { apply runs_if; intros _; [apply runs_delayus|by apply runs_ret]. }
  intros _ c' ->. eapply runs_bind; [apply runs_WaitForInterrupt|]. cbv beta. intros res c' [-> Hres].
  apply runs_if; intros _; [apply runs_ret; split; [by destruct Hres as [->|[->| ->]]|]; split; [done|by right]|].
  run_step. eapply runs_mono; [apply runs_response|]; cbv beta.
  - pose proof (table_resps 0) as Hall. rewrite Forall_lookup in Hall. by apply (Hall (Z.to_nat i)).
  - intros r' c' (Hp & Hf & Hl). split; [done|]. rewrite Hty. split; [exact Hf|]. right. by rewrite Hl.
Qed.
End commands.
