(* ===== verification/SdArith.v ===== *)
(** * The SD card driver: arithmetic

    [fls_long] and [roundup_pow_of_two], the divider of the clock and the capacity of
    the card. *)
From S2P Require Import Prelude Words Kalloc Traps Mmio SdRegs Sd.

(** ** Fields of words *)
Lemma field w mask s n : 0 <= s → 0 <= n → mask = Z.shiftl (Z.ones n) s → Z.shiftr (Z.land w mask) s = w / 2 ^ s mod 2 ^ n.
Proof.
  intros Hs Hn ->. rewrite Z.shiftr_land, Z.shiftr_shiftl_l, Z.sub_diag, Z.shiftl_0_r, Z.land_ones, Z.shiftr_div_pow2 by done. done.
Qed.
Lemma high_clear x s n : 0 <= s → 0 <= n → 0 <= x < 2 ^ (s + n) → Z.land x (Z.shiftl (Z.ones n) s) = 0 ↔ x < 2 ^ s.
Proof.
  intros Hs Hn Hx. rewrite Z.pow_add_r in Hx by done.
  assert (Hd : 0 <= x / 2 ^ s < 2 ^ n) by (split; [apply Z.div_pos; lia|apply Z.div_lt_upper_bound; lia]).
  pose proof (field x _ s n Hs Hn eq_refl) as E. rewrite Z.mod_small in E by done. split; intros Hz.
  - rewrite Hz, Z.shiftr_0_l in E. symmetry in E. apply Z.div_small_iff in E; lia.
  - destruct (decide (x = 0)) as [->|]; [apply Z.land_0_l|]. apply Z.bits_inj'. intros i Hi. rewrite Z.land_spec, Z.shiftl_spec, Z.bits_0 by done.
    destruct (decide (i < s)); [rewrite (Z.testbit_neg_r _ (i - s)) by lia; apply andb_false_r|].
    rewrite (Z.bits_above_log2 x i); [done|lia|]. apply Z.log2_lt_pow2; [lia|].
    apply Z.lt_le_trans with (2 ^ s); [done|]. apply Z.pow_le_mono_r; lia.
Qed.

(** ** [fls_long] *)
(** One of its steps: the top [k] bits of a word with one among the top [2 k]. *)
Lemma fls_step x r k mask : 0 < k < 32 → mask = Z.shiftl (Z.ones k) (32 - k) → 0 < x < 2 ^ 32 → 2 ^ (32 - 2 * k) <= x →
  let '(x', r') := if decide (Z.land x mask = 0) then (u64 (Z.shiftl x k), r - k) else (x, r) in
  0 < x' < 2 ^ 32 ∧ 2 ^ (32 - k) <= x' ∧ ∃ d, 0 <= d ∧ x' = x * 2 ^ d ∧ r' = r - d.
Proof.
  intros Hk -> Hx Hlow. assert (Hpow : 2 ^ 32 = 2 ^ (32 - k) * 2 ^ k) by (rewrite <-Z.pow_add_r by lia; f_equal; lia).
  pose proof (Z.pow_pos_nonneg 2 k ltac:(lia) ltac:(lia)) as Hk0.
  destruct (decide _) as [Hz|Hnz].
  - apply high_clear in Hz; [|lia|lia|replace (32 - k + k) with 32 by lia; lia].
    rewrite Z.shiftl_mul_pow2 by lia. rewrite u64_small by (unfold in_u; nia).
    split; [nia|]. split; [|exists k; lia].
    destruct (decide (2 * k <= 32)).
    + replace (32 - k) with (32 - 2 * k + k) by lia. rewrite Z.pow_add_r by lia. nia.
    + assert (2 ^ (32 - k) <= 2 ^ k) by (apply Z.pow_le_mono_r; lia). nia.
  - split; [lia|]. split; [|exists 0; rewrite Z.pow_0_r; lia]. rewrite high_clear in Hnz by (try lia; replace (32 - k + k) with 32 by lia; lia). lia.
Qed.
(** [fls_long] is the number of bits of a 32-bit word. *)
Lemma fls_long_spec x : 0 < x < 2 ^ 32 → 1 <= fls_long x <= 32 ∧ 2 ^ (fls_long x - 1) <= x < 2 ^ fls_long x.
Proof.
  intros Hx. unfold fls_long. rewrite decide_False by lia.
  pose proof (fls_step x 32 16 0xffff0000 ltac:(lia) eq_refl Hx ltac:(lia)) as H1. destruct (if decide _ then _ else _) as [x1 r1] in H1 |- *.
  destruct H1 as (Hx1 & Hl1 & d1 & Hd1 & E1 & R1).
  pose proof (fls_step x1 r1 8 0xff000000 ltac:(lia) eq_refl Hx1 ltac:(lia)) as H2. destruct (if decide _ then _ else _) as [x2 r2] in H2 |- *.
  destruct H2 as (Hx2 & Hl2 & d2 & Hd2 & E2 & R2).
  pose proof (fls_step x2 r2 4 0xf0000000 ltac:(lia) eq_refl Hx2 ltac:(lia)) as H3. destruct (if decide _ then _ else _) as [x3 r3] in H3 |- *.
  destruct H3 as (Hx3 & Hl3 & d3 & Hd3 & E3 & R3).
  pose proof (fls_step x3 r3 2 0xc0000000 ltac:(lia) eq_refl Hx3 ltac:(lia)) as H4. destruct (if decide _ then _ else _) as [x4 r4] in H4 |- *.
  destruct H4 as (Hx4 & Hl4 & d4 & Hd4 & E4 & R4).
  pose proof (fls_step x4 r4 1 0x80000000 ltac:(lia) eq_refl Hx4 ltac:(lia)) as H5.
  assert (H5' : ∃ x5, 0 < x5 < 2 ^ 32 ∧ 2 ^ 31 <= x5 ∧ ∃ d, 0 <= d ∧ x5 = x4 * 2 ^ d ∧
    (if decide (Z.land x4 0x80000000 = 0) then r4 - 1 else r4) = r4 - d).
  { destruct (decide _) in H5 |- *; destruct H5 as (? & ? & ?); eauto. }
  destruct H5' as (x5 & Hx5 & Hl5 & d5 & Hd5 & E5 & ->). set (d := d1 + d2 + d3 + d4 + d5).
  assert (E : x5 = x * 2 ^ d) by (unfold d; rewrite !Z.pow_add_r by lia; subst; ring).
  assert (Hd : 0 <= d <= 31).
  { split; [lia|]. destruct (decide (d <= 31)); [done|]. assert (2 ^ 32 <= 2 ^ d) by (apply Z.pow_le_mono_r; lia). nia. }
  replace (r4 - d5) with (32 - d) by lia.
  assert (H31 : 2 ^ 31 = 2 ^ (32 - d - 1) * 2 ^ d) by (rewrite <-Z.pow_add_r by lia; f_equal; lia).
  assert (H32 : 2 ^ 32 = 2 ^ (32 - d) * 2 ^ d) by (rewrite <-Z.pow_add_r by lia; f_equal; lia).
  split; [lia|]. split; nia.
Qed.

(** [roundup_pow_of_two] is the least power of two that is not smaller. *)
Lemma roundup_spec x : 1 <= x <= 2 ^ 32 → ∃ k, roundup_pow_of_two x = 2 ^ k ∧ x <= 2 ^ k < 2 * x.
Proof.
  intros Hx. unfold roundup_pow_of_two. rewrite (u64_small (x - 1)) by (unfold in_u; lia).
  destruct (decide (x = 1)) as [->|]; [exists 0; vm_compute; split; [done|split; discriminate || done]|].
  destruct (fls_long_spec (x - 1) ltac:(lia)) as (Hr & Hlo & Hhi). exists (fls_long (x - 1)). set (m := fls_long (x - 1)) in *. clearbody m.
  rewrite Z.shiftl_mul_pow2, Z.mul_1_l by lia.
  assert (E : 2 ^ m = 2 * 2 ^ (m - 1)) by (rewrite <-Z.pow_succ_r by lia; f_equal; lia).
  assert (2 ^ m <= 2 ^ 32) by (apply Z.pow_le_mono_r; lia).
  pose proof (Z.pow_pos_nonneg 2 m ltac:(lia) ltac:(lia)). rewrite u64_small by (unfold in_u; lia). lia.
Qed.

(** ** The divider of the clock *)
(** The divisor that a value of [EMMC_CONTROL1] asks for: bits 15 to 8, and above
    them bits 7 and 6. *)
Definition divisor_of (v : Z) : Z := Z.land (Z.shiftr v 8) 0xff + 256 * Z.land (Z.shiftr v 6) 3.
(** The divisor that [sdGetClockDivider] chooses. *)
Definition divisor (ver freq : Z) : Z :=
  let closest := 41666666 / freq in
  if decide (ver > HOST_SPEC_V2) then Z.max 2 closest
  else if decide (closest = 0 ∨ closest > 256) then 128
  else if decide (closest <= 4) then 2 else 2 ^ (fls_long (closest - 1) - 1).

Definition pack (ver div : Z) : Z :=
  Z.shiftl (Z.land div 0x0ff) 8 + (if decide (ver > HOST_SPEC_V2) then Z.shiftr (Z.land div 0x300) 2 else 0).
Lemma pack_spec : Forall (λ d, divisor_of (pack 2 d) = d ∧ Z.land (pack 2 d) 0xffff003f = 0 ∧ u32 (pack 2 d) = pack 2 d ∧
  (d < 256 → divisor_of (pack 1 d) = d ∧ Z.land (pack 1 d) 0xffff003f = 0 ∧ u32 (pack 1 d) = pack 1 d)) (seqZ 0 1024).
Proof. apply (bool_decide_unpack _). by vm_compute. Qed.
Lemma pack_divisor ver d : 0 <= d < (if decide (ver > HOST_SPEC_V2) then 1024 else 256) →
  divisor_of (u32 (pack ver d)) = d ∧ Z.land (u32 (pack ver d)) 0xffff003f = 0.
Proof.
  intros Hd. pose proof pack_spec as Hp. rewrite Forall_forall in Hp.
  assert (Hin : d ∈ seqZ 0 1024) by (apply elem_of_seqZ; case_decide; lia). destruct (Hp d Hin) as (E1 & E2 & E3 & E4).
  destruct (decide (ver > HOST_SPEC_V2)) as [Hv|Hv].
  - assert (E : pack ver d = pack 2 d) by (unfold pack; by rewrite !decide_True by done). by rewrite E, E3.
  - assert (E : pack ver d = pack 1 d) by (unfold pack; by rewrite !decide_False by done). rewrite E.
    destruct (E4 ltac:(lia)) as (F1 & F2 & F3). by rewrite F3.
Qed.

Lemma small_shift c : 1 <= c <= 256 → fls_long (c - 1) <= 8 ∧ (4 < c → 3 <= fls_long (c - 1)) ∧ (c <= 4 → fls_long (c - 1) <= 2).
Proof.
  intros Hc. destruct (decide (c = 1)) as [->|]; [change (fls_long (1 - 1)) with 0; lia|].
  destruct (fls_long_spec (c - 1) ltac:(lia)) as (Hr & Hlo & Hhi). split; [|split]; intros.
  - destruct (decide (fls_long (c - 1) <= 8)); [done|]. assert (2 ^ 8 <= 2 ^ (fls_long (c - 1) - 1)) by (apply Z.pow_le_mono_r; lia). lia.
  - destruct (decide (3 <= fls_long (c - 1))); [done|]. assert (2 ^ fls_long (c - 1) <= 2 ^ 2) by (apply Z.pow_le_mono_r; lia). lia.
  - destruct (decide (fls_long (c - 1) <= 2)); [done|]. assert (2 ^ 2 <= 2 ^ (fls_long (c - 1) - 1)) by (apply Z.pow_le_mono_r; lia). lia.
Qed.
Lemma large_shift c : c = 0 ∨ 256 < c < 2 ^ 32 → 8 < fls_long (u32 (c - 1)) <= 32.
Proof.
  intros [->|Hc]; [vm_compute; split; discriminate || done|]. rewrite u32_small by (unfold in_u; lia).
  destruct (fls_long_spec (c - 1) ltac:(lia)) as (Hr & Hlo & Hhi). split; [|lia].
  destruct (decide (8 < fls_long (c - 1))); [done|]. assert (2 ^ fls_long (c - 1) <= 2 ^ 8) by (apply Z.pow_le_mono_r; lia). lia.
Qed.
Lemma divider_packs ver freq : 0 < freq → sdGetClockDivider ver freq = u32 (pack ver (divisor ver freq)).
Proof.
  intros Hf. unfold sdGetClockDivider. cbv zeta. set (c := 41666666 / freq).
  assert (Hc : 0 <= c < 2 ^ 32).
  { unfold c. split; [apply Z.div_pos; lia|]. apply Z.div_lt_upper_bound; lia. }
  f_equal. unfold pack, divisor. fold c. destruct (decide (ver > HOST_SPEC_V2)) as [Hv|Hv].
  - assert (E : (if decide (c <= 2) then 2 else c) = Z.max 2 c) by (case_decide; lia). by rewrite E.
  - do 3 f_equal. destruct (decide (c = 0 ∨ c > 256)) as [Hl|Hs].
    + pose proof (large_shift c ltac:(lia)) as Hfl. rewrite (u32_small (fls_long _)) by (unfold in_u; lia).
      rewrite (decide_True (P := fls_long (u32 (c - 1)) > 0)) by lia. rewrite (decide_True (P := fls_long (u32 (c - 1)) - 1 > 7)) by lia. done.
    + rewrite (u32_small (c - 1)) by (unfold in_u; lia). destruct (small_shift c ltac:(lia)) as (H8 & Hbig & Hsmall).
      assert (H0 : 0 <= fls_long (c - 1)).
      { destruct (decide (c = 1)) as [->|]; [done|]. destruct (fls_long_spec (c - 1) ltac:(lia)) as [? _]. lia. }
      rewrite (u32_small (fls_long _)) by (unfold in_u; lia).
      set (m := fls_long (c - 1)) in *. rewrite (decide_False (P := (if decide (m > 0) then m - 1 else m) > 7)) by (case_decide; lia).
      destruct (decide (c <= 4)) as [H4|H4].
      * specialize (Hsmall H4). assert (Hm : m = 0 ∨ m = 1 ∨ m = 2) by lia. by destruct Hm as [->|[->| ->]].
      * specialize (Hbig ltac:(lia)). rewrite (decide_True (P := m > 0)) by lia. rewrite Z.shiftl_mul_pow2, Z.mul_1_l by lia.
        assert (2 ^ 2 <= 2 ^ (m - 1) <= 2 ^ 7) by (split; apply Z.pow_le_mono_r; lia).
        rewrite u32_small by (unfold in_u; lia). by rewrite decide_False by lia.
Qed.

(** C29: the clock of the card. The value that [sdSetClock] puts into [EMMC_CONTROL1]
    touches no bit but those of the divider.  For a host of version 3 the divided
    clock, 41666666 over twice the divisor, is slower than the frequency asked for;
    for an older host the divisor is a power of two from 2 to 128, with which the clock
    is more than half of the frequency, when the divisor is not the least one, and
    less than a part in twice the divisor above it.  This holds for the frequencies
    that the divider can reach. *)
Theorem clock_divider_bounds ver freq : 0 < freq →
  let v := sdGetClockDivider ver freq in let d := divisor_of v in
  (41666666 / freq <= (if decide (ver > HOST_SPEC_V2) then 1023 else 256) → 1 <= 41666666 / freq →
   Z.land v 0xffff003f = 0 ∧ 2 <= d ∧
   (if decide (ver > HOST_SPEC_V2) then 41666666 < 2 * d * freq
    else (∃ k, 1 <= k <= 7 ∧ d = 2 ^ k) ∧ 41666666 < (2 * d + 1) * freq) ∧
   (d = 2 ∨ d * freq <= 41666666)).
Proof.
  intros Hf. cbv zeta. intros Hc1 Hc0. rewrite divider_packs by done. set (c := 41666666 / freq) in *.
  assert (Hdiv : freq * c <= 41666666 < freq * (c + 1)).
  { unfold c. pose proof (Z.div_mod 41666666 freq ltac:(lia)). pose proof (Z.mod_pos_bound 41666666 freq Hf). lia. }
  destruct (pack_divisor ver (divisor ver freq)) as [-> ->].
  - unfold divisor. fold c. destruct (decide (ver > HOST_SPEC_V2)); [lia|]. rewrite decide_False by lia. case_decide; [lia|].
    destruct (small_shift c ltac:(lia)) as (H8 & Hbig & _). specialize (Hbig ltac:(lia)).
    assert (2 ^ 2 <= 2 ^ (fls_long (c - 1) - 1) <= 2 ^ 7) by (split; apply Z.pow_le_mono_r; lia). lia.
  - split; [done|]. unfold divisor. fold c. destruct (decide (ver > HOST_SPEC_V2)); [nia|]. rewrite decide_False by lia.
    case_decide as H4; [split; [lia|]; split; [|by left]; split; [by exists 1|nia]|].
    destruct (small_shift c ltac:(lia)) as (H8 & Hbig & _). specialize (Hbig ltac:(lia)).
    destruct (fls_long_spec (c - 1) ltac:(lia)) as (Hr & Hlo & Hhi). set (m := fls_long (c - 1)) in *.
    assert (E : 2 ^ m = 2 * 2 ^ (m - 1)) by (rewrite <-Z.pow_succ_r by lia; f_equal; lia).
    assert (2 ^ 2 <= 2 ^ (m - 1)) by (apply Z.pow_le_mono_r; lia).
    split; [lia|]. split; [|right; nia]. split; [exists (m - 1); lia|nia].
Qed.
Lemma clock_divider_bounds_witness : Z.land (sdGetClockDivider 1 FREQ_SETUP) 0xffff003f = 0 ∧ divisor_of (sdGetClockDivider 1 FREQ_SETUP) = 64.
Proof. destruct (clock_divider_bounds 1 FREQ_SETUP ltac:(vm_compute; reflexivity) ltac:(vm_compute; discriminate) ltac:(vm_compute; discriminate)) as (E & _). split; [exact E|reflexivity]. Defined.

(** ** The capacity *)
(** The card specific data: the 128 bits of the SD specification, whose last 8, the
    checksum, the controller leaves out. *)
Definition csd_register (d : list Z) : Z := 2 ^ 8 * foldl (λ r w, 2 ^ 32 * r + w) 0 d.
(** The bits [hi] to [lo] of a register. *)
Definition bits (hi lo r : Z) : Z := r / 2 ^ lo mod 2 ^ (hi - lo + 1).
(** The size of the card by the specification, whose fields are named there
    [CSD_STRUCTURE], [C_SIZE], [C_SIZE_MULT] and [READ_BL_LEN]. *)
Definition spec_capacity (r : Z) : Z :=
  if decide (bits 127 126 r = 0) then (bits 73 62 r + 1) * 2 ^ (bits 49 47 r + 2) * 2 ^ bits 83 80 r
  else (bits 69 48 r + 1) * (512 * 1024).

Lemma field_land w mask s n : 0 <= s → 0 <= n → mask = Z.shiftl (Z.ones n) s → Z.land w mask = 2 ^ s * (w / 2 ^ s mod 2 ^ n).
Proof.
  intros Hs Hn ->. rewrite Z.mul_comm, <-Z.shiftl_mul_pow2, <-Z.shiftr_div_pow2, <-Z.land_ones by done.
  apply Z.bits_inj'. intros i Hi. rewrite Z.land_spec, !Z.shiftl_spec by done. destruct (decide (i < s)).
  - rewrite (Z.testbit_neg_r (Z.ones n)), (Z.testbit_neg_r (Z.land _ _)) by lia. apply andb_false_r.
  - rewrite Z.land_spec, Z.shiftr_spec by lia. by replace (i - s + s) with i by lia.
Qed.
(** A field inside the word [w] of a register. *)
Lemma slice_word a w b k s n r : r = a * 2 ^ (k + 32) + w * 2 ^ k + b → 0 <= b < 2 ^ k → 0 <= k → 0 <= s → 0 <= n → s + n <= 32 →
  r / 2 ^ (k + s) mod 2 ^ n = w / 2 ^ s mod 2 ^ n.
Proof.
  intros -> Hb Hk Hs Hn Hsn. rewrite (Z.pow_add_r 2 k s), <-Z.div_div by lia. rewrite (Z.pow_add_r 2 k 32) by lia.
  replace (a * (2 ^ k * 2 ^ 32) + w * 2 ^ k + b) with (b + (a * 2 ^ 32 + w) * 2 ^ k) by ring.
  rewrite Z.div_add, (Z.div_small b) by lia. replace (a * 2 ^ 32) with (a * 2 ^ (32 - s - n) * 2 ^ n * 2 ^ s).
  2:{ rewrite <-!Z.mul_assoc, <-!Z.pow_add_r by lia. do 2 f_equal. lia. }
  rewrite Z.add_0_l, Z.div_add_l by lia. rewrite Z.add_comm. apply Z.mod_add. lia.
Qed.

(** C30: the capacity that [sdParseCSD] computes from the four words of the register
    is the one the specification of the card gives, in both of its versions, and no
    step of it overflows; the file format is its bits 11 and 10, not shifted. *)
Theorem csd_capacity_correct w0 w1 w2 w3 : in_u 32 w0 → in_u 32 w1 → in_u 32 w2 → in_u 32 w3 →
  let d := [w0; w1; w2; w3] in
  csd_capacity d = spec_capacity (csd_register d) ∧ csd_fileFormat d = 4 * bits 11 10 (csd_register d).
Proof.
  intros H0 H1 H2 H3. unfold in_u in *. cbv zeta. set (r := csd_register [w0; w1; w2; w3]).
  assert (Hr : r = 2 ^ 8 * (2 ^ 96 * w0 + 2 ^ 64 * w1 + 2 ^ 32 * w2 + w3)) by (unfold r, csd_register; cbn [foldl]; ring).
  clearbody r. unfold csd_capacity, csd_fileFormat, spec_capacity. cbn [nth].
  assert (Ev : Z.land w0 CSD0_VERSION = 2 ^ 22 * bits 127 126 r).
  { rewrite (field_land _ _ 22 2) by done. f_equal. symmetry. apply (slice_word 0 w0 (2 ^ 8 * (2 ^ 64 * w1 + 2 ^ 32 * w2 + w3)) 104 22 2); lia. }
  assert (Ef : Z.land w3 CSD3VN_FILE_FORMAT = 4 * bits 11 10 r).
  { rewrite (field_land _ _ 2 2) by done. f_equal. symmetry. apply (slice_word (2 ^ 64 * w0 + 2 ^ 32 * w1 + w2) w3 0 8 2 2); lia. }
  assert (Em : Z.shiftr (Z.land w2 CSD2V1_C_SIZE_MULT) CSD2V1_C_SIZE_MULT_SHIFT = bits 49 47 r).
  { rewrite (field _ _ _ 3) by done. symmetry. apply (slice_word (2 ^ 32 * w0 + w1) w2 (2 ^ 8 * w3) 40 7 3); lia. }
  assert (Eb : Z.shiftr (Z.land w1 CSD1VN_READ_BL_LEN) CSD1VN_READ_BL_LEN_SHIFT = bits 83 80 r).
  { rewrite (field _ _ _ 4) by done. symmetry. apply (slice_word w0 w1 (2 ^ 8 * (2 ^ 32 * w2 + w3)) 72 8 4); lia. }
  assert (Es : Z.shiftr (Z.land w2 CSD2V2_C_SIZE) CSD2V2_C_SIZE_SHIFT = bits 69 48 r).
  { rewrite (field _ _ _ 22) by done. symmetry. apply (slice_word (2 ^ 32 * w0 + w1) w2 (2 ^ 8 * w3) 40 8 22); lia. }
  assert (Ec : Z.shiftl (Z.land w1 CSD1V1_C_SIZEH) CSD1V1_C_SIZEH_SHIFT + Z.shiftr (Z.land w2 CSD2V1_C_SIZEL) CSD2V1_C_SIZEL_SHIFT = bits 73 62 r).
  { rewrite (field _ _ _ 10), (field_land _ _ 0 2), Z.shiftl_mul_pow2 by done. unfold bits. change (73 - 62 + 1) with 12. unfold CSD1V1_C_SIZEH_SHIFT, CSD2V1_C_SIZEL_SHIFT.
    assert (E : r / 2 ^ 62 = w0 * 2 ^ 42 + w1 * 2 ^ 10 + w2 / 2 ^ 22).
    { rewrite Hr. change (2 ^ 62) with (2 ^ 40 * 2 ^ 22). rewrite <-Z.div_div by lia.
      replace (2 ^ 8 * (2 ^ 96 * w0 + 2 ^ 64 * w1 + 2 ^ 32 * w2 + w3)) with (2 ^ 8 * w3 + (2 ^ 64 * w0 + 2 ^ 32 * w1 + w2) * 2 ^ 40) by ring.
      rewrite Z.div_add, (Z.div_small (2 ^ 8 * w3)), Z.add_0_l by lia. replace (2 ^ 64 * w0 + 2 ^ 32 * w1 + w2) with ((2 ^ 42 * w0 + 2 ^ 10 * w1) * 2 ^ 22 + w2) by ring.
      rewrite Z.div_add_l by lia. lia. }
    rewrite E, Z.pow_0_r, Z.div_1_r. assert (0 <= w2 / 2 ^ 22 < 2 ^ 10) by (split; [apply Z.div_pos; lia|apply Z.div_lt_upper_bound; lia]).
    rewrite (Z.mod_small (w2 / 2 ^ 22)) by lia. pose proof (Z.div_mod w1 4 ltac:(lia)) as Ew. pose proof (Z.mod_pos_bound w1 4 ltac:(lia)).
    change (2 ^ 2) with 4. apply (Z.mod_unique_pos _ _ (w0 * 2 ^ 30 + w1 / 4)); lia. }
  assert (Hb : ∀ hi lo, lo <= hi → 0 <= bits hi lo r < 2 ^ (hi - lo + 1)) by (intros; apply Z.mod_pos_bound; lia).
  split; [|exact Ef]. rewrite Ev, Ec, Em, Eb, Es. unfold CSD0_V1.
  destruct (decide (bits 127 126 r = 0)) as [Hv|Hv].
  - rewrite decide_True by lia. pose proof (Hb 73 62 ltac:(lia)) as Hc. pose proof (Hb 49 47 ltac:(lia)) as Hm. pose proof (Hb 83 80 ltac:(lia)) as Hl.
    change (2 ^ (73 - 62 + 1)) with 4096 in Hc. change (2 ^ (49 - 47 + 1)) with 8 in Hm. change (2 ^ (83 - 80 + 1)) with 16 in Hl.
    rewrite (u32_small (bits 73 62 r)) by (unfold in_u; lia). rewrite i32_small by (unfold in_s; lia). rewrite !Z.shiftl_mul_pow2, !Z.mul_1_l by lia.
    rewrite u64_small; [done|]. unfold in_u.
    assert (0 < 2 ^ (bits 49 47 r + 2) <= 2 ^ 9) by (split; [lia|apply Z.pow_le_mono_r; lia]).
    assert (0 < 2 ^ bits 83 80 r <= 2 ^ 15) by (split; [lia|apply Z.pow_le_mono_r; lia]).
    set (x := bits 73 62 r) in *. set (y := 2 ^ (bits 49 47 r + 2)) in *. set (z := 2 ^ bits 83 80 r) in *.
    assert (0 <= (x + 1) * y <= 4096 * 2 ^ 9) by nia. nia.
  - rewrite decide_False by lia. pose proof (Hb 69 48 ltac:(lia)) as Hc. change (2 ^ (69 - 48 + 1)) with (2 ^ 22) in Hc.
    rewrite u64_small by (unfold in_u; lia). ring.
Qed.
Lemma csd_capacity_correct_witness : csd_capacity [0x00400000; 0; 0x000EE700; 0] = 2000683008 ∧ csd_fileFormat [0x00400000; 0; 0x000EE700; 0] = 0.
Proof.
  destruct (csd_capacity_correct 0x00400000 0 0x000EE700 0) as [-> ->]; [by split..|]. split; reflexivity.
Defined.
