(* ===== verification/SdProtocol.v ===== *)
(** * The SD card driver: the protocol of the initialisation

    What has to go well, in which order, for a card to be initialised, as a relation
    between the state before and the state after: no early return and no error code,
    only operations each of which succeeds in the state the one before left.  [sdInit]
    marks the card as in use exactly when this happened. *)
From S2P Require Import Prelude Words Kalloc Traps Mmio SdRegs Sd SdSpec.

Section protocol.
Context {H : Type} `{!Hardware H} (mbox : M (mmio H) Z).
Implicit Types (s : sst H) (r : Z).

(** ** The protocol *)
(** [m] answers [SD_OK]. *)
Definition passes (m : M (sst H) Z) s s' : Prop := m s = Done (SD_OK, s').
Fixpoint all_pass (ms : list (M (sst H) Z)) s s' : Prop :=
  match ms with
  | [] => s' = s
  | m :: ms => ∃ s1, passes m s s1 ∧ all_pass ms s1 s'
  end.
Definition upd_card (f : SDDescriptor → SDDescriptor) s : sst H := mkSst (mm s) (f (sdCard s)) (sdHostVer s) (sdBaseClock s).
Definition upd_ver (v : Z) s : sst H := mkSst (mm s) (sdCard s) v (sdBaseClock s).

(** The card powers up.  One of version 2 repeats the voltage and the check pattern of
    [SEND_IF_COND] and tells by its capacity bit which kind it is.  One that does not is an
    old one, unless the controller was busy; a command in progress is cleared by a reset. *)
Inductive powered_up : sst H → sst H → Prop :=
  | power_v2 s s1 s2 s3 : passes (sdSendCommandA IX_SEND_IF_COND 0x000001AA) s s1 → on_mm (delay 50) s1 = Done (tt, s2) →
      passes (sdAppSendOpCond ACMD41_ARG_HC) s2 s3 →
      powered_up s (upd_card (λ c, with_type (if decide (Z.land (ocr c) R3_CCS ≠ 0) then SD_TYPE_2_HC else SD_TYPE_2_SC) c) s3)
  | power_v1 s r s1 st s2 s3 s4 : sdSendCommandA IX_SEND_IF_COND 0x000001AA s = Done (r, s1) → r ≠ SD_OK → r ≠ SD_BUSY →
      rd EMMC_STATUS s1 = Done (st, s2) →
      (if decide (Z.land st SR_CMD_INHIBIT ≠ 0) then passes (sdResetCard C1_SRST_HC) s2 s3 else s3 = s2) →
      passes (sdAppSendOpCond ACMD41_ARG_SC) s3 s4 → powered_up s (upd_card (with_type SD_TYPE_1) s4).

(** A card that supports it is told to use four data lines. *)
Definition wide_bus s s' : Prop :=
  if decide (Z.land (support (sdCard s)) SD_SUPP_BUS_WIDTH_4 ≠ 0) then
    ∃ s1, passes (sdSendCommandA IX_SET_BUS_WIDTH (Z.lor (i32 (rca (sdCard s))) 2)) s s1 ∧
      set_bits EMMC_CONTROL0 C0_HCTL_DWITDH s1 = Done (tt, s')
  else s' = s.
(** The card is selected at full speed, and ready for blocks of 512 bytes. *)
Definition finished s s' : Prop := ∃ s1 s2 s3,
  all_pass [sdSetClock FREQ_NORMAL; sdSendCommand IX_CARD_SELECT; sdReadSCR] s s1 ∧ wide_bus s1 s2 ∧
  passes (sdSendCommandA IX_SET_BLOCKLEN 512) s2 s3 ∧ s' = upd_card (with_init 1) s3.
(** It has told its identification, its address and its registers, and holds a file
    system the driver knows. *)
Definition identified s s' : Prop := ∃ s1,
  all_pass [sdSendCommand IX_ALL_SEND_CID; sdSendCommand IX_SEND_REL_ADDR; sdSendCommand IX_SEND_CSD] s s1 ∧
  s' = upd_card (λ c, with_size (csd_capacity (csd c)) (csd_fileFormat (csd c)) c) s1 ∧
  (fileFormat (sdCard s') = CSD3VN_FILE_FORMAT_DOSFAT ∨ fileFormat (sdCard s') = CSD3VN_FILE_FORMAT_HDD).
(** The pins are set up if the card was not in use, and the version of the host is read. *)
Definition prepared s s' : Prop := ∃ s0 v s1 ver s2,
  (if decide (init_ (sdCard s) = 0) then sdInitGPIO s = Done (tt, s0) else s0 = s) ∧ rd GPEDS1 s0 = Done (v, s1) ∧
  rd EMMC_SLOTISR_VER (upd_card (λ c, with_init 0 (with_absent 0 c)) s1) = Done (ver, s2) ∧
  s' = upd_ver (Z.shiftr (Z.land ver HOST_SPEC_NUM) HOST_SPEC_NUM_SHIFT) s2.
(** The whole protocol. *)
Definition went_well s s' : Prop := ∃ s1 s2 s3 s4,
  prepared s s1 ∧ all_pass [sdGetBaseClock mbox; sdResetCard C1_SRST_HC] s1 s2 ∧
  powered_up s2 s3 ∧ identified s3 s4 ∧ finished s4 s'.

(** ** Only the last step marks the card *)
Definition used s : Z := init_ (sdCard s).
Lemma used_mm {A} (m : M (mmio H) A) : keeps used (on_mm m).
Proof. intros s a s' E. unfold on_mm in E. by destruct (m (mm s)) as [[a' x]| | |]; simplify_eq. Qed.
Lemma used_card f : (∀ c, init_ (f c) = init_ c) → keeps used (set_card f).
Proof. intros Hf s a s' [= _ <-]. apply Hf. Qed.
Lemma used_option {A} (o : option A) : keeps used (from_option_M o).
Proof. destruct o; [apply keeps_ret|by intros s a s' [=]]. Qed.
Lemma used_panic {A} : keeps used (panic : M (sst H) A).
Proof. by intros s a s' [=]. Qed.
Lemma used_crash {A} : keeps used (crash : M (sst H) A).
Proof. by intros s a s' [=]. Qed.
Lemma used_printk rs : keeps used (printk_regs rs).
Proof.
  induction rs as [|r rs IH]; [apply keeps_ret|]. unfold printk_regs. cbn [for_each]. apply keeps_bind; [|done].
  apply keeps_bind; [apply used_mm|]. intros v. apply keeps_ret.
Qed.
(** One operation after the other. *)
Ltac used_tac := repeat first [assumption|apply keeps_ret|apply used_card; intros []; try case_decide; done|apply used_mm|apply keeps_gets|apply used_option|apply used_panic
  |apply used_crash|apply used_printk|apply keeps_modify; done|apply keeps_if|apply keeps_ifb|apply keeps_loop; intros ?|apply keeps_bind; [|intros ?]
  |match goal with |- keeps used (let '(_, _) := ?x in _) => destruct x end].
Lemma used_or_return m fail k : keeps used m → (∀ r, keeps used (fail r)) → keeps used k → keeps used (or_return m fail k).
Proof. intros Hm Hf Hk. unfold or_return. used_tac. done. Qed.
Lemma used_Debug r : keeps used (sdDebugResponse r).
Proof. unfold sdDebugResponse, get_lastCmd. used_tac. Qed.
Lemma used_WaitForInterrupt mask : keeps used (sdWaitForInterrupt mask).
Proof. unfold sdWaitForInterrupt, wait_while, rd, wr. used_tac. Qed.
Lemma used_WaitForCommand : keeps used sdWaitForCommand.
Proof. unfold sdWaitForCommand, wait_while, aborted, rd. used_tac. Qed.
Lemma used_WaitForData : keeps used sdWaitForData.
Proof. unfold sdWaitForData, data_turn, sd_delayus, aborted, rd. used_tac. Qed.
Lemma used_response cmd arg x : keeps used (response cmd arg x).
Proof. unfold response, rd. used_tac. Qed.
Lemma used_SendCommandP i arg : keeps used (sdSendCommandP i arg).
Proof. unfold sdSendCommandP, rd, wr, sd_delayus. used_tac. Qed.
Lemma used_SendCommandA i arg : keeps used (sdSendCommandA i arg).
Proof. unfold sdSendCommandA, issue_app, sdSendAppCommand, check_app, or_return. used_tac. Qed.
Lemma used_SendCommand i : keeps used (sdSendCommand i).
Proof. unfold sdSendCommand, issue_app, sdSendAppCommand, check_app, or_return. used_tac. Qed.
Lemma used_ReadSCR : keeps used sdReadSCR.
Proof. unfold sdReadSCR, scr_turn, or_return, rd, wr, sd_delayus. used_tac. Qed.
Lemma used_SetClock f : keeps used (sdSetClock f).
Proof. unfold sdSetClock, clock_turn, clear_bits, set_bits, wait_while, rd, wr, sd_delayus. used_tac. Qed.
Lemma used_ResetCard t : keeps used (sdResetCard t).
Proof. unfold sdResetCard, set_bits, wait_while, or_return, rd, wr, sd_delayus. used_tac. Qed.
Lemma used_AppSendOpCond arg : keeps used (sdAppSendOpCond arg).
Proof.
  unfold sdAppSendOpCond, op_cond_turn. pose proof (used_SendCommandA IX_APP_SEND_OP_COND arg). used_tac.
  match goal with |- keeps used (match ?o with Some _ => _ | None => _ end) => destruct o end; used_tac.
Qed.
Lemma used_BaseClock : keeps used (sdGetBaseClock mbox).
Proof. unfold sdGetBaseClock. used_tac. Qed.
Lemma used_InitGPIO : keeps used sdInitGPIO.
Proof. unfold sdInitGPIO, pull_up, clear_bits, set_bits, rd, wr. used_tac. Qed.

(** ** [sdInit] follows the protocol *)
Lemma or_return_pass m fail k s s1 : passes m s s1 → or_return m fail k s = k s1.
Proof. intros E. unfold or_return. rewrite (bind_done _ _ _ _ _ E). by rewrite decide_False by auto. Qed.
(** A step before the one that marks the card must succeed. *)
Lemma or_return_marks m fail k s r s' : keeps used m → (∀ r, keeps used (fail r)) → or_return m fail k s = Done (r, s') →
  used s' ≠ used s → ∃ s1, passes m s s1 ∧ k s1 = Done (r, s') ∧ used s1 = used s.
Proof.
  intros Hm Hf (x & s1 & E1 & E)%bind_inv Hu. pose proof (Hm _ _ _ E1) as Hu1. destruct (decide (x ≠ 0)) as [Hx|Hx].
  - pose proof (Hf _ _ _ _ E). congruence.
  - assert (x = 0) as -> by lia. by exists s1.
Qed.
Lemma set_card_inv {A} f (k : M (sst H) A) s o : (set_card f;; k) s = o → k (upd_card f s) = o.
Proof. done. Qed.
Lemma gets_inv {A B} (f : sst H → A) (k : A → M (sst H) B) s o : (x ← gets f; k x) s = o → k (f s) s = o.
Proof. done. Qed.

(** The end of the protocol, as far as the marking. *)
Definition marking (old : list Z) : M (sst H) Z :=
  sdParseCID;; set_card (with_init 1);; c ← gets sdCard; o ← from_option_M (Some old);
  mret (if decide (o = cid c) then SD_CARD_REINSERTED else SD_CARD_CHANGED).
Lemma marking_inv old s r s' : marking old s = Done (r, s') → s' = upd_card (with_init 1) s.
Proof.
  intros ([] & s1 & E1 & E)%bind_inv. unfold sdParseCID in E1. apply gets_inv in E1. destruct (SD_TYPE_NAME !! _); [|done].
  injection E1 as <-. by injection E as _ <-.
Qed.
Lemma bus_run (k : M (sst H) Z) fail s s1 : wide_bus s s1 →
  or_return (if decide (Z.land (support (sdCard s)) SD_SUPP_BUS_WIDTH_4 ≠ 0) then
      or_return (sdSendCommandA IX_SET_BUS_WIDTH (Z.lor (i32 (rca (sdCard s))) 2)) mret (set_bits EMMC_CONTROL0 C0_HCTL_DWITDH;; mret 0)
    else mret 0) fail k s = k s1.
Proof.
  unfold wide_bus. intros Hw. apply or_return_pass. case_decide; [|by subst]. destruct Hw as (s2 & E1 & E2).
  unfold passes. rewrite (or_return_pass _ _ _ _ _ E1). by rewrite (bind_done _ _ _ _ _ E2).
Qed.
Lemma bus_inv (k : M (sst H) Z) s r s' : 
  or_return (if decide (Z.land (support (sdCard s)) SD_SUPP_BUS_WIDTH_4 ≠ 0) then
      or_return (sdSendCommandA IX_SET_BUS_WIDTH (Z.lor (i32 (rca (sdCard s))) 2)) mret (set_bits EMMC_CONTROL0 C0_HCTL_DWITDH;; mret 0)
    else mret 0) sdDebugResponse k s = Done (r, s') → used s' ≠ used s → ∃ s1, wide_bus s s1 ∧ k s1 = Done (r, s') ∧ used s1 = used s.
Proof.
  intros E Hu. apply or_return_marks in E as (s1 & E1 & E2 & Hu1); [|apply keeps_if; [|apply keeps_ret]|apply used_Debug|done].
  2:{ unfold or_return, set_bits, rd, wr. apply keeps_bind; [apply used_SendCommandA|]. intros x. used_tac. }
  exists s1. split; [|done]. unfold wide_bus, passes in *. case_decide; [|by injection E1].
  apply bind_inv in E1 as (x & s2 & Ea & Eb). case_decide as Hx.
  - injection Eb as -> _. done.
  - apply bind_inv in Eb as ([] & s3 & Ec & [= <-]). assert (x = 0) as -> by lia. by exists s2.
Qed.

Lemma finish_run old s s' r s2 : finished s s' → sdInit_finish (Some old) s = Done (r, s2) → s2 = s'.
Proof.
  intros (s3 & s4 & s5 & (s6 & E1 & s7 & E2 & s8 & E3 & ->) & Hw & E5 & ->). unfold sdInit_finish.
  rewrite (or_return_pass _ _ _ _ _ E1), (or_return_pass _ _ _ _ _ E2), (or_return_pass _ _ _ _ _ E3).
  intros E%gets_inv. rewrite (bus_run _ _ _ _ Hw), (or_return_pass _ _ _ _ _ E5) in E. by apply (marking_inv old) in E.
Qed.
Lemma finish_inv old s r s' : sdInit_finish (Some old) s = Done (r, s') → used s' ≠ used s → finished s s'.
Proof.
  intros E Hu. unfold sdInit_finish in E.
  apply or_return_marks in E as (s1 & E1 & E & Hu1); [|apply used_SetClock|apply used_Debug|done]. rewrite <-Hu1 in Hu.
  apply or_return_marks in E as (s2 & E2 & E & Hu2); [|apply used_SendCommand|apply used_Debug|done]. rewrite <-Hu2 in Hu.
  apply or_return_marks in E as (s3 & E3 & E & Hu3); [|apply used_ReadSCR|apply used_Debug|done]. rewrite <-Hu3 in Hu.
  apply gets_inv in E. apply bus_inv in E as (s4 & Hw & E & Hu4); [|done]. rewrite <-Hu4 in Hu.
  apply or_return_marks in E as (s5 & E5 & E & _); [|apply used_SendCommandA|apply used_Debug|done].
  apply (marking_inv old) in E. exists s3, s4, s5. split; [by exists s1; split; [|exists s2; split; [|exists s3]]|done].
Qed.

(** The switch of the voltage always succeeds. *)
Lemma voltage_skip (P : Prop) `{!Decision P} (k : M (sst H) Z) s : or_return (if decide P then sdSwitchVoltage else mret 0) mret k s = k s.
Proof. apply or_return_pass. unfold passes. by case_decide. Qed.
Lemma select_run old s s1 s' r s2 : identified s s1 → finished s1 s' → sdInit_select (Some old) s = Done (r, s2) → s2 = s'.
Proof.
  intros (s3 & (s4 & E1 & s5 & E2 & s6 & E3 & ->) & -> & Hff) Hfin E. unfold sdInit_select in E. apply gets_inv in E. rewrite voltage_skip in E.
  rewrite (or_return_pass _ _ _ _ _ E1), (or_return_pass _ _ _ _ _ E2), (or_return_pass _ _ _ _ _ E3) in E.
  apply set_card_inv, gets_inv in E. rewrite decide_False in E by tauto. by eapply finish_run.
Qed.
Lemma select_inv old s r s' : sdInit_select (Some old) s = Done (r, s') → used s' ≠ used s → ∃ s1, identified s s1 ∧ finished s1 s'.
Proof.
  intros E Hu. unfold sdInit_select in E. apply gets_inv in E. rewrite voltage_skip in E.
  apply or_return_marks in E as (s1 & E1 & E & Hu1); [|apply used_SendCommand|apply used_Debug|done]. rewrite <-Hu1 in Hu.
  apply or_return_marks in E as (s2 & E2 & E & Hu2); [|apply used_SendCommand|apply used_Debug|done]. rewrite <-Hu2 in Hu.
  apply or_return_marks in E as (s3 & E3 & E & Hu3); [|apply used_SendCommand|apply used_Debug|done]. rewrite <-Hu3 in Hu.
  apply set_card_inv, gets_inv in E. set (s4 := upd_card _ s3) in E. case_decide as Hff; [injection E as _ <-; by destruct Hu|].
  exists s4. split; [|by eapply finish_inv].
  exists s3. split; [by exists s1; split; [|exists s2; split; [|exists s3]]|]. split; [done|].
  destruct (decide (fileFormat (sdCard s4) = CSD3VN_FILE_FORMAT_DOSFAT)); [by left|].
  destruct (decide (fileFormat (sdCard s4) = CSD3VN_FILE_FORMAT_HDD)); [by right|tauto].
Qed.

Lemma type_run s s1 k : powered_up s s1 → sdInit_type k s = k s1.
Proof.
  intros [s0 s2 s3 s4 E1 E2 E3|s0 r s2 st s3 s4 s5 E1 Hr Hb E2 E3 E4]; unfold sdInit_type; rewrite (bind_done _ _ _ _ _ E1).
  - rewrite decide_True by done. rewrite (bind_done _ _ _ _ _ E2). by rewrite (or_return_pass _ _ _ _ _ E3).
  - rewrite decide_False, decide_False by done. rewrite (bind_done _ _ _ _ _ E2).
    rewrite (or_return_pass _ _ _ s3 s4) by (unfold passes; case_decide; by subst). by rewrite (or_return_pass _ _ _ _ _ E4).
Qed.
Lemma type_inv k s r s' : sdInit_type k s = Done (r, s') → used s' ≠ used s → ∃ s1, powered_up s s1 ∧ k s1 = Done (r, s') ∧ used s1 = used s.
Proof.
  unfold sdInit_type. intros (x & s1 & E1 & E)%bind_inv Hu. pose proof (used_SendCommandA _ _ _ _ _ E1) as Hu1. rewrite <-Hu1 in Hu.
  case_decide as Hx; [|case_decide as Hb; [by injection E as _ <-|]].
  - apply bind_inv in E as ([] & s2 & E2 & E). pose proof (used_mm _ _ _ _ E2) as Hu2. rewrite <-Hu2 in Hu.
    apply or_return_marks in E as (s3 & E3 & E & Hu3); [|apply used_AppSendOpCond|apply used_Debug|done]. apply set_card_inv in E.
    eexists. split; [eapply power_v2; [by subst x|exact E2|exact E3]|]. split; [exact E|]. cbn. unfold used in *. congruence.
  - apply bind_inv in E as (st & s2 & E2 & E). pose proof (used_mm _ _ _ _ E2) as Hu2. rewrite <-Hu2 in Hu.
    apply or_return_marks in E as (s3 & E3 & E & Hu3);
      [|apply keeps_if; [apply used_ResetCard|apply keeps_ret]|intros; apply keeps_ret|done]. rewrite <-Hu3 in Hu.
    apply or_return_marks in E as (s4 & E4 & E & Hu4); [|apply used_AppSendOpCond|apply used_Debug|done]. apply set_card_inv in E.
    eexists. split; [eapply (power_v1 s x s1 st s2 s3 s4); [exact E1|done|done|exact E2| |exact E4]|].
    { unfold passes in *. case_decide; [done|by injection E3]. }
    split; [exact E|]. cbn. unfold used in *. congruence.
Qed.

(** What is left of [sdInit] after the pins and the version of the host. *)
Lemma reset_run old s s1 : (∃ ver s0, rd EMMC_SLOTISR_VER s = Done (ver, s0) ∧ s1 = upd_ver (Z.shiftr (Z.land ver HOST_SPEC_NUM) HOST_SPEC_NUM_SHIFT) s0) →
  sdInit_reset mbox (Some old) s = or_return (sdGetBaseClock mbox) mret (or_return (sdResetCard C1_SRST_HC) mret (sdInit_type (sdInit_select (Some old)))) s1.
Proof. intros (ver & s0 & E & ->). unfold sdInit_reset. by rewrite (bind_done _ _ _ _ _ E). Qed.
(** A card that is not in use, or was ejected. *)
Definition to_initialise s (ej : Z) : Prop := init_ (sdCard s) = 0 ∨ ej ≠ 0.
Lemma present_run ej s : to_initialise s ej →
  ∃ old, sdInit_present mbox ej s = sdInit_reset mbox (Some old) (upd_card (λ c, with_init 0 (with_absent 0 c)) s).
Proof.
  intros Hs. unfold sdInit_present, take_oldCID. destruct s as [m c v b]. unfold to_initialise in Hs. cbn in Hs.
  unfold upd_card. cbn. unfold set_card, modify, gets, mbind, M_bind. cbn.
  destruct (decide (ej ≠ 0 ∧ init_ c ≠ 0)) as [Hj|Hj]; [by exists (cid c)|]. assert (Hi : init_ c = 0) by lia.
  rewrite (decide_True (P := init_ c = 0)) by done. exists [0; 0; 0; 0]. cbn. rewrite decide_False by auto. do 2 f_equal. destruct c. cbn in *. by subst.
Qed.
(** [sdInit] for such a card, when it is prepared. *)
Lemma sdInit_run s s1 : prepared s s1 → (∀ s0 v s2, (if decide (init_ (sdCard s) = 0) then sdInitGPIO s = Done (tt, s0) else s0 = s) →
    rd GPEDS1 s0 = Done (v, s2) → to_initialise s (Z.land v (Z.shiftl 1 (47 - 32)))) →
  ∃ old, sdInit mbox s = or_return (sdGetBaseClock mbox) mret (or_return (sdResetCard C1_SRST_HC) mret (sdInit_type (sdInit_select (Some old)))) s1.
Proof.
  intros (s0 & v & s2 & ver & s3 & E1 & E2 & E3 & ->) Hej. specialize (Hej _ _ _ E1 E2).
  assert (Hu : used s2 = used s).
  { rewrite (used_mm _ _ _ _ E2). case_decide; [by apply used_InitGPIO in E1|by subst]. }
  unfold sdInit. destruct (present_run (Z.land v (Z.shiftl 1 (47 - 32))) s2) as [old Eo]; [unfold to_initialise, used in *; by rewrite Hu|].
  exists old. rewrite (bind_done _ _ s (sdCard s) s) by done.
  rewrite (bind_done _ _ s tt s0) by (case_decide; by subst). rewrite (bind_done _ _ _ _ _ E2). rewrite (decide_False (P := 0 ≠ 0)) by auto.
  rewrite Eo. apply reset_run. by exists ver, s3.
Qed.
Lemma init_ready s s1 old r s' : or_return (sdGetBaseClock mbox) mret (or_return (sdResetCard C1_SRST_HC) mret (sdInit_type (sdInit_select (Some old)))) s1 = Done (r, s') →
  prepared s s1 → used s1 = 0 →
  (used s' ≠ 0 → went_well s s') ∧ ∀ s2 s3 s4 s5, all_pass [sdGetBaseClock mbox; sdResetCard C1_SRST_HC] s1 s2 → powered_up s2 s3 → identified s3 s4 → finished s4 s5 → s' = s5.
Proof.
  intros E Hp Hu1. split.
  - intros Hu. rewrite <-Hu1 in Hu.
    apply or_return_marks in E as (s2 & E2 & E & Hu2); [|apply used_BaseClock|intros; apply keeps_ret|done]. rewrite <-Hu2 in Hu.
    apply or_return_marks in E as (s3 & E3 & E & Hu3); [|apply used_ResetCard|intros; apply keeps_ret|done]. rewrite <-Hu3 in Hu.
    apply type_inv in E as (s4 & Hpw & E & Hu4); [|done]. rewrite <-Hu4 in Hu.
    apply select_inv in E as (s5 & Hid & Hfin); [|done].
    exists s1, s3, s4, s5. split; [done|]. split; [|done]. exists s2. split; [done|]. by exists s3.
  - intros s2 s3 s4 s5 (s6 & E1 & s7 & E2 & ->) Hpw Hid Hfin. rewrite (or_return_pass _ _ _ _ _ E1), (or_return_pass _ _ _ _ _ E2), (type_run _ _ _ Hpw) in E.
    by eapply select_run.
Qed.

Lemma prepared_unique s s1 s2 : prepared s s1 → prepared s s2 → s1 = s2.
Proof.
  intros (a0 & a1 & a2 & a3 & a4 & A1 & A2 & A3 & ->) (b0 & b1 & b2 & b3 & b4 & B1 & B2 & B3 & ->).
  assert (a0 = b0) as -> by (case_decide; congruence). congruence.
Qed.
Lemma prepared_unused s s1 : prepared s s1 → used s1 = 0.
Proof. intros (s0 & v & s2 & ver & s3 & _ & _ & E & ->). exact (used_mm _ _ _ _ E). Qed.
(** A card is marked exactly when the protocol was carried out, and then in the state it leads to. *)
Lemma sdInit_marks s r s' : sdInit mbox s = Done (r, s') →
  (∀ s0 v s2, (if decide (init_ (sdCard s) = 0) then sdInitGPIO s = Done (tt, s0) else s0 = s) →
    rd GPEDS1 s0 = Done (v, s2) → to_initialise s (Z.land v (Z.shiftl 1 (47 - 32)))) →
  (used s' ≠ 0 → went_well s s') ∧ ∀ s2, went_well s s2 → s2 = s' ∧ used s' = 1.
Proof.
  intros E Hej. assert (∃ s1, prepared s s1) as [s1 Hp].
  { unfold sdInit in E. apply gets_inv in E. apply bind_inv in E as ([] & s0 & E0 & E).
    assert (E0' : if decide (init_ (sdCard s) = 0) then sdInitGPIO s = Done (tt, s0) else s0 = s).
    { case_decide; [done|]. by injection E0 as ->. }
    apply bind_inv in E as (v & s2 & E2 & E). rewrite (decide_False (P := 0 ≠ 0)) in E by auto.
    assert (Hu : used s2 = used s).
    { rewrite (used_mm _ _ _ _ E2). case_decide; [by apply used_InitGPIO in E0'|by subst]. }
    destruct (present_run (Z.land v (Z.shiftl 1 (47 - 32))) s2) as [old Eo].
    { specialize (Hej _ _ _ E0' E2). unfold to_initialise, used in *. by rewrite Hu. }
    rewrite Eo in E. apply bind_inv in E as (ver & s3 & E3 & _). eexists. exists s0, v, s2, ver, s3. done. }
  destruct (sdInit_run s s1 Hp Hej) as [old Eo]. rewrite Eo in E.
  destruct (init_ready s s1 old r s' E Hp (prepared_unused _ _ Hp)) as [Hi Hr]. split; [done|].
  intros s2 (t1 & t2 & t3 & t4 & Hp' & Ha & Hw & Hid & Hfin). rewrite (prepared_unique _ _ _ Hp' Hp) in Ha.
  rewrite (Hr _ _ _ _ Ha Hw Hid Hfin). split; [done|]. by destruct Hfin as (? & ? & ? & _ & _ & _ & ->).
Qed.
End protocol.
