(* ===== verification/SdProps.v ===== *)
(** * The SD card driver: initialisation and the clock

    [sdInit] on any card, and the divider of the clock. *)
From S2P Require Import Prelude Words Kalloc Traps Mmio SdRegs Sd SdSpec SdProtocol.

Section init.
Context {H : Type} `{CounterRuns H}.
Implicit Types (c : SDDescriptor) (r i arg ty : Z).
Abbreviation runs := (runs (H := H)).

(** ** Commands with their application prefix *)
Lemma frame_trans ty c1 c2 c3 : frame ty c1 c2 → frame ty c2 c3 → frame ty c1 c3.
Proof. intros (A1 & A2 & A3 & A4 & A5) (B1 & B2 & B3 & B4 & B5). unfold frame. split; [by rewrite B1|].
  split; [intros Hk; by rewrite B2, A2|]. split; [intros Hk; by rewrite B3, A3|]. split; intros Hk; [by rewrite B4, A4|by rewrite B5, A5].
Qed.
(** A command without one of the long responses changes none of the registers it holds. *)
Lemma frame_plain ty ty' c c' : ty = RESP_NO ∨ ty = RESP_R1 → frame ty c c' → frame ty' c c'.
Proof. intros Hty (A1 & A2 & A3 & A4 & A5). unfold frame. destruct Hty as [-> | ->]; auto 10. Qed.
(** The result of a whole command. *)
Definition ran ty c r c' : Prop := plain r ∧ frame ty c c' ∧ (named c ∨ r = 0 → named c').

Lemma sent_ran i c r c' : 0 <= i < 39 → sent i c r c' → ran (resp_of i) c r c'.
Proof.
  intros Hi (Hp & Hf & Hl). split; [done|split; [done|]]. destruct Hl as [[-> ->]|Hl]; [intros [?|[=]]; done|].
  intros _. exists (Z.to_nat i). split; [done|lia].
Qed.
Lemma runs_or_return c (m : M (sst H) Z) fail k Qm Q : runs c m Qm →
  (∀ r c', Qm r c' → r ≠ 0 → runs c' (fail r) Q) → (∀ c', Qm 0 c' → runs c' k Q) → runs c (or_return m fail k) Q.
Proof.
  intros Hm Hf Hk. eapply runs_bind; [done|]. cbv beta. intros r c' HQ. apply runs_if; intros Hr; [by apply Hf|].
  apply Hk. by replace 0 with r by lia.
Qed.

Lemma runs_app c i : named c ∨ i < IX_APP_CMD_START → runs c (issue_app i) (λ r c', plain r ∧ frame RESP_NO c c' ∧ (named c → named c') ∧ (r ≠ 0 → named c')).
Proof.
  intros Hn. unfold issue_app. apply runs_if; intros Hi; [|by apply runs_ret]. destruct Hn as [Hn|]; [|lia].
  unfold sdSendAppCommand. run_step. apply runs_if; intros _.
  - eapply runs_bind; [apply runs_SendCommandP; cbv; split; congruence|]. cbv beta. intros r c' Hs. apply sent_ran in Hs as (_ & Hf & Hn'); [|cbv; split; congruence].
    apply runs_ret. split; [done|]. split; [|auto]. eapply frame_plain; [|exact Hf]. by left.
  - eapply runs_or_return; [apply runs_SendCommandP; cbv; split; congruence|..]; cbv beta.
    + intros r c' Hs Hr. apply sent_ran in Hs as (Hp & Hf & Hn'); [|cbv; split; congruence].
      eapply runs_mono; [apply runs_Debug; auto|]. cbv beta. intros r' c'' [-> ->]. split; [done|]. split; [|auto]. eapply frame_plain; [|exact Hf]. by right.
    + intros c' Hs. apply sent_ran in Hs as (Hp & Hf & Hn'); [|cbv; split; congruence]. run_step. apply runs_ret.
      split; [by case_decide|]. split; [|auto]. eapply frame_plain; [|exact Hf]. by right.
Qed.
Lemma runs_check c i : runs c (check_app i) (λ r c', c' = c ∧ (r = SD_ERROR_APP_CMD ∨ r = 0)).
Proof. unfold check_app. run_step. apply runs_ret. split; [done|]. case_decide; auto. Qed.
Lemma runs_send c i arg : 0 <= i < 39 → runs c (or_return (sdSendCommandP i arg) mret (check_app i)) (ran (resp_of i) c).
Proof.
  intros Hi. eapply runs_or_return; [by apply runs_SendCommandP|..]; cbv beta.
  - intros r c' Hs _. apply runs_ret. by apply sent_ran.
  - intros c' Hs. apply sent_ran in Hs as (_ & Hf & Hn); [|done]. eapply runs_mono; [apply runs_check|]. cbv beta.
    intros r c'' [-> Hr]. split; [by destruct Hr as [->| ->]|]. split; [done|]. intros _. apply Hn. by right.
Qed.
Lemma runs_prefixed c i (k : M (sst H) Z) : named c ∨ i < IX_APP_CMD_START →
  (∀ c', frame RESP_NO c c' → runs c' k (ran (resp_of i) c')) → runs c (or_return (issue_app i) sdDebugResponse k) (ran (resp_of i) c).
Proof.
  intros Hn Hk. eapply runs_or_return; [by apply runs_app|..]; cbv beta.
  - intros r c' (Hp & Hf & _ & Hn') Hr. eapply runs_mono; [apply runs_Debug; auto|]. cbv beta. intros r' c'' [-> ->].
    split; [done|]. split; [|auto]. eapply frame_plain; [|exact Hf]. by left.
  - intros c' (_ & Hf & Hn' & _). eapply runs_mono; [by apply Hk|]. intros r c'' (Hp & Hf' & Hn''). split; [done|].
    split; [|naive_solver]. eapply frame_trans; [|done]. eapply frame_plain; [|exact Hf]. by left.
Qed.
Lemma runs_SendCommandA c i arg : 0 <= i < 39 → named c ∨ i < IX_APP_CMD_START → runs c (sdSendCommandA i arg) (ran (resp_of i) c).
Proof. intros Hi Hn. apply runs_prefixed; [done|]. intros c' _. by apply runs_send. Qed.
Lemma runs_SendCommand c i : 0 <= i < 39 → named c ∨ i < IX_APP_CMD_START → runs c (sdSendCommand i) (ran (resp_of i) c).
Proof.
  intros Hi Hn. apply runs_prefixed; [done|]. intros c' _. destruct (lookup_lt_is_Some_2 sdCommandTable (Z.to_nat i)) as [cmd Hcmd]; [cbn; lia|].
  eapply runs_bind; [rewrite Hcmd; apply (runs_ret _ cmd (λ a c1, a = cmd ∧ c1 = c')); by split|]. cbv beta. intros a c1 [-> ->].
  run_step. by apply runs_send.
Qed.
(** ** The clock, the reset and the registers of the card *)
Lemma returns_control1 m b : returns (H := H) (if b : bool then control1_lacks m else control1_has m) (λ _, True).
Proof. destruct b; (eapply returns_bind; [apply returns_get|]); intros v _; by apply returns_ret. Qed.
Lemma runs_SetClock c freq : u32 freq ≠ 0 → runs c (sdSetClock freq) (λ r c', c' = c ∧ (r = SD_OK ∨ r = SD_ERROR_CLOCK)).
Proof.
  intros Hfreq. unfold sdSetClock. eapply runs_bind.
  { apply (runs_loop _ (λ n c', c' = c ∧ 0 < n <= 100000) (λ _ c', c' = c) (λ n, Z.to_nat (n - 1))); [|split; [done|lia]|lia].
    intros n c' [-> Hn]. unfold clock_turn. run_step. apply runs_if; intros _; [|by apply runs_ret].
    apply runs_if; intros Hne; [run_step; apply runs_ret; split; [split; [done|lia]|lia]|by apply runs_ret]. }
  cbv beta. intros n c' ->. apply runs_if; intros _; [run_step; apply runs_ret; auto|].
  run_step. run_step. eapply (runs_bind _ _ _ (λ _ c', c' = c)); [rewrite decide_False by done; by apply runs_ret|]. intros _ c' ->.
  repeat run_step. eapply runs_bind; [apply runs_wait; [apply (returns_control1 _ true)|lia]|]. cbv beta. intros n' c' [-> _].
  apply runs_if; intros _; [apply runs_ret; auto|]. run_step. apply runs_ret. auto.
Qed.
Lemma runs_ResetCard c ty : runs c (sdResetCard ty) (λ r c', plain r ∧ init_ c' = init_ c ∧ absent c' = absent c ∧ (r = 0 → named c')).
Proof.
  unfold sdResetCard. run_step. run_step. run_step. eapply runs_bind; [apply runs_wait; [apply (returns_control1 _ false)|lia]|]. cbv beta. intros n c' [-> _].
  apply runs_if; intros _; [by apply runs_ret|]. run_step. run_step.
  eapply runs_or_return; [by apply runs_SetClock|..]; cbv beta.
  - intros r c' [-> Hr] Hr0. apply runs_ret. by destruct Hr as [->| ->].
  - intros c' [-> _]. run_step. run_step. run_step. eapply runs_mono; [apply runs_SendCommand; [cbv; split; congruence|by right]|]. cbv beta.
    intros r c' (Hp & (Hs & _) & Hn). injection Hs as _ _ _ _ _ _ Hi Ha. split; [done|]. split; [done|]. split; [done|]. auto.
Qed.

(** What the search for the card's type leaves alone. *)
Definition flags c := (init_ c, absent c).
Lemma frame_flags ty c c' : frame ty c c' → flags c' = flags c.
Proof. intros [Hs _]. unfold flags. by injection Hs as _ _ _ _ _ _ -> ->. Qed.
Definition powered c : Prop := Z.land (ocr c) R3_COMPLETE ≠ 0 ∧ Z.land (ocr c) ACMD41_VOLTAGE ≠ 0.
Lemma runs_AppSendOpCond c arg : named c →
  runs c (sdAppSendOpCond arg) (λ r c', plain r ∧ named c' ∧ flags c' = flags c ∧ (r = 0 → powered c')).
Proof.
  intros Hn. unfold sdAppSendOpCond. run_step.
  assert (Hcmd : ∀ c', named c' → runs c' (sdSendCommandA IX_APP_SEND_OP_COND arg) (λ r c1, plain r ∧ named c1 ∧ flags c1 = flags c')).
  { intros c' Hn'. eapply runs_mono; [apply runs_SendCommandA; [cbv; split; congruence|by left]|]. intros r c1 (Hp & Hf & Hn1). split; [done|]. split; [auto|].
    by eapply frame_flags. }
  eapply runs_bind; [by apply Hcmd|]. cbv beta. intros r c1 (Hp & Hn1 & Hf1). apply runs_if; intros Hr.
  { apply runs_ret. split; [done|]. split; [done|]. split; [done|]. by intros ->; destruct Hr. }
  eapply runs_bind.
  { apply (runs_loop _ (λ n c', 0 <= n <= 6 ∧ named c' ∧ flags c' = flags c)
      (λ o c', named c' ∧ flags c' = flags c ∧ match o with Some r => plain r ∧ r ≠ 0 | None => True end) (λ n, Z.to_nat n)); [|auto with lia|lia].
    intros n c' (Hn0 & Hn' & Hf'). unfold op_cond_turn. run_step. apply runs_if; intros _; [|by apply runs_ret].
    apply runs_if; intros Hne; [|by apply runs_ret]. run_step. run_step. eapply runs_bind; [by apply Hcmd|]. cbv beta. intros r' c2 (Hp' & Hn2 & Hf2).
    apply runs_if; intros Hr'; apply runs_ret; [split; [done|]; split; [congruence|]; split; [done|]; tauto|].
    split; [split; [lia|]; split; [done|congruence]|lia]. }
  cbv beta. intros o c2 (Hn2 & Hf2 & Ho). destruct o as [r'|].
  - apply runs_ret. destruct Ho. split; [done|]. split; [done|]. by split.
  - run_step. apply runs_ret. case_decide as Hc; [by split|]. case_decide as Hv; [by split|]. split; [done|]. split; [done|]. split; [done|]. intros _. by split.
Qed.

Definition basics c := (capacity c, fileFormat c, type_ c, init_ c, absent c, cid c, csd c, ocr c).
Lemma frame_basics ty c c' : bool_decide (ty ∈ [RESP_R2I; RESP_R2S; RESP_R3]) = false → frame ty c c' → basics c' = basics c.
Proof.
  intros Hty%bool_decide_eq_false. rewrite !not_elem_of_cons in Hty. destruct Hty as (Hy1 & Hy2 & Hy3 & _). intros (Hs & A1 & A2 & A3 & _). unfold basics. injection Hs as -> _ _ -> -> _ -> ->. by rewrite A1, A2, A3.
Qed.
Lemma runs_ReadSCR c : named c → runs c sdReadSCR (λ r c', plain r ∧ named c' ∧ basics c' = basics c).
Proof.
  intros Hn. unfold sdReadSCR. eapply runs_bind; [apply runs_WaitForData|]. cbv beta. intros b c' [-> _].
  apply runs_if; intros _; [by apply runs_ret|]. run_step.
  eapply runs_or_return; [apply runs_SendCommand; [cbv; split; congruence|by left]|..]; cbv beta.
  { intros r c1 (Hp & Hf & Hn1) _. eapply runs_mono; [apply runs_Debug; auto|]. cbv beta. intros r' c2 [-> ->]. split; [done|]. split; [auto|].
    eapply frame_basics; [|exact Hf]. reflexivity. }
  intros c1 (_ & Hf & Hn1). specialize (Hn1 (or_introl Hn)). apply frame_basics in Hf; [|reflexivity]. rewrite <-Hf. clear Hf.
  eapply runs_or_return; [apply runs_WaitForInterrupt|..]; cbv beta.
  { intros r c2 [-> Hr] _. eapply runs_mono; [by apply runs_Debug|]. cbv beta. intros r' c2 [-> ->]. by destruct Hr as [->|[->| ->]]. }
  intros c2 [-> _]. eapply runs_bind.
  { apply (runs_loop _ (λ st c', 0 <= st.1 <= 2 ∧ 0 < st.2 <= 100000 ∧ named c' ∧ basics c' = basics c1)
      (λ _ c', named c' ∧ basics c' = basics c1) (λ st, Z.to_nat (2 - st.1 + st.2))); [|cbn; auto with lia|cbn; lia].
    intros [k n] c2 (Hk & Hn0 & Hn2 & Hb2). cbn [fst snd] in *. unfold scr_turn. apply runs_if; intros Hlt; [|by apply runs_ret]. run_step.
    apply runs_if; intros _.
    - run_step. run_step. apply runs_ret. cbn [fst snd]. split; [|lia]. split; [lia|]. by split.
    - run_step. apply runs_if; intros Hz; apply runs_ret; [done|]. cbn [fst snd]. split; [|lia]. split; [lia|]. split; [lia|done]. }
  cbv beta. intros k c2 [Hn2 Hb2]. apply runs_if; intros _; [run_step; by apply runs_ret|]. run_step. by apply runs_ret.
Qed.
(** ** [sdInit] *)
Lemma runs_named c (m : M (sst H) Z) ty k Q : runs c m (ran ty c) → named c →
  (∀ r c', plain r → r ≠ 0 → frame ty c c' → Q r c') → (∀ c', frame ty c c' → named c' → runs c' k Q) →
  runs c (or_return m sdDebugResponse k) Q.
Proof.
  intros Hm Hn Hf Hk. eapply runs_or_return; [done|..]; cbv beta.
  - intros r c' (Hp & Hfr & Hn') Hr. eapply runs_mono; [apply runs_Debug; auto|]. cbv beta. intros r' c'' [-> ->]. by apply Hf.
  - intros c' (_ & Hfr & Hn'). auto.
Qed.

(** The card is ready for use: what [sdInit] has found out about it, and its answer. *)
Definition ready (old : list Z) r c : Prop :=
  init_ c = 1 ∧ capacity c = csd_capacity (csd c) ∧ fileFormat c = csd_fileFormat (csd c) ∧
  (fileFormat c = CSD3VN_FILE_FORMAT_DOSFAT ∨ fileFormat c = CSD3VN_FILE_FORMAT_HDD) ∧
  r = (if decide (old = cid c) then SD_CARD_REINSERTED else SD_CARD_CHANGED).
(** What the commands after the search may end in. *)
Definition selected old c r c' : Prop :=
  absent c' = absent c ∧ r ≠ SD_OK ∧
  (plain r ∧ init_ c' = init_ c ∨ ready old r c' ∧ type_ c' = type_ c ∧ ocr c' = ocr c).

Lemma select_failed old c c' r : plain r → r ≠ 0 → flags c' = flags c → selected old c r c'.
Proof. intros Hp Hr Hf. injection Hf as Hi Ha. unfold selected. auto. Qed.
Lemma basics_flags c c' : basics c' = basics c → flags c' = flags c.
Proof. intros [=]. unfold flags. congruence. Qed.
Lemma runs_bus_width c : named c →
  runs c (or_return (sdSendCommandA IX_SET_BUS_WIDTH (Z.lor (i32 (rca c)) 2)) mret (set_bits EMMC_CONTROL0 C0_HCTL_DWITDH;; mret 0))
    (λ r c', plain r ∧ named c' ∧ basics c' = basics c).
Proof.
  intros Hn. eapply runs_or_return; [apply runs_SendCommandA; [cbv; split; congruence|by left]|..]; cbv beta.
  - intros r c' (Hp & Hf & Hn') _. apply runs_ret. split; [done|]. split; [auto|]. eapply frame_basics; [|exact Hf]. reflexivity.
  - intros c' (_ & Hf & Hn'). run_step. apply runs_ret. split; [done|]. split; [auto|]. eapply frame_basics; [|exact Hf]. reflexivity.
Qed.

Lemma runs_finish old c : named c → 2 <= type_ c <= 4 →
  runs c (sdInit_finish (Some old)) (λ r c', r ≠ 0 ∧ (plain r ∧ basics c' = basics c ∨
    basics c' = basics (with_init 1 c) ∧ r = (if decide (old = cid c) then SD_CARD_REINSERTED else SD_CARD_CHANGED))).
Proof.
  intros Hn Ht. unfold sdInit_finish.
  eapply runs_or_return; [by apply runs_SetClock|..]; cbv beta.
  { intros r c' [-> Hr] Hr0. eapply runs_mono; [by apply runs_Debug|]. cbv beta. intros r' c' [-> ->]. destruct Hr as [->| ->]; [done|]. split; [done|]. by left. }
  intros c' [-> _]. eapply runs_named; [apply runs_SendCommand; [cbv; split; congruence|by left]|done|..].
  { intros r c' Hp Hr Hf. split; [done|]. left. split; [done|]. eapply frame_basics; [|exact Hf]. reflexivity. }
  intros c1 Hf Hn1. apply frame_basics in Hf; [|reflexivity]. assert (Hc1 := Hf). clear Hf.
  eapply runs_or_return; [by apply runs_ReadSCR|..]; cbv beta.
  { intros r c2 (Hp & Hn2 & Hb) Hr. eapply runs_mono; [by apply runs_Debug|]. cbv beta. intros r' c3 [-> ->]. split; [done|]. left. split; [done|congruence]. }
  intros c2 (_ & Hn2 & Hb2). run_step.
  eapply (runs_or_return _ _ _ _ (λ r c', plain r ∧ named c' ∧ basics c' = basics c)).
  { apply runs_if; intros _; [|apply runs_ret; split; [done|]; split; [done|congruence]].
    eapply runs_mono; [by apply runs_bus_width|]. cbv beta. intros r c3 (? & ? & ?). split; [done|]. split; [done|congruence]. }
  { intros r c3 (Hp & Hn3 & Hb) Hr. eapply runs_mono; [by apply runs_Debug|]. cbv beta. intros r' c4 [-> ->]. split; [done|]. by left. }
  intros c3 (_ & Hn3 & Hb3). eapply runs_named; [apply runs_SendCommandA; [cbv; split; congruence|by left]|done|..].
  { intros r c4 Hp Hr Hf. split; [done|]. left. split; [done|]. apply frame_basics in Hf; [congruence|reflexivity]. }
  intros c4 Hf _. apply frame_basics in Hf; [|reflexivity]. assert (Hb4 : basics c4 = basics c) by congruence. clear Hf Hb2 Hb3.
  eapply (runs_bind _ _ _ (λ _ c', c' = c4)).
  { unfold sdParseCID. run_step. injection Hb4 as _ _ Hty _ _ _ _ _. destruct (lookup_lt_is_Some_2 SD_TYPE_NAME (Z.to_nat (type_ c4))) as [nm Hnm]; [cbn; lia|].
    rewrite Hnm. eapply runs_bind; [apply (runs_ret _ nm (λ _ c', c' = c4)); done|]. cbv beta. intros _ c' ->. by apply runs_ret. }
  intros _ c' ->. run_step. run_step. eapply runs_bind; [apply (runs_ret _ old (λ a c', a = old ∧ c' = with_init 1 c4)); by split|].
  cbv beta. intros o c' [-> ->]. apply runs_ret. split; [by case_decide|]. right. injection Hb4 as Hx1 Hx2 Hx3 Hx4 Hx5 Hx6 Hx7 Hx8. cbn.
  rewrite Hx6. split; [|done]. unfold basics. cbn. congruence.
Qed.
Lemma runs_select old c : named c → 2 <= type_ c <= 4 → runs c (sdInit_select (Some old)) (selected old c).
Proof.
  intros Hn Ht. unfold sdInit_select. run_step.
  eapply (runs_or_return _ _ _ _ (λ r c', r = 0 ∧ c' = c)); [apply runs_if; intros _; by apply runs_ret|naive_solver|]. intros c' [_ ->].
  assert (Hfail : ∀ ty r c', plain r → r ≠ 0 → frame ty c c' → selected old c r c').
  { intros ty r c' Hp Hr Hf. apply select_failed; [done..|]. by eapply frame_flags. }
  eapply runs_named; [apply runs_SendCommand; [cbv; split; congruence|by left]|done|by apply Hfail|]. intros c1 Hf1 Hn1.
  assert (Hst : static c1 = static c ∧ ocr c1 = ocr c) by (split; [apply Hf1|apply Hf1; by vm_compute]). clear Hf1.
  eapply runs_named; [apply runs_SendCommand; [cbv; split; congruence|by left]|done|..].
  { intros r c' Hp Hr Hf. apply select_failed; [done..|]. apply frame_flags in Hf. rewrite Hf. destruct Hst as [[=] _]. unfold flags. congruence. }
  intros c2 Hf2 Hn2. assert (Hst2 : static c2 = static c ∧ ocr c2 = ocr c).
  { destruct Hst as [<- <-]. split; [apply Hf2|apply Hf2; by vm_compute]. } clear Hf2 Hst.
  eapply runs_named; [apply runs_SendCommand; [cbv; split; congruence|by left]|done|..].
  { intros r c' Hp Hr Hf. apply select_failed; [done..|]. apply frame_flags in Hf. rewrite Hf. destruct Hst2 as [[=] _]. unfold flags. congruence. }
  intros c3 Hf3 Hn3. assert (Hst3 : static c3 = static c ∧ ocr c3 = ocr c).
  { destruct Hst2 as [<- <-]. split; [apply Hf3|apply Hf3; by vm_compute]. } clear Hf3 Hst2.
  destruct Hst3 as [Hs Ho]. injection Hs as _ _ _ _ Hx5 _ Hx7 Hx8.
  set (c4 := with_size (csd_capacity (csd c3)) (csd_fileFormat (csd c3)) c3).
  eapply (runs_bind _ _ _ (λ _ c', c' = c4)); [apply runs_set_card|]. intros _ c' ->. run_step.
  apply runs_if; intros Hff.
  { apply runs_ret. unfold selected. cbn. split; [done|]. split; [done|]. by left. }
  eapply runs_mono; [apply (runs_finish old c4); [exact Hn3|cbn; lia]|]. cbv beta. intros r c' [Hr0 Hr]. unfold selected.
  destruct Hr as [[Hp Hb]|[Hb Hr]]; unfold basics in Hb; injection Hb as Hy1 Hy2 Hy3 Hy4 Hy5 Hy6 Hy7 Hy8; cbn in *.
  - split; [congruence|]. split; [done|]. left. split; [done|congruence].
  - split; [congruence|]. split; [done|]. right. split; [|split; congruence]. unfold ready. rewrite Hy1, Hy2, Hy4, Hy6, Hy7.
    split_and!; try done. destruct (decide (csd_fileFormat (csd c3) = CSD3VN_FILE_FORMAT_DOSFAT)) as [?|?]; [by left|].
    destruct (decide (csd_fileFormat (csd c3) = CSD3VN_FILE_FORMAT_HDD)) as [?|?]; [by right|]. by destruct Hff.
Qed.
(** The type goes with the answers of the card. *)
Definition typed c : Prop :=
  type_ c = SD_TYPE_1 ∨ type_ c = (if decide (Z.land (ocr c) R3_CCS ≠ 0) then SD_TYPE_2_HC else SD_TYPE_2_SC).
(** How [sdInit] ends for a card that was not in use. *)
Definition initialised old (a0 i0 : Z) r c' : Prop :=
  absent c' = a0 ∧ r ≠ SD_OK ∧ (plain r ∧ init_ c' = i0 ∨ ready old r c' ∧ powered c' ∧ typed c').

Lemma selected_initialised old c r c' : powered c → typed c → selected old c r c' → initialised old (absent c) (init_ c) r c'.
Proof.
  intros Hp Ht (Ha & Hr & Hs). split; [done|]. split; [done|]. destruct Hs as [Hs|(Hrd & Hy & Ho)]; [by left|]. right.
  split; [done|]. unfold powered, typed. by rewrite Hy, Ho.
Qed.
Lemma runs_type_found old c f : powered c → named c → typed (f c) → ocr (f c) = ocr c → flags (f c) = flags c → named (f c) →
  runs c (set_card f;; sdInit_select (Some old)) (initialised old (absent c) (init_ c)).
Proof.
  intros Hp Hn Ht Ho Hf Hn'. eapply (runs_bind _ _ _ (λ _ c', c' = f c)); [apply runs_set_card|]. intros _ c' ->.
  assert (2 <= type_ (f c) <= 4).
  { destruct Ht as [->| ->]; [unfold SD_TYPE_1; lia|]. case_decide; unfold SD_TYPE_2_HC, SD_TYPE_2_SC; lia. }
  eapply runs_mono; [by apply runs_select|]. intros r c' Hs. injection Hf as <- <-. apply selected_initialised; [|done..].
  unfold powered in *. by rewrite Ho.
Qed.
Lemma failed_initialised old c c' r : plain r → r ≠ 0 → flags c' = flags c → initialised old (absent c) (init_ c) r c'.
Proof. intros Hp Hr Hf. injection Hf as Hi Ha. unfold initialised. auto. Qed.
Lemma flags_initialised old c c' r c2 : flags c' = flags c → initialised old (absent c') (init_ c') r c2 → initialised old (absent c) (init_ c) r c2.
Proof. intros [= <- <-]. done. Qed.
Lemma runs_power old c c0 arg f : named c → flags c = flags c0 →
  (∀ c', typed (f c') ∧ ocr (f c') = ocr c' ∧ flags (f c') = flags c' ∧ lastCmd (f c') = lastCmd c') →
  runs c (or_return (sdAppSendOpCond arg) sdDebugResponse (set_card f;; sdInit_select (Some old))) (initialised old (absent c0) (init_ c0)).
Proof.
  intros Hn Hf0 Hf. eapply runs_or_return; [by apply runs_AppSendOpCond|..]; cbv beta.
  - intros r c1 (Hp & Hn1 & Hf1 & _) Hr. eapply runs_mono; [by apply runs_Debug|]. cbv beta. intros r' c2 [-> ->].
    apply failed_initialised; [done..|congruence].
  - intros c1 (_ & Hn1 & Hf1 & Hp). specialize (Hp eq_refl). destruct (Hf c1) as (Ht & Ho & Hfl & Hl).
    eapply runs_mono; [apply runs_type_found; try done; unfold named; by rewrite Hl|]. cbv beta. intros r c2 Hi.
    eapply flags_initialised; [|exact Hi]. congruence.
Qed.
Lemma runs_type old c : named c → runs c (sdInit_type (sdInit_select (Some old))) (initialised old (absent c) (init_ c)).
Proof.
  intros Hn. unfold sdInit_type. eapply runs_bind; [apply runs_SendCommandA; [cbv; split; congruence|by left]|]. cbv beta.
  intros r c1 (Hp & Hf & Hn1). apply frame_flags in Hf. assert (named c1) by auto. clear Hn1.
  apply runs_if; intros Hr.
  - run_step. apply runs_power; [done..|]. intros c2. split_and!; [by right|done..].
  - apply runs_if; intros Hb; [apply runs_ret; by apply failed_initialised|]. run_step.
    eapply (runs_or_return _ _ _ _ (λ r c', plain r ∧ flags c' = flags c ∧ (r = 0 → named c'))).
    + apply runs_if; intros _; [|by apply runs_ret]. eapply runs_mono; [apply runs_ResetCard|]. cbv beta. intros r' c2 (Hp' & Hi & Ha & Hn').
      split; [done|]. split; [|done]. rewrite <-Hf. unfold flags. congruence.
    + intros r' c2 (Hp' & Hf' & _) Hr'. apply runs_ret. by apply failed_initialised.
    + intros c2 (_ & Hf' & Hn'). apply runs_power; [auto|done|]. intros c3. split_and!; [by left|done..].
Qed.

Context (mbox : M (mmio H) Z) (Hmbox : returns mbox (λ _, True)).
Lemma runs_BaseClock c : runs c (sdGetBaseClock mbox) (λ r c', c' = c ∧ (r = SD_OK ∨ r = SD_ERROR)).
Proof.
  unfold sdGetBaseClock. eapply runs_bind; [by apply runs_mm|]. cbv beta. intros v c' [-> _].
  eapply (runs_bind _ _ _ (λ _ c', c' = c)); [by apply runs_modify|]. intros _ c' ->. apply runs_ret. split; [done|]. case_decide; auto.
Qed.
Lemma runs_InitGPIO c : runs c sdInitGPIO (λ _ c', c' = c).
Proof.
  assert (Hp : ∀ pins, runs c (pull_up pins) (λ _ c', c' = c)).
  { intros pins. unfold pull_up. repeat run_step. apply runs_wr. }
  unfold sdInitGPIO. repeat first [run_step|eapply runs_bind; [apply Hp|]; cbv beta; intros _ ? ->]. apply runs_wr.
Qed.
Lemma runs_reset old c : runs c (sdInit_reset mbox (Some old)) (initialised old (absent c) (init_ c)).
Proof.
  unfold sdInit_reset. run_step. eapply (runs_bind _ _ _ (λ _ c', c' = c)); [by apply runs_modify|]. intros _ c' ->.
  eapply runs_or_return; [apply runs_BaseClock|..]; cbv beta.
  { intros r c' [-> Hr] Hr0. apply runs_ret. apply failed_initialised; [by destruct Hr as [->| ->]|done..]. }
  intros c' [-> _]. eapply runs_or_return; [apply runs_ResetCard|..]; cbv beta.
  { intros r c' (Hp & Hi & Ha & _) Hr. apply runs_ret. apply failed_initialised; [done..|]. unfold flags. congruence. }
  intros c' (_ & Hi & Ha & Hn). eapply runs_mono; [apply runs_type; auto|]. intros r c2 Hin. by rewrite Hi, Ha in Hin.
Qed.
(** How [sdInit] ends, by whether the card was ejected. *)
Definition init_result (ej : Z) c r c' : Prop :=
  if decide (init_ c ≠ 0 ∧ ej = 0) then r = SD_OK ∧ c' = with_absent 0 c
  else initialised (if decide (init_ c = 0) then [0; 0; 0; 0] else cid c) 0 0 r c'.
Lemma runs_present ej c : runs c (sdInit_present mbox ej) (init_result ej c).
Proof.
  unfold sdInit_present, init_result. run_step.
  eapply (runs_bind _ _ _ (λ o c', if decide (init_ c ≠ 0 ∧ ej = 0) then o = None ∧ c' = with_absent 0 c
    else o = Some (if decide (init_ c = 0) then [0; 0; 0; 0] else cid c) ∧ c' = with_init 0 (with_absent 0 c))).
  { unfold take_oldCID. run_step. cbn [with_absent init_ cid]. apply runs_if; intros Hc.
    - eapply (runs_bind _ _ _ (λ _ c', c' = with_init 0 (with_absent 0 c))); [apply runs_set_card|]. intros _ c' ->. apply runs_ret.
      rewrite decide_False by tauto. by rewrite decide_False by tauto.
    - apply runs_if; intros Hi; apply runs_ret.
      + rewrite decide_False by tauto. rewrite decide_True by done. split; [done|]. destruct c. cbn in *. by subst.
      + by rewrite decide_True by (split; [done|]; destruct (decide (ej = 0)); tauto). }
  cbv beta. intros o c' Ho. destruct (decide (init_ c ≠ 0 ∧ ej = 0)) as [[Hi _]|Hne]; destruct Ho as [-> ->]; run_step.
  - cbn [with_absent init_]. rewrite decide_True by done. by apply runs_ret.
  - rewrite decide_False by (cbn; tauto). apply runs_reset.
Qed.

(** What tells whether the card was ejected since the last initialisation. *)
Definition ejected (s : sst H) : Z := Z.land (u32 (fst (dev_load GPEDS1 (hw (mm s))))) (Z.shiftl 1 (47 - 32)).

(** [sdInit] returns, and what it leaves: the card as it was, or one that is in use or not. *)
Lemma runs_Init s : ∃ r s', sdInit mbox s = Done (r, s') ∧
  let c := sdCard s in let c' := sdCard s' in
  if decide (init_ c ≠ 0 ∧ ejected s = 0) then r = SD_OK ∧ c' = with_absent 0 c
  else absent c' = 0 ∧ r ≠ SD_OK ∧
    (plain r ∧ init_ c' = 0 ∨
     ready (if decide (init_ c = 0) then [0; 0; 0; 0] else cid c) r c' ∧ powered c' ∧ typed c').
Proof.
  unfold sdInit. m_step (eq_refl : gets sdCard s = Done (sdCard s, s)). destruct (decide (init_ (sdCard s) = 0)) as [Hi|Hi].
  - destruct (runs_InitGPIO _ s eq_refl) as ([] & s1 & E1 & Hs1). m_step E1. destruct (runs_rd _ GPEDS1 s1 Hs1) as (v & s2 & E2 & Hs2 & _).
    m_step E2. rewrite (decide_False (P := 0 ≠ 0)) by auto. destruct (runs_present (Z.land v (Z.shiftl 1 (47 - 32))) _ s2 Hs2) as (r & s' & E & HR).
    exists r, s'. split; [exact E|]. cbv zeta. rewrite decide_False by tauto. unfold init_result in HR. rewrite decide_False in HR by tauto. by rewrite decide_True in HR by done.
  - m_step (ret_done tt s). destruct (runs_rd _ GPEDS1 s eq_refl) as (v & s2 & E2 & Hs2 & _). m_step E2.
    assert (Hv : Z.land v (Z.shiftl 1 (47 - 32)) = ejected s).
    { unfold ejected. f_equal. unfold rd, on_mm, device_get_u32 in E2. destruct (dev_load GPEDS1 (hw (mm s))) as [v0 h]. injection E2 as E2 _. by rewrite <-E2. }
    rewrite (decide_False (P := 0 ≠ 0)) by auto. destruct (runs_present (Z.land v (Z.shiftl 1 (47 - 32))) _ s2 Hs2) as (r & s' & E & HR).
    exists r, s'. split; [exact E|]. cbv zeta. unfold init_result in HR. rewrite Hv, (decide_False (P := init_ (sdCard s) = 0)) in HR by done.
    by destruct (decide (init_ (sdCard s) ≠ 0 ∧ ejected s = 0)).
Qed.

(** C28: initialisation of the card.  If the question for the clock rate returns (the
    mailbox answers), [sdInit] returns, without a panic or a wild access, whatever the card
    and the controller do.  A card in use that was not ejected is left as it is, with the
    answer 0.  Otherwise the answer is not 0 and there are two ends.  Either the whole
    protocol went well ([SdProtocol.went_well]: every command, wait and clock change of it
    succeeded, in order) and [sdInit] stopped in the state this leads to: the card is marked
    as in use, is powered, its type, capacity and file format are those its registers tell,
    and the answer is [SD_CARD_REINSERTED] or [SD_CARD_CHANGED], by the identification of the
    card that was in use before.  Or the protocol did not go well: then the card is not
    marked and the answer is neither of the two. *)
Theorem sdInit_returns s : ∃ r s', sdInit mbox s = Done (r, s') ∧
  let c := sdCard s in let c' := sdCard s' in
  if decide (init_ c ≠ 0 ∧ ejected s = 0) then r = SD_OK ∧ c' = with_absent 0 c
  else absent c' = 0 ∧ r ≠ SD_OK ∧
    (went_well mbox s s' ∧ ready (if decide (init_ c = 0) then [0; 0; 0; 0] else cid c) r c' ∧ powered c' ∧ typed c' ∨
     (∀ s2, ¬ went_well mbox s s2) ∧ plain r ∧ init_ c' = 0).
Proof.
  destruct (runs_Init s) as (r & s' & E & HR). exists r, s'. split; [done|]. cbv zeta in *. case_decide as Hd; [done|].
  destruct HR as (Ha & Hr & Hcase). split; [done|]. split; [done|]. destruct (sdInit_marks mbox s r s' E) as [Hw Hun].
  { intros s0 v s2 E0 E2. unfold to_initialise. destruct (decide (init_ (sdCard s) = 0)) as [|Hi]; [by left|right]. subst s0.
    intros Hv. apply Hd. split; [done|]. unfold ejected. rewrite <-Hv. unfold rd, on_mm, device_get_u32 in E2.
    destruct (dev_load GPEDS1 (hw (mm s))) as [v0 h]. injection E2 as <- _. done. }
  unfold used in *. destruct Hcase as [[Hp Hi]|Hcase]; [right|left].
  - split; [|done]. intros s2 H2. destruct (Hun s2 H2) as [_ Hu]. by rewrite Hi in Hu.
  - split; [|done]. apply Hw. destruct Hcase as [[Hi _] _]. by rewrite Hi.
Qed.
End init.

(** ** A card that initialises *)
(** A card that answers at once; its state is the counter and the last command. *)
Record toy_card := mkToy { toy_time : Z; toy_cmd : Z }.
Definition toy_resp0 (cmd : Z) : Z :=
  if decide (cmd = 0x08020000) then 0x1AA
  else if decide (cmd = 0x29020000) then 0xC0FF8000
  else if decide (cmd = 0x03020000) then 0x00010000
  else if decide (cmd = 0x02010000 ∨ cmd = 0x09010000) then 0 else 0x20.
Definition toy_load (r : Z) (t : toy_card) : Z :=
  if decide (r = EMMC_STATUS) then SR_READ_AVAILABLE
  else if decide (r = EMMC_INTERRUPT) then Z.lor INT_CMD_DONE INT_READ_RDY
  else if decide (r = EMMC_CONTROL1) then C1_CLK_STABLE
  else if decide (r = EMMC_SLOTISR_VER) then 0x00020000
  else if decide (r = EMMC_DATA) then 0x02000500
  else if decide (r = EMMC_RESP0) then toy_resp0 (toy_cmd t)
  else if decide (r = EMMC_RESP3) then 0x00400000
  else if decide (r = EMMC_RESP1) then 0x000EE700 else 0.
#[export] Instance toy_hardware : Hardware toy_card := {
  dev_load r t := (toy_load r t, t);
  dev_store r v t := if decide (r = EMMC_CMDTM) then mkToy (toy_time t) v else t;
  dev_count t := (toy_time t, mkToy (toy_time t + 1) (toy_cmd t));
  dev_freq := 1000000;
  dev_delay _ t := t
}.
#[export] Instance toy_counter : CounterRuns toy_card.
Proof. split. intros [t c]. cbn. lia. Qed.
Definition no_card : SDDescriptor := mkCard 0 [0; 0; 0; 0] [0; 0; 0; 0] [0; 0] 0 0 0 0 0 0 0 0 0 0 None 0.
Definition toy_state : sst toy_card := mkSst (mkMmio (mkToy 0 0) []) no_card 0 0.
Lemma sdInit_returns_witness : ∃ s', sdInit (mret 250000000) toy_state = Done (SD_CARD_CHANGED, s') ∧ type_ (sdCard s') = SD_TYPE_2_HC ∧
  capacity (sdCard s') = 2000683008 ∧ init_ (sdCard s') = 1 ∧ went_well (mret 250000000) toy_state s'.
Proof.
  destruct (sdInit_returns (mret 250000000) (λ x, ex_intro _ 250000000 (ex_intro _ x (conj eq_refl I))) toy_state) as (r & s' & E & Hcase).
  exists s'. assert (Er : (λ o, match o with Done (r, s') => (r, type_ (sdCard s'), capacity (sdCard s'), init_ (sdCard s')) | _ => (0, 0, 0, 0) end)
    (sdInit (mret 250000000) toy_state) = (SD_CARD_CHANGED, SD_TYPE_2_HC, 2000683008, 1)) by (vm_compute; reflexivity).
  rewrite E in Er. cbv beta iota in Er. injection Er as Hr H1 H2 H3. subst r. refine (conj E (conj H1 (conj H2 (conj H3 _)))).
  cbv zeta in Hcase. rewrite decide_False in Hcase by (intros [Hi _]; by apply Hi). destruct Hcase as (_ & _ & [[Hw _]|(_ & [Hp _] & _)]); [exact Hw|by destruct Hp].
Defined.
