(* ===== verification/SdQueue.v ===== *)
(** * Requests to the SD card ([driver/sd.c], [fs/block_device.c])

    The queue of buffers that wait for the card, its interrupt handler and the two
    functions of the block device, on the driver of [Sd.v], the queues of [Lists.v]
    and the table of interrupt handlers of [Traps.v].

    The 512 bytes of a buffer are its 128 words, as the driver accesses them.  A
    semaphore is its counter; [sdrw] is cut at its wait: [sdrw_begin] runs up to it and
    [sdrw_resume] from there, once the semaphore has been posted. *)
From S2P Require Import Prelude Words Kalloc Atomics Lists Cache Traps Mmio SdRegs Sd.

Definition BSIZE : Z := 512.
Definition B_VALID : Z := 0x2.
Definition B_DIRTY : Z := 0x4.
(** [struct buf], without its node, which is in the heap. *)
Record buf := mkBuf { flags : Z; blockno : Z; bdata : list Z; sl : Z }.
(** [&b->data], [&b->node] and its [container_of]. *)
Definition data_at (b : Z) : Z := b + 8.
Definition bnode (b : Z) : Z := b + 520.
Definition buf_of (n : Z) : Z := n - 520.

Record rst (H : Type) := mkRst {
  drv : sst H;
  sdlock : SpinLock;
  sdque : Queue.t;
  rnodes : heap;
  bufs : gmap Z buf;
  int_table : list Z }.
Arguments mkRst {H}.
Arguments drv {H}.
Arguments sdlock {H}.
Arguments sdque {H}.
Arguments rnodes {H}.
Arguments bufs {H}.
Arguments int_table {H}.

Section sd.
Context {H : Type} `{!Hardware H} (mbox_get_clock_rate : Prelude.M (mmio H) Z).
(** The local [mbr] of [sd_init]; the code of [sd_intr]. *)
Context (mbr sd_intr_ptr : Z).
Abbreviation M := (M (rst H)).

Definition on_drv {A} (m : Prelude.M (sst H) A) : M A := λ s,
  match m (drv s) with
  | Done (a, x) => Done (a, mkRst x (sdlock s) (sdque s) (rnodes s) (bufs s) (int_table s))
  | Panic => Panic | Crash => Crash | NoFuel => NoFuel
  end.
Definition on_sdlock {A} (m : Prelude.M SpinLock A) : M A := λ s,
  match m (sdlock s) with
  | Done (a, l) => Done (a, mkRst (drv s) l (sdque s) (rnodes s) (bufs s) (int_table s))
  | Panic => Panic | Crash => Crash | NoFuel => NoFuel
  end.
Definition on_que {A} (m : Prelude.M Queue.state A) : M A := λ s,
  match m (Queue.mkState (sdque s) (rnodes s)) with
  | Done (a, x) => Done (a, mkRst (drv s) (sdlock s) (Queue.q x) (Queue.qnodes x) (bufs s) (int_table s))
  | Panic => Panic | Crash => Crash | NoFuel => NoFuel
  end.
Definition get_buf (b : Z) : M buf := λ s, match bufs s !! b with Some x => Done (x, s) | None => Crash end.
Definition set_buf (b : Z) (x : buf) : M unit := λ s,
  match bufs s !! b with
  | Some _ => Done (tt, mkRst (drv s) (sdlock s) (sdque s) (rnodes s) (<[b := x]> (bufs s)) (int_table s))
  | None => Crash
  end.
Definition upd_buf (b : Z) (f : buf → buf) : M unit := x ← get_buf b; set_buf b (f x).
Definition with_flags v x := mkBuf v (blockno x) (bdata x) (sl x).
Definition with_sl v x := mkBuf (flags x) (blockno x) (bdata x) v.
Definition with_word (i : nat) v x := mkBuf (flags x) (blockno x) (<[i := v]> (bdata x)) (sl x).

(** ** [driver/sd.c] *)
Definition get_EMMC_DATA : M Z := on_drv (rd EMMC_DATA).
Definition get_and_clear_EMMC_INTERRUPT : M Z := on_drv (t ← rd EMMC_INTERRUPT; wr EMMC_INTERRUPT t;; mret t).

Definition sd_start (b : Z) : M unit :=
  x ← get_buf b;
  c ← on_drv (gets sdCard);
  let bno := if decide (type_ c = SD_TYPE_2_HC) then i32 (blockno x) else i32 (Z.shiftl (i32 (blockno x)) 9) in
  let write := Z.land (flags x) B_DIRTY in
  v ← on_drv (rd EMMC_INTERRUPT);
  if decide (v ≠ 0) then panic else
  let cmd := if decide (write ≠ 0) then IX_WRITE_SINGLE else IX_READ_SINGLE in
  on_drv (wr EMMC_BLKSIZECNT 512);;
  resp ← on_drv (sdSendCommandA cmd bno);
  if decide (resp ≠ 0) then panic else
  if decide (Z.land (data_at b) 0x03 ≠ 0) then panic else
  if decide (write ≠ 0) then
    resp ← on_drv (sdWaitForInterrupt INT_WRITE_RDY);
    if decide (resp ≠ 0) then panic else
    v ← on_drv (rd EMMC_INTERRUPT);
    if decide (v ≠ 0) then panic else
    for_each (seq 0 128) (λ i, on_drv (wr EMMC_DATA (nth i (bdata x) 0)))
  else mret tt.

Definition request_head (fuel : nat) : M unit :=
  on_sdlock (_acquire_spinlock fuel);;
  n ← on_que Queue.queue_front;
  sd_start (buf_of n);;
  on_sdlock _release_spinlock.

(** [while (done < 128) ip[done++] = *EMMC_DATA;] *)
Definition read_data (b : Z) : M unit :=
  for_each (seq 0 128) (λ i, v ← get_EMMC_DATA; upd_buf b (with_word i v)).
Definition post_sem (b : Z) : M unit := upd_buf b (λ x, with_sl (i32 (sl x + 1)) x).
(** The handling of the request at the front: data, flags, and wake its process. *)
Definition finish_request (bid intr : Z) : M unit :=
  x ← get_buf bid;
  let is_write := Z.land (flags x) B_DIRTY in
  if decide ((is_write ≠ 0 ∧ intr ≠ INT_DATA_DONE) ∨ (is_write = 0 ∧ intr ≠ INT_READ_RDY)) then panic else
  (if decide (is_write = 0) then read_data bid;; on_drv (sdWaitForInterrupt INT_DATA_DONE);; mret tt else mret tt);;
  upd_buf bid (with_flags B_VALID);;
  post_sem bid.
Definition sd_intr (fuel : nat) : M unit :=
  on_que (Queue.queue_lock fuel);;
  e ← on_que Queue.queue_empty;
  (if negb e then
    intr ← get_and_clear_EMMC_INTERRUPT;
    n ← on_que Queue.queue_front;
    let bid := buf_of n in
    if decide (intr ≠ INT_READ_RDY ∧ intr ≠ INT_DATA_DONE) then panic else
    finish_request bid intr;;
    on_que Queue.queue_pop;;
    e ← on_que Queue.queue_empty;
    if negb e then request_head fuel else mret tt
  else mret tt);;
  on_que Queue.queue_unlock.

(** One turn of the loop of [sdrw], with the queue locked: whether [sdrw] returns. *)
Definition sdrw_turn (b : Z) : M bool :=
  x ← get_buf b;
  on_que Queue.queue_unlock;;
  mret (bool_decide (flags x = B_VALID)).
Definition sdrw_begin (fuel : nat) (b : Z) : M bool :=
  on_que (Queue.queue_lock fuel);;
  idle ← on_que Queue.queue_empty;
  on_que (Queue.queue_push (bnode b));;
  (if (idle : bool) then request_head fuel else mret tt);;
  upd_buf b (with_sl 0);;
  sdrw_turn b.
Definition wait_sem (b : Z) : M unit :=
  x ← get_buf b; if decide (sl x <= 0) then nofuel else set_buf b (with_sl (sl x - 1) x).
Definition sdrw_resume (fuel : nat) (b : Z) : M bool :=
  wait_sem b;;
  on_que (Queue.queue_lock fuel);;
  sdrw_turn b.

Definition set_irq (type : nat) (h : Z) : M unit := λ s,
  let x := mm (drv s) in
  match set_interrupt_handler device_put_u32 type h (mkTst (int_table s) [] 0 ∅ 0 x) with
  | Done (_, t) => Done (tt, mkRst (mkSst (kernel t) (sdCard (drv s)) (sdHostVer (drv s)) (sdBaseClock (drv s)))
                              (sdlock s) (sdque s) (rnodes s) (bufs s) (int_handler t))
  | Panic => Panic | Crash => Crash | NoFuel => NoFuel
  end.
Definition IRQ_SDIO : nat := 56.
Definition IRQ_ARASANSDIO : nat := 62.
(** [sd_init], and the two words of the boot record that it prints. *)
Definition sd_init : M (Z * Z) :=
  on_drv (sdInit mbox_get_clock_rate);;
  on_sdlock init_spinlock;;
  on_que Queue.queue_init;;
  upd_buf mbr (λ x, mkBuf 0 0 (bdata x) (sl x));;
  sd_start mbr;;
  on_drv (sdWaitForInterrupt INT_READ_RDY);;
  read_data mbr;;
  on_drv (sdWaitForInterrupt INT_DATA_DONE);;
  x ← get_buf mbr;
  let bytes := mjoin (le_bytes 4 <$> bdata x) in
  let lba2 := le_val (take 4 (drop 470 bytes)) in
  let sz2 := le_val (take 4 (drop 474 bytes)) in
  set_irq IRQ_SDIO sd_intr_ptr;;
  set_irq IRQ_ARASANSDIO sd_intr_ptr;;
  mret (lba2, sz2).

(** ** [fs/block_device.c] *)
(** [sd_read] and [sd_write] with their local buffer at [b], up to the wait of
    [sdrw]; and what [sd_read] copies to the caller's buffer in the end. *)
Definition sd_read (fuel : nat) (b block_no : Z) : M bool :=
  upd_buf b (λ x, mkBuf 0 (u32 block_no) (bdata x) (sl x));;
  sdrw_begin fuel b.
Definition sd_read_end (b : Z) : M (list Z) := x ← get_buf b; mret (mjoin (le_bytes 4 <$> bdata x)).
Definition sd_write (fuel : nat) (b block_no : Z) (buffer : list Z) : M bool :=
  upd_buf b (λ x, mkBuf (Z.lor B_DIRTY B_VALID) (u32 block_no) (le_val <$> pieces 4 128 buffer) (sl x));;
  sdrw_begin fuel b.
(** [init_block_device] reads the super block. *)
Definition SBLOCK : Z := 0x20800 + 1.
Definition init_block_device (fuel : nat) (b : Z) : M bool := sd_read fuel b SBLOCK.
End sd.
