(* ===== verification/SdTrace.v ===== *)
(** * What the driver does to the card

    The accesses to the registers that make the card do something, in order: the
    argument, the command and the data.  Waiting leaves them alone; a command is one
    store of each; [sd_start] is a command and, for a write, the 128 words of the
    buffer. *)
From S2P Require Import Prelude Words Kalloc Atomics Lists Cache Traps Mmio SdRegs Sd SdSpec SdProps SdQueue.

Definition register (e : event) : Z := match e with Load r _ => r | Store r _ => r end.
Definition card_reg (r : Z) : Prop := r = EMMC_ARG1 ∨ r = EMMC_CMDTM ∨ r = EMMC_DATA.
#[export] Instance card_reg_dec r : Decision (card_reg r).
Proof. unfold card_reg. apply _. Defined.
Definition card_events (tr : list event) : list event := filter (λ e, card_reg (register e)) tr.

Section trace.
Context {H : Type} `{!Hardware H}.
Definition xev (x : mmio H) : list event := card_events (io x).
Definition dev (s : sst H) : list event := xev (mm s).
Definition rev_ (s : rst H) : list event := dev (drv s).

Lemma xev_add h tr e : xev (mkMmio h (tr ++ [e])) = card_events tr ++ (if decide (card_reg (register e)) then [e] else []).
Proof. unfold xev, card_events. cbn [io]. rewrite filter_app. by case_decide as Hr; [rewrite filter_cons_True|rewrite filter_cons_False]. Qed.

(** ** What leaves the card alone *)
Lemma keeps_get r : bool_decide (card_reg r) = false → keeps xev (device_get_u32 r).
Proof.
  intros Hr%bool_decide_eq_false s a s' E. unfold device_get_u32 in E. destruct (dev_load r (hw s)) as [v h]. injection E as <- <-.
  rewrite xev_add. cbn [register]. by rewrite decide_False, app_nil_r by done.
Qed.
Lemma keeps_put r v : bool_decide (card_reg r) = false → keeps xev (device_put_u32 r v).
Proof.
  intros Hr%bool_decide_eq_false s a s' E. injection E as <- <-. rewrite xev_add. cbn [register]. by rewrite decide_False, app_nil_r by done.
Qed.
Lemma keeps_counter : keeps xev read_counter.
Proof. intros s a s' E. unfold read_counter in E. destruct (dev_count (hw s)). by injection E as _ <-. Qed.
Lemma keeps_delay n : keeps xev (delay n).
Proof. by intros s a s' [= _ <-]. Qed.
Lemma keeps_delay_us n : keeps xev (delay_us n).
Proof.
  unfold delay_us. apply keeps_bind; [apply keeps_ret|]. intros f. apply keeps_bind; [apply keeps_counter|]. intros e.
  apply keeps_loop. intros _. apply keeps_bind; [apply keeps_counter|]. intros n'. apply keeps_ret.
Qed.
Lemma keeps_countdown cond wait n : keeps xev cond → keeps xev wait → keeps xev (countdown cond wait n).
Proof.
  intros Hc Hw. apply keeps_loop. intros c. unfold countdown_turn. apply keeps_bind; [done|]. intros [|]; [|apply keeps_ret].
  apply keeps_if; [|apply keeps_ret]. apply keeps_bind; [done|]. intros _. apply keeps_ret.
Qed.

Lemma keeps_mm {A} (m : M (mmio H) A) : keeps xev m → keeps dev (on_mm m).
Proof.
  intros Hm s a s' E. unfold on_mm in E. destruct (m (mm s)) as [[a' x]| | |] eqn:Ex; [|done..]. injection E as _ <-. by apply (Hm _ _ _ Ex).
Qed.
Lemma keeps_card f : keeps dev (set_card f).
Proof. by intros s a s' [= _ <-]. Qed.
Lemma keeps_rd r : bool_decide (card_reg r) = false → keeps dev (rd r).
Proof. intros Hr. by apply keeps_mm, keeps_get. Qed.
Lemma keeps_wr r v : bool_decide (card_reg r) = false → keeps dev (wr r v).
Proof. intros Hr. by apply keeps_mm, keeps_put. Qed.
Lemma keeps_delayus n : keeps dev (sd_delayus n).
Proof. apply keeps_mm, keeps_delay_us. Qed.
Lemma keeps_printk rs : Forall (λ r, bool_decide (card_reg r) = false) rs → keeps dev (printk_regs rs).
Proof.
  induction 1 as [|r rs Hr _ IH]; [apply keeps_ret|]. unfold printk_regs. cbn [for_each]. apply keeps_bind; [|done].
  apply keeps_bind; [by apply keeps_rd|]. intros v. apply keeps_ret.
Qed.
Lemma keeps_wait cond n us : keeps xev cond → keeps dev (wait_while cond n us).
Proof. intros Hc. apply keeps_mm, keeps_countdown; [done|apply keeps_delay_us]. Qed.
Lemma keeps_no_interrupt m : keeps xev (no_interrupt m).
Proof. apply keeps_bind; [by apply keeps_get|]. intros v. apply keeps_ret. Qed.
Lemma keeps_inhibited m : keeps xev (inhibited m).
Proof. apply keeps_bind; [by apply keeps_get|]. intros v. apply keeps_if; [apply keeps_no_interrupt|apply keeps_ret]. Qed.
Hint Resolve keeps_card keeps_rd keeps_wr keeps_delayus keeps_printk keeps_wait keeps_no_interrupt keeps_inhibited : keeps.
(** One operation after the other. *)
Ltac kept := repeat first [apply keeps_ret|apply keeps_card|apply keeps_delayus|apply keeps_rd; reflexivity|apply keeps_wr; reflexivity
  |apply keeps_printk; repeat constructor|apply keeps_wait; first [apply keeps_no_interrupt|apply keeps_inhibited]|apply keeps_gets
  |apply keeps_if|apply keeps_ifb|apply keeps_bind; [|intros ?]].
Lemma keeps_WaitForInterrupt mask : keeps dev (sdWaitForInterrupt mask).
Proof. unfold sdWaitForInterrupt. kept. Qed.
Lemma keeps_WaitForCommand : keeps dev sdWaitForCommand.
Proof. unfold sdWaitForCommand, aborted. kept. Qed.
Lemma keeps_response cmd arg r : keeps dev (response cmd arg r).
Proof. unfold response. kept. by intros ???. Qed.
Lemma keeps_check i : keeps dev (check_app i).
Proof. unfold check_app. kept. Qed.

(** ** Commands *)
Lemma put_card r v s : card_reg r → ∃ s', wr r v s = Done (tt, s') ∧ dev s' = dev s ++ [Store r (u32 v)] ∧ sdCard s' = sdCard s.
Proof.
  intros Hr. eexists. split; [reflexivity|]. split; [|done]. unfold dev. cbn [mm]. rewrite xev_add. cbn [register]. by rewrite decide_True.
Qed.
(** A command that succeeds has written its argument and its code, once. *)
Lemma SendCommandP_events i arg s s' : sdSendCommandP i arg s = Done (0, s') →
  ∃ cmd, sdCommandTable !! Z.to_nat i = Some cmd ∧ dev s' = dev s ++ [Store EMMC_ARG1 (u32 (u32 arg)); Store EMMC_CMDTM (u32 (code cmd))].
Proof.
  unfold sdSendCommandP. intros E. destruct (sdCommandTable !! Z.to_nat i) as [cmd|]; [|done]. exists cmd. split; [done|].
  apply bind_inv in E as (cmd' & s0 & E0 & E). injection E0 as -> ->.
  apply bind_inv in E as (busy & s1 & E1 & E). apply keeps_WaitForCommand in E1. destruct (decide (busy ≠ 0)); [done|].
  apply bind_inv in E as (? & s2 & E2 & E). apply keeps_card in E2. apply bind_inv in E as (? & s3 & E3 & E). apply keeps_rd in E3; [|done].
  apply bind_inv in E as (? & s4 & E4 & E). apply keeps_wr in E4; [|done].
  destruct (put_card EMMC_ARG1 (u32 arg) s4 ltac:(by left)) as (s5 & E5 & D5 & _). rewrite (bind_done _ _ _ _ _ E5) in E.
  destruct (put_card EMMC_CMDTM (code cmd') s5 ltac:(right; by left)) as (s6 & E6 & D6 & _). rewrite (bind_done _ _ _ _ _ E6) in E.
  enough (Hk : dev s' = dev s6) by (rewrite Hk, D6, D5, E4, E3, E2, E1, <-app_assoc; done).
  apply bind_inv in E as (? & s7 & E7 & E). assert (K7 : dev s7 = dev s6).
  { revert E7. case_decide; [apply keeps_delayus|apply keeps_ret]. }
  apply bind_inv in E as (res & s8 & E8 & E). apply keeps_WaitForInterrupt in E8. destruct (decide (res ≠ 0)) as [Hr|_]; [by injection E as -> _|].
  apply bind_inv in E as (? & s9 & E9 & E). apply keeps_rd in E9; [|done]. apply keeps_response in E. congruence.
Qed.
Lemma SendCommandA_events i arg s s' : i < IX_APP_CMD_START → sdSendCommandA i arg s = Done (0, s') →
  ∃ cmd, sdCommandTable !! Z.to_nat i = Some cmd ∧ dev s' = dev s ++ [Store EMMC_ARG1 (u32 (u32 arg)); Store EMMC_CMDTM (u32 (code cmd))].
Proof.
  intros Hi E. unfold sdSendCommandA, issue_app, or_return in E. rewrite decide_False in E by lia. rewrite (bind_done _ _ s 0 s) in E by done.
  rewrite decide_False in E by auto. apply bind_inv in E as (r & s1 & E1 & E). destruct (decide (r ≠ 0)) as [Hr|Hr]; [by injection E as -> _|].
  replace r with 0 in E1 by lia. apply keeps_check in E. rewrite E. by apply SendCommandP_events.
Qed.

(** ** [sd_start] *)
(** The address that goes with a block: cards of high capacity count blocks. *)
Definition card_address (c : SDDescriptor) (bno : Z) : Z := u32 (if decide (type_ c = SD_TYPE_2_HC) then bno else bno * 512).
Definition READ_CODE : Z := 0x11220010.
Definition WRITE_CODE : Z := 0x18220000.
(** What the card is told for the request of a buffer. *)
Definition request_events (c : SDDescriptor) (x : buf) : list event :=
  Store EMMC_ARG1 (card_address c (blockno x)) ::
  (if decide (Z.land (flags x) B_DIRTY ≠ 0) then Store EMMC_CMDTM WRITE_CODE :: ((λ i, Store EMMC_DATA (u32 (nth i (bdata x) 0))) <$> seq 0 128)
   else [Store EMMC_CMDTM READ_CODE]).
End trace.

Lemma u32_i32 x : u32 (i32 x) = u32 x.
Proof.
  unfold swrap, wrap. pose proof (Z.div_mod (x + 2 ^ (32 - 1)) (2 ^ 32) ltac:(lia)) as E.
  replace ((x + 2 ^ (32 - 1)) mod 2 ^ 32 - 2 ^ (32 - 1)) with (x + (- ((x + 2 ^ (32 - 1)) / 2 ^ 32)) * 2 ^ 32) by lia.
  apply Z.mod_add. lia.
Qed.
Lemma u32_idemp x : u32 (u32 x) = u32 x.
Proof. apply u32_small, wrap_range. lia. Qed.
Lemma address_word c bno :
  u32 (u32 (if decide (type_ c = SD_TYPE_2_HC) then i32 bno else i32 (Z.shiftl (i32 bno) 9))) = card_address c bno.
Proof.
  unfold card_address. rewrite u32_idemp. case_decide; rewrite u32_i32; [done|]. rewrite Z.shiftl_mul_pow2 by done. change (2 ^ 9) with 512.
  unfold wrap. rewrite <-Z.mul_mod_idemp_l by done. change (i32 bno mod 2 ^ 32) with (u32 (i32 bno)). rewrite u32_i32. unfold wrap.
  by rewrite Z.mul_mod_idemp_l by done.
Qed.

Section start.
Context {H : Type} `{CounterRuns H}.
Definition at_drv (s : rst H) (d : sst H) : rst H := mkRst d (sdlock s) (sdque s) (rnodes s) (bufs s) (int_table s).
Lemma on_drv_done {A} (m : M (sst H) A) s a d : m (drv s) = Done (a, d) → on_drv m s = Done (a, at_drv s d).
Proof. intros E. unfold on_drv. by rewrite E. Qed.
(** An operation of the driver that always returns and does not touch the card. *)
Lemma drv_step {A} (m : M (sst H) A) (s : rst H) (Q : A → SDDescriptor → Prop) : runs (sdCard (drv s)) m Q → keeps dev m →
  ∃ a d, on_drv m s = Done (a, at_drv s d) ∧ Q a (sdCard d) ∧ dev d = dev (drv s).
Proof.
  intros Hr Hk. destruct (Hr _ eq_refl) as (a & d & E & HQ). exists a, d. split; [by apply on_drv_done|]. split; [done|]. by eapply Hk.
Qed.

Lemma start_data (ws : list nat) (x : buf) (s : rst H) :
  ∃ d, for_each ws (λ i, on_drv (wr EMMC_DATA (nth i (bdata x) 0))) s = Done (tt, at_drv s d) ∧ sdCard d = sdCard (drv s) ∧
    dev d = dev (drv s) ++ ((λ i, Store EMMC_DATA (u32 (nth i (bdata x) 0))) <$> ws).
Proof.
  revert s. induction ws as [|i ws IH]; intros s.
  - exists (drv s). split; [by destruct s|]. split; [done|]. by rewrite app_nil_r.
  - destruct (put_card EMMC_DATA (nth i (bdata x) 0) (drv s) ltac:(right; by right)) as (d & E & D & C). cbn [for_each].
    m_step (on_drv_done _ s _ _ E). destruct (IH (at_drv s d)) as (d' & E' & C' & D'). exists d'. split; [exact E'|].
    cbn [drv at_drv] in *. split; [congruence|]. rewrite D', D, <-app_assoc. done.
Qed.

Lemma get_buf_done (s : rst H) b x : bufs s !! b = Some x → get_buf b s = Done (x, s).
Proof. intros E. unfold get_buf. by rewrite E. Qed.
(** The command of a request, when it succeeds. *)
Lemma start_command (s : rst H) c bno (w : bool) :
  ∃ r d, on_drv (sdSendCommandA (if w then IX_WRITE_SINGLE else IX_READ_SINGLE)
      (if decide (type_ c = SD_TYPE_2_HC) then i32 bno else i32 (Z.shiftl (i32 bno) 9))) s = Done (r, at_drv s d) ∧
    type_ (sdCard d) = type_ (sdCard (drv s)) ∧
    (r = 0 → dev d = dev (drv s) ++ [Store EMMC_ARG1 (card_address c bno); Store EMMC_CMDTM (if w then WRITE_CODE else READ_CODE)]).
Proof.
  set (i := if w then IX_WRITE_SINGLE else IX_READ_SINGLE). set (arg := if decide (type_ c = SD_TYPE_2_HC) then _ else _).
  assert (Hi : 0 <= i < 39 ∧ i < IX_APP_CMD_START) by (unfold i; destruct w; cbv; split; [split; congruence|done|split; congruence|done]).
  destruct (runs_SendCommandA (H := H) (sdCard (drv s)) i arg) with (s := drv s) as (r & d & E & _ & (Hst & _) & _); [tauto|tauto|done|].
  exists r, d. split; [by apply on_drv_done|]. split; [unfold static in Hst; congruence|]. intros ->.
  destruct (SendCommandA_events i arg _ _ ltac:(tauto) E) as (cmd & Hcmd & D). rewrite D. unfold arg. rewrite address_word. do 4 f_equal.
  unfold i in Hcmd. destruct w; vm_compute in Hcmd; injection Hcmd as <-; reflexivity.
Qed.

(** [sd_start] panics, or it has told the card of the request, and done nothing else. *)
Lemma sd_start_spec b x (s : rst H) : bufs s !! b = Some x →
  sd_start b s = Panic ∨ ∃ d, sd_start b s = Done (tt, at_drv s d) ∧ type_ (sdCard d) = type_ (sdCard (drv s)) ∧
    dev d = dev (drv s) ++ request_events (sdCard (drv s)) x.
Proof.
  intros Hb. unfold sd_start. m_step (get_buf_done s b x Hb).
  assert (E0 : on_drv (gets sdCard) s = Done (sdCard (drv s), s)) by (destruct s; reflexivity). m_step E0. clear E0. set (c := sdCard (drv s)).
  destruct (drv_step _ s _ (runs_rd _ EMMC_INTERRUPT) (keeps_rd EMMC_INTERRUPT eq_refl)) as (v & d1 & E1 & [C1 _] & D1). m_step E1. destruct (decide (v ≠ 0)); [by left|].
  destruct (drv_step _ (at_drv s d1) _ (runs_wr _ EMMC_BLKSIZECNT 512) (keeps_wr EMMC_BLKSIZECNT 512 eq_refl)) as (? & d2 & E2 & C2 & D2).
  rewrite (decide_bool_decide (Z.land (flags x) B_DIRTY ≠ 0) IX_WRITE_SINGLE).
  m_step E2. destruct (start_command (at_drv s d2) c (blockno x) (bool_decide (Z.land (flags x) B_DIRTY ≠ 0))) as (r & d3 & E3 & C3 & D3). m_step E3.
  cbn [drv at_drv] in *. destruct (decide (r ≠ 0)) as [Hr|Hr]; [by left|]. destruct (decide (Z.land (data_at b) 0x03 ≠ 0)); [by left|]. specialize (D3 ltac:(lia)).
  assert (Ht : type_ (sdCard d3) = type_ c) by (unfold c; congruence). unfold request_events.
  destruct (decide (Z.land (flags x) B_DIRTY ≠ 0)) as [Hw|Hw].
  2:{ right. exists d3. split; [by destruct s|]. split; [done|]. rewrite bool_decide_eq_false_2 in D3 by done. fold c. congruence. }
  destruct (drv_step _ (at_drv s d3) _ (runs_WaitForInterrupt _ INT_WRITE_RDY) (keeps_WaitForInterrupt _)) as (r4 & d4 & E4 & [C4 _] & D4). m_step E4.
  destruct (decide (r4 ≠ 0)); [by left|]. destruct (drv_step _ (at_drv s d4) _ (runs_rd _ EMMC_INTERRUPT) (keeps_rd EMMC_INTERRUPT eq_refl)) as (v5 & d5 & E5 & [C5 _] & D5). m_step E5.
  destruct (decide (v5 ≠ 0)); [by left|]. destruct (start_data (seq 0 128) x (at_drv s d5)) as (d6 & E6 & C6 & D6). right. exists d6. split; [exact E6|].
  cbn [drv at_drv] in *. split; [congruence|]. rewrite bool_decide_eq_true_2 in D3 by done.
  rewrite D6, D5, D4, D3, D2, D1, <-app_assoc. done.
Qed.
End start.
