(* ===== verification/SdDisk.v ===== *)
(** * The SD card as a disk

    What a card makes of the accesses to its registers, the disk it stands for, and
    the executions of the driver: calls of [sdrw], processes that wake up, interrupts
    and a device that changes at any time. *)
From S2P Require Import Prelude Words Kalloc Atomics Lists Cache Traps Mmio SdRegs Sd SdSpec SdProps SdQueue SdTrace.

(** ** A card *)
(** By the SD specification: after a read command the data register delivers the
    words of the block, after a write command it takes them. *)
Inductive mode := Idle | Reading (ws : list Z) | Writing (a : Z) (ws : list Z).
Record card := mkCd { carg : Z; cmode : mode; cdisk : gmap Z (list Z) }.
Definition block (m : gmap Z (list Z)) (a : Z) : list Z := default (replicate 128 0) (m !! a).

(** One access; [None] when the card delivers other data than it holds. *)
Definition card_step (c : card) (e : event) : option card :=
  match e with
  | Store r v =>
      if decide (r = EMMC_ARG1) then Some (mkCd v (cmode c) (cdisk c))
      else if decide (r = EMMC_CMDTM) then
        Some (mkCd (carg c) (if decide (v = READ_CODE) then Reading (block (cdisk c) (carg c))
                             else if decide (v = WRITE_CODE) then Writing (carg c) [] else Idle) (cdisk c))
      else match cmode c with
        | Writing a ws =>
            let ws := ws ++ [v] in
            Some (if decide (length ws = 128%nat) then mkCd (carg c) Idle (<[a := ws]> (cdisk c)) else mkCd (carg c) (Writing a ws) (cdisk c))
        | _ => None
        end
  | Load r v =>
      if decide (r = EMMC_DATA) then
        match cmode c with
        | Reading (w :: ws) => if decide (v = w) then Some (mkCd (carg c) (Reading ws) (cdisk c)) else None
        | _ => None
        end
      else Some c
  end.
Fixpoint card_run (c : card) (tr : list event) : option card :=
  match tr with [] => Some c | e :: tr => c ← card_step c e; card_run c tr end.

Lemma card_run_app c tr1 tr2 : card_run c (tr1 ++ tr2) = c' ← card_run c tr1; card_run c' tr2.
Proof. revert c. induction tr1 as [|e tr1 IH]; intros c; [done|]. cbn. by destruct (card_step c e); cbn. Qed.

(** ** A disk *)
(** Requests served at once, one after the other, in the order of the calls. *)
Definition is_write (x : buf) : bool := bool_decide (Z.land (flags x) B_DIRTY ≠ 0).
Definition words_of (x : buf) : list Z := (λ i, u32 (nth i (bdata x) 0)) <$> seq 0 128.
Section disk.
(** Whether the card counts blocks, or bytes. *)
Context (hc : SDDescriptor).
Definition serve (m : gmap Z (list Z)) (x : buf) : gmap Z (list Z) :=
  if is_write x then <[card_address hc (blockno x) := words_of x]> m else m.
Definition serve_all (m : gmap Z (list Z)) (xs : list buf) : gmap Z (list Z) := foldl serve m xs.
(** The data of the request after the requests [xs]. *)
Definition answer_of (m : gmap Z (list Z)) (xs : list buf) (x : buf) : list Z :=
  if is_write x then bdata x else block (serve_all m xs) (card_address hc (blockno x)).
End disk.

(** ** Executions *)
Section executions.
Context {H : Type} `{CounterRuns H}.
(** The driver, the card and the processes that use them. *)
Record run := mkRun {
  rs : rst H;
  cd : card;
  calls : list (Z * buf);          (* the calls of [sdrw], with the buffer as it was *)
  waiting : gmap Z nat;            (* the processes in [sdrw], by buffer: their call *)
  returned : list (nat * buf)      (* the calls that returned, with the buffer as it is *)
}.

Definition with_bufs (m : gmap Z buf) (s : rst H) : rst H := mkRst (drv s) (sdlock s) (sdque s) (rnodes s) m (int_table s).
(** A process may call [sdrw] with a buffer that is not valid and not in use, whose
    contents it has written. *)
Definition may_call (b : Z) (x : buf) (w : run) : Prop :=
  waiting w !! b = None ∧ flags x ≠ B_VALID ∧ length (bdata x) = 128%nat ∧ is_Some (bufs (rs w) !! b) ∧
  bnode b ≠ 0 ∧ is_Some (rnodes (rs w) !! bnode b) ∧ Z.of_nat (length (calls w)) + 1 < 2 ^ 31.
(** The card takes part in the accesses that lead to the state [s]. *)
Definition accepts (w : run) (s : rst H) (c : card) : Prop := ∃ tr, rev_ s = rev_ (rs w) ++ tr ∧ card_run (cd w) tr = Some c.
Definition set_hw (h : H) (s : rst H) : rst H :=
  mkRst (mkSst (mkMmio h (io (mm (drv s)))) (sdCard (drv s)) (sdHostVer (drv s)) (sdBaseClock (drv s)))
    (sdlock s) (sdque s) (rnodes s) (bufs s) (int_table s).

Inductive step : run → run → Prop :=
  | step_call w b x s c :
      may_call b x w → sdrw_begin 1 b (with_bufs (<[b := x]> (bufs (rs w))) (rs w)) = Done (false, s) → accepts w s c →
      step w (mkRun s c (calls w ++ [(b, x)]) (<[b := length (calls w)]> (waiting w)) (returned w))
  | step_resume w b k x s c :
      waiting w !! b = Some k → sdrw_resume 1 b (rs w) = Done (true, s) → bufs s !! b = Some x → accepts w s c →
      step w (mkRun s c (calls w) (delete b (waiting w)) (returned w ++ [(k, x)]))
  | step_intr w s c :
      sd_intr 1 (rs w) = Done (tt, s) → accepts w s c → step w (mkRun s c (calls w) (waiting w) (returned w))
  | step_device w h : step w (mkRun (set_hw h (rs w)) (cd w) (calls w) (waiting w) (returned w)).

(** Nobody uses the card, and it is a card with blocks of 128 words. *)
Definition initial (w : run) : Prop :=
  calls w = [] ∧ waiting w = ∅ ∧ returned w = [] ∧ sdlock (rs w) = false ∧ Queue.lk (sdque (rs w)) = false ∧
  Queue.rep [] (Queue.mkState (sdque (rs w)) (rnodes (rs w))) ∧ ∀ a, length (block (cdisk (cd w)) a) = 128%nat.
End executions.
