(* ===== verification/SdQueueProps.v ===== *)
(** * Requests to the SD card are served in order

    Every execution of [sdrw] and [sd_intr] by any number of processes refines a disk
    that serves the requests at once, in the order of the calls. *)
From S2P Require Import Prelude Words Kalloc Atomics Lists Cache Traps Mmio SdRegs Sd SdSpec SdProps SdQueue SdTrace SdDisk.

(** ** The card *)
Lemma length_words_of x : length (words_of x) = 128%nat.
Proof. unfold words_of. by rewrite length_fmap, length_seq. Qed.
Lemma card_stores c a ws l : cmode c = Writing a ws → l ≠ [] → (length ws + length l)%nat = 128%nat →
  card_run c ((λ v, Store EMMC_DATA v) <$> l) = Some (mkCd (carg c) Idle (<[a := ws ++ l]> (cdisk c))).
Proof.
  revert c ws. induction l as [|v l IH]; intros c ws Hm Hl Hlen; [done|]. rewrite fmap_cons. cbn [card_run].
  assert (E : card_step c (Store EMMC_DATA v) = Some (if decide (length (ws ++ [v]) = 128%nat) then mkCd (carg c) Idle (<[a := ws ++ [v]]> (cdisk c))
    else mkCd (carg c) (Writing a (ws ++ [v])) (cdisk c))) by (cbn [card_step]; by rewrite Hm). rewrite E. cbn [mbind option_bind].
  rewrite length_app. cbn [length] in *. destruct l as [|v' l].
  - rewrite decide_True by (cbn in *; lia). done.
  - rewrite decide_False by (cbn in *; lia). rewrite (IH _ (ws ++ [v])); [by rewrite <-app_assoc|done|done|rewrite length_app; cbn in *; lia].
Qed.
Lemma card_loads c ws vs c' : cmode c = Reading ws → length vs = length ws →
  card_run c ((λ v, Load EMMC_DATA v) <$> vs) = Some c' → vs = ws ∧ cdisk c' = cdisk c.
Proof.
  revert c ws. induction vs as [|v vs IH]; intros c [|w ws] Hm Hlen E; try done; [by injection E as <-|].
  rewrite fmap_cons in E. cbn [card_run] in E. cbn [card_step] in E. rewrite decide_True, Hm in E by done.
  destruct (decide (v = w)) as [->|]; [|done]. cbn [mbind option_bind] in E. injection Hlen as Hlen.
  destruct (IH _ ws (eq_refl : cmode (mkCd (carg c) (Reading ws) (cdisk c)) = Reading ws) Hlen E) as [-> Hd]. done.
Qed.
Lemma card_address_type c c' bno : type_ c' = type_ c → card_address c' bno = card_address c bno.
Proof. intros E. unfold card_address. by rewrite E. Qed.

Lemma request_events_type c c' x : type_ c' = type_ c → request_events c' x = request_events c x.
Proof. intros E. unfold request_events. by rewrite (card_address_type c). Qed.

Section queue.
Context (hc : SDDescriptor).
(** A request, as the card sees it. *)
Lemma card_request c x c0 c' : type_ c0 = type_ hc → card_run c (request_events c0 x) = Some c' →
  cdisk c' = serve hc (cdisk c) x ∧ (is_write x = false → cmode c' = Reading (block (cdisk c) (card_address hc (blockno x)))).
Proof.
  intros Ht. unfold request_events, serve, is_write. rewrite (card_address_type hc) by done. cbn [card_run].
  set (a := card_address hc (blockno x)).
  change (card_step c (Store EMMC_ARG1 a)) with (Some (mkCd a (cmode c) (cdisk c))). cbn [mbind option_bind].
  destruct (decide (Z.land (flags x) B_DIRTY ≠ 0)) as [Hw|Hw].
  - rewrite bool_decide_eq_true_2 by done. cbn [card_run].
    change (card_step (mkCd a (cmode c) (cdisk c)) (Store EMMC_CMDTM WRITE_CODE)) with (Some (mkCd a (Writing a []) (cdisk c))). cbn [mbind option_bind].
    intros E. assert (El : ((λ i, Store EMMC_DATA (u32 (nth i (bdata x) 0))) <$> seq 0 128) = (λ v, Store EMMC_DATA v) <$> words_of x).
    { unfold words_of. by rewrite <-list_fmap_compose. } rewrite El in E.
    rewrite (card_stores _ a []) in E; [by injection E as <-|done|done|]. by rewrite length_words_of.
  - rewrite bool_decide_eq_false_2 by done. cbn [card_run].
    change (card_step (mkCd a (cmode c) (cdisk c)) (Store EMMC_CMDTM READ_CODE)) with (Some (mkCd a (Reading (block (cdisk c) a)) (cdisk c))).
    cbn [mbind option_bind]. by intros [= <-].
Qed.

(** ** The queue *)
Context {H : Type} `{CounterRuns H}.
Implicit Types (s : rst H) (w : run (H := H)).
Definition qrep (l : list Z) s : Prop := Queue.rep l (Queue.mkState (sdque s) (rnodes s)).
Definition relock (k : bool) s : rst H :=
  mkRst (drv s) (sdlock s) (Queue.mk (Queue.begin_ (sdque s)) (Queue.end_ (sdque s)) (Queue.sz (sdque s)) k) (rnodes s) (bufs s) (int_table s).

Lemma on_que_done {A} (m : M Queue.state A) s a x : m (Queue.mkState (sdque s) (rnodes s)) = Done (a, x) →
  on_que m s = Done (a, mkRst (drv s) (sdlock s) (Queue.q x) (Queue.qnodes x) (bufs s) (int_table s)).
Proof. intros E. unfold on_que. by rewrite E. Qed.
Lemma que_lock s : Queue.lk (sdque s) = false → on_que (Queue.queue_lock 1) s = Done (tt, relock true s).
Proof. intros Hl. unfold on_que, Queue.queue_lock, Queue.on_lk. cbn [Queue.q]. rewrite Hl. done. Qed.
Lemma que_unlock s : on_que Queue.queue_unlock s = Done (tt, relock false s).
Proof. done. Qed.
Lemma que_empty l s : qrep l s → on_que Queue.queue_empty s = Done (bool_decide (l = []), s).
Proof. intros Hq. rewrite (on_que_done _ s _ _ (queue_empty_spec _ l Hq)). by destruct s. Qed.
Lemma que_front n l s : qrep (n :: l) s → on_que Queue.queue_front s = Done (n, s).
Proof. intros Hq. rewrite (on_que_done _ s _ _ (queue_front_spec _ (n :: l) Hq)). by destruct s. Qed.
Definition qlk (x : Queue.state) : SpinLock := Queue.lk (Queue.q x).
Lemma keeps_set_q f : (∀ x, Queue.lk (f x) = Queue.lk x) → keeps qlk (Queue.set_q f).
Proof. intros Hf x a x' [= _ <-]. apply Hf. Qed.
Lemma keeps_on_nodes {A} (m : M heap A) : keeps qlk (on_nodes m).
Proof. intros x a x' E. unfold on_nodes in E. destruct (m (nodes x)) as [[a' h]| | |]; [|done..]. by injection E as _ <-. Qed.
Lemma que_push l n s : qrep l s → n ≠ 0 → is_Some (rnodes s !! n) → n ∉ l → Z.of_nat (length l) + 1 < 2 ^ 31 →
  ∃ q h, on_que (Queue.queue_push n) s = Done (tt, mkRst (drv s) (sdlock s) q h (bufs s) (int_table s)) ∧
    Queue.rep (l ++ [n]) (Queue.mkState q h) ∧ dom h = dom (rnodes s) ∧ Queue.lk q = Queue.lk (sdque s).
Proof.
  intros Hq Hn Hi Hnl Hlen. destruct (queue_push_spec _ l n Hq Hn Hi Hnl Hlen) as (x & E & Hr & Hd). exists (Queue.q x), (Queue.qnodes x).
  split; [by apply on_que_done|]. split; [by destruct x|]. split; [done|].
  assert (Hk : keeps qlk (Queue.queue_push n)); [|apply (Hk _ _ _ E)].
  unfold Queue.queue_push. apply keeps_bind; [apply keeps_on_nodes|]. intros _. apply keeps_bind; [apply keeps_gets|]. intros q0.
  apply keeps_bind; [|intros _; by apply keeps_set_q]. apply keeps_if; [by apply keeps_set_q|].
  apply keeps_bind; [apply keeps_on_nodes|]. intros _. by apply keeps_set_q.
Qed.
Lemma que_pop n l s : qrep (n :: l) s →
  ∃ q h, on_que Queue.queue_pop s = Done (tt, mkRst (drv s) (sdlock s) q h (bufs s) (int_table s)) ∧
    Queue.rep l (Queue.mkState q h) ∧ dom h = dom (rnodes s) ∧ Queue.lk q = Queue.lk (sdque s).
Proof.
  intros Hq. destruct (queue_pop_spec _ n l Hq) as (x & E & Hr & Hd). exists (Queue.q x), (Queue.qnodes x).
  split; [by apply on_que_done|]. split; [by destruct x|]. split; [done|].
  assert (Hk : keeps qlk Queue.queue_pop); [|apply (Hk _ _ _ E)].
  unfold Queue.queue_pop. apply keeps_bind; [apply keeps_gets|]. intros q0. apply keeps_bind; [apply keeps_if; [by intros ???|apply keeps_ret]|].
  intros _. apply keeps_bind; [|intros _; by apply keeps_set_q]. apply keeps_if; [by apply keeps_set_q|].
  apply keeps_bind; [apply keeps_on_nodes|]. intros nx. apply keeps_bind; [by apply keeps_set_q|]. intros _.
  apply keeps_bind; [apply keeps_on_nodes|]. intros _. apply keeps_ret.
Qed.

(** ** The operations of [sd.c] *)
Lemma set_buf_done s b x y : bufs s !! b = Some y → set_buf b x s = Done (tt, with_bufs (<[b := x]> (bufs s)) s).
Proof. intros E. unfold set_buf. by rewrite E. Qed.
Lemma upd_buf_done s b f y : bufs s !! b = Some y → upd_buf b f s = Done (tt, with_bufs (<[b := f y]> (bufs s)) s).
Proof. intros E. unfold upd_buf. m_step (get_buf_done s b y E). by eapply set_buf_done. Qed.

Lemma request_head_spec n l s x : qrep (n :: l) s → sdlock s = false → bufs s !! buf_of n = Some x →
  request_head 1 s = Panic ∨ ∃ d, request_head 1 s = Done (tt, at_drv s d) ∧ type_ (sdCard d) = type_ (sdCard (drv s)) ∧
    dev d = dev (drv s) ++ request_events (sdCard (drv s)) x.
Proof.
  intros Hq Hl Hb. unfold request_head. set (s1 := mkRst (drv s) true (sdque s) (rnodes s) (bufs s) (int_table s)).
  assert (E1 : on_sdlock (_acquire_spinlock 1) s = Done (tt, s1)) by (unfold on_sdlock; by rewrite Hl). m_step E1.
  m_step (que_front n l s1 Hq). destruct (sd_start_spec (buf_of n) x s1 Hb) as [E|(d & E & Ht & Hd)].
  - left. unfold mbind, M_bind. by rewrite E.
  - right. exists d. m_step E. split; [|by split]. unfold on_sdlock, at_drv. cbn. by rewrite Hl.
Qed.

(** The buffer after [n] words have been read, from word [k] on. *)
Lemma read_words b (n k : nat) s y : bufs s !! b = Some y → (k + n ≤ length (bdata y))%nat →
  ∃ d vs, for_each (seq k n) (λ i, v ← get_EMMC_DATA; upd_buf b (with_word i v)) s =
      Done (tt, at_drv (with_bufs (<[b := mkBuf (flags y) (blockno y) (take k (bdata y) ++ vs ++ drop (k + n) (bdata y)) (sl y)]> (bufs s)) s) d) ∧
    length vs = n ∧ sdCard d = sdCard (drv s) ∧ dev d = dev (drv s) ++ ((λ v, Load EMMC_DATA v) <$> vs).
Proof.
  revert k s y. induction n as [|n IH]; intros k s y Hb Hk.
  - exists (drv s), []. rewrite Nat.add_0_r, app_nil_l, take_drop, app_nil_r. split; [|done]. cbn. destruct s as [dr lk q nd m it]. unfold at_drv, with_bufs. cbn in *.
    rewrite insert_id; [done|]. rewrite Hb. by destruct y.
  - cbn [seq for_each]. set (v := u32 (fst (dev_load EMMC_DATA (hw (mm (drv s)))))).
    destruct (dev_load EMMC_DATA (hw (mm (drv s)))) as [v0 h] eqn:Ev. cbn [fst] in v.
    set (d1 := mkSst (mkMmio h (io (mm (drv s)) ++ [Load EMMC_DATA v])) (sdCard (drv s)) (sdHostVer (drv s)) (sdBaseClock (drv s))).
    assert (E1 : get_EMMC_DATA s = Done (v, at_drv s d1)).
    { apply on_drv_done. unfold rd, on_mm, device_get_u32. by rewrite Ev. }
    rewrite bind_assoc. m_step E1. m_step (upd_buf_done (at_drv s d1) b (with_word k v) y Hb).
    set (s2 := with_bufs (<[b := with_word k v y]> (bufs s)) (at_drv s d1)).
    destruct (IH (S k) s2 (with_word k v y)) as (d & vs & E & Hl & Hc & Hd); [apply lookup_insert_eq|cbn; rewrite length_insert; lia|].
    exists d, (v :: vs). split; [|split; [cbn; lia|split; [exact Hc|]]].
    + refine (eq_trans E _). unfold s2, at_drv, with_bufs. cbn [flags blockno bdata sl with_word bufs sdlock sdque rnodes int_table drv].
      rewrite insert_insert_eq. do 2 f_equal.
      rewrite (take_S_r _ _ v) by (apply list_lookup_insert_eq; lia). rewrite take_insert_ge, drop_insert_lt, <-app_assoc by lia.
      by replace (S k + n)%nat with (k + S n)%nat by lia.
    + rewrite Hd. unfold s2. cbn [drv at_drv with_bufs]. unfold dev at 1, d1. cbn [mm]. rewrite xev_add. cbn [register].
      rewrite decide_True by (right; by right). rewrite <-app_assoc. done.
Qed.
Lemma read_data_spec b s y : bufs s !! b = Some y → length (bdata y) = 128%nat →
  ∃ d vs, read_data b s = Done (tt, at_drv (with_bufs (<[b := mkBuf (flags y) (blockno y) vs (sl y)]> (bufs s)) s) d) ∧
    length vs = 128%nat ∧ sdCard d = sdCard (drv s) ∧ dev d = dev (drv s) ++ ((λ v, Load EMMC_DATA v) <$> vs).
Proof.
  intros Hb Hl. destruct (read_words b 128 0 s y Hb) as (d & vs & E & Hv & Hc & Hd); [lia|]. exists d, vs.
  split; [|done]. unfold read_data. rewrite E. rewrite (drop_ge (bdata y)) by lia. by rewrite app_nil_r.
Qed.

(** The front request, whose semaphore nobody has posted, is completed. *)
Lemma finish_spec b intr s y : bufs s !! b = Some y → length (bdata y) = 128%nat → sl y = 0 →
  finish_request b intr s = Panic ∨ ∃ d vs,
    finish_request b intr s = Done (tt, at_drv (with_bufs (<[b := mkBuf B_VALID (blockno y) (if is_write y then bdata y else vs) 1]> (bufs s)) s) d) ∧
    length vs = 128%nat ∧ type_ (sdCard d) = type_ (sdCard (drv s)) ∧
    dev d = dev (drv s) ++ (if is_write y then [] else (λ v, Load EMMC_DATA v) <$> vs).
Proof.
  intros Hb Hl Hs. unfold finish_request. m_step (get_buf_done s b y Hb). destruct (decide (_ ∨ _)); [by left|]. right.
  assert (Hend : ∀ s1 y1 d, bufs s1 !! b = Some y1 → sl y1 = 0 →
    (upd_buf b (with_flags B_VALID);; post_sem b) (at_drv s1 d) = Done (tt, at_drv (with_bufs (<[b := mkBuf B_VALID (blockno y1) (bdata y1) 1]> (bufs s1)) s1) d)).
  { intros s1 y1 d Hb1 Hs1. m_step (upd_buf_done (at_drv s1 d) b (with_flags B_VALID) y1 Hb1). unfold post_sem.
    rewrite (upd_buf_done _ b _ (with_flags B_VALID y1)) by apply lookup_insert_eq. do 2 f_equal. unfold with_bufs, at_drv. cbn. rewrite Hs1.
    by rewrite insert_insert_eq. }
  unfold is_write. destruct (decide (Z.land (flags y) B_DIRTY = 0)) as [Hw|Hw].
  - destruct (read_data_spec b s y Hb Hl) as (d & vs & E & Hv & Hc & Hd). rewrite !bind_assoc. m_step E.
    set (s1 := at_drv _ d). destruct (drv_step (sdWaitForInterrupt INT_DATA_DONE) s1 _ (runs_WaitForInterrupt _ _) (keeps_WaitForInterrupt _)) as (r & d2 & E2 & [C2 _] & D2).
    rewrite bind_assoc. m_step E2. m_step (ret_done tt (at_drv s1 d2)). exists d2, vs. rewrite bool_decide_eq_false_2 by auto.
    rewrite (Hend s1 (mkBuf (flags y) (blockno y) vs (sl y)) d2); [|apply lookup_insert_eq|done]. split; [|split; [done|]].
    + do 2 f_equal. unfold s1, at_drv, with_bufs. cbn. by rewrite insert_insert_eq.
    + cbn [drv s1 at_drv] in *. split; [congruence|]. by rewrite D2, Hd.
  - m_step (ret_done tt s). exists (drv s), (replicate 128 0). rewrite bool_decide_eq_true_2 by done. rewrite app_nil_r.
    split; [|done]. pose proof (Hend s y (drv s) Hb Hs) as E. by destruct s.
Qed.

(** A call of [sdrw] queues the request, and starts it when it is the only one. *)
Lemma begin_spec b x l s : qrep l s → sdlock s = false → Queue.lk (sdque s) = false → bnode b ≠ 0 → is_Some (rnodes s !! bnode b) →
  bnode b ∉ l → Z.of_nat (length l) + 1 < 2 ^ 31 → flags x ≠ B_VALID →
  sdrw_begin 1 b (with_bufs (<[b := x]> (bufs s)) s) = Panic ∨ ∃ d q h,
    sdrw_begin 1 b (with_bufs (<[b := x]> (bufs s)) s) = Done (false, mkRst d false q h (<[b := with_sl 0 x]> (bufs s)) (int_table s)) ∧
    Queue.rep (l ++ [bnode b]) (Queue.mkState q h) ∧ Queue.lk q = false ∧ dom h = dom (rnodes s) ∧ type_ (sdCard d) = type_ (sdCard (drv s)) ∧
    dev d = dev (drv s) ++ (if decide (l = []) then request_events (sdCard (drv s)) x else []).
Proof.
  intros Hq Hs Hl Hn0 Hnd Hnl Hlen Hf. unfold sdrw_begin. set (s0 := with_bufs _ s). m_step (que_lock s0 Hl).
  m_step (que_empty l (relock true s0) Hq). destruct (que_push l (bnode b) (relock true s0) Hq Hn0 Hnd Hnl Hlen) as (q & h & E & Hr & Hd & Hk). m_step E. clear E.
  cbn [drv sdlock bufs int_table relock s0 with_bufs rnodes] in *. set (s1 := mkRst (drv s) (sdlock s) q h _ _).
  assert (Hb1 : bufs s1 !! b = Some x) by apply lookup_insert_eq.
  assert (Hend : ∀ d, (upd_buf b (with_sl 0);; sdrw_turn b) (at_drv s1 d) = Done (false, mkRst d (sdlock s)
    (Queue.mk (Queue.begin_ q) (Queue.end_ q) (Queue.sz q) false) h (<[b := with_sl 0 x]> (bufs s)) (int_table s))).
  { intros d. m_step (upd_buf_done (at_drv s1 d) b (with_sl 0) x Hb1). unfold sdrw_turn.
    rewrite (bind_done _ _ _ _ _ (get_buf_done (with_bufs (<[b := with_sl 0 x]> (bufs (at_drv s1 d))) (at_drv s1 d)) b (with_sl 0 x) (lookup_insert_eq _ _ _))).
    rewrite (bind_done _ _ _ _ _ (que_unlock _)). unfold mret, M_ret. rewrite bool_decide_eq_false_2 by done.
    do 2 f_equal. unfold relock, with_bufs, at_drv, s1. cbn. by rewrite insert_insert_eq. }
  destruct (decide (l = [])) as [->|Hne].
  - rewrite bool_decide_eq_true_2 by done. cbn [app] in *. assert (Hb2 : bufs s1 !! buf_of (bnode b) = Some x).
    { replace (buf_of (bnode b)) with b by (unfold buf_of, bnode; lia). exact Hb1. }
    destruct (request_head_spec (bnode b) [] s1 x Hr Hs Hb2) as [E|(d & E & Ht & Hdev)].
    + left. unfold mbind, M_bind. by rewrite E.
    + right. m_step E. rewrite Hend. eexists d, _, h. split; [by rewrite Hs|]. split; [exact Hr|]. split; [done|]. split; [exact Hd|].
      split; [exact Ht|exact Hdev].
  - rewrite bool_decide_eq_false_2 by done. right. m_step (ret_done tt s1). pose proof (Hend (drv s)) as E. change (at_drv s1 (drv s)) with s1 in E. rewrite E.
    eexists (drv s), _, h. split; [by rewrite Hs|]. rewrite app_nil_r. split; [exact Hr|]. split; [done|].
    split; [exact Hd|done].
Qed.
(** A process whose request is completed returns from [sdrw]. *)
Lemma resume_spec b y s : bufs s !! b = Some y → sl y = 1 → flags y = B_VALID → Queue.lk (sdque s) = false →
  sdrw_resume 1 b s = Done (true, with_bufs (<[b := with_sl 0 y]> (bufs s)) s).
Proof.
  intros Hb Hy Hf Hl. unfold sdrw_resume, wait_sem. rewrite bind_assoc. m_step (get_buf_done s b y Hb). rewrite decide_False by lia.
  m_step (set_buf_done s b (with_sl (sl y - 1) y) y Hb). rewrite Hy. set (s1 := with_bufs _ s). m_step (que_lock s1 Hl). unfold sdrw_turn.
  m_step (get_buf_done (relock true s1) b (with_sl 0 y) (lookup_insert_eq _ _ _)). rewrite (bind_done _ _ _ _ _ (que_unlock _)).
  unfold mret, M_ret. rewrite bool_decide_eq_true_2 by done. do 2 f_equal. unfold relock, s1, with_bufs. cbn.
  destruct s as [d k [x1 x2 x3 x4] nd m it]. cbn in *. by subst.
Qed.
(** An interrupt without a request changes nothing. *)
Lemma intr_idle s : qrep [] s → Queue.lk (sdque s) = false → sd_intr 1 s = Done (tt, s).
Proof.
  intros Hq Hl. unfold sd_intr. m_step (que_lock s Hl). m_step (que_empty [] (relock true s) Hq). cbn [bool_decide negb].
  rewrite bool_decide_eq_true_2 by done. cbn [negb]. m_step (ret_done tt (relock true s)). rewrite que_unlock. do 2 f_equal.
  destruct s as [d k [x1 x2 x3 x4] nd m it]. cbn in *. by subst.
Qed.
(** An interrupt completes the first request and starts the next one. *)
Lemma intr_spec n l s y (y2 : Z → buf) : qrep (n :: l) s → sdlock s = false → Queue.lk (sdque s) = false →
  bufs s !! buf_of n = Some y → length (bdata y) = 128%nat → sl y = 0 → (∀ n2, head l = Some n2 → n2 ≠ n ∧ bufs s !! buf_of n2 = Some (y2 n2)) →
  sd_intr 1 s = Panic ∨ ∃ d q h vs,
    sd_intr 1 s = Done (tt, mkRst d false q h (<[buf_of n := mkBuf B_VALID (blockno y) (if is_write y then bdata y else vs) 1]> (bufs s)) (int_table s)) ∧
    Queue.rep l (Queue.mkState q h) ∧ Queue.lk q = false ∧ dom h = dom (rnodes s) ∧ length vs = 128%nat ∧ type_ (sdCard d) = type_ (sdCard (drv s)) ∧
    dev d = dev (drv s) ++ (if is_write y then [] else (λ v, Load EMMC_DATA v) <$> vs) ++
      match head l with None => [] | Some n2 => request_events (sdCard (drv s)) (y2 n2) end.
Proof.
  intros Hq Hs Hl Hy Hlen Hsl Hnext. unfold sd_intr. m_step (que_lock s Hl). m_step (que_empty (n :: l) (relock true s) Hq).
  rewrite bool_decide_eq_false_2 by done. cbn [negb].
  assert (Ei : ∃ v d1, get_and_clear_EMMC_INTERRUPT (relock true s) = Done (v, at_drv (relock true s) d1) ∧ sdCard d1 = sdCard (drv s) ∧ dev d1 = dev (drv s)).
  { destruct (drv_step (t ← rd EMMC_INTERRUPT; wr EMMC_INTERRUPT t;; mret t) (relock true s) (λ _ c, c = sdCard (drv s))) as (v & d1 & E & C & D).
    - cbn [drv relock]. run_step. run_step. by apply runs_ret.
    - apply keeps_bind; [by apply keeps_rd|]. intros v. apply keeps_bind; [by apply keeps_wr|]. intros _. apply keeps_ret.
    - by exists v, d1. }
  destruct Ei as (v & d1 & E1 & C1 & D1). rewrite bind_assoc. m_step E1. rewrite bind_assoc. rewrite (bind_done _ _ _ _ _ (que_front n l (at_drv (relock true s) d1) Hq)).
  destruct (decide (v ≠ INT_READ_RDY ∧ v ≠ INT_DATA_DONE)); [by left|]. rewrite bind_assoc.
  destruct (finish_spec (buf_of n) v (at_drv (relock true s) d1) y Hy Hlen Hsl) as [E|(d2 & vs & E2 & Hv & T2 & D2)].
  { left. unfold mbind, M_bind. by rewrite E. }
  m_step E2. set (s2 := at_drv (with_bufs _ _) d2). rewrite bind_assoc.
  destruct (que_pop n l s2 Hq) as (q & h & E3 & Hr & Hd & Hk). m_step E3. set (s3 := mkRst (drv s2) (sdlock s2) q h _ _). rewrite bind_assoc.
  rewrite (bind_done _ _ _ _ _ (que_empty l s3 Hr)). cbn [drv sdlock at_drv s2 with_bufs relock] in *.
  destruct l as [|n2 l].
  - rewrite bool_decide_eq_true_2 by done. cbn [negb]. right. m_step (ret_done tt s3). rewrite que_unlock.
    eexists d2, _, h, vs. split; [unfold relock, s3, s2; cbn; by rewrite Hs|]. cbn [head]. rewrite app_nil_r. split; [exact Hr|]. split; [done|].
    split; [exact Hd|]. split; [done|]. split; [congruence|]. by rewrite D2, D1.
  - rewrite bool_decide_eq_false_2 by done. cbn [negb]. destruct (Hnext n2 eq_refl) as [Hne Hy2].
    assert (Hb3 : bufs s3 !! buf_of n2 = Some (y2 n2)).
    { unfold s3, s2. cbn. rewrite lookup_insert_ne; [done|]. unfold buf_of. lia. }
    destruct (request_head_spec n2 l s3 (y2 n2) Hr Hs Hb3) as [E|(d4 & E4 & T4 & D4)].
    + left. unfold mbind, M_bind. by rewrite E.
    + right. m_step E4. rewrite que_unlock. eexists d4, _, h, vs. split; [unfold relock, at_drv, s3, s2; cbn; by rewrite Hs|].
      split; [exact Hr|]. split; [done|]. split; [exact Hd|]. split; [done|]. cbn [drv s3 s2 at_drv] in *. split; [congruence|].
      cbn [head]. rewrite D4, D2, D1, <-app_assoc. do 2 f_equal. apply request_events_type. congruence.
Qed.

(** ** The invariant *)
Context (m0 : gmap Z (list Z)) (Hm0 : ∀ a, length (block m0 a) = 128%nat).
Definition reqs w : list buf := (calls w).*2.
(** A call's buffer: its request is completed, or still as it was. *)
Definition buffer_of w (n k : nat) (x : buf) : buf :=
  if decide (k < n)%nat then mkBuf B_VALID (blockno x) (answer_of hc m0 (take k (reqs w)) x) 1 else with_sl 0 x.
(** The first [n] calls have been served; the call after them is in progress. *)
Record inv (n : nat) w : Prop := {
  i_type : type_ (sdCard (drv (rs w))) = type_ hc;
  i_len : Z.of_nat (length (calls w)) < 2 ^ 31;
  i_n : (n ≤ length (calls w))%nat;
  i_sdlock : sdlock (rs w) = false;
  i_lock : Queue.lk (sdque (rs w)) = false;
  i_queue : qrep ((λ p, bnode (p.1)) <$> drop n (calls w)) (rs w);
  i_waiting : ∀ b k, waiting w !! b = Some k → ∃ x, calls w !! k = Some (b, x) ∧ bufs (rs w) !! b = Some (buffer_of w n k x);
  i_queued : ∀ k b x, (n ≤ k)%nat → calls w !! k = Some (b, x) → waiting w !! b = Some k;
  i_data : ∀ k b x, calls w !! k = Some (b, x) → length (bdata x) = 128%nat ∧ flags x ≠ B_VALID;
  i_returned : ∀ k y, (k, y) ∈ returned w → (k < n)%nat ∧ ∃ b x, calls w !! k = Some (b, x) ∧ bdata y = answer_of hc m0 (take k (reqs w)) x;
  i_disk : cdisk (cd w) = serve_all hc m0 (take (S n) (reqs w));
  i_mode : ∀ b x, calls w !! n = Some (b, x) → is_write x = false → cmode (cd w) = Reading (block (cdisk (cd w)) (card_address hc (blockno x)))
}.

Lemma serve_blocks m x a : (∀ a, length (block m a) = 128%nat) → length (block (serve hc m x) a) = 128%nat.
Proof.
  intros Hm. unfold serve. destruct (is_write x); [|apply Hm]. unfold block. destruct (decide (a = card_address hc (blockno x))) as [->|Hne].
  - rewrite lookup_insert_eq. apply length_words_of.
  - rewrite lookup_insert_ne by done. apply Hm.
Qed.
Lemma served_blocks xs a : length (block (serve_all hc m0 xs) a) = 128%nat.
Proof.
  revert a. induction xs as [|x xs IH] using rev_ind; intros a; [apply Hm0|]. unfold serve_all. rewrite foldl_app. cbn. by apply serve_blocks.
Qed.
Lemma accepts_nil w s c : accepts w s c → rev_ s = rev_ (rs w) → c = cd w.
Proof.
  intros (tr & E & Hr) Hs. rewrite E in Hs. replace tr with (@nil event) in Hr; [by injection Hr|].
  destruct tr; [done|]. apply (f_equal length) in Hs. rewrite length_app in Hs. cbn in Hs. lia.
Qed.
Lemma accepts_app w s c l : accepts w s c → rev_ s = rev_ (rs w) ++ l → card_run (cd w) l = Some c.
Proof. intros (tr & E & Hr) Hs. rewrite E in Hs. apply app_inv_head in Hs. by subst. Qed.
Lemma take_reqs w (n : nat) b x : calls w !! n = Some (b, x) → take (S n) (reqs w) = take n (reqs w) ++ [x].
Proof. intros Hn. apply take_S_r. unfold reqs. by rewrite list_lookup_fmap, Hn. Qed.
Lemma serve_all_app m xs x : serve_all hc m (xs ++ [x]) = serve hc (serve_all hc m xs) x.
Proof. unfold serve_all. by rewrite foldl_app. Qed.

Lemma inv_initial w : initial w → cdisk (cd w) = m0 → type_ (sdCard (drv (rs w))) = type_ hc → inv 0 w.
Proof.
  intros (Hc & Hw & Hr & Hs & Hl & Hq & _) Hd Ht. split; unfold reqs; rewrite ?Hc, ?Hw, ?Hr; try done.
  all: cbn; intros; try done. by apply elem_of_nil in H2.
Qed.
Lemma inv_device n w h : inv n w → inv n (mkRun (set_hw h (rs w)) (cd w) (calls w) (waiting w) (returned w)).
Proof. intros []. by split. Qed.

Lemma queue_lookup n w (k : nat) b x : calls w !! (n + k)%nat = Some (b, x) → ((λ p, bnode (p.1)) <$> drop n (calls w)) !! k = Some (bnode b).
Proof. intros Hk. by rewrite list_lookup_fmap, lookup_drop, Hk. Qed.
Lemma inv_call n w b x s c : inv n w → may_call b x w →
  sdrw_begin 1 b (with_bufs (<[b := x]> (bufs (rs w))) (rs w)) = Done (false, s) → accepts w s c →
  inv n (mkRun s c (calls w ++ [(b, x)]) (<[b := length (calls w)]> (waiting w)) (returned w)).
Proof.
  intros I (Hw & Hf & Hlen & _ & Hn0 & Hnd & Hcl) E Hac. destruct I as [It Il In Is Ik Iq Iw Iu Id Ir Ic Im].
  set (l := (λ p, bnode (p.1)) <$> drop n (calls w)) in *.
  assert (Hll : length l = (length (calls w) - n)%nat) by (unfold l; by rewrite length_fmap, length_drop).
  assert (Hnl : bnode b ∉ l).
  { unfold l. rewrite list_elem_of_fmap. intros ([b' x'] & Hb & Hin). apply list_elem_of_lookup in Hin as [k Hk]. rewrite lookup_drop in Hk.
    assert (b' = b) as -> by (unfold bnode in Hb; cbn in Hb; lia). rewrite (Iu _ _ _ (ltac:(lia) : (n <= n + k)%nat) Hk) in Hw. done. }
  destruct (begin_spec b x l (rs w) Iq Is Ik Hn0 Hnd Hnl ltac:(lia) Hf) as [E'|(d & q & h & E' & Hr & Hk & Hd & Ht & Hdev)]; rewrite E' in E; [done|].
  injection E as <-. set (s := mkRst _ _ _ _ _ _) in *.
  assert (Hbuf : ∀ k b' x', (k < length (calls w))%nat → calls w !! k = Some (b', x') →
    buffer_of (mkRun s c (calls w ++ [(b, x)]) (<[b:=length (calls w)]> (waiting w)) (returned w)) n k x' = buffer_of w n k x').
  { intros k b' x' Hlt _. unfold buffer_of, reqs. cbn [calls]. destruct (decide (k < n)%nat); [|done]. do 2 f_equal. rewrite fmap_app, take_app_le; [done|rewrite length_fmap; lia]. }
  split; cbn [rs cd calls waiting returned]; try done.
  - unfold s. cbn. congruence.
  - rewrite length_app. cbn. lia.
  - rewrite length_app. lia.
  - unfold qrep. rewrite drop_app_le, fmap_app by done. exact Hr.
  - intros b' k Hk'. destruct (decide (b' = b)) as [->|Hne].
    + rewrite lookup_insert_eq in Hk'. injection Hk' as <-. exists x. rewrite lookup_app_r, Nat.sub_diag by done. split; [done|].
      cbn [bufs s]. rewrite lookup_insert_eq. unfold buffer_of. by rewrite decide_False by lia.
    + rewrite lookup_insert_ne in Hk' by done. destruct (Iw _ _ Hk') as (x' & Hx' & Hb'). exists x'. assert (Hkl := lookup_lt_Some _ _ _ Hx').
      rewrite lookup_app_l by done. split; [done|]. cbn [bufs s]. rewrite lookup_insert_ne by done. by rewrite (Hbuf _ _ _ Hkl Hx').
  - intros k b' x' Hnk Hk'. apply lookup_app_Some in Hk' as [Hk'|[Hge Hk']].
    + pose proof (Iu _ _ _ Hnk Hk') as Hwk. destruct (decide (b' = b)) as [->|]; [by rewrite Hw in Hwk|]. by rewrite lookup_insert_ne.
    + apply list_lookup_singleton_Some in Hk' as [Hz [= <- <-]]. rewrite lookup_insert_eq. f_equal. lia.
  - intros k b' x' Hk'. apply lookup_app_Some in Hk' as [Hk'|[_ Hk']]; [by eapply Id|]. by apply list_lookup_singleton_Some in Hk' as [_ [= <- <-]].
  - intros k y Hin. destruct (Ir _ _ Hin) as (Hk' & b' & x' & Hx' & Hy). split; [done|]. exists b', x'. assert (Hkl := lookup_lt_Some _ _ _ Hx').
    rewrite lookup_app_l by done. split; [done|]. unfold reqs. cbn [calls]. rewrite fmap_app, take_app_le; [done|rewrite length_fmap; lia].
  - unfold reqs. cbn [calls]. rewrite fmap_app. destruct (decide (l = [])) as [Hl|Hl].
    + assert (n = length (calls w)) as -> by (apply (f_equal length) in Hl; cbn in Hl; lia).
      pose proof (accepts_app w s c _ Hac Hdev) as Hcr. destruct (card_request _ _ _ _ It Hcr) as [-> _]. rewrite Ic, <-serve_all_app. unfold reqs.
      rewrite !take_ge by (rewrite ?length_app, ?length_fmap; cbn; lia). done.
    + rewrite app_nil_r in Hdev. rewrite (accepts_nil w s c Hac Hdev), Ic. unfold reqs. rewrite take_app_le; [done|].
      rewrite length_fmap. destruct (decide (n = length (calls w))) as [->|]; [|lia]. destruct Hl. unfold l. by rewrite drop_ge.
  - intros b' x' Hx' Hwr. destruct (decide (l = [])) as [Hl|Hl].
    + assert (n = length (calls w)) as -> by (apply (f_equal length) in Hl; cbn in Hl; lia).
      rewrite lookup_app_r, Nat.sub_diag in Hx' by done. injection Hx' as <- <-.
      pose proof (accepts_app w s c _ Hac Hdev) as Hcr. destruct (card_request _ _ _ _ It Hcr) as [Hdk Hmd]. rewrite Hdk. unfold serve. rewrite Hwr. by apply Hmd.
    + rewrite app_nil_r in Hdev. rewrite (accepts_nil w s c Hac Hdev). apply (Im b'); [|done].
      apply lookup_app_Some in Hx' as [?|[Hge _]]; [done|]. destruct Hl. unfold l. by rewrite drop_ge.
Qed.

(** Only a process whose request is completed gets past its semaphore. *)
Lemma inv_resume n w b k x s c : inv n w → waiting w !! b = Some k → sdrw_resume 1 b (rs w) = Done (true, s) → bufs s !! b = Some x → accepts w s c →
  inv n (mkRun s c (calls w) (delete b (waiting w)) (returned w ++ [(k, x)])).
Proof.
  intros I Hk E Hx Hac. pose proof I as [It Il In Is Ik Iq Iw Iu Id Ir Ic Im]. destruct (Iw _ _ Hk) as (x0 & Hx0 & Hb).
  assert (Hkn : (k < n)%nat).
  { destruct (decide (k < n)%nat) as [|Hge]; [done|]. exfalso. unfold sdrw_resume, wait_sem in E. rewrite bind_assoc in E.
    rewrite (bind_done _ _ _ _ _ (get_buf_done _ _ _ Hb)) in E. unfold buffer_of in E. rewrite (decide_False (P := (k < n)%nat)) in E by done. cbn [sl with_sl] in E.
    by rewrite decide_True in E by lia. }
  assert (Hy : buffer_of w n k x0 = mkBuf B_VALID (blockno x0) (answer_of hc m0 (take k (reqs w)) x0) 1) by (unfold buffer_of; by rewrite decide_True).
  rewrite Hy in Hb. rewrite (resume_spec b _ (rs w) Hb eq_refl eq_refl Ik) in E. injection E as <-.
  assert (c = cd w) as -> by by eapply accepts_nil. cbn [bufs with_bufs] in Hx. rewrite lookup_insert_eq in Hx. injection Hx as <-.
  split; cbn [rs cd calls waiting returned]; try done.
  - intros b' k' Hk'. apply lookup_delete_Some in Hk' as [Hne Hk']. destruct (Iw _ _ Hk') as (x' & Hx' & Hb'). exists x'. split; [done|].
    cbn [bufs with_bufs]. by rewrite lookup_insert_ne.
  - intros k' b' x' Hnk Hk'. pose proof (Iu _ _ _ Hnk Hk') as Hw. rewrite lookup_delete_ne; [done|]. intros ->. rewrite Hk in Hw. injection Hw as ->. lia.
  - intros k' y Hin. apply elem_of_app in Hin as [Hin|Hin]; [by apply Ir|]. apply list_elem_of_singleton in Hin. injection Hin as -> ->.
    split; [done|]. by exists b, x0.
Qed.
Lemma write_with_sl x v : is_write (with_sl v x) = is_write x.
Proof. done. Qed.
Lemma inv_intr n w s c : inv n w → sd_intr 1 (rs w) = Done (tt, s) → accepts w s c →
  ∃ n', inv n' (mkRun s c (calls w) (waiting w) (returned w)).
Proof.
  intros I E Hac. pose proof I as [It Il In Is Ik Iq Iw Iu Id Ir Ic Im]. destruct (calls w !! n) as [[b x]|] eqn:Hn.
  2:{ apply lookup_ge_None in Hn. rewrite drop_ge in Iq by done. rewrite (intr_idle _ Iq Ik) in E. injection E as <-.
      assert (c = cd w) as -> by by eapply accepts_nil. exists n. destruct w. exact I. }
  exists (S n). pose proof (Iu n b x (le_n n) Hn) as Hwb. destruct (Iw _ _ Hwb) as (x0 & Hx0 & Hb). rewrite Hn in Hx0. injection Hx0 as <-.
  unfold buffer_of in Hb. rewrite decide_False in Hb by lia. rewrite (drop_S _ _ _ Hn) in Iq. rewrite fmap_cons in Iq. cbn [fst] in Iq.
  set (l := (λ p, bnode (p.1)) <$> drop (S n) (calls w)) in *. destruct (Id _ _ _ Hn) as [Hlen _].
  set (x2 := from_option snd x (calls w !! S n)).
  assert (Hhead : head l = (λ p, bnode (p.1)) <$> calls w !! S n).
  { unfold l. rewrite <-(Nat.add_0_r (S n)), <-lookup_drop, Nat.add_0_r. by destruct (drop (S n) (calls w)) as [|[]]. }
  assert (Hbb : buf_of (bnode b) = b) by (unfold buf_of, bnode; lia).
  destruct (intr_spec (bnode b) l (rs w) (with_sl 0 x) (λ _, with_sl 0 x2)) as [E'|(d & q & h & vs & E' & Hr & Hk & Hd & Hvs & Ht & Hdev)];
    [done|done|done|by rewrite Hbb|done|done|..|rewrite E' in E; done|].
  { intros n2 Hn2. rewrite Hhead in Hn2. destruct (calls w !! S n) as [[b2 x2']|] eqn:H2; [|done]. cbn in Hn2. injection Hn2 as <-.
    pose proof (Iu (S n) b2 x2' ltac:(lia) H2) as Hw2. destruct (Iw _ _ Hw2) as (x3 & Hx3 & Hb3). rewrite H2 in Hx3. injection Hx3 as <-.
    unfold buffer_of in Hb3. rewrite decide_False in Hb3 by lia. split.
    - intros Heq. assert (b2 = b) as -> by (unfold bnode in Heq; lia). rewrite Hwb in Hw2. injection Hw2. lia.
    - replace (buf_of (bnode b2)) with b2 by (unfold buf_of, bnode; lia). exact Hb3. }
  rewrite E' in E. injection E as <-. rewrite Hbb in *. cbn [flags blockno bdata with_sl] in *. rewrite write_with_sl in *.
  set (s := mkRst _ _ _ _ _ _) in *. pose proof (accepts_app w s c _ Hac Hdev) as Hcr. rewrite card_run_app in Hcr.
  destruct (card_run (cd w) (if is_write x then [] else (λ v, Load EMMC_DATA v) <$> vs)) as [c1|] eqn:Hc1; [|done]. cbn [mbind option_bind] in Hcr.
  (* the data of the request *)
  rewrite (take_reqs w n b x Hn), serve_all_app in Ic.
  assert (Hdata : cdisk c1 = cdisk (cd w) ∧ (if is_write x then bdata x else vs) = answer_of hc m0 (take n (reqs w)) x).
  { unfold answer_of. destruct (is_write x) eqn:Hwr; [by injection Hc1 as <-|].
    assert (Ic' : cdisk (cd w) = serve_all hc m0 (take n (reqs w))) by (rewrite Ic; unfold serve; by rewrite Hwr).
    destruct (card_loads _ _ _ _ (Im b x eq_refl Hwr) ltac:(rewrite Hvs, Ic'; symmetry; apply served_blocks) Hc1) as [Hv1 Hd1].
    split; [exact Hd1|]. by rewrite Hv1, Ic'. }
  destruct Hdata as [Hdk Hans]. unfold s. rewrite Hans.
  assert (Hcard : cdisk c = serve_all hc m0 (take (S (S n)) (reqs w)) ∧
    ∀ b2 x2, calls w !! S n = Some (b2, x2) → is_write x2 = false → cmode c = Reading (block (cdisk c) (card_address hc (blockno x2)))).
  { rewrite Hhead in Hcr. unfold x2 in Hcr. destruct (calls w !! S n) as [[b2 x2']|] eqn:H2; cbn [fmap option_fmap option_map from_option snd] in Hcr.
    - destruct (card_request c1 x2' _ c It Hcr) as [Hd2 Hm2]. rewrite (take_reqs w (S n) b2 x2' H2), serve_all_app, (take_reqs w n b x Hn), serve_all_app, <-Ic, <-Hdk.
      split; [done|]. intros b3 x3 [= <- <-] Hwr. rewrite Hd2. unfold serve. rewrite Hwr. by apply Hm2.
    - cbn [card_run] in Hcr. injection Hcr as <-. split; [|done]. rewrite Hdk, Ic, <-serve_all_app, <-(take_reqs w n b x Hn).
      apply lookup_ge_None in H2. by rewrite !take_ge by (unfold reqs; rewrite length_fmap; lia). }
  split; cbn [rs cd calls waiting returned]; try done.
  - unfold s. cbn. congruence.
  - apply lookup_lt_Some in Hn. lia.
  - intros b' k Hk'. destruct (Iw _ _ Hk') as (x' & Hx' & Hb'). exists x'. split; [done|]. cbn [bufs s]. destruct (decide (b' = b)) as [->|Hne].
    + rewrite Hwb in Hk'. injection Hk' as <-. rewrite Hn in Hx'. injection Hx' as <-. rewrite lookup_insert_eq. unfold buffer_of. by rewrite decide_True by lia.
    + rewrite lookup_insert_ne by done. rewrite Hb'. f_equal. assert (k ≠ n) by (intros ->; rewrite Hn in Hx'; injection Hx' as -> ->; done).
      unfold buffer_of. destruct (decide (k < n)%nat); [by rewrite decide_True by lia|by rewrite decide_False by lia].
  - intros k b' x' Hnk. apply Iu. lia.
  - intros k y Hin. destruct (Ir _ _ Hin) as [Hkn Hrest]. split; [lia|]. exact Hrest.
  - apply Hcard.
  - intros b2 x2' H2. by apply (proj2 Hcard b2).
Qed.
End queue.

(** ** Theorem *)
Section theorem.
Context {H : Type} `{CounterRuns H}.

Lemma reachable_inv (w0 w : run (H := H)) : initial w0 → rtc step w0 w → ∃ n, inv (sdCard (drv (rs w0))) (cdisk (cd w0)) n w.
Proof.
  intros Hi. assert (Hm0 : ∀ a, length (block (cdisk (cd w0)) a) = 128%nat) by apply Hi.
  apply (rtc_invariant step (λ w, ∃ n, inv (sdCard (drv (rs w0))) (cdisk (cd w0)) n w)).
  - intros w1 w2 [n I] Hs. destruct Hs; [exists n; by eapply inv_call|exists n; by eapply inv_resume|by eapply inv_intr|exists n; by apply inv_device].
  - exists 0%nat. by apply inv_initial.
Qed.

(** C8: requests are served like on a disk. Take any processes that call [sdrw], and
    any sequence of calls, wake-ups, interrupts and changes of the device, with a card
    that keeps to the protocol of its data register.  At every moment the first [n]
    calls have been served, in the order of the calls, and the queue holds the others
    in that order.  A call that returned had been served, and its buffer holds the
    data of a disk that serves the calls one after the other.  A process whose call
    has been served gets past its semaphore, with that data, and one whose call has
    not been served sleeps.  The blocks of the card are those of the disk after the
    calls served and the one in progress. *)
Theorem requests_refine_disk (w0 w : run (H := H)) : initial w0 → rtc step w0 w →
  let hc := sdCard (drv (rs w0)) in let m0 := cdisk (cd w0) in let reqs := (calls w).*2 in
  ∃ n, (n ≤ length (calls w))%nat ∧
    Queue.rep ((λ p, bnode (p.1)) <$> drop n (calls w)) (Queue.mkState (sdque (rs w)) (rnodes (rs w))) ∧
    (∀ k y, (k, y) ∈ returned w → (k < n)%nat ∧ ∃ b x, calls w !! k = Some (b, x) ∧ bdata y = answer_of hc m0 (take k reqs) x) ∧
    (∀ b k, waiting w !! b = Some k → ∃ x, calls w !! k = Some (b, x) ∧
       if decide (k < n)%nat then ∃ s y, sdrw_resume 1 b (rs w) = Done (true, s) ∧ bufs s !! b = Some y ∧ bdata y = answer_of hc m0 (take k reqs) x
       else sdrw_resume 1 b (rs w) = NoFuel) ∧
    cdisk (cd w) = serve_all hc m0 (take (S n) reqs).
Proof.
  intros Hi Hr. cbv zeta. destruct (reachable_inv w0 w Hi Hr) as [n I]. destruct I as [It Il In Is Ik Iq Iw Iu Id Ir Ic Im].
  exists n. split; [done|]. split; [exact Iq|]. split; [exact Ir|]. split; [|exact Ic].
  intros b k Hk. destruct (Iw b k Hk) as (x & Hx & Hb). exists x. split; [done|]. unfold buffer_of in Hb. destruct (decide (k < n)%nat) as [Hkn|Hkn].
  - eexists _, _. split; [by apply (resume_spec b _ (rs w) Hb)|]. cbn [bufs with_bufs]. split; [apply lookup_insert_eq|done].
  - unfold sdrw_resume, wait_sem. rewrite bind_assoc. by m_step (get_buf_done (rs w) b _ Hb).
Qed.
End theorem.

(** ** A write and a read *)
(** A device that answers the loads of two registers from a script. *)
Record script := mkScript { sc_time : Z; sc_ints : list Z; sc_data : list Z }.
#[export] Instance script_hardware : Hardware script := {
  dev_load r t :=
    if decide (r = EMMC_INTERRUPT) then (default 0 (head (sc_ints t)), mkScript (sc_time t) (tail (sc_ints t)) (sc_data t))
    else if decide (r = EMMC_DATA) then (default 0 (head (sc_data t)), mkScript (sc_time t) (sc_ints t) (tail (sc_data t)))
    else (0, t);
  dev_store _ _ t := t;
  dev_count t := (sc_time t, mkScript (sc_time t + 1) (sc_ints t) (sc_data t));
  dev_freq := 1000000;
  dev_delay _ t := t
}.
#[export] Instance script_counter : CounterRuns script.
Proof. split. intros [t i d]. cbn. lia. Qed.
Definition script_ints : list Z := [0; 0; 0; 1; 1; 16; 16; 0] ++ [2; 0; 0; 0; 1; 1] ++ [0x20; 2; 2].
Definition write_buf : buf := mkBuf B_DIRTY 5 (replicate 128 7) 0.
Definition read_buf : buf := mkBuf 0 5 (replicate 128 0) 0.
Definition run0 : run (H := script) :=
  mkRun (mkRst (mkSst (mkMmio (mkScript 0 script_ints (replicate 128 7)) []) no_card 0 0) false (Queue.mk 0 0 0 false)
    {[ bnode 4096 := mkNode 0 0; bnode 8192 := mkNode 0 0 ]} {[ 4096 := write_buf; 8192 := read_buf ]} [])
    (mkCd 0 Idle ∅) [] ∅ [].
Definition state_of {A} (o : outcome (A * rst script)) : rst script := match o with Done (_, s) => s | _ => rs run0 end.
Definition card_of (w : run (H := script)) (s : rst script) : card := default (cd w) (card_run (cd w) (drop (length (rev_ (rs w))) (rev_ s))).
Definition call_run (b : Z) (x : buf) (w : run) : run :=
  let s := state_of (sdrw_begin 1 b (with_bufs (<[b := x]> (bufs (rs w))) (rs w))) in
  mkRun s (card_of w s) (calls w ++ [(b, x)]) (<[b := length (calls w)]> (waiting w)) (returned w).
Definition intr_run (w : run) : run :=
  let s := state_of (sd_intr 1 (rs w)) in mkRun s (card_of w s) (calls w) (waiting w) (returned w).
Definition resume_run (b : Z) (k : nat) (w : run) : run :=
  let s := state_of (sdrw_resume 1 b (rs w)) in
  mkRun s (card_of w s) (calls w) (delete b (waiting w)) (returned w ++ [(k, default read_buf (bufs s !! b))]).
Definition run2 : run := call_run 8192 read_buf (call_run 4096 write_buf run0).
Definition run4 : run := intr_run (intr_run run2).
Definition run5 : run := resume_run 8192 1 run4.
Lemma is_done {A} (o : outcome (A * rst script)) a : answer o = Some a → o = Done (a, state_of o).
Proof. by destruct o as [[a' s]| | |]; intros [=->]. Qed.
Lemma card_accepts (w : run) (s : rst script) : take (length (rev_ (rs w))) (rev_ s) = rev_ (rs w) →
  is_Some (card_run (cd w) (drop (length (rev_ (rs w))) (rev_ s))) → accepts w s (card_of w s).
Proof.
  intros Ht [c Hc]. exists (drop (length (rev_ (rs w))) (rev_ s)). split; [by rewrite <-Ht at 1; rewrite take_drop|].
  unfold card_of. by rewrite Hc.
Qed.
Lemma call_step b x w : may_call b x w → answer (sdrw_begin 1 b (with_bufs (<[b := x]> (bufs (rs w))) (rs w))) = Some false →
  take (length (rev_ (rs w))) (rev_ (rs (call_run b x w))) = rev_ (rs w) →
  is_Some (card_run (cd w) (drop (length (rev_ (rs w))) (rev_ (rs (call_run b x w))))) → step w (call_run b x w).
Proof. intros Hm Ha Ht Hc. apply step_call; [done|by apply is_done|by apply card_accepts]. Qed.
Lemma intr_step w : answer (sd_intr 1 (rs w)) = Some tt → take (length (rev_ (rs w))) (rev_ (rs (intr_run w))) = rev_ (rs w) →
  is_Some (card_run (cd w) (drop (length (rev_ (rs w))) (rev_ (rs (intr_run w))))) → step w (intr_run w).
Proof. intros Ha Ht Hc. apply step_intr; [by apply is_done|by apply card_accepts]. Qed.
Lemma resume_step b k w : waiting w !! b = Some k → answer (sdrw_resume 1 b (rs w)) = Some true → is_Some (bufs (rs (resume_run b k w)) !! b) →
  take (length (rev_ (rs w))) (rev_ (rs (resume_run b k w))) = rev_ (rs w) →
  is_Some (card_run (cd w) (drop (length (rev_ (rs w))) (rev_ (rs (resume_run b k w))))) → step w (resume_run b k w).
Proof.
  intros Hk Ha [y Hy] Ht Hc. apply (step_resume w b k _ (state_of (sdrw_resume 1 b (rs w)))); [done|by apply is_done| |by apply card_accepts].
  cbn [rs resume_run] in Hy. by rewrite Hy.
Qed.
Ltac computed := first [by vm_compute|apply (bool_decide_unpack _); by vm_compute].
Lemma requests_refine_disk_witness : rtc step run0 run5 ∧ ∀ y, returned run5 = [(1%nat, y)] → bdata y = replicate 128 7.
Proof.
  assert (R : rtc step run0 run5).
  { apply (rtc_l _ _ (call_run 4096 write_buf run0)); [apply call_step; [unfold may_call; split_and!|..]; computed|].
    apply (rtc_l _ _ run2); [apply call_step; [unfold may_call; split_and!|..]; computed|].
    apply (rtc_l _ _ (intr_run run2)); [apply intr_step; computed|]. apply (rtc_l _ _ run4); [apply intr_step; computed|].
    apply (rtc_l _ _ run5); [apply resume_step; computed|apply rtc_refl]. }
  split; [exact R|]. intros y Hy.
  destruct (requests_refine_disk run0 run5) as (n & _ & _ & Hret & _); [|exact R|].
  { do 5 (split; [reflexivity|]). split; [split; [reflexivity|split; [reflexivity|split; reflexivity]]|].
    intros a. cbn [cd run0 cdisk]. unfold block. rewrite lookup_empty. reflexivity. }
  destruct (Hret 1%nat y) as (_ & b & x & Hx & ->); [rewrite Hy; left|].
  assert (Ex : calls run5 !! 1%nat = Some (8192, read_buf)) by (vm_compute; reflexivity). rewrite Ex in Hx. injection Hx as <- <-.
  vm_compute. reflexivity.
Defined.
