(* ===== verification/Uart.v ===== *)
(** * The serial console ([driver/uart.c], [driver/aux.h])

    The mini UART behind its registers.  [uart_put_char] polls the line status and calls
    itself for the carriage return after a newline: its fuel bounds both.  [Serial] says
    what its transmitter does: [line] is what it has taken to be sent. *)
From S2P Require Import Prelude Words Atomics Memory Strings Format Traps Mmio SdRegs SdSpec.

Definition AUX_BASE : Z := MMIO_BASE + 0x215000.
Definition AUX_ENABLES : Z := AUX_BASE + 0x04.
Definition AUX_MU_IO_REG : Z := AUX_BASE + 0x40.
Definition AUX_MU_IER_REG : Z := AUX_BASE + 0x44.
Definition AUX_MU_IIR_REG : Z := AUX_BASE + 0x48.
Definition AUX_MU_LCR_REG : Z := AUX_BASE + 0x4C.
Definition AUX_MU_MCR_REG : Z := AUX_BASE + 0x50.
Definition AUX_MU_LSR_REG : Z := AUX_BASE + 0x54.
Definition AUX_MU_CNTL_REG : Z := AUX_BASE + 0x60.
Definition AUX_MU_BAUD_REG : Z := AUX_BASE + 0x68.
Definition AUX_UART_CLOCK : Z := 250000000.
Definition AUX_MU_BAUD (baudrate : Z) : Z := AUX_UART_CLOCK / (baudrate * 8) - 1.

Section uart.
Context {H : Type} `{!Hardware H}.
Abbreviation M := (M (mmio H)).

Definition init_uart : M unit :=
  device_put_u32 GPPUD 0;;
  delay_us 5;;
  device_put_u32 GPPUDCLK0 (Z.lor (Z.shiftl 1 14) (Z.shiftl 1 15));;
  delay_us 5;;
  device_put_u32 GPPUDCLK0 0;;
  device_put_u32 AUX_ENABLES 1;;
  device_put_u32 AUX_MU_CNTL_REG 0;;
  device_put_u32 AUX_MU_IER_REG (Z.lor (Z.shiftl 3 2) 1);;
  device_put_u32 AUX_MU_LCR_REG 3;;
  device_put_u32 AUX_MU_MCR_REG 0;;
  device_put_u32 AUX_MU_BAUD_REG (AUX_MU_BAUD 115200);;
  device_put_u32 AUX_MU_IIR_REG 6;;
  device_put_u32 AUX_MU_CNTL_REG 3.

(** [char] is unsigned on this processor. *)
Definition uart_get_char : M Z :=
  state ← device_get_u32 AUX_MU_IIR_REG;
  if decide (Z.land state 1 ≠ 0 ∨ Z.land state 6 ≠ 4) then mret (u8 (-1))
  else c ← device_get_u32 AUX_MU_IO_REG; mret (Z.land c 0xff).

(** [while (!(device_get_u32(AUX_MU_LSR_REG) & 0x20)) {}] *)
Definition wait_turn (_ : unit) : M (unit + unit) :=
  v ← device_get_u32 AUX_MU_LSR_REG;
  mret (if decide (Z.land v 0x20 = 0) then inl tt else inr tt).
Fixpoint uart_put_char (n : nat) (c : Z) : M unit :=
  match n with
  | O => nofuel
  | S n =>
      loop n wait_turn tt;;
      device_put_u32 AUX_MU_IO_REG c;;
      if decide (c = 10) then uart_put_char n 13 else mret tt
  end.
End uart.

(** ** Set-up and input *)
Section setup.
Context {H : Type} `{!Hardware H}.
Lemma put_done r v (s : mmio H) : device_put_u32 r v s = Done (tt, mkMmio (dev_store r (u32 v) (hw s)) (io s ++ [Store r (u32 v)])).
Proof. done. Qed.
Lemma keeps_delay_io n : keeps io (delay_us (H := H) n).
Proof.
  assert (Hc : keeps io (read_counter (H := H))) by (intros x w y E; unfold read_counter in E; destruct (dev_count (hw x)); by injection E as _ <-).
  unfold delay_us, get_clock_frequency. apply keeps_bind; [apply keeps_ret|]. intros f. apply keeps_bind; [exact Hc|]. intros e.
  apply keeps_loop. intros _. apply keeps_bind; [exact Hc|]. intros t. apply keeps_ret.
Qed.
Lemma delay_io `{!CounterRuns H} n (s : mmio H) : ∃ s', delay_us n s = Done (tt, s') ∧ io s' = io s.
Proof. destruct (returns_delay_us n s) as ([] & s' & E & _). exists s'. split; [done|]. exact (keeps_delay_io n _ _ _ E). Qed.
(** The registers are written in the order of the code, whatever time the delays take:
    the receiver and the transmitter are off while the line is set up and on at the end. *)
Lemma init_uart_done `{!CounterRuns H} (s : mmio H) : ∃ s', init_uart s = Done (tt, s') ∧
  io s' = io s ++ [Store GPPUD 0; Store GPPUDCLK0 0xC000; Store GPPUDCLK0 0; Store AUX_ENABLES 1; Store AUX_MU_CNTL_REG 0;
    Store AUX_MU_IER_REG 13; Store AUX_MU_LCR_REG 3; Store AUX_MU_MCR_REG 0; Store AUX_MU_BAUD_REG 270; Store AUX_MU_IIR_REG 6; Store AUX_MU_CNTL_REG 3].
Proof.
  unfold init_uart. erewrite bind_done; [|apply put_done]. set (s1 := mkMmio _ _). destruct (delay_io 5 s1) as (s2 & E2 & H2). m_step E2.
  erewrite bind_done; [|apply put_done]. set (s3 := mkMmio _ _). destruct (delay_io 5 s3) as (s4 & E4 & H4). m_step E4.
  do 8 (erewrite bind_done; [|apply put_done]). eexists. split; [apply put_done|]. cbn [io]. rewrite H4. cbn [io s3]. rewrite H2. cbn [io s1].
  by rewrite <-!app_assoc.
Qed.
(** A character is read when the receiver holds one, and only then. *)
Lemma get_char_spec (s : mmio H) : let '(v, h) := dev_load AUX_MU_IIR_REG (hw s) in
  let '(c, h') := dev_load AUX_MU_IO_REG h in
  uart_get_char s = if decide (Z.land (u32 v) 1 ≠ 0 ∨ Z.land (u32 v) 6 ≠ 4)
    then Done (255, mkMmio h (io s ++ [Load AUX_MU_IIR_REG (u32 v)]))
    else Done (Z.land (u32 c) 0xff, mkMmio h' ((io s ++ [Load AUX_MU_IIR_REG (u32 v)]) ++ [Load AUX_MU_IO_REG (u32 c)])).
Proof.
  destruct (dev_load AUX_MU_IIR_REG (hw s)) as [v h] eqn:E. destruct (dev_load AUX_MU_IO_REG h) as [c h'] eqn:E'.
  unfold uart_get_char. rewrite (bind_done _ _ s (u32 v) (mkMmio h (io s ++ [Load AUX_MU_IIR_REG (u32 v)]))) by (unfold device_get_u32; by rewrite E).
  case_decide; [done|]. rewrite (bind_done _ _ _ (u32 c) (mkMmio h' ((io s ++ [Load AUX_MU_IIR_REG (u32 v)]) ++ [Load AUX_MU_IO_REG (u32 c)])));
    [done|]. unfold device_get_u32. cbn [hw]. by rewrite E'.
Qed.
End setup.

(** ** The transmitter *)
Class Serial (H : Type) `{Hardware H} := {
  line : H → list Z;
  tx_free : H → bool;
  tx_wait : H → nat;
  tx_bound : nat;
  tx_bounded h : (tx_wait h ≤ tx_bound)%nat;
  (** A status without the bit of the empty transmitter comes only so often. *)
  tx_status h : let '(v, h') := dev_load AUX_MU_LSR_REG h in line h' = line h ∧
    if decide (Z.land (u32 v) 0x20 = 0) then (tx_wait h' < tx_wait h)%nat else tx_free h' = true;
  (** A free transmitter takes the low byte. *)
  tx_store h v : tx_free h = true → line (dev_store AUX_MU_IO_REG v h) = line h ++ [u8 v]
}.

Section serial.
Context {H : Type} `{!Hardware H} `{!Serial H}.
Implicit Types (s : mmio H) (c : Z) (n : nat).

(** What goes over the line for a character. *)
Definition sent (c : Z) : list Z := u8 c :: (if decide (c = 10) then [13] else []).

Lemma wait_done n s : (tx_wait (hw s) < n)%nat →
  ∃ s', loop n wait_turn tt s = Done (tt, s') ∧ line (hw s') = line (hw s) ∧ tx_free (hw s') = true.
Proof.
  revert s. induction n as [|n IH]; intros s Hn; [lia|]. rewrite loop_S. unfold wait_turn. rewrite bind_assoc.
  pose proof (tx_status (hw s)) as Hst. destruct (dev_load AUX_MU_LSR_REG (hw s)) as [v h] eqn:E. destruct Hst as [Hl Hst].
  rewrite (bind_done _ _ s (u32 v) (mkMmio h (io s ++ [Load AUX_MU_LSR_REG (u32 v)]))) by (unfold device_get_u32; by rewrite E).
  unfold mbind, M_bind, mret, M_ret. case_decide.
  - destruct (IH (mkMmio h (io s ++ [Load AUX_MU_LSR_REG (u32 v)]))) as (s' & E' & Hl' & Hf); [cbn [hw]; lia|].
    exists s'. split; [done|]. by rewrite Hl', <-Hl.
  - by eexists.
Qed.
Lemma put_one n c s : (tx_bound < n)%nat →
  ∃ s', (loop n wait_turn tt;; device_put_u32 AUX_MU_IO_REG c) s = Done (tt, s') ∧ line (hw s') = line (hw s) ++ [u8 c].
Proof.
  intros Hn. pose proof (tx_bounded (hw s)). destruct (wait_done n s) as (s1 & E & Hl & Hf); [lia|]. m_step E. eexists. split; [done|].
  cbn [hw]. rewrite tx_store, Hl by done. do 2 f_equal. unfold wrap. apply Z.mod_mod_divide. by exists (2 ^ 24).
Qed.
Lemma put_char_sent n c s : (S tx_bound < n)%nat →
  ∃ s', uart_put_char (S n) c s = Done (tt, s') ∧ line (hw s') = line (hw s) ++ sent c.
Proof.
  intros Hn. cbn [uart_put_char]. destruct (put_one n c s) as (s1 & E & Hl); [lia|]. rewrite <-bind_assoc. m_step E. unfold sent. case_decide.
  - destruct n as [|n]; [lia|]. cbn [uart_put_char]. destruct (put_one n 13 s1) as (s2 & E2 & Hl2); [lia|]. rewrite <-bind_assoc. m_step E2.
    exists s2. split; [done|]. rewrite Hl2, Hl, <-app_assoc. done.
  - by exists s1.
Qed.
Lemma put_chars_sent n cs : ∀ s, (S tx_bound < n)%nat →
  ∃ s', for_each cs (uart_put_char (S n)) s = Done (tt, s') ∧ line (hw s') = line (hw s) ++ mjoin (sent <$> cs).
Proof.
  induction cs as [|c cs IH]; intros s Hn; [exists s; by rewrite app_nil_r|]. cbn [for_each].
  destruct (put_char_sent n c s Hn) as (s1 & E & Hl). m_step E. destruct (IH s1 Hn) as (s' & E' & Hl'). exists s'. split; [done|].
  rewrite Hl', Hl, <-app_assoc. done.
Qed.

(** ** The console *)
(** C15: what the kernel prints comes out of the serial line.  For a format made of any
    pieces and any arguments, [printk] ends, and when [putch] is [uart_put_char], the
    transmitter takes the rendered text in order, no character lost and none twice, with
    a carriage return after every newline; no wait for the transmitter takes more than
    the polls it may need. *)
Theorem console_prints n ps null fmt rest (s : fstate) (d : mmio H) fuel : Forall (piece_ok (fmem s) null fuel) ps →
  string_at (fmem s) fmt (mjoin (piece_fmt <$> ps) ++ [0]) → fargs s = mjoin (piece_args <$> ps) ++ rest →
  length (fbuf s) = 64%nat → (length ps < fuel)%nat → printk_lock s = false → fout s = [] → (S tx_bound < n)%nat →
  ∃ (s' : fstate) (d' : mmio H), printk fuel null fmt s = Done (tt, s') ∧ printk_lock s' = false ∧ fargs s' = rest ∧
    for_each (fout s') (uart_put_char (S n)) d = Done (tt, d') ∧
    line (hw d') = line (hw d) ++ mjoin (sent <$> mjoin (piece_out <$> ps)).
Proof.
  intros Hok Hs Ha Hb Hf Hk Ho Hn. destruct (printk_renders ps null fmt rest s fuel Hok Hs Ha Hb Hf Hk) as (b & _ & E).
  destruct (put_chars_sent n (mjoin (piece_out <$> ps)) d Hn) as (d' & E' & Hl). eexists _, d'. split; [exact E|]. split; [done|]. split; [done|].
  cbn [fout]. rewrite Ho. by split.
Qed.
End serial.

(** ** A line *)
(** The transmitter is busy for three polls after a character. *)
Record serial_line := mkLine { busy : nat; taken : list Z }.
#[export] Instance line_hardware : Hardware serial_line := {
  dev_load r l := if decide (r = AUX_MU_LSR_REG) then
    match Nat.min 3 (busy l) with O => (0x20, l) | S k => (0, mkLine k (taken l)) end else (0, l);
  dev_store r v l := if decide (r = AUX_MU_IO_REG ∧ busy l = 0%nat) then mkLine 3 (taken l ++ [u8 v]) else l;
  dev_count l := (0, l);
  dev_freq := 1000000;
  dev_delay _ l := l
}.
#[export] Instance line_serial : Serial serial_line.
Proof.
  refine {| line := taken; tx_free l := bool_decide (busy l = 0%nat); tx_wait l := Nat.min 3 (busy l); tx_bound := 3 |}.
  - intros l. lia.
  - intros [b t]. cbn [dev_load line_hardware busy taken]. rewrite decide_True by done. destruct b as [|b]; [done|].
    assert (E : Nat.min 3 (S b) = S (Nat.min 2 b)) by lia. rewrite E. split; [done|]. rewrite decide_True by done. cbn [busy]. lia.
  - intros [b t] v Hb%bool_decide_eq_true. cbn [dev_store line_hardware busy taken] in *. by rewrite decide_True.
Defined.
Lemma console_prints_witness : ∃ s' d', printk 100 0 16 (print_state [2 ^ 32 - 5; 64]) = Done (tt, s') ∧
  for_each (fout s') (uart_put_char 6) (mkMmio (mkLine 2 []) []) = Done (tt, d') ∧
  taken (hw d') = [105; 61; 45; 53; 32; 111; 107; 37; 10; 13].
Proof.
  destruct (console_prints 5 [PText 105; PText 61; PInt [100] (λ v, i32 v) 10 true (2 ^ 32 - 5); PText 32;
    PStr 64 [111; 107]; PPercent; PText 10] 0 16 [] (print_state [2 ^ 32 - 5; 64]) (mkMmio (mkLine 2 []) []) 100)
    as (s' & d' & E & _ & _ & E' & Hl).
  - exact print_pieces_ok.
  - apply string_at_check. by vm_compute.
  - by vm_compute.
  - done.
  - cbn [length]. lia.
  - done.
  - done.
  - cbn. lia.
  - exists s', d'. split; [exact E|]. split; [exact E'|]. etrans; [exact Hl|]. vm_compute. reflexivity.
Defined.
