(* ===== verification/Mbox.v ===== *)
(** * The mailbox of the video core ([driver/mbox.c])

    The CPU puts a request in a buffer in memory, sends the address of the buffer and
    waits for it to come back; the buffer then holds the response.  The CPU sees the
    buffer through its data cache: [buf] is what it sees, and [arch_dccivac] writes the
    cached words to the memory the video core sees ([vmem]) and forgets them.  Fuel
    bounds the polls. *)
From S2P Require Import Prelude Words Kalloc Traps Mmio.

Definition VIDEOCORE_MBOX : Z := MMIO_BASE + 0x0000B880.
Definition MBOX_READ : Z := VIDEOCORE_MBOX + 0x00.
Definition MBOX_STATUS : Z := VIDEOCORE_MBOX + 0x18.
Definition MBOX_WRITE : Z := VIDEOCORE_MBOX + 0x20.
Definition MBOX_FULL : Z := 0x80000000.
Definition MBOX_EMPTY : Z := 0x40000000.
Definition MBOX_TAG_GET_ARM_MEMORY : Z := 0x00010005.
Definition MBOX_TAG_GET_CLOCK_RATE : Z := 0x00030002.
Definition MBOX_TAG_END : Z := 0x0.

(** The memory, by words at physical addresses. *)
Class SharedMemory (H : Type) := {
  vmem : H → Z → Z;
  vmem_put : Z → list Z → H → H;
  vmem_words a ws h (i : nat) w : ws !! i = Some w → vmem (vmem_put a ws h) (a + 4 * Z.of_nat i) = w
}.
Record mst (H : Type) := mkMst { mio : mmio H; buf : list Z; dirty : bool }.
Arguments mkMst {H}.
Arguments mio {H}.
Arguments buf {H}.
Arguments dirty {H}.

Section mbox.
Context {H : Type} `{!Hardware H} `{!SharedMemory H}.
Abbreviation M := (M (mst H)).

Definition vmem_get (a : Z) (n : nat) (h : H) : list Z := (λ i : nat, vmem h (a + 4 * Z.of_nat i)) <$> seq 0 n.
Definition on_mio {A} (m : Prelude.M (mmio H) A) : M A := λ s,
  match m (mio s) with
  | Done (a, x) => Done (a, mkMst x (buf s) (dirty s))
  | Panic => Panic | Crash => Crash | NoFuel => NoFuel
  end.
Definition set_buf (ws : list Z) : M unit := λ s, Done (tt, mkMst (mio s) ws true).
Definition get_buf (i : nat) : M Z := λ s, from_option_M (buf s !! i) s.
(** [arch_dccivac(buf, sizeof(buf))] for the buffer at [p]. *)
Definition arch_dccivac (p : Z) : M unit := λ s,
  let h := if dirty s then vmem_put (K2P p) (buf s) (hw (mio s)) else hw (mio s) in
  Done (tt, mkMst (mkMmio h (io (mio s))) (vmem_get (K2P p) (length (buf s)) h) false).

(** The wait while the status has [bit]. *)
Definition status_turn (bit : Z) (_ : unit) : Prelude.M (mmio H) (unit + unit) :=
  v ← device_get_u32 MBOX_STATUS;
  mret (if decide (Z.land v bit ≠ 0) then inl tt else inr tt).
Definition read_turn (n : nat) (chan : Z) (_ : unit) : Prelude.M (mmio H) (unit + Z) :=
  loop n (status_turn MBOX_EMPTY) tt;;
  r ← device_get_u32 MBOX_READ;
  mret (if decide (Z.land r 0xF = chan) then inr (i32 (Z.shiftr r 4)) else inl tt).
Definition mbox_read (n : nat) (chan : Z) : Prelude.M (mmio H) Z := loop n (read_turn n chan) tt.
Definition mbox_write (n : nat) (b chan : Z) : Prelude.M (mmio H) unit :=
  assert (bool_decide (Z.land b 0xF = 0 ∧ Z.land chan (Z.lnot 0xF) = 0));;
  loop n (status_turn MBOX_FULL) tt;;
  device_put_u32 MBOX_WRITE (Z.lor (Z.land b (Z.lxor 0xffffffff 0xF)) chan).

(** What the two requests have in common. *)
Definition mbox_request (n : nat) (p : Z) (ws : list Z) : M unit :=
  set_buf ws;;
  assert (bool_decide (Z.land (K2P p) 0xF = 0));;
  arch_dccivac p;;
  on_mio (mbox_write n (u32 (K2P p)) 8);;
  on_mio (mbox_read n 8);;
  arch_dccivac p.
Definition mbox_get_arm_memory (n : nat) (p : Z) : M Z :=
  mbox_request n p [36; 0; MBOX_TAG_GET_ARM_MEMORY; 8; 0; 0; 0; MBOX_TAG_END];;
  b ← get_buf 5;
  assert (bool_decide (b = 0));;
  b ← get_buf 6;
  assert (bool_decide (b ≠ 0));;
  mret (i32 b).
Definition mbox_get_clock_rate (n : nat) (p : Z) : M Z :=
  mbox_request n p [36; 0; MBOX_TAG_GET_CLOCK_RATE; 8; 0; 1; 0; MBOX_TAG_END];;
  b ← get_buf 6;
  mret (i32 b).
End mbox.

(** ** The video core *)
(** [replies h] are the words the video core has for the CPU, each with what the buffer
    it names holds once it has been read. *)
Class VideoCore (H : Type) `{Hardware H} `{!SharedMemory H} := {
  firmware : list Z → list Z;
  firmware_length ws : length (firmware ws) = length ws;
  replies : H → list (Z * list Z);
  mb_room : H → bool;
  mb_ready : H → bool;
  mb_wait : H → nat;
  mb_bound : nat;
  mb_bounded h : (mb_wait h ≤ mb_bound)%nat;
  (** The mailbox is full, or empty with a reply due, only so often. *)
  mb_status h : let '(v, h') := dev_load MBOX_STATUS h in
    replies h' = replies h ∧ vmem h' = vmem h ∧
    (if decide (Z.land (u32 v) MBOX_FULL ≠ 0) then (mb_wait h' < mb_wait h)%nat else mb_room h' = true) ∧
    (if decide (Z.land (u32 v) MBOX_EMPTY ≠ 0) then replies h ≠ [] → (mb_wait h' < mb_wait h)%nat else mb_ready h' = true);
  mb_read h x ws l : mb_ready h = true → replies h = (x, ws) :: l → let '(v, h') := dev_load MBOX_READ h in
    u32 v = x ∧ replies h' = l ∧ vmem_get (x - Z.land x 0xF) (length ws) h' = ws;
  mb_write h v : mb_room h = true → in_u 32 v → Z.land v 0xF = 8 →
    replies (dev_store MBOX_WRITE v h) = replies h ++ [(v, firmware (vmem_get (v - 8) 8 h))];
  mb_put a ws h : replies (vmem_put a ws h) = replies h
}.

Section core.
Context {H : Type} `{!Hardware H} `{!SharedMemory H} `{!VideoCore H}.
Implicit Types (x : mmio H) (n : nat).

Lemma get_reg r x v h : dev_load r (hw x) = (v, h) → device_get_u32 r x = Done (u32 v, mkMmio h (io x ++ [Load r (u32 v)])).
Proof. intros E. unfold device_get_u32. by rewrite E. Qed.
Lemma wait_room n x : (mb_wait (hw x) < n)%nat → ∃ x', loop n (status_turn MBOX_FULL) tt x = Done (tt, x') ∧
  replies (hw x') = replies (hw x) ∧ vmem (hw x') = vmem (hw x) ∧ mb_room (hw x') = true.
Proof.
  revert x. induction n as [|n IH]; intros x Hn; [lia|]. rewrite loop_S. unfold status_turn. rewrite bind_assoc.
  pose proof (mb_status (hw x)) as Hst. destruct (dev_load MBOX_STATUS (hw x)) as [v h] eqn:E. destruct Hst as (Hr & Hm & Hf & _).
  m_step (get_reg _ _ _ _ E). unfold mbind, M_bind, mret, M_ret. case_decide.
  - destruct (IH (mkMmio h (io x ++ [Load MBOX_STATUS (u32 v)]))) as (x' & E' & H1 & H2 & H3); [cbn [hw]; lia|].
    exists x'. split; [done|]. by rewrite H1, H2, <-Hr, <-Hm.
  - by eexists.
Qed.
Lemma wait_ready n x : (mb_wait (hw x) < n)%nat → replies (hw x) ≠ [] → ∃ x', loop n (status_turn MBOX_EMPTY) tt x = Done (tt, x') ∧
  replies (hw x') = replies (hw x) ∧ mb_ready (hw x') = true.
Proof.
  revert x. induction n as [|n IH]; intros x Hn Hne; [lia|]. rewrite loop_S. unfold status_turn. rewrite bind_assoc.
  pose proof (mb_status (hw x)) as Hst. destruct (dev_load MBOX_STATUS (hw x)) as [v h] eqn:E. destruct Hst as (Hr & _ & _ & Hf).
  m_step (get_reg _ _ _ _ E). unfold mbind, M_bind, mret, M_ret. case_decide.
  - specialize (Hf Hne). destruct (IH (mkMmio h (io x ++ [Load MBOX_STATUS (u32 v)]))) as (x' & E' & H1 & H2); [cbn [hw]; lia|cbn [hw]; by rewrite Hr|].
    exists x'. split; [done|]. by rewrite H1, <-Hr.
  - by eexists.
Qed.

(** [mbox_read] drops what is for other channels. *)
Lemma read_reply n chan : ∀ l x v ws l', (mb_bound < n)%nat → replies (hw x) = l ++ (v, ws) :: l' →
  Forall (λ r, Z.land r.1 0xF ≠ chan) l → Z.land v 0xF = chan → (length l < n)%nat →
  ∃ x', mbox_read n chan x = Done (i32 (Z.shiftr v 4), x') ∧ replies (hw x') = l' ∧ vmem_get (v - Z.land v 0xF) (length ws) (hw x') = ws.
Proof.
  intros l x v ws l' Hn Hr Hl Hv Hlen. unfold mbox_read. assert (Hg : ∀ k (l : list (Z * list Z)) x, replies (hw x) = l ++ (v, ws) :: l' →
    Forall (λ r, Z.land r.1 0xF ≠ chan) l → (length l < k)%nat →
    ∃ x', loop k (read_turn n chan) tt x = Done (i32 (Z.shiftr v 4), x') ∧ replies (hw x') = l' ∧ vmem_get (v - Z.land v 0xF) (length ws) (hw x') = ws);
    [|by apply (Hg n l)].
  clear l x Hr Hl Hlen. induction k as [|k IH]; intros l x Hr Hl Hlen; [lia|]. rewrite loop_S. unfold read_turn. rewrite bind_assoc.
  pose proof (mb_bounded (hw x)). destruct (wait_ready n x) as (x1 & E1 & Hr1 & Hready); [lia|rewrite Hr; by destruct l|]. m_step E1. rewrite bind_assoc.
  destruct (dev_load MBOX_READ (hw x1)) as [w h] eqn:E. destruct l as [|[u us] l].
  - pose proof (mb_read (hw x1) v ws l' Hready ltac:(by rewrite Hr1)) as Hrd. rewrite E in Hrd. destruct Hrd as (Hw & Hrep & Hmem).
    m_step (get_reg _ _ _ _ E). rewrite Hw. unfold mbind, M_bind, mret, M_ret. rewrite decide_True by done. by eexists.
  - pose proof (mb_read (hw x1) u us (l ++ (v, ws) :: l') Hready ltac:(by rewrite Hr1)) as Hrd. rewrite E in Hrd. destruct Hrd as (Hw & Hrep & _).
    apply Forall_cons in Hl as [Hu Hl]. cbn in Hlen. m_step (get_reg _ _ _ _ E). rewrite Hw. unfold mbind, M_bind, mret, M_ret. rewrite decide_False by done.
    apply (IH l); [exact Hrep|exact Hl|lia].
Qed.

Lemma on_mio_done {A} (m : M (mmio H) A) s a x : m (mio s) = Done (a, x) → on_mio m s = Done (a, mkMst x (buf s) (dirty s)).
Proof. intros E. unfold on_mio. by rewrite E. Qed.
Lemma words_of p ws h : vmem_get p (length ws) (vmem_put p ws h) = ws.
Proof.
  unfold vmem_get. apply list_eq. intros i. rewrite list_lookup_fmap. destruct (ws !! i) as [w|] eqn:E.
  - rewrite lookup_seq_lt by (by eapply lookup_lt_Some). cbn. f_equal. by apply vmem_words.
  - rewrite lookup_seq_ge by (by apply lookup_ge_None). done.
Qed.

Lemma send_word a : Z.land a 0xF = 0 → in_u 32 a →
  Z.lor (Z.land a (Z.lxor 0xffffffff 0xF)) 8 = a + 8 ∧ Z.land (a + 8) 0xF = 8 ∧ in_u 32 (a + 8).
Proof.
  intros Ha Hu. assert (E : Z.land a (unot 32 0xF) = a).
  { apply Z.bits_inj'. intros i Hi. rewrite land_unot_testbit by done. change 0xF with (Z.ones 4). destruct (decide (i < 4)).
    - rewrite Z.ones_spec_low by lia. assert (Hb : Z.testbit (Z.land a 0xF) i = false) by (by rewrite Ha, Z.bits_0).
      rewrite Z.land_spec in Hb. change 0xF with (Z.ones 4) in Hb. rewrite Z.ones_spec_low, andb_true_r in Hb by lia. by rewrite Hb.
    - rewrite Z.ones_spec_high by lia. apply andb_true_r. }
  change (Z.lxor 0xffffffff 0xF) with (unot 32 0xF). rewrite E.
  assert (H8 : Z.land a 8 = 0) by (change 8 with (Z.land 15 8); by rewrite Z.land_assoc, Ha).
  assert (El : Z.lor a 8 = a + 8) by (by rewrite Z.add_nocarry_lxor, Z.lxor_lor). rewrite <-El. split; [done|]. split.
  - rewrite Z.land_lor_distr_l, Ha. done.
  - by apply in_u_lor.
Qed.

Lemma dccivac_dirty p x ws : length ws = 8%nat → let h := vmem_put (K2P p) ws (hw x) in
  arch_dccivac p (mkMst x ws true) = Done (tt, mkMst (mkMmio h (io x)) ws false).
Proof. intros Hw h. unfold arch_dccivac. cbn [dirty buf mio]. by rewrite words_of. Qed.
Lemma write_done n a x : Z.land a 0xF = 0 → in_u 32 a → (mb_bound < n)%nat →
  ∃ x', mbox_write n a 8 x = Done (tt, x') ∧ replies (hw x') = replies (hw x) ++ [(a + 8, firmware (vmem_get a 8 (hw x)))].
Proof.
  intros Ha Hu Hn. destruct (send_word a Ha Hu) as (Ev & Hv & Hvu). unfold mbox_write. rewrite bool_decide_true by done. unfold assert. erewrite bind_done by reflexivity.
  pose proof (mb_bounded (hw x)). destruct (wait_room n x) as (x1 & E & Hr & Hm & Hroom); [lia|]. m_step E. rewrite Ev.
  eexists. split; [reflexivity|]. cbn [hw]. rewrite wrap_small, mb_write, Hr by (done || by rewrite wrap_small). do 3 f_equal. f_equal. unfold vmem_get. rewrite Hm. by rewrite Z.add_simpl_r.
Qed.

(** The buffer after a request. *)
Lemma request_done n p ws s : Z.land (K2P p) 0xF = 0 → in_u 32 (K2P p) → length ws = 8%nat → (mb_bound < n)%nat → (length (replies (hw (mio s))) < n)%nat →
  Forall (λ r, Z.land r.1 0xF ≠ 8) (replies (hw (mio s))) →
  ∃ s', mbox_request n p ws s = Done (tt, s') ∧ buf s' = firmware ws ∧ replies (hw (mio s')) = [].
Proof.
  intros Ha Hp Hw Hn Hl Hr. unfold mbox_request. rewrite (bind_done _ _ s tt (mkMst (mio s) ws true)) by done.
  rewrite (bool_decide_true (Z.land (K2P p) 0xF = 0)) by done. unfold assert. erewrite bind_done by reflexivity.
  m_step (dccivac_dirty p (mio s) ws Hw). rewrite (wrap_small 32 (K2P p) Hp). set (x1 := mkMmio _ _).
  destruct (write_done n (K2P p) x1 Ha Hp Hn) as (x2 & E2 & Hr2). m_step (on_mio_done _ (mkMst x1 ws false) _ _ E2).
  destruct (send_word (K2P p) Ha Hp) as (_ & Hv & _). cbn [hw x1] in Hr2. rewrite mb_put in Hr2.
  assert (Ew : vmem_get (K2P p) 8 (vmem_put (K2P p) ws (hw (mio s))) = ws) by (rewrite <-Hw at 1; apply words_of). rewrite Ew in Hr2.
  destruct (read_reply n 8 _ x2 _ _ _ Hn Hr2 Hr Hv Hl) as (x3 & E3 & Hr3 & Hm3). m_step (on_mio_done _ (mkMst x2 ws false) _ _ E3).
  unfold arch_dccivac. cbn [dirty buf mio]. eexists. split; [reflexivity|]. split; [|exact Hr3]. cbn [buf].
  rewrite Hv, Z.add_simpl_r, firmware_length in Hm3. exact Hm3.
Qed.

(** C16: the requests to the video core. When the buffer is where the mailbox can name
    it and no reply on channel 8 is pending, [mbox_get_clock_rate] and
    [mbox_get_arm_memory] end, whatever is pending on other channels and however often
    they have to poll: the video core gets the request the code built, although it was
    written through the cache, and the CPU sees the response rather than its own words.
    [mbox_get_clock_rate] returns word 6 of it; so does [mbox_get_arm_memory], which
    panics unless word 5 is zero and word 6 is not. *)
Theorem mailbox_answers n p s : Z.land (K2P p) 0xF = 0 → in_u 32 (K2P p) → (mb_bound < n)%nat → (length (replies (hw (mio s))) < n)%nat →
  Forall (λ r, Z.land r.1 0xF ≠ 8) (replies (hw (mio s))) →
  (∃ s' w, firmware [36; 0; 0x30002; 8; 0; 1; 0; 0] !! 6%nat = Some w ∧ mbox_get_clock_rate n p s = Done (i32 w, s') ∧ replies (hw (mio s')) = []) ∧
  (∃ s' b w, firmware [36; 0; 0x10005; 8; 0; 0; 0; 0] !! 5%nat = Some b ∧ firmware [36; 0; 0x10005; 8; 0; 0; 0; 0] !! 6%nat = Some w ∧
    mbox_get_arm_memory n p s = if decide (b = 0 ∧ w ≠ 0) then Done (i32 w, s') else Panic).
Proof.
  intros Ha Hp Hn Hl Hr.
  assert (Hget : ∀ (i : nat) w (s' : mst H), buf s' !! i = Some w → get_buf i s' = Done (w, s')) by (intros i w s' E; unfold get_buf; by rewrite E).
  assert (Hin : ∀ ws (i : nat), length ws = 8%nat → (i < 8)%nat → is_Some (firmware ws !! i)) by (intros ws i Hw Hi; apply lookup_lt_is_Some; by rewrite firmware_length, Hw).
  split.
  - destruct (request_done n p [36; 0; MBOX_TAG_GET_CLOCK_RATE; 8; 0; 1; 0; MBOX_TAG_END] s Ha Hp eq_refl Hn Hl Hr) as (s' & E & Hb & Hr').
    destruct (Hin [36; 0; MBOX_TAG_GET_CLOCK_RATE; 8; 0; 1; 0; MBOX_TAG_END] 6%nat eq_refl ltac:(lia)) as [w Hw].
    exists s', w. split; [exact Hw|]. split; [|exact Hr']. unfold mbox_get_clock_rate. m_step E. m_step (Hget 6%nat w s' ltac:(by rewrite Hb)). done.
  - destruct (request_done n p [36; 0; MBOX_TAG_GET_ARM_MEMORY; 8; 0; 0; 0; MBOX_TAG_END] s Ha Hp eq_refl Hn Hl Hr) as (s' & E & Hb & _).
    destruct (Hin [36; 0; MBOX_TAG_GET_ARM_MEMORY; 8; 0; 0; 0; MBOX_TAG_END] 5%nat eq_refl ltac:(lia)) as [b Hb5].
    destruct (Hin [36; 0; MBOX_TAG_GET_ARM_MEMORY; 8; 0; 0; 0; MBOX_TAG_END] 6%nat eq_refl ltac:(lia)) as [w Hw].
    exists s', b, w. split; [exact Hb5|]. split; [exact Hw|]. unfold mbox_get_arm_memory. m_step E. m_step (Hget 5%nat b s' ltac:(by rewrite Hb)).
    destruct (decide (b = 0)) as [Eb|Eb]; [|rewrite bool_decide_false, decide_False by (done || tauto); done].
    rewrite (bool_decide_true (b = 0)) by done. unfold assert at 1. erewrite bind_done by reflexivity. m_step (Hget 6%nat w s' ltac:(by rewrite Hb)).
    destruct (decide (w ≠ 0)) as [Ew|Ew]; [by rewrite bool_decide_true, decide_True by done|by rewrite bool_decide_false, decide_False by tauto].
Qed.
End core.

(** ** A video core *)
(** It answers the two requests and takes two polls to get ready. *)
Record vcore := mkVcore { words : Z → Z; pending : list (Z * list Z); slow : nat }.
Definition put_words (a : Z) (ws : list Z) (m : Z → Z) (x : Z) : Z :=
  default (m x) (if decide (0 <= x - a ∧ (x - a) mod 4 = 0) then ws !! Z.to_nat ((x - a) / 4) else None).
#[export] Instance vcore_memory : SharedMemory vcore.
Proof.
  refine {| vmem := words; vmem_put a ws h := mkVcore (put_words a ws (words h)) (pending h) (slow h) |}.
  intros a ws h i w Hw. cbn [words]. unfold put_words. rewrite Z.add_simpl_l, (Z.mul_comm 4), Z.mod_mul, Z.div_mul, Nat2Z.id, Hw by done.
  by rewrite decide_True by lia.
Defined.
Definition answer (ws : list Z) : list Z :=
  if decide (ws !! 2%nat = Some MBOX_TAG_GET_CLOCK_RATE) then <[1%nat := 0x80000000]> (<[4%nat := 0x80000008]> (<[6%nat := 250000000]> ws))
  else if decide (ws !! 2%nat = Some MBOX_TAG_GET_ARM_MEMORY) then <[1%nat := 0x80000000]> (<[4%nat := 0x80000008]> (<[6%nat := 0x3b400000]> ws))
  else ws.
#[export] Instance vcore_hardware : Hardware vcore := {
  dev_load r h :=
    if decide (r = MBOX_STATUS) then
      match Nat.min 2 (slow h) with
      | O => (match pending h with [] => MBOX_EMPTY | _ => 0 end, mkVcore (words h) (pending h) 0)
      | S k => (Z.lor MBOX_FULL MBOX_EMPTY, mkVcore (words h) (pending h) k)
      end
    else if decide (r = MBOX_READ) then
      match pending h with
      | (x, ws) :: l => (x, mkVcore (put_words (u32 x - Z.land (u32 x) 0xF) ws (words h)) l 2)
      | [] => (0, h)
      end
    else (0, h);
  dev_store r v h :=
    if decide (r = MBOX_WRITE) then
      mkVcore (words h) (pending h ++ [(v, answer (vmem_get (v - Z.land v 0xF) 8 h))]) 2
    else h;
  dev_count h := (0, h);
  dev_freq := 1000000;
  dev_delay _ h := h
}.
#[export] Instance vcore_core : VideoCore vcore.
Proof.
  refine {| firmware := answer; replies h := (λ r, (u32 r.1, r.2)) <$> pending h; mb_room h := bool_decide (slow h = 0%nat);
    mb_ready h := bool_decide (slow h = 0%nat ∧ pending h ≠ []); mb_wait h := Nat.min 2 (slow h); mb_bound := 2 |}.
  - intros ws. unfold answer. repeat case_decide; by rewrite ?length_insert.
  - intros h. lia.
  - intros [m l k]. cbn [dev_load vcore_hardware words pending slow]. rewrite decide_True by done. destruct k as [|k].
    + cbn [Nat.min]. split; [done|]. split; [done|]. destruct l as [|r l]; (split; [done|]).
      * rewrite decide_True by done. intros E. by destruct E.
      * rewrite decide_False by (intros E; by apply E). by apply bool_decide_true.
    + assert (E : Nat.min 2 (S k) = S (Nat.min 1 k)) by lia. rewrite E. split; [done|]. split; [done|].
      split; (rewrite decide_True by done); cbn [slow]; [|intros _]; lia.
  - intros [m l k] x ws l' _. cbn [pending]. destruct l as [|[y ys] l]; [done|]. cbn [fmap list_fmap fst snd]. intros [= <- <- <-].
    cbn [dev_load vcore_hardware pending]. rewrite decide_False, decide_True by done. split; [done|]. split; [done|].
    exact (words_of (u32 y - Z.land (u32 y) 0xF) ys (mkVcore m l k)).
  - intros [m l k] v _ Hv Hl. cbn [dev_store vcore_hardware pending]. rewrite decide_True by done. cbn [pending].
    rewrite fmap_app, Hl. cbn [fmap list_fmap fst snd]. by rewrite wrap_small.
  - done.
Defined.
Lemma mailbox_answers_witness : ∃ s', mbox_get_clock_rate 4 0xffff000000080010 (mkMst (mkMmio (mkVcore (λ _, 7) [(0x123401, [])] 2) []) [] false) = Done (250000000, s') ∧
  pending (hw (mio s')) = [].
Proof.
  destruct (mailbox_answers 4 0xffff000000080010 (mkMst (mkMmio (mkVcore (λ _, 7) [(0x123401, [])] 2) []) [] false)) as [(s' & w & Hw & E & Hr) _].
  - by vm_compute.
  - split; by vm_compute.
  - cbn. lia.
  - cbn. lia.
  - apply Forall_singleton. vm_compute. discriminate.
  - exists s'. injection Hw as <-. split; [exact E|]. by apply fmap_nil_inv in Hr.
Defined.
