(* ===== verification/Online.v ===== *)
(** * Which CPUs are online

    The operations on the timers that leave the CPUs online or offline as they are. *)
From S2P Require Import Prelude Words RbTree Timers.

Definition onlines (s : cst) : list bool := online <$> Timers.cpus s.
Abbreviation same m := (keeps onlines m).

Lemma keeps_assert b : same (assert b).
Proof. intros s a s'. destruct b; [by intros [= <- <-]|done]. Qed.
Lemma keeps_get_timer t : same (get_timer t).
Proof. intros s a s'. unfold get_timer. destruct (tms s !! t); [by intros [= <- <-]|done]. Qed.
Lemma keeps_set_timer t tm : same (set_timer t tm).
Proof. intros s a s'. unfold set_timer. destruct (tms s !! t); [by intros [= <- <-]|done]. Qed.
Lemma keeps_timestamp ticks : same (get_timestamp ticks).
Proof. by intros s a s' [= <- <-]. Qed.
Lemma onlines_insert s (c : nat) v w : Timers.cpus s !! c = Some v → online w = online v → online <$> <[c := w]> (Timers.cpus s) = onlines s.
Proof.
  intros Hv Ho. rewrite list_fmap_insert. apply list_insert_id. unfold onlines. by rewrite list_lookup_fmap, Hv, Ho.
Qed.
Lemma keeps_tree {A} (c : nat) (m : M rb_root A) : same (on_tree c m).
Proof.
  intros s a s'. unfold on_tree. destruct (Timers.cpus s !! c) as [v|] eqn:Hv; [|done]. destruct (m _) as [[b r]| | |]; [|done..].
  intros [= <- <-]. by apply (onlines_insert s c v).
Qed.
Lemma keeps_reset (c : nat) (ms : Z) : same (reset_clock c ms).
Proof.
  apply keeps_bind; [apply keeps_gets|]. intros n. apply keeps_bind; [apply keeps_assert|]. intros _ s a s' E.
  apply bind_inv in E as (v & s1 & E1 & E2). unfold Timers.get_cpu in E1. destruct (Timers.cpus s !! c) as [w|] eqn:Hv; [|done].
  injection E1 as <- <-. injection E2 as _ <-. by apply (onlines_insert s c w).
Qed.
#[export] Hint Resolve keeps_assert keeps_get_timer keeps_set_timer keeps_timestamp keeps_tree keeps_reset : keeps.

Lemma keeps_set_clock ticks (fuel c : nat) : same (__timer_set_clock ticks fuel c).
Proof. unfold __timer_set_clock, get_timestamp_ms. keeps_tac. Qed.
#[export] Hint Resolve keeps_set_clock : keeps.
Lemma keeps_set ticks (fuel c : nat) t : same (set_cpu_timer ticks fuel c t).
Proof. unfold set_cpu_timer, get_timestamp_ms. keeps_tac. Qed.
Lemma keeps_sched_timer ticks sched_timer (fuel c : nat) (ms : Z) : same (Timers.reset_sched_timer ticks sched_timer fuel c ms).
Proof. unfold Timers.reset_sched_timer, cancel_cpu_timer, set_cpu_timer, get_timestamp_ms. keeps_tac. Qed.
