(* ===== verification/Boot.v ===== *)
(** * Starting, idling and stopping ([main.c], [kernel/init.c], [kernel/core.c], [kernel/sched.c])

    The initialisers that the linker collects are called through their addresses, which
    [do_early_init] and [do_init] read from the sections; [code] says which one is at an
    address.  Those of the scheduler, the processes and the timers act on the [world] of
    [Proc.v], whose timers are those of [Timers.v]; that of [kernel/mem.c] acts on the
    memory, and those of the devices and the message queues on a state of their
    own: both are parameters.

    [idle_entry] is cut at the switches to other processes: [idle_entry] runs up to
    the first one and [idle_resume] from where the idle process runs again to the next;
    both say which process the CPU runs then. *)
From S2P Require Import Prelude Words Atomics Lists Memory Sched Sem Heap Pages Proc RbTree Timers SchedTimers.

Definition NCPU : nat := 4.

Variant initcall :=
  | init_slock | init_proc_list | init_clock | init_root_cont | init_memory
  | init_scheduler | init_root | init_driver (i : Z).
#[export] Instance initcall_eq_dec : EqDecision initcall.
Proof. solve_decision. Defined.

Record boot (G R : Type) := mkBoot { bw : world cst G; drivers : R; boot_secondary_cpus : bool }.
Arguments mkBoot {G R}.
Arguments bw {G R}.
Arguments drivers {G R}.
Arguments boot_secondary_cpus {G R}.

Section boot.
Context {G R : Type} `{!PageAllocator G} `{!KernelHeap G}.
Context (ticks : nat → Z) (frequency B : Z) (sched_timer hello_timer : nat → Z) (hello_ptr sched_timer_handler_ptr : Z).
Context (invalid_pt exception_vector root_proc root_container proc_entry kernel_entry : Z) (fuel : nat).
Context (platform_ok : platform ticks sched_timer).
#[local] Instance boot_timers : CpuTimers cst := kernel_timers ticks B sched_timer fuel platform_ok.
(** The sections of initialisers, what is at their addresses, and the initialisers that
    are not about processes. *)
Context (text : mem) (early_init rest_init init einit : Z) (code : Z → option initcall).
Context (mem_init : M G unit) (driver : Z → M R unit).
Abbreviation W := (world cst G).
Abbreviation M := (M (boot G R)).

Definition on_world {A} (m : Prelude.M W A) : M A := λ s,
  match m (bw s) with
  | Done (a, w) => Done (a, mkBoot w (drivers s) (boot_secondary_cpus s))
  | Panic => Panic | Crash => Crash | NoFuel => NoFuel
  end.
Definition on_drivers (m : Prelude.M R unit) : M unit := λ s,
  match m (drivers s) with
  | Done (_, r) => Done (tt, mkBoot (bw s) r (boot_secondary_cpus s))
  | Panic => Panic | Crash => Crash | NoFuel => NoFuel
  end.
Definition on_cst {A} (m : Prelude.M cst A) : Prelude.M W A := on_sched (on_timers m).

(** ** [kernel/sched.c] *)
Definition init_sched_lock : Prelude.M W unit := on_sched (Sched.on_lock init_spinlock).
Definition with_idle (pr : proc) : proc :=
  mkProc (killed pr) true (pid pr) (localpid pr) (exitcode pr) (pstate pr) (parent pr) (pgdir_pt pr)
    (container_ pr) (kstack pr) (ucontext pr) (kcontext pr).
Definition init_idle (i : nat) : Prelude.M W unit :=
  p ← kalloc_proc;
  update_p p (with_pid 0);;
  update_p p (set_pstate RUNNING);;
  update_p p with_idle;;
  on_sched (Sched.set_cpu i (mkSched p p));;
  on_cst (tm ← get_timer (sched_timer i); set_timer (sched_timer i) (mkTimer true (elapse tm) (_key tm) sched_timer_handler_ptr (data tm))).
Definition init_sched : Prelude.M W unit := for_each (seq 0 NCPU) init_idle.

Definition sched_timer_handler (depth cpu : nat) (t : Z) : Prelude.M W Z :=
  tm ← on_cst (get_timer t);
  assert (bool_decide (t = sched_timer cpu) && triggered tm);;
  on_sched (yield_ root_container depth fuel cpu).

(** ** [kernel/init.c] *)
Definition run_initcall (f : initcall) : M unit :=
  match f with
  | init_slock => on_world init_sched_lock
  | init_proc_list => on_world (on_plock init_spinlock)
  | init_clock => on_world (on_cst init_clock_handler)
  | init_root_cont => on_world (init_root_container root_proc root_container)
  | init_memory => on_world (on_kpages mem_init)
  | init_scheduler => on_world init_sched
  | init_root => on_world (init_root_proc root_proc root_container proc_entry kernel_entry;; mret tt)
  | init_driver i => on_drivers (driver i)
  end.
(** [(( void( * )()) *p)()] *)
Definition call_at (p : Z) : M unit :=
  match code (load64 text p) with Some f => run_initcall f | None => crash end.
Definition call_turn (hi p : Z) : M (Z + unit) :=
  if decide (p < hi) then call_at p;; mret (inl (p + 8)) else mret (inr tt).
Definition call_section (lo hi : Z) : M unit := loop (S (Z.to_nat ((hi - lo) / 8))) (call_turn hi) lo.
Definition do_early_init : M unit := call_section early_init rest_init.
Definition do_rest_init : M unit := call_section rest_init init.
Definition do_init : M unit := call_section init einit.

(** ** [main.c] *)

(** The static objects of the kernel after the [memset] of [kernel_init]: the root
    process and container, the CPUs, the locks and the timers. *)
Definition zero_nodes (l : list Z) : heap := list_to_map ((λ n, (n, mkNode 0 0)) <$> l).
Definition timer_addrs : list Z := (sched_timer <$> seq 0 NCPU) ++ (hello_timer <$> seq 0 NCPU).
Definition bss_timers (s : cst) : cst :=
  mkCst (list_to_map ((λ t, (tnode t, mkRb 0 0 0)) <$> timer_addrs))
    (list_to_map ((λ t, (t, mkTimer false 0 0 0 0)) <$> timer_addrs))
    ((λ v, mkCpu false 0 (daif v) (ttbr0 v) (vbar v) (esr v) (cntp_ctl v) (cntp_tval v) (core_clock_ctrl v)) <$> cpus s)
    0 None (reads s) (called s).
Definition bss_sched (g : kst cst) : kst cst :=
  mkKst (zero_nodes [sqhead root_container; schinfo_sqnode (cont_schinfo root_container); sqnode root_proc])
    {[root_proc := zero_proc]} {[root_container := mkContainer 0 0 0]}
    {[cont_schinfo root_container := false; proc_schinfo root_proc := false]}
    (replicate NCPU (mkSched 0 0)) false false
    (bss_timers (timers g)).
Definition clear_bss : M unit := modify (λ s, let w := bw s in
  mkBoot (mkWorld (bss_sched (wsched w)) {[root_proc := mkCsem false 0 {[sleeplist root_proc := mkNode 0 0]} ∅]}
            (zero_nodes [children root_proc; ptnode root_proc]) false 0 (wpages w))
    (drivers s) false).

Definition kernel_init : M unit :=
  clear_bss;;
  do_early_init;;
  do_init;;
  modify (λ s, mkBoot (bw s) (drivers s) true).
(** The first CPU initialises the kernel, the others look whether it has done so; does
    the CPU go on to [idle_entry]? *)
Definition main (cpu : nat) : M bool :=
  if decide (cpu = 0%nat) then kernel_init;; mret true else gets boot_secondary_cpus.

(** ** [kernel/core.c] *)
Definition idle_yield (depth cpu : nat) : Prelude.M W Z := on_sched (yield_ root_container depth fuel cpu).
Definition idle_entry (depth cpu : nat) : Prelude.M W Z :=
  on_cst (set_cpu_on ticks frequency hello_timer hello_ptr invalid_pt exception_vector fuel cpu);;
  idle_yield depth cpu.
(** [None] when the CPU stops; interrupts are served while it waits. *)
Definition idle_resume (depth cpu : nat) : Prelude.M W (option Z) :=
  pf ← on_sched (gets panic_flag);
  if (pf : bool) then on_cst (set_cpu_off cpu);; mret None
  else p ← idle_yield depth cpu; mret (Some p).

(** [_panic] up to its wait, and one pass of the wait: have all CPUs stopped? *)
Definition _panic (cpu : nat) : Prelude.M W unit :=
  on_sched (modify (λ g, mkKst (lnodes g) (procs g) (conts g) (groups g) (Sched.cpus g) (sched_lock g) true (timers g)));;
  on_cst (set_cpu_off cpu).
Definition panic_turn (i : nat) : Prelude.M W (nat + unit) :=
  if decide (i < NCPU)%nat then
    v ← on_cst (get_cpu i);
    mret (inl (if online v then i else S i))
  else mret (inr tt).
Definition panic_wait (n : nat) : Prelude.M W unit := loop n panic_turn 0%nat.
End boot.
