(* ===== verification/BootSpec.v ===== *)
(** * Booting: the initialisers one by one

    What each initialiser of [Boot.v] does to a partly initialised kernel: [early] says
    which parts the early initialisers have set up, [stage] how many idle processes
    there are and whether there is a root process. *)
From S2P Require Import Prelude Words Atomics Lists Memory LockFree Kalloc Pages PageTable Sched Sem Heap Proc ProcSpec RbTree RbRep Timers TimersSpec TimersProps SchedTimers Online Boot.

Lemma init_list_node_eq h n : n ≠ 0 → is_Some (h !! n) → init_list_node n h = Done (tt, <[n := mkNode n n]> h).
Proof.
  intros Hn [x Hx]. unfold init_list_node, set_prev, set_next, load_node, store_node, mbind, M_bind.
  rewrite decide_False, Hx by done. cbn. rewrite decide_False, Hx by done. cbn.
  rewrite decide_False, lookup_insert_eq by done. cbn. by rewrite decide_False, lookup_insert_eq, insert_insert_eq by done.
Qed.

Section boot.
Context {G : Type} `{!PageAllocator G} `{!KernelHeap G}.
Context (sched_timer hello_timer : nat → Z) (sched_timer_handler_ptr : Z).
Context (root_proc root_container proc_entry kernel_entry : Z) (fuel : nat).
Abbreviation W := (world cst G).
Implicit Types (w : W) (ps : list Z) (p : Z) (b : bool).

Definition with_sched (g : kst cst) w : W := mkWorld g (wsems w) (Proc.tnodes w) (proc_list_lock w) (last_pid w) (wpages w).
Lemma on_sched_done {A} (m : M (kst cst) A) w a g : m (wsched w) = Done (a, g) → on_sched m w = Done (a, with_sched g w).
Proof. intros E. unfold on_sched. by rewrite E. Qed.
Lemma modify_done {S} (f : S → S) s : modify f s = Done (tt, f s).
Proof. done. Qed.

(** The linker gives the root process, the root container and the timers their
    addresses. *)
Record layout : Prop := {
  ly_root : 256 < root_proc;
  ly_cont : 256 < root_container;
  ly_apart : root_proc + 256 <= root_container ∨ root_container + 256 <= root_proc;
  ly_timers : NoDup (timer_addrs sched_timer hello_timer);
  ly_nodes : ∀ t, t ∈ timer_addrs sched_timer hello_timer → node_addr (tnode t);
  ly_code : in_u 64 proc_entry ∧ in_u 64 kernel_entry
}.
(** Where an object of the size of a process would overlap with one of them. *)
Definition clash p : Prop :=
  root_proc - sizeof_proc < p < root_proc + sizeof_proc ∨ root_container - sizeof_proc < p < root_container + sizeof_container.
Lemma clash_root : clash root_proc.
Proof. left. unfold sizeof_proc. lia. Qed.
(** What is in use of the memory besides the stack of the root process. *)
Definition lives ps : list live :=
  (kh_live sizeof_proc <$> ps) ++ [((root_proc, sizeof_proc), None); ((root_container, sizeof_container), None)].

(** ** The early initialisers *)
Section early.
Context {R : Type} (mem_init : M G unit) (g0 g1 : G).
Context (mem_init_done : mem_init g0 = Done (tt, g1)).

Definition clear_nodes : heap := zero_nodes [sqhead root_container; schinfo_sqnode (cont_schinfo root_container); sqnode root_proc].
Definition ring_at (n : Z) (h : heap) : heap := <[n := mkNode n n]> h.
(** The kernel after [clear_bss] and the early initialisers in [D]. *)
Definition early (s : cst) (D : list initcall) : W :=
  let rc := bool_decide (init_root_cont ∈ D) in
  mkWorld (mkKst
      (if rc then ring_at (schinfo_sqnode (cont_schinfo root_container)) (ring_at (sqhead root_container) clear_nodes) else clear_nodes)
      {[root_proc := zero_proc]}
      {[root_container := if rc then mkContainer root_container root_proc 0 else mkContainer 0 0 0]}
      (<[cont_schinfo root_container := rc]> {[proc_schinfo root_proc := false]})
      (replicate NCPU (mkSched 0 0)) false false
      (if bool_decide (init_clock ∈ D) then mkCst (Timers.tnodes s) (tms s) (Timers.cpus s) (one_ms s) (Some timer_clock_handler_ptr) (reads s) (called s) else s))
    {[root_proc := mkCsem false 0 {[sleeplist root_proc := mkNode 0 0]} ∅]}
    (zero_nodes [children root_proc; ptnode root_proc]) false 0
    (if bool_decide (init_memory ∈ D) then g1 else g0).

Definition is_early (f : initcall) : bool :=
  match f with init_slock | init_proc_list | init_clock | init_root_cont | init_memory => true | _ => false end.

Lemma early_step s D f : layout → is_early f = true → f ∉ D →
  match f with
  | init_slock => init_sched_lock (early s D)
  | init_proc_list => on_plock init_spinlock (early s D)
  | init_clock => on_cst init_clock_handler (early s D)
  | init_root_cont => init_root_container root_proc root_container (early s D)
  | init_memory => on_kpages mem_init (early s D)
  | _ => Crash
  end = Done (tt, early s (f :: D)).
Proof.
  intros Hly Hf Hn. assert (Hd : ∀ g, bool_decide (g ∈ f :: D) = bool_decide (g = f) || bool_decide (g ∈ D)).
  { intros g. rewrite <-bool_decide_or. apply bool_decide_ext. apply elem_of_cons. }
  unfold early. rewrite !Hd. destruct f; try discriminate Hf;
    repeat match goal with |- context [bool_decide (?a = ?b :> initcall)] =>
      let v := eval vm_compute in (bool_decide (a = b)) in change (bool_decide (a = b)) with v end; cbn [orb]; try reflexivity.
  - rewrite (bool_decide_false (init_clock ∈ D)) by done. reflexivity.
  - rewrite (bool_decide_false (init_root_cont ∈ D)) by done.
    destruct Hly as [Hr Hc Ha _ _ _]. set (w := mkWorld _ _ _ _ _ _).
    unfold init_root_container, get_cont. unfold mbind at 1, M_bind at 1. cbn [wsched conts w]. rewrite lookup_singleton_eq.
    erewrite bind_done; [|apply on_sched_done, modify_done]. set (w1 := with_sched _ w).
    assert (E1 : init_schqueue (sqhead root_container) (wsched w1) = Done (tt, set_nodes (ring_at (sqhead root_container) clear_nodes) (wsched w1))).
    { apply (on_nodes_done (S := kst cst) _ (wsched w1)), init_list_node_eq; [unfold sqhead; lia|]. cbn. by rewrite lookup_insert_eq. }
    m_step (on_sched_done _ w1 tt _ E1). set (w2 := with_sched _ w1). erewrite on_sched_done.
    2:{ unfold init_schinfo, set_group. erewrite bind_done; [|apply modify_done]. set (g := mkKst _ _ _ _ _ _ _ _).
      apply (on_nodes_done (S := kst cst) _ g), init_list_node_eq; [unfold schinfo_sqnode, cont_schinfo; lia|].
      cbn. unfold ring_at. rewrite lookup_insert_ne by (unfold sqhead, schinfo_sqnode, cont_schinfo; lia).
      rewrite lookup_insert_ne by (unfold sqhead, schinfo_sqnode, cont_schinfo; lia). by rewrite lookup_insert_eq. }
    cbn. unfold with_sched. cbn. by rewrite insert_singleton_eq, insert_insert_eq.
  - rewrite (bool_decide_false (init_memory ∈ D)) by done. unfold on_kpages. cbn [wpages]. by rewrite mem_init_done.
Qed.

Context (driver : Z → M R unit) (driver_returns : ∀ i r, ∃ r', driver i r = Done (tt, r')).
Context (text : mem) (code : Z → option initcall).
Abbreviation run := (run_initcall sched_timer sched_timer_handler_ptr root_proc root_container proc_entry kernel_entry mem_init driver).
Abbreviation call := (call_section sched_timer sched_timer_handler_ptr root_proc root_container proc_entry kernel_entry text code mem_init driver).

(** The section from [lo] to [hi] holds the addresses of the initialisers [fs]. *)
Definition section_holds (lo hi : Z) (fs : list initcall) : Prop :=
  hi = lo + 8 * Z.of_nat (length fs) ∧ ∀ i f, fs !! i = Some f → code (load64 text (lo + 8 * Z.of_nat i)) = Some f.

Lemma call_section_done lo hi fs s s' : section_holds lo hi fs → for_each fs run s = Done (tt, s') → call lo hi s = Done (tt, s').
Proof.
  intros [-> Hc]. unfold call_section. replace ((lo + 8 * Z.of_nat (length fs) - lo) / 8) with (Z.of_nat (length fs))
    by (rewrite Z.add_simpl_l, Z.mul_comm, Z.div_mul; lia). rewrite Nat2Z.id.
  revert lo s Hc. induction fs as [|f fs IH]; intros lo s Hc E; cbn [length]; rewrite loop_S; unfold call_turn.
  - rewrite decide_False by lia. cbn in E. injection E as <-. done.
  - rewrite decide_True by lia. cbn [for_each] in E. apply bind_inv in E as ([] & s1 & E1 & E). unfold call_at.
    pose proof (Hc 0%nat f eq_refl) as Hf. rewrite Z.mul_0_r, Z.add_0_r in Hf. rewrite Hf, bind_assoc. m_step E1.
    cbn [length] in *. replace (lo + 8 * Z.of_nat (S (length fs))) with (lo + 8 + 8 * Z.of_nat (length fs)) by lia.
    apply IH; [|done]. intros i g Hg. replace (lo + 8 + 8 * Z.of_nat i) with (lo + 8 * Z.of_nat (S i)) by lia. by apply Hc.
Qed.

Lemma early_run s0 fs : layout → ∀ D s, NoDup fs → (∀ f, f ∈ fs → is_early f = true ∧ f ∉ D ∨ ∃ i, f = init_driver i) →
  bw s = early s0 D → ∃ D' r, for_each fs run s = Done (tt, mkBoot (early s0 D') r (boot_secondary_cpus s)) ∧
    ∀ f, f ∈ D' ↔ f ∈ D ∨ f ∈ fs ∧ is_early f = true.
Proof.
  intros Hly. induction fs as [|f fs IH]; intros D [w r b] Hnd Hf E; cbn in E; subst w.
  { exists D, r. split; [done|]. set_solver. }
  apply NoDup_cons in Hnd as [Hn Hnd]. cbn [for_each]. destruct (Hf f) as [[He HD]|[i ->]]; [by left| |].
  - pose proof (early_step s0 D f Hly He HD) as E.
    rewrite (bind_done _ _ _ tt (mkBoot (early s0 (f :: D)) r b)).
    2:{ destruct f; try discriminate He; unfold run_initcall, on_world; cbn [bw]; by rewrite E. }
    destruct (IH (f :: D) (mkBoot (early s0 (f :: D)) r b) Hnd) as (D' & r' & E2 & HD'); [|done|].
    + intros g Hg. destruct (Hf g) as [[Hg1 Hg2]|Hg1]; [by right| |by right]. left. split; [done|]. intros [->|]%elem_of_cons; done.
    + exists D', r'. split; [done|]. intros g. rewrite HD', !elem_of_cons. naive_solver.
  - destruct (driver_returns i r) as (r1 & E). rewrite (bind_done _ _ _ tt (mkBoot (early s0 D) r1 b)).
    2:{ unfold run_initcall, on_drivers. cbn [drivers]. by rewrite E. }
    destruct (IH D (mkBoot (early s0 D) r1 b) Hnd) as (D' & r' & E2 & HD'); [|done|].
    + intros g Hg. apply Hf. by right.
    + exists D', r'. split; [done|]. intros g. rewrite HD', elem_of_cons. naive_solver.
Qed.
End early.

(** ** The idle processes and the root process *)
Definition idle_proc : proc := mkProc false true 0 0 0 RUNNING 0 0 0 0 0 0.
(** The root process once [start_proc] has been called for it, with its kernel stack. *)
Definition started (stk : Z) : proc :=
  mkProc false false 1 1 0 RUNNABLE root_proc 0 root_container stk
    (stk + PAGE_SIZE - 16 - sizeof_UserContext) (stk + PAGE_SIZE - 16 - sizeof_KernelContext - sizeof_UserContext).

Record timers_stage (n : nat) (s : cst) : Prop := {
  ts_inv : timers_inv (Timers.tnodes s) (tms s) (Timers.cpus s) (replicate NCPU []);
  ts_all : ∀ t, t ∈ timer_addrs sched_timer hello_timer → is_Some (tms s !! t);
  ts_sched : ∀ i, (i < n)%nat → ∃ tm, tms s !! sched_timer i = Some tm ∧ triggered tm = true ∧ handler tm = sched_timer_handler_ptr;
  ts_size : (size (tms s) + 1 < fuel)%nat;
  ts_daif : ∀ c v, Timers.cpus s !! c = Some v → daif v ≠ 0;
  ts_clock : one_ms s = 0 ∧ clock_handler s = Some timer_clock_handler_ptr;
  ts_offline : onlines s = replicate NCPU false
}.
(** The kernel stack of the root process, once it has one. *)
Definition stacks w : list live :=
  match procs (wsched w) !! root_proc with
  | Some pr => if decide (kstack pr = 0) then [] else [((kstack pr, PAGE_SIZE), None)]
  | None => []
  end.
Lemma stacks_started w stk : procs (wsched w) !! root_proc = Some (started stk) → page_addr stk → stacks w = [((stk, PAGE_SIZE), None)].
Proof. intros Hp [Hs _]. unfold stacks. rewrite Hp. cbn [kstack started]. rewrite decide_False; [done|]. unfold KSPACE_MASK in Hs. lia. Qed.
Lemma context_in stk : stk ≤ kcontext (started stk) ∧ kcontext (started stk) + 24 ≤ stk + PAGE_SIZE.
Proof. unfold started, kcontext, PAGE_SIZE, sizeof_KernelContext, sizeof_UserContext. lia. Qed.
(** There are idle processes [ps] for the first CPUs, and the root process has been
    started ([b]) or not. *)
Record stage ps b w : Prop := {
  sg_calm : calm w;
  sg_panic : panic_flag (wsched w) = false;
  sg_queues : let g := wsched w in
    queues_ok (lnodes g) (if b then procs g else delete root_proc (procs g)) (conts g) (groups g)
      {[sqhead root_container := if b then [sqnode root_proc] else []]};
  sg_conts : conts (wsched w) = {[root_container := mkContainer root_container root_proc (if b then 1 else 0)]};
  sg_groups : groups (wsched w) !! proc_schinfo root_proc = Some false;
  sg_node : is_Some (lnodes (wsched w) !! sqnode root_proc);
  sg_procs : ∀ p pr, procs (wsched w) !! p = Some pr → p ∈ ps ∧ pr = idle_proc ∨ p = root_proc;
  sg_idle : ∀ p, p ∈ ps → procs (wsched w) !! p = Some idle_proc;
  sg_nodup : NoDup ps ∧ ∀ p, p ∈ ps → ¬ clash p;
  sg_cpus : Sched.cpus (wsched w) = ((λ p, mkSched p p) <$> ps) ++ replicate (NCPU - length ps) (mkSched 0 0);
  sg_tree : is_Some (Proc.tnodes w !! children root_proc) ∧ is_Some (Proc.tnodes w !! ptnode root_proc);
  sg_sem : ∃ c, wsems w !! root_proc = Some c ∧ is_Some (cs_nodes c !! sleeplist root_proc) ∧ cs_waits c = ∅ ∧
    if b then cs_lock c = false ∧ cs_val c = 0 ∧ hlist (cs_nodes c) (sleeplist root_proc) [] else True;
  sg_timers : timers_stage (length ps) (timers (wsched w));
  sg_heap : ∃ F, pa_ok (wpages w) F (stacks w ++ lives ps) ∧ (length ps ≤ NCPU < length F + length (stacks w) + length ps)%nat;
  sg_root : if b then
      ∃ stk, procs (wsched w) !! root_proc = Some (started stk) ∧ last_pid w = 1 ∧ page_addr stk ∧
        hlist (Proc.tnodes w) (children root_proc) [] ∧
        let m := pa_mem (wpages w) in let k := kcontext (started stk) in
        load64 m k = proc_entry ∧ load64 m (k + 8) = kernel_entry ∧ load64 m (k + 16) = 123456
    else procs (wsched w) !! root_proc = Some zero_proc ∧ last_pid w = 0
}.

Lemma family_extend h L n x : family h L → (∀ hd l, L !! hd = Some l → n ∉ hd :: l) → family (<[n := x]> h) L.
Proof.
  intros [Hl Hd] Hn. split; [|done]. intros hd l HL. eapply ring_ext; [|by apply Hl].
  intros q Hq. rewrite lookup_insert_ne; [done|]. intros <-. by eapply Hn.
Qed.
(** A new idle process concerns no queue. *)
Lemma queues_idle h qs cs gs L p pr x : queues_ok h qs cs gs L → idle pr = true → qs !! p = None →
  (∀ hd l, L !! hd = Some l → sqnode p ∉ hd :: l) → queues_ok (<[sqnode p := x]> h) (<[p := pr]> qs) cs gs L.
Proof.
  intros [F Q P] Hi Hp Hn. split.
  - by apply family_extend.
  - intros hd l n HL Hin. destruct (Q hd l n HL Hin) as [(q & prq & -> & Hq & ?)|H]; [left|by right].
    exists q, prq. split; [done|]. rewrite lookup_insert_ne; [done|]. intros ->. congruence.
  - intros q prq [[<- <-]|[Hne Hq]]%lookup_insert_Some Hi2; [congruence|].
    destruct (P q prq Hq Hi2) as (H0 & H1 & H2 & H3). split; [done|]. split; [done|]. split; [|done].
    apply lookup_insert_is_Some. destruct (decide (sqnode p = sqnode q)); [by left|by right].
Qed.

(** The kernel with a new process at [p]. *)
Definition with_proc p pr (g : G) w : W :=
  mkWorld (let g := wsched w in mkKst (<[sqnode p := mkNode 0 0]> (lnodes g)) (<[p := pr]> (procs g)) (conts g) (groups g)
      (Sched.cpus g) (sched_lock g) (panic_flag g) (timers g))
    (<[p := mkCsem false 0 {[sleeplist p := mkNode 0 0]} ∅]> (wsems w))
    (<[children p := mkNode 0 0]> (<[ptnode p := mkNode 0 0]> (Proc.tnodes w))) (proc_list_lock w) (last_pid w) g.
Lemma kalloc_proc_done w F lv : pa_ok (wpages w) F lv → F ≠ [] →
  ∃ p g F', kalloc_proc w = Done (p, with_proc p zero_proc g w) ∧ 0 < p ∧ pa_ok g F' (kh_live sizeof_proc p :: lv) ∧
    (length F ≤ S (length F'))%nat ∧ kept lv (pa_mem (wpages w)) (pa_mem g).
Proof.
  intros Ho Hne. destruct (kh_alloc_ok _ _ _ sizeof_proc ltac:(done) Ho) as (p & g & E & K & H0 & H1).
  destruct (decide (p = 0)) as [->|Hp]; [by destruct (H0 eq_refl)|]. destruct (H1 Hp) as (_ & F' & HF & Ho').
  exists p, g, F'. split; [|split; [by eapply kh_pos|split; [exact Ho'|split; [|exact K]]]].
  - unfold kalloc_proc, on_kpages. unfold mbind at 1, M_bind at 1. rewrite E. rewrite decide_False by done. reflexivity.
  - destruct HF as [->|[q ->]]; cbn; lia.
Qed.

Definition with_cpu (i : nat) p (s : cst) w : W :=
  with_sched (let g := wsched w in mkKst (lnodes g) (procs g) (conts g) (groups g) (<[i := mkSched p p]> (Sched.cpus g)) (sched_lock g) (panic_flag g) s) w.
Lemma init_idle_done w F lv (i : nat) tm : pa_ok (wpages w) F lv → F ≠ [] → tms (timers (wsched w)) !! sched_timer i = Some tm →
  let s := timers (wsched w) in
  let s' := mkCst (Timers.tnodes s) (<[sched_timer i := mkTimer true (elapse tm) (_key tm) sched_timer_handler_ptr (data tm)]> (tms s))
              (Timers.cpus s) (one_ms s) (clock_handler s) (reads s) (called s) in
  ∃ p g F', init_idle sched_timer sched_timer_handler_ptr i w = Done (tt, with_cpu i p s' (with_proc p idle_proc g w)) ∧
    0 < p ∧ pa_ok g F' (kh_live sizeof_proc p :: lv) ∧ (length F ≤ S (length F'))%nat ∧ kept lv (pa_mem (wpages w)) (pa_mem g).
Proof.
  intros Ho Hr Ht s s'. destruct (kalloc_proc_done w F lv Ho Hr) as (p & k & F' & E & H). exists p, k, F'. split; [|done].
  unfold init_idle. m_step E.
  assert (Hu : ∀ pr f, update_p p f (with_proc p pr k w) = Done (tt, with_proc p (f pr) k w)).
  { intros pr f. rewrite (update_p_done _ p pr) by (cbn; by rewrite lookup_insert_eq). unfold with_procs, with_proc. cbn. by rewrite insert_insert_eq. }
  m_step (Hu zero_proc (with_pid 0)). m_step (Hu (with_pid 0 zero_proc) (set_pstate RUNNING)). m_step (Hu (set_pstate RUNNING (with_pid 0 zero_proc)) with_idle).
  change (with_idle _) with idle_proc. erewrite bind_done; [|by apply on_sched_done, modify_done]. cbn.
  unfold on_cst, on_timers, on_sched, get_timer, set_timer. m_unfold. cbn. rewrite Ht. cbn. rewrite Ht. done.
Qed.

Lemma sched_timer_addr (i : nat) : (i < NCPU)%nat → sched_timer i ∈ timer_addrs sched_timer hello_timer.
Proof. intros H. unfold timer_addrs. apply elem_of_app. left. apply list_elem_of_fmap_2, elem_of_seq. lia. Qed.
Lemma timers_step (n : nat) s tm : layout → timers_stage n s → tms s !! sched_timer n = Some tm →
  timers_stage (S n) (mkCst (Timers.tnodes s) (<[sched_timer n := mkTimer true (elapse tm) (_key tm) sched_timer_handler_ptr (data tm)]> (tms s))
     (Timers.cpus s) (one_ms s) (clock_handler s) (reads s) (called s)).
Proof.
  intros Hly Ht Htm. split; cbn.
  - eapply inv_timer; [apply Ht|exact Htm|exact (ti_keys _ _ _ _ (ts_inv _ _ Ht) _ _ Htm)|].
    intros (c & L & HL & Hin). change (replicate 4 (@nil Z) !! c = Some L) in HL. apply lookup_replicate in HL as [-> _]. by apply not_elem_of_nil in Hin.
  - intros t Hin. apply lookup_insert_is_Some'. right. by apply Ht.
  - intros i Hi. destruct (decide (sched_timer i = sched_timer n)) as [->|Hne].
    + eexists. rewrite lookup_insert_eq. done.
    + rewrite lookup_insert_ne by done. apply Ht. assert (i ≠ n) by congruence. lia.
  - rewrite map_size_insert_Some by done. apply Ht.
  - apply Ht.
  - apply Ht.
  - apply Ht.
Qed.
(** A new object is not one of those in use. *)
Lemma live_new g F ps p st : pa_ok g F (kh_live sizeof_proc p :: (st ++ lives ps)) → p ∉ ps ∧ ¬ clash p.
Proof.
  intros Ho. pose proof (kh_inside sizeof_proc p ltac:(done)) as [H0 H1]. split.
  - intros Hin. eapply (live_fresh sizeof_proc); [done|exact Ho| |reflexivity].
    apply elem_of_app. right. apply elem_of_app. left. by apply list_elem_of_fmap_2.
  - intros Hc. assert (A : ∀ r : live, r ∈ [((root_proc, sizeof_proc), None); ((root_container, sizeof_container), None)] → Kalloc.apart (kh_live sizeof_proc p).1 r.1).
    { intros r Hr. eapply object_apart; [exact Ho|]. apply elem_of_app. right. apply elem_of_app. by right. }
    pose proof (A _ (list_elem_of_here _ _)) as A1. pose proof (A _ (list_elem_of_further _ _ _ (list_elem_of_here _ _))) as A2.
    unfold Kalloc.apart, clash in *. cbn [fst snd] in *. unfold sizeof_proc, sizeof_container in *. lia.
Qed.
Lemma idle_step ps b w : layout → stage ps b w → (length ps < NCPU)%nat →
  ∃ p w', init_idle sched_timer sched_timer_handler_ptr (length ps) w = Done (tt, w') ∧ stage (ps ++ [p]) b w'.
Proof.
  intros Hly Hs Hlen. destruct (sg_heap _ _ _ Hs) as (F & Ho & Hr). pose proof (sg_timers _ _ _ Hs) as Ht.
  assert (Hst1 : (length (stacks w) ≤ 1)%nat) by (unfold stacks; destruct (_ !! _); [case_decide; cbn; lia|cbn; lia]).
  destruct (ts_all _ _ Ht _ (sched_timer_addr _ Hlen)) as [tm Htm].
  destruct (init_idle_done w F _ (length ps) tm Ho) as (p & k & F' & E & H0 & Ho' & Hr' & K); [intros ->; cbn in Hr; lia|exact Htm|].
  exists p. eexists. split; [exact E|]. destruct (live_new _ _ _ _ _ Ho') as [Hps Hst].
  pose proof Hst as Hst2. unfold clash, sizeof_proc, sizeof_container in Hst2. pose proof Hly as [Hlr Hlc Hla Hlt Hln _].
  assert (Hpr : p ≠ root_proc) by lia.
  assert (Hnone : procs (wsched w) !! p = None).
  { destruct (procs (wsched w) !! p) as [pr|] eqn:Ep; [|done]. destruct (sg_procs _ _ _ Hs p pr Ep) as [[? _]|?]; done. }
  split; cbn.
  - by destruct (sg_calm _ _ _ Hs).
  - apply Hs.
  - destruct b; [|rewrite delete_insert_ne by done].
    + apply queues_idle; [apply Hs|done|done|]. intros hd l [<- <-]%lookup_singleton_Some. 
      intros [E2|E2%list_elem_of_singleton]%elem_of_cons; revert E2; unfold sqnode, schinfo_sqnode, proc_schinfo, sqhead; lia.
    + apply queues_idle; [apply Hs|done|by rewrite lookup_delete_ne|]. intros hd l [<- <-]%lookup_singleton_Some. 
      intros E2%list_elem_of_singleton; revert E2; unfold sqnode, schinfo_sqnode, proc_schinfo, sqhead; lia.
  - apply Hs.
  - apply Hs.
  - rewrite lookup_insert_ne; [apply Hs|]. unfold sqnode, schinfo_sqnode, proc_schinfo; lia.
  - intros q pr [[<- <-]|[Hne Hq]]%lookup_insert_Some; [left; split; [set_solver|done]|].
    destruct (sg_procs _ _ _ Hs q pr Hq) as [[? ?]|?]; [left; split; [set_solver|done]|by right].
  - intros q Hq. destruct (decide (q = p)) as [->|Hne]; [by rewrite lookup_insert_eq|]. rewrite lookup_insert_ne by done. apply Hs. set_solver.
  - destruct (sg_nodup _ _ _ Hs) as [Hnd Hq]. split; [apply NoDup_app; split; [done|]; split; [set_solver|apply NoDup_singleton]|].
    intros q [Hq1|Hq1%list_elem_of_singleton]%elem_of_app; [by apply Hq|by subst].
  - rewrite (sg_cpus _ _ _ Hs), fmap_app, length_app, insert_app_r_alt by (rewrite length_fmap; lia). rewrite length_fmap, Nat.sub_diag, <-app_assoc. f_equal.
    replace (NCPU - length ps)%nat with (S (NCPU - (length ps + 1)))%nat by lia. done.
  - destruct (sg_tree _ _ _ Hs) as [H1 H2]. rewrite !lookup_insert_is_Some. 
    split; right; (split; [unfold children, ptnode; lia|]); right; (split; [unfold children, ptnode; lia|done]).
  - rewrite lookup_insert_ne by done. apply Hs.
  - rewrite length_app, Nat.add_1_r. apply timers_step; [done|exact Ht|exact Htm].
  - exists F'. assert (Est : ∀ w', procs (wsched w') !! root_proc = procs (wsched w) !! root_proc → stacks w' = stacks w) by (intros w' Ew; unfold stacks; by rewrite Ew).
    rewrite Est by (cbn; by rewrite lookup_insert_ne). rewrite length_app. cbn [length]. split; [|lia].
    eapply pa_perm; [|exact Ho']. unfold lives. rewrite fmap_app. cbn [fmap list_fmap]. solve_Permutation.
  - pose proof (sg_root _ _ _ Hs) as Hroot. destruct b; [|by rewrite lookup_insert_ne].
    destruct Hroot as (stk & H1 & H2 & H3 & H5 & H6). exists stk. rewrite lookup_insert_ne by done.
    split; [exact H1|]. split; [exact H2|]. split; [exact H3|]. split.
    + apply (ring_ext (Proc.tnodes w) _ [children root_proc]); [|exact H5]. intros q ->%list_elem_of_singleton. rewrite !lookup_insert_ne by (unfold children, ptnode; lia). done.
    + assert (Hin : ((stk, PAGE_SIZE), None) ∈ stacks w ++ lives ps).
      { apply elem_of_app. left. rewrite (stacks_started w stk H1 H3). by left. }
      cbv zeta in *. pose proof (context_in stk) as [Hk1 Hk2]. cbn [kcontext started] in Hk1, Hk2.
      rewrite !(kept_load64 _ _ _ _ _ _ _ K Hin) by lia. exact H6.
Qed.

Lemma init_sched_done b w : layout → stage [] b w → ∃ ps w', init_sched sched_timer sched_timer_handler_ptr w = Done (tt, w') ∧ stage ps b w' ∧ length ps = NCPU.
Proof.
  intros Hly Hs. assert (H : ∀ n ps w, stage ps b w → (length ps + n = NCPU)%nat →
    ∃ ps' w', for_each (seq (length ps) n) (init_idle sched_timer sched_timer_handler_ptr) w = Done (tt, w') ∧ stage ps' b w' ∧ length ps' = NCPU).
  { clear w Hs. induction n as [|n IH]; intros ps w Hs Hn; cbn [seq for_each]; [exists ps, w; split; [done|split; [done|lia]]|].
    destruct (idle_step ps b w Hly Hs) as (p & w1 & E & Hs1); [lia|]. m_step E.
    destruct (IH _ w1 Hs1) as (ps' & w' & E' & H'); [rewrite length_app; cbn; lia|]. exists ps', w'. split; [|done].
    rewrite length_app in E'. cbn in E'. by rewrite Nat.add_1_r in E'. }
  by apply (H NCPU [] w Hs).
Qed.

(** *** The root process *)
Section root.
Context (ln0 : heap) (ps0 : gmap Z proc) (cp : list sched) (pf : bool) (t : cst) (ss0 : gmap Z csem).
(** A kernel in which the root process is [pr]. *)
Definition wroot pr (ln : heap) cn gr (sm : csem) (tn : heap) (lk : SpinLock) (pid : Z) (g : G) : W :=
  mkWorld (mkKst ln (<[root_proc := pr]> ps0) cn gr cp false pf t) (<[root_proc := sm]> ss0) tn lk pid g.
Lemma root_update f pr ln cn gr sm tn lk pid g :
  update_p root_proc f (wroot pr ln cn gr sm tn lk pid g) = Done (tt, wroot (f pr) ln cn gr sm tn lk pid g).
Proof. rewrite (update_p_done _ root_proc pr) by (cbn; by rewrite lookup_insert_eq). unfold with_procs, wroot. cbn. by rewrite insert_insert_eq. Qed.
Lemma root_tree n pr ln cn gr sm tn lk pid g : n ≠ 0 → is_Some (tn !! n) →
  on_nodes (init_list_node n) (wroot pr ln cn gr sm tn lk pid g) = Done (tt, wroot pr ln cn gr sm (ring_at n tn) lk pid g).
Proof. intros Hn Ht. exact (tree_done _ (wroot pr ln cn gr sm tn lk pid g) tt _ (init_list_node_eq tn n Hn Ht)). Qed.

(** [init_proc(&root_proc)] *)
Lemma init_root_done cn gr sm tn g stk g' : 256 < root_proc → 256 < root_container →
  pa_alloc g = Done (stk, g') → 0 <= stk → stk + PAGE_SIZE <= 2 ^ 64 →
  is_Some (ln0 !! sqnode root_proc) → is_Some (tn !! children root_proc) → is_Some (tn !! ptnode root_proc) → is_Some (cs_nodes sm !! sleeplist root_proc) → cs_waits sm = ∅ →
  init_proc root_container root_proc (wroot zero_proc ln0 cn gr sm tn false 0 g) =
    Done (tt, wroot (mkProc false false 1 0 0 UNUSED 0 0 root_container stk (kstack (started stk) + PAGE_SIZE - 16 - sizeof_UserContext) (kcontext (started stk)))
      (ring_at (sqnode root_proc) ln0) cn (<[proc_schinfo root_proc := false]> gr)
      (mkCsem false 0 (ring_at (sleeplist root_proc) (cs_nodes sm)) ∅) (ring_at (ptnode root_proc) (ring_at (children root_proc) tn)) false 1 g').
Proof.
  intros Hr Hc Eg H0 H1 Hln Ht1 Ht2 Hsm Hw. unfold init_proc.
  m_step (root_update (λ _, zero_proc) zero_proc ln0 cn gr sm tn false 0 g).
  rewrite (bind_done _ _ _ stk (wroot zero_proc ln0 cn gr sm tn false 0 g')).
  2:{ unfold on_kpages, wroot. cbn [wpages]. by rewrite Eg. }
  erewrite bind_done; [|apply root_update]. cbn [with_stack zero_proc killed idle pid localpid exitcode pstate parent pgdir_pt container_].
  rewrite !u64_small by (unfold in_u, PAGE_SIZE, sizeof_UserContext, sizeof_KernelContext in *; lia).
  set (pr := with_stack stk _ _ zero_proc). set (sm' := mkCsem false 0 _ ∅).
  rewrite (bind_done _ _ _ tt (wroot pr ln0 cn gr sm' tn false 0 g')).
  2:{ unfold on_childexit, wroot. cbn [wsems]. rewrite lookup_insert_eq. unfold init_sem. erewrite bind_done; [|apply modify_done].
      set (s := mkSem _ _ _ _ _). rewrite (bind_done _ _ s tt (mkSem false 0 (cs_nodes sm) (cs_waits sm) (ssch s))) by done.
      erewrite (on_nodes_done (S := sem (kst cst))); [|apply init_list_node_eq; [unfold sleeplist; lia|exact Hsm]].
      cbn. by rewrite insert_insert_eq, Hw. }
  rewrite (bind_done _ _ _ tt (wroot pr ln0 cn gr sm' tn false 0 g')).
  2:{ unfold on_pgdir, wroot. cbn. rewrite lookup_insert_eq. cbn. by rewrite insert_insert_eq. }
  m_step (root_tree (children root_proc) pr ln0 cn gr sm' tn false 0 g' ltac:(unfold children; lia) Ht1).
  erewrite bind_done; [|apply root_tree; [unfold ptnode; lia|apply lookup_insert_is_Some; right; split; [unfold children, ptnode; lia|done]]].
  erewrite bind_done; [|apply root_update]. erewrite bind_done; [|apply root_update].
  erewrite bind_done.
  2:{ apply on_sched_done. unfold init_schinfo, set_group. erewrite bind_done; [|apply modify_done].
      apply (on_nodes_done (S := kst cst)), init_list_node_eq; [unfold schinfo_sqnode, proc_schinfo; lia|exact Hln]. }
  erewrite bind_done; [|by apply acquire_done]. erewrite bind_done; [|apply modify_done]. erewrite bind_done; [|done].
  cbn. set (w := mkWorld _ _ _ _ _ _). erewrite bind_done; [|apply (update_p_done w root_proc (with_container root_container (with_parent 0 pr))); cbn; by rewrite lookup_insert_eq].
  unfold release_list, on_plock, with_procs, wroot. cbn. by rewrite insert_insert_eq.
Qed.

(** [start_proc] for the root process: its context is written and it is queued. *)
Definition unstarted (stk l : Z) : proc :=
  mkProc false false 1 l 0 UNUSED root_proc 0 root_container stk (kstack (started stk) + PAGE_SIZE - 16 - sizeof_UserContext) (kcontext (started stk)).
Lemma root_page m pr ln cn gr sm tn lk pid g : on_kpages (on_pages m) (wroot pr ln cn gr sm tn lk pid g) =
  match m (pa_mem g) with Done (a, m') => Done (a : unit, wroot pr ln cn gr sm tn lk pid (pa_set_mem m' g))
  | Panic => Panic | Crash => Crash | NoFuel => NoFuel end.
Proof. unfold on_kpages, on_pages, wroot. cbn. by destruct (m (pa_mem g)) as [[]| | |]. Qed.
Lemma start_root_done ln cn gr sm tn stk g F lv L l : layout → page_addr stk → cn !! root_container = Some (mkContainer root_container root_proc 0) →
  let cn' := <[root_container := mkContainer root_container root_proc 1]> cn in
  queues_ok ln (<[root_proc := unstarted stk 1]> ps0) cn' gr L → L !! sqhead root_container = Some l → pa_ok g F (((stk, PAGE_SIZE), None) :: lv) →
  ∃ ln' g', start_proc root_proc proc_entry root_proc kernel_entry 123456 (wroot (unstarted stk 0) ln cn gr sm tn false 1 g) =
      Done (1, wroot (started stk) ln' cn' gr sm tn false 1 g') ∧
    queues_ok ln' (<[root_proc := started stk]> ps0) cn' gr (<[sqhead root_container := sqnode root_proc :: l]> L) ∧
    (is_Some (ln !! sqnode root_proc) → is_Some (ln' !! sqnode root_proc)) ∧
    pa_ok g' F (((stk, PAGE_SIZE), None) :: lv) ∧ let m := pa_mem g' in let k := kcontext (started stk) in
      load64 m k = proc_entry ∧ load64 m (k + 8) = kernel_entry ∧ load64 m (k + 16) = 123456.
Proof.
  intros Hly [Hp1 [Hp2 Hp3]] Hcn cn' Q HL Hg. destruct (ly_code Hly) as [Hc1 Hc2]. pose proof (ly_root Hly) as Hr. set (k1' := kcontext (started stk)).
  assert (Hk : stk <= k1' ∧ k1' + 24 <= stk + PAGE_SIZE) by (unfold k1', started, kcontext, PAGE_SIZE, sizeof_KernelContext, sizeof_UserContext; lia).
  unfold start_proc. rewrite (bind_done _ _ _ (unstarted stk 0) (wroot (unstarted stk 0) ln cn gr sm tn false 1 g)) by (apply get_p_done; cbn; by rewrite lookup_insert_eq).
  cbn [parent unstarted]. rewrite decide_False by lia. m_step (ret_done tt (wroot (unstarted stk 0) ln cn gr sm tn false 1 g)).
  set (g1' := pa_set_mem (store64 k1' proc_entry (pa_mem g)) g). set (g2' := pa_set_mem (store64 (k1' + 8) kernel_entry (pa_mem g1')) g1').
  set (g3' := pa_set_mem (store64 (k1' + 16) 123456 (pa_mem g2')) g2').
  erewrite bind_done; [|rewrite root_page; done]. fold k1' g1'. erewrite bind_done; [|rewrite root_page; done]. fold k1' g2'.
  erewrite bind_done; [|rewrite root_page; done]. fold k1' g3'. cbn [container_ unstarted].
  rewrite (bind_done _ _ _ (mkContainer root_container root_proc 0) (wroot (unstarted stk 0) ln cn gr sm tn false 1 g3')) by (unfold get_cont, wroot; cbn; by rewrite Hcn).
  cbn [cparent rootproc max_pid]. change (i32 (0 + 1)) with 1.
  rewrite (bind_done _ _ _ tt (wroot (unstarted stk 0) ln cn' gr sm tn false 1 g3')) by done.
  m_step (root_update (with_localpid 1) (unstarted stk 0) ln cn' gr sm tn false 1 g3'). change (with_localpid 1 (unstarted stk 0)) with (unstarted stk 1).
  set (w := wroot (unstarted stk 1) ln cn' gr sm tn false 1 g3').
  destruct (activate_spec (wsched w) L root_proc (unstarted stk 1) false Q) as (ln' & L' & E & Q' & l' & HL' & O & ->);
    [done|cbn; by rewrite lookup_insert_eq|done|]. cbn in HL', Q', E. assert (l' = l) as -> by congruence. rewrite insert_insert_eq in Q', E.
  exists ln', g3'. assert (Hb : ∀ g, pa_ok g F (((stk, PAGE_SIZE), None) :: lv) → ∀ p v, stk <= p → p + 8 <= stk + PAGE_SIZE → pa_ok (pa_set_mem (store64 p v (pa_mem g)) g) F (((stk, PAGE_SIZE), None) :: lv)).
  { clear -PageAllocator0. intros g Hg p v H1 H2. eapply pa_write; [exact Hg| |apply store_bytes; by eapply pa_bytes].
    eapply (agree_off_outside _ stk PAGE_SIZE); [by left|]. eapply outside_mono; [| |apply store_outside]; lia. }
  split; [|split; [exact Q'|split; [by eapply only_dom|split]]].
  - rewrite (bind_done _ _ _ true (wroot (started stk) ln' cn' gr sm tn false 1 g3')); [done|]. unfold on_sched. cbn. rewrite E. done.
  - apply Hb; [apply Hb; [apply Hb; [done|lia|lia]|lia|lia]|lia|lia].
  - cbv zeta. unfold g3', g2', g1'. rewrite !pa_mem_set. split_and!.
    + rewrite !(load_store_ne 8 8) by lia. by apply load_store_eq.
    + rewrite (load_store_ne 8 8) by lia. by apply load_store_eq.
    + by apply load_store_eq.
Qed.
End root.

Lemma ring_at_empty n h : n ≠ 0 → hlist (ring_at n h) n [].
Proof.
  intros Hn. split; [apply NoDup_singleton|]. split; [by intros ?%list_elem_of_singleton|].
  cbn. unfold nxt, prv, ring_at. by rewrite !lookup_insert_eq.
Qed.
(** The queues once the root process has been initialised. *)
Lemma queues_root ps w ln cn gr : layout → stage ps false w → ln = ring_at (sqnode root_proc) (lnodes (wsched w)) →
  cn = {[root_container := mkContainer root_container root_proc 1]} → gr !! proc_schinfo root_proc = Some false → ∀ stk,
  queues_ok ln (<[root_proc := unstarted stk 1]> (procs (wsched w))) cn gr {[sqhead root_container := []]}.
Proof.
  intros Hly Hs -> -> Hg stk. pose proof (sg_queues _ _ _ Hs) as Q. cbv zeta beta iota in Q.
  pose proof (ly_root Hly) as Hr. pose proof (ly_cont Hly) as Hc. pose proof (ly_apart Hly) as Ha.
  assert (Hne : sqnode root_proc ≠ sqhead root_container ∧ sqnode root_proc ≠ 0 ∧ sqnode root_proc ≠ schinfo_sqnode (cont_schinfo root_container))
    by (unfold sqnode, schinfo_sqnode, proc_schinfo, sqhead, cont_schinfo; lia). destruct Hne as (N1 & N2 & N3).
  split.
  - apply family_extend; [apply Q|]. intros hd l [<- <-]%lookup_singleton_Some Hin%list_elem_of_singleton. done.
  - intros hd l n [_ <-]%lookup_singleton_Some Hin. by apply elem_of_nil in Hin.
  - intros q pr [[<- <-]|[Hq Hpr]]%lookup_insert_Some Hi.
    + split; [lia|]. split; [done|]. split; [unfold ring_at; by rewrite lookup_insert_eq|]. split; [done|].
      split; [by rewrite lookup_singleton_ne|]. split.
      * intros c [x [<- _]%lookup_singleton_Some]. done.
      * exists []. cbn [container_ unstarted pstate]. rewrite lookup_singleton_eq. split; [done|]. split; [by intros ?%elem_of_nil|done].
    + destruct (sg_procs _ _ _ Hs q pr Hpr) as [[_ ->]|]; [done|]. congruence.
Qed.

Lemma root_step ps w : layout → stage ps false w →
  ∃ w', init_root_proc root_proc root_container proc_entry kernel_entry w = Done (1, w') ∧ stage ps true w'.
Proof.
  intros Hly Hs. destruct (sg_root _ _ _ Hs) as (Hroot & Hpid). destruct (sg_heap _ _ _ Hs) as (F0 & Hpa & Hroom).
  assert (Est : stacks w = []) by (unfold stacks; by rewrite Hroot). rewrite Est in Hpa, Hroom. cbn [app length] in Hpa, Hroom.
  destruct F0 as [|stk F]; [cbn in Hroom; lia|]. destruct (sg_sem _ _ _ Hs) as (c & Hc & Hcn & Hcw & _).
  destruct (sg_tree _ _ _ Hs) as [Ht1 Ht2]. destruct (sg_calm _ _ _ Hs) as [Hl1 Hl2].
  destruct (pa_alloc_some _ _ _ _ Hpa) as (g & Eg & Hpg & _ & Hpa'). pose proof (ly_root Hly) as Hr. pose proof (ly_cont Hly) as Hrc.
  pose proof (queues_root ps w) as HQ. pose proof Hs as [_ Hpan _ Hconts Hgroups Hnode Hprocs Hidle Hnd Hcpus _ _ Htim _ _].
  destruct w as [[ln ps0 cn gr cp lk pf t] ss0 tn plk pid gg]. cbn [wsched wsems Proc.tnodes proc_list_lock last_pid wpages lnodes procs conts groups Sched.cpus sched_lock panic_flag timers] in *. subst lk plk pf pid cn.
  replace (mkWorld _ _ _ _ _ _) with (wroot ps0 cp false t ss0 zero_proc ln {[root_container := mkContainer root_container root_proc 0]} gr c tn false 0 gg)
    by (unfold wroot; by rewrite !insert_id).
  unfold init_root_proc. pose proof Hpg as [Hp1 [Hp2 _]].
  erewrite bind_done; [|apply init_root_done; done || (unfold KSPACE_MASK in Hp1; lia)].
  erewrite bind_done; [|apply root_update]. erewrite bind_done; [|apply root_update]. cbn [with_parent with_container killed idle Sched.pid localpid exitcode pstate pgdir_pt container_ kstack ucontext kcontext parent].
  set (gr' := <[proc_schinfo root_proc := false]> gr). set (sm' := mkCsem false 0 (ring_at (sleeplist root_proc) (cs_nodes c)) ∅).
  set (tn' := ring_at (ptnode root_proc) (ring_at (children root_proc) tn)). set (ln' := ring_at (sqnode root_proc) ln).
  destruct (start_root_done ps0 cp false t ss0 ln' {[root_container := mkContainer root_container root_proc 0]} gr' sm' tn' stk g F (lives ps) {[sqhead root_container := []]} [] Hly Hpg) as (ln2 & g2 & E & Q & Hn2 & Hpa2 & Hm);
    [by rewrite lookup_singleton_eq| |by rewrite lookup_singleton_eq|done|].
  { rewrite insert_singleton_eq. apply HQ; [done|done|done|done|]. unfold gr'. by rewrite lookup_insert_eq. }
  eexists. split; [exact E|]. split; cbn.
  - done.
  - done.
  - rewrite !insert_singleton_eq in Q. rewrite insert_singleton_eq. exact Q.
  - by rewrite insert_singleton_eq.
  - unfold gr'. by rewrite lookup_insert_eq.
  - apply Hn2. unfold ln', ring_at. by rewrite lookup_insert_eq.
  - intros q pr [[<- <-]|[Hne Hq]]%lookup_insert_Some; [by right|by apply Hprocs].
  - intros q Hq. destruct (decide (q = root_proc)) as [->|Hne]; [|rewrite lookup_insert_ne by done; by apply Hidle].
    destruct Hnd as [_ Hnd]. exfalso. apply (Hnd _ Hq), clash_root.
  - exact Hnd.
  - exact Hcpus.
  - unfold tn', ring_at. split; [|by rewrite lookup_insert_eq]. rewrite lookup_insert_ne by (unfold children, ptnode; lia). by rewrite lookup_insert_eq.
  - exists sm'. rewrite lookup_insert_eq. split; [done|]. cbn. unfold ring_at. rewrite lookup_insert_eq. split; [done|]. split; [done|]. split; [done|]. split; [done|].
    apply ring_at_empty. unfold sleeplist. lia.
  - exact Htim.
  - exists F. unfold stacks. cbn. rewrite lookup_insert_eq. cbn [kstack started]. rewrite decide_False by (unfold KSPACE_MASK in Hp1; lia).
    split; [exact Hpa2|]. cbn in Hroom |- *. lia.
  - exists stk. rewrite lookup_insert_eq. split; [done|]. split; [done|]. split; [exact Hpg|]. split; [|exact Hm].
    apply (ring_ext (ring_at (children root_proc) tn) tn' [children root_proc]); [|apply ring_at_empty; unfold children; lia].
    intros q ->%list_elem_of_singleton. unfold tn'. apply lookup_insert_ne. unfold children, ptnode. lia.
Qed.
End boot.
