(* ===== verification/BootProps.v ===== *)
(** * Booting: the kernel that the initialisers build

    From the memory the boot loader leaves to processes that run: the initialisers in
    any order, the idle processes of the CPUs, and the first switch. *)
From S2P Require Import Prelude Words Atomics Lists Memory LockFree Kalloc Pages PageTable Sched Sem Heap Proc ProcSpec RbTree RbRep RbInsert RbProps Timers TimersSpec TimersProps SchedTimers Online Boot BootSpec.

Section boot.
Context {G R : Type} `{!PageAllocator G} `{!KernelHeap G}.
Context (ticks : nat → Z) (frequency B : Z) (sched_timer hello_timer : nat → Z) (hello_ptr sched_timer_handler_ptr : Z).
Context (invalid_pt exception_vector root_proc root_container proc_entry kernel_entry : Z) (fuel : nat).
Context (text : mem) (early_init rest_init init einit : Z) (code : Z → option initcall).
Context (mem_init : M G unit) (driver : Z → M R unit).
Abbreviation W := (world cst G).
Abbreviation layout := (layout sched_timer hello_timer root_proc root_container proc_entry kernel_entry).
Abbreviation lives := (lives root_proc root_container).
Abbreviation stage := (stage sched_timer hello_timer sched_timer_handler_ptr root_proc root_container proc_entry kernel_entry fuel).
Abbreviation timers_stage := (timers_stage sched_timer hello_timer sched_timer_handler_ptr fuel).
Abbreviation bss_timers := (bss_timers sched_timer hello_timer).

(** The CPUs are there and do not take traps, and the initialiser of the memory leaves
    the static objects alone and has a page for every idle process and for the kernel
    stack of the root process. *)
Record machine_ok (w : W) : Prop := {
  mo_cpus : length (Timers.cpus (timers (wsched w))) = NCPU;
  mo_daif : ∀ c v, Timers.cpus (timers (wsched w)) !! c = Some v → daif v ≠ 0;
  mo_mem : ∃ g F, mem_init (wpages w) = Done (tt, g) ∧ pa_ok g F (lives []) ∧ (NCPU < length F)%nat
}.

Lemma in_timers t {A} (f : Z → A) : t ∈ timer_addrs sched_timer hello_timer →
  (list_to_map ((λ t, (t, f t)) <$> timer_addrs sched_timer hello_timer) : gmap Z A) !! t = Some (f t).
Proof.
  intros Ht. induction (timer_addrs sched_timer hello_timer) as [|x l IH]; [by apply elem_of_nil in Ht|]. cbn.
  destruct (decide (x = t)) as [->|Hne]; [by rewrite lookup_insert_eq|]. rewrite lookup_insert_ne by done. apply IH. by apply elem_of_cons in Ht as [->|?].
Qed.

Lemma tnode_in_timers t : t ∈ timer_addrs sched_timer hello_timer →
  is_Some ((list_to_map ((λ t, (tnode t, mkRb 0 0 0)) <$> timer_addrs sched_timer hello_timer) : gmap Z rb_node) !! tnode t).
Proof.
  intros Ht. induction (timer_addrs sched_timer hello_timer) as [|x l IH]; [by apply elem_of_nil in Ht|]. cbn.
  apply lookup_insert_is_Some. destruct (decide (tnode x = tnode t)) as [|Hne]; [by left|right]. split; [done|]. apply IH. apply elem_of_cons in Ht as [->|?]; done.
Qed.
Lemma bss_stage s : layout → length (Timers.cpus s) = NCPU → (∀ c v, Timers.cpus s !! c = Some v → daif v ≠ 0) → (9 < fuel)%nat →
  timers_stage 0 (mkCst (Timers.tnodes (bss_timers s)) (tms (bss_timers s)) (Timers.cpus (bss_timers s)) 0 (Some timer_clock_handler_ptr) (reads s) (called s)).
Proof.
  intros Hly Hlen Hd Hf. set (l := timer_addrs sched_timer hello_timer).
  assert (Hin : ∀ t tm, tms (bss_timers s) !! t = Some tm → t ∈ l ∧ tm = mkTimer false 0 0 0 0).
  { intros t tm Ht. apply elem_of_list_to_map_2, list_elem_of_fmap in Ht as (u & [= -> ->] & Hu). done. }
  assert (Hnone : ∀ c L, replicate NCPU [] !! c = Some L → L = ([] : list Z)) by (intros c L H; by apply lookup_replicate in H as [-> _]).
  split.
  - split.
    + unfold Boot.bss_timers. cbn [Timers.cpus]. by rewrite length_fmap, length_replicate.
    + intros c L v ->%Hnone Hv. cbn in Hv. apply list_lookup_fmap_Some in Hv as (v0 & -> & _). apply rbtree_empty.
    + intros c L ->%Hnone. constructor.
    + intros c d L L' t ->%Hnone _ Ht. by apply elem_of_nil in Ht.
    + intros t (c & L & ->%Hnone & Ht). by apply elem_of_nil in Ht.
    + intros t [tm Ht]. apply Hin in Ht as [Ht _]. split; [|by apply Hly]. by apply tnode_in_timers.
    + intros t tm Ht. apply Hin in Ht as [_ ->]. done.
  - intros t Ht. eexists. by apply (in_timers t (λ _, mkTimer false 0 0 0 0)).
  - intros i Hi. lia.
  - cbn [tms]. enough (size (tms (bss_timers s)) = 8%nat) by lia. unfold Boot.bss_timers. cbn [tms]. fold l.
    assert (El : ((λ t, (t, mkTimer false 0 0 0 0)) <$> l).*1 = l) by (rewrite <-list_fmap_compose; apply list_fmap_id).
    rewrite map_size_list_to_map by (rewrite El; apply Hly). done.
  - intros c v Hv. cbn in Hv. apply list_lookup_fmap_Some in Hv as (v0 & -> & H0). exact (Hd c v0 H0).
  - done.
  - unfold onlines, Boot.bss_timers. cbn [Timers.cpus]. rewrite <-list_fmap_compose, <-Hlen. clear. induction (Timers.cpus s) as [|v vs IH]; [done|]. cbn. by f_equal.
Qed.

Abbreviation early := (BootSpec.early root_proc root_container).
(** The kernel after the early initialisers. *)
Lemma early_stage w g F D : layout → machine_ok w → (9 < fuel)%nat → pa_ok g F (lives []) → (NCPU < length F)%nat →
  (∀ f, is_early f = true → f ∈ D) → stage [] false (early (wpages w) g (bss_timers (timers (wsched w))) D).
Proof.
  intros Hly [Hlen Hd _] Hf Hg Hr HD. unfold BootSpec.early. rewrite !bool_decide_true by (by apply HD).
  pose proof (ly_root _ _ _ _ _ _ Hly) as H0. pose proof (ly_cont _ _ _ _ _ _ Hly) as H1. pose proof (ly_apart _ _ _ _ _ _ Hly) as H2.
  assert (N : sqhead root_container ≠ 0 ∧ sqhead root_container ≠ schinfo_sqnode (cont_schinfo root_container) ∧
    sqnode root_proc ≠ sqhead root_container ∧ sqnode root_proc ≠ schinfo_sqnode (cont_schinfo root_container) ∧
    proc_schinfo root_proc ≠ cont_schinfo root_container ∧ children root_proc ≠ ptnode root_proc)
    by (unfold sqnode, schinfo_sqnode, proc_schinfo, sqhead, cont_schinfo, children, ptnode; lia).
  destruct N as (N1 & N2 & N3 & N4 & N5 & N6).
  split; cbn [wsched lnodes procs conts groups Sched.cpus sched_lock panic_flag timers wsems Proc.tnodes last_pid wpages length].
  - done.
  - done.
  - rewrite delete_singleton_eq. split.
    + split.
      * intros hd l [<- <-]%lookup_singleton_Some. eapply (ring_ext (ring_at (sqhead root_container) (clear_nodes root_proc root_container)) _ [sqhead root_container]); [|by apply ring_at_empty].
        intros q ->%list_elem_of_singleton. by apply lookup_insert_ne.
      * intros hd1 l1 hd2 l2 [<- <-]%lookup_singleton_Some [<- <-]%lookup_singleton_Some. done.
    + intros hd l n [<- <-]%lookup_singleton_Some Hn. by apply elem_of_nil in Hn.
    + intros q pr Hq. by rewrite lookup_empty in Hq.
  - done.
  - rewrite lookup_insert_ne by done. by rewrite lookup_singleton_eq.
  - unfold ring_at. rewrite !lookup_insert_ne by done. unfold clear_nodes, zero_nodes. cbn. rewrite !lookup_insert_ne by done. by rewrite lookup_insert_eq.
  - intros q pr [<- <-]%lookup_singleton_Some. by right.
  - intros q Hq. by apply elem_of_nil in Hq.
  - split; [constructor|]. intros q Hq. by apply elem_of_nil in Hq.
  - done.
  - unfold zero_nodes. cbn. split; [by rewrite lookup_insert_eq|]. rewrite lookup_insert_ne by done. by rewrite lookup_insert_eq.
  - eexists. rewrite lookup_singleton_eq. split; [done|]. cbn. by rewrite lookup_singleton_eq.
  - exact (bss_stage (timers (wsched w)) Hly Hlen Hd Hf).
  - exists F. unfold stacks. cbn [wsched procs]. rewrite lookup_singleton_eq. rewrite decide_True by done. cbn [app length].
    split; [exact Hg|lia].
  - rewrite lookup_singleton_eq. by split.
Qed.

(** The sections hold the initialisers of the processes, the timers and the memory
    once each, in any order, among any others. *)
Record linked (es fs : list initcall) : Prop := {
  lk_early : section_holds text code early_init rest_init es;
  lk_init : section_holds text code init einit fs;
  lk_es : ∃ ds, es ≡ₚ [init_slock; init_proc_list; init_clock; init_root_cont; init_memory] ++ (init_driver <$> ds) ∧ NoDup ds;
  lk_fs : ∃ ds, fs ≡ₚ [init_scheduler; init_root] ++ (init_driver <$> ds) ∧ NoDup ds
}.
Context (driver_returns : ∀ i r, ∃ r', driver i r = Done (tt, r')).
Abbreviation run := (run_initcall sched_timer sched_timer_handler_ptr root_proc root_container proc_entry kernel_entry mem_init driver).
Abbreviation kernel_init := (kernel_init sched_timer hello_timer sched_timer_handler_ptr root_proc root_container proc_entry kernel_entry
  text early_init rest_init init einit code mem_init driver).

(** The initialisers in [D] have been called. *)
Definition inited (D : list initcall) (w : W) : Prop :=
  ∃ ps, stage ps (bool_decide (init_root ∈ D)) w ∧ length ps = if decide (init_scheduler ∈ D) then NCPU else 0%nat.
Lemma init_run fs : layout → ∀ D (s : boot G R), NoDup fs → (∀ f, f ∈ fs → f ∉ D ∧ is_early f = false) → inited D (bw s) →
  ∃ D' w r, for_each fs run s = Done (tt, mkBoot w r (boot_secondary_cpus s)) ∧ inited D' w ∧ ∀ f, f ∈ D' ↔ f ∈ D ∨ f ∈ fs.
Proof.
  intros Hly. induction fs as [|f fs IH]; intros D [w r sc] Hnd Hf Hs; cbn [bw boot_secondary_cpus] in *.
  { exists D, w, r. split; [done|]. split; [exact Hs|]. set_solver. }
  apply NoDup_cons in Hnd as [Hn Hnd]. destruct (Hf f) as [HD He]; [by left|].
  assert (Hstep : ∃ w' r', run f (mkBoot w r sc) = Done (tt, mkBoot w' r' sc) ∧ inited (f :: D) w').
  { destruct Hs as (ps & Hs & Hlen). destruct f; try discriminate He.
    - rewrite decide_False in Hlen by done. apply nil_length_inv in Hlen as ->.
      edestruct init_sched_done as (ps & w' & E & Hs' & Hl); [exact Hly|exact Hs|].
      exists w', r. split; [unfold run_initcall, on_world; cbn [bw]; by rewrite E|]. exists ps. rewrite decide_True by (by left). split; [|done].
      rewrite (bool_decide_ext _ (init_root ∈ D)); [exact Hs'|]. set_solver.
    - rewrite bool_decide_false in Hs by done. edestruct root_step as (w' & E & Hs'); [exact Hly|exact Hs|].
      exists w', r. split; [unfold run_initcall, on_world, mbind, M_bind; cbn [bw]; by rewrite E|]. exists ps. rewrite bool_decide_true by (by left). split; [exact Hs'|].
      rewrite Hlen. repeat case_decide; set_solver.
    - destruct (driver_returns i r) as (r' & E). exists w, r'. split; [unfold run_initcall, on_drivers; cbn [drivers]; by rewrite E|].
      exists ps. rewrite (bool_decide_ext _ (init_root ∈ D)) by set_solver. split; [exact Hs|]. rewrite Hlen. repeat case_decide; set_solver. }
  destruct Hstep as (w' & r' & E & Hs'). cbn [for_each]. m_step E.
  destruct (IH (f :: D) (mkBoot w' r' sc) Hnd) as (D' & w2 & r2 & E2 & Hs2 & HD2); [|exact Hs'|].
  - intros g Hg. destruct (Hf g) as [H1' H2']; [by right|]. split; [|done]. intros [->|]%elem_of_cons; done.
  - exists D', w2, r2. split; [exact E2|]. split; [exact Hs2|]. set_solver.
Qed.

(** What a section holds, when it holds the initialisers [l] and those of drivers. *)
Lemma calls_with_drivers (l fs : list initcall) ds : fs ≡ₚ l ++ (init_driver <$> ds) → NoDup ds → NoDup l → (∀ i, init_driver i ∉ l) →
  NoDup fs ∧ ∀ f, f ∈ fs ↔ f ∈ l ∨ ∃ i, f = init_driver i ∧ i ∈ ds.
Proof.
  intros Hp Hd Hl Hn. split.
  - rewrite Hp. apply NoDup_app. split; [done|]. split.
    + intros f Hf (i & -> & _)%list_elem_of_fmap. by apply (Hn i).
    + apply NoDup_fmap_2; [|done]. by intros i j [= ->].
  - intros f. rewrite Hp, elem_of_app, list_elem_of_fmap. done.
Qed.

Lemma boot_done es fs (s : boot G R) : layout → machine_ok (bw s) → linked es fs → (9 < fuel)%nat →
  ∃ w r ps, kernel_init s = Done (tt, mkBoot w r true) ∧ stage ps true w ∧ length ps = NCPU.
Proof.
  intros Hly Hm [Hle Hli (ds & Hes & Hds) (ds' & Hfs & Hds')] Hf. pose proof Hm as [_ _ (g & F & Emem & Hg & Hr)].
  destruct (calls_with_drivers _ _ _ Hes Hds) as [Hnd Hin]; [apply (bool_decide_unpack _); vm_compute; reflexivity|intros i Hi; repeat (apply elem_of_cons in Hi as [Hi|Hi]; [done|]); by apply elem_of_nil in Hi|].
  destruct (calls_with_drivers _ _ _ Hfs Hds') as [Hnd' Hin']; [apply (bool_decide_unpack _); vm_compute; reflexivity|intros i Hi; repeat (apply elem_of_cons in Hi as [Hi|Hi]; [done|]); by apply elem_of_nil in Hi|].
  set (s0 := bss_timers (timers (wsched (bw s)))). set (E0 := early (wpages (bw s)) g s0).
  unfold Boot.kernel_init. rewrite (bind_done _ _ s tt (mkBoot (E0 []) (drivers s) false)) by done.
  destruct (early_run sched_timer hello_timer sched_timer_handler_ptr root_proc root_container proc_entry kernel_entry mem_init _ _ Emem driver driver_returns text code
    s0 es Hly [] (mkBoot (E0 []) (drivers s) false) Hnd) as (D & r & E1 & HD); [|done|].
  { intros f [Hl|(i & -> & _)]%Hin; [left|right; by exists i]. split; [|apply not_elem_of_nil]. repeat (apply elem_of_cons in Hl as [->|Hl]; [done|]). by apply elem_of_nil in Hl. }
  unfold do_early_init. erewrite bind_done; [|eapply call_section_done; [exact Hle|exact E1]]. cbn [boot_secondary_cpus].
  assert (Hs0 : inited [] (E0 D)).
  { exists []. split; [|done]. rewrite bool_decide_false by apply not_elem_of_nil. eapply early_stage; [exact Hly|exact Hm|exact Hf|exact Hg|exact Hr|].
    intros f He. apply HD. right. split; [|done]. apply Hin. left. clear -He. destruct f; try discriminate He; repeat ((by left) || right). }
  destruct (init_run fs Hly [] (mkBoot (E0 D) r false) Hnd') as (D' & w & r' & E2 & (ps & Hs & Hlen) & HD'); [|exact Hs0|].
  { intros f [Hl|(i & -> & _)]%Hin'; (split; [apply not_elem_of_nil|]); [|done]. repeat (apply elem_of_cons in Hl as [->|Hl]; [done|]). by apply elem_of_nil in Hl. }
  exists w, r', ps. split; [|split].
  - unfold do_init. erewrite bind_done; [|eapply call_section_done; [exact Hli|exact E2]]. done.
  - rewrite bool_decide_true in Hs; [exact Hs|]. apply HD'. right. apply Hin'. left. right. by left.
  - rewrite Hlen. rewrite decide_True; [done|]. apply HD'. right. apply Hin'. left. by left.
Qed.

(** *** A CPU goes online *)
(** The timers before a CPU goes online: the clock may not have been set yet, when no
    timer is pending. *)
Record clocks s Ls : Prop := {
  ck_inv : timers_inv (Timers.tnodes s) (tms s) (Timers.cpus s) Ls;
  ck_near : ∀ t, pending Ls t → one_ms s = frequency / 1000 ∧ key_of (tms s) t ≤ time ticks s + B;
  ck_size : (size (tms s) + 1 < fuel)%nat;
  ck_daif : ∀ c v, Timers.cpus s !! c = Some v → daif v ≠ 0
}.
Record clock_fits : Prop := { cf_unit : 0 < frequency / 1000; cf_span : 5000 ≤ B; cf_ticks : B * (frequency / 1000) ≤ 0x7fffffff }.
Abbreviation set_on := (set_cpu_on ticks frequency hello_timer hello_ptr invalid_pt exception_vector fuel).
(** The CPU and its [hello_timer] when the timer is set. *)
Definition cpu_on (v : cpu) : cpu := mkCpu true (timer_root v) (daif v) invalid_pt exception_vector 0 1 (u64 (1000 * (frequency / 1000))) 2.
Definition going_on s (c : nat) v tm : cst :=
  mkCst (Timers.tnodes s) (<[hello_timer c := mkTimer (triggered tm) 5000 (_key tm) hello_ptr (data tm)]> (tms s)) (<[c := cpu_on v]> (Timers.cpus s))
    (frequency / 1000) (clock_handler s) (reads s) (called s).
Lemma cpu_step s c v (f : cpu → cpu) {A} (k : unit → M cst A) : Timers.cpus s !! c = Some v →
  (v ← Timers.get_cpu c; x ← Timers.set_cpu c (f v); k x) s =
    k tt (mkCst (Timers.tnodes s) (tms s) (<[c := f v]> (Timers.cpus s)) (one_ms s) (clock_handler s) (reads s) (called s)).
Proof. intros Hv. unfold Timers.get_cpu, Timers.set_cpu, mbind, M_bind. by rewrite Hv. Qed.
Lemma init_clock_eq s (c : nat) v : clock_fits → Timers.cpus s !! c = Some v →
  Timers.init_clock frequency c s = Done (tt, mkCst (Timers.tnodes s) (tms s)
    (<[c := mkCpu (online v) (timer_root v) (daif v) (ttbr0 v) (vbar v) (esr v) 1 (u64 (1000 * (frequency / 1000))) 2]> (Timers.cpus s))
    (frequency / 1000) (clock_handler s) (reads s) (called s)).
Proof.
  intros [Hu Hb Ht] Hv. pose proof (lookup_lt_Some _ _ _ Hv) as Hc. unfold Timers.init_clock. erewrite bind_done; [|apply modify_done].
  rewrite (cpu_step _ c v (λ v, mkCpu (online v) (timer_root v) (daif v) (ttbr0 v) (vbar v) (esr v) 1 (cntp_tval v) (core_clock_ctrl v))) by exact Hv.
  cbn [Timers.tnodes tms Timers.cpus one_ms clock_handler reads called]. set (v1 := mkCpu _ _ _ _ _ _ _ _ _). set (s1 := mkCst _ _ _ _ _ _ _).
  erewrite (bind_done _ _ s1).
  2:{ rewrite (reset_clock_eq s1 c v1) by (cbn; by apply list_lookup_insert_eq). rewrite decide_True; [done|].
      unfold fits_clock, ticks_of. cbn [one_ms s1]. rewrite u64_small; [nia|]. unfold in_u. nia. }
  cbn [Timers.tnodes tms Timers.cpus one_ms clock_handler reads called s1]. rewrite list_insert_insert_eq. set (s2 := mkCst _ _ _ _ _ _ _).
  unfold Timers.get_cpu, Timers.set_cpu, mbind, M_bind. cbn [Timers.cpus s2]. rewrite list_lookup_insert_eq by done.
  cbn. by rewrite list_insert_insert_eq.
Qed.
Lemma set_on_unfold s (c : nat) v tm : clock_fits → Timers.cpus s !! c = Some v → daif v ≠ 0 → tms s !! hello_timer c = Some tm →
  set_on c s = set_cpu_timer ticks fuel c (hello_timer c) (going_on s c v tm).
Proof.
  intros Hcf Hv Hd Htm. pose proof (lookup_lt_Some _ _ _ Hv) as Hc.
  assert (Hl : ∀ x : cpu, <[c := x]> (Timers.cpus s) !! c = Some x) by (intros; by apply list_lookup_insert_eq).
  unfold set_cpu_on. rewrite (bind_done _ _ s false s).
  2:{ unfold _arch_disable_trap, Timers.get_cpu, mbind, M_bind. rewrite Hv. by rewrite decide_True. }
  m_step (ret_done tt s).
  rewrite (cpu_step _ c v (λ v, mkCpu (online v) (timer_root v) (daif v) invalid_pt exception_vector 0 (cntp_ctl v) (cntp_tval v) (core_clock_ctrl v))) by exact Hv.
  set (s1 := mkCst _ _ _ _ _ _ _). erewrite (bind_done _ _ s1); [|apply init_clock_eq; [done|apply Hl]].
  cbn [Timers.tnodes tms Timers.cpus one_ms clock_handler reads called online timer_root daif ttbr0 vbar esr s1]. rewrite list_insert_insert_eq. set (s2 := mkCst _ _ _ _ _ _ _).
  erewrite (cpu_step s2 c _ (λ v, mkCpu true (timer_root v) (daif v) (ttbr0 v) (vbar v) (esr v) (cntp_ctl v) (cntp_tval v) (core_clock_ctrl v))); [|apply Hl].
  cbn [Timers.tnodes tms Timers.cpus one_ms clock_handler reads called online timer_root daif ttbr0 vbar esr cntp_ctl cntp_tval core_clock_ctrl s2]. rewrite list_insert_insert_eq.
  set (s3 := mkCst _ _ _ _ _ _ _). rewrite (bind_done _ _ s3 tm s3) by (unfold get_timer; cbn [tms s3]; by rewrite Htm).
  erewrite bind_done; [|by apply (set_timer_eq s3 (hello_timer c) tm)]. done.
Qed.

Lemma set_on_ok s Ls (c : nat) L v : platform ticks sched_timer → clock_fits → clocks s Ls → Ls !! c = Some L → Timers.cpus s !! c = Some v →
  ¬ pending Ls (hello_timer c) → is_Some (tms s !! hello_timer c) →
  ∃ L1 L2 s', L = L1 ++ L2 ∧ set_on c s = Done (tt, s') ∧ all_running ticks B s' (<[c := L1 ++ hello_timer c :: L2]> Ls) ∧
    (∀ t, t ≠ hello_timer c → tms s' !! t = tms s !! t) ∧ size (tms s') = size (tms s) ∧ onlines s' = <[c := true]> (onlines s).
Proof.
  intros [Hm Hb _] Hcf [Hi Hn Hsz Hd] HL Hv Hp [tm Htm]. pose proof Hcf as [Hu Hsp Ht].
  rewrite (set_on_unfold s c v tm Hcf Hv (Hd c v Hv) Htm). set (s1 := going_on s c v tm).
  assert (Hk1 : ∀ t, pending Ls t → key_of (tms s1) t = key_of (tms s) t).
  { intros t Hpt. unfold key_of. cbn [tms s1 going_on]. rewrite lookup_insert_ne; [done|]. by intros <-. }
  assert (Ha : all_running ticks B s1 Ls).
  { split; cbn [Timers.tnodes tms Timers.cpus one_ms s1 going_on].
    - eapply inv_cpu; [|exact Hv|done]. eapply inv_timer; [exact Hi|exact Htm|exact (ti_keys _ _ _ _ Hi _ _ Htm)|done].
    - exact Hu.
    - split; [lia|exact Ht].
    - intros t Hpt. destruct (Hn t Hpt) as [E Hk]. pose proof (Hk1 t Hpt) as Ek. cbn [tms s1 going_on] in Ek. rewrite Ek. unfold time in *. cbn [reads one_ms s1 going_on]. by rewrite <-E. }
  assert (Htime : 0 ≤ time ticks s1 < 2 ^ 62).
  { unfold time. cbn [reads one_ms s1 going_on]. split; [apply Z.div_pos; [apply Hm|lia]|]. apply Z.div_lt_upper_bound; [lia|]. pose proof (Hb (reads s)). nia. }
  destruct (all_set ticks B fuel s1 Ls c L (hello_timer c) (mkTimer (triggered tm) 5000 (_key tm) hello_ptr (data tm)) Hm Ha HL Hp)
    as (L1 & L2 & s' & -> & E & Ha' & Em & _); [cbn; by rewrite lookup_insert_eq|cbn; lia|cbn; lia|cbn; by rewrite map_size_insert_Some|].
  cbn [tms s1 going_on] in Em. rewrite insert_insert_eq in Em.
  exists L1, L2, s'. split; [done|]. split; [exact E|]. split; [exact Ha'|]. rewrite Em. split; [intros t Hne; by rewrite lookup_insert_ne|].
  split; [by apply map_size_insert_Some|]. rewrite (keeps_set _ _ _ _ _ _ _ E). apply list_fmap_insert.
Qed.

(** The timers after the boot, once a CPU has gone online. *)
Lemma booted_timers s (c : nat) : layout → platform ticks sched_timer → clock_fits → timers_stage NCPU s → (c < NCPU)%nat →
  ∃ s', set_on c s = Done (tt, s') ∧ sched_timers_ok ticks B sched_timer fuel NCPU s' ∧ onlines s' = <[c := true]> (replicate NCPU false).
Proof.
  intros Hly Hpf Hcf Hs Hc. destruct (lookup_lt_is_Some_2 (Timers.cpus s) c) as [v Hv].
  { rewrite (ti_len _ _ _ _ (ts_inv _ _ _ _ _ _ Hs)), length_replicate. done. }
  assert (Hnone : ∀ t, ¬ pending (replicate NCPU []) t) by (intros t (d & L & [-> _]%lookup_replicate & Ht); by apply elem_of_nil in Ht).
  assert (Hh : hello_timer c ∈ timer_addrs sched_timer hello_timer).
  { unfold timer_addrs. apply elem_of_app. right. apply list_elem_of_fmap_2, elem_of_seq. lia. }
  destruct (set_on_ok s (replicate NCPU []) c [] v Hpf Hcf) as (L1 & L2 & s' & EL & E & Ha & Hother & Hsz & Hon).
  - split; [apply Hs|intros t Ht; by destruct (Hnone t)|apply Hs|apply Hs].
  - by apply lookup_replicate_2.
  - exact Hv.
  - apply Hnone.
  - by apply Hs.
  - exists s'. split; [exact E|]. split; [|by rewrite Hon, (ts_offline _ _ _ _ _ _ Hs)]. eexists. split; [|split; [exact Ha|split; [rewrite Hsz; apply Hs|]]].
    + by rewrite length_insert, length_replicate.
    + intros d L HL. assert (Hd : (d < NCPU)%nat) by (apply lookup_lt_Some in HL; by rewrite length_insert, length_replicate in HL).
      destruct (ts_sched _ _ _ _ _ _ Hs d Hd) as (tm & Htm & Htr & _). exists tm. split; [|by rewrite Htr].
      rewrite Hother; [exact Htm|]. intros E2. pose proof (ly_timers _ _ _ _ _ _ Hly) as (_ & Hnd & _)%NoDup_app.
      apply (Hnd (sched_timer d)); [apply list_elem_of_fmap_2, elem_of_seq; lia|]. rewrite E2. apply list_elem_of_fmap_2, elem_of_seq. lia.
Qed.

(** *** The first process *)
Context (platform_ok : platform ticks sched_timer).
#[local] Instance kernel_cpu_timers : CpuTimers cst := boot_timers ticks B sched_timer fuel platform_ok.
Abbreviation started := (started root_proc root_container).
Abbreviation queue := (sqhead root_container).

Lemma stage_cpus ps w : layout → stage ps true w → length ps = NCPU → cpus_ok (procs (wsched w)) (Sched.cpus (wsched w)).
Proof.
  intros Hly Hs Hlen. rewrite (sg_cpus _ _ _ _ _ _ _ _ _ _ _ Hs), Hlen, Nat.sub_diag, app_nil_r.
  destruct (sg_nodup _ _ _ _ _ _ _ _ _ _ _ Hs) as [Hnd Hst]. destruct (sg_root _ _ _ _ _ _ _ _ _ _ _ Hs) as (stk & Hr & _).
  assert (Hx : ∀ i c, ((λ p, mkSched p p) <$> ps) !! i = Some c → ∃ p, ps !! i = Some p ∧ c = mkSched p p ∧ procs (wsched w) !! p = Some idle_proc).
  { intros i c Hc. apply list_lookup_fmap_Some in Hc as (p & -> & Hp). exists p. split; [done|]. split; [done|]. eapply sg_idle; [exact Hs|]. by eapply list_elem_of_lookup_2. }
  split.
  - intros i c (p & _ & -> & Hp)%Hx. by exists idle_proc.
  - intros i c (p & _ & -> & Hp)%Hx. by exists idle_proc.
  - intros i j ci cj (p & Hp & -> & _)%Hx (q & Hq & -> & _)%Hx Hij. cbn. assert (p ≠ q); [|done]. intros ->. apply Hij. by eapply NoDup_lookup.
  - intros p pr Hp Hrun. destruct (sg_procs _ _ _ _ _ _ _ _ _ _ _ Hs p pr Hp) as [[Hin _]| ->].
    + apply list_elem_of_lookup in Hin as [i Hi]. exists i, (mkSched p p). rewrite list_lookup_fmap, Hi. done.
    + rewrite Hr in Hp. injection Hp as <-. done.
Qed.

Abbreviation enter := (Boot.idle_entry ticks frequency B sched_timer hello_timer hello_ptr invalid_pt exception_vector root_container fuel platform_ok).
(** The root process runs on the CPU [c], the other CPUs have their idle processes [ps]. *)
Record root_runs (ps : list Z) (c : nat) (w : W) : Prop := {
  rr_calm : calm w;
  rr_cpus : length (Sched.cpus (wsched w)) = NCPU;
  rr_online : onlines (timers (wsched w)) = <[c := true]> (replicate NCPU false);
  rr_sched : ∃ L, sched_ok (wsched w) L;
  rr_root : ∃ stk F, procs (wsched w) !! root_proc = Some (set_pstate RUNNING (started stk)) ∧ page_addr stk ∧
    pa_ok (wpages w) F (((stk, PAGE_SIZE), None) :: lives ps) ∧
    let m := pa_mem (wpages w) in let k := kcontext (started stk) in
    load64 m k = proc_entry ∧ load64 m (k + 8) = kernel_entry ∧ load64 m (k + 16) = 123456;
  rr_idle : ∀ i p, ps !! i = Some p → procs (wsched w) !! p = Some (if decide (i = c) then set_pstate RUNNABLE idle_proc else idle_proc) ∧
    Sched.cpus (wsched w) !! i = Some (mkSched (if decide (i = c) then root_proc else p) p);
  rr_children : has_children w root_proc [];
  rr_exits : ∃ cm, exits_ok w root_proc cm ∧ exit_permits cm = 0
}.

(** The run queue of the kernel after the boot, and what a CPU finds in it. *)
Lemma boot_nested (g : kst cst) : 256 < root_proc → groups g !! proc_schinfo root_proc = Some false → (1 < fuel)%nat →
  nested 0 fuel {[queue := [sqnode root_proc]]} (groups g) queue ∧
  in_order 0 {[queue := [sqnode root_proc]]} (groups g) queue = [root_proc].
Proof.
  intros Hr Hg Hf. assert (E : sqnode root_proc - 8 = proc_schinfo root_proc) by (unfold sqnode, schinfo_sqnode; lia). split.
  - exists [sqnode root_proc]. rewrite lookup_singleton_eq. split; [done|]. split; [done|]. intros n ->%list_elem_of_singleton. left.
    rewrite E. split; [done|]. unfold sqnode, schinfo_sqnode, proc_schinfo. lia.
  - cbn [in_order]. rewrite lookup_singleton_eq. cbn. rewrite E, Hg. cbn. f_equal. unfold sqnode, schinfo_sqnode, proc_schinfo. lia.
Qed.

Lemma idle_first ps w (c : nat) : layout → clock_fits → (9 < fuel)%nat → stage ps true w → length ps = NCPU → (c < NCPU)%nat →
  ∃ w', enter 1 c w = Done (root_proc, w') ∧ root_runs ps c w'.
Proof.
  intros Hly Hcf Hf Hs Hlen Hc. pose proof (sg_timers _ _ _ _ _ _ _ _ _ _ _ Hs) as Ht. rewrite Hlen in Ht.
  destruct (booted_timers _ c Hly platform_ok Hcf Ht Hc) as (s' & E & Hok & Hon).
  destruct (lookup_lt_is_Some_2 ps c) as [p Hp]; [lia|]. pose proof (list_elem_of_lookup_2 _ _ _ Hp) as Hpin.
  pose proof (sg_idle _ _ _ _ _ _ _ _ _ _ _ Hs p Hpin) as Hpr. pose proof (stage_cpus ps w Hly Hs Hlen) as Hcpus.
  pose proof (sg_queues _ _ _ _ _ _ _ _ _ _ _ Hs) as HQ. cbv zeta beta iota in HQ.
  pose proof (sg_cpus _ _ _ _ _ _ _ _ _ _ _ Hs) as Ecp. rewrite Hlen, Nat.sub_diag, app_nil_r in Ecp.
  pose proof (ly_root _ _ _ _ _ _ Hly) as Hr0.
  destruct (boot_nested (wsched w) Hr0 (sg_groups _ _ _ _ _ _ _ _ _ _ _ Hs) ltac:(lia)) as [Hnest Hord].
  pose proof (sg_panic _ _ _ _ _ _ _ _ _ _ _ Hs) as Hpan. pose proof (c_sched _ (sg_calm _ _ _ _ _ _ _ _ _ _ _ Hs)) as Hslk.
  set (g := wsched w) in *. set (g2 := mkKst (lnodes g) (procs g) (conts g) (groups g) (Sched.cpus g) true (panic_flag g) s').
  assert (Hok2 : sched_ok g2 {[queue := [sqnode root_proc]]}).
  { split; [exact HQ|]. split; [exact Hcpus|]. cbn [Sched.cpus g2]. rewrite Ecp, length_fmap, Hlen. exact Hok. }
  assert (Hcl : Sched.cpus g2 !! c = Some (mkSched p p)) by (cbn [Sched.cpus g2]; by rewrite Ecp, list_lookup_fmap, Hp).
  assert (Hne : p ≠ root_proc).
  { intros ->. destruct (sg_nodup _ _ _ _ _ _ _ _ _ _ _ Hs) as [_ Hst]. apply (Hst _ Hpin), clash_root. }
  destruct (sched_spec root_container g2 _ c (mkSched p p) idle_proc RUNNABLE 0 fuel Hok2 Hcl Hpr) as (g' & Ey & Hlk & Hok' & _ & Hcp & Hts & npr & Hn & Hps);
    [by left|done|by intros _|]. cbn [cur] in *.
  change (enqueued {[queue := [sqnode root_proc]]} p idle_proc RUNNABLE) with ({[queue := [sqnode root_proc]]} : gmap Z (list Z)) in *.
  assert (Ech : chosen root_container 0 g2 {[queue := [sqnode root_proc]]} (mkSched p p) = root_proc).
  { unfold chosen. cbn [panic_flag g2 groups]. by rewrite Hpan, Hord. }
  rewrite Ech in *. cbn [killed idle_proc andb] in Ey.
  exists (with_sched g' w). split.
  - unfold Boot.idle_entry. erewrite bind_done.
    2:{ unfold on_cst. apply on_sched_done. unfold on_timers. fold g. rewrite E. done. }
    unfold idle_yield. erewrite on_sched_done; [done|]. unfold yield_. erewrite bind_done.
    2:{ unfold _acquire_sched_lock, Sched.on_lock. cbn [wsched with_sched sched_lock]. rewrite Hslk. done. }
    exact Ey.
  - destruct (sg_root _ _ _ _ _ _ _ _ _ _ _ Hs) as (stk & Hroot & _ & Hpg & Htree & Hm).
    destruct (sg_heap _ _ _ _ _ _ _ _ _ _ _ Hs) as (F & Hpa & _). rewrite (stacks_started _ _ w stk Hroot Hpg) in Hpa. fold g in Hroot.
    rewrite lookup_insert_ne in Hn by done. change (procs g2) with (procs g) in *. assert (npr = started stk) as -> by congruence.
    destruct (sg_nodup _ _ _ _ _ _ _ _ _ _ _ Hs) as [Hnd Hst]. destruct (sg_sem _ _ _ _ _ _ _ _ _ _ _ Hs) as (cm & Hcm & _ & Hw & Hl & Hv & Hsl).
    split; cbn [wsched with_sched wpages].
    + split; [apply (sg_calm _ _ _ _ _ _ _ _ _ _ _ Hs)|exact Hlk].
    + rewrite Hcp, length_insert. change (Sched.cpus g2) with (Sched.cpus g). by rewrite Ecp, length_fmap.
    + rewrite <-Hon. exact (keeps_sched_timer _ _ _ _ _ _ _ _ Hts).
    + exact Hok'.
    + exists stk, F. rewrite Hps, lookup_insert_eq. split; [done|]. split; [exact Hpg|]. split; [exact Hpa|exact Hm].
    + intros i q Hq. assert (q ≠ root_proc).
      { intros ->. apply list_elem_of_lookup_2 in Hq. apply (Hst _ Hq), clash_root. }
      rewrite Hps, Hcp, lookup_insert_ne by done. change (Sched.cpus g2) with (Sched.cpus g). rewrite Ecp. case_decide as Ei.
      * subst i. assert (q = p) as -> by congruence. rewrite lookup_insert_eq. split; [done|]. rewrite list_lookup_insert_eq; [done|]. rewrite length_fmap. lia.
      * assert (q ≠ p) by (intros ->; apply Ei; by eapply NoDup_lookup). rewrite lookup_insert_ne by done. split.
        { eapply sg_idle; [exact Hs|]. by eapply list_elem_of_lookup_2. }
        rewrite list_lookup_insert_ne by done. by rewrite list_lookup_fmap, Hq.
    + split; [exact Htree|]. intros q Hq. by apply elem_of_nil in Hq.
    + exists cm. split.
      * split; [exact Hcm|]. split; [exact Hl|]. exists []. split; cbn [childexit val snodes waits ssch].
        -- by rewrite Hv.
        -- exact Hsl.
        -- by rewrite Hv.
        -- intros x wd Hx. rewrite Hw in Hx. by rewrite lookup_empty in Hx.
        -- intros n Hin. by apply elem_of_nil in Hin.
        -- split; [exact Hlk|exact Hok'].
      * unfold exit_permits. rewrite Hv, Hw. done.
Qed.

Abbreviation main := (Boot.main sched_timer hello_timer sched_timer_handler_ptr root_proc root_container proc_entry kernel_entry
  text early_init rest_init init einit code mem_init driver).

(** C5: the boot. Whatever the order in which the linker collected the initialisers,
    the first CPU comes out of [main] and lets the others out.  Then the first CPU that
    enters [idle_entry], whichever it is, goes online and switches to the root process,
    which is the process 1, in its own container, with a kernel stack from which it
    enters [kernel_entry]; the other CPUs have an idle process each, no lock is held, and
    the run queues, the CPUs, the timers, the process tree and the semaphore of the root
    process satisfy the invariants of their components. *)
Theorem boot_runs_root es fs (s : boot G R) (c : nat) : layout → clock_fits → machine_ok (bw s) → linked es fs → (9 < fuel)%nat → (c < NCPU)%nat →
  ∃ s' ps w', main 0 s = Done (true, s') ∧ (∀ d : nat, d ≠ 0%nat → main d s' = Done (true, s')) ∧ length ps = NCPU ∧
    enter 1 c (bw s') = Done (root_proc, w') ∧ root_runs ps c w'.
Proof.
  intros Hly Hcf Hm Hl Hf Hc. destruct (boot_done es fs s Hly Hm Hl Hf) as (w & r & ps & E & Hs & Hlen).
  destruct (idle_first ps w c Hly Hcf Hf Hs Hlen Hc) as (w' & E' & Hr). exists (mkBoot w r true), ps, w'.
  split; [|split; [|by split]].
  - unfold Boot.main. rewrite decide_True by done. by m_step E.
  - intros d Hd. unfold Boot.main. by rewrite decide_False.
Qed.
End boot.

(** ** A machine *)
#[local] Existing Instances sample_alloc sample_heap.
Definition sample_text (a : Z) : Z := if decide (a mod 8 = 0 ∧ 1000 <= a) then (a - 1000) / 8 + 1 else 0.
Definition sample_early : list initcall := [init_driver 7; init_root_cont; init_memory; init_clock; init_slock; init_proc_list].
Definition sample_init : list initcall := [init_root; init_driver 3; init_scheduler].
Definition sample_code (p : Z) : option initcall := (sample_early ++ sample_init) !! Z.to_nat (p - 1).
Definition sample_hellos (c : nat) : Z := 4096 + 64 * Z.of_nat c.
Definition sample_cpu : cpu := mkCpu false 0 960 0 0 0 0 0 0.
Definition sample_boot : boot kstate unit :=
  mkBoot (mkWorld (mkKst ∅ ∅ ∅ ∅ [] false false (mkCst ∅ ∅ (replicate 4 sample_cpu) 0 None 0 [])) ∅ ∅ false 0 (mkK (λ _, 0) 0)) tt false.
(** The kernel image ends five pages before the end of the memory. *)
Definition sample_init_mem : M kstate unit := init_mem 256 (KSPACE_MASK + 0x3effb000).
Lemma sample_layout : layout sample_sched_timer sample_hellos 1000 2000 0xffff000000090000 0xffff000000091000.
Proof.
  split; [done|done|lia| | |done].
  - apply (bool_decide_unpack _). vm_compute. reflexivity.
  - intros t Ht. revert t Ht. apply Forall_forall. apply (bool_decide_unpack _). vm_compute. reflexivity.
Qed.
Lemma sample_kernel_memory : kwf 256 512 (mkK (λ _, 0) 0) (sample_queues []) (chunks (P2K 0x3effb000) PAGE_SIZE 5 ++ lives 1000 2000 []).
Proof.
  split; [done|]. split.
  - intros a. split; done.
  - apply (bool_decide_unpack _). by vm_compute.
  - apply (bool_decide_unpack _). by vm_compute.
  - repeat (apply Forall_cons; split; [split; [by vm_compute|]; unfold qrep, chain; by vm_compute|]). by apply Forall_nil.
  - repeat (apply Forall_cons; split; [split; by vm_compute|]). by apply Forall_nil.
Qed.
Lemma sample_machine : machine_ok 1000 2000 sample_init_mem (bw sample_boot).
Proof.
  split; [done| |].
  - intros c v Hv. cbn in Hv. change (replicate 4 sample_cpu !! c = Some v) in Hv. apply lookup_replicate in Hv as [-> _]. done.
  - destruct (init_mem_pages 256 512 (mkK (λ _, 0) 0) (sample_queues []) (lives 1000 2000 []) 0x3effb000) as (g & F & E & Hok & HF); [done|exact sample_kernel_memory|done|].
    exists g, F. split; [exact E|]. split; [exact Hok|]. rewrite HF. change (4 < 5)%nat. lia.
Qed.
Lemma sample_linked : linked sample_text 1000 1048 1048 1072 sample_code sample_early sample_init.
Proof.
  split.
  - split; [done|]. intros i f Hi. do 6 (destruct i as [|i]; [injection Hi as <-; vm_compute; reflexivity|]). done.
  - split; [done|]. intros i f Hi. do 3 (destruct i as [|i]; [injection Hi as <-; vm_compute; reflexivity|]). done.
  - exists [7]. split; [|apply (bool_decide_unpack _); vm_compute; reflexivity]. apply (bool_decide_unpack _). vm_compute. reflexivity.
  - exists [3]. split; [|apply (bool_decide_unpack _); vm_compute; reflexivity]. apply (bool_decide_unpack _). vm_compute. reflexivity.
Qed.
Lemma boot_runs_root_witness : ∃ (s' : boot kstate unit) (ps : list Z) (w' : world cst kstate), length ps = 4%nat ∧
  main sample_sched_timer sample_hellos 700 1000 2000 0xffff000000090000 0xffff000000091000 sample_text 1000 1048 1048 1072 sample_code
    sample_init_mem (λ _ r, Done (tt, r)) 0 sample_boot = Done (true, s') ∧
  idle_entry sample_ticks 19200000 10000 sample_sched_timer sample_hellos 600 0 0 2000 16 sample_platform 1 2 (bw s') = Done (1000, w') ∧
  pstate <$> procs (wsched w') !! 1000 = Some RUNNING.
Proof.
  destruct (boot_runs_root sample_ticks 19200000 10000 sample_sched_timer sample_hellos 600 700 0 0 1000 2000 0xffff000000090000 0xffff000000091000 16
    sample_text 1000 1048 1048 1072 sample_code sample_init_mem (λ _ r, Done (tt, r)) (λ _ r, ex_intro _ r eq_refl) sample_platform
    sample_early sample_init sample_boot 2 sample_layout) as (s' & ps & w' & E & _ & Hl & E' & Hr).
  - split; [vm_compute; reflexivity|lia|vm_compute; discriminate].
  - exact sample_machine.
  - exact sample_linked.
  - lia.
  - unfold NCPU. lia.
  - exists s', ps, w'. split; [exact Hl|]. split; [exact E|]. split; [exact E'|].
    destruct (rr_root _ _ _ _ _ _ _ _ _ _ _ _ Hr) as (stk & F & Hp & _). rewrite Hp. reflexivity.
Defined.
