(* ===== verification/PanicProps.v ===== *)
(** * Stopping all CPUs by a panic

    After [_panic] has set the flag, [pick_next] gives every CPU that leaves its process
    its idle process, which takes the CPU offline; when all are, the wait of [_panic]
    is over.  [stop_step] is a step of one CPU: the process it runs calls the scheduler,
    or its idle process runs again.  A process that was killed does not leave the CPU
    when it yields or sleeps: [simple_sched] returns to it at once; it leaves when it
    exits.  Everything needs the lock of the scheduler to be free: [panic_locked] is
    what happens when the CPU that panics holds it. *)
From S2P Require Import Prelude Words Atomics Lists Memory LockFree Kalloc Pages PageTable Sched Sem Heap Proc ProcSpec RbTree RbRep Timers TimersSpec TimersProps SchedTimers Online Boot BootSpec BootProps.

(** ** One CPU after another *)
Section stop.
Context {G : Type} `{!PageAllocator G} `{!KernelHeap G}.
Context (ticks : nat → Z) (B : Z) (sched_timer : nat → Z) (root_container : Z) (fuel : nat) (platform_ok : platform ticks sched_timer).
#[local] Instance stop_timers : CpuTimers cst := boot_timers ticks B sched_timer fuel platform_ok.
Abbreviation W := (world cst G).
Implicit Types (w : W) (c d : nat).
Abbreviation resume := (idle_resume ticks B sched_timer root_container fuel platform_ok 1).

Definition online_at w c : bool := default false (onlines (timers (wsched w)) !! c).

(** The process on CPU [c] calls the scheduler to go into any state [st], or the idle
    process of [c] runs on.  The step counts if the process left the CPU or the CPU
    went offline. *)
Inductive stop_step c : bool → W → W → Prop :=
  | stop_process w w' (c0 : sched) st x : online_at w c = true → Sched.cpus (wsched w) !! c = Some c0 → cur c0 ≠ cpu_idle c0 → switchable st →
      on_sched (_acquire_sched_lock;; simple_sched root_container 1 fuel c st) w = Done (x, w') → stop_step c (bool_decide (x ≠ cur c0)) w w'
  | stop_idle w w' (c0 : sched) r : online_at w c = true → Sched.cpus (wsched w) !! c = Some c0 → cur c0 = cpu_idle c0 →
      resume c w = Done (r, w') → stop_step c true w w'.

(** The scheduler works, on four CPUs, and nobody holds its lock. *)
Definition sound w : Prop := length (Sched.cpus (wsched w)) = NCPU ∧ ∃ L, sched_ok (wsched w) L.


(** *** Going offline *)
Definition off_timers c v (s : cst) : cst :=
  mkCst (Timers.tnodes s) (tms s)
    (<[c := mkCpu false (timer_root v) (if decide (daif v ≠ 0) then daif v else Z.shiftl 0xf 6) (ttbr0 v) (vbar v) (esr v) (cntp_ctl v) (cntp_tval v) (core_clock_ctrl v)]> (Timers.cpus s))
    (one_ms s) (clock_handler s) (reads s) (called s).
Lemma set_off_eq c v (s : cst) : Timers.cpus s !! c = Some v → set_cpu_off c s = Done (tt, off_timers c v s).
Proof.
  intros Hv. pose proof (lookup_lt_Some _ _ _ Hv) as Hc. unfold set_cpu_off, _arch_disable_trap, Timers.get_cpu, Timers.set_cpu, mbind, M_bind, off_timers. rewrite Hv.
  case_decide; cbn; [by rewrite Hv|]. rewrite list_lookup_insert_eq by done. cbn. by rewrite list_insert_insert_eq.
Qed.
Lemma off_timers_ok c v (s : cst) n : Timers.cpus s !! c = Some v → sched_timers_ok ticks B sched_timer fuel n s → sched_timers_ok ticks B sched_timer fuel n (off_timers c v s).
Proof.
  intros Hv (Ls & Hl & [Hi Hu Hs Hn] & Hf & Ht). exists Ls. split; [done|]. split; [|by split].
  split; [|exact Hu|exact Hs|exact Hn]. cbn [Timers.tnodes tms Timers.cpus off_timers]. by eapply inv_cpu.
Qed.
Definition with_timers (s : cst) w : W :=
  with_sched (let g := wsched w in mkKst (lnodes g) (procs g) (conts g) (groups g) (Sched.cpus g) (sched_lock g) (panic_flag g) s) w.
Lemma off_world c v w : Timers.cpus (timers (wsched w)) !! c = Some v → sound w →
  on_cst (set_cpu_off c) w = Done (tt, with_timers (off_timers c v (timers (wsched w))) w) ∧
  sound (with_timers (off_timers c v (timers (wsched w))) w).
Proof.
  intros Hv (Hn & L & Q & C & T). split.
  - unfold on_cst, on_sched, on_timers. by rewrite (set_off_eq c v).
  - split; [done|]. exists L. split; [exact Q|]. split; [exact C|]. by apply off_timers_ok.
Qed.
Lemma timers_cpus w : sound w → length (Timers.cpus (timers (wsched w))) = NCPU.
Proof. intros (Hn & L & _ & _ & Ls & Hl & Ha & _). rewrite (ti_len _ _ _ _ (ar_inv _ _ _ _ Ha)). by rewrite Hl, Hn. Qed.
Lemma online_off c d v w : Timers.cpus (timers (wsched w)) !! c = Some v →
  online_at (with_timers (off_timers c v (timers (wsched w))) w) d = if decide (d = c) then false else online_at w d.
Proof.
  intros Hv. pose proof (lookup_lt_Some _ _ _ Hv) as Hc. unfold online_at, onlines. cbn [wsched with_timers with_sched timers off_timers Timers.cpus].
  rewrite !list_lookup_fmap. destruct (decide (d = c)) as [->|E]; [by rewrite list_lookup_insert_eq|by rewrite list_lookup_insert_ne].
Qed.




(** *** The wait of [_panic] *)
Lemma panic_turn_eq w (i : nat) : sound w → (i < NCPU)%nat → panic_turn i w = Done (inl (if online_at w i then i else S i), w).
Proof.
  intros Hs Hi. unfold panic_turn. rewrite decide_True by done. destruct (lookup_lt_is_Some_2 (Timers.cpus (timers (wsched w))) i) as [v Hv]; [by rewrite timers_cpus|].
  rewrite (bind_done _ _ w v w).
  - unfold online_at, onlines. by rewrite list_lookup_fmap, Hv.
  - unfold on_cst, on_sched, on_timers, Timers.get_cpu. rewrite Hv. destruct w as [g]. by destruct g.
Qed.
Lemma panic_wait_online w d n : sound w → (d < NCPU)%nat → online_at w d = true → panic_wait n w = NoFuel.
Proof.
  intros Hs Hd Hon. unfold panic_wait. assert (H : ∀ i, (i ≤ d)%nat → loop n panic_turn i w = NoFuel); [|apply H; lia].
  induction n as [|n IH]; intros i Hi; [done|]. rewrite loop_S, (bind_done _ _ _ _ _ (panic_turn_eq w i Hs ltac:(lia))).
  destruct (online_at w i) eqn:E; [by apply IH|]. apply IH. destruct (decide (i = d)); [congruence|lia].
Qed.

(** *** The panic *)
Lemma panic_done w c : sound w → (c < NCPU)%nat →
  ∃ w', _panic c w = Done (tt, w') ∧ sound w' ∧ sched_lock (wsched w') = sched_lock (wsched w) ∧ panic_flag (wsched w') = true ∧
    Sched.cpus (wsched w') = Sched.cpus (wsched w) ∧ ∀ d, online_at w' d = if decide (d = c) then false else online_at w d.
Proof.
  intros Hs Hc. set (g := wsched w). set (w0 := with_sched (mkKst (lnodes g) (procs g) (conts g) (groups g) (Sched.cpus g) (sched_lock g) true (timers g)) w).
  assert (Hs0 : sound w0) by exact Hs. destruct (lookup_lt_is_Some_2 (Timers.cpus (timers (wsched w0))) c) as [v Hv]; [by rewrite timers_cpus|].
  destruct (off_world c v w0 Hv Hs0) as [E Hs']. eexists. split; [|split; [exact Hs'|split; [done|split; [done|split; [done|]]]]].
  - unfold _panic. rewrite (bind_done _ _ w tt w0); [exact E|]. apply on_sched_done. reflexivity.
  - intros d. by rewrite (online_off c d v w0).
Qed.


(** A panic inside the scheduler does not stop the machine: the CPU keeps the lock, so
    the process on any other CPU can never leave it, and the wait never ends. *)
Theorem panic_locked w c d (c0 : sched) : sched_lock (wsched w) = true → sound w → (c < NCPU)%nat → (d < NCPU)%nat → d ≠ c →
  online_at w d = true → Sched.cpus (wsched w) !! d = Some c0 → cur c0 ≠ cpu_idle c0 →
  ∃ w1, _panic c w = Done (tt, w1) ∧ (∀ b w2, ¬ stop_step d b w1 w2) ∧ ∀ m, panic_wait m w1 = NoFuel.
Proof.
  intros Hl Hs Hc Hd Hne Ho Hc0 Hi. destruct (panic_done w c Hs Hc) as (w1 & E & Hs1 & Hl1 & _ & Hcp & Hon). exists w1. split; [done|]. split.
  - intros b w2 Hst. inversion Hst as [? ? c1 st x _ Hc1 Hne1 _ Ex|? ? c1 r _ Hc1 Hi1 _]; subst; [|congruence].
    unfold on_sched, _acquire_sched_lock, Sched.on_lock, mbind, M_bind in Ex. rewrite Hl1, Hl in Ex. done.
  - intros m. apply (panic_wait_online w1 d); [done..|]. by rewrite Hon, decide_False.
Qed.

End stop.

(** ** A machine that has booted *)
#[local] Existing Instances sample_alloc sample_heap.
